(* ===== verification/_CoqProject ===== *)
-Q . S2P
Guppy.v
Prelude.v
Text.v
Crc32.v
Inflate.v
Canonical.v
Deflate.v
Sha256.v
DebVersion.v
DebControl.v
DebDep.v
HostFile.v
Stream.v
Gzip.v
PkgRepo.v
PkgState.v
Account.v
AccountOk.v
AccountCrypt.v
PkgPlan.v
PkgScc.v
PkgClosure.v
PkgInstall.v
Tar.v
Ar.v
Store.v
Vdisk.v
Raw.v
Vhd.v
Vmdk.v
Vdi.v
VdiSparse.v
VdiCreate.v
VdiInspect.v
Libvdisk.v
Diskio.v
Vblk.v
Reads.v
Blkdev.v
HostPath.v
Mbr.v
Gpt.v
Ext2.v
Ext2Mkfs.v
Ext2Alloc.v
Ext2Ops.v
Ext2Dir.v
Ext2Block.v
Ext2Layout.v
Ext2Meta.v
Ext2Tx.v
Ext2Place.v
Ext2File.v
Ext2Wf.v
Ext2Look.v
Ext2Append.v
Ext2Path.v
Ext2Create.v
Ext2MkfsOk.v
Ext2Sample.v
Fsck.v
FsckJudge.v
FsckInode.v
FsckOk.v
FsckDecide.v
FsckSample.v
