(* ===== verification/Guppy.v ===== *)
(** * Verification of Guppy

    Guppy builds, inspects and edits disk images offline.  A request travels
    down through layers: a command names a path in a mounted file system
    ([src/ext2.c]); the file system reads and writes blocks of a device of the
    block layer ([src/vblk.c], found by the partition scan of [src/blkdev.c]);
    the device is a slice of an attached image ([src/diskio.c]); and the image
    is a virtual disk in some container format ([lib/vdisk/src]).  Next to that
    stack stand the partition table writers ([src/mbr.c], [src/gpt.c]) and the
    readers and writers of Debian packages: [ar] and [tar] archives, gzip
    members, control files, relationship fields, versions, SHA-256.

    The development models these parts as executable definitions translated
    from the source and proves what each promises.

    ** The model

    - A machine word is a [Z] with its wrap-around written out ([u8], [u16],
      [u32], [u64] of [Prelude]); a buffer is a list of bytes in [Z], read with
      [bget] and written with [splice]; a C string is the list of its bytes
      before the NUL ([Text]).  A packed on-disk structure is the byte string it
      is, with one accessor per field.
    - A C function with an [int] status and an effect is a computation [comp S A]
      ([Prelude]): it ends with a value, with the failure code the C function
      returns, or, for a loop that is not structural, by exhausting its fuel.
      The state reached is kept at a failure, as in C.
    - A host file ([HostFile]) has contents, a length, and a largest length the
      host lets it reach, so that running out of space is a behaviour of the
      model; a failed write leaves what was stored of it.  [Stream] adds the
      position of a [FILE *], [HostPath] the tree of files by path.
    - [Store.ByteStore] is the interface between a disk and its clients, with
      the laws [ByteStoreLaws] and the reference disk [flat].  Every backend and
      every partition is shown to obey the laws; the file system and the scan
      are written against them.
    - The clock, [rand], UUID seeds and a walk's callback are parameters.
      Memory allocation does not fail, and messages are not modelled.

    ** The files

    - Foundations: [Prelude], [Text], [HostFile], [HostPath], [Stream],
      [Store] ([lib/vdisk/src/vdisk.c] and [src/fileutil.c] for the host
      helpers).
    - Virtual disks: [Vdisk] (the open disk and the format choice), [Raw],
      [Vhd], [Vmdk], [Vdi] (the backends, [backend_*.c]), [VdiSparse] (the
      invariant of dynamic images and their refinement of a flat disk),
      [VdiCreate], [VdiInspect], [Libvdisk] ([vdisk.c]: dispatch, open, create,
      inspect).
    - Block layer: [Diskio] ([diskio.c]), [Vblk] ([vblk.c]), [Blkdev]
      ([blkdev.c]: MBR, EBR and GPT scans, registration of partitions),
      [Reads] (the reads of the whole stack change nothing),
      [Crc32] (the checksums of [blkdev.c] and [gu_gzip.c]).
    - Partition tables: [Mbr] ([mbr.c]), [Gpt] ([gpt.c]).
    - EXT2: [Ext2] (structures, metadata, inodes, entry and path lookup),
      [Ext2Alloc] (bitmap allocators, allocation contexts, data runs),
      [Ext2Ops] (the operations on paths), [Ext2Mkfs] ([mkfs_ext2_core]); all
      of [ext2.c].  Their theory: [Ext2Dir] (directory blocks), [Ext2Block] and
      [Ext2Layout] (blocks of the device and the role each has), [Ext2Meta],
      [Ext2Tx], [Ext2Place], [Ext2File] (metadata in memory and on disk,
      transactions of bitmaps, the block tree of a file being written),
      [Ext2Wf], [Ext2Look], [Ext2Append], [Ext2Path] (the well-formed volume,
      lookups, insertion, paths), [Ext2Create] (creation against reading),
      [Ext2MkfsOk] (formatting), [Ext2Sample] (a concrete volume).
    - EXT2 checker: [Fsck] ([cmd_fsck_ext2.c], [fsck_ext2_blocks.c],
      [fsck_ext2_inode.c], [fsck_ext2_directory.c]).  Its theory: [FsckJudge] (a
      computation that only counts errors, against the predicate it decides),
      [FsckInode] (block trees, directories, inodes), [FsckOk] (consistency of a
      volume), [FsckDecide] (the whole check), [FsckSample] (concrete volumes).
    - Packages: [Inflate], [Canonical], [Deflate], [Gzip] ([gu_gzip.c]),
      [Sha256] ([cmd_sha256.c]), [Tar] ([tar.c], [tar_write.c]), [Ar]
      ([ar_write.c], [deb.c]), [DebVersion], [DebControl], [DebDep]
      ([deb_version.c], [deb_control.c], [deb_dep.c]).
    - Installing packages: [PkgRepo] (the table of the packages the registered
      repositories offer, [pkg_repo.c]), [PkgState] (the status file of a target,
      [pkg_state.c]), [PkgPlan] (the dependency planner, [pkg_plan.c]) with its
      theory [PkgScc] (Tarjan's algorithm), [PkgClosure] (the graph is the closure
      of the request), [PkgInstall] (the order of printing and installing).
    - Accounts of a target: [Account] (the texts of passwd, shadow and group, and
      what [useradd] and [passwd] make of them: [account_util.c],
      [cmd_useradd.c], [cmd_passwd.c]), [AccountOk] (their correctness),
      [AccountCrypt] (the password hash of [account_util.c]).

    ** The theorems

    - Refinement: an open disk of any format answers every sequence of requests
      as a flat disk ([Libvdisk.vdisk_refines_flat]), and so does a partition
      ([Vblk.slice_refines_flat]); writes through one partition leave every
      other one alone ([Vblk.vblk_write_isolated]).
    - Invariants: a write to a dynamic VDI keeps the block map a bijection even
      when the host runs out of space ([VdiSparse.vdi_write_safe]); an image of
      at most 16 Mi blocks that inspection reports valid satisfies that invariant
      ([VdiInspect.vdi_inspect_sound]; larger maps are not searched for
      duplicates); after a scan, which only reads the disk, its children in the
      registry are partitions found on it, and all of them as long as the
      registry has room and the disk's name at most 28 characters
      ([Blkdev.disk_scan_snapshot]); a GPT header is used only when both its
      checksums are right ([Blkdev.gpt_validate_sound]); insertion into and
      removal from a directory block keep it a chain of records and change one
      entry ([Ext2Dir]).
    - The file system end to end: formatting a device of at most 1024 groups
      leaves a sound volume ([Ext2MkfsOk.mkfs_ext2_sound]; larger ones are
      formatted too, but cannot be loaded); a file created on a sound volume
      reads back as written, every other path and file is as before, and the
      volume is sound again ([Ext2Create.ext2_create_correct]).  The checker
      never writes; on a volume it opens it ends, unless that claims 2^32-1
      inodes, and counts no error exactly when the volume is consistent
      ([FsckDecide.ext2_fsck_decides]).
    - Round trips: create and open for every container format (a VHD passes its
      own inspection from 68 sectors on, [Vhd.vhd_create_open]), MBR and GPT
      writers against the scan and the readers, [tar], [ar], stored gzip
      members, control files, relationship fields.
    - Functional correctness: the Huffman tables decode the canonical code, the
      inflater expands every encoded block, versions are ordered by the key of
      the Debian policy, streamed hashing is one-shot SHA-256, both CRC-32
      routines agree.
    - Packages to install: the planner ends on every request, its components are
      the strongly connected ones ([PkgScc.build_components_scc]), a valid plan of
      fewer than 4096 edges meets every dependency ([PkgClosure.build_plan_closed]),
      and a valid plan is installed along its edges, each package once
      ([PkgInstall.pkg_plan_order]);
      registering a repository is undone by removing it, searches find the best
      version, and setting a package installed touches no other package.
    - Accounts: adding a user appends its lines, makes its entry in passwd, under
      a number above the others unless one is asked for, and leaves the entries
      of all other names ([AccountOk.useradd_correct]); setting a password changes
      the shadow entry of one name ([AccountOk.passwd_correct]); the hash is
      SHA-crypt, but for one step where the password's length is a positive
      multiple of 32 ([AccountCrypt.sha256_crypt_correct]).
    - Termination and divergence: the inflater, the package scan and the EBR walk
      end under stated conditions; [Blkdev.ebr_self_link_diverges],
      [Ar.deb_negative_size_diverges] and [FsckDecide.check_links_diverges] show
      inputs on which a loop never does.
    - Errors: [Tar.tar_large_file_hides_rest] (a file of 4 GiB or more whose data is
      zero where the walk resumes), [DebDep.deb_dep_unclosed_dropped],
      [Gpt.gpt_written_header_refused].

    ** Fuel and bounds

    Fuel appears where a loop has no structural measure.  Each bound is a
    definition next to its loop: a directory block of [bs] bytes has at most
    [bs / 8] records ([dir_fuel]), a path at most its length in components, a
    file [len / bs + 1] blocks ([read_fuel]), a copy one turn per buffer
    ([copy_fuel]), the inflater the bits of its input, the planner's recursions
    the number of packages and components; [Deflate.inflate_total],
    [Ar.deb_open_terminates], [Ext2Dir.dir_fuel_enough] and the theorems of the
    planner show them enough.  The checker's loops have one more than a block's
    records ([check_entries]), the inodes and one ([check_links]) and 32 turns
    ([powerof]); its theorem says that they never run out.  The search for a user
    number takes a line a turn, the hash of a password a digest or a bit of the
    password's length.

    ** What is not modelled

    - The VFS and the mount table ([vfs*.c], [mnttab.c]), which dispatch by
      path to the file systems: reading and storing account files, repositories
      and the status file of packages are therefore arguments of the definitions
      that use them, as texts.
    - ISO 9660 ([iso9660*.c]) and the FAT and NTFS code ([mkfs_fat_core.c],
      [mkfs_ntfs_core.c], [vfs_fat.c], ...): readers and writers of fixed layouts.
    - The unpacking of packages and their scripts and triggers ([pkg_preunpack.c],
      [pkg_configure.c], [pkg_scripts.c], [pkg_triggers.c]), which drive the VFS and the host.
    - The XZ libraries under [lib/xz] and [lib/xzenc], third-party code, and
      their callers.
    - The shell and the front ends of the commands, which read arguments, print,
      and call the parts above. *)
From stdpp Require Import base.
