(* ===== verification/Prelude.v ===== *)
(** * Prelude: the vocabulary every component shares

    Machine words with their wrap-around written out, buffers of bytes indexed
    by [Z], the error-and-state monad the C functions are read into, and the
    generic lemmas on ranges of bytes ([bytes_at], [patch]) that carry the
    proofs about devices. *)
From stdpp Require Export base numbers list list_numbers option strings.
From Stdlib Require Export ZArith Lia Ascii.
Global Open Scope list_scope.

Declare Scope guppy_scope.
Delimit Scope guppy_scope with guppy.
Global Open Scope Z_scope.

(** ** C limits *)

Definition UINT32_MAX : Z := 2 ^ 32 - 1.
Definition UINT64_MAX : Z := 2 ^ 64 - 1.
(** [LONG_MAX] and the largest [off_t] of an LP64 host. *)
Definition LONG_MAX : Z := 2 ^ 63 - 1.

(** ** Tactics *)

(** [lia] with division and modulo by (positive) terms expanded. *)
Ltac dlia := Z.to_euclidean_division_equations; lia.

(** [lia] after computing record projections, with the C limits unfolded. *)
Ltac slia := simpl in *; unfold LONG_MAX, UINT32_MAX, UINT64_MAX in *; lia.

(** The same without the computation. *)
Ltac ulia := unfold LONG_MAX, UINT32_MAX, UINT64_MAX in *; lia.

(** Case split on the next boolean test of the goal or of a hypothesis. *)
Ltac btest :=
  match goal with
  | |- context [Z.leb ?a ?b] => destruct (Z.leb_spec a b)
  | |- context [Z.ltb ?a ?b] => destruct (Z.ltb_spec a b)
  | |- context [Z.eqb ?a ?b] => destruct (Z.eqb_spec a b)
  | H : context [Z.leb ?a ?b] |- _ => destruct (Z.leb_spec a b)
  | H : context [Z.ltb ?a ?b] |- _ => destruct (Z.ltb_spec a b)
  | H : context [Z.eqb ?a ?b] |- _ => destruct (Z.eqb_spec a b)
  end.

(** Split every boolean test, discharging the impossible branches. *)
Ltac btests := repeat (btest; simpl in *; try lia); try done.

(** Decide a closed proposition by evaluation. *)
Ltac decide_now := apply (bool_decide_unpack _); vm_compute; exact I.

(** ** C integer conversions *)

Definition u8 (z : Z) : Z := z mod 2 ^ 8.
Definition u16 (z : Z) : Z := z mod 2 ^ 16.
Definition u32 (z : Z) : Z := z mod 2 ^ 32.
Definition u64 (z : Z) : Z := z mod 2 ^ 64.

Lemma u8_range z : 0 <= u8 z < 256.
Proof. apply (Z.mod_pos_bound z (2 ^ 8)); lia. Qed.
Lemma u16_range z : 0 <= u16 z < 2 ^ 16.
Proof. apply Z.mod_pos_bound; lia. Qed.
Lemma u32_range z : 0 <= u32 z < 2 ^ 32.
Proof. apply Z.mod_pos_bound; lia. Qed.
Lemma u64_range z : 0 <= u64 z < 2 ^ 64.
Proof. apply Z.mod_pos_bound; lia. Qed.
Lemma u8_id z : 0 <= z < 256 -> u8 z = z.
Proof. intros; apply Z.mod_small; lia. Qed.
Lemma u16_id z : 0 <= z < 2 ^ 16 -> u16 z = z.
Proof. apply Z.mod_small. Qed.
Lemma u32_id z : 0 <= z < 2 ^ 32 -> u32 z = z.
Proof. apply Z.mod_small. Qed.
Lemma u64_id z : 0 <= z < 2 ^ 64 -> u64 z = z.
Proof. apply Z.mod_small. Qed.

(** Moving inside one block of size [b]. *)
Lemma div_mod_within a i b :
  0 < b -> 0 <= a mod b + i < b -> (a + i) / b = a / b /\ (a + i) mod b = a mod b + i.
Proof.
  intros Hb Hi. pose proof (Z.div_mod a b ltac:(lia)) as E.
  split; symmetry; [apply Z.div_unique with (a mod b + i)|apply Z.mod_unique with (a / b)]; lia.
Qed.

(** ** Outcomes and the error/state monad

    A C function that returns an [int] status and changes an object is read as
    a computation: it ends with a value, with the status it fails with, or (for
    a loop of the model only) by exhausting its fuel.  The state reached at a
    failure is kept, as the C code keeps it. *)
Inductive outcome (A : Type) : Type :=
| Done (a : A)
| Fail (rc : Z)
| NoFuel.
Arguments Done {A} a.
Arguments Fail {A} rc.
Arguments NoFuel {A}.

Definition comp (S A : Type) : Type := S -> outcome A * S.

Definition ret {S A} (a : A) : comp S A := fun s => (Done a, s).
Definition bind {S A B} (c : comp S A) (k : A -> comp S B) : comp S B := fun s =>
  match c s with
  | (Done a, s') => k a s'
  | (Fail rc, s') => (Fail rc, s')
  | (NoFuel, s') => (NoFuel, s')
  end.

Notation "'let*' x := c 'in' k" := (bind c (fun x => k))
  (at level 10, x pattern, c at level 200, k at level 200) : guppy_scope.
Notation "c ';;;' k" := (bind c (fun _ => k))
  (at level 100, k at level 200, right associativity) : guppy_scope.
Global Open Scope guppy_scope.

Definition fail {S A} (rc : Z) : comp S A := fun s => (Fail rc, s).
Definition nofuel {S A} : comp S A := fun s => (NoFuel, s).
Definition get {S} : comp S S := fun s => (Done s, s).
Definition gets {S A} (f : S -> A) : comp S A := fun s => (Done (f s), s).
Definition modify {S} (f : S -> S) : comp S unit := fun s => (Done tt, f s).
(** [if (!(b)) return rc;] *)
Definition require {S} (b : bool) (rc : Z) : comp S unit :=
  if b then ret tt else fail rc.
(** Run [c] and report every failure of it as [rc]. *)
Definition fail_as {S A} (rc : Z) (c : comp S A) : comp S A := fun s =>
  match c s with (Fail _, s') => (Fail rc, s') | r => r end.

(** A failure [rc] when there is no value. *)
Definition of_option {S A} (rc : Z) (o : option A) : comp S A :=
  match o with Some a => ret a | None => fail rc end.

(** Run a computation on a component of the state. *)
Definition zoom {S T A} (get : S -> T) (set : T -> S -> S) (c : comp T A) : comp S A :=
  fun s => let '(o, t) := c (get s) in (o, set t s).

(** Run [c], keeping its failure as a value ([if (f() != 0) ...]). *)
Definition try {S A} (c : comp S A) : comp S (option A) := fun s =>
  match c s with
  | (Done a, s') => (Done (Some a), s')
  | (Fail _, s') => (Done None, s')
  | (NoFuel, s') => (NoFuel, s')
  end.

Lemma bind_done {S A B} (c : comp S A) (k : A -> comp S B) s a s' :
  c s = (Done a, s') -> bind c k s = k a s'.
Proof. unfold bind. intros ->. done. Qed.
Lemma bind_fail {S A B} (c : comp S A) (k : A -> comp S B) s rc s' :
  c s = (Fail rc, s') -> bind c k s = (Fail rc, s').
Proof. unfold bind. intros ->. done. Qed.
Lemma bind_assoc {S A B C} (c : comp S A) (k : A -> comp S B) (h : B -> comp S C) s :
  bind (bind c k) h s = bind c (fun a => bind (k a) h) s.
Proof. unfold bind. destruct (c s) as [[a|rc|] s']; done. Qed.
Lemma bind_inv {S A B} (c : comp S A) (k : A -> comp S B) s b s'' :
  bind c k s = (Done b, s'') -> exists a s', c s = (Done a, s') /\ k a s' = (Done b, s'').
Proof.
  unfold bind. destruct (c s) as [[a|rc|] s'] eqn:E; intros H; try discriminate.
  eauto.
Qed.
Lemma fail_as_done {S A} rc (c : comp S A) s a s' : c s = (Done a, s') -> fail_as rc c s = (Done a, s').
Proof. unfold fail_as. by intros ->. Qed.
Lemma require_true {S A} (k : unit -> comp S A) b rc s :
  b = true -> bind (require b rc) k s = k tt s.
Proof. intros ->. done. Qed.
Lemma require_false {S A} (k : unit -> comp S A) b rc s :
  b = false -> bind (require b rc) k s = (Fail rc, s).
Proof. intros ->. done. Qed.
Lemma require_inv {S A} b rc (k : unit -> comp S A) s a s' :
  bind (require b rc) k s = (Done a, s') -> b = true /\ k tt s = (Done a, s').
Proof. destruct b; [done|]. by rewrite require_false. Qed.
Lemma bind_ret {S A B} (a : A) (k : A -> comp S B) s : bind (ret a) k s = k a s.
Proof. done. Qed.
Lemma bind_gets {S A B} (g : S -> A) (k : A -> comp S B) s : bind (gets g) k s = k (g s) s.
Proof. done. Qed.

(** ** Buffers of bytes, indexed by [Z] *)

Definition is_byte (b : Z) : Prop := 0 <= b < 256.
#[global] Instance is_byte_dec b : Decision (is_byte b).
Proof. unfold is_byte. solve_decision. Defined.

(** Length of a buffer as a C [size_t]. *)
Definition zlen {A} (l : list A) : Z := Z.of_nat (length l).
(** [b[i]], for an index the C code has checked. *)
Definition bget (b : list Z) (i : Z) : Z := nth (Z.to_nat i) b 0.
(** [memset(p, c, n)] on a fresh buffer. *)
Definition zrep {A} (n : Z) (c : A) : list A := replicate (Z.to_nat n) c.
(** The [n] bytes at offset [off] of a buffer. *)
Definition sub {A} (b : list A) (off n : Z) : list A :=
  take (Z.to_nat n) (drop (Z.to_nat off) b).
(** [memcpy(b + off, src, strlen(src))] inside a buffer. *)
Definition splice {A} (b : list A) (off : Z) (src : list A) : list A :=
  take (Z.to_nat off) b ++ src ++ drop (Z.to_nat off + length src) b.

Lemma zlen_nonneg {A} (l : list A) : 0 <= zlen l.
Proof. unfold zlen; lia. Qed.
Lemma zlen_nil {A} : zlen ([] : list A) = 0.
Proof. done. Qed.
Lemma zlen_cons {A} (x : A) l : zlen (x :: l) = 1 + zlen l.
Proof. unfold zlen; simpl; lia. Qed.
Lemma zlen_app {A} (l k : list A) : zlen (l ++ k) = zlen l + zlen k.
Proof. unfold zlen; rewrite length_app; lia. Qed.
Lemma zlen_zrep {A} n (c : A) : 0 <= n -> zlen (zrep n c) = n.
Proof. unfold zlen, zrep; rewrite length_replicate; lia. Qed.
Lemma zlen_sub {A} (b : list A) off n :
  0 <= off -> 0 <= n -> off + n <= zlen b -> zlen (sub b off n) = n.
Proof. unfold zlen, sub; rewrite length_take, length_drop; lia. Qed.
Lemma zlen_take {A} n (b : list A) : 0 <= n <= zlen b -> zlen (take (Z.to_nat n) b) = n.
Proof. unfold zlen; rewrite length_take; lia. Qed.
Lemma zlen_drop {A} n (b : list A) : 0 <= n <= zlen b -> zlen (drop (Z.to_nat n) b) = zlen b - n.
Proof. unfold zlen; rewrite length_drop; lia. Qed.
Lemma zlen_splice {A} (b src : list A) off :
  0 <= off -> off + zlen src <= zlen b -> zlen (splice b off src) = zlen b.
Proof. unfold zlen, splice; rewrite !length_app, length_take, length_drop; lia. Qed.
Lemma zlen_fmap {A B} (f : A -> B) l : zlen (f <$> l) = zlen l.
Proof. unfold zlen; by rewrite length_fmap. Qed.
Create Rewrite HintDb zlen.
#[export] Hint Rewrite @zlen_nil @zlen_cons @zlen_app @zlen_fmap : zlen.

Lemma bget_app_l b c i : 0 <= i < zlen b -> bget (b ++ c) i = bget b i.
Proof. intros; unfold bget, zlen in *; apply app_nth1; lia. Qed.
Lemma bget_app_r b c i : zlen b <= i -> bget (b ++ c) i = bget c (i - zlen b).
Proof. intros; unfold bget, zlen in *; rewrite app_nth2 by lia; f_equal; lia. Qed.
Lemma bget_drop b n i : 0 <= n -> 0 <= i -> bget (drop (Z.to_nat n) b) i = bget b (n + i).
Proof.
  intros; unfold bget. rewrite !nth_lookup, lookup_drop. do 2 f_equal; lia.
Qed.
Lemma bget_take b n i : 0 <= i < n -> bget (take (Z.to_nat n) b) i = bget b i.
Proof. intros; unfold bget. rewrite !nth_lookup, lookup_take_lt by lia. done. Qed.
Lemma bget_sub b off n i :
  0 <= off -> 0 <= i < n -> bget (sub b off n) i = bget b (off + i).
Proof. intros. unfold sub. by rewrite bget_take, bget_drop by lia. Qed.
Lemma bget_zrep n c i : 0 <= i < n -> bget (zrep n c) i = c.
Proof.
  intros. unfold bget, zrep. rewrite nth_lookup, lookup_replicate_2 by lia. done.
Qed.
Lemma bget_zrep0 n i : bget (zrep n 0) i = 0.
Proof.
  unfold bget, zrep. rewrite nth_lookup.
  destruct (replicate _ _ !! _) eqn:E; simpl; [|done]. apply lookup_replicate_1 in E. by destruct E.
Qed.
Lemma bget_splice_in b off src i :
  0 <= off -> off + zlen src <= zlen b -> off <= i < off + zlen src ->
  bget (splice b off src) i = bget src (i - off).
Proof.
  intros. unfold splice. rewrite bget_app_r; rewrite zlen_take by (pose proof (zlen_nonneg src); lia); [|lia].
  by rewrite bget_app_l by lia.
Qed.
Lemma bget_splice_out b off src i :
  0 <= off -> off + zlen src <= zlen b -> 0 <= i ->
  ~ (off <= i < off + zlen src) -> bget (splice b off src) i = bget b i.
Proof.
  intros. unfold splice. pose proof (zlen_nonneg src). destruct (decide (i < off)).
  - rewrite bget_app_l by (rewrite zlen_take by lia; lia). apply bget_take; lia.
  - rewrite bget_app_r; rewrite zlen_take by lia; [|lia].
    rewrite bget_app_r by lia.
    replace (Z.to_nat off + length src)%nat with (Z.to_nat (off + zlen src)) by (unfold zlen; lia).
    rewrite bget_drop by lia. f_equal; lia.
Qed.
Lemma is_byte_bget b i : Forall is_byte b -> is_byte (bget b i).
Proof.
  intros H. unfold bget. rewrite nth_lookup. destruct (b !! _) eqn:E; simpl.
  - eapply Forall_lookup_1; eauto.
  - unfold is_byte; lia.
Qed.
Lemma buf_ext b c :
  zlen b = zlen c -> (forall i, 0 <= i < zlen b -> bget b i = bget c i) -> b = c.
Proof.
  intros Hl H. apply nth_ext with 0 0; [unfold zlen in *; lia|].
  intros n Hn. specialize (H (Z.of_nat n)). unfold bget, zlen in H. rewrite Nat2Z.id in H. apply H; lia.
Qed.

(** The bytes of a C string literal, without its terminating NUL. *)
Definition str_bytes (s : string) : list Z :=
  (fun a => Z.of_N (N_of_ascii a)) <$> String.list_ascii_of_string s.

Lemma str_bytes_is_byte s : Forall is_byte (str_bytes s).
Proof.
  unfold str_bytes. apply Forall_fmap, Forall_forall. intros a _. unfold is_byte, compose.
  pose proof (N_ascii_bounded a). lia.
Qed.

(** ** Integers in buffers: little- and big-endian fields *)

Definition le16 (b : list Z) (p : Z) : Z := Z.lor (bget b p) (Z.shiftl (bget b (p + 1)) 8).
Definition le32 (b : list Z) (p : Z) : Z :=
  Z.lor (Z.lor (Z.lor (bget b p) (Z.shiftl (bget b (p + 1)) 8))
               (Z.shiftl (bget b (p + 2)) 16)) (Z.shiftl (bget b (p + 3)) 24).
Definition le64 (b : list Z) (p : Z) : Z := Z.lor (le32 b p) (Z.shiftl (le32 b (p + 4)) 32).
Definition put16 (v : Z) : list Z := [u8 v; u8 (Z.shiftr v 8)].
Definition put32 (v : Z) : list Z :=
  [u8 v; u8 (Z.shiftr v 8); u8 (Z.shiftr v 16); u8 (Z.shiftr v 24)].
Definition put64 (v : Z) : list Z := put32 (u32 v) ++ put32 (u32 (Z.shiftr v 32)).

Definition be16 (b : list Z) (p : Z) : Z := Z.lor (Z.shiftl (bget b p) 8) (bget b (p + 1)).
Definition be32 (b : list Z) (p : Z) : Z :=
  Z.lor (Z.lor (Z.lor (Z.shiftl (bget b p) 24) (Z.shiftl (bget b (p + 1)) 16))
               (Z.shiftl (bget b (p + 2)) 8)) (bget b (p + 3)).
Definition be64 (b : list Z) (p : Z) : Z := Z.lor (Z.shiftl (be32 b p) 32) (be32 b (p + 4)).
Definition put16be (v : Z) : list Z := [u8 (Z.shiftr v 8); u8 v].
Definition put32be (v : Z) : list Z :=
  [u8 (Z.shiftr v 24); u8 (Z.shiftr v 16); u8 (Z.shiftr v 8); u8 v].
Definition put64be (v : Z) : list Z := put32be (u32 (Z.shiftr v 32)) ++ put32be (u32 v).

(** [a | (b << n)] of a value below [2^n] is the sum. *)
Lemma lor_shiftl_add a b n : 0 <= n -> 0 <= a < 2 ^ n -> Z.lor a (Z.shiftl b n) = a + b * 2 ^ n.
Proof.
  intros Hn Ha. rewrite <- Z.shiftl_mul_pow2 by lia.
  rewrite Z.add_nocarry_lxor, Z.lxor_lor; try done; apply Z.bits_inj'; intros k Hk;
    rewrite Z.land_spec, Z.bits_0, Z.shiftl_spec by lia;
    (destruct (Z.ltb_spec k n);
     [ rewrite (Z.testbit_neg_r b) by lia; apply andb_false_r
     | rewrite <- (Z.mod_small a (2 ^ n)) by lia; rewrite Z.mod_pow2_bits_high by lia; done ]).
Qed.

Section words.
  Context (b : list Z) (Hb : Forall is_byte b).

Lemma le16_sum p : le16 b p = bget b p + 2 ^ 8 * bget b (p + 1).
  Proof using Hb.
    unfold le16. pose proof (is_byte_bget b p Hb). unfold is_byte in *.
    rewrite lor_shiftl_add by lia. lia.
  Qed.
Lemma le32_sum p :
    le32 b p = bget b p + 2 ^ 8 * bget b (p + 1) + 2 ^ 16 * bget b (p + 2) + 2 ^ 24 * bget b (p + 3).
  Proof using Hb.
    unfold le32. pose proof (is_byte_bget b p Hb). pose proof (is_byte_bget b (p + 1) Hb).
    pose proof (is_byte_bget b (p + 2) Hb). unfold is_byte in *.
    rewrite (lor_shiftl_add (bget b p)) by lia. rewrite (lor_shiftl_add _ _ 16) by lia.
    rewrite lor_shiftl_add by lia. lia.
  Qed.
Lemma le32_range p : 0 <= le32 b p < 2 ^ 32.
  Proof using Hb.
    rewrite le32_sum. pose proof (is_byte_bget b p Hb). pose proof (is_byte_bget b (p + 1) Hb).
    pose proof (is_byte_bget b (p + 2) Hb). pose proof (is_byte_bget b (p + 3) Hb).
    unfold is_byte in *. lia.
  Qed.
Lemma le64_sum p : le64 b p = le32 b p + 2 ^ 32 * le32 b (p + 4).
  Proof using Hb. unfold le64. rewrite lor_shiftl_add by (pose proof (le32_range p); lia). lia. Qed.
Lemma be16_sum p : be16 b p = 2 ^ 8 * bget b p + bget b (p + 1).
  Proof using Hb.
    unfold be16. pose proof (is_byte_bget b (p + 1) Hb). unfold is_byte in *.
    rewrite Z.lor_comm, lor_shiftl_add by lia. lia.
  Qed.
Lemma be32_sum p :
    be32 b p = 2 ^ 24 * bget b p + 2 ^ 16 * bget b (p + 1) + 2 ^ 8 * bget b (p + 2) + bget b (p + 3).
  Proof using Hb.
    unfold be32. pose proof (is_byte_bget b (p + 1) Hb). pose proof (is_byte_bget b (p + 2) Hb).
    pose proof (is_byte_bget b (p + 3) Hb). unfold is_byte in *.
    rewrite (Z.lor_comm (Z.lor (Z.lor _ _) _)), (Z.lor_comm (Z.lor _ _)), (Z.lor_comm (Z.shiftl (bget b p) 24)).
    rewrite !Z.lor_assoc. rewrite (lor_shiftl_add (bget b (p + 3))) by lia.
    rewrite (lor_shiftl_add _ _ 16) by lia. rewrite lor_shiftl_add by lia. lia.
  Qed.
Lemma be32_range p : 0 <= be32 b p < 2 ^ 32.
  Proof using Hb.
    rewrite be32_sum. pose proof (is_byte_bget b p Hb). pose proof (is_byte_bget b (p + 1) Hb).
    pose proof (is_byte_bget b (p + 2) Hb). pose proof (is_byte_bget b (p + 3) Hb).
    unfold is_byte in *. lia.
  Qed.
Lemma be64_sum p : be64 b p = 2 ^ 32 * be32 b p + be32 b (p + 4).
  Proof using Hb.
    unfold be64. rewrite Z.lor_comm, lor_shiftl_add by (pose proof (be32_range (p + 4)); lia). lia.
  Qed.
End words.

Lemma put32_bytes v : Forall is_byte (put32 v).
Proof. unfold put32. repeat constructor; apply u8_range. Qed.
Lemma put32be_bytes v : Forall is_byte (put32be v).
Proof. unfold put32be. repeat constructor; apply u8_range. Qed.
Lemma put16be_bytes v : Forall is_byte (put16be v).
Proof. unfold put16be. repeat constructor; apply u8_range. Qed.
Lemma put64_bytes v : Forall is_byte (put64 v).
Proof. unfold put64. apply Forall_app; split; apply put32_bytes. Qed.
Lemma put64be_bytes v : Forall is_byte (put64be v).
Proof. unfold put64be. apply Forall_app; split; apply put32be_bytes. Qed.

Ltac word_dlia := unfold u8, u16, u32; rewrite ?Z.shiftr_div_pow2 by lia; dlia.

Lemma le32_put32 v : 0 <= v < 2 ^ 32 -> le32 (put32 v) 0 = v.
Proof.
  intros. rewrite le32_sum by apply put32_bytes. unfold put32, bget; simpl. word_dlia.
Qed.
Lemma be32_put32be v : 0 <= v < 2 ^ 32 -> be32 (put32be v) 0 = v.
Proof.
  intros. rewrite be32_sum by apply put32be_bytes. unfold put32be, bget; simpl. word_dlia.
Qed.

(** A field depends only on the bytes it covers. *)
Lemma le32_ext b c p q :
  (forall i, 0 <= i < 4 -> bget b (p + i) = bget c (q + i)) -> le32 b p = le32 c q.
Proof.
  intros H. unfold le32. rewrite <- (Z.add_0_r p), <- (Z.add_0_r q) at 1.
  by rewrite !H by lia.
Qed.
Lemma be32_ext b c p q :
  (forall i, 0 <= i < 4 -> bget b (p + i) = bget c (q + i)) -> be32 b p = be32 c q.
Proof.
  intros H. unfold be32. rewrite <- (Z.add_0_r p), <- (Z.add_0_r q) at 1.
  by rewrite !H by lia.
Qed.
Lemma be64_ext b c p q :
  (forall i, 0 <= i < 8 -> bget b (p + i) = bget c (q + i)) -> be64 b p = be64 c q.
Proof.
  intros H. unfold be64. f_equal; [f_equal|]; apply be32_ext; intros i Hi.
  - apply H; lia.
  - specialize (H (4 + i) ltac:(lia)). by rewrite !Z.add_assoc in H.
Qed.
Lemma le64_ext b c p q :
  (forall i, 0 <= i < 8 -> bget b (p + i) = bget c (q + i)) -> le64 b p = le64 c q.
Proof.
  intros H. unfold le64. f_equal; [|f_equal]; apply le32_ext; intros i Hi.
  - apply H; lia.
  - specialize (H (4 + i) ltac:(lia)). by rewrite !Z.add_assoc in H.
Qed.
Lemma le64_put64 v : 0 <= v < 2 ^ 64 -> le64 (put64 v) 0 = v.
Proof.
  intros. rewrite le64_sum by apply put64_bytes.
  rewrite (le32_ext (put64 v) (put32 (u32 v)) 0 0), (le32_ext (put64 v) (put32 (u32 (Z.shiftr v 32))) (0 + 4) 0).
  - rewrite !le32_put32 by apply u32_range. word_dlia.
  - intros i Hi. unfold put64. rewrite bget_app_r by (unfold zlen; simpl; lia). f_equal; unfold zlen; simpl; lia.
  - intros i Hi. unfold put64. rewrite bget_app_l by (unfold zlen; simpl; lia). done.
Qed.
Lemma be64_put64be v : 0 <= v < 2 ^ 64 -> be64 (put64be v) 0 = v.
Proof.
  intros. rewrite be64_sum by apply put64be_bytes.
  rewrite (be32_ext (put64be v) (put32be (u32 (Z.shiftr v 32))) 0 0), (be32_ext (put64be v) (put32be (u32 v)) (0 + 4) 0).
  - rewrite !be32_put32be by apply u32_range. word_dlia.
  - intros i Hi. unfold put64be. rewrite bget_app_r by (unfold zlen; simpl; lia). f_equal; unfold zlen; simpl; lia.
  - intros i Hi. unfold put64be. rewrite bget_app_l by (unfold zlen; simpl; lia). done.
Qed.

(** ** Ranges of an addressable content [Z -> Z] *)

(** The [n] bytes at [off] of a content. *)
Definition bytes_at (f : Z -> Z) (off n : Z) : list Z := f <$> seqZ off n.
(** The content after storing [b] at [off]. *)
Definition patch (f : Z -> Z) (off : Z) (b : list Z) (i : Z) : Z :=
  if (off <=? i) && (i <? off + zlen b) then bget b (i - off) else f i.

Lemma zlen_bytes_at f off n : 0 <= n -> zlen (bytes_at f off n) = n.
Proof. intros. unfold zlen, bytes_at. rewrite length_fmap, length_seqZ. lia. Qed.
Lemma bget_bytes_at f off n i : 0 <= i < n -> bget (bytes_at f off n) i = f (off + i).
Proof.
  intros. unfold bget, bytes_at. rewrite nth_lookup, list_lookup_fmap, lookup_seqZ_lt by lia.
  simpl. f_equal; lia.
Qed.
Lemma bytes_at_0 f off : bytes_at f off 0 = [].
Proof. done. Qed.
Lemma bytes_at_eq f off n b :
  zlen b = n -> (forall i, 0 <= i < n -> f (off + i) = bget b i) -> bytes_at f off n = b.
Proof.
  intros Hl H. pose proof (zlen_nonneg b). apply buf_ext; rewrite zlen_bytes_at by lia; [done|].
  intros i Hi. rewrite bget_bytes_at by lia. apply H; lia.
Qed.
Lemma bytes_at_ext f g off n :
  (forall i, off <= i < off + n -> f i = g i) -> bytes_at f off n = bytes_at g off n.
Proof.
  intros H. unfold bytes_at. apply list_fmap_ext. intros i x Hx%lookup_seqZ. apply H. lia.
Qed.
Lemma bytes_at_app f off n m :
  0 <= n -> 0 <= m -> bytes_at f off (n + m) = bytes_at f off n ++ bytes_at f (off + n) m.
Proof. intros. unfold bytes_at. by rewrite seqZ_app, fmap_app by lia. Qed.
Lemma bytes_at_const c off n : bytes_at (fun _ => c) off n = zrep n c.
Proof.
  unfold bytes_at, zrep. apply list_eq. intros i. rewrite list_lookup_fmap.
  destruct (decide (i < Z.to_nat n)%nat).
  - rewrite lookup_seqZ_lt, lookup_replicate_2 by lia. done.
  - rewrite lookup_seqZ_ge, lookup_replicate_None_2 || (rewrite lookup_seqZ_ge by lia; symmetry; apply lookup_replicate_None; lia); done.
Qed.
Lemma Forall_bytes_at (P : Z -> Prop) f off n :
  (forall i, off <= i < off + n -> P (f i)) -> Forall P (bytes_at f off n).
Proof.
  intros H. unfold bytes_at. apply Forall_fmap, Forall_forall. intros x Hx%elem_of_seqZ. apply H. lia.
Qed.

Lemma patch_in f off b i : off <= i < off + zlen b -> patch f off b i = bget b (i - off).
Proof. intros. unfold patch. btests. Qed.
Lemma patch_out f off b i : ~ (off <= i < off + zlen b) -> patch f off b i = f i.
Proof. intros. unfold patch. btests. Qed.
Lemma patch_nil f off i : patch f off [] i = f i.
Proof. apply patch_out. unfold zlen; simpl; lia. Qed.
Lemma patch_app f off b c i :
  patch (patch f off b) (off + zlen b) c i = patch f off (b ++ c) i.
Proof.
  unfold patch. rewrite zlen_app. pose proof (zlen_nonneg b). pose proof (zlen_nonneg c).
  btests; rewrite ?bget_app_l, ?bget_app_r by lia; f_equal; lia.
Qed.
Lemma patch_ext f g off b i : (~ (off <= i < off + zlen b) -> f i = g i) -> patch f off b i = patch g off b i.
Proof. intros H. unfold patch. btests; apply H; lia. Qed.
Lemma patch_shift f c off b i : patch f (c + off) b (c + i) = patch (fun x => f (c + x)) off b i.
Proof. unfold patch. btests; f_equal; lia. Qed.
Lemma bytes_at_patch f off b : bytes_at (patch f off b) off (zlen b) = b.
Proof.
  apply bytes_at_eq; [done|]. intros i Hi. rewrite patch_in by lia. f_equal; lia.
Qed.
Lemma bytes_at_patch_out f off b o n :
  o + n <= off \/ off + zlen b <= o -> bytes_at (patch f off b) o n = bytes_at f o n.
Proof. intros. apply bytes_at_ext. intros i Hi. apply patch_out. lia. Qed.
Create Rewrite HintDb patch.
#[export] Hint Rewrite patch_nil @patch_app : patch.

(** Words and buffers are opened by their lemmas, not by [simpl]. *)
#[global] Arguments put16 : simpl never.
#[global] Arguments put32 : simpl never.
#[global] Arguments put64 : simpl never.
#[global] Arguments put16be : simpl never.
#[global] Arguments put32be : simpl never.
#[global] Arguments put64be : simpl never.
#[global] Arguments le16 : simpl never.
#[global] Arguments le32 : simpl never.
#[global] Arguments le64 : simpl never.
#[global] Arguments be16 : simpl never.
#[global] Arguments be32 : simpl never.
#[global] Arguments be64 : simpl never.
#[global] Arguments u8 : simpl never.
#[global] Arguments u16 : simpl never.
#[global] Arguments u32 : simpl never.
#[global] Arguments u64 : simpl never.
#[global] Arguments patch : simpl never.
#[global] Arguments bytes_at : simpl never.
#[global] Arguments splice : simpl never.
#[global] Arguments sub : simpl never.
#[global] Arguments bget : simpl never.
#[global] Arguments zrep : simpl never.
#[global] Arguments UINT32_MAX : simpl never.
#[global] Arguments UINT64_MAX : simpl never.
#[global] Arguments LONG_MAX : simpl never.

(** Lengths of encoded words. *)
Lemma zlen_put16 v : zlen (put16 v) = 2. Proof. done. Qed.
Lemma zlen_put32 v : zlen (put32 v) = 4. Proof. done. Qed.
Lemma zlen_put64 v : zlen (put64 v) = 8. Proof. done. Qed.
Lemma zlen_put16be v : zlen (put16be v) = 2. Proof. done. Qed.
Lemma zlen_put32be v : zlen (put32be v) = 4. Proof. done. Qed.
Lemma zlen_put64be v : zlen (put64be v) = 8. Proof. done. Qed.
#[export] Hint Rewrite zlen_put16 zlen_put32 zlen_put64 zlen_put16be zlen_put32be zlen_put64be : zlen.

(** ** Fields of a buffer under construction

    A C function that fills a header writes fields one by one into a zeroed
    buffer: a chain of [splice]s.  [buf_len n] proves that such a chain has
    length [n]; [buf_field n] reads a field back through it. *)
Lemma splice_bytes b off src : Forall is_byte b -> Forall is_byte src -> Forall is_byte (splice b off src).
Proof. intros. unfold splice. repeat apply Forall_app_2; auto using Forall_take, Forall_drop. Qed.
Lemma zrep0_bytes n : Forall is_byte (zrep n 0).
Proof. apply Forall_replicate. unfold is_byte; lia. Qed.
Lemma zlen_splice_n {A} (b src : list A) off n :
  zlen b = n -> 0 <= off -> off + zlen src <= n -> zlen (splice b off src) = n.
Proof. intros <- ??. by apply zlen_splice. Qed.

Section fields.
  Context (h src : list Z) (off p : Z).
  Context (Hoff : 0 <= off) (Hlen : off + zlen src <= zlen h) (Hp : 0 <= p).

Lemma sub_splice_out n :
    0 <= n -> p + n <= zlen h -> p + n <= off \/ off + zlen src <= p -> sub (splice h off src) p n = sub h p n.
  Proof using Hoff Hlen Hp.
    intros. apply buf_ext; rewrite !zlen_sub by (rewrite ?zlen_splice; lia); [done|].
    intros i Hi. rewrite !bget_sub by lia. apply bget_splice_out; lia.
  Qed.
Lemma bget_splice_skip : p < off \/ off + zlen src <= p -> bget (splice h off src) p = bget h p.
  Proof using Hoff Hlen Hp. intros. apply bget_splice_out; lia. Qed.
Lemma le32_splice_out : p + 4 <= off \/ off + zlen src <= p -> le32 (splice h off src) p = le32 h p.
  Proof using Hoff Hlen Hp. intros. apply le32_ext. intros i Hi. apply bget_splice_out; lia. Qed.
Lemma le64_splice_out : p + 8 <= off \/ off + zlen src <= p -> le64 (splice h off src) p = le64 h p.
  Proof using Hoff Hlen Hp. intros. apply le64_ext. intros i Hi. apply bget_splice_out; lia. Qed.
Lemma be16_splice_out : p + 2 <= off \/ off + zlen src <= p -> be16 (splice h off src) p = be16 h p.
  Proof using Hoff Hlen Hp. intros. unfold be16. by rewrite !bget_splice_out by lia. Qed.
Lemma le16_splice_out : p + 2 <= off \/ off + zlen src <= p -> le16 (splice h off src) p = le16 h p.
  Proof using Hoff Hlen Hp. intros. unfold le16. by rewrite !bget_splice_out by lia. Qed.
Lemma be32_splice_out : p + 4 <= off \/ off + zlen src <= p -> be32 (splice h off src) p = be32 h p.
  Proof using Hoff Hlen Hp. intros. apply be32_ext. intros i Hi. apply bget_splice_out; lia. Qed.
Lemma be64_splice_out : p + 8 <= off \/ off + zlen src <= p -> be64 (splice h off src) p = be64 h p.
  Proof using Hoff Hlen Hp. intros. apply be64_ext. intros i Hi. apply bget_splice_out; lia. Qed.
End fields.

Lemma sub_splice_in (h : list Z) off src n :
  0 <= off -> n = zlen src -> off + zlen src <= zlen h -> sub (splice h off src) off n = src.
Proof.
  intros ? -> ?. pose proof (zlen_nonneg src).
  apply buf_ext; rewrite zlen_sub by (rewrite ?zlen_splice; lia); [done|].
  intros i Hi. rewrite bget_sub, bget_splice_in by lia. f_equal; lia.
Qed.
Lemma bget_splice_hit h off v : 0 <= off -> off + 1 <= zlen h -> bget (splice h off [v]) off = v.
Proof.
  intros. rewrite bget_splice_in by (change (zlen [v]) with 1; lia). by rewrite Z.sub_diag.
Qed.
Section field_in.
  Context (h : list Z) (off v : Z) (Hoff : 0 <= off).

Lemma le32_splice_in : off + 4 <= zlen h -> 0 <= v < 2 ^ 32 -> le32 (splice h off (put32 v)) off = v.
  Proof using Hoff.
    intros. rewrite <- (le32_put32 v) at 2 by lia. apply le32_ext. intros i Hi.
    rewrite bget_splice_in by (rewrite ?zlen_put32; lia). f_equal; lia.
  Qed.
Lemma le64_splice_in : off + 8 <= zlen h -> 0 <= v < 2 ^ 64 -> le64 (splice h off (put64 v)) off = v.
  Proof using Hoff.
    intros. rewrite <- (le64_put64 v) at 2 by lia. apply le64_ext. intros i Hi.
    rewrite bget_splice_in by (rewrite ?zlen_put64; lia). f_equal; lia.
  Qed.
Lemma be32_splice_in : off + 4 <= zlen h -> 0 <= v < 2 ^ 32 -> be32 (splice h off (put32be v)) off = v.
  Proof using Hoff.
    intros. rewrite <- (be32_put32be v) at 2 by lia. apply be32_ext. intros i Hi.
    rewrite bget_splice_in by (rewrite ?zlen_put32be; lia). f_equal; lia.
  Qed.
Lemma be64_splice_in : off + 8 <= zlen h -> 0 <= v < 2 ^ 64 -> be64 (splice h off (put64be v)) off = v.
  Proof using Hoff.
    intros. rewrite <- (be64_put64be v) at 2 by lia. apply be64_ext. intros i Hi.
    rewrite bget_splice_in by (rewrite ?zlen_put64be; lia). f_equal; lia.
  Qed.
Lemma be16_splice_in : off + 2 <= zlen h -> 0 <= v < 2 ^ 16 -> be16 (splice h off (put16be v)) off = v.
  Proof using Hoff.
    intros. unfold be16. rewrite !bget_splice_in by (rewrite ?zlen_put16be; lia).
    rewrite Z.sub_diag. replace (off + 1 - off) with 1 by lia. unfold put16be, bget. simpl.
    rewrite Z.lor_comm, lor_shiftl_add by (pose proof (u8_range v); lia). word_dlia.
  Qed.
Lemma le16_splice_in : off + 2 <= zlen h -> 0 <= v < 2 ^ 16 -> le16 (splice h off (put16 v)) off = v.
  Proof using Hoff.
    intros. unfold le16. rewrite !bget_splice_in by (rewrite ?zlen_put16; lia).
    rewrite Z.sub_diag. replace (off + 1 - off) with 1 by lia. unfold put16, bget. simpl.
    rewrite lor_shiftl_add by (pose proof (u8_range v); lia). word_dlia.
  Qed.
End field_in.

Ltac src_len := autorewrite with zlen; try lia.
Ltac buf_len n := repeat (apply zlen_splice_n; [|lia|src_len]); try (by apply zlen_zrep).
Ltac buf_side n :=
  match goal with
  | |- _ <= zlen ?b => replace (zlen b) with n by (symmetry; buf_len n); src_len
  | |- _ => src_len
  end.
Ltac buf_field n :=
  repeat first
    [ rewrite le32_splice_in by buf_side n | rewrite le32_splice_out by buf_side n
    | rewrite le64_splice_in by buf_side n | rewrite le64_splice_out by buf_side n
    | rewrite le16_splice_in by buf_side n | rewrite le16_splice_out by buf_side n
    | rewrite be32_splice_in by buf_side n | rewrite be32_splice_out by buf_side n
    | rewrite be64_splice_in by buf_side n | rewrite be64_splice_out by buf_side n
    | rewrite be16_splice_in by buf_side n | rewrite be16_splice_out by buf_side n
    | rewrite sub_splice_in by buf_side n | rewrite sub_splice_out by buf_side n
    | rewrite bget_splice_hit by buf_side n | rewrite bget_splice_skip by buf_side n ].

(** ** The xorshift generator of the two [make_uuid]s *)
Fixpoint xorshift_bytes (n : nat) (i x : Z) : list Z :=
  match n with
  | O => []
  | S n =>
      let x := Z.lxor x (u64 (Z.shiftl x 13)) in
      let x := Z.lxor x (Z.shiftr x 7) in
      let x := Z.lxor x (u64 (Z.shiftl x 17)) in
      u8 (Z.shiftr x (Z.land i 7 * 8)) :: xorshift_bytes n (i + 1) x
  end.
(** The RFC 4122 version and variant bits. *)
Definition uuid_bits (u : list Z) : list Z :=
  let u := splice u 6 [Z.lor (Z.land (bget u 6) 0x0f) 0x40] in
  splice u 8 [Z.lor (Z.land (bget u 8) 0x3f) 0x80].

Lemma zlen_xorshift_bytes n i x : zlen (xorshift_bytes n i x) = Z.of_nat n.
Proof. revert i x. induction n as [|n IH]; intros; simpl; [done|]. rewrite zlen_cons, IH. lia. Qed.
Lemma xorshift_bytes_bytes n i x : Forall is_byte (xorshift_bytes n i x).
Proof. revert i x. induction n as [|n IH]; intros; simpl; constructor; auto. apply u8_range. Qed.
Lemma zlen_uuid_bits u : zlen u = 16 -> zlen (uuid_bits u) = 16.
Proof. intros H. unfold uuid_bits. cbv zeta. repeat (apply zlen_splice_n; [|lia|src_len]). done. Qed.
Lemma masked_byte_bytes u p m v :
  Forall is_byte u -> 0 <= m < 256 -> 0 <= v < 256 -> is_byte (Z.lor (Z.land (bget u p) m) v).
Proof.
  intros Hu Hm Hv. unfold is_byte. pose proof (is_byte_bget u p Hu) as Hb. unfold is_byte in Hb.
  assert (0 <= Z.land (bget u p) m) by (apply Z.land_nonneg; lia).
  assert (0 <= Z.lor (Z.land (bget u p) m) v) by (apply Z.lor_nonneg; lia). split; [done|].
  apply (Z.log2_lt_cancel _ 256). destruct (Z.eq_dec (Z.lor (Z.land (bget u p) m) v) 0) as [->|]; [done|].
  rewrite Z.log2_lor by lia. assert (Z.log2 (Z.land (bget u p) m) < 8).
  { pose proof (Z.log2_land (bget u p) m ltac:(lia) ltac:(lia)).
    pose proof (Z.log2_le_mono m 255 ltac:(lia)). change (Z.log2 255) with 7 in *. lia. }
  pose proof (Z.log2_le_mono v 255 ltac:(lia)). change (Z.log2 255) with 7 in *.
  change (Z.log2 256) with 8. lia.
Qed.
Lemma uuid_bits_bytes u : Forall is_byte u -> Forall is_byte (uuid_bits u).
Proof.
  intros H. unfold uuid_bits.
  assert (Forall is_byte (splice u 6 [Z.lor (Z.land (bget u 6) 15) 64])) as H1.
  { apply splice_bytes; [done|]. repeat constructor; apply masked_byte_bytes; auto; lia. }
  apply splice_bytes; [done|]. repeat constructor; apply masked_byte_bytes; auto; lia.
Qed.
#[global] Arguments xorshift_bytes : simpl never.
#[global] Arguments uuid_bits : simpl never.
