(* ===== verification/Text.v ===== *)
(** * Text: C strings and numbers in text

    A C string is the list of its bytes before the NUL.  The [<ctype.h>] tests
    and the [<string.h>] searches the sources use, and unsigned numbers printed
    and read back in a base. *)
From S2P Require Import Prelude.

(** The C string stored in a buffer. *)
Fixpoint cstr (b : list Z) : list Z :=
  match b with
  | [] => []
  | c :: b => if c =? 0 then [] else c :: cstr b
  end.

Definition isspace (c : Z) : bool := (c =? 32) || ((9 <=? c) && (c <=? 13)).
Definition isdigit (c : Z) : bool := (48 <=? c) && (c <=? 57).
Definition isalpha (c : Z) : bool := ((65 <=? c) && (c <=? 90)) || ((97 <=? c) && (c <=? 122)).
Definition isalnum (c : Z) : bool := isalpha c || isdigit c.
Definition tolower (c : Z) : Z := if (65 <=? c) && (c <=? 90) then c + 32 else c.

(** The pointer advanced past the characters that satisfy [f]. *)
Fixpoint skip_while (f : Z -> bool) (s : list Z) : list Z :=
  match s with
  | [] => []
  | c :: s' => if f c then skip_while f s' else s
  end.
Fixpoint take_while (f : Z -> bool) (s : list Z) : list Z :=
  match s with
  | [] => []
  | c :: s' => if f c then c :: take_while f s' else []
  end.

(** The text less the characters at its end that satisfy [f]. *)
Definition rskip_while (f : Z -> bool) (s : list Z) : list Z := reverse (skip_while f (reverse s)).

(** [strncmp(s, lit, strlen(lit)) == 0]: the rest after the prefix. *)
Fixpoint after_prefix (lit s : list Z) : option (list Z) :=
  match lit, s with
  | [], _ => Some s
  | l :: lit, c :: s => if c =? l then after_prefix lit s else None
  | _ :: _, [] => None
  end.
Definition starts_with (lit s : list Z) : bool := bool_decide (is_Some (after_prefix lit s)).

(** [strcmp(a, b) == 0]. *)
Definition streq (a b : list Z) : bool := bool_decide (a = b).

(** [strchr(s, c)] and [strrchr(s, c)], as the text before and from [c]. *)
Fixpoint strchr (s : list Z) (c : Z) : option (list Z * list Z) :=
  match s with
  | [] => None
  | x :: s' => if x =? c then Some ([], s)
               else match strchr s' c with Some (a, b) => Some (x :: a, b) | None => None end
  end.
Fixpoint strrchr (s : list Z) (c : Z) : option (list Z * list Z) :=
  match s with
  | [] => None
  | x :: s' => match strrchr s' c with
               | Some (a, b) => Some (x :: a, b)
               | None => if x =? c then Some ([], s) else None
               end
  end.

(** ** Numbers *)

(** The digits of [n] in base [b], most significant first. *)
Fixpoint digits_aux (fuel : nat) (b n : Z) (acc : list Z) : list Z :=
  match fuel with
  | O => acc
  | S fuel => let acc := n mod b :: acc in if n <? b then acc else digits_aux fuel b (n / b) acc
  end.
Definition digits (b n : Z) : list Z := digits_aux (Z.to_nat (Z.log2 n) + 1) b n [].
(** The value of a list of digits. *)
Definition digits_value (b : Z) (ds : list Z) (v : Z) : Z := foldl (fun v d => v * b + d) v ds.

(** ["%llu"] *)
Definition print_dec (n : Z) : list Z := Z.add 48 <$> digits 10 n.
(** ["%o"] *)
Definition print_oct (n : Z) : list Z := Z.add 48 <$> digits 8 n.

(** [strtoull(s, &end, 10)]: the value and the text from [end]; a minus sign
    negates in the unsigned type, a value that does not fit is [ULLONG_MAX]. *)
Definition strtoull (s : list Z) : Z * list Z :=
  let p := skip_while isspace s in
  let '(neg, p) := match p with c :: q => if c =? 45 then (true, q) else if c =? 43 then (false, q) else (false, p) | [] => (false, p) end in
  match take_while isdigit p with
  | [] => (0, s)
  | ds =>
      let v := digits_value 10 (Z.add (-48) <$> ds) 0 in
      (if UINT64_MAX <? v then UINT64_MAX else if neg : bool then u64 (- v) else v, skip_while isdigit p)
  end.

Lemma after_prefix_app lit s : after_prefix lit (lit ++ s) = Some s.
Proof. induction lit as [|c lit IH]; simpl; [done|]. by rewrite Z.eqb_refl. Qed.
Lemma after_prefix_inv lit s r : after_prefix lit s = Some r -> s = lit ++ r.
Proof.
  revert s. induction lit as [|l lit IH]; intros s; simpl; [by intros [= <-]|].
  destruct s as [|c s]; [done|]. destruct (Z.eqb_spec c l) as [->|]; [|done]. intros H%IH. by subst.
Qed.
Lemma skip_while_app f l s :
  Forall (fun c => f c = true) l -> (match s with [] => True | c :: _ => f c = false end) ->
  skip_while f (l ++ s) = s.
Proof.
  induction 1 as [|c l Hc _ IH]; intros Hs; simpl.
  - destruct s as [|c s]; [done|]. simpl. by rewrite Hs.
  - by rewrite Hc, IH.
Qed.
Lemma take_while_app f l s :
  Forall (fun c => f c = true) l -> (match s with [] => True | c :: _ => f c = false end) ->
  take_while f (l ++ s) = l.
Proof.
  induction 1 as [|c l Hc _ IH]; intros Hs; simpl.
  - destruct s as [|c s]; [done|]. simpl. by rewrite Hs.
  - by rewrite Hc, IH.
Qed.

Lemma take_skip_while f s : take_while f s ++ skip_while f s = s.
Proof. induction s as [|c s IH]; simpl; [done|]. destruct (f c); simpl; congruence. Qed.
Lemma take_while_all f s : Forall (fun c => f c = true) (take_while f s).
Proof. induction s as [|c s IH]; simpl; [done|]. destruct (f c) eqn:E; by constructor. Qed.
Lemma skip_while_Forall (P : Z -> Prop) f s : Forall P s -> Forall P (skip_while f s).
Proof. intros H. rewrite <- (take_skip_while f s) in H. by apply Forall_app in H as [_ H]. Qed.
Lemma skip_while_head f s c t : skip_while f s = c :: t -> f c = false.
Proof. induction s as [|x s IH]; simpl; [done|]. destruct (f x) eqn:E; [done|]. by intros [= <- _]. Qed.
Lemma length_skip_while f s : (length (skip_while f s) <= length s)%nat.
Proof. rewrite <- (take_skip_while f s) at 2. rewrite length_app. lia. Qed.

Lemma strrchr_app a b c : c ∉ b -> strrchr (a ++ c :: b) c = Some (a, c :: b).
Proof.
  intros Hb. assert (strrchr b c = None) as Hn.
  { induction b as [|x b IH]; simpl; [done|]. apply not_elem_of_cons in Hb as [Hx Hb]. rewrite IH by done.
    by rewrite (proj2 (Z.eqb_neq _ _)) by done. }
  induction a as [|x a IH]; simpl; [by rewrite Hn, Z.eqb_refl|]. by rewrite IH.
Qed.
Lemma strrchr_inv s c a b : strrchr s c = Some (a, b) -> exists r, b = c :: r /\ s = a ++ b /\ c ∉ r.
Proof.
  revert a b. induction s as [|x s IH]; intros a b; simpl; [done|].
  destruct (strrchr s c) as [[a' b']|] eqn:E.
  - intros [= <- <-]. destruct (IH _ _ eq_refl) as (r & -> & -> & Hr). eauto.
  - destruct (Z.eqb_spec x c) as [->|]; [|done]. intros [= <- <-]. exists s. split_and!; auto.
    clear IH. intros Hin. induction s as [|y s IHs]; [by apply elem_of_nil in Hin|]. simpl in E.
    destruct (strrchr s c) as [[? ?]|]; [done|]. destruct (Z.eqb_spec y c); [done|].
    apply elem_of_cons in Hin as [->|Hin]; auto.
Qed.

Lemma digits_value_app b l k v : digits_value b (l ++ k) v = digits_value b k (digits_value b l v).
Proof. apply foldl_app. Qed.

Lemma digits_aux_value fuel b n acc :
  2 <= b -> 0 <= n -> n < 2 ^ Z.of_nat fuel -> (0 < fuel)%nat ->
  exists ds, digits_aux fuel b n acc = ds ++ acc /\ ds <> [] /\ Forall (fun d => 0 <= d < b) ds /\ digits_value b ds 0 = n.
Proof.
  intros Hb. revert n acc. induction fuel as [|fuel IH]; intros n acc Hn Hf Hpos; [lia|]. cbn [digits_aux].
  pose proof (Z.mod_pos_bound n b ltac:(lia)). destruct (Z.ltb_spec n b).
  - exists [n]. rewrite Z.mod_small by lia. split_and!; auto; repeat constructor; try lia; done.
  - destruct (IH (n / b) (n mod b :: acc)) as (ds & E & Hne & HF & Hv).
    + apply Z.div_pos; lia.
    + apply Z.div_lt_upper_bound; [lia|]. rewrite Nat2Z.inj_succ, Z.pow_succ_r in Hf by lia. nia.
    + destruct fuel; [simpl in Hf; lia|lia].
    + exists (ds ++ [n mod b]). rewrite E, <- app_assoc. split_and!; [done|by destruct ds| |].
      * apply Forall_app_2; [done|]. constructor; [lia|constructor].
      * rewrite digits_value_app, Hv. unfold digits_value. simpl. pose proof (Z.div_mod n b ltac:(lia)). lia.
Qed.
Lemma digits_spec b n :
  2 <= b -> 0 <= n -> digits b n <> [] /\ Forall (fun d => 0 <= d < b) (digits b n) /\ digits_value b (digits b n) 0 = n.
Proof.
  intros Hb Hn. unfold digits. destruct (digits_aux_value (Z.to_nat (Z.log2 n) + 1) b n []) as (ds & E & H1 & H2 & H3); auto; [|lia|].
  - rewrite Nat2Z.inj_add, Z2Nat.id by apply Z.log2_nonneg. change (Z.of_nat 1) with 1.
    destruct (decide (n = 0)) as [->|]; [done|]. pose proof (Z.log2_spec n ltac:(lia)).
    replace (Z.log2 n + 1) with (Z.succ (Z.log2 n)) by lia. lia.
  - rewrite app_nil_r in E. rewrite E. auto.
Qed.
Lemma print_dec_digits n : 0 <= n -> Forall (fun c => isdigit c = true) (print_dec n) /\ print_dec n <> [].
Proof.
  intros Hn. destruct (digits_spec 10 n) as (H1 & H2 & _); [lia..|]. unfold print_dec. split.
  - apply Forall_fmap. eapply Forall_impl; [exact H2|]. intros d Hd. unfold compose, isdigit. cbn beta in *. lia.
  - intros E. apply H1. by apply fmap_nil_inv in E.
Qed.

(** A C string in a longer field filled up with NULs. *)
Lemma cstr_pad p n : 0 ∉ p -> cstr (p ++ zrep n 0) = p.
Proof.
  intros H. induction p as [|c p IH]; simpl.
  - unfold zrep. destruct (Z.to_nat n); done.
  - apply not_elem_of_cons in H as [Hc H]. rewrite (proj2 (Z.eqb_neq c 0)) by done. by rewrite IH.
Qed.

Lemma cstr_id s : 0 ∉ s -> cstr s = s.
Proof. intros H. rewrite <- (app_nil_r s) at 1. apply (cstr_pad s 0 H). Qed.

(** Dropping a suffix and nothing before it. *)
Lemma rskip_while_app f s l :
  Forall (fun c => f c = true) l -> (forall c, last s = Some c -> f c = false) -> rskip_while f (s ++ l) = s.
Proof.
  intros Hl Hs. unfold rskip_while. rewrite reverse_app, skip_while_app; [apply reverse_involutive|by apply Forall_reverse|].
  destruct s as [|x s _] using rev_ind; [done|]. rewrite reverse_app. simpl. apply Hs. by rewrite last_snoc.
Qed.
Lemma rskip_while_id f s : (forall c, last s = Some c -> f c = false) -> rskip_while f s = s.
Proof. intros H. rewrite <- (app_nil_r s) at 1. by apply rskip_while_app. Qed.

Lemma length_digits_aux fuel b n acc k :
  2 <= b -> 0 <= n < b ^ k -> 0 < k -> zlen (digits_aux fuel b n acc) <= k + zlen acc.
Proof.
  intros Hb. revert n acc k. induction fuel as [|fuel IH]; intros n acc k Hn Hk; simpl; [lia|].
  destruct (Z.ltb_spec n b); [rewrite zlen_cons; lia|].
  destruct (decide (k = 1)) as [->|]; [lia|].
  replace k with (Z.succ (k - 1)) in Hn by lia. rewrite Z.pow_succ_r in Hn by lia.
  etransitivity; [apply (IH _ _ (k - 1)); [|lia]|rewrite zlen_cons; lia].
  split; [apply Z.div_pos; lia|apply Z.div_lt_upper_bound; lia].
Qed.
Lemma zlen_print_dec n k : 0 <= n < 10 ^ k -> 0 < k -> zlen (print_dec n) <= k.
Proof. intros. unfold print_dec. rewrite zlen_fmap. unfold digits. etransitivity; [apply (length_digits_aux _ 10 n [] k); lia|]. unfold zlen; simpl; lia. Qed.
Lemma zlen_print_oct n k : 0 <= n < 8 ^ k -> 0 < k -> zlen (print_oct n) <= k.
Proof. intros. unfold print_oct. rewrite zlen_fmap. unfold digits. etransitivity; [apply (length_digits_aux _ 8 n [] k); lia|]. unfold zlen; simpl; lia. Qed.

(** A printed number reads back. *)
Lemma strtoull_print_dec n : 0 <= n < 2 ^ 64 -> strtoull (print_dec n) = (n, []).
Proof.
  intros Hn. destruct (print_dec_digits n) as [Hd Hne]; [lia|]. destruct (digits_spec 10 n) as (_ & _ & Hv); [lia..|].
  destruct (print_dec n) as [|c l] eqn:E; [done|]. unfold strtoull. pose proof Hd as Hd'. apply Forall_cons in Hd as [Hc _].
  assert (isspace c = false /\ (c =? 45) = false /\ (c =? 43) = false) as (H1 & H2 & H3) by (unfold isspace, isdigit in *; lia).
  cbn [skip_while]. rewrite H1, H2, H3. rewrite <- (app_nil_r (c :: l)), take_while_app, skip_while_app by done.
  assert (Z.add (-48) <$> c :: l = digits 10 n) as -> by (rewrite <- E; unfold print_dec; rewrite <- list_fmap_compose; rewrite <- list_fmap_id; apply list_fmap_ext; intros ? x _; unfold compose; simpl; lia).
  rewrite Hv. unfold UINT64_MAX. by rewrite (proj2 (Z.ltb_ge _ _)) by lia.
Qed.

Lemma digits_value_nonneg ds v : 0 <= v -> Forall (fun d => 0 <= d) ds -> 0 <= digits_value 10 ds v.
Proof. intros Hv Hd. revert v Hv. induction Hd as [|d ds H _ IH]; intros v Hv; simpl; [done|]. apply IH. lia. Qed.
Lemma strtoull_range s : 0 <= (strtoull s).1 <= UINT64_MAX.
Proof.
  unfold strtoull. destruct (match skip_while isspace s with [] => _ | _ :: _ => _ end) as [neg p].
  pose proof (take_while_all isdigit p) as H. destruct (take_while isdigit p) as [|c l] eqn:E; [simpl; unfold UINT64_MAX; lia|].
  assert (0 <= digits_value 10 (Z.add (-48) <$> c :: l) 0).
  { apply digits_value_nonneg; [lia|]. apply Forall_fmap. eapply Forall_impl; [exact H|]. unfold isdigit, compose. intros; lia. }
  cbn [fst]. destruct (Z.ltb_spec UINT64_MAX (digits_value 10 (Z.add (-48) <$> c :: l) 0)); [unfold UINT64_MAX; lia|].
  destruct neg; [pose proof (u64_range (- digits_value 10 (Z.add (-48) <$> c :: l) 0)); unfold UINT64_MAX; lia|lia].
Qed.
