(* ===== verification/Crc32.v ===== *)
(** * Crc32: the two CRC-32 routines

    [src/blkdev.c] computes the CRC of GPT headers byte by byte through a
    256-entry table; [src/gu_gzip.c] computes the CRC of a decompressed member
    bit by bit.  They are the same function. *)
From S2P Require Import Prelude.

Definition CRC_POLY : Z := 0xEDB88320.

(** ** The table-driven routine of [blkdev.c] *)

Fixpoint crc_init_bits (j : nat) (c : Z) : Z :=
  match j with
  | O => c
  | S j => crc_init_bits j (if Z.odd c then Z.lxor CRC_POLY (Z.shiftr c 1) else Z.shiftr c 1)
  end.
(** [crc_init]: the 256 entries of [crc32_table]. *)
Definition crc32_table : list Z := crc_init_bits 8 <$> seqZ 0 256.

Fixpoint crc32_loop (c : Z) (p : list Z) : Z :=
  match p with
  | [] => c
  | b :: p => crc32_loop (Z.lxor (bget crc32_table (Z.land (Z.lxor c b) 0xFF)) (Z.shiftr c 8)) p
  end.
Definition crc32_calc (data : list Z) : Z := Z.lxor (crc32_loop 0xFFFFFFFF data) 0xFFFFFFFF.

(** ** The bitwise routine of [gu_gzip.c] *)

(** One round: [(crc >> 1) ^ (poly & (0u - (crc & 1u)))] *)
Definition crc_round (crc : Z) : Z := Z.lxor (Z.shiftr crc 1) (Z.land CRC_POLY (u32 (0 - Z.land crc 1))).
Definition crc32_byte (crc b : Z) : Z := Nat.iter 8 crc_round (Z.lxor crc b).
Definition crc32_bytes (p : list Z) : Z := UINT32_MAX - foldl crc32_byte 0xFFFFFFFF p.

(** ** Equivalence *)

Lemma crc_round_step c :
  crc_round c = if Z.odd c then Z.lxor CRC_POLY (Z.shiftr c 1) else Z.shiftr c 1.
Proof.
  unfold crc_round. change 1 with (Z.ones 1) at 2. rewrite Z.land_ones by lia. change (2 ^ 1) with 2.
  pose proof (Zmod_odd c) as E. rewrite E. destruct (Z.odd c).
  - change (u32 (0 - 1)) with 0xFFFFFFFF. rewrite Z.lxor_comm. reflexivity.
  - change (u32 (0 - 0)) with 0. by rewrite Z.land_0_r, Z.lxor_0_r.
Qed.
Lemma crc_init_bits_iter j c : crc_init_bits j c = Nat.iter j crc_round c.
Proof.
  revert c. induction j as [|j IH]; intros c; [done|]. cbn [crc_init_bits].
  by rewrite IH, <- crc_round_step, <- Nat.iter_succ_r.
Qed.

(** A round is linear, and shifts when the low bit is clear. *)
Lemma crc_round_lxor a b : crc_round (Z.lxor a b) = Z.lxor (crc_round a) (crc_round b).
Proof.
  rewrite !crc_round_step, Z.shiftr_lxor.
  assert (Z.odd (Z.lxor a b) = xorb (Z.odd a) (Z.odd b)) as -> by (rewrite <- !Z.bit0_odd; apply Z.lxor_spec).
  set (x := Z.shiftr a 1). set (y := Z.shiftr b 1).
  destruct (Z.odd a), (Z.odd b); simpl.
  - rewrite (Z.lxor_comm CRC_POLY x), Z.lxor_assoc, <- (Z.lxor_assoc CRC_POLY CRC_POLY), Z.lxor_nilpotent. by rewrite Z.lxor_0_l.
  - by rewrite Z.lxor_assoc.
  - by rewrite <- !Z.lxor_assoc, (Z.lxor_comm CRC_POLY x).
  - done.
Qed.
Lemma crc_iter_lxor n a b : Nat.iter n crc_round (Z.lxor a b) = Z.lxor (Nat.iter n crc_round a) (Nat.iter n crc_round b).
Proof. induction n as [|n IH]; simpl; [done|]. by rewrite IH, crc_round_lxor. Qed.
Lemma crc_iter_shift n c : Nat.iter n crc_round (Z.shiftl c (Z.of_nat n)) = c.
Proof.
  revert c. induction n as [|n IH]; intros c; [by rewrite Z.shiftl_0_r|].
  rewrite Nat.iter_succ_r, crc_round_step. rewrite <- Z.bit0_odd, Z.shiftl_spec_low by lia.
  rewrite Z.shiftr_shiftl_l by lia. replace (Z.of_nat (S n) - 1) with (Z.of_nat n) by lia. apply IH.
Qed.

Lemma crc_table_entry i : 0 <= i < 256 -> bget crc32_table i = Nat.iter 8 crc_round i.
Proof.
  intros Hi. unfold bget, crc32_table. rewrite nth_lookup, list_lookup_fmap, lookup_seqZ_lt by lia. simpl option_map.
  rewrite Z2Nat.id, Z.add_0_l by lia. cbn -[crc_round crc_init_bits Nat.iter]. apply crc_init_bits_iter.
Qed.

(** A byte is its low eight bits and the rest, shifted. *)
Lemma split_low8 c : c = Z.lxor (Z.land c 0xFF) (Z.shiftl (Z.shiftr c 8) 8).
Proof.
  apply Z.bits_inj'. intros k Hk. rewrite Z.lxor_spec, Z.land_spec, Z.shiftl_spec by lia.
  change 0xFF with (Z.ones 8). destruct (Z.ltb_spec k 8).
  - rewrite Z.ones_spec_low, (Z.testbit_neg_r _ (k - 8)) by lia. by rewrite andb_true_r, xorb_false_r.
  - rewrite Z.ones_spec_high by lia. rewrite Z.shiftr_spec by lia.
    by rewrite andb_false_r, Z.sub_add, xorb_false_l.
Qed.

Lemma crc32_byte_table c b :
  0 <= b < 256 -> crc32_byte c b = Z.lxor (bget crc32_table (Z.land (Z.lxor c b) 0xFF)) (Z.shiftr c 8).
Proof.
  intros Hb. unfold crc32_byte.
  assert (0 <= Z.land (Z.lxor c b) 255 < 256) as Hl.
  { change 255 with (Z.ones 8). rewrite Z.land_ones by lia. apply Z.mod_pos_bound. lia. }
  rewrite crc_table_entry by done. rewrite (split_low8 (Z.lxor c b)) at 1. rewrite crc_iter_lxor.
  change 8 with (Z.of_nat 8) at 2. rewrite crc_iter_shift. f_equal. rewrite Z.shiftr_lxor.
  rewrite (Z.shiftr_div_pow2 b) by lia. rewrite (Z.div_small b) by (change (2 ^ 8) with 256; lia). apply Z.lxor_0_r.
Qed.

Lemma crc_loop_fold p c : Forall is_byte p -> crc32_loop c p = foldl crc32_byte c p.
Proof.
  intros H. revert c. induction H as [|b p Hb _ IH]; intros c; simpl; [done|]. by rewrite IH, <- crc32_byte_table.
Qed.

(** [x ^ 0xFFFFFFFF] is [~x] on 32 bits. *)
Lemma lxor_ones32 x : 0 <= x < 2 ^ 32 -> Z.lxor x 0xFFFFFFFF = UINT32_MAX - x.
Proof.
  intros Hx. change 0xFFFFFFFF with (Z.ones 32).
  transitivity (Z.ones 32 - x); [|done]. rewrite Z.sub_nocarry_ldiff.
  - apply Z.bits_inj'. intros k Hk. rewrite Z.lxor_spec, Z.ldiff_spec. destruct (Z.ltb_spec k 32).
    + rewrite Z.ones_spec_low by lia. by destruct (Z.testbit x k).
    + rewrite Z.ones_spec_high, <- (Z.mod_small x (2 ^ 32)), Z.mod_pow2_bits_high by lia. done.
  - apply Z.bits_inj'. intros k Hk. rewrite Z.ldiff_spec, Z.bits_0. destruct (Z.ltb_spec k 32).
    + rewrite Z.ones_spec_low by lia. apply andb_false_r.
    + rewrite <- (Z.mod_small x (2 ^ 32)), Z.mod_pow2_bits_high by lia. done.
Qed.

Lemma crc_round_range c : 0 <= c < 2 ^ 32 -> 0 <= crc_round c < 2 ^ 32.
Proof.
  intros Hc. rewrite crc_round_step. assert (0 <= Z.shiftr c 1 < 2 ^ 31) by (rewrite Z.shiftr_div_pow2 by lia; dlia).
  destruct (Z.odd c); [|lia]. assert (0 <= Z.lxor CRC_POLY (Z.shiftr c 1)) by (apply Z.lxor_nonneg; unfold CRC_POLY; lia).
  split; [done|]. destruct (decide (Z.lxor CRC_POLY (Z.shiftr c 1) = 0)) as [->|]; [done|]. apply Z.log2_lt_pow2; [lia|].
  eapply Z.le_lt_trans; [apply Z.log2_lxor; unfold CRC_POLY; lia|]. apply Z.max_lub_lt; [done|].
  destruct (decide (Z.shiftr c 1 = 0)) as [->|]; [done|]. apply Z.log2_lt_pow2; lia.
Qed.
Lemma crc_byte_range c b : 0 <= c < 2 ^ 32 -> 0 <= b < 256 -> 0 <= crc32_byte c b < 2 ^ 32.
Proof.
  intros Hc Hb. unfold crc32_byte. assert (0 <= Z.lxor c b < 2 ^ 32) as Hx.
  { assert (0 <= Z.lxor c b) by (apply Z.lxor_nonneg; lia). split; [done|].
    destruct (decide (Z.lxor c b = 0)) as [->|]; [done|]. apply Z.log2_lt_pow2; [lia|].
    eapply Z.le_lt_trans; [apply Z.log2_lxor; lia|]. apply Z.max_lub_lt.
    - destruct (decide (c = 0)) as [->|]; [done|]. apply Z.log2_lt_pow2; lia.
    - destruct (decide (b = 0)) as [->|]; [done|]. apply Z.log2_lt_pow2; lia. }
  revert Hx. generalize (Z.lxor c b). intros x Hx. generalize 8%nat. intros n.
  induction n as [|n IH]; simpl; [done|]. by apply crc_round_range, IH.
Qed.
Lemma crc_fold_range p c : Forall is_byte p -> 0 <= c < 2 ^ 32 -> 0 <= foldl crc32_byte c p < 2 ^ 32.
Proof. intros H. revert c. induction H; intros c Hc; simpl; [done|]. apply IHForall. by apply crc_byte_range. Qed.
Lemma crc32_range p : Forall is_byte p -> 0 <= crc32_bytes p < 2 ^ 32.
Proof. intros H. pose proof (crc_fold_range p 0xFFFFFFFF H ltac:(lia)). unfold crc32_bytes. ulia. Qed.

Lemma crc32_same p : Forall is_byte p -> crc32_calc p = crc32_bytes p.
Proof.
  intros H. unfold crc32_calc, crc32_bytes. rewrite crc_loop_fold by done.
  apply lxor_ones32, crc_fold_range; [done|lia].
Qed.

(** The table-driven CRC of the partition scanner and the bitwise CRC of
    the decompressor are the same function of the bytes. *)
Theorem crc32_equivalent (p : list Z) : Forall is_byte p -> crc32_calc p = crc32_bytes p.
Proof. apply crc32_same. Qed.
Lemma crc32_equivalent_witness :
  crc32_calc (str_bytes "123456789") = crc32_bytes (str_bytes "123456789") /\ crc32_calc (str_bytes "123456789") = 0xCBF43926.
Proof. split; [apply crc32_equivalent; apply str_bytes_is_byte|vm_compute; reflexivity]. Defined.
