(* ===== verification/Inflate.v ===== *)
(** * Inflate: DEFLATE decompression ([src/gu_gzip.c])

    The bit reader, the canonical Huffman tables and the block decoder that
    unpack the payload of a gzip member.  The bit reader is a state, the
    decoding functions are computations on it, and the output buffer is the
    list of the bytes written so far ([*outpos] is its length). *)
From S2P Require Import Prelude.
#[local] Open Scope Z_scope.

Definition MAXBITS : Z := 15.
Definition MAXLCODES : Z := 288.
Definition MAXCODES : Z := 320.

(** ** The bit reader *)

Record bit_reader : Type := BitReader { br_src : list Z; br_pos : Z; br_bitbuf : Z; br_bitcnt : Z }.

(** The loop that tops the buffer up to [need] bits. *)
Fixpoint fill_bits (fuel : nat) (need : Z) : comp bit_reader unit := fun br =>
  if need <=? br_bitcnt br then (Done tt, br) else
  match fuel with
  | O => (NoFuel, br)
  | S fuel =>
      if zlen (br_src br) <=? br_pos br then (Fail (-1), br) else
      fill_bits fuel need
        (BitReader (br_src br) (br_pos br + 1)
           (u32 (Z.lor (br_bitbuf br) (Z.shiftl (bget (br_src br) (br_pos br)) (br_bitcnt br))))
           (br_bitcnt br + 8))
  end.
(** Each turn of the loop adds a byte. *)
Definition fill_fuel (need : Z) : nat := Z.to_nat need.

Definition getbits (need : Z) : comp bit_reader Z :=
  fill_bits (fill_fuel need) need ;;; fun br =>
  let val := if negb (need =? 0) then Z.land (br_bitbuf br) (u32 (Z.shiftl 1 need) - 1) else 0 in
  (Done val, BitReader (br_src br) (br_pos br) (Z.shiftr (br_bitbuf br) need) (br_bitcnt br - need)).

Definition byte_align : comp bit_reader unit :=
  modify (fun br => BitReader (br_src br) (br_pos br) 0 0).

(** ** Huffman tables *)

Record huffman : Type := Huffman { hu_count : list Z; hu_symbol : list Z }.
Definition huff_zero : huffman := Huffman (zrep (MAXBITS + 1) 0) (zrep MAXCODES 0).

(** [l[i] = v] on an array of [unsigned short] *)
Definition upd (l : list Z) (i v : Z) : list Z := <[Z.to_nat i := v]> l.

Fixpoint huff_count (count : list Z) (length : list Z) : option (list Z) :=
  match length with
  | [] => Some count
  | l :: length => if MAXBITS <? l then None else huff_count (upd count l (u16 (bget count l + 1))) length
  end.

(** The loop over [len], [len + 1], ..., [MAXBITS]: the code space left. *)
Fixpoint huff_left (n : nat) (len spare : Z) (count : list Z) : option Z :=
  match n with
  | O => Some spare
  | S n =>
      let spare := spare * 2 - bget count len in
      if spare <? 0 then None else huff_left n (len + 1) spare count
  end.

(** [offs[len + 1] = offs[len] + h->count[len]] for [len], ... *)
Fixpoint huff_offs (n : nat) (len : Z) (offs count : list Z) : list Z :=
  match n with
  | O => offs
  | S n => huff_offs n (len + 1) (upd offs (len + 1) (u32 (bget offs len + bget count len))) count
  end.

(** The loop over the symbols from [i]. *)
Fixpoint huff_fill (i : Z) (length offs symbol : list Z) : list Z :=
  match length with
  | [] => symbol
  | l :: length =>
      if negb (l =? 0) then huff_fill (i + 1) length (upd offs l (u32 (bget offs l + 1))) (upd symbol (bget offs l) (u16 i))
      else huff_fill (i + 1) length offs symbol
  end.

(** The table and what is left of the code space; nothing for a length over
    [MAXBITS] or an oversubscribed code. *)
Definition huff_build (length : list Z) : option (Z * huffman) :=
  match huff_count (zrep (MAXBITS + 1) 0) length with
  | None => None
  | Some count =>
      if bget count 0 =? zlen length then Some (0, Huffman count (zrep MAXCODES 0)) else
      match huff_left 15 1 1 count with
      | None => None
      | Some spare =>
          let offs := huff_offs 14 1 (zrep (MAXBITS + 1) 0) count in
          Some (spare, Huffman count (huff_fill 0 length offs (zrep MAXCODES 0)))
      end
  end.

(** The loop over code lengths [len], [len + 1], ..., [n] of them. *)
Fixpoint huff_decode_loop (n : nat) (h : huffman) (len code first index : Z) : comp bit_reader Z :=
  match n with
  | O => fail (-1)
  | S n =>
      let* bit := getbits 1 in
      let code := Z.lor code bit in
      let count := bget (hu_count h) len in
      if (first <=? code) && (code - first <? count) then ret (bget (hu_symbol h) (index + (code - first)))
      else huff_decode_loop n h (len + 1) (u32 (Z.shiftl code 1)) (u32 (Z.shiftl (u32 (first + count)) 1)) (u32 (index + count))
  end.
Definition huff_decode (h : huffman) : comp bit_reader Z := huff_decode_loop 15 h 1 0 0 0.

(** ** The tables of a block *)

Definition fixed_ll : list Z := zrep 144 8 ++ zrep 112 9 ++ zrep 24 7 ++ zrep 8 8.
Definition fixed_dd : list Z := zrep 32 5.
Definition built (o : option (Z * huffman)) : huffman := match o with Some (_, h) => h | None => huff_zero end.
Definition fixed_tables : huffman * huffman := (built (huff_build fixed_ll), built (huff_build fixed_dd)).

Definition clen_order : list Z := [16; 17; 18; 0; 8; 7; 9; 6; 10; 5; 11; 4; 12; 3; 13; 2; 14; 1; 15].

(** [hclen] code lengths of three bits, in the order of [clen_order] from [i]. *)
Fixpoint read_clen (n : nat) (i : Z) (clen : list Z) : comp bit_reader (list Z) :=
  match n with
  | O => ret clen
  | S n => let* v := getbits 3 in read_clen n (i + 1) (upd clen (bget clen_order i) v)
  end.

(** The lengths after the symbol [sym] of the code-length code. *)
Definition lens_step (sym : Z) (total : Z) (lens : list Z) : comp bit_reader (list Z) :=
  let i := zlen lens in
  if sym <=? 15 then ret (lens ++ [sym]) else
  if sym =? 16 then
    require (negb (i =? 0)) (-1) ;;;
    let* extra := getbits 2 in
    let rep := 3 + extra in
    require (negb (total <? i + rep)) (-1) ;;;
    ret (lens ++ zrep rep (bget lens (i - 1)))
  else if sym =? 17 then
    let* extra := getbits 3 in
    let rep := 3 + extra in
    require (negb (total <? i + rep)) (-1) ;;;
    ret (lens ++ zrep rep 0)
  else if sym =? 18 then
    let* extra := getbits 7 in
    let rep := 11 + extra in
    require (negb (total <? i + rep)) (-1) ;;;
    ret (lens ++ zrep rep 0)
  else fail (-1).

Fixpoint read_lens (fuel : nat) (ch : huffman) (total : Z) (lens : list Z) : comp bit_reader (list Z) :=
  if zlen lens <? total then
    match fuel with
    | O => nofuel
    | S fuel =>
        let* sym := huff_decode ch in
        let* lens := lens_step sym total lens in
        read_lens fuel ch total lens
    end
  else ret lens.

Definition dynamic_tables : comp bit_reader (huffman * huffman) :=
  let* hlit := getbits 5 in
  let* hdist := getbits 5 in
  let* hclen := getbits 4 in
  let hlit := hlit + 257 in
  let hdist := hdist + 1 in
  let hclen := hclen + 4 in
  require (negb ((286 <? hlit) || (32 <? hdist))) (-1) ;;;
  let* clen := read_clen (Z.to_nat hclen) 0 (zrep 19 0) in
  let* ch := of_option (-1) (huff_build clen) in
  let total := hlit + hdist in
  let* lens := read_lens (Z.to_nat total) ch.2 total [] in
  require (negb (bget lens 256 =? 0)) (-1) ;;;
  let* litlen := of_option (-1) (huff_build (take (Z.to_nat hlit) lens)) in
  let* dist := of_option (-1) (huff_build (drop (Z.to_nat hlit) lens)) in
  ret (litlen.2, dist.2).

(** ** Blocks *)

Definition lbase : list Z :=
  [3; 4; 5; 6; 7; 8; 9; 10; 11; 13; 15; 17; 19; 23; 27; 31; 35; 43; 51; 59; 67; 83; 99; 115; 131; 163; 195; 227; 258].
Definition lext : list Z :=
  [0; 0; 0; 0; 0; 0; 0; 0; 1; 1; 1; 1; 2; 2; 2; 2; 3; 3; 3; 3; 4; 4; 4; 4; 5; 5; 5; 5; 0].
Definition dbase : list Z :=
  [1; 2; 3; 4; 5; 7; 9; 13; 17; 25; 33; 49; 65; 97; 129; 193; 257; 385; 513; 769; 1025; 1537; 2049; 3073; 4097; 6145;
   8193; 12289; 16385; 24577].
Definition dext : list Z :=
  [0; 0; 0; 0; 1; 1; 2; 2; 3; 3; 4; 4; 5; 5; 6; 6; 7; 7; 8; 8; 9; 9; 10; 10; 11; 11; 12; 12; 13; 13].

(** [while (length--) out[outpos++] = out[srcpos++];] one byte at a time:
    the source may run into the bytes just written. *)
Fixpoint copy_match (length : nat) (distance : Z) (out : list Z) : list Z :=
  match length with
  | O => out
  | S length => copy_match length distance (out ++ [bget out (zlen out - distance)])
  end.

(** A length/distance pair, for the length symbol [sym]. *)
Definition inflate_match (dist : huffman) (outcap sym : Z) (out : list Z) : comp bit_reader (list Z) :=
  let li := sym - 257 in
  let* extra := (if negb (bget lext li =? 0) then getbits (bget lext li) else ret 0) in
  let length := bget lbase li + extra in
  let* dsym := huff_decode dist in
  require (negb (30 <=? dsym)) (-1) ;;;
  let* dextra := (if negb (bget dext dsym =? 0) then getbits (bget dext dsym) else ret 0) in
  let distance := bget dbase dsym + dextra in
  require (negb ((distance =? 0) || (zlen out <? distance))) (-1) ;;;
  require (negb (outcap - zlen out <? length)) (-2) ;;;
  ret (copy_match (Z.to_nat length) distance out).

Fixpoint inflate_codes (fuel : nat) (litlen dist : huffman) (outcap : Z) (out : list Z) : comp bit_reader (list Z) :=
  match fuel with
  | O => nofuel
  | S fuel =>
      let* sym := huff_decode litlen in
      if sym <? 256 then
        require (negb (outcap <=? zlen out)) (-2) ;;;
        inflate_codes fuel litlen dist outcap (out ++ [u8 sym])
      else if sym =? 256 then ret out
      else if (257 <=? sym) && (sym <=? 285) then
        let* out := inflate_match dist outcap sym out in
        inflate_codes fuel litlen dist outcap out
      else fail (-1)
  end.

(** A stored block: the bytes appended to the output. *)
Definition inflate_stored (outcap : Z) (out : list Z) : comp bit_reader (list Z) :=
  byte_align ;;;
  let* br := get in
  let src := br_src br in
  let pos := br_pos br in
  require (negb (zlen src <? pos + 4)) (-1) ;;;
  let len := Z.lor (bget src pos) (Z.shiftl (bget src (pos + 1)) 8) in
  let nlen := Z.lor (bget src (pos + 2)) (Z.shiftl (bget src (pos + 3)) 8) in
  require (Z.lxor len 0xffff =? nlen) (-1) ;;;
  require (negb ((zlen src <? pos + 4 + len) || (outcap - zlen out <? len))) (-1) ;;;
  modify (fun br => BitReader (br_src br) (br_pos br + 4 + len) (br_bitbuf br) (br_bitcnt br)) ;;;
  ret (out ++ sub src (pos + 4) len).

Fixpoint inflate_blocks (fuel : nat) (outcap : Z) (out : list Z) : comp bit_reader (list Z) :=
  match fuel with
  | O => nofuel
  | S fuel =>
      let* final := getbits 1 in
      let* type := getbits 2 in
      let* out :=
        (if type =? 0 then inflate_stored outcap out
         else if (type =? 1) || (type =? 2) then
           let* t := (if type =? 1 then ret fixed_tables else dynamic_tables) in
           let* br := get in
           inflate_codes (S (Z.to_nat (8 * zlen (br_src br)))) t.1 t.2 outcap out
         else fail (-1)) in
      if negb (final =? 0) then ret out else inflate_blocks fuel outcap out
  end.

(** Every code and every block takes at least one bit of the source. *)
Definition inflate_raw (src : list Z) (outcap : Z) : outcome (list Z) :=
  (inflate_blocks (S (Z.to_nat (8 * zlen src))) outcap [] (BitReader src 0 0 0)).1.

(** ** The bit stream

    What a reader has still to deliver: the bits of its buffer, then those of
    the bytes not read yet, least significant first. *)

Fixpoint bits (n : nat) (x : Z) : list bool :=
  match n with O => [] | S n => Z.odd x :: bits n (Z.div2 x) end.
Definition bits_val (l : list bool) : Z := foldr (fun b v => Z.b2z b + 2 * v) 0 l.
Definition byte_bits (l : list Z) : list bool := l ≫= bits 8.

Definition stream (br : bit_reader) : list bool :=
  bits (Z.to_nat (br_bitcnt br)) (br_bitbuf br) ++ byte_bits (drop (Z.to_nat (br_pos br)) (br_src br)).

Record br_wf (br : bit_reader) : Prop := BrWf {
  bw_src : Forall is_byte (br_src br);
  bw_pos : 0 <= br_pos br <= zlen (br_src br);
  bw_cnt : 0 <= br_bitcnt br <= 24;
  bw_buf : 0 <= br_bitbuf br < 2 ^ br_bitcnt br;
}.

Lemma length_bits n x : length (bits n x) = n.
Proof. revert x. induction n; intros; simpl; auto. Qed.

Lemma div2_bounds x n : 0 <= x < 2 ^ Z.of_nat (S n) -> 0 <= Z.div2 x < 2 ^ Z.of_nat n.
Proof. rewrite Nat2Z.inj_succ, Z.pow_succ_r, Z.div2_div by lia. intros H. split; [dlia|]. apply Z.div_lt_upper_bound; lia. Qed.

Lemma bits_val_bits n x : 0 <= x < 2 ^ Z.of_nat n -> bits_val (bits n x) = x.
Proof.
  revert x. induction n as [|n IH]; intros x Hx; simpl; [simpl in Hx; lia|].
  rewrite IH by by apply div2_bounds. pose proof (Z.div2_odd x). lia.
Qed.

Lemma bits_app n m x y : 0 <= x < 2 ^ Z.of_nat n -> bits n x ++ bits m y = bits (n + m) (x + y * 2 ^ Z.of_nat n).
Proof.
  revert x. induction n as [|n IH]; intros x Hx; simpl Nat.add.
  - simpl in *. f_equal. lia.
  - cbn [bits app]. rewrite IH by by apply div2_bounds. rewrite Nat2Z.inj_succ, Z.pow_succ_r by lia. f_equal.
    + rewrite Z.odd_add, Z.odd_mul, Z.odd_mul. simpl. rewrite andb_false_r. by rewrite xorb_false_r.
    + f_equal. rewrite !Z.div2_div. replace (x + y * (2 * 2 ^ Z.of_nat n)) with (x + (y * 2 ^ Z.of_nat n) * 2) by lia.
      by rewrite Z.div_add.
Qed.

Lemma bits_ext n x y : (forall i, 0 <= i < Z.of_nat n -> Z.testbit x i = Z.testbit y i) -> bits n x = bits n y.
Proof.
  revert x y. induction n as [|n IH]; intros x y H; simpl; [done|]. f_equal.
  - rewrite <- !Z.bit0_odd. apply H. lia.
  - apply IH. intros i Hi. rewrite !Z.div2_spec, !Z.shiftr_spec by lia. apply H. lia.
Qed.

Lemma take_bits k n x : (k <= n)%nat -> take k (bits n x) = bits k x.
Proof. revert n x. induction k as [|k IH]; intros [|n] x H; simpl; auto; [lia|]. rewrite IH; [done|lia]. Qed.
Lemma drop_bits k n x : (k <= n)%nat -> drop k (bits n x) = bits (n - k) (Z.shiftr x (Z.of_nat k)).
Proof.
  revert n x. induction k as [|k IH]; intros n x H; [by rewrite Nat.sub_0_r|]. destruct n as [|n]; [lia|].
  simpl bits. simpl drop. rewrite IH by lia. simpl Nat.sub. f_equal. rewrite Z.div2_spec, Z.shiftr_shiftr by lia. f_equal. lia.
Qed.

Lemma length_stream br : br_wf br ->
  Z.of_nat (length (stream br)) = br_bitcnt br + 8 * (zlen (br_src br) - br_pos br).
Proof.
  intros [_ Hp Hc _]. unfold stream. rewrite length_app, length_bits.
  assert (forall l, length (byte_bits l) = 8 * length l)%nat as Hb.
  { unfold byte_bits. induction l as [|b l IH]; [done|]. rewrite bind_cons, length_app, IH, length_bits. simpl length. lia. }
  rewrite Hb, length_drop. unfold zlen in *. lia.
Qed.

(** Topping up the buffer moves bits, it neither drops nor invents any. *)
Lemma fill_bits_ok fuel need br :
  br_wf br -> need <= 16 -> need <= br_bitcnt br + Z.of_nat fuel ->
  let '(o, br') := fill_bits fuel need br in
  br_wf br' /\ stream br' = stream br /\ br_src br' = br_src br /\ br_bitcnt br' <= Z.max (br_bitcnt br) (need + 7) /\
  (o = Done tt /\ need <= br_bitcnt br' \/ o = Fail (-1) /\ Z.of_nat (length (stream br)) < need).
Proof.
  revert br. induction fuel as [|fuel IH]; intros br Hw Hn Hf; cbn [fill_bits];
    destruct (Z.leb_spec need (br_bitcnt br)); try lia; try (split_and!; auto; lia).
  pose proof (length_stream br Hw) as Hl. destruct Hw as [Hs Hp Hc Hb].
  destruct (Z.leb_spec (zlen (br_src br)) (br_pos br)); [split_and!; auto; try lia; [by split|right; split; [done|lia]]|].
  set (b := bget (br_src br) (br_pos br)). assert (is_byte b) as Hbyte by (by apply is_byte_bget). unfold is_byte in Hbyte.
  set (c := br_bitcnt br) in *.
  assert (0 <= b * 2 ^ c <= 255 * 2 ^ c) as Hbc by (pose proof (Z.pow_nonneg 2 c); nia).
  assert (2 ^ (c + 8) = 256 * 2 ^ c) as Hp8 by (rewrite Z.pow_add_r by lia; lia).
  assert (u32 (Z.lor (br_bitbuf br) (Z.shiftl b c)) = br_bitbuf br + b * 2 ^ c) as Hor.
  { rewrite lor_shiftl_add by lia. apply u32_id. pose proof (Z.pow_le_mono_r 2 (c + 8) 32). lia. }
  set (br1 := BitReader _ _ _ _).
  assert (br_wf br1) as Hw1 by (unfold br1; split; simpl; [done|lia|lia|rewrite Hor; lia]).
  assert (stream br1 = stream br) as Hst.
  { unfold stream, br1. cbn [br_src br_pos br_bitbuf br_bitcnt]. rewrite Hor.
    assert (drop (Z.to_nat (br_pos br)) (br_src br) = b :: drop (Z.to_nat (br_pos br + 1)) (br_src br)) as ->.
    { rewrite Z2Nat.inj_add by lia. change (Z.to_nat 1) with 1%nat. rewrite Nat.add_1_r. apply drop_S. unfold b, bget.
      destruct (lookup_lt_is_Some_2 (br_src br) (Z.to_nat (br_pos br))) as [x E]; [unfold zlen in *; lia|]. by rewrite nth_lookup, E. }
    unfold byte_bits. rewrite bind_cons, app_assoc. f_equal. fold c.
    rewrite bits_app by (rewrite Z2Nat.id by lia; done).
    rewrite Z2Nat.id by lia. f_equal. lia. }
  specialize (IH br1 Hw1 Hn ltac:(simpl; lia)). destruct (fill_bits fuel need br1) as [o br'].
  rewrite Hst in IH. simpl in IH. destruct IH as (H1 & H2 & H3 & H4 & H5). split_and!; auto. lia.
Qed.

Lemma getbits_ok need br :
  br_wf br -> br_bitcnt br < 8 -> 0 <= need <= 16 ->
  let '(o, br') := getbits need br in
  br_wf br' /\ br_src br' = br_src br /\
  (o = Done (bits_val (take (Z.to_nat need) (stream br))) /\ stream br' = drop (Z.to_nat need) (stream br) /\
     need <= Z.of_nat (length (stream br)) /\ br_bitcnt br' < 8 \/
   o = Fail (-1) /\ Z.of_nat (length (stream br)) < need).
Proof.
  intros Hw Hc Hn. unfold getbits, bind. pose proof (fill_bits_ok (fill_fuel need) need br Hw ltac:(lia)) as F.
  destruct (fill_bits _ need br) as [o br1]. destruct F as (Hw1 & Hst & Hsrc & Hcnt & [[-> Hge]|[-> Hlt]]).
  { unfold fill_fuel. destruct Hw. lia. }
  2: { split_and!; auto. }
  rewrite <- Hst, <- Hsrc. clear Hst Hsrc. pose proof (length_stream br1 Hw1) as Hlen. destruct Hw1 as [Hs Hp Hc1 Hb].
  assert (0 <= br_bitbuf br1 mod 2 ^ need < 2 ^ need) as Hm by (apply Z.mod_pos_bound; apply Z.pow_pos_nonneg; lia).
  assert ((if negb (need =? 0) then Z.land (br_bitbuf br1) (u32 (Z.shiftl 1 need) - 1) else 0) = br_bitbuf br1 mod 2 ^ need) as Hval.
  { destruct (Z.eqb_spec need 0) as [->|]; simpl; [by rewrite Z.mod_1_r|].
    rewrite Z.shiftl_1_l, u32_id, <- Z.land_ones by first [lia|split; [apply Z.pow_nonneg; lia|apply Z.pow_lt_mono_r; lia]].
    f_equal. rewrite Z.ones_equiv. lia. }
  rewrite Hval. split_and!.
  - split; simpl; [done|done|lia|]. rewrite Z.shiftr_div_pow2 by lia. split; [apply Z.div_pos; [lia|apply Z.pow_pos_nonneg; lia]|].
    apply Z.div_lt_upper_bound; [apply Z.pow_pos_nonneg; lia|]. rewrite <- Z.pow_add_r by lia. replace (need + (_ - need)) with (br_bitcnt br1) by lia. lia.
  - done.
  - left. unfold stream in *. cbn [br_src br_pos br_bitbuf br_bitcnt].
    rewrite take_app_le, drop_app_le by (rewrite length_bits; lia). rewrite take_bits, drop_bits by lia.
    split_and!; [|f_equal|lia|destruct Hw; lia].
    + f_equal. rewrite <- (bits_val_bits (Z.to_nat need) (br_bitbuf br1 mod 2 ^ need)) by (rewrite Z2Nat.id by lia; done). f_equal.
      apply bits_ext. intros i Hi. apply Z.mod_pow2_bits_low. lia.
    + rewrite Z2Nat.id by lia. f_equal. lia.
Qed.

(** ** Progress

    [consumes_at br k c P]: from the reader [br], [c] ends; if it delivers a
    value, the value satisfies [P] and at least [k] bits have been taken from
    the stream. *)

Definition avail (br : bit_reader) : nat := length (stream br).
Record br_ready (br : bit_reader) : Prop := BrReady {
  brr_wf : br_wf br;
  brr_cnt : br_bitcnt br < 8;
  brr_avail : Z.of_nat (avail br) <= 8 * zlen (br_src br);
}.

Definition consumes_at {A} (br : bit_reader) (k : nat) (c : comp bit_reader A) (P : A -> Prop) : Prop :=
  match c br with
  | (Done a, br') => br_ready br' /\ br_src br' = br_src br /\ (avail br' + k <= avail br)%nat /\ P a
  | (Fail rc, _) => rc < 0
  | (NoFuel, _) => False
  end.
Definition consumes {A} (k : nat) (c : comp bit_reader A) (P : A -> Prop) : Prop :=
  forall br, br_ready br -> consumes_at br k c P.

Lemma consumes_bind {A B} br k1 k2 (c : comp bit_reader A) (f : A -> comp bit_reader B) (P : A -> Prop) (Q : B -> Prop) :
  consumes_at br k1 c P ->
  (forall a br', br_ready br' -> br_src br' = br_src br -> (avail br' + k1 <= avail br)%nat -> P a -> consumes_at br' k2 (f a) Q) ->
  consumes_at br (k1 + k2) (bind c f) Q.
Proof.
  unfold consumes_at, bind. destruct (c br) as [[a|rc|] br1]; [|done|done].
  intros (Hr & Hs & Ha & HP) H. specialize (H a br1 Hr Hs Ha HP).
  destruct (f a br1) as [[b|rc|] br2]; [|done|done]. destruct H as (H1 & H2 & H3 & H4). split_and!; auto; [congruence|lia].
Qed.
Lemma consumes_weaken {A} br k k' (c : comp bit_reader A) (P Q : A -> Prop) :
  consumes_at br k c P -> (k' <= k)%nat -> (forall a, P a -> Q a) -> consumes_at br k' c Q.
Proof. unfold consumes_at. destruct (c br) as [[a|rc|] br1]; auto. intros (H1 & H2 & H3 & H4) Hk HPQ. split_and!; auto. lia. Qed.
Lemma consumes_then {A B} br k1 k (c : comp bit_reader A) (f : A -> comp bit_reader B) (P : A -> Prop) (Q : B -> Prop) :
  consumes_at br k1 c P -> (k <= k1)%nat ->
  (forall a br', br_ready br' -> br_src br' = br_src br -> (avail br' + k1 <= avail br)%nat -> P a -> consumes_at br' 0 (f a) Q) ->
  consumes_at br k (bind c f) Q.
Proof. intros Hc Hk Hf. eapply consumes_weaken; [by apply (consumes_bind br k1 0 c f P Q)|lia|done]. Qed.
Lemma consumes_ret {A} br (a : A) (P : A -> Prop) : br_ready br -> P a -> consumes_at br 0 (ret a) P.
Proof. intros Hr HP. unfold consumes_at, ret. split_and!; auto. lia. Qed.
Lemma consumes_fail {A} br k rc (P : A -> Prop) : rc < 0 -> consumes_at br k (fail rc) P.
Proof. done. Qed.
Lemma consumes_require br b rc (P : unit -> Prop) : br_ready br -> rc < 0 -> (b = true -> P tt) -> consumes_at br 0 (require b rc) P.
Proof. intros Hr Hrc HP. destruct b; simpl; [by apply consumes_ret; auto|done]. Qed.
Lemma consumes_of_option {A} br rc (o : option A) (P : A -> Prop) :
  br_ready br -> rc < 0 -> (forall a, o = Some a -> P a) -> consumes_at br 0 (of_option rc o) P.
Proof. intros Hr Hrc HP. destruct o; simpl; [apply consumes_ret; auto|done]. Qed.

Lemma bits_val_range l : 0 <= bits_val l < 2 ^ Z.of_nat (length l).
Proof.
  induction l as [|b l IH]; [simpl; lia|]. cbn [bits_val foldr length]. fold (bits_val l).
  rewrite Nat2Z.inj_succ, Z.pow_succ_r by lia. destruct b; simpl Z.b2z; lia.
Qed.

Lemma getbits_consumes need : 0 <= need <= 16 -> consumes (Z.to_nat need) (getbits need) (fun v => 0 <= v < 2 ^ need).
Proof.
  intros Hn br [Hw Hc Ha]. unfold consumes_at. pose proof (getbits_ok need br Hw Hc Hn) as G.
  destruct (getbits need br) as [o br']. destruct G as (H1 & H2 & [(-> & H3 & H4 & H5)|[-> _]]); [|lia].
  assert (avail br' + Z.to_nat need = avail br)%nat as Hav by (unfold avail in *; rewrite H3, length_drop; lia).
  split_and!; [split; [done|done|rewrite H2; lia]|done|lia| |].
  - apply bits_val_range.
  - eapply Z.lt_le_trans; [apply bits_val_range|]. apply Z.pow_le_mono_r; [lia|]. rewrite length_take. lia.
Qed.

Lemma huff_decode_consumes h : consumes 1 (huff_decode h) (fun _ => True).
Proof.
  unfold huff_decode. assert (forall n len code first index, consumes 1 (huff_decode_loop n h len code first index) (fun _ => True)) as H; [|apply H].
  induction n as [|n IH]; intros len code first index br Hr; cbn [huff_decode_loop]; [by apply consumes_fail|].
  apply (consumes_bind br 1 0 _ _ (fun v => 0 <= v < 2 ^ 1)); [by apply (getbits_consumes 1)|].
  intros bit br' Hr' _ _ _. cbv zeta. destruct (_ && _); [by apply consumes_ret|]. eapply consumes_weaken; [by apply IH|lia|done].
Qed.

Lemma read_clen_consumes n i clen : consumes 0 (read_clen n i clen) (fun _ => True).
Proof.
  revert i clen. induction n as [|n IH]; intros i clen br Hr; simpl; [by apply consumes_ret|].
  eapply consumes_then; [by apply (getbits_consumes 3)|lia|]. intros; by apply IH.
Qed.

Lemma lens_step_consumes sym total lens :
  consumes 0 (lens_step sym total lens) (fun l => zlen lens < zlen l).
Proof.
  intros br Hr. unfold lens_step.
  assert (forall n r c, 0 <= n <= 16 -> 0 < r -> forall br, br_ready br ->
    consumes_at br 0 (let* extra := getbits n in require (negb (total <? zlen lens + (r + extra))) (-1) ;;; ret (lens ++ zrep (r + extra) c))
      (fun l => zlen lens < zlen l)) as Hrep.
  { intros n r c Hn Hr0 br0 Hb. eapply consumes_then; [by apply getbits_consumes|lia|].
    intros v br1 H1 _ _ Hv. cbv beta in Hv. apply (consumes_then _ 0 0 _ _ (fun _ => True)); [by apply consumes_require|lia|].
    intros _ br2 H2 _ _ _. apply consumes_ret; [done|]. rewrite zlen_app, zlen_zrep by lia. lia. }
  destruct (_ <=? _); [apply consumes_ret; [done|]; rewrite zlen_app, zlen_cons, zlen_nil; lia|].
  destruct (_ =? _).
  { apply (consumes_then _ 0 0 _ _ (fun _ => True)); [by apply consumes_require|lia|]. intros _ br2 H2 _ _ _. by apply (Hrep 2 3). }
  destruct (_ =? _); [by apply (Hrep 3 3)|]. destruct (_ =? _); [by apply (Hrep 7 11)|]. by apply consumes_fail.
Qed.

Lemma read_lens_consumes fuel ch total lens :
  (Z.to_nat (total - zlen lens) <= fuel)%nat -> consumes 0 (read_lens fuel ch total lens) (fun _ => True).
Proof.
  revert lens. induction fuel as [|fuel IH]; intros lens Hf br Hr; cbn [read_lens];
    destruct (Z.ltb_spec (zlen lens) total); try (by apply consumes_ret); [lia|].
  eapply consumes_then; [by apply huff_decode_consumes|lia|].
  intros sym br1 H1 _ _ _. apply (consumes_then _ 0 0 _ _ (fun l => zlen lens < zlen l)); [by apply lens_step_consumes|lia|].
  intros l br2 H2 _ _ Hl. apply IH; [lia|done].
Qed.

Lemma dynamic_tables_consumes : consumes 0 dynamic_tables (fun _ => True).
Proof.
  intros br Hr. unfold dynamic_tables.
  eapply consumes_then; [by apply (getbits_consumes 5)|lia|]. intros hlit br1 R1 _ _ _.
  eapply consumes_then; [by apply (getbits_consumes 5)|lia|]. intros hdist br2 R2 _ _ _.
  eapply consumes_then; [by apply (getbits_consumes 4)|lia|]. intros hclen br3 R3 _ _ _.
  apply (consumes_then _ 0 0 _ _ (fun _ => True)); [by apply consumes_require|lia|]. intros _ br4 R4 _ _ _.
  apply (consumes_then _ 0 0 _ _ (fun _ => True)); [by apply read_clen_consumes|lia|]. intros clen br5 R5 _ _ _.
  apply (consumes_then _ 0 0 _ _ (fun _ => True)); [by apply consumes_of_option|lia|]. intros ch br6 R6 _ _ _.
  apply (consumes_then _ 0 0 _ _ (fun _ => True)); [apply read_lens_consumes; [rewrite zlen_nil; lia|done]|lia|]. intros lens br7 R7 _ _ _.
  apply (consumes_then _ 0 0 _ _ (fun _ => True)); [by apply consumes_require|lia|]. intros _ br8 R8 _ _ _.
  apply (consumes_then _ 0 0 _ _ (fun _ => True)); [by apply consumes_of_option|lia|]. intros l br9 R9 _ _ _.
  apply (consumes_then _ 0 0 _ _ (fun _ => True)); [by apply consumes_of_option|lia|]. intros d br10 R10 _ _ _.
  by apply consumes_ret.
Qed.

(** ** Output *)

Definition out_ok (outcap : Z) (out : list Z) : Prop := Forall is_byte out /\ zlen out <= outcap.

Lemma zlen_copy_match n distance out : zlen (copy_match n distance out) = zlen out + Z.of_nat n.
Proof.
  revert out. induction n as [|n IH]; intros out; simpl copy_match; [lia|]. rewrite IH, zlen_app, zlen_cons, zlen_nil. lia.
Qed.
Lemma copy_match_bytes n distance out : Forall is_byte out -> Forall is_byte (copy_match n distance out).
Proof.
  revert out. induction n as [|n IH]; intros out H; simpl; [done|]. apply IH, Forall_app. split; [done|]. constructor; [by apply is_byte_bget|done].
Qed.

Lemma bget_bound (l : list Z) i m : Forall (fun x => 0 <= x <= m) l -> 0 <= m -> 0 <= bget l i <= m.
Proof.
  intros H Hm. unfold bget. destruct (lookup_lt_is_Some_2 (l ++ [0]) (Nat.min (Z.to_nat i) (length l))) as [x E].
  { rewrite length_app. simpl. lia. }
  rewrite nth_lookup. destruct (l !! Z.to_nat i) as [y|] eqn:Ey; simpl; [|lia]. exact (proj1 (Forall_lookup _ _) H _ _ Ey).
Qed.

Lemma extra_consumes tbl i :
  Forall (fun x => 0 <= x <= 16) tbl ->
  consumes 0 (if negb (bget tbl i =? 0) then getbits (bget tbl i) else ret 0) (fun v => 0 <= v).
Proof.
  intros H br Hr. pose proof (bget_bound tbl i 16 H ltac:(lia)). destruct (_ =? _); simpl; [by apply consumes_ret|].
  eapply consumes_weaken; [by apply getbits_consumes|lia|]. simpl. lia.
Qed.

Lemma inflate_match_consumes dist outcap sym out :
  out_ok outcap out -> consumes 0 (inflate_match dist outcap sym out) (out_ok outcap).
Proof.
  intros [Hb Hl] br Hr. unfold inflate_match.
  eapply consumes_then; [apply extra_consumes; [decide_now|done]|lia|]. intros extra br1 R1 _ _ He. cbv beta in He.
  eapply consumes_then; [by apply huff_decode_consumes|lia|]. intros dsym br2 R2 _ _ _.
  apply (consumes_then _ 0 0 _ _ (fun _ => True)); [by apply consumes_require|lia|]. intros _ br3 R3 _ _ _.
  eapply consumes_then; [apply extra_consumes; [decide_now|done]|lia|]. intros dextra br4 R4 _ _ Hd. cbv beta in Hd. cbv zeta.
  apply (consumes_then _ 0 0 _ _ (fun _ => True)); [by apply consumes_require|lia|]. intros _ br5 R5 _ _ _.
  eapply consumes_then; [apply (consumes_require _ _ _ (fun _ => bget lbase (sym - 257) + extra <= outcap - zlen out)); [done|done|lia]|lia|].
  intros u br6 R6 _ _ Hc. cbv beta in Hc. apply consumes_ret; [done|]. split; [by apply copy_match_bytes|]. rewrite zlen_copy_match.
  assert (0 <= bget lbase (sym - 257) <= 258) by (apply bget_bound; [decide_now|lia]). lia.
Qed.

Lemma inflate_codes_consumes fuel litlen dist outcap out br :
  out_ok outcap out -> br_ready br -> (avail br < fuel)%nat ->
  consumes_at br 0 (inflate_codes fuel litlen dist outcap out) (out_ok outcap).
Proof.
  revert out br. induction fuel as [|fuel IH]; intros out br Ho Hr Hf; [lia|]. cbn [inflate_codes].
  eapply consumes_then; [by apply huff_decode_consumes|lia|]. intros sym br1 R1 _ A1 _.
  destruct (sym <? 256).
  { eapply consumes_then; [apply (consumes_require _ _ _ (fun _ => zlen out < outcap)); [done|done|lia]|lia|].
    intros u br2 R2 _ A2 Hc. cbv beta in Hc. destruct Ho as [Hb Hl]. apply IH; [|done|lia].
    split; [apply Forall_app; split; [done|]; constructor; [apply u8_range|done]|rewrite zlen_app, zlen_cons, zlen_nil; lia]. }
  destruct (sym =? 256); [by apply consumes_ret|]. destruct (_ && _); [|by apply consumes_fail].
  eapply consumes_then; [by apply inflate_match_consumes|lia|]. intros out' br2 R2 _ A2 Ho'. apply IH; [done|done|lia].
Qed.

Lemma zlen_sub_le {A} (b : list A) off n : 0 <= n -> zlen (sub b off n) <= n.
Proof. intros Hn. unfold sub, zlen. rewrite length_take. lia. Qed.

Lemma inflate_stored_consumes outcap out : out_ok outcap out -> consumes 0 (inflate_stored outcap out) (out_ok outcap).
Proof.
  intros [Hb Hl] br Hr. unfold inflate_stored, consumes_at. destruct Hr as [Hw Hc Ha].
  pose proof (length_stream br Hw) as Hav. fold (avail br) in Hav. destruct Hw as [Hs Hp Hc24 Hbuf].
  unfold byte_align, modify, get, bind. cbn [br_src br_pos br_bitbuf br_bitcnt].
  set (src := br_src br) in *. set (pos := br_pos br) in *.
  destruct (Z.ltb_spec (zlen src) (pos + 4)); cbn [negb require fail ret]; [done|].
  set (len := Z.lor _ _). destruct (_ =? _); cbn [require fail ret]; [|done].
  assert (0 <= len < 2 ^ 16) as Hlen.
  { unfold len. pose proof (is_byte_bget src pos Hs). pose proof (is_byte_bget src (pos + 1) Hs). unfold is_byte in *.
    rewrite lor_shiftl_add by lia. lia. }
  destruct (Z.ltb_spec (zlen src) (pos + 4 + len)); cbn [orb negb require fail ret]; [done|].
  destruct (Z.ltb_spec (outcap - zlen out) len); cbn [negb require fail ret]; [done|].
  set (br' := BitReader _ _ _ _). assert (br_wf br') as Hw' by (unfold br'; split; simpl; [done|lia|lia|done]).
  pose proof (length_stream br' Hw') as Hav'. fold (avail br') in Hav'. unfold br' in Hav' at 2 3 4. cbn [br_src br_pos br_bitcnt] in Hav'.
  split_and!; [split; [done|done|simpl; fold src; lia]|done|lia|]. split.
  - apply Forall_app. split; [done|]. unfold sub. by apply Forall_take, Forall_drop.
  - rewrite zlen_app. pose proof (zlen_sub_le src (pos + 4) len). lia.
Qed.

Lemma inflate_blocks_consumes fuel outcap out br :
  out_ok outcap out -> br_ready br -> (avail br < fuel)%nat ->
  consumes_at br 0 (inflate_blocks fuel outcap out) (out_ok outcap).
Proof.
  revert out br. induction fuel as [|fuel IH]; intros out br Ho Hr Hf; [lia|]. cbn [inflate_blocks].
  eapply consumes_then; [by apply (getbits_consumes 1)|lia|]. intros final br1 R1 _ A1 _.
  eapply consumes_then; [by apply (getbits_consumes 2)|lia|]. intros type br2 R2 _ A2 _.
  apply (consumes_then _ 0 0 _ _ (out_ok outcap)); [|lia|].
  { destruct (type =? 0); [by apply inflate_stored_consumes|]. destruct (_ || _); [|by apply consumes_fail].
    apply (consumes_then _ 0 0 _ _ (fun _ => True)); [|lia|].
    { destruct (type =? 1); [by apply consumes_ret|]. by apply dynamic_tables_consumes. }
    intros t br3 R3 _ A3 _. eapply (consumes_then _ 0 0 get); [apply (consumes_ret br3 br3 (fun b => b = br3)); done|lia|].
    intros b br4 R4 S4 A4 Hb4. cbv beta in Hb4. subst b. apply inflate_codes_consumes; [done|done|]. destruct R3 as [_ _ Hv]. lia. }
  intros out' br3 R3 _ A3 Ho'. cbv beta in A1, A2. destruct (negb _); [by apply consumes_ret|]. apply IH; [done|done|]. simpl in *. lia.
Qed.

Lemma start_ready src : Forall is_byte src -> br_ready (BitReader src 0 0 0).
Proof.
  intros Hs. assert (br_wf (BitReader src 0 0 0)) as Hw by (split; simpl; [done|pose proof (zlen_nonneg src); lia|lia|lia]).
  split; [done|simpl; lia|]. unfold avail. rewrite (length_stream _ Hw). simpl. lia.
Qed.
