(* ===== verification/Canonical.v ===== *)
(** * Canonical: the canonical Huffman code of a table of code lengths

    The code that RFC 1951 (3.2.2) assigns to a table of code lengths, and the
    proof that the tables [huff_build] makes decode exactly that code: reading
    the code of a symbol delivers the symbol and takes no bit more. *)
From S2P Require Import Prelude Inflate.
#[local] Open Scope Z_scope.

(** ** The code *)

(** How many symbols have a code of length [k]. *)
Definition cnt (ls : list Z) (k : nat) : Z := zlen (filter (fun l => l = Z.of_nat k) ls).
Definition cnt1 (ls : list Z) (k : nat) : Z := match k with O => 0 | _ => cnt ls k end.
(** [next_code] of the RFC, and the number of symbols with shorter codes. *)
Fixpoint first_code (ls : list Z) (k : nat) : Z :=
  match k with O => 0 | S k => 2 * (first_code ls k + cnt1 ls k) end.
Fixpoint base (ls : list Z) (k : nat) : Z :=
  match k with O => 0 | S k => base ls k + cnt1 ls k end.
(** How many earlier symbols have a code as long as that of [s]. *)
Definition rank (ls : list Z) (s : nat) : Z := cnt (take s ls) (Z.to_nat (bget ls (Z.of_nat s))).
(** The code of [s], most significant bit first. *)
Fixpoint msb_bits (n : nat) (c : Z) : list bool :=
  match n with O => [] | S n => Z.testbit c (Z.of_nat n) :: msb_bits n c end.
Definition canon (ls : list Z) (s : nat) : list bool :=
  let k := Z.to_nat (bget ls (Z.of_nat s)) in msb_bits k (first_code ls k + rank ls s).

(** ** Arrays *)

Lemma zlen_upd l i v : zlen (upd l i v) = zlen l.
Proof. unfold upd, zlen. by rewrite length_insert. Qed.
Lemma bget_upd l i v j : 0 <= i < zlen l -> 0 <= j -> bget (upd l i v) j = if j =? i then v else bget l j.
Proof.
  intros Hi Hj. unfold bget, upd. rewrite !nth_lookup. destruct (Z.eqb_spec j i) as [->|Hne].
  - rewrite list_lookup_insert_eq; [done|]. unfold zlen in Hi. lia.
  - rewrite list_lookup_insert_ne; [done|]. lia.
Qed.

Lemma cnt_cons l ls k : cnt (l :: ls) k = cnt ls k + (if l =? Z.of_nat k then 1 else 0).
Proof.
  unfold cnt. rewrite filter_cons. destruct (Z.eqb_spec l (Z.of_nat k)); [rewrite decide_True, zlen_cons by done|rewrite decide_False by done]; lia.
Qed.
Lemma cnt_app a b k : cnt (a ++ b) k = cnt a k + cnt b k.
Proof. unfold cnt. by rewrite filter_app, zlen_app. Qed.
Lemma cnt_nonneg ls k : 0 <= cnt ls k. Proof. apply zlen_nonneg. Qed.
Lemma cnt1_nonneg ls k : 0 <= cnt1 ls k. Proof. destruct k; [done|]. apply cnt_nonneg. Qed.
Lemma cnt1_pos ls k : (0 < k)%nat -> cnt1 ls k = cnt ls k. Proof. destruct k; [lia|done]. Qed.
Lemma cnt_le ls k : cnt ls k <= zlen ls.
Proof. unfold cnt, zlen. pose proof (length_filter (fun l => l = Z.of_nat k) ls). lia. Qed.

(** ** Counting *)

Lemma huff_count_ok count ls count' :
  huff_count count ls = Some count' -> Forall (fun l => 0 <= l) ls -> zlen count = 16 ->
  (forall k, 0 <= k < 16 -> 0 <= bget count k /\ bget count k + zlen ls < 2 ^ 16) ->
  Forall (fun l => 0 <= l <= 15) ls /\ zlen count' = 16 /\
  forall k : nat, (k < 16)%nat -> bget count' (Z.of_nat k) = bget count (Z.of_nat k) + cnt ls k.
Proof.
  revert count. induction ls as [|l ls IH]; intros count E H0 Hz Hb; simpl in E.
  { injection E as <-. split_and!; [done|done|]. intros k Hk. unfold cnt. rewrite filter_nil, zlen_nil. lia. }
  inversion H0; subst. unfold MAXBITS in E. destruct (Z.ltb_spec 15 l); [done|]. rewrite zlen_cons in Hb.
  rewrite u16_id in E by (destruct (Hb l); pose proof (zlen_nonneg ls); lia).
  destruct (IH _ E) as (H1 & H4 & H5); [done|by rewrite zlen_upd| |].
  { intros k Hk. rewrite bget_upd by lia. destruct (Hb k Hk). destruct (Z.eqb_spec k l) as [->|]; lia. }
  split_and!; [by constructor; [lia|]|done|]. intros k Hk. rewrite H5, bget_upd, cnt_cons by lia.
  rewrite (Z.eqb_sym l). destruct (Z.eqb_spec (Z.of_nat k) l) as [e|]; [rewrite e|]; lia.
Qed.

(** The room [huff_build] keeps is the code space the shorter codes leave. *)
Lemma huff_left_ok n ls count k spare :
  (forall k : nat, (k < 16)%nat -> bget count (Z.of_nat k) = cnt ls k) ->
  (k + n = 15)%nat ->
  huff_left n (Z.of_nat (S k)) (2 ^ Z.of_nat k - (first_code ls k + cnt1 ls k)) count = Some spare ->
  forall j, (k < j <= 15)%nat -> first_code ls j + cnt1 ls j <= 2 ^ Z.of_nat j.
Proof.
  intros Hc. revert k. induction n as [|n IH]; intros k Hk E j Hj; [lia|]. cbn [huff_left] in E.
  rewrite Hc in E by lia. set (sp := _ - cnt ls (S k)) in E.
  assert (sp = 2 ^ Z.of_nat (S k) - (first_code ls (S k) + cnt1 ls (S k))) as Hsp.
  { unfold sp. cbn [first_code cnt1]. rewrite Nat2Z.inj_succ, Z.pow_succ_r by lia. lia. }
  destruct (Z.ltb_spec sp 0); [done|]. destruct (decide (j = S k)) as [->|]; [lia|].
  apply (IH (S k)); [lia| |lia]. rewrite <- Hsp. rewrite <- E. f_equal. lia.
Qed.

Lemma huff_offs_ok n ls count offs k :
  (forall k : nat, (k < 16)%nat -> bget count (Z.of_nat k) = cnt ls k) -> zlen ls < 2 ^ 16 ->
  (k + n = 15)%nat -> (0 < k)%nat -> zlen offs = 16 ->
  (forall j, base ls j <= zlen ls) ->
  (forall j, (0 < j <= k)%nat -> bget offs (Z.of_nat j) = base ls j) ->
  zlen (huff_offs n (Z.of_nat k) offs count) = 16 /\
  forall j, (0 < j <= 15)%nat -> bget (huff_offs n (Z.of_nat k) offs count) (Z.of_nat j) = base ls j.
Proof.
  intros Hc Hz Hk Hpos Ho Hbase Hj. revert k offs Hk Hpos Ho Hj.
  induction n as [|n IH]; intros k offs Hk Hpos Ho Hj; cbn [huff_offs].
  { split; [done|]. intros j Hj'. apply Hj. lia. }
  rewrite Hc, Hj by lia. replace (Z.of_nat k + 1) with (Z.of_nat (S k)) by lia.
  assert (base ls (S k) = base ls k + cnt ls k) as Hb by (simpl; destruct k; [lia|done]).
  assert (0 <= base ls (S k)) as Hb0.
  { assert (forall j, 0 <= base ls j) as H; [|apply H]. induction j as [|j IHj]; simpl; [lia|]. pose proof (cnt1_nonneg ls j). lia. }
  pose proof (Hbase (S k)). rewrite u32_id by lia.
  apply IH; [lia|lia|by rewrite zlen_upd|]. intros j Hj'. rewrite bget_upd by lia.
  destruct (Z.eqb_spec (Z.of_nat j) (Z.of_nat (S k))); [replace j with (S k) by lia; lia|]. apply Hj. lia.
Qed.

(** ** The symbol table *)

Lemma base_cons l ls j : 0 <= l -> base (l :: ls) j = base ls j + (if (0 <? l) && (l <? Z.of_nat j) then 1 else 0).
Proof.
  intros Hl. induction j as [|j IH]; [simpl; btests; lia|]. cbn [base]. rewrite IH. destruct j as [|j]; [simpl; btests; lia|].
  cbn [cnt1]. rewrite cnt_cons. btests; lia.
Qed.
Lemma base_le ls j : Forall (fun l => 0 <= l) ls -> base ls j <= zlen ls.
Proof.
  intros H. induction H as [|l ls Hl H IH].
  - change (zlen []) with 0. induction j as [|j IH]; simpl; [lia|]. assert (cnt1 [] j = 0) as -> by by destruct j. lia.
  - rewrite base_cons, zlen_cons by done. btests; lia.
Qed.
Lemma base_lt ls k k' : (k < k')%nat -> base ls k + cnt1 ls k <= base ls k'.
Proof.
  intros Hlt. induction Hlt as [|k' Hlt IH]; [simpl; lia|]. cbn [base]. pose proof (cnt1_nonneg ls k'). lia.
Qed.
Lemma base_nonneg ls j : 0 <= base ls j.
Proof. induction j as [|j IH]; simpl; [lia|]. pose proof (cnt1_nonneg ls j). lia. Qed.

Lemma bget_lookup (ls : list Z) s : (s < length ls)%nat -> ls !! s = Some (bget ls (Z.of_nat s)).
Proof.
  intros Hs. destruct (lookup_lt_is_Some_2 ls s Hs) as [x E]. unfold bget. rewrite Nat2Z.id, nth_lookup, E. done.
Qed.

Lemma cnt_take_lt ls s m k :
  (s < m)%nat -> (s < length ls)%nat -> bget ls (Z.of_nat s) = Z.of_nat k -> cnt (take s ls) k + 1 <= cnt (take m ls) k.
Proof.
  intros Hm Hs E. pose proof (bget_lookup ls s Hs) as Hl. rewrite E in Hl.
  assert (cnt (take (S s) ls) k = cnt (take s ls) k + 1) as <-.
  { rewrite (take_S_r _ _ _ Hl), cnt_app, cnt_cons, Z.eqb_refl. change (cnt [] k) with 0. lia. }
  rewrite <- (take_drop (S s) (take m ls)), take_take, Nat.min_l by lia. rewrite cnt_app. pose proof (cnt_nonneg (drop (S s) (take m ls)) k). lia.
Qed.

Lemma cnt_full ls k : cnt ls k = zlen ls -> Forall (fun l => l = Z.of_nat k) ls.
Proof.
  induction ls as [|l ls IH]; [done|]. rewrite cnt_cons, zlen_cons. pose proof (cnt_le ls k).
  destruct (Z.eqb_spec l (Z.of_nat k)); intros Heq; [|lia]. constructor; [done|apply IH; lia].
Qed.

Section symbols.
Context (all : list Z) (Hall : Forall (fun l => 0 <= l <= 15) all) (Hn : zlen all <= 320).

(** Where the table lists the symbol [s]. *)
Definition slot (s : nat) : Z := base all (Z.to_nat (bget all (Z.of_nat s))) + rank all s.

Lemma all_len s : 0 <= bget all (Z.of_nat s) <= 15.
Proof using Hall. apply bget_bound; [done|lia]. Qed.

Lemma rank_lt s : (s < length all)%nat -> rank all s + 1 <= cnt all (Z.to_nat (bget all (Z.of_nat s))).
Proof using Hall.
  intros Hs. unfold rank. pose proof (all_len s).
  pose proof (cnt_take_lt all s (length all) (Z.to_nat (bget all (Z.of_nat s)))) as H1. rewrite (take_ge all (length all)) in H1 by lia.
  apply H1; [done|done|lia].
Qed.

Lemma slot_range s : (s < length all)%nat -> 0 <> bget all (Z.of_nat s) -> 0 <= slot s < 320.
Proof using Hall Hn.
  intros Hs H0. unfold slot. pose proof (all_len s). pose proof (rank_lt s Hs).
  set (k := Z.to_nat (bget all (Z.of_nat s))) in *. pose proof (base_nonneg all k). pose proof (cnt_nonneg (take s all) k).
  pose proof (base_lt all k (S k) ltac:(lia)) as Hk. pose proof (cnt1_pos all k ltac:(lia)).
  pose proof (base_le all (S k)) as Hle. assert (Forall (fun l => 0 <= l) all) as HF by (eapply Forall_impl; [exact Hall|simpl; lia]).
  specialize (Hle HF). change (cnt (take s all) k) with (rank all s) in *. lia.
Qed.

Lemma slot_inj s t :
  (s < t)%nat -> (t < length all)%nat -> 0 <> bget all (Z.of_nat s) -> 0 <> bget all (Z.of_nat t) -> slot s <> slot t.
Proof using Hall.
  intros Hst Ht Hs0 Ht0. unfold slot. pose proof (all_len s). pose proof (all_len t).
  pose proof (rank_lt s ltac:(lia)). pose proof (rank_lt t Ht).
  pose proof (cnt_nonneg (take s all) (Z.to_nat (bget all (Z.of_nat s)))) as Hr1. pose proof (cnt_nonneg (take t all) (Z.to_nat (bget all (Z.of_nat t)))) as Hr2.
  fold (rank all s) in Hr1. fold (rank all t) in Hr2.
  set (j := Z.to_nat (bget all (Z.of_nat s))) in *. set (k := Z.to_nat (bget all (Z.of_nat t))) in *.
  assert (cnt1 all j = cnt all j /\ cnt1 all k = cnt all k) as [Ej Ek] by (split; apply cnt1_pos; lia).
  destruct (lt_eq_lt_dec j k) as [[Hlt|E]|Hlt].
  - pose proof (base_lt all j k Hlt). lia.
  - unfold rank. fold j k. rewrite <- E. pose proof (cnt_take_lt all s t j Hst ltac:(lia) ltac:(lia)). lia.
  - pose proof (base_lt all k j Hlt). lia.
Qed.

Lemma huff_fill_ok ls pre offs sym :
  all = pre ++ ls -> zlen offs = 16 -> zlen sym = 320 ->
  (forall k, (0 < k <= 15)%nat -> bget offs (Z.of_nat k) = base all k + cnt pre k) ->
  (forall s, (s < length pre)%nat -> 0 <> bget all (Z.of_nat s) -> bget sym (slot s) = Z.of_nat s) ->
  forall s, (s < length all)%nat -> 0 <> bget all (Z.of_nat s) -> bget (huff_fill (zlen pre) ls offs sym) (slot s) = Z.of_nat s.
Proof using Hall Hn.
  revert pre offs sym. induction ls as [|l ls IH]; intros pre offs sym Ha Ho Hy Hoff Hsym; cbn [huff_fill].
  { intros s Hs. apply Hsym. rewrite Ha, app_nil_r in Hs. done. }
  assert (bget all (zlen pre) = l) as Hl.
  { rewrite Ha, bget_app_r, Z.sub_diag by lia. done. }
  assert (length pre < length all)%nat as Hp by (rewrite Ha, length_app; simpl; lia).
  assert (take (length pre) all = pre) as Htake by (rewrite Ha; by rewrite take_app_length).
  pose proof (all_len (length pre)) as Hr. fold (zlen pre) in Hr. rewrite Hl in Hr.
  assert (forall k, (0 < k)%nat -> cnt (pre ++ [l]) k = cnt pre k + (if l =? Z.of_nat k then 1 else 0)) as Hcnt.
  { intros k Hk. rewrite cnt_app, cnt_cons. change (cnt [] k) with 0. lia. }
  assert (zlen pre + 1 = zlen (pre ++ [l])) as Hz by (rewrite zlen_app; done).
  assert (all = (pre ++ [l]) ++ ls) as Ha' by (rewrite Ha, <- app_assoc; done).
  destruct (Z.eqb_spec l 0) as [E0|E0]; cbn [negb]; rewrite Hz; apply IH; auto.
  - intros k Hk. rewrite Hoff, Hcnt by lia. rewrite (proj2 (Z.eqb_neq _ _)) by lia. lia.
  - intros s Hs Hs0. rewrite length_app in Hs. simpl in Hs. destruct (decide (s = length pre)) as [->|]; [|apply Hsym; [lia|done]].
    fold (zlen pre) in Hs0. congruence.
  - by rewrite zlen_upd.
  - by rewrite zlen_upd.
  - intros k Hk. rewrite bget_upd by lia. pose proof (Hoff (Z.to_nat l) ltac:(lia)) as Hol. rewrite Z2Nat.id in Hol by lia.
    rewrite Hcnt by lia. rewrite (Z.eqb_sym l). destruct (Z.eqb_spec (Z.of_nat k) l) as [e|]; [|rewrite Hoff by lia; lia].
    subst l. rewrite <- e, Nat2Z.id in *.
    rewrite u32_id; [lia|]. pose proof (base_nonneg all k). pose proof (cnt_nonneg pre k). pose proof (cnt_le pre k).
    assert (Forall (fun l => 0 <= l) all) as HF by (eapply Forall_impl; [exact Hall|simpl; lia]).
    pose proof (base_le all k HF). unfold zlen in *. lia.
  - assert (bget offs l = slot (length pre)) as Hslot.
    { unfold slot, rank. fold (zlen pre). rewrite Hl, Htake. rewrite <- Hoff by lia. by rewrite Z2Nat.id by lia. }
    rewrite Hslot. intros s Hs Hs0. rewrite length_app in Hs. simpl in Hs.
    pose proof (slot_range (length pre) Hp) as Hr1. fold (zlen pre) in Hr1. rewrite Hl in Hr1. specialize (Hr1 ltac:(lia)).
    pose proof (slot_range s ltac:(lia) Hs0). rewrite bget_upd by lia.
    destruct (decide (s = length pre)) as [->|].
    + rewrite Z.eqb_refl. apply u16_id. fold (zlen pre). unfold zlen in *. lia.
    + rewrite (proj2 (Z.eqb_neq _ _)); [apply Hsym; [lia|done]|]. apply slot_inj; [lia|done|done|]. fold (zlen pre). rewrite Hl. lia.
Qed.
End symbols.

(** ** Decoding *)

Lemma first_code_ge ls k l :
  (k < l)%nat -> 2 ^ Z.of_nat (l - k) * (first_code ls k + cnt1 ls k) <= first_code ls l.
Proof.
  intros Hlt. induction Hlt as [|l Hlt IH].
  - replace (S k - k)%nat with 1%nat by lia. simpl. lia.
  - replace (S l - k)%nat with (S (l - k)) by lia. rewrite Nat2Z.inj_succ, Z.pow_succ_r by lia. cbn [first_code].
    pose proof (cnt1_nonneg ls l). lia.
Qed.
Lemma first_code_nonneg ls k : 0 <= first_code ls k.
Proof. induction k as [|k IH]; simpl; [lia|]. pose proof (cnt1_nonneg ls k). lia. Qed.

(** Reading one more bit of the code [c]. *)
Lemma shiftr_step c m : 0 <= c -> Z.shiftr c (Z.of_nat m) = 2 * Z.shiftr c (Z.of_nat (S m)) + Z.b2z (Z.testbit c (Z.of_nat m)).
Proof.
  intros Hc. pose proof (Z.div2_odd (Z.shiftr c (Z.of_nat m))) as H.
  rewrite <- Z.bit0_odd, Z.shiftr_spec, Z.div2_spec, Z.shiftr_shiftr in H by lia.
  rewrite Z.add_0_l in H. replace (Z.of_nat (S m)) with (Z.of_nat m + 1) by lia. done.
Qed.
Lemma lor_double_bit x b : 0 <= x -> Z.lor (2 * x) (Z.b2z b) = 2 * x + Z.b2z b.
Proof.
  intros Hx. rewrite Z.lor_comm. replace (2 * x) with (Z.shiftl x 1) by (rewrite Z.shiftl_mul_pow2; lia).
  rewrite lor_shiftl_add by (destruct b; simpl; lia). rewrite Z.shiftl_mul_pow2 by lia. lia.
Qed.

Lemma getbits_one br b rest :
  br_ready br -> stream br = b :: rest -> exists br', getbits 1 br = (Done (Z.b2z b), br') /\ br_ready br' /\ stream br' = rest /\ br_src br' = br_src br.
Proof.
  intros [Hw Hc Ha] Hs. pose proof (getbits_ok 1 br Hw Hc ltac:(lia)) as G. destruct (getbits 1 br) as [o br'].
  destruct G as (H1 & H2 & [(-> & H3 & H4 & H5)|[_ H3]]); [|rewrite Hs in H3; simpl in H3; lia].
  exists br'. rewrite Hs in H3 |- *. simpl in H3 |- *. split_and!; [f_equal; f_equal; lia| |done|done].
  split; [done|done|]. rewrite H2. unfold avail in *. rewrite H3. rewrite Hs in Ha. cbn [length] in Ha. rewrite drop_0. lia.
Qed.

Section decode.
Context (all : list Z) (h : huffman) (Hall : Forall (fun l => 0 <= l <= 15) all) (Hn : zlen all <= 320).
Context (Hcount : forall k : nat, (k < 16)%nat -> bget (hu_count h) (Z.of_nat k) = cnt all k).
Context (Hkraft : forall j, (0 < j <= 15)%nat -> first_code all j + cnt1 all j <= 2 ^ Z.of_nat j).
Context (s : nat) (Hs : (s < length all)%nat) (Hs0 : 0 <> bget all (Z.of_nat s)).
Context (Hsym : bget (hu_symbol h) (slot all s) = Z.of_nat s).

Lemma huff_decode_loop_ok n k br rest :
  let l := Z.to_nat (bget all (Z.of_nat s)) in let c := first_code all l + rank all s in
  (k + n = 16)%nat -> (0 < k <= l)%nat -> br_ready br -> stream br = msb_bits (S (l - k)) c ++ rest ->
  exists br', huff_decode_loop n h (Z.of_nat k) (2 * Z.shiftr c (Z.of_nat (S (l - k)))) (first_code all k) (base all k) br
              = (Done (Z.of_nat s), br') /\ br_ready br' /\ stream br' = rest /\ br_src br' = br_src br.
Proof using Hall Hn Hcount Hkraft Hs Hs0 Hsym.
  cbv zeta. pose proof (all_len all Hall s) as Hr. pose proof (rank_lt all Hall s Hs) as Hrank.
  set (l := Z.to_nat (bget all (Z.of_nat s))) in *. set (c := first_code all l + rank all s).
  assert (0 <= rank all s) as Hrk0 by apply cnt_nonneg. pose proof (first_code_nonneg all l) as Hf0.
  pose proof (Hkraft l ltac:(lia)) as Hkl. rewrite cnt1_pos in Hkl by lia.
  assert (0 <= c < 2 ^ Z.of_nat l) as Hc by (unfold c; lia).
  revert k br. induction n as [|n IH]; intros k br Hkn Hk Hbr Hst; [lia|]. cbn [huff_decode_loop].
  cbn [msb_bits app] in Hst. destruct (getbits_one br _ _ Hbr Hst) as (br1 & E & Hbr1 & Hst1 & Hsrc1).
  rewrite (bind_done _ _ _ _ _ E). cbv zeta. rewrite lor_double_bit by (rewrite Z.shiftr_nonneg; lia). rewrite <- shiftr_step by lia.
  rewrite Hcount by lia. pose proof (first_code_nonneg all k) as Hfk. pose proof (base_nonneg all k) as Hbk.
  destruct (decide (k = l)) as [->|Hne].
  - rewrite Nat.sub_diag. change (Z.of_nat 0) with 0. rewrite Z.shiftr_0_r.
    rewrite (proj2 (Z.leb_le _ _)), (proj2 (Z.ltb_lt _ _)) by (unfold c; lia). cbn [andb].
    exists br1. split_and!; [|done| |done].
    + unfold ret. do 2 f_equal. rewrite <- Hsym. f_equal. unfold slot, c. fold l. lia.
    + rewrite Hst1, Nat.sub_diag. done.
  - assert (first_code all k + cnt all k <= Z.shiftr c (Z.of_nat (l - k)) < 2 ^ Z.of_nat k) as Hcode.
    { rewrite Z.shiftr_div_pow2 by lia. pose proof (first_code_ge all k l ltac:(lia)) as Hge. rewrite cnt1_pos in Hge by lia.
      assert (0 < 2 ^ Z.of_nat (l - k)) by (apply Z.pow_pos_nonneg; lia). split.
      - apply Z.div_le_lower_bound; [done|]. unfold c. lia.
      - apply Z.div_lt_upper_bound; [done|]. rewrite <- Z.pow_add_r by lia. replace (Z.of_nat (l - k) + Z.of_nat k) with (Z.of_nat l) by lia. lia. }
    rewrite (proj2 (Z.leb_le _ _)), (proj2 (Z.ltb_ge _ _)) by (pose proof (cnt_nonneg all k); lia). cbn [andb].
    assert (2 ^ Z.of_nat k <= 2 ^ 15) as Hp by (apply Z.pow_le_mono_r; lia). pose proof (cnt_nonneg all k).
    rewrite (u32_id (first_code all k + cnt all k)) by lia. rewrite !Z.shiftl_mul_pow2, !Z.pow_1_r by lia.
    assert (base all (S k) = base all k + cnt all k) as Hb by (simpl; by rewrite cnt1_pos by lia).
    assert (Forall (fun l => 0 <= l) all) as HF by (eapply Forall_impl; [exact Hall|simpl; lia]).
    pose proof (base_le all (S k) HF). rewrite !u32_id by lia.
    replace (Z.of_nat k + 1) with (Z.of_nat (S k)) by lia. rewrite <- Hb.
    replace ((first_code all k + cnt all k) * 2) with (first_code all (S k)) by (simpl; rewrite cnt1_pos by lia; lia).
    replace (l - k)%nat with (S (l - S k)) by lia. rewrite (Z.mul_comm _ 2).
    destruct (IH (S k) br1) as (br' & E' & H1 & H2 & H3); [lia|lia|done| |].
    { rewrite Hst1. by replace (l - k)%nat with (S (l - S k)) by lia. }
    exists br'. split_and!; [exact E'|done|done|congruence].
Qed.
End decode.

(** The table made for a set of lengths decodes its canonical code. *)
Lemma huff_build_decode ls spare h s br rest :
  huff_build ls = Some (spare, h) -> Forall (fun l => 0 <= l) ls -> zlen ls <= 320 ->
  (s < length ls)%nat -> 0 <> bget ls (Z.of_nat s) ->
  br_ready br -> stream br = canon ls s ++ rest ->
  exists br', huff_decode h br = (Done (Z.of_nat s), br') /\ br_ready br' /\ stream br' = rest /\ br_src br' = br_src br.
Proof.
  intros E H0 Hn Hs Hs0 Hbr Hst. unfold huff_build in E.
  destruct (huff_count _ ls) as [count|] eqn:Ec; [|done].
  destruct (huff_count_ok _ _ _ Ec H0) as (Hall & Hz & Hcount); [done|intros k Hk; change (zrep (MAXBITS + 1) 0) with (zrep 16 0); rewrite bget_zrep0; lia|].
  assert (forall k : nat, (k < 16)%nat -> bget count (Z.of_nat k) = cnt ls k) as Hcnt.
  { intros k Hk. rewrite Hcount by done. change (zrep (MAXBITS + 1) 0) with (zrep 16 0). rewrite bget_zrep0. lia. }
  pose proof (all_len ls Hall s) as Hr.
  destruct (Z.eqb_spec (bget count 0) (zlen ls)) as [E0|].
  { exfalso. pose proof (Hcnt 0%nat ltac:(lia)) as H. change (Z.of_nat 0) with 0 in H. rewrite E0 in H. apply Hs0.
    symmetry. exact (proj1 (Forall_lookup _ _) (cnt_full ls 0 (eq_sym H)) _ _ (bget_lookup ls s Hs)). }
  destruct (huff_left 15 1 1 count) as [sp|] eqn:El; [|done]. injection E as <- <-.
  assert (forall j, (0 < j <= 15)%nat -> first_code ls j + cnt1 ls j <= 2 ^ Z.of_nat j) as Hkraft.
  { intros j Hj. pose proof (huff_left_ok 15 ls count 0 sp Hcnt eq_refl) as H. change (Z.of_nat 1) with 1 in H.
    change (2 ^ Z.of_nat 0 - (first_code ls 0 + cnt1 ls 0)) with 1 in H. apply H; [exact El|lia]. }
  destruct (huff_offs_ok 14 ls count (zrep 16 0) 1) as [Hoz Hoff]; [done|lia|done|lia|done|intros j; by apply base_le| |].
  { intros j Hj. assert (j = 1%nat) as -> by lia. done. }
  change (zrep (MAXBITS + 1) 0) with (zrep 16 0). set (h := Huffman _ _).
  destruct (huff_decode_loop_ok ls h Hall Hn Hcnt Hkraft s Hs Hs0) with (n := 15%nat) (k := 1%nat) (br := br) (rest := rest)
    as (br' & E & H1 & H2 & H3); [|done|lia|done| |].
  - apply (huff_fill_ok ls Hall Hn ls [] _ _ eq_refl); [done|done| |simpl; lia|done|done].
    intros k Hk. rewrite Hoff by lia. change (cnt [] k) with 0. lia.
  - rewrite Hst. unfold canon. do 2 f_equal. lia.
  - exists br'. split_and!; [|done|done|done]. set (c := first_code ls _ + rank ls s) in E.
    assert (Z.shiftr c (Z.of_nat (S (Z.to_nat (bget ls (Z.of_nat s)) - 1))) = 0) as Hz0.
    { rewrite Z.shiftr_div_pow2 by lia. apply Z.div_small. unfold c.
      pose proof (rank_lt ls Hall s Hs). pose proof (Hkraft (Z.to_nat (bget ls (Z.of_nat s))) ltac:(lia)) as Hk. rewrite cnt1_pos in Hk by lia.
      pose proof (first_code_nonneg ls (Z.to_nat (bget ls (Z.of_nat s)))). pose proof (cnt_nonneg (take s ls) (Z.to_nat (bget ls (Z.of_nat s)))) as Hr0.
      fold (rank ls s) in Hr0. replace (S (Z.to_nat (bget ls (Z.of_nat s)) - 1)) with (Z.to_nat (bget ls (Z.of_nat s))) by lia. lia. }
    rewrite Hz0 in E. exact E.
Qed.
