(* ===== verification/Deflate.v ===== *)
(** * Deflate: what a block of DEFLATE codes stands for

    A block is a sequence of tokens: a literal byte, or a copy of earlier output
    given by a length symbol, a distance symbol and their extra bits.  Here are
    the bits that encode a token under two tables of code lengths and the
    output it stands for; the decoder of [src/gu_gzip.c] recovers exactly that
    output from exactly those bits. *)
From S2P Require Import Prelude Inflate Canonical.
#[local] Open Scope Z_scope.

Inductive token : Type :=
| Lit (b : Z)
| Match (li extra dsym dextra : Z).

(** The length and distance of a copy. *)
Definition match_len (li extra : Z) : Z := bget lbase li + extra.
Definition match_dist (dsym dextra : Z) : Z := bget dbase dsym + dextra.

(** The copy of [len] bytes from [d] bytes back: the last [d] bytes, over and over. *)
Definition lz_copy (len d : Z) (out : list Z) : list Z :=
  out ++ ((fun j => bget out (zlen out - d + j mod d)) <$> seqZ 0 len).

Definition expand (out : list Z) (t : token) : list Z :=
  match t with
  | Lit b => out ++ [b]
  | Match li extra dsym dextra => lz_copy (match_len li extra) (match_dist dsym dextra) out
  end.

Definition encode (ll dd : list Z) (t : token) : list bool :=
  match t with
  | Lit b => canon ll (Z.to_nat b)
  | Match li extra dsym dextra =>
      canon ll (Z.to_nat (257 + li)) ++ bits (Z.to_nat (bget lext li)) extra ++
      canon dd (Z.to_nat dsym) ++ bits (Z.to_nat (bget dext dsym)) dextra
  end.

(** The symbols of a token have codes, its extra bits fit, and it does not
    reach before the start of the output. *)
Definition token_ok (ll dd : list Z) (outcap : Z) (out : list Z) (t : token) : Prop :=
  match t with
  | Lit b => is_byte b /\ b < zlen ll /\ 0 <> bget ll b /\ zlen out < outcap
  | Match li extra dsym dextra =>
      0 <= li < 29 /\ 257 + li < zlen ll /\ 0 <> bget ll (257 + li) /\ 0 <= extra < 2 ^ bget lext li /\
      0 <= dsym < 30 /\ dsym < zlen dd /\ 0 <> bget dd dsym /\ 0 <= dextra < 2 ^ bget dext dsym /\
      match_dist dsym dextra <= zlen out /\ match_len li extra <= outcap - zlen out
  end.
Fixpoint tokens_ok (ll dd : list Z) (outcap : Z) (out : list Z) (ts : list token) : Prop :=
  match ts with
  | [] => True
  | t :: ts => token_ok ll dd outcap out t /\ tokens_ok ll dd outcap (expand out t) ts
  end.

(** ** Lemmas *)

(** Copying byte by byte, even over itself, repeats the last [d] bytes. *)
Lemma copy_match_lz n d out : 0 < d <= zlen out -> copy_match n d out = lz_copy (Z.of_nat n) d out.
Proof.
  intros Hd. assert (forall n m, copy_match n d (lz_copy (Z.of_nat m) d out) = lz_copy (Z.of_nat (m + n)) d out) as H.
  2: { specialize (H n 0%nat). rewrite Nat.add_0_l in H. rewrite <- H. f_equal. unfold lz_copy. simpl. by rewrite app_nil_r. }
  clear n. induction n as [|n IH]; intros m; simpl copy_match; [by rewrite Nat.add_0_r|].
  replace (m + S n)%nat with (S m + n)%nat by lia. rewrite <- IH. f_equal.
  unfold lz_copy at 4. rewrite seqZ_S, fmap_app. rewrite app_assoc. f_equal. simpl. f_equal.
  set (g := fun j => bget out (zlen out - d + j mod d)). unfold lz_copy. fold g.
  assert (zlen (g <$> seqZ 0 (Z.of_nat m)) = Z.of_nat m) as Hz by (rewrite zlen_fmap; unfold zlen; rewrite length_seqZ; lia).
  rewrite zlen_app, Hz. destruct (Z.ltb_spec (Z.of_nat m) d).
  - rewrite bget_app_l by lia. unfold g. rewrite Z.mod_small by lia. f_equal. lia.
  - rewrite bget_app_r by lia. change (g <$> seqZ 0 (Z.of_nat m)) with (bytes_at g 0 (Z.of_nat m)).
    rewrite bget_bytes_at by lia. unfold g. f_equal. f_equal.
    replace (0 + (zlen out + Z.of_nat m - d - zlen out)) with (Z.of_nat m + (-1) * d) by lia. by rewrite Z.mod_add by lia.
Qed.

Lemma getbits_word n v br rest :
  br_ready br -> 0 <= n <= 16 -> 0 <= v < 2 ^ n -> stream br = bits (Z.to_nat n) v ++ rest ->
  exists br', getbits n br = (Done v, br') /\ br_ready br' /\ stream br' = rest /\ br_src br' = br_src br.
Proof.
  intros [Hw Hc Ha] Hn Hv Hs. pose proof (getbits_ok n br Hw Hc Hn) as G. destruct (getbits n br) as [o br'].
  pose proof (length_bits (Z.to_nat n) v) as Hl. assert (length (stream br) = Z.to_nat n + length rest)%nat as Hls by (rewrite Hs, length_app; lia).
  destruct G as (H1 & H2 & [(-> & H3 & H4 & H5)|[_ H3]]); [|lia].
  exists br'. rewrite Hs in H3 |- *. rewrite take_app_length' by lia. rewrite drop_app_length' in H3 by lia.
  split_and!; [|split; [done|done|unfold avail; rewrite H2, H3; unfold avail in Ha; lia]|done|done].
  do 2 f_equal. apply bits_val_bits. by rewrite Z2Nat.id by lia.
Qed.

Lemma extra_word tbl i v br rest :
  br_ready br -> Forall (fun x => 0 <= x <= 16) tbl -> 0 <= v < 2 ^ bget tbl i -> stream br = bits (Z.to_nat (bget tbl i)) v ++ rest ->
  exists br', (if negb (bget tbl i =? 0) then getbits (bget tbl i) else ret 0) br = (Done v, br') /\ br_ready br' /\
    stream br' = rest /\ br_src br' = br_src br.
Proof.
  intros Hr Ht Hv Hs. pose proof (bget_bound tbl i 16 Ht ltac:(lia)). destruct (Z.eqb_spec (bget tbl i) 0) as [E|E]; cbn [negb].
  - rewrite E in *. exists br. split_and!; [unfold ret; do 2 f_equal; simpl in Hv; lia|done|done|done].
  - by apply getbits_word.
Qed.

Lemma decode_symbol ls spare h v br rest :
  huff_build ls = Some (spare, h) -> Forall (fun l => 0 <= l) ls -> zlen ls <= 320 ->
  0 <= v < zlen ls -> 0 <> bget ls v -> br_ready br -> stream br = canon ls (Z.to_nat v) ++ rest ->
  exists br', huff_decode h br = (Done v, br') /\ br_ready br' /\ stream br' = rest /\ br_src br' = br_src br.
Proof.
  intros. rewrite <- (Z2Nat.id v) by lia. eapply huff_build_decode; eauto.
  - unfold zlen in *. lia.
  - by rewrite Z2Nat.id by lia.
Qed.

Section tables.
Context (ll dd : list Z) (sl sd : Z) (hl hd : huffman).
Context (Hl : huff_build ll = Some (sl, hl)) (Hd : huff_build dd = Some (sd, hd)).
Context (Hll : Forall (fun l => 0 <= l) ll) (Hdd : Forall (fun l => 0 <= l) dd) (Hln : zlen ll <= 320) (Hdn : zlen dd <= 320).

Lemma inflate_match_ok outcap out li extra dsym dextra br rest :
  token_ok ll dd outcap out (Match li extra dsym dextra) -> br_ready br ->
  stream br = bits (Z.to_nat (bget lext li)) extra ++ canon dd (Z.to_nat dsym) ++ bits (Z.to_nat (bget dext dsym)) dextra ++ rest ->
  exists br', inflate_match hd outcap (257 + li) out br = (Done (expand out (Match li extra dsym dextra)), br') /\ br_ready br' /\
    stream br' = rest /\ br_src br' = br_src br.
Proof using Hd Hdd Hdn.
  intros (H1 & H2 & H3 & H4 & H5 & H6 & H7 & H8 & H9 & H10) Hr Hs. unfold inflate_match. replace (257 + li - 257) with li by lia.
  destruct (extra_word lext li extra br _ Hr ltac:(decide_now) H4 Hs) as (br1 & E1 & R1 & S1 & C1).
  rewrite (bind_done _ _ _ _ _ E1). cbv zeta.
  destruct (decode_symbol dd sd hd dsym br1 _ Hd Hdd Hdn ltac:(lia) H7 R1 S1) as (br2 & E2 & R2 & S2 & C2).
  rewrite (bind_done _ _ _ _ _ E2). rewrite require_true by (rewrite (proj2 (Z.leb_gt _ _)) by lia; done).
  destruct (extra_word dext dsym dextra br2 _ R2 ltac:(decide_now) H8 S2) as (br3 & E3 & R3 & S3 & C3).
  rewrite (bind_done _ _ _ _ _ E3). unfold match_dist, match_len in *.
  assert (1 <= bget dbase dsym) as Hb.
  { assert (Forall (fun x => 1 <= x) dbase) as HF by decide_now.
    apply (proj1 (Forall_lookup _ _) HF (Z.to_nat dsym)). rewrite <- (Z2Nat.id dsym) at 2 by lia. apply bget_lookup. simpl. lia. }
  assert (0 <= bget lbase li <= 258) as Hlb by (apply bget_bound; [decide_now|lia]).
  rewrite require_true by (rewrite (proj2 (Z.eqb_neq _ _)), (proj2 (Z.ltb_ge _ _)) by lia; done).
  rewrite require_true by (rewrite (proj2 (Z.ltb_ge _ _)) by lia; done).
  exists br3. split_and!; [|done|done|congruence]. unfold ret. do 2 f_equal. unfold expand, match_len, match_dist.
  rewrite copy_match_lz by lia. by rewrite Z2Nat.id by lia.
Qed.

Lemma inflate_codes_ok ts fuel outcap out br rest :
  tokens_ok ll dd outcap out ts -> br_ready br -> 256 < zlen ll -> 0 <> bget ll 256 -> (length ts < fuel)%nat ->
  stream br = (ts ≫= encode ll dd) ++ canon ll 256 ++ rest ->
  exists br', inflate_codes fuel hl hd outcap out br = (Done (foldl expand out ts), br') /\ br_ready br' /\
    stream br' = rest /\ br_src br' = br_src br.
Proof using Hl Hd Hll Hdd Hln Hdn.
  intros Hts Hr Hz H256. revert fuel out br Hts Hr.
  induction ts as [|t ts IH]; intros fuel out br Hts Hr Hf Hs; (destruct fuel as [|fuel]; [simpl in Hf; lia|]); cbn [inflate_codes].
  - destruct (decode_symbol ll sl hl 256 br rest Hl Hll Hln ltac:(lia) H256 Hr Hs) as (br1 & E1 & R1 & S1 & C1).
    rewrite (bind_done _ _ _ _ _ E1). exists br1. done.
  - destruct Hts as [Ht Hts]. rewrite bind_cons, <- app_assoc in Hs. destruct t as [b|li extra dsym dextra].
    + destruct Ht as (Hb & Hbl & Hb0 & Hc). unfold is_byte in Hb.
      destruct (decode_symbol ll sl hl b br _ Hl Hll Hln ltac:(lia) Hb0 Hr Hs) as (br1 & E1 & R1 & S1 & C1).
      rewrite (bind_done _ _ _ _ _ E1). rewrite (proj2 (Z.ltb_lt b 256)) by lia.
      rewrite require_true by (rewrite (proj2 (Z.leb_gt _ _)) by lia; done). rewrite u8_id by lia.
      destruct (IH fuel (out ++ [b]) br1 Hts R1 ltac:(simpl in Hf; lia) S1) as (br2 & E2 & R2 & S2 & C2).
      exists br2. split_and!; [exact E2|done|done|congruence].
    + pose proof Ht as (H1 & H2 & H3 & H4 & _). cbn [encode] in Hs. rewrite <- !app_assoc in Hs.
      destruct (decode_symbol ll sl hl (257 + li) br _ Hl Hll Hln ltac:(lia) H3 Hr Hs) as (br1 & E1 & R1 & S1 & C1).
      rewrite (bind_done _ _ _ _ _ E1). rewrite (proj2 (Z.ltb_ge (257 + li) 256)), (proj2 (Z.eqb_neq (257 + li) 256)) by lia.
      rewrite (proj2 (Z.leb_le 257 _)), (proj2 (Z.leb_le _ 285)) by lia. cbn [andb].
      destruct (inflate_match_ok outcap out li extra dsym dextra br1 _ Ht R1 S1) as (br2 & E2 & R2 & S2 & C2).
      rewrite (bind_done _ _ _ _ _ E2).
      destruct (IH fuel (expand out (Match li extra dsym dextra)) br2 Hts R2 ltac:(simpl in Hf; lia) S2) as (br3 & E3 & R3 & S3 & C3).
      exists br3. split_and!; [exact E3|done|done|congruence].
Qed.
End tables.

(** ** Theorems *)

(** C22: decompression ends on every input: it delivers at most the bytes the
    caller has room for, or fails; it never runs on. *)
Theorem inflate_total (src : list Z) (outcap : Z) :
  Forall is_byte src -> 0 <= outcap ->
  match inflate_raw src outcap with
  | Done out => Forall is_byte out /\ zlen out <= outcap
  | Fail rc => rc < 0
  | NoFuel => False
  end.
Proof.
  intros Hs Hc. unfold inflate_raw.
  pose proof (inflate_blocks_consumes (S (Z.to_nat (8 * zlen src))) outcap [] (BitReader src 0 0 0)) as H.
  unfold consumes_at in H. destruct (inflate_blocks _ outcap [] _) as [[out|rc|] br]; cbn [fst] in *.
  - apply H; [done|by apply start_ready|]. destruct (start_ready src Hs) as [_ _ Ha]. simpl in Ha. lia.
  - apply H; [done|by apply start_ready|]. destruct (start_ready src Hs) as [_ _ Ha]. simpl in Ha. lia.
  - apply H; [done|by apply start_ready|]. destruct (start_ready src Hs) as [_ _ Ha]. simpl in Ha. lia.
Qed.
Lemma inflate_total_witness :
  inflate_raw [75; 76; 4; 2; 0] 10 = Done [97; 97; 97; 97; 97] /\ zlen [97; 97; 97; 97; 97] <= 10.
Proof.
  assert (inflate_raw [75; 76; 4; 2; 0] 10 = Done [97; 97; 97; 97; 97]) as E by (vm_compute; reflexivity).
  split; [exact E|]. pose proof (inflate_total [75; 76; 4; 2; 0] 10 ltac:(decide_now) ltac:(lia)) as H. rewrite E in H. apply H.
Defined.

(** C21: the table built for a set of code lengths decodes its canonical Huffman
    code: the bits of a symbol's code deliver that symbol, and no bit beyond
    them is taken. *)
Theorem huffman_decodes_canonical (ls : list Z) (spare : Z) (h : huffman) (s : nat) (br : bit_reader) (rest : list bool) :
  huff_build ls = Some (spare, h) -> Forall (fun l => 0 <= l) ls -> zlen ls <= MAXCODES ->
  (s < length ls)%nat -> bget ls (Z.of_nat s) <> 0 -> br_ready br -> stream br = canon ls s ++ rest ->
  exists br', huff_decode h br = (Done (Z.of_nat s), br') /\ br_ready br' /\ stream br' = rest.
Proof.
  intros E H0 Hn Hs Hne Hr Hst. destruct (huff_build_decode ls spare h s br rest) as (br' & ? & ? & ? & _); eauto.
Qed.
Lemma huffman_decodes_canonical_witness :
  exists br', huff_decode fixed_tables.1 (BitReader [137; 64] 0 0 0) = (Done 97, br') /\ stream br' = bits 8 64.
Proof.
  assert (huff_build fixed_ll = Some (0, fixed_tables.1)) as Eb by (vm_compute; reflexivity).
  destruct (huffman_decodes_canonical fixed_ll 0 fixed_tables.1 97 (BitReader [137; 64] 0 0 0) (bits 8 64) Eb) as (br' & E & _ & Hs).
  - decide_now.
  - vm_compute. discriminate.
  - apply Nat.ltb_lt. vm_compute. reflexivity.
  - vm_compute. discriminate.
  - apply start_ready. decide_now.
  - vm_compute. reflexivity.
  - exists br'. split; [exact E|exact Hs].
Defined.

(** C20: a block of codes is decoded to what it stands for: under any two
    tables the decoder accepts, the bits that encode a sequence of literals and
    copies followed by the end-of-block code are turned into the output of
    that sequence, and the bits after them are left alone. *)
Theorem inflate_codes_correct (ll dd : list Z) (sl sd : Z) (hl hd : huffman) (ts : list token) (fuel : nat) (outcap : Z)
    (out : list Z) (br : bit_reader) (rest : list bool) :
  huff_build ll = Some (sl, hl) -> huff_build dd = Some (sd, hd) ->
  Forall (fun l => 0 <= l) ll -> Forall (fun l => 0 <= l) dd -> 256 < zlen ll <= MAXCODES -> zlen dd <= MAXCODES -> bget ll 256 <> 0 ->
  tokens_ok ll dd outcap out ts -> br_ready br -> (length ts < fuel)%nat ->
  stream br = (ts ≫= encode ll dd) ++ canon ll 256 ++ rest ->
  exists br', inflate_codes fuel hl hd outcap out br = (Done (foldl expand out ts), br') /\ stream br' = rest.
Proof.
  intros Hl Hd Hll Hdd [Hz Hln] Hdn H256 Hts Hr Hf Hs.
  destruct (inflate_codes_ok ll dd sl sd hl hd Hl Hd Hll Hdd Hln Hdn ts fuel outcap out br rest) as (br' & ? & ? & ? & _); eauto.
Qed.
(** The literal [a] and a copy of three bytes from one byte back. *)
Lemma inflate_codes_correct_witness :
  exists br', inflate_codes 3 fixed_tables.1 fixed_tables.2 4 [] (BitReader [137; 64; 0; 0] 0 0 0) = (Done [97; 97; 97; 97], br') /\
    stream br' = [false; false; false; false; false].
Proof.
  apply (inflate_codes_correct fixed_ll fixed_dd 0 0 _ _ [Lit 97; Match 0 0 0 0] 3 4 [] _ [false; false; false; false; false]).
  - vm_compute. reflexivity.
  - vm_compute. reflexivity.
  - decide_now.
  - decide_now.
  - vm_compute. split; [reflexivity|discriminate].
  - vm_compute. discriminate.
  - vm_compute. discriminate.
  - repeat split; vm_compute; congruence.
  - apply start_ready. decide_now.
  - simpl. lia.
  - vm_compute. reflexivity.
Defined.
