(* ===== verification/Sha256.v ===== *)
(** * Sha256: the streaming hash of [src/cmd_sha256.c]

    The context that takes a file in pieces and the digest it ends with,
    against the one-shot definition of the standard (FIPS 180-4): pad the
    message, cut it into blocks of 64 bytes and compress them in turn. *)
From S2P Require Import Prelude.
#[local] Open Scope Z_scope.

Definition rotr32 (x n : Z) : Z := Z.lor (Z.shiftr x n) (u32 (Z.shiftl x (32 - n))).
Definition load_be32 (p : list Z) (i : Z) : Z :=
  Z.lor (Z.lor (Z.lor (Z.shiftl (bget p i) 24) (Z.shiftl (bget p (i + 1)) 16)) (Z.shiftl (bget p (i + 2)) 8)) (bget p (i + 3)).
Definition store_be32 (v : Z) : list Z := [u8 (Z.shiftr v 24); u8 (Z.shiftr v 16); u8 (Z.shiftr v 8); u8 v].

Definition k256 : list Z :=
  [0x428a2f98; 0x71374491; 0xb5c0fbcf; 0xe9b5dba5; 0x3956c25b; 0x59f111f1; 0x923f82a4; 0xab1c5ed5] ++
  [0xd807aa98; 0x12835b01; 0x243185be; 0x550c7dc3; 0x72be5d74; 0x80deb1fe; 0x9bdc06a7; 0xc19bf174] ++
  [0xe49b69c1; 0xefbe4786; 0x0fc19dc6; 0x240ca1cc; 0x2de92c6f; 0x4a7484aa; 0x5cb0a9dc; 0x76f988da] ++
  [0x983e5152; 0xa831c66d; 0xb00327c8; 0xbf597fc7; 0xc6e00bf3; 0xd5a79147; 0x06ca6351; 0x14292967] ++
  [0x27b70a85; 0x2e1b2138; 0x4d2c6dfc; 0x53380d13; 0x650a7354; 0x766a0abb; 0x81c2c92e; 0x92722c85] ++
  [0xa2bfe8a1; 0xa81a664b; 0xc24b8b70; 0xc76c51a3; 0xd192e819; 0xd6990624; 0xf40e3585; 0x106aa070] ++
  [0x19a4c116; 0x1e376c08; 0x2748774c; 0x34b0bcb5; 0x391c0cb3; 0x4ed8aa4a; 0x5b9cca4f; 0x682e6ff3] ++
  [0x748f82ee; 0x78a5636f; 0x84c87814; 0x8cc70208; 0x90befffa; 0xa4506ceb; 0xbef9a3f7; 0xc67178f2].

(** [w[i]] for [i] from 16 on. *)
Fixpoint schedule (n : nat) (i : Z) (w : list Z) : list Z :=
  match n with
  | O => w
  | S n =>
      let s0 := Z.lxor (Z.lxor (rotr32 (bget w (i - 15)) 7) (rotr32 (bget w (i - 15)) 18)) (Z.shiftr (bget w (i - 15)) 3) in
      let s1 := Z.lxor (Z.lxor (rotr32 (bget w (i - 2)) 17) (rotr32 (bget w (i - 2)) 19)) (Z.shiftr (bget w (i - 2)) 10) in
      schedule n (i + 1) (w ++ [u32 (bget w (i - 16) + s0 + bget w (i - 7) + s1)])
  end.

(** The working variables [a .. h]. *)
Record vars : Type := Vars { va : Z; vb : Z; vc : Z; vd : Z; ve : Z; vf : Z; vg : Z; vh : Z }.
Definition round (v : vars) (k w : Z) : vars :=
  let '(Vars a b cc d e f g h) := v in
  let s1 := Z.lxor (Z.lxor (rotr32 e 6) (rotr32 e 11)) (rotr32 e 25) in
  let ch := Z.lxor (Z.land e f) (Z.land (u32 (Z.lnot e)) g) in
  let t1 := u32 (h + s1 + ch + k + w) in
  let s0 := Z.lxor (Z.lxor (rotr32 a 2) (rotr32 a 13)) (rotr32 a 22) in
  let maj := Z.lxor (Z.lxor (Z.land a b) (Z.land a cc)) (Z.land b cc) in
  let t2 := u32 (s0 + maj) in
  Vars (u32 (t1 + t2)) a b cc (u32 (d + t1)) e f g.
Fixpoint rounds (n : nat) (i : Z) (w : list Z) (v : vars) : vars :=
  match n with O => v | S n => rounds n (i + 1) w (round v (bget k256 i) (bget w i)) end.
Definition vars_add (x y : vars) : vars :=
  Vars (u32 (va x + va y)) (u32 (vb x + vb y)) (u32 (vc x + vc y)) (u32 (vd x + vd y))
       (u32 (ve x + ve y)) (u32 (vf x + vf y)) (u32 (vg x + vg y)) (u32 (vh x + vh y)).

Definition sha256_transform (h : vars) (block : list Z) : vars :=
  let w := (fun i => load_be32 block (i * 4)) <$> seqZ 0 16 in
  let w := schedule 48 16 w in
  vars_add h (rounds 64 0 w h).

(** ** The context *)

Record sha256_ctx : Type := Ctx { sh_h : vars; sh_total : Z; sh_block : list Z; sh_used : Z }.

Definition sha256_iv : vars :=
  Vars 0x6a09e667 0xbb67ae85 0x3c6ef372 0xa54ff53a 0x510e527f 0x9b05688c 0x1f83d9ab 0x5be0cd19.
(** The block is left as it is. *)
Definition sha256_init (c : sha256_ctx) : sha256_ctx := Ctx sha256_iv 0 (sh_block c) 0.

Fixpoint update_loop (fuel : nat) (c : sha256_ctx) (data : list Z) : sha256_ctx :=
  match data, fuel with
  | [], _ | _, O => c
  | _, S fuel =>
      let n := Z.min (64 - sh_used c) (zlen data) in
      let block := splice (sh_block c) (sh_used c) (take (Z.to_nat n) data) in
      let used := sh_used c + n in
      let c := if used =? 64 then Ctx (sha256_transform (sh_h c) block) (sh_total c) block 0
               else Ctx (sh_h c) (sh_total c) block used in
      update_loop fuel c (drop (Z.to_nat n) data)
  end.
(** Each turn takes at least a byte. *)
Definition sha256_update (c : sha256_ctx) (data : list Z) : sha256_ctx :=
  update_loop (length data) (Ctx (sh_h c) (u64 (sh_total c + zlen data)) (sh_block c) (sh_used c)) data.

(** [memset(c->block + from, 0, to - from)] *)
Definition zero_from (block : list Z) (from to : Z) : list Z := splice block from (zrep (to - from) 0).
Definition digest (h : vars) : list Z :=
  store_be32 (va h) ++ store_be32 (vb h) ++ store_be32 (vc h) ++ store_be32 (vd h) ++
  store_be32 (ve h) ++ store_be32 (vf h) ++ store_be32 (vg h) ++ store_be32 (vh h).
Definition sha256_final (c : sha256_ctx) : list Z :=
  let bits := u64 (sh_total c * 8) in
  let block := splice (sh_block c) (sh_used c) [0x80] in
  let used := sh_used c + 1 in
  let '(h, block, used) :=
    if 56 <? used then
      let block := zero_from block used 64 in (sha256_transform (sh_h c) block, block, 0)
    else (sh_h c, block, used) in
  let block := zero_from block used 56 in
  let block := splice block 56 (put64be bits) in
  digest (sha256_transform h block).

(** ** The standard *)

Definition pad (m : list Z) : list Z := m ++ [0x80] ++ zrep ((55 - zlen m) mod 64) 0 ++ put64be (u64 (zlen m * 8)).
Fixpoint hash_blocks (n : nat) (h : vars) (m : list Z) : vars :=
  match n with O => h | S n => hash_blocks n (sha256_transform h (take 64 m)) (drop 64 m) end.
Definition sha256 (m : list Z) : list Z :=
  digest (hash_blocks (length (pad m) / 64) sha256_iv (pad m)).

(** ** Lemmas *)

Lemma hash_blocks_app k j h a b :
  length a = (64 * k)%nat -> hash_blocks (k + j) h (a ++ b) = hash_blocks j (hash_blocks k h a) b.
Proof.
  revert h a. induction k as [|k IH]; intros h a Ha; cbn [hash_blocks Nat.add].
  - by destruct a.
  - rewrite take_app_le, drop_app_le by lia. rewrite IH; [done|]. rewrite length_drop. lia.
Qed.

(** The context after the message [m]: the whole blocks of [m] are hashed and
    the rest is in the buffer. *)
Definition holds (m : list Z) (h : vars) (block : list Z) (used : Z) : Prop :=
  zlen block = 64 /\ 0 <= used < 64 /\
  exists k full rest, m = full ++ rest /\ length full = (64 * k)%nat /\ zlen rest = used /\
    take (Z.to_nat used) block = rest /\ h = hash_blocks k sha256_iv full.
Record represents (m : list Z) (c : sha256_ctx) : Prop := Represents {
  rp_total : sh_total c = u64 (zlen m);
  rp_holds : holds m (sh_h c) (sh_block c) (sh_used c);
}.

Lemma splice_extends (b src : list Z) used :
  0 <= used -> used + zlen src <= zlen b ->
  take (Z.to_nat (used + zlen src)) (splice b used src) = take (Z.to_nat used) b ++ src.
Proof.
  intros Hu Hl. unfold splice. pose proof (zlen_nonneg src). unfold zlen in *.
  rewrite app_assoc. apply take_app_length'. rewrite length_app, length_take. lia.
Qed.

Lemma update_loop_ok fuel m data h t block used :
  holds m h block used -> (length data <= fuel)%nat ->
  let c := update_loop fuel (Ctx h t block used) data in
  holds (m ++ data) (sh_h c) (sh_block c) (sh_used c) /\ sh_total c = t.
Proof.
  revert m data h block used. induction fuel as [|fuel IH]; intros m data h block used Hh Hf; cbv zeta.
  { destruct data; [|simpl in Hf; lia]. by rewrite app_nil_r. }
  destruct data as [|x data]; [by rewrite app_nil_r|]. cbn [update_loop sh_used sh_block sh_h sh_total].
  set (d := x :: data) in *. assert (0 < zlen d) as Hd by (unfold d; rewrite zlen_cons; pose proof (zlen_nonneg data); lia).
  destruct Hh as (Hb & Hu & k & full & rest & -> & Hfull & Hrest & Htake & ->).
  set (n := Z.min (64 - used) (zlen d)). set (part := take (Z.to_nat n) d).
  assert (zlen part = n) as Hp by (apply zlen_take; lia).
  pose proof (splice_extends block part used ltac:(lia) ltac:(lia)) as Hsp. rewrite Hp, Htake in Hsp.
  assert (zlen (splice block used part) = 64) as Hbz by (rewrite zlen_splice; lia).
  assert ((full ++ rest) ++ d = ((full ++ rest) ++ part) ++ drop (Z.to_nat n) d) as -> by (unfold part; by rewrite <- (app_assoc _ (take _ _)), take_drop).
  destruct (Z.eqb_spec (used + n) 64) as [E|E].
  - rewrite E in Hsp. change (Z.to_nat 64) with 64%nat in Hsp. rewrite take_ge in Hsp by (unfold zlen in Hbz; lia).
    apply IH; [|rewrite length_drop; unfold zlen in *; lia].
    split; [done|]. split; [lia|]. exists (k + 1)%nat, ((full ++ rest) ++ part), []. split_and!; [by rewrite app_nil_r| |done|done|].
    + rewrite !length_app. unfold zlen in *. lia.
    + rewrite <- app_assoc, hash_blocks_app by done. cbn [hash_blocks]. rewrite take_ge by (rewrite length_app; unfold zlen in *; lia). by rewrite Hsp.
  - apply IH; [|rewrite length_drop; unfold zlen in *; lia].
    split; [done|]. split; [lia|]. exists k, full, (rest ++ part). split_and!; [by rewrite app_assoc|done|rewrite zlen_app; lia|done|done].
Qed.

Lemma sha256_init_ok c : zlen (sh_block c) = 64 -> represents [] (sha256_init c).
Proof. intros Hb. split; [done|]. split; [done|]. split; [simpl; lia|]. exists O, [], []. done. Qed.

Lemma sha256_update_ok m c data : represents m c -> represents (m ++ data) (sha256_update c data).
Proof.
  intros [Ht Hh]. unfold sha256_update.
  destruct (update_loop_ok (length data) m data (sh_h c) (u64 (sh_total c + zlen data)) (sh_block c) (sh_used c) Hh (le_n _)) as [H1 H2].
  split; [|done]. rewrite H2, Ht, zlen_app. unfold u64. by rewrite Zplus_mod_idemp_l.
Qed.

Lemma sha256_final_ok m c : represents m c -> sha256_final c = sha256 m.
Proof.
  intros [Ht (Hb & Hu & k & full & rest & Hm & Hfull & Hrest & Htake & Hh)].
  unfold sha256_final. set (used := sh_used c) in *.
  assert (u64 (sh_total c * 8) = u64 (zlen m * 8)) as -> by (rewrite Ht; unfold u64; by rewrite Zmult_mod_idemp_l).
  set (len8 := put64be (u64 (zlen m * 8))). assert (zlen len8 = 8) as Hl8 by done.
  pose proof (splice_extends (sh_block c) [0x80] used ltac:(lia) ltac:(change (zlen [0x80]) with 1; lia)) as H80.
  change (zlen [0x80]) with 1 in H80. rewrite Htake in H80.
  set (b0 := splice (sh_block c) used [0x80]) in *. assert (zlen b0 = 64) as Hb0 by (unfold b0; rewrite zlen_splice; [done|lia|change (zlen [0x80]) with 1; lia]).
  assert (forall b from, zlen b = 64 -> 0 <= from <= 56 ->
    splice (zero_from b from 56) 56 len8 = take (Z.to_nat from) b ++ zrep (56 - from) 0 ++ len8) as Hlast.
  { intros b from Hz Hfr. pose proof (splice_extends b (zrep (56 - from) 0) from ltac:(lia)) as H1. rewrite zlen_zrep in H1 by lia.
    specialize (H1 ltac:(lia)). replace (from + (56 - from)) with 56 in H1 by lia. fold (zero_from b from 56) in H1.
    assert (zlen (zero_from b from 56) = 64) as Hz' by (unfold zero_from; rewrite zlen_splice; rewrite ?zlen_zrep; lia).
    pose proof (splice_extends (zero_from b from 56) len8 56 ltac:(lia) ltac:(lia)) as H2. rewrite Hl8 in H2.
    change (Z.to_nat (56 + 8)) with 64%nat in H2. rewrite take_ge in H2 by (pose proof (zlen_splice (zero_from b from 56) len8 56); unfold zlen in *; lia).
    rewrite H2, H1. by rewrite <- app_assoc. }
  assert (zlen full = 64 * Z.of_nat k) as Hfz by (unfold zlen; lia).
  assert (zlen m = 64 * Z.of_nat k + used) as Hmz by (rewrite Hm, zlen_app; lia).
  unfold sha256. set (z := (55 - zlen m) mod 64).
  assert (z = if 55 <? used then 119 - used else 55 - used) as Hz.
  { unfold z. rewrite Hmz. replace (55 - (64 * Z.of_nat k + used)) with (55 - used + (- Z.of_nat k) * 64) by lia. rewrite Z.mod_add by lia.
    destruct (Z.ltb_spec 55 used); [|apply Z.mod_small; lia]. replace (55 - used) with (119 - used + (-1) * 64) by lia. rewrite Z.mod_add by lia. apply Z.mod_small. lia. }
  assert (pad m = full ++ (rest ++ [0x80] ++ zrep z 0 ++ len8)) as Hpad by (unfold pad; rewrite Hm at 1; by rewrite <- app_assoc).
  destruct (Z.ltb_spec 56 (used + 1)) as [Hbig|Hsmall].
  - rewrite (proj2 (Z.ltb_lt _ _)) in Hz by lia.
    pose proof (splice_extends b0 (zrep (64 - (used + 1)) 0) (used + 1) ltac:(lia)) as H1. rewrite zlen_zrep in H1 by lia. specialize (H1 ltac:(lia)).
    replace (used + 1 + (64 - (used + 1))) with 64 in H1 by lia. fold (zero_from b0 (used + 1) 64) in H1.
    assert (zlen (zero_from b0 (used + 1) 64) = 64) as Hz1 by (unfold zero_from; rewrite zlen_splice; rewrite ?zlen_zrep; lia).
    rewrite take_ge in H1 by (unfold zlen in Hz1; lia). rewrite H80 in H1. rewrite Hlast by (done || lia). simpl (take (Z.to_nat 0) _).
    assert (length (pad m) / 64 = k + 2)%nat as ->.
    { rewrite Hpad, !length_app, Hfull. unfold zrep. rewrite length_replicate. unfold zlen in *. simpl length in *.
      replace (64 * k + _)%nat with ((k + 2) * 64)%nat by lia. by rewrite Nat.div_mul. }
    rewrite Hpad, hash_blocks_app by done. rewrite <- Hh. f_equal. cbn [hash_blocks].
    assert (rest ++ [0x80] ++ zrep z 0 ++ len8 = zero_from b0 (used + 1) 64 ++ (zrep 56 0 ++ len8)) as ->.
    { rewrite H1, Hz. unfold zrep. replace (Z.to_nat (119 - used)) with (Z.to_nat (64 - (used + 1)) + Z.to_nat 56)%nat by lia.
      rewrite replicate_add. by rewrite <- !app_assoc. }
    rewrite take_app_length', drop_app_length' by (unfold zlen in Hz1; lia). done.
  - rewrite (proj2 (Z.ltb_ge _ _)) in Hz by lia. rewrite Hlast by (done || lia). rewrite H80.
    assert (length (pad m) / 64 = k + 1)%nat as ->.
    { rewrite Hpad, !length_app, Hfull. unfold zrep. rewrite length_replicate. unfold zlen in *. simpl length in *.
      replace (64 * k + _)%nat with ((k + 1) * 64)%nat by lia. by rewrite Nat.div_mul. }
    rewrite Hpad, hash_blocks_app by done. rewrite <- Hh. f_equal. cbn [hash_blocks]. rewrite Hz. replace (56 - (used + 1)) with (55 - used) by lia.
    rewrite take_ge; [by rewrite <- app_assoc|].
    rewrite !length_app. unfold zrep. rewrite length_replicate. unfold zlen in *. simpl length in *. lia.
Qed.

(** ** Theorems *)

(** C25: hashing a file in pieces, however it is cut, gives the digest the
    standard defines for the whole: whatever the block buffer held before. *)
Theorem sha256_streaming_equivalent (c : sha256_ctx) (chunks : list (list Z)) :
  zlen (sh_block c) = 64 ->
  sha256_final (foldl sha256_update (sha256_init c) chunks) = sha256 (concat chunks).
Proof.
  intros Hb. apply sha256_final_ok. rewrite <- (app_nil_l (concat chunks)).
  generalize (sha256_init_ok c Hb). generalize (sha256_init c) as x, (@nil Z) as m.
  induction chunks as [|d chunks IH]; intros x m Hx; simpl; [by rewrite app_nil_r|].
  rewrite app_assoc. by apply IH, sha256_update_ok.
Qed.
Lemma sha256_streaming_equivalent_witness :
  let d := [0xba; 0x78; 0x16; 0xbf; 0x8f; 0x01; 0xcf; 0xea; 0x41; 0x41; 0x40; 0xde; 0x5d; 0xae; 0x22; 0x23;
            0xb0; 0x03; 0x61; 0xa3; 0x96; 0x17; 0x7a; 0x9c; 0xb4; 0x10; 0xff; 0x61; 0xf2; 0x00; 0x15; 0xad] in
  sha256_final (foldl sha256_update (sha256_init (Ctx sha256_iv 5 (zrep 64 3) 9)) [str_bytes "a"; str_bytes "bc"]) = d.
Proof. cbv zeta. etransitivity; [apply sha256_streaming_equivalent; reflexivity|]. vm_compute. reflexivity. Defined.
