(* ===== verification/DebVersion.v ===== *)
(** * DebVersion: Debian version ordering ([src/deb_version.c])

    The comparison of two version strings, against the key the Debian policy
    orders versions by: the alternation of non-digit parts, in which [~] sorts
    before the end of the part and letters before other characters, and of
    numbers.  Keys are sequences of integers continued with zeros. *)
From S2P Require Import Prelude Text.
#[local] Open Scope Z_scope.

(** ** The code *)

Definition order_char (c : Z) : Z :=
  if c =? 0 then 0 else if c =? 126 then -1 else if isalnum c then c else c + 256.

(** [*a && !isdigit( *a )], and [*a] at the end of the string. *)
Definition at_nondigit (a : list Z) : bool := match a with c :: _ => negb (isdigit c) | [] => false end.
Definition char_at (a : list Z) : Z := match a with c :: _ => c | [] => 0 end.

(** The loop over the non-digit parts: the result, or where it leaves [a] and [b]. *)
Fixpoint nondigit_loop (fuel : nat) (a b : list Z) : option (Z + (list Z * list Z)) :=
  if at_nondigit a || at_nondigit b then
    match fuel with
    | O => None
    | S fuel =>
        let oa := order_char (char_at a) in
        let ob := order_char (char_at b) in
        if negb (oa =? ob) then Some (inl (if oa <? ob then -1 else 1))
        else nondigit_loop fuel (tail a) (tail b)
    end
  else Some (inr (a, b)).

(** [strncmp] on strings without NUL of the same length. *)
Fixpoint strncmp (a b : list Z) : comparison :=
  match a, b with
  | x :: a, y :: b => match x ?= y with Eq => strncmp a b | c => c end
  | _, _ => Eq
  end.

Fixpoint ver_loop (fuel : nat) (a b : list Z) : option Z :=
  match a, b with
  | [], [] => Some 0
  | _, _ =>
      match fuel with
      | O => None
      | S fuel =>
          match nondigit_loop (length a + length b) a b with
          | None => None
          | Some (inl c) => Some c
          | Some (inr (a, b)) =>
              let a := skip_while (fun c => c =? 48) a in
              let b := skip_while (fun c => c =? 48) b in
              let aa := skip_while isdigit a in
              let bb := skip_while isdigit b in
              let an := zlen a - zlen aa in
              let bn := zlen b - zlen bb in
              if negb (an =? bn) then Some (if an <? bn then -1 else 1) else
              match strncmp (take (Z.to_nat an) a) (take (Z.to_nat bn) b) with
              | Lt => Some (-1)
              | Gt => Some 1
              | Eq => ver_loop fuel aa bb
              end
          end
      end
  end.
(** Every turn of either loop takes a character of [a] or [b]. *)
Definition verrevcmp (a b : list Z) : option Z := ver_loop (length a + length b) a b.

(** [strtoul] on a run of decimal digits. *)
Definition strtoul (s : list Z) : Z := Z.min UINT64_MAX (digits_value 10 (Z.add (-48) <$> take_while isdigit s) 0).

(** The epoch and the rest. *)
Definition parse_epoch (s : list Z) : Z * list Z :=
  match strchr s 58 with
  | None => (0, s)
  | Some (e, c) => if forallb isdigit e then (strtoul s, tail c) else (0, s)
  end.

(** The upstream part in a buffer of 256, and the revision. *)
Definition split_version (r : list Z) : list Z * list Z :=
  match strrchr r 45 with
  | Some (u, d) => (take 255 u, tail d)
  | None => (take 255 r, [48])
  end.

Definition deb_version_compare (a b : list Z) : option Z :=
  let '(ae, ar) := parse_epoch a in
  let '(be, br) := parse_epoch b in
  if negb (ae =? be) then Some (if ae <? be then -1 else 1) else
  let '(au, arev) := split_version ar in
  let '(bu, brev) := split_version br in
  match verrevcmp au bu with
  | Some 0 => verrevcmp arev brev
  | c => c
  end.

Definition deb_version_satisfies (have op want : list Z) : option bool :=
  if bool_decide (op = []) || bool_decide (want = []) then Some true else
  match deb_version_compare have want with
  | None => None
  | Some c =>
      Some (if streq op (str_bytes "=") then c =? 0
            else if streq op (str_bytes ">=") || streq op (str_bytes ">>=") then 0 <=? c
            else if streq op (str_bytes "<=") || streq op (str_bytes "<<=") then c <=? 0
            else if streq op (str_bytes ">>") then 0 <? c
            else if streq op (str_bytes "<<") then c <? 0
            else false)
  end.

(** ** The keys *)

Definition nondigit (c : Z) : bool := negb (isdigit c).
Fixpoint key_loop (fuel : nat) (s : list Z) : list Z :=
  match s, fuel with
  | [], _ | _, O => []
  | _, S fuel =>
      let r := skip_while nondigit s in
      (order_char <$> take_while nondigit s) ++ 0 ::
      digits_value 10 (Z.add (-48) <$> take_while isdigit r) 0 :: key_loop fuel (skip_while isdigit r)
  end.
Definition key (s : list Z) : list Z := key_loop (length s) s.

(** Lexicographic order of sequences continued with zeros. *)
Fixpoint lex (a : list Z) : list Z -> comparison :=
  fix lex_b (b : list Z) : comparison :=
    match a, b with
    | [], [] => Eq
    | x :: a, [] => match x ?= 0 with Eq => lex a [] | c => c end
    | [], y :: b => match 0 ?= y with Eq => lex_b b | c => c end
    | x :: a, y :: b => match x ?= y with Eq => lex a b | c => c end
    end.

Definition sign (c : comparison) : Z := match c with Lt => -1 | Eq => 0 | Gt => 1 end.

(** ** Lexicographic order *)

Lemma lex_step a b :
  lex a b = match hd 0 a ?= hd 0 b with Eq => lex (tail a) (tail b) | c => c end.
Proof. destruct a, b; reflexivity. Qed.

Lemma lex_cons x a y b : lex (x :: a) (y :: b) = match x ?= y with Eq => lex a b | c => c end.
Proof. done. Qed.
Lemma lex_pad a b : lex (a ++ [0]) b = lex a b.
Proof.
  revert b. induction a as [|x a IH]; intros b; rewrite lex_step, (lex_step _ b); cbn [app hd tail].
  - destruct b as [|y b]; [done|]. cbn [hd tail]. done.
  - by rewrite IH.
Qed.

(** Strong induction on the two sequences. *)
Lemma lex_ind (P : list Z -> list Z -> Prop) :
  P [] [] -> (forall a b, a <> [] \/ b <> [] -> P (tail a) (tail b) -> P a b) -> forall a b, P a b.
Proof.
  intros H0 HS a. induction a as [|x a IH]; intros b.
  - induction b as [|y b IHb]; [done|]. apply HS; [by right|done].
  - apply HS; [by left|]. apply IH.
Qed.

Lemma lex_antisym a b : lex b a = CompOpp (lex a b).
Proof.
  revert a b. apply lex_ind; [done|]. intros a b _ IH. rewrite lex_step, (lex_step a b), (Z.compare_antisym (hd 0 a)), IH.
  by destruct (hd 0 a ?= hd 0 b).
Qed.
Lemma lex_refl a : lex a a = Eq.
Proof. induction a as [|x a IH]; rewrite lex_step; cbn [hd tail]; rewrite Z.compare_refl; done. Qed.
Lemma lex_trans a b c : lex a b <> Gt -> lex b c <> Gt -> lex a c <> Gt.
Proof.
  revert c. apply (lex_ind (fun a b => forall c, lex a b <> Gt -> lex b c <> Gt -> lex a c <> Gt)); [done|].
  clear a b. intros a b _ IH c. rewrite (lex_step a b), (lex_step b c), (lex_step a c).
  destruct (Z.compare_spec (hd 0 a) (hd 0 b)), (Z.compare_spec (hd 0 b) (hd 0 c)), (Z.compare_spec (hd 0 a) (hd 0 c)); try done; try lia.
  apply IH.
Qed.
Lemma lex_same_prefix l a b : lex (l ++ a) (l ++ b) = lex a b.
Proof. induction l as [|x l IH]; [done|]. cbn [app]. by rewrite lex_cons, Z.compare_refl. Qed.

(** ** Non-digit parts *)

Definition char_ok (c : Z) : Prop := 0 < c < 256.

Lemma order_nondigit c : char_ok c -> isdigit c = false -> order_char c = -1 \/ 65 <= order_char c.
Proof.
  unfold char_ok, order_char, isalnum, isalpha, isdigit. intros Hc Hd. btests; lia.
Qed.
Lemma order_digit c : isdigit c = true -> 48 <= order_char c <= 57.
Proof. unfold order_char, isalnum, isalpha, isdigit. intros Hd. btests; lia. Qed.

(** The key of the non-digit part of [s] before the rest [k]. *)
Definition part_key (s k : list Z) : list Z := (order_char <$> take_while nondigit s) ++ 0 :: k.

Lemma part_key_at s k :
  Forall char_ok s ->
  if at_nondigit s then (order_char (char_at s) = -1 \/ 65 <= order_char (char_at s)) /\
     hd 0 (part_key s k) = order_char (char_at s) /\ tail (part_key s k) = part_key (tail s) k /\
     skip_while nondigit s = skip_while nondigit (tail s) /\ s <> []
  else 0 <= order_char (char_at s) <= 57 /\ part_key s k = 0 :: k /\ skip_while nondigit s = s.
Proof.
  intros Hs. destruct s as [|c s]; [done|]. inversion Hs; subst. cbn [at_nondigit char_at]. unfold part_key, nondigit.
  cbn [take_while skip_while tail]. destruct (isdigit c) eqn:E; cbn [negb].
  - pose proof (order_digit c E). split_and!; [lia..|done|done].
  - pose proof (order_nondigit c ltac:(done) E). split_and!; done.
Qed.

Lemma sign_compare x y : sign (x ?= y) = if x =? y then 0 else if x <? y then -1 else 1.
Proof. destruct (Z.compare_spec x y); btests. Qed.

Lemma nondigit_loop_ok fuel a b X Y :
  Forall char_ok a -> Forall char_ok b -> (length a + length b <= fuel)%nat ->
  match nondigit_loop fuel a b with
  | None => False
  | Some (inl r) => r = sign (lex (part_key a X) (part_key b Y)) /\ r <> 0
  | Some (inr (a', b')) => a' = skip_while nondigit a /\ b' = skip_while nondigit b /\
      lex (part_key a X) (part_key b Y) = lex X Y
  end.
Proof.
  revert a b. induction fuel as [|fuel IH]; intros a b Ha Hb Hf; cbn [nondigit_loop];
    pose proof (part_key_at a X Ha) as Pa; pose proof (part_key_at b Y Hb) as Pb;
    destruct (at_nondigit a) eqn:Ea, (at_nondigit b) eqn:Eb; cbn [orb];
    try (destruct Pa as (P1 & P2 & P3), Pb as (Q1 & Q2 & Q3); rewrite P2, Q2, P3, Q3; by split_and!);
    try (destruct a; [done|simpl in Hf; lia]); try (destruct b; [done|simpl in Hf; lia]).
  - destruct Pa as (P1 & P2 & P3 & P4 & P5), Pb as (Q1 & Q2 & Q3 & Q4 & Q5). rewrite lex_step, P2, P3, Q2, Q3.
    destruct (Z.eqb_spec (order_char (char_at a)) (order_char (char_at b))) as [E|E]; cbn [negb].
    + rewrite E, Z.compare_refl. destruct a as [|x a], b as [|y b]; try done. inversion Ha; inversion Hb; subst.
      specialize (IH a b ltac:(done) ltac:(done) ltac:(simpl in Hf; lia)). cbn [tail] in *. rewrite P4, Q4. done.
    + pose proof (sign_compare (order_char (char_at a)) (order_char (char_at b))) as S. rewrite (proj2 (Z.eqb_neq _ _)) in S by done.
      destruct (Z.compare_spec (order_char (char_at a)) (order_char (char_at b))); try lia; rewrite <- S; done.
  - destruct Pa as (P1 & P2 & P3 & P4 & P5), Pb as (Q1 & Q2 & Q3). rewrite lex_step, P2, Q2. cbn [hd tail].
    rewrite (proj2 (Z.eqb_neq _ _)) by lia. cbn [negb].
    destruct (Z.compare_spec (order_char (char_at a)) 0), (Z.ltb_spec (order_char (char_at a)) (order_char (char_at b))); try lia; done.
  - destruct Pa as (P1 & P2 & P3), Pb as (Q1 & Q2 & Q3 & Q4 & Q5). rewrite lex_step, P2, Q2. cbn [hd tail].
    rewrite (proj2 (Z.eqb_neq _ _)) by lia. cbn [negb].
    destruct (Z.compare_spec 0 (order_char (char_at b))), (Z.ltb_spec (order_char (char_at a)) (order_char (char_at b))); try lia; done.
Qed.

(** ** Numbers *)

Definition digval (l : list Z) : Z := digits_value 10 (Z.add (-48) <$> l) 0.
Definition is_digits (l : list Z) : Prop := Forall (fun c => isdigit c = true) l.

Lemma digits_value_shift ds v : digits_value 10 ds v = v * 10 ^ zlen ds + digits_value 10 ds 0.
Proof.
  revert v. induction ds as [|d ds IH]; intros v; [unfold digits_value; simpl; rewrite zlen_nil; lia|].
  unfold digits_value in *. cbn [foldl]. rewrite IH, (IH (0 * 10 + d)), zlen_cons, Z.pow_add_r by (pose proof (zlen_nonneg ds); lia). lia.
Qed.
Lemma digval_cons c l : digval (c :: l) = (c - 48) * 10 ^ zlen l + digval l.
Proof.
  unfold digval. rewrite fmap_cons. unfold digits_value at 1. cbn [foldl]. fold (digits_value 10 (Z.add (-48) <$> l) (0 * 10 + (-48 + c))).
  rewrite digits_value_shift, zlen_fmap. lia.
Qed.
Lemma digval_range l : is_digits l -> 0 <= digval l < 10 ^ zlen l.
Proof.
  induction 1 as [|c l Hc Hl IH]; [split; vm_compute; congruence|]. rewrite digval_cons, zlen_cons.
  pose proof (zlen_nonneg l). rewrite Z.pow_add_r by lia. unfold isdigit in Hc. nia.
Qed.
Lemma digval_low c l : is_digits (c :: l) -> c <> 48 -> 10 ^ zlen l <= digval (c :: l).
Proof.
  intros H Hc. inversion H; subst. rewrite digval_cons. pose proof (digval_range l ltac:(done)).
  match goal with H : isdigit c = true |- _ => unfold isdigit in H end. nia.
Qed.

Lemma strncmp_digval a b : is_digits a -> is_digits b -> length a = length b -> strncmp a b = (digval a ?= digval b).
Proof.
  intros Ha. revert b. induction Ha as [|x a Hx Ha IH]; intros b Hb Hl; destruct Hb as [|y b Hy Hb]; try done.
  cbn [strncmp]. rewrite !digval_cons. simpl in Hl. assert (zlen a = zlen b) as Hz by (unfold zlen; lia).
  pose proof (digval_range a Ha). pose proof (digval_range b Hb). rewrite Hz in *.
  destruct (Z.compare_spec x y) as [->|Hlt|Hgt].
  - rewrite IH by (done || lia). destruct (Z.compare_spec (digval a) (digval b)); symmetry;
      [apply Z.compare_eq_iff|apply Z.compare_lt_iff|apply Z.compare_gt_iff]; lia.
  - symmetry. apply Z.compare_lt_iff. nia.
  - symmetry. apply Z.compare_gt_iff. nia.
Qed.

(** The digits left after the leading zeros. *)
Lemma strip_zeros s :
  let s0 := skip_while (fun c => c =? 48) s in let n := take_while isdigit s0 in
  skip_while isdigit s0 = skip_while isdigit s /\ digval n = digval (take_while isdigit s) /\ is_digits n /\
  (n <> [] -> exists c l, n = c :: l /\ c <> 48) /\ zlen s0 - zlen (skip_while isdigit s0) = zlen n /\ take (length n) s0 = n.
Proof.
  cbv zeta. set (s0 := skip_while _ s).
  assert (skip_while isdigit s0 = skip_while isdigit s /\ digval (take_while isdigit s0) = digval (take_while isdigit s)) as [H1 H2].
  { subst s0. induction s as [|c s IH]; [done|]. cbn [skip_while take_while]. destruct (Z.eqb_spec c 48) as [->|]; [|done].
    destruct IH as [I1 I2]. change (isdigit 48) with true. cbv iota. rewrite I1, I2, digval_cons. split; [done|lia]. }
  split_and!; [done|done|apply take_while_all| | |].
  - intros Hn. assert (forall c l, s0 = c :: l -> c <> 48) as Hh.
    { subst s0. clear. induction s as [|c s IH]; [done|]. cbn [skip_while]. destruct (Z.eqb_spec c 48); [done|]. by intros ? ? [= <- <-]. }
    destruct s0 as [|c l]; [done|]. cbn [take_while] in *. destruct (isdigit c); [|done]. exists c, (take_while isdigit l). split; [done|]. by eapply Hh.
  - pose proof (f_equal zlen (take_skip_while isdigit s0)) as E. rewrite zlen_app in E. lia.
  - rewrite <- (take_skip_while isdigit s0) at 2. by rewrite take_app_length.
Qed.

(** What the length and digit comparison of the code decides. *)
Lemma number_cmp n m :
  is_digits n -> is_digits m -> (n <> [] -> exists c l, n = c :: l /\ c <> 48) -> (m <> [] -> exists c l, m = c :: l /\ c <> 48) ->
  (digval n ?= digval m) = if negb (zlen n =? zlen m) then (if zlen n <? zlen m then Lt else Gt) else strncmp n m.
Proof.
  intros Hn Hm Zn Zm. pose proof (digval_range n Hn). pose proof (digval_range m Hm).
  destruct (Z.eqb_spec (zlen n) (zlen m)) as [E|E]; cbn [negb]; [symmetry; apply strncmp_digval; [done|done|unfold zlen in E; lia]|].
  destruct (Z.ltb_spec (zlen n) (zlen m)).
  - apply Z.compare_lt_iff. destruct m as [|y m]; [rewrite zlen_nil in *; pose proof (zlen_nonneg n); lia|].
    destruct (Zm ltac:(done)) as (c & l & [= <- <-] & Hc). pose proof (digval_low y m Hm Hc). rewrite zlen_cons in *.
    pose proof (Z.pow_le_mono_r 10 (zlen n) (zlen m)). lia.
  - apply Z.compare_gt_iff. destruct n as [|y n]; [rewrite zlen_nil in *; pose proof (zlen_nonneg m); lia|].
    destruct (Zn ltac:(done)) as (c & l & [= <- <-] & Hc). pose proof (digval_low y n Hn Hc). rewrite zlen_cons in *.
    pose proof (Z.pow_le_mono_r 10 (zlen m) (zlen n)). lia.
Qed.

(** ** The comparison *)

Lemma key_loop_fuel f g s : (length s <= f)%nat -> (length s <= g)%nat -> key_loop f s = key_loop g s.
Proof.
  revert g s. induction f as [|f IH]; intros g s Hf Hg; (destruct s as [|c s]; [by destruct g|]); [simpl in Hf; lia|].
  destruct g as [|g]; [simpl in Hg; lia|]. cbn [key_loop]. f_equal. f_equal. f_equal.
  set (r := skip_while nondigit (c :: s)). assert (length (skip_while isdigit r) <= length s)%nat.
  { pose proof (length_skip_while isdigit r). unfold r in *. cbn [skip_while] in *. pose proof (length_skip_while nondigit s).
    unfold nondigit in *. destruct (isdigit c) eqn:E; cbn [negb] in *; [|lia]. cbn [skip_while]. rewrite E. pose proof (length_skip_while isdigit s). lia. }
  simpl in Hf, Hg. apply IH; lia.
Qed.

Definition rest_of (s : list Z) : list Z := skip_while isdigit (skip_while nondigit s).
Definition num_of (s : list Z) : Z := digval (take_while isdigit (skip_while nondigit s)).

Lemma rest_of_shorter s : s <> [] -> (length (rest_of s) < length s)%nat.
Proof.
  destruct s as [|c s]; [done|]. intros _. unfold rest_of. pose proof (length_skip_while isdigit (skip_while nondigit (c :: s))).
  cbn [skip_while] in *. pose proof (length_skip_while nondigit s). unfold nondigit in *.
  destruct (isdigit c) eqn:E; cbn [negb] in *; simpl length; [|lia]. cbn [skip_while]. rewrite E. pose proof (length_skip_while isdigit s). lia.
Qed.
Lemma key_unfold s : s <> [] -> key s = part_key s (num_of s :: key (rest_of s)).
Proof.
  intros Hs. pose proof (rest_of_shorter s Hs). destruct s as [|c s]; [done|]. unfold key at 1. cbn [length key_loop].
  unfold part_key. do 3 f_equal. apply key_loop_fuel; [simpl in *; unfold rest_of in *; lia|done].
Qed.
(** The end of the string counts as an empty part and a zero. *)
Lemma lex_key_unfold a b :
  lex (key a) (key b) = lex (part_key a (num_of a :: key (rest_of a))) (part_key b (num_of b :: key (rest_of b))).
Proof.
  assert (part_key [] (num_of [] :: key (rest_of [])) = ([] ++ [0]) ++ [0]) as E0 by done.
  destruct a as [|x a], b as [|y b]; [done|..].
  - rewrite E0, !lex_pad, (key_unfold (y :: b)) by done. done.
  - rewrite E0, (lex_antisym (([] ++ [0]) ++ [0])), !lex_pad, (key_unfold (x :: a)) by done. by rewrite <- lex_antisym.
  - by rewrite (key_unfold (x :: a)), (key_unfold (y :: b)) by done.
Qed.

Lemma ver_loop_ok fuel a b :
  Forall char_ok a -> Forall char_ok b -> (length a + length b <= fuel)%nat ->
  ver_loop fuel a b = Some (sign (lex (key a) (key b))).
Proof.
  revert a b. induction fuel as [|fuel IH]; intros a b Ha Hb Hf.
  { destruct a, b; simpl in Hf; try lia. done. }
  assert ((a = [] /\ b = []) \/ (a <> [] \/ b <> [])) as [[-> ->]|Hne]; [destruct a, b; auto|done|].
  assert (ver_loop (S fuel) a b = match nondigit_loop (length a + length b) a b with
    | None => None | Some (inl c) => Some c
    | Some (inr (a, b)) =>
      let a := skip_while (fun c => c =? 48) a in let b := skip_while (fun c => c =? 48) b in
      let aa := skip_while isdigit a in let bb := skip_while isdigit b in
      let an := zlen a - zlen aa in let bn := zlen b - zlen bb in
      if negb (an =? bn) then Some (if an <? bn then -1 else 1) else
      match strncmp (take (Z.to_nat an) a) (take (Z.to_nat bn) b) with Lt => Some (-1) | Gt => Some 1 | Eq => ver_loop fuel aa bb end
    end) as -> by (destruct a, b; try done; by destruct Hne).
  pose proof (nondigit_loop_ok (length a + length b) a b (num_of a :: key (rest_of a)) (num_of b :: key (rest_of b)) Ha Hb (le_n _)) as N.
  rewrite <- lex_key_unfold in N. destruct (nondigit_loop _ a b) as [[r|[a' b']]|]; [by destruct N as [-> _]| |done].
  destruct N as (-> & -> & ->). cbv zeta.
  destruct (strip_zeros (skip_while nondigit a)) as (A1 & A2 & A3 & A4 & A5 & A6).
  destruct (strip_zeros (skip_while nondigit b)) as (B1 & B2 & B3 & B4 & B5 & B6).
  rewrite A1, B1 in *. rewrite A5, B5. set (n := take_while isdigit (skip_while _ (skip_while nondigit a))) in *.
  set (m := take_while isdigit (skip_while _ (skip_while nondigit b))) in *.
  pose proof (number_cmp n m A3 B3 A4 B4) as C. rewrite A2, B2 in C. unfold zlen at 5 6. rewrite !Nat2Z.id, A6, B6.
  rewrite lex_cons. fold (num_of a) (num_of b) in C. rewrite C.
  destruct (negb (zlen n =? zlen m)); [by destruct (zlen n <? zlen m)|]. destruct (strncmp n m); [|done|done].
  apply IH; [by do 2 apply skip_while_Forall|by do 2 apply skip_while_Forall|].
  fold (rest_of a) (rest_of b). assert (forall s, length (rest_of s) <= length s)%nat as Hle.
  { intros s. unfold rest_of. pose proof (length_skip_while isdigit (skip_while nondigit s)). pose proof (length_skip_while nondigit s). lia. }
  pose proof (Hle a). pose proof (Hle b). destruct Hne as [Hne|Hne]; pose proof (rest_of_shorter _ Hne); lia.
Qed.

(** What a version is ordered by: its epoch, upstream part and revision. *)
Definition version_key (a : list Z) : Z * (list Z * list Z) :=
  let '(e, r) := parse_epoch a in let '(u, d) := split_version r in (e, (key u, key d)).
Definition version_lex (x y : Z * (list Z * list Z)) : comparison :=
  match x.1 ?= y.1 with
  | Eq => match lex x.2.1 y.2.1 with Eq => lex x.2.2 y.2.2 | c => c end
  | c => c
  end.

Lemma strchr_inv s c a b : strchr s c = Some (a, b) -> s = a ++ b.
Proof.
  revert a b. induction s as [|x s IH]; intros a b; simpl; [done|]. destruct (x =? c); [by intros [= <- <-]|].
  destruct (strchr s c) as [[a' b']|]; [|done]. intros [= <- <-]. simpl. by rewrite <- (IH a' b').
Qed.

Lemma parse_epoch_ok a : Forall char_ok a -> Forall char_ok (parse_epoch a).2.
Proof.
  intros Ha. unfold parse_epoch. destruct (strchr a 58) as [[e c]|] eqn:E; [|done]. destruct (forallb isdigit e); [|done]. cbn [snd].
  apply strchr_inv in E as ->. apply Forall_app in Ha as [_ Hc]. destruct Hc; [done|done].
Qed.
Lemma split_version_ok r : Forall char_ok r -> Forall char_ok (split_version r).1 /\ Forall char_ok (split_version r).2.
Proof.
  intros Hr. unfold split_version. destruct (strrchr r 45) as [[u d]|] eqn:E; cbn [fst snd].
  - apply strrchr_inv in E as (r' & -> & -> & _). apply Forall_app in Hr as [Hu Hd]. inversion Hd; subst. split; [by apply Forall_take|done].
  - split; [by apply Forall_take|]. by repeat constructor.
Qed.

Lemma deb_version_compare_ok a b :
  Forall char_ok a -> Forall char_ok b ->
  deb_version_compare a b = Some (sign (version_lex (version_key a) (version_key b))).
Proof.
  intros Ha Hb. apply parse_epoch_ok in Ha, Hb. unfold deb_version_compare, version_key.
  destruct (parse_epoch a) as [ae ar], (parse_epoch b) as [be br]. cbn [snd] in *.
  apply split_version_ok in Ha as [Hau Har], Hb as [Hbu Hbr].
  destruct (split_version ar) as [au arev], (split_version br) as [bu brev]. cbn [fst snd] in *.
  unfold version_lex. cbn [fst snd]. unfold verrevcmp. rewrite !ver_loop_ok by done.
  destruct (Z.eqb_spec ae be) as [->|E]; cbn [negb].
  - rewrite Z.compare_refl. by destruct (lex (key au) (key bu)).
  - pose proof (sign_compare ae be) as S. rewrite (proj2 (Z.eqb_neq _ _)) in S by done. rewrite <- S.
    destruct (Z.compare_spec ae be); done.
Qed.

Lemma version_lex_antisym x y : version_lex y x = CompOpp (version_lex x y).
Proof.
  unfold version_lex. rewrite (Z.compare_antisym x.1), (lex_antisym x.2.1), (lex_antisym x.2.2).
  destruct (x.1 ?= y.1), (lex x.2.1 y.2.1), (lex x.2.2 y.2.2); done.
Qed.
Lemma lex_eq_trans a b c : lex a b = Eq -> lex b c = lex a c.
Proof.
  intros E. assert (lex b a = Eq) as E' by (rewrite lex_antisym, E; done).
  pose proof (lex_trans a b c) as T1. pose proof (lex_trans b a c) as T2. rewrite E in T1. rewrite E' in T2.
  pose proof (lex_trans c a b) as T3. pose proof (lex_trans c b a) as T4. rewrite E in T3. rewrite E' in T4.
  rewrite (lex_antisym b c), (lex_antisym a c) in T3, T4.
  destruct (lex b c), (lex a c); try done; exfalso; simpl in *; first [by apply T1|by apply T2|by apply T3|by apply T4].
Qed.
Lemma version_lex_trans x y z : version_lex x y <> Gt -> version_lex y z <> Gt -> version_lex x z <> Gt.
Proof.
  unfold version_lex. destruct (Z.compare_spec x.1 y.1), (Z.compare_spec y.1 z.1), (Z.compare_spec x.1 z.1); try lia; try done.
  pose proof (lex_trans x.2.1 y.2.1 z.2.1) as T. pose proof (lex_trans x.2.2 y.2.2 z.2.2) as T2.
  pose proof (lex_eq_trans x.2.1 y.2.1 z.2.1) as E1.
  assert (lex y.2.1 z.2.1 = Eq -> lex x.2.1 y.2.1 = lex x.2.1 z.2.1) as E2.
  { intros E. rewrite (lex_antisym y.2.1 x.2.1), (lex_antisym z.2.1 x.2.1). f_equal. rewrite <- (lex_eq_trans z.2.1 y.2.1 x.2.1); [done|].
    by rewrite lex_antisym, E. }
  pose proof (lex_eq_trans x.2.1 z.2.1 y.2.1) as E3. rewrite (lex_antisym y.2.1 z.2.1) in E3.
  destruct (lex x.2.1 y.2.1), (lex y.2.1 z.2.1), (lex x.2.1 z.2.1); try done; try (by specialize (E3 eq_refl)); try (by specialize (E1 eq_refl)); try (by specialize (E2 eq_refl)); by apply T.
Qed.

(** ** Theorems *)

(** C26: versions are compared by the Debian order: the code computes the sign
    of the comparison of epoch, upstream part and revision, each part the
    alternation of its non-digit keys and its numbers; it ends on every pair. *)
Theorem deb_version_compare_key (a b : list Z) :
  Forall char_ok a -> Forall char_ok b ->
  deb_version_compare a b = Some (sign (version_lex (version_key a) (version_key b))).
Proof. apply deb_version_compare_ok. Qed.
Lemma deb_version_compare_key_witness :
  sign (version_lex (version_key (str_bytes "1:1.0~rc1-1")) (version_key (str_bytes "1:1.00-1"))) = -1.
Proof.
  pose proof (deb_version_compare_key (str_bytes "1:1.0~rc1-1") (str_bytes "1:1.00-1")
    ltac:(repeat constructor; vm_compute; congruence) ltac:(repeat constructor; vm_compute; congruence)) as H.
  etransitivity; [exact (f_equal (default 0) (eq_sym H))|vm_compute; reflexivity].
Defined.

(** The comparison orders versions: every version equals itself, the
    comparison of two versions turned round has the opposite sign, and it is
    transitive, so that a package list can be sorted by it. *)
Theorem deb_version_order (a b c : list Z) :
  Forall char_ok a -> Forall char_ok b -> Forall char_ok c ->
  deb_version_compare a a = Some 0 /\
  (exists x, deb_version_compare a b = Some x /\ deb_version_compare b a = Some (- x)) /\
  (forall x y, deb_version_compare a b = Some x -> deb_version_compare b c = Some y -> x <= 0 -> y <= 0 ->
     exists z, deb_version_compare a c = Some z /\ z <= 0).
Proof.
  intros Ha Hb Hc. rewrite !deb_version_compare_ok by done. split; [|split].
  - unfold version_lex. by rewrite Z.compare_refl, !lex_refl.
  - eexists. split; [done|]. rewrite version_lex_antisym. by destruct (version_lex _ _).
  - intros x y [= <-] [= <-] Hx Hy. eexists. split; [done|].
    pose proof (version_lex_trans (version_key a) (version_key b) (version_key c)) as T.
    destruct (version_lex (version_key a) (version_key b)), (version_lex (version_key b) (version_key c)), (version_lex (version_key a) (version_key c));
      simpl in *; try lia; exfalso; by apply T.
Qed.
Lemma deb_version_order_witness :
  exists z, deb_version_compare (str_bytes "1.0~a") (str_bytes "1.0.1") = Some z /\ z <= 0.
Proof.
  destruct (deb_version_order (str_bytes "1.0~a") (str_bytes "1.0") (str_bytes "1.0.1")) as (_ & _ & H); [repeat constructor; vm_compute; congruence..|].
  apply (H (-1) (-1)); [reflexivity|reflexivity|lia|lia].
Defined.

(** The relations a dependency may use agree with the comparison and with
    each other: [>=] is the opposite of [<<], [<=] of [>>], [=] is both, an
    empty relation accepts every version and an unknown one none. *)
Theorem deb_version_satisfies_relations (have want : list Z) :
  Forall char_ok have -> Forall char_ok want -> want <> [] ->
  exists ge le gt lt eq,
    deb_version_satisfies have (str_bytes ">=") want = Some ge /\ deb_version_satisfies have (str_bytes "<=") want = Some le /\
    deb_version_satisfies have (str_bytes ">>") want = Some gt /\ deb_version_satisfies have (str_bytes "<<") want = Some lt /\
    deb_version_satisfies have (str_bytes "=") want = Some eq /\
    ge = negb lt /\ le = negb gt /\ eq = ge && le /\ gt && lt = false /\
    deb_version_satisfies have [] want = Some true /\ deb_version_satisfies have (str_bytes "<") want = Some false.
Proof.
  intros Hh Hw Hn. unfold deb_version_satisfies. rewrite (bool_decide_eq_false_2 (want = [])) by done. rewrite deb_version_compare_ok by done.
  cbn [orb]. destruct (version_lex _ _); do 5 eexists; repeat (split; [reflexivity|]); reflexivity.
Qed.
Lemma deb_version_satisfies_relations_witness :
  exists ge le gt lt eq,
    deb_version_satisfies (str_bytes "2.0") (str_bytes ">=") (str_bytes "1.9") = Some ge /\
    deb_version_satisfies (str_bytes "2.0") (str_bytes "<=") (str_bytes "1.9") = Some le /\
    deb_version_satisfies (str_bytes "2.0") (str_bytes ">>") (str_bytes "1.9") = Some gt /\
    deb_version_satisfies (str_bytes "2.0") (str_bytes "<<") (str_bytes "1.9") = Some lt /\
    deb_version_satisfies (str_bytes "2.0") (str_bytes "=") (str_bytes "1.9") = Some eq /\
    ge = negb lt /\ le = negb gt /\ eq = ge && le /\ gt && lt = false /\
    deb_version_satisfies (str_bytes "2.0") [] (str_bytes "1.9") = Some true /\
    deb_version_satisfies (str_bytes "2.0") (str_bytes "<") (str_bytes "1.9") = Some false.
Proof.
  apply (deb_version_satisfies_relations (str_bytes "2.0") (str_bytes "1.9")); [repeat constructor; vm_compute; congruence..|discriminate].
Defined.
