(* ===== verification/DebControl.v ===== *)
(** * DebControl: Debian control stanzas ([src/deb_control.c])

    The parser of the control file of a package: fields with a value and
    continuation lines.  A fixed-size buffer is read as the C string in it. *)
From S2P Require Import Prelude Text.
#[local] Open Scope Z_scope.

(** The members of [deb_control_t]. *)
Inductive ctl_field : Type :=
| F_package | F_version | F_architecture | F_essential | F_priority | F_section | F_maintainer
| F_installed_size | F_pre_depends | F_depends | F_recommends | F_suggests | F_description.
#[export] Instance ctl_field_eq_dec : EqDecision ctl_field.
Proof. solve_decision. Defined.

Definition deb_control : Type := ctl_field -> list Z.
Definition control_empty : deb_control := fun _ => [].
Definition set_field (c : deb_control) (f : ctl_field) (v : list Z) : deb_control :=
  fun g => if decide (g = f) then v else c g.

(** [sizeof(c->m)] *)
Definition cap_of (f : ctl_field) : Z :=
  match f with
  | F_package | F_version | F_section => 128
  | F_architecture | F_priority | F_installed_size => 64
  | F_essential => 32
  | F_maintainer => 256
  | F_pre_depends | F_recommends | F_suggests => 2048
  | F_depends | F_description => 4096
  end.

(** The macro [F] over the names, in order. *)
Definition field_names : list (list Z * ctl_field) :=
  [(str_bytes "Package", F_package); (str_bytes "Version", F_version); (str_bytes "Architecture", F_architecture);
   (str_bytes "Essential", F_essential); (str_bytes "Priority", F_priority); (str_bytes "Section", F_section);
   (str_bytes "Maintainer", F_maintainer); (str_bytes "Installed-Size", F_installed_size);
   (str_bytes "Pre-Depends", F_pre_depends); (str_bytes "Depends", F_depends); (str_bytes "Recommends", F_recommends);
   (str_bytes "Suggests", F_suggests); (str_bytes "Description", F_description)].
Definition field (name : list Z) : option ctl_field :=
  snd <$> find (fun kf => bool_decide (name = kf.1)) field_names.

Definition isblank (c : Z) : bool := (c =? 32) || (c =? 9).
Definition iscrlf (c : Z) : bool := (c =? 13) || (c =? 10).

(** What [copy_value] leaves in a buffer of [cap] bytes. *)
Definition copy_value (cap : Z) (p : list Z) : list Z :=
  let p := rskip_while (fun c => iscrlf c || isblank c) (skip_while isblank p) in
  cstr (take (Z.to_nat (cap - 1)) p).

Definition append_continuation (dst : list Z) (cap : Z) (p : list Z) : list Z :=
  let p := rskip_while iscrlf (skip_while isblank p) in
  let used := zlen dst in
  let dst := if negb (used =? 0) && (used + 1 <? cap) then dst ++ [10] else dst in
  dst ++ cstr (take (Z.to_nat (cap - zlen dst - 1)) p).

(** One line, without its newline: the field that is current afterwards. *)
Definition control_line (line : list Z) (current : option ctl_field) (out : deb_control) : option ctl_field * deb_control :=
  let line := if bool_decide (last line = Some 13) then removelast line else line in
  match line with
  | [] => (None, out)
  | c :: _ =>
      if isblank c then
        (current, match current with
                  | Some f => set_field out f (append_continuation (out f) (cap_of f) line)
                  | None => out
                  end)
      else
        let name := take_while (fun c => negb (c =? 58)) line in
        match skip_while (fun c => negb (c =? 58)) line with
        | [] => (None, out)
        | _ :: value =>
            match field name with
            | Some f => (Some f, set_field out f (copy_value (cap_of f) value))
            | None => (None, out)
            end
        end
  end.

Fixpoint control_loop (fuel : nat) (text : list Z) (current : option ctl_field) (out : deb_control) : deb_control :=
  match text, fuel with
  | [], _ | _, O => out
  | _, S fuel =>
      let line := take_while (fun c => negb (c =? 10)) text in
      let rest := tail (skip_while (fun c => negb (c =? 10)) text) in
      let '(current, out) := control_line line current out in
      control_loop fuel rest current out
  end.

(** Every line takes at least a character; [false] is the return value -2. *)
Definition deb_control_parse (text : list Z) : bool * deb_control :=
  let out := control_loop (length text) text None control_empty in
  (negb (bool_decide (out F_package = [])) && negb (bool_decide (out F_version = [])), out).

(** ** Stanzas *)

(** A field with the text of its first line and its continuation lines. *)
Record entry : Type := Entry { en_field : ctl_field; en_value : list Z; en_lines : list (list Z) }.
Definition name_of (f : ctl_field) : list Z :=
  match find (fun kf => bool_decide (f = kf.2)) field_names with Some (k, _) => k | None => [] end.
Definition print_entry (e : entry) : list Z :=
  name_of (en_field e) ++ str_bytes ": " ++ en_value e ++ [10] ++ (en_lines e ≫= fun l => 32 :: l ++ [10]).
Definition print_control (es : list entry) : list Z := es ≫= print_entry.
(** What the entry says: the first line and the others, one per line. *)
Definition entry_text (e : entry) : list Z := en_value e ++ (en_lines e ≫= fun l => 10 :: l).

Definition visible (c : Z) : Prop := 32 < c < 127.
(** Text of one line that does not begin or end in a blank. *)
Definition line_ok (l : list Z) : Prop :=
  Forall (fun c => 32 <= c < 127) l /\ match l with c :: _ => visible c | [] => False end /\
  match last l with Some c => visible c | None => False end.
Record entry_ok (e : entry) : Prop := EntryOk {
  eo_value : line_ok (en_value e);
  eo_lines : Forall line_ok (en_lines e);
  eo_fits : zlen (entry_text e) < cap_of (en_field e);
}.

(** ** Lemmas *)

Lemma cstr_nonzero l : Forall (fun c => c <> 0) l -> cstr l = l.
Proof. induction 1 as [|c l Hc _ IH]; simpl; [done|]. by rewrite (proj2 (Z.eqb_neq _ _)), IH. Qed.
Lemma length_cstr l : (length (cstr l) <= length l)%nat.
Proof. induction l as [|c l IH]; simpl; [done|]. destruct (c =? 0); simpl; lia. Qed.

Lemma line_ok_nonzero l : line_ok l -> Forall (fun c => c <> 0) l.
Proof. intros [H _]. eapply Forall_impl; [exact H|]. simpl. lia. Qed.
Lemma line_ok_nonl l : line_ok l -> Forall (fun c => negb (c =? 10) = true) l.
Proof. intros [H _]. eapply Forall_impl; [exact H|]. simpl. intros c Hc. rewrite (proj2 (Z.eqb_neq _ _)) by lia. done. Qed.

Lemma skip_blank_id l : line_ok l -> skip_while isblank l = l.
Proof.
  intros (_ & H & _). destruct l as [|c l]; [done|]. simpl. unfold visible, isblank in *. by rewrite !(proj2 (Z.eqb_neq _ _)) by lia.
Qed.
Lemma rskip_id f l : line_ok l -> (forall c, visible c -> f c = false) -> rskip_while f l = l.
Proof.
  intros (_ & _ & H) Hf. unfold rskip_while. destruct l as [|x l _] using rev_ind; [done|].
  rewrite last_snoc in H. rewrite reverse_snoc. simpl. rewrite Hf by done. by rewrite reverse_cons, reverse_involutive.
Qed.

Lemma copy_value_ok cap v : line_ok v -> zlen v < cap -> copy_value cap (32 :: v) = v.
Proof.
  intros Hv Hl. unfold copy_value. cbn [skip_while]. change (isblank 32) with true. cbv iota. rewrite skip_blank_id by done.
  rewrite rskip_id by (done || (intros c; unfold visible, iscrlf, isblank; intros; btests)).
  rewrite take_ge by (unfold zlen in *; lia). by apply cstr_nonzero, line_ok_nonzero.
Qed.
Lemma append_continuation_ok dst cap l :
  dst <> [] -> line_ok l -> zlen dst + 1 + zlen l < cap -> append_continuation dst cap (32 :: l) = dst ++ 10 :: l.
Proof.
  intros Hd Hl Hc. unfold append_continuation. cbn [skip_while]. change (isblank 32) with true. cbv iota. rewrite skip_blank_id by done.
  rewrite rskip_id by (done || (intros c; unfold visible, iscrlf; intros; btests)).
  pose proof (zlen_nonneg l). rewrite (proj2 (Z.eqb_neq _ _)) by (destruct dst as [|x d]; [done|]; rewrite zlen_cons; pose proof (zlen_nonneg d); lia).
  rewrite (proj2 (Z.ltb_lt _ _)) by lia. cbn [negb andb]. rewrite zlen_app, zlen_cons, zlen_nil.
  rewrite take_ge by (unfold zlen in *; lia). rewrite cstr_nonzero by by apply line_ok_nonzero. by rewrite <- app_assoc.
Qed.

Lemma control_loop_fuel f g text cur out : (length text <= f)%nat -> (length text <= g)%nat -> control_loop f text cur out = control_loop g text cur out.
Proof.
  revert g text cur out. induction f as [|f IH]; intros g text cur out Hf Hg; (destruct text as [|c text]; [by destruct g|]); [simpl in Hf; lia|].
  destruct g as [|g]; [simpl in Hg; lia|]. cbn [control_loop]. set (rest := tail _).
  assert (length rest <= length text)%nat.
  { unfold rest. cbn [skip_while]. pose proof (length_skip_while (fun c => negb (c =? 10)) text). destruct (negb _); [|done].
    destruct (skip_while _ text); simpl in *; lia. }
  simpl in Hf, Hg. destruct (control_line _ cur out). apply IH; lia.
Qed.

(** One line of the text. *)
Lemma control_loop_line line text cur out :
  Forall (fun c => negb (c =? 10) = true) line ->
  control_loop (length (line ++ 10 :: text)) (line ++ 10 :: text) cur out =
    (let '(cur, out) := control_line line cur out in control_loop (length text) text cur out).
Proof.
  intros Hl. assert (exists n, length (line ++ 10 :: text) = S n /\ (length text <= n)%nat) as (n & En & Hn).
  { rewrite length_app. simpl. exists (length line + length text)%nat. lia. }
  rewrite En. destruct (line ++ 10 :: text) as [|x t] eqn:E; [done|]. cbn [control_loop]. rewrite <- E.
  rewrite take_while_app, skip_while_app by done. cbn [tail]. destruct (control_line line cur out). by apply control_loop_fuel.
Qed.

Lemma field_name_of f : field (name_of f) = Some f /\ Forall (fun c => 32 < c < 127 /\ c <> 58) (name_of f) /\ name_of f <> [].
Proof. destruct f; split_and!; try reflexivity; try discriminate; decide_now. Qed.

Lemma last_line l pre : line_ok l -> (if bool_decide (last (pre ++ l) = Some 13) then removelast (pre ++ l) else pre ++ l) = pre ++ l.
Proof.
  intros (_ & _ & H). destruct l as [|x l _] using rev_ind; [done|]. rewrite last_snoc in H. unfold visible in H.
  rewrite app_assoc, last_snoc. rewrite bool_decide_eq_false_2; [done|]. intros [= ->]. lia.
Qed.

Lemma control_line_field f v cur out :
  line_ok v -> zlen v < cap_of f ->
  control_line (name_of f ++ str_bytes ": " ++ v) cur out = (Some f, set_field out f v).
Proof.
  intros Hv Hl. destruct (field_name_of f) as (Hf & Hn & Hne). unfold control_line.
  pose proof (last_line v (name_of f ++ str_bytes ": ") Hv) as E. rewrite <- app_assoc in E. rewrite E.
  assert (Forall (fun c => negb (c =? 58) = true) (name_of f)) as Hcol.
  { eapply Forall_impl; [exact Hn|]. simpl. intros c [_ Hc]. by rewrite (proj2 (Z.eqb_neq _ _)). }
  rewrite take_while_app, skip_while_app by (done || reflexivity). rewrite Hf.
  change (str_bytes ": " ++ v) with (58 :: 32 :: v). cbv iota. rewrite copy_value_ok by done.
  destruct (name_of f) as [|c n]; [done|]. cbn [app]. inversion Hn; subst. unfold isblank.
  by rewrite !(proj2 (Z.eqb_neq _ _)) by lia.
Qed.

Lemma control_line_cont f l out :
  line_ok l -> out f <> [] -> zlen (out f) + 1 + zlen l < cap_of f ->
  control_line (32 :: l) (Some f) out = (Some f, set_field out f (out f ++ 10 :: l)).
Proof.
  intros Hl Hne Hc. unfold control_line. pose proof (last_line l [32] Hl) as E. cbn [app] in E. rewrite E.
  change (isblank 32) with true. cbv iota. by rewrite append_continuation_ok.
Qed.

Lemma set_field_set out f v w : forall g, set_field (set_field out f v) f w g = set_field out f w g.
Proof. intros g. unfold set_field. by destruct (decide (g = f)). Qed.

(** The parser looks at a stanza only through the values of its fields. *)
Lemma control_loop_ext fuel text cur (o p : deb_control) :
  (forall g, o g = p g) -> forall g, control_loop fuel text cur o g = control_loop fuel text cur p g.
Proof.
  revert text cur o p. induction fuel as [|fuel IH]; intros text cur o p H g; (destruct text as [|c text]; [apply H|]); [apply H|].
  cbn [control_loop]. set (line := take_while _ _). set (rest := tail _).
  assert ((control_line line cur o).1 = (control_line line cur p).1 /\ forall h, (control_line line cur o).2 h = (control_line line cur p).2 h) as [E1 E2].
  { unfold control_line. destruct (if bool_decide (last line = Some 13) then removelast line else line) as [|x l]; [by split|].
    destruct (isblank x).
    - cbn [fst snd]. split; [done|]. intros h. destruct cur as [f|]; [|apply H]. unfold set_field. rewrite H. by destruct (decide (h = f)).
    - destruct (skip_while _ (x :: l)) as [|? v]; [by split|]. destruct (field _) as [f|]; [|by split]. cbn [fst snd]. split; [done|].
      intros h. unfold set_field. by destruct (decide (h = f)). }
  destruct (control_line line cur o) as [c1 o1], (control_line line cur p) as [c2 p1]. cbn [fst snd] in *. subst c2. by apply IH.
Qed.

Lemma control_lines_ok f ls text out :
  Forall line_ok ls -> out f <> [] -> zlen (out f ++ (ls ≫= fun l => 10 :: l)) < cap_of f ->
  forall g, control_loop (length ((ls ≫= fun l => 32 :: l ++ [10]) ++ text)) ((ls ≫= fun l => 32 :: l ++ [10]) ++ text) (Some f) out g =
    control_loop (length text) text (Some f) (set_field out f (out f ++ (ls ≫= fun l => 10 :: l))) g.
Proof.
  intros HF. revert out. induction HF as [|l ls Hl HF IH]; intros out Hne Hc g.
  - cbn [mbind list_bind app]. rewrite app_nil_r. apply control_loop_ext. intros h. unfold set_field. by destruct (decide (h = f)) as [->|].
  - rewrite !bind_cons in *. assert (((32 :: l ++ [10]) ++ (ls ≫= fun l => 32 :: l ++ [10])) ++ text = (32 :: l) ++ 10 :: ((ls ≫= fun l => 32 :: l ++ [10]) ++ text)) as ->
      by (simpl; by rewrite <- !app_assoc).
    rewrite control_loop_line by (constructor; [done|by apply line_ok_nonl]).
    rewrite zlen_app, zlen_app, zlen_cons in Hc. pose proof (zlen_nonneg (ls ≫= fun l => 10 :: l)).
    rewrite control_line_cont by (done || lia).
    rewrite IH.
    + apply control_loop_ext. intros h. rewrite set_field_set. unfold set_field. destruct (decide (h = f)) as [->|]; [|done].
      rewrite decide_True by done. by rewrite <- app_assoc.
    + unfold set_field. rewrite decide_True by done. by destruct (out f).
    + unfold set_field. rewrite decide_True by done. rewrite <- app_assoc, zlen_app, zlen_app, zlen_cons. lia.
Qed.

Lemma control_entry_ok e text cur out :
  entry_ok e -> forall g, control_loop (length (print_entry e ++ text)) (print_entry e ++ text) cur out g =
    control_loop (length text) text (Some (en_field e)) (set_field out (en_field e) (entry_text e)) g.
Proof.
  intros [Hv Hls Hc] g. unfold print_entry, entry_text in *. destruct (field_name_of (en_field e)) as (_ & Hn & _).
  pose proof (zlen_nonneg (en_lines e ≫= fun l => 10 :: l)). rewrite zlen_app in Hc.
  set (tl := (en_lines e ≫= fun l => 32 :: l ++ [10]) ++ text).
  assert ((name_of (en_field e) ++ str_bytes ": " ++ en_value e ++ [10] ++ (en_lines e ≫= fun l => 32 :: l ++ [10])) ++ text =
    (name_of (en_field e) ++ str_bytes ": " ++ en_value e) ++ 10 :: tl) as -> by (unfold tl; by rewrite <- !app_assoc).
  rewrite control_loop_line.
  2: { apply Forall_app. split; [|apply Forall_app; split; [by repeat constructor|by apply line_ok_nonl]].
       eapply Forall_impl; [exact Hn|]. simpl. intros c [Hc' _]. by rewrite (proj2 (Z.eqb_neq _ _)) by lia. }
  rewrite control_line_field by (done || lia). unfold tl. rewrite control_lines_ok; [|done| |].
  - apply control_loop_ext. intros h. rewrite set_field_set. unfold set_field. destruct (decide (h = en_field e)); [|done]. by rewrite decide_True.
  - unfold set_field. rewrite decide_True by done. destruct Hv as (_ & Hv & _). by destruct (en_value e).
  - unfold set_field. rewrite decide_True, zlen_app by done. lia.
Qed.

(** What a list of entries says of each field: the last one counts. *)
Definition read_back (es : list entry) : deb_control := foldl (fun c e => set_field c (en_field e) (entry_text e)) control_empty es.

Lemma control_loop_entries es cur out :
  Forall entry_ok es -> forall g, control_loop (length (print_control es)) (print_control es) cur out g =
    foldl (fun c e => set_field c (en_field e) (entry_text e)) out es g.
Proof.
  intros HF. revert cur out. induction HF as [|e es He HF IH]; intros cur out g; [done|].
  unfold print_control in *. rewrite bind_cons. rewrite control_entry_ok by done. cbn [foldl]. apply IH.
Qed.

(** No field outgrows its buffer, whatever the text. *)
Lemma copy_value_fits cap p : 0 < cap -> zlen (copy_value cap p) < cap.
Proof.
  intros Hc. unfold copy_value. set (q := rskip_while _ _). pose proof (length_cstr (take (Z.to_nat (cap - 1)) q)).
  rewrite length_take in H. unfold zlen. lia.
Qed.
Lemma append_continuation_fits dst cap p : zlen dst < cap -> zlen (append_continuation dst cap p) < cap.
Proof.
  intros Hc. unfold append_continuation. set (q := rskip_while _ _).
  set (d := if negb (zlen dst =? 0) && (zlen dst + 1 <? cap) then dst ++ [10] else dst).
  assert (zlen d < cap) as Hd by (unfold d; destruct (Z.ltb_spec (zlen dst + 1) cap), (zlen dst =? 0); cbn [negb andb]; rewrite ?zlen_app, ?zlen_cons, ?zlen_nil; lia).
  rewrite zlen_app. pose proof (length_cstr (take (Z.to_nat (cap - zlen d - 1)) q)) as H. rewrite length_take in H. unfold zlen at 2. lia.
Qed.
Lemma cap_pos f : 0 < cap_of f. Proof. by destruct f. Qed.

Definition fits (c : deb_control) : Prop := forall f, zlen (c f) < cap_of f.
Lemma control_loop_fits fuel text cur out : fits out -> fits (control_loop fuel text cur out).
Proof.
  revert text cur out. induction fuel as [|fuel IH]; intros text cur out H; (destruct text as [|c text]; [done|]); [done|].
  cbn [control_loop]. set (line := take_while _ _). destruct (control_line line cur out) as [cur' out'] eqn:E. apply IH.
  unfold control_line in E. destruct (if bool_decide (last line = Some 13) then removelast line else line) as [|x l]; [by simplify_eq|].
  destruct (isblank x).
  - injection E as _ <-. destruct cur as [f|]; [|done]. intros g. unfold set_field. destruct (decide (g = f)) as [->|]; [|apply H].
    apply append_continuation_fits, H.
  - destruct (skip_while _ (x :: l)) as [|? v]; [by simplify_eq|]. destruct (field _) as [f|]; [|by simplify_eq]. injection E as _ <-.
    intros g. unfold set_field. destruct (decide (g = f)) as [->|]; [|apply H]. apply copy_value_fits, cap_pos.
Qed.

(** ** Theorems *)

(** C33: a stanza that is printed is read back: the parser returns, for each
    field, the text of its last entry with continuation lines joined by
    newlines, and succeeds exactly when a package and a version were given. *)
Theorem deb_control_roundtrip (es : list entry) :
  Forall entry_ok es ->
  let '(ok, out) := deb_control_parse (print_control es) in
  (forall f, out f = read_back es f) /\
  (ok = true <-> read_back es F_package <> [] /\ read_back es F_version <> []).
Proof.
  intros HF. unfold deb_control_parse. set (out := control_loop _ _ None control_empty).
  assert (forall f, out f = read_back es f) as E by (intros f; by apply control_loop_entries).
  split; [exact E|]. rewrite !E, andb_true_iff, !negb_true_iff, !bool_decide_eq_false. done.
Qed.
Definition ex_control : list entry :=
  [Entry F_package (str_bytes "guppy") []; Entry F_version (str_bytes "1.0-1") [];
   Entry F_description (str_bytes "disk tool") [str_bytes "Reads images."; str_bytes "."]].
Lemma deb_control_roundtrip_witness :
  (deb_control_parse (print_control ex_control)).1 = true /\
  (deb_control_parse (print_control ex_control)).2 F_package = str_bytes "guppy".
Proof.
  pose proof (deb_control_roundtrip ex_control) as H. destruct (deb_control_parse (print_control ex_control)) as [ok out].
  destruct H as [H1 H2]; [repeat constructor; vm_compute; congruence|].
  split; [apply H2; split; discriminate|]. rewrite H1. reflexivity.
Defined.

(** No text overruns a buffer of the result: whatever is parsed, each field
    holds a terminated string shorter than its buffer. *)
Theorem deb_control_bounds (text : list Z) (f : ctl_field) :
  zlen ((deb_control_parse text).2 f) < cap_of f.
Proof. apply control_loop_fits. intros g. apply cap_pos. Qed.
