(* ===== verification/DebDep.v ===== *)
(** * DebDep: Debian relationship fields ([src/deb_dep.c])

    The parser of dependency fields: groups separated by commas, alternatives
    by bars, each a package name with an optional architecture, version
    relation and restrictions. *)
From S2P Require Import Prelude Text.
#[local] Open Scope Z_scope.

Definition DEB_DEP_MAX_GROUPS : Z := 128.
Definition DEB_DEP_MAX_ALTS : Z := 8.

Record dep_alt : Type := DepAlt {
  al_name : list Z; al_arch_qual : list Z; al_op : list Z; al_version : list Z; al_restrictions : list Z;
}.

(** ** The code *)

Definition trim (s : list Z) : list Z := reverse (skip_while isspace (reverse (skip_while isspace s))).
Definition trimcopy (cap : Z) (s : list Z) : list Z := take (Z.to_nat (cap - 1)) (trim s).

Definition namechar (c : Z) : bool := isalnum c || (c =? 43) || (c =? 45) || (c =? 46).
Definition archchar (c : Z) : bool := isalnum c || (c =? 45).
Definition opchar (c : Z) : bool := (c =? 60) || (c =? 62) || (c =? 61).
Definition not_close (c : Z) : bool := negb (c =? 41).

(** [if (p < b && *p == c)] with [p++]: the rest after [c]. *)
Definition after_char (c : Z) (p : list Z) : option (list Z) :=
  match p with x :: p => if x =? c then Some p else None | [] => None end.

(** [:arch] at [p]. *)
Definition parse_arch (p : list Z) : list Z * list Z :=
  match after_char 58 p with
  | Some p => (trimcopy 32 (take_while archchar p), skip_while archchar p)
  | None => ([], p)
  end.
(** [(op version)] at [p]; nothing when it is not closed. *)
Definition parse_relation (p : list Z) : option (list Z * list Z * list Z) :=
  match after_char 40 p with
  | Some p =>
      let p := skip_while isspace p in
      let op := trimcopy 4 (take_while opchar p) in
      let p := skip_while isspace (skip_while opchar p) in
      match skip_while not_close p with
      | [] => None
      | _ :: q => Some (op, trimcopy 128 (take_while not_close p), q)
      end
  | None => Some ([], [], p)
  end.

Definition parse_alt (p : list Z) : Z + dep_alt :=
  let p := skip_while isspace p in
  match take_while namechar p with
  | [] => inl (-1)
  | name =>
      let '(arch, p) := parse_arch (skip_while namechar p) in
      match parse_relation (skip_while isspace p) with
      | None => inl (-2)
      | Some (op, version, p) =>
          let p := skip_while isspace p in
          inr (DepAlt (trimcopy 128 name) arch op version (match p with [] => [] | _ => trimcopy 256 p end))
      end
  end.

(** How deep the scan is in parentheses, brackets and angles. *)
Record depth : Type := Depth { dp_par : Z; dp_br : Z; dp_profile : Z }.
Definition depth0 : depth := Depth 0 0 0.
Definition at_top (d : depth) : bool := (dp_par d =? 0) && (dp_br d =? 0) && (dp_profile d =? 0).
Definition scan_char (d : depth) (c : Z) : depth :=
  let '(Depth par br pr) := d in
  if c =? 40 then Depth (par + 1) br pr
  else if (c =? 41) && negb (par =? 0) then Depth (par - 1) br pr
  else if c =? 91 then Depth par (br + 1) pr
  else if (c =? 93) && negb (br =? 0) then Depth par (br - 1) pr
  else if (c =? 60) && (par =? 0) then Depth par br (pr + 1)
  else if (c =? 62) && negb (pr =? 0) && (par =? 0) then Depth par br (pr - 1)
  else d.

(** One alternative, [a] its text. *)
Definition add_alt (a : list Z) (alts : list dep_alt) : Z + list dep_alt :=
  if DEB_DEP_MAX_ALTS <=? zlen alts then inl (-3) else
  match parse_alt a with inl _ => inl (-4) | inr o => inr (alts ++ [o]) end.

(** The loop over the text [x] of a group, [a] the alternative so far; the end
    of the group counts as a bar. *)
Fixpoint alts_loop (x a : list Z) (d : depth) (alts : list dep_alt) : Z + list dep_alt :=
  match x with
  | [] => if at_top d then add_alt a alts else inr alts
  | z :: x =>
      let d := scan_char d z in
      if (z =? 124) && at_top d then
        match add_alt a alts with inl rc => inl rc | inr alts => alts_loop x [] d alts end
      else alts_loop x (a ++ [z]) d alts
  end.

Definition add_group (g : list Z) (groups : list (list dep_alt)) : Z + list (list dep_alt) :=
  if DEB_DEP_MAX_GROUPS <=? zlen groups then inl (-2) else
  match alts_loop g [] depth0 [] with inl rc => inl rc | inr alts => inr (groups ++ [alts]) end.

(** The loop over the text [p], [g] the group so far; the end counts as a comma. *)
Fixpoint groups_loop (p g : list Z) (d : depth) (groups : list (list dep_alt)) : Z + list (list dep_alt) :=
  match p with
  | [] => if at_top d then add_group g groups else inr groups
  | c :: p =>
      let d := scan_char d c in
      if (c =? 44) && at_top d then
        match add_group g groups with inl rc => inl rc | inr groups => groups_loop p [] d groups end
      else groups_loop p (g ++ [c]) d groups
  end.

(** The groups, or the status of the error. *)
Definition deb_dep_parse (text : list Z) : Z + list (list dep_alt) :=
  match text with [] => inr [] | _ => groups_loop text [] depth0 [] end.

(** ** Relationship fields as text *)

Definition print_alt (o : dep_alt) : list Z :=
  al_name o ++
  match al_arch_qual o with [] => [] | a => 58 :: a end ++
  match al_op o with [] => [] | op => str_bytes " (" ++ op ++ [32] ++ al_version o ++ [41] end ++
  match al_restrictions o with [] => [] | r => 32 :: r end.
(** Separated by [sep]. *)
Fixpoint join (sep : list Z) (l : list (list Z)) : list Z :=
  match l with [] => [] | [x] => x | x :: l => x ++ sep ++ join sep l end.
Definition print_group (g : list dep_alt) : list Z := join (str_bytes " | ") (print_alt <$> g).
Definition print_dep (gs : list (list dep_alt)) : list Z := join (str_bytes ", ") (print_group <$> gs).

(** A character that neither opens, closes nor separates anything. *)
Definition plain (c : Z) : bool := negb (bool_decide (c ∈ [40; 41; 91; 93; 60; 62; 44; 124])).
(** Text of a version: visible characters without parentheses or separators. *)
Definition verchar (c : Z) : bool := (32 <? c) && (c <? 127) && plain c.

Record alt_ok (o : dep_alt) : Prop := AltOk {
  ao_name : Forall (fun c => namechar c = true) (al_name o) /\ al_name o <> [] /\ zlen (al_name o) < 128;
  ao_arch : Forall (fun c => archchar c = true) (al_arch_qual o) /\ zlen (al_arch_qual o) < 32;
  ao_op : Forall (fun c => opchar c = true) (al_op o) /\ zlen (al_op o) < 4;
  ao_version : Forall (fun c => verchar c = true) (al_version o) /\ zlen (al_version o) < 128 /\ (al_op o = [] <-> al_version o = []);
  ao_restrictions : al_restrictions o = [] \/
    exists r, al_restrictions o = 91 :: r ++ [93] /\ Forall (fun c => plain c = true) r /\ zlen (al_restrictions o) < 256;
}.
Definition dep_ok (gs : list (list dep_alt)) : Prop :=
  zlen gs <= DEB_DEP_MAX_GROUPS /\ Forall (fun g => g <> [] /\ zlen g <= DEB_DEP_MAX_ALTS /\ Forall alt_ok g) gs.

(** ** Trimming *)

Definition spaces (s : list Z) : Prop := Forall (fun c => isspace c = true) s.

Lemma skip_spaces sp s : spaces sp -> match s with c :: _ => isspace c = false | [] => True end -> skip_while isspace (sp ++ s) = s.
Proof. intros Hsp Hs. apply skip_while_app; [done|]. by destruct s. Qed.

Lemma trim_ok sp s sp' :
  spaces sp -> spaces sp' -> match s with c :: _ => isspace c = false | [] => True end ->
  match last s with Some c => isspace c = false | None => True end -> trim (sp ++ s ++ sp') = s.
Proof.
  intros Hsp Hsp' Hh Hl. unfold trim. destruct s as [|c s].
  - cbn [app]. rewrite <- (app_nil_r (sp ++ sp')), skip_spaces; [done| |done]. by apply Forall_app.
  - rewrite skip_spaces by done. rewrite reverse_app. rewrite skip_spaces; [by rewrite reverse_involutive|by apply Forall_reverse|].
    rewrite <- (reverse_involutive (c :: s)) in Hl. destruct (reverse (c :: s)) as [|x r]; [done|]. rewrite reverse_cons, last_snoc in Hl. done.
Qed.

Lemma trim_id s : Forall (fun c => isspace c = false) s -> trim s = s.
Proof.
  intros H. pose proof (trim_ok [] s [] ltac:(constructor) ltac:(constructor)) as T. rewrite app_nil_r in T. apply T.
  - by destruct H.
  - destruct (last s) as [c|] eqn:E; [|done]. apply last_Some_elem_of in E. rewrite Forall_forall in H. by apply H.
Qed.
Lemma trimcopy_id cap s : Forall (fun c => isspace c = false) s -> zlen s < cap -> trimcopy cap s = s.
Proof. intros H Hl. unfold trimcopy. rewrite trim_id by done. apply take_ge. unfold zlen in Hl. lia. Qed.

(** The classes of characters. *)
Lemma namechar_facts c : namechar c = true -> isspace c = false /\ plain c = true /\ c <> 58 /\ c <> 40.
Proof. unfold namechar, isalnum, isalpha, isdigit, isspace, plain. intros H. split_and!; [btests; lia| |btests; lia|btests; lia].
  apply negb_true_iff, bool_decide_eq_false. intros Hin. repeat (apply elem_of_cons in Hin as [->|Hin]; [done|]). by apply elem_of_nil in Hin. Qed.
Lemma archchar_facts c : archchar c = true -> isspace c = false /\ plain c = true.
Proof. unfold archchar. intros H. destruct (namechar_facts c) as (? & ? & _); [|done]. unfold namechar. destruct (isalnum c); [done|]. simpl in *. by rewrite H, orb_true_r. Qed.
Lemma opchar_facts c : opchar c = true -> isspace c = false /\ c <> 41 /\ (c = 60 \/ c = 62 \/ c = 61).
Proof. unfold opchar, isspace. intros H. split_and!; btests; lia. Qed.
Lemma plain_facts c : plain c = true -> c <> 40 /\ c <> 41 /\ c <> 91 /\ c <> 93 /\ c <> 60 /\ c <> 62 /\ c <> 44 /\ c <> 124.
Proof.
  unfold plain. intros H. apply negb_true_iff, bool_decide_eq_false in H. split_and!; intros ->; apply H; repeat constructor.
Qed.
Lemma verchar_facts c : verchar c = true -> isspace c = false /\ plain c = true /\ c <> 41.
Proof.
  unfold verchar. intros H. apply andb_true_iff in H as [H Hp]. destruct (plain_facts c Hp) as (_ & ? & _).
  split_and!; [|done|done]. unfold isspace. btests; lia.
Qed.

(** ** One alternative *)

Definition arch_text (o : dep_alt) : list Z := match al_arch_qual o with [] => [] | a => 58 :: a end.
Definition rel_text (o : dep_alt) : list Z :=
  match al_op o with [] => [] | op => str_bytes " (" ++ op ++ [32] ++ al_version o ++ [41] end.
Definition restr_text (o : dep_alt) : list Z := match al_restrictions o with [] => [] | r => 32 :: r end.
Lemma print_alt_parts o : print_alt o = al_name o ++ arch_text o ++ rel_text o ++ restr_text o. Proof. done. Qed.

Lemma Forall_sub (P Q : Z -> Prop) l : (forall c, P c -> Q c) -> Forall P l -> Forall Q l.
Proof. intros H HF. by eapply Forall_impl. Qed.

Lemma parse_arch_ok o rest :
  alt_ok o -> match rest with c :: _ => archchar c = false /\ c <> 58 | [] => True end ->
  parse_arch (arch_text o ++ rest) = (al_arch_qual o, rest).
Proof.
  intros [_ [Ha Hl] _ _ _] Hr. unfold parse_arch, arch_text. destruct (al_arch_qual o) as [|c a].
  - cbn [app]. destruct rest as [|x rest]; [done|]. cbn [after_char]. destruct Hr as [_ Hr]. by rewrite (proj2 (Z.eqb_neq _ _)).
  - cbn [app after_char Z.eqb Pos.eqb]. change (c :: a ++ rest) with ((c :: a) ++ rest).
    rewrite take_while_app, skip_while_app by (done || by destruct rest; [|destruct Hr]).
    rewrite trimcopy_id; [done| |done]. eapply Forall_sub; [|exact Ha]. intros x Hx. by apply archchar_facts.
Qed.

Lemma skip_skip f s : skip_while f (skip_while f s) = skip_while f s.
Proof. induction s as [|c s IH]; simpl; [done|]. destruct (f c) eqn:E; [done|]. simpl. by rewrite E. Qed.

Lemma parse_relation_ok o rest :
  alt_ok o -> match skip_while isspace rest with c :: _ => c <> 40 | [] => True end ->
  exists r, parse_relation (skip_while isspace (rel_text o ++ rest)) = Some (al_op o, al_version o, r) /\
    skip_while isspace r = skip_while isspace rest.
Proof.
  intros [_ _ [Ho Hol] (Hv & Hvl & Hov) _] Hr. unfold rel_text. destruct (al_op o) as [|c op] eqn:Eo.
  - cbn [app]. assert (al_version o = []) as -> by by apply Hov. unfold parse_relation.
    exists (skip_while isspace rest). split; [|apply skip_skip]. destruct (skip_while isspace rest) as [|x l] eqn:E; [done|]. cbn [after_char].
    by rewrite (proj2 (Z.eqb_neq _ _)).
  - rewrite <- Eo in *. clear Eo c op. exists rest. split; [|done].
    assert (Forall (fun c => isspace c = false) (al_op o)) as Hop by (eapply Forall_sub; [|exact Ho]; intros c Hc; by apply opchar_facts).
    assert (Forall (fun c => isspace c = false) (al_version o)) as Hvp by (eapply Forall_sub; [|exact Hv]; intros c Hc; by apply verchar_facts).
    assert (Forall (fun c => not_close c = true) (al_version o)) as Hvc.
    { eapply Forall_sub; [|exact Hv]. intros c Hc. destruct (verchar_facts c Hc) as (_ & _ & ?). unfold not_close. by rewrite (proj2 (Z.eqb_neq _ _)). }
    change (str_bytes " (") with [32; 40]. rewrite <- !app_assoc. cbn [app skip_while]. change (isspace 32) with true. cbv iota.
    change (isspace 40) with false. cbv iota. unfold parse_relation. cbn [after_char Z.eqb Pos.eqb].
    assert (forall l r, Forall (fun c => isspace c = false) l -> l <> [] -> skip_while isspace (l ++ r) = l ++ r) as Hns.
    { intros l r Hl Hne. destruct Hl as [|x l Hx Hl]; [done|]. simpl. by rewrite Hx. }
    destruct (decide (al_op o = [])) as [E|E].
    + (* the field has no operator only when it has no version *)
      assert (al_version o = []) as Ev by by apply Hov. rewrite E, Ev. reflexivity.
    + assert (al_version o <> []) as Ev by (intros Ev; by apply E, Hov).
      rewrite Hns by done. rewrite take_while_app, skip_while_app by done. rewrite trimcopy_id by done.
      cbn [skip_while]. change (isspace 32) with true. cbv iota. rewrite Hns by done.
      rewrite take_while_app, skip_while_app by done. by rewrite trimcopy_id.
Qed.

Lemma parse_alt_print o sp sp' : alt_ok o -> spaces sp -> spaces sp' -> parse_alt (sp ++ print_alt o ++ sp') = inr o.
Proof.
  intros Hok Hsp Hsp'. pose proof Hok as [(Hn & Hne & Hnl) [Ha Hal] _ _ Hr]. unfold parse_alt. rewrite print_alt_parts.
  rewrite skip_spaces; [|done|by destruct Hn as [|c n Hc Hn']; [|apply namechar_facts in Hc as (? & _)]]. rewrite <- !app_assoc.
  set (rest2 := restr_text o ++ sp'). set (rest1 := rel_text o ++ rest2).
  assert (match rest1 with c :: _ => archchar c = false /\ c <> 58 /\ namechar c = false | [] => True end) as H1.
  { unfold rest1, rest2, rel_text, restr_text. destruct (al_op o); [|done]. destruct (al_restrictions o); [|done]. cbn [app].
    destruct Hsp' as [|c sp'' Hc _]; [done|]. unfold isspace, archchar, namechar, isalnum, isalpha, isdigit in *. split_and!; btests; lia. }
  assert (match arch_text o ++ rest1 with c :: _ => namechar c = false | [] => True end) as H0.
  { unfold arch_text. destruct (al_arch_qual o); [|done]. cbn [app]. destruct rest1; [done|]. apply H1. }
  rewrite take_while_app, skip_while_app by done.
  destruct (al_name o) as [|c n] eqn:En; [done|]. rewrite <- En in *. clear En c n.
  rewrite parse_arch_ok; [|done|destruct rest1; [done|by destruct H1 as (? & ? & ?)]].
  assert (skip_while isspace rest2 = match al_restrictions o with [] => [] | r => r ++ sp' end) as H2.
  { unfold rest2, restr_text. destruct Hr as [->|(r & -> & _)]; [|done]. cbn [app]. rewrite <- (app_nil_r sp'). by rewrite skip_spaces. }
  destruct (parse_relation_ok o rest2 Hok) as (r & Ep & Er).
  { rewrite H2. destruct Hr as [->|(r & -> & _)]; done. }
  fold rest1 in Ep. rewrite Ep.   rewrite Er, H2. rewrite trimcopy_id; [|eapply Forall_sub; [|exact Hn]; intros x Hx; by apply namechar_facts|done].
  f_equal. destruct o as [nm ar op ver re]. cbn [al_name al_arch_qual al_op al_version al_restrictions] in *. f_equal.
  destruct Hr as [->|(r' & -> & _ & Hl)]; [done|]. cbn [app]. unfold trimcopy.
  pose proof (trim_ok [] (91 :: r' ++ [93]) sp' ltac:(constructor) Hsp' eq_refl) as T. cbn [app] in T. rewrite T.
  - apply take_ge. unfold zlen in Hl. lia.
  - rewrite app_comm_cons, last_snoc. done.
Qed.

(** ** Depth *)

(** The scan of [s] from [d] meets no [sep] at the top level. *)
Fixpoint quiet (sep : Z) (d : depth) (s : list Z) : bool :=
  match s with
  | [] => true
  | c :: s => negb ((c =? sep) && at_top (scan_char d c)) && quiet sep (scan_char d c) s
  end.

Lemma quiet_app sep d a b : quiet sep d (a ++ b) = quiet sep d a && quiet sep (foldl scan_char d a) b.
Proof. revert d. induction a as [|c a IH]; intros d; simpl; [done|]. by rewrite IH, andb_assoc. Qed.

Lemma groups_loop_quiet s p g d gs :
  quiet 44 d s = true -> groups_loop (s ++ p) g d gs = groups_loop p (g ++ s) (foldl scan_char d s) gs.
Proof.
  revert g d. induction s as [|c s IH]; intros g d Hq; [by rewrite app_nil_r|]. cbn [app groups_loop foldl quiet] in *.
  apply andb_true_iff in Hq as [Hc Hq]. apply negb_true_iff in Hc. rewrite Hc, IH by done. by rewrite <- app_assoc.
Qed.
Lemma alts_loop_quiet s x a d alts :
  quiet 124 d s = true -> alts_loop (s ++ x) a d alts = alts_loop x (a ++ s) (foldl scan_char d s) alts.
Proof.
  revert a d. induction s as [|c s IH]; intros a d Hq; [by rewrite app_nil_r|]. cbn [app alts_loop foldl quiet] in *.
  apply andb_true_iff in Hq as [Hc Hq]. apply negb_true_iff in Hc. rewrite Hc, IH by done. by rewrite <- app_assoc.
Qed.

Lemma scan_plain d c : plain c = true -> scan_char d c = d.
Proof.
  intros H. destruct (plain_facts c H) as (H1%Z.eqb_neq & H2%Z.eqb_neq & H3%Z.eqb_neq & H4%Z.eqb_neq & H5%Z.eqb_neq & H6%Z.eqb_neq & _).
  unfold scan_char. destruct d. by rewrite H1, H2, H3, H4, H5, H6.
Qed.
Lemma plain_run sep d l : Forall (fun c => plain c = true) l -> sep = 44 \/ sep = 124 -> foldl scan_char d l = d /\ quiet sep d l = true.
Proof.
  intros Hl Hs. induction Hl as [|c l Hc Hl [I1 I2]]; [done|]. cbn [foldl quiet]. rewrite scan_plain by done.
  destruct (plain_facts c Hc) as (_&_&_&_&_&_&?&?). rewrite (proj2 (Z.eqb_neq c sep)) by (destruct Hs; congruence). split; [done|]. by rewrite I2.
Qed.

(** Operators inside parentheses do not open angles. *)
Lemma op_run sep br pr l :
  Forall (fun c => opchar c = true) l -> sep = 44 \/ sep = 124 ->
  foldl scan_char (Depth 1 br pr) l = Depth 1 br pr /\ quiet sep (Depth 1 br pr) l = true.
Proof.
  intros Hl Hs. induction Hl as [|c l Hc Hl [I1 I2]]; [done|]. cbn [foldl quiet].
  destruct (opchar_facts c Hc) as (_ & _ & Hor). assert (scan_char (Depth 1 br pr) c = Depth 1 br pr) as ->.
  { destruct Hor as [->|[->| ->]]; cbn; by rewrite ?andb_false_r. }
  assert ((c =? sep) = false) as -> by (destruct Hor as [->|[->| ->]]; destruct Hs as [-> | ->]; done). by split.
Qed.

Definition runs (sep : Z) (s : list Z) : Prop := foldl scan_char depth0 s = depth0 /\ quiet sep depth0 s = true.
Lemma runs_app sep a b : runs sep a -> runs sep b -> runs sep (a ++ b).
Proof. intros [A1 A2] [B1 B2]. split; [by rewrite foldl_app, A1|]. by rewrite quiet_app, A1, A2. Qed.
Lemma runs_plain sep l : Forall (fun c => plain c = true) l -> sep = 44 \/ sep = 124 -> runs sep l.
Proof. intros. by apply plain_run. Qed.

Lemma print_alt_runs sep o : alt_ok o -> sep = 44 \/ sep = 124 -> runs sep (print_alt o).
Proof.
  intros [(Hn & _) [Ha _] [Ho _] (Hv & _) Hr] Hs. rewrite print_alt_parts. repeat apply runs_app.
  - apply runs_plain; [|done]. eapply Forall_sub; [|exact Hn]. intros c Hc. by apply namechar_facts.
  - unfold arch_text. apply runs_plain; [|done]. destruct (al_arch_qual o); [constructor|]. constructor; [done|].
    eapply Forall_sub; [|exact Ha]. intros c Hc. by apply archchar_facts.
  - unfold rel_text. destruct (al_op o) as [|c op]; [done|]. set (l := c :: op) in *.
    assert (Forall (fun c => plain c = true) ([32] ++ al_version o)) as Hp.
    { constructor; [done|]. eapply Forall_sub; [|exact Hv]. intros x Hx. by apply verchar_facts. }
    destruct (op_run sep 0 0 l Ho Hs) as [O1 O2]. destruct (plain_run sep (Depth 1 0 0) ([32] ++ al_version o) Hp Hs) as [P1 P2].
    assert (str_bytes " (" ++ l ++ [32] ++ al_version o ++ [41] = [32; 40] ++ l ++ ([32] ++ al_version o) ++ [41]) as -> by (by rewrite <- !app_assoc).
    assert (foldl scan_char depth0 [32; 40] = Depth 1 0 0) as E1 by done. set (v := [32] ++ al_version o) in *.
    split; [by rewrite !foldl_app, E1, O1, P1|]. rewrite !quiet_app, E1, O1, O2, P1, P2. destruct Hs as [-> | ->]; reflexivity.
  - unfold restr_text. destruct Hr as [->|(r & -> & Hp & _)]; [done|].
    destruct (plain_run sep (Depth 0 1 0) r Hp Hs) as [P1 P2].
    assert (32 :: 91 :: r ++ [93] = [32; 91] ++ r ++ [93]) as -> by done. assert (foldl scan_char depth0 [32; 91] = Depth 0 1 0) as E1 by done.
    split; [by rewrite !foldl_app, E1, P1|]. rewrite !quiet_app, E1, P1, P2. destruct Hs as [-> | ->]; reflexivity.
Qed.

(** ** Groups *)

Lemma alts_loop_ok os o sp alts :
  Forall alt_ok (o :: os) -> spaces sp -> zlen alts + zlen (o :: os) <= DEB_DEP_MAX_ALTS ->
  alts_loop (print_group (o :: os)) sp depth0 alts = inr (alts ++ o :: os).
Proof.
  revert o sp alts. induction os as [|o' os IH]; intros o sp alts HF Hsp Hl; inversion HF as [|? ? Ho HF']; subst;
    rewrite zlen_cons in Hl; unfold DEB_DEP_MAX_ALTS in *.
  - unfold print_group. cbn [fmap list_fmap join]. rewrite <- (app_nil_r (print_alt o)) at 1.
    destruct (print_alt_runs 124 o Ho ltac:(by right)) as [R1 R2]. rewrite alts_loop_quiet by done. rewrite R1. cbn [alts_loop].
    change (at_top depth0) with true. cbv iota. unfold add_alt, DEB_DEP_MAX_ALTS. rewrite (proj2 (Z.leb_gt _ _)) by (rewrite zlen_nil in Hl; lia).
    rewrite <- (app_nil_r (sp ++ print_alt o)), <- app_assoc, parse_alt_print by (done || constructor). done.
  - assert (print_group (o :: o' :: os) = (print_alt o ++ [32]) ++ 124 :: 32 :: print_group (o' :: os)) as ->
      by (unfold print_group; cbn [fmap list_fmap join]; by rewrite <- app_assoc).
    destruct (runs_app 124 (print_alt o) [32] (print_alt_runs 124 o Ho ltac:(by right)) ltac:(done)) as [R1 R2].
    rewrite alts_loop_quiet by done. rewrite R1. cbn [alts_loop]. change ((124 =? 124) && at_top (scan_char depth0 124)) with true. cbv iota.
    pose proof (zlen_nonneg (o' :: os)). unfold add_alt, DEB_DEP_MAX_ALTS. rewrite (proj2 (Z.leb_gt _ _)) by lia.
    rewrite parse_alt_print by (done || by repeat constructor).
    change (scan_char depth0 124) with depth0. change (scan_char depth0 32) with depth0. change ((32 =? 124) && at_top depth0) with false. cbv iota.
    change ([] ++ [32]) with [32]. rewrite IH; [by rewrite <- app_assoc|done|by repeat constructor|].
    rewrite zlen_app, zlen_cons, zlen_nil. lia.
Qed.

Lemma print_group_runs g : Forall alt_ok g -> runs 44 (print_group g).
Proof.
  intros HF. unfold print_group. induction HF as [|o g Ho HF IH]; [done|]. cbn [fmap list_fmap]. pose proof (print_alt_runs 44 o Ho ltac:(by left)) as R.
  destruct g as [|o' g]; [done|]. cbn [fmap list_fmap join] in *. apply runs_app; [done|]. apply runs_app; [done|]. exact IH.
Qed.

(** A space before the first alternative of a group is skipped. *)
Lemma alts_loop_space g : Forall alt_ok g -> g <> [] -> zlen g <= DEB_DEP_MAX_ALTS -> forall sp, spaces sp ->
  alts_loop (sp ++ print_group g) [] depth0 [] = inr g.
Proof.
  intros HF Hne Hl sp Hsp. assert (runs 124 sp) as [R1 R2].
  { apply runs_plain; [|by right]. eapply Forall_sub; [|exact Hsp]. intros c Hc. unfold isspace, plain in *.
    apply negb_true_iff, bool_decide_eq_false. intros Hin. repeat (apply elem_of_cons in Hin as [->|Hin]; [done|]). by apply elem_of_nil in Hin. }
  rewrite alts_loop_quiet by done. rewrite R1. destruct g as [|o g]; [done|]. cbn [app]. apply (alts_loop_ok g o sp []); [done|done|].
  rewrite zlen_nil. lia.
Qed.

Definition group_ok (g : list dep_alt) : Prop := g <> [] /\ zlen g <= DEB_DEP_MAX_ALTS /\ Forall alt_ok g.

Lemma add_group_ok g sp gs :
  group_ok g -> spaces sp -> zlen gs < DEB_DEP_MAX_GROUPS -> add_group (sp ++ print_group g) gs = inr (gs ++ [g]).
Proof.
  intros (Hne & Hl & HF) Hsp Hgs. unfold add_group. rewrite (proj2 (Z.leb_gt _ _)) by done. by rewrite alts_loop_space.
Qed.

(** Whole groups, and what follows them after a comma and a space. *)
Lemma groups_loop_ok gs sp acc rest :
  Forall group_ok gs -> spaces sp -> zlen acc + zlen gs <= DEB_DEP_MAX_GROUPS ->
  groups_loop ((gs ≫= fun g => print_group g ++ str_bytes ", ") ++ rest) sp depth0 acc =
    groups_loop rest (match gs with [] => sp | _ => [32] end) depth0 (acc ++ gs).
Proof.
  intros HF. revert sp acc. induction HF as [|g gs Hg HF IH]; intros sp acc Hsp Hl; [by rewrite app_nil_r|].
  rewrite bind_cons. assert (((print_group g ++ str_bytes ", ") ++ (gs ≫= fun g => print_group g ++ str_bytes ", ")) ++ rest =
    print_group g ++ 44 :: 32 :: (gs ≫= fun g => print_group g ++ str_bytes ", ") ++ rest) as -> by (by rewrite <- !app_assoc).
  destruct Hg as (Hne & Hgl & Hgo). destruct (print_group_runs g Hgo) as [R1 R2]. rewrite groups_loop_quiet by done. rewrite R1.
  cbn [groups_loop]. change ((44 =? 44) && at_top (scan_char depth0 44)) with true. cbv iota. rewrite zlen_cons in Hl. pose proof (zlen_nonneg gs).
  rewrite add_group_ok by (done || lia). change (scan_char depth0 44) with depth0. change (scan_char depth0 32) with depth0.
  change ((32 =? 44) && at_top depth0) with false. cbv iota. change ([] ++ [32]) with [32].
  rewrite IH by (first [by repeat constructor|rewrite zlen_app, zlen_cons, zlen_nil; lia]). rewrite <- app_assoc. by destruct gs.
Qed.

Lemma print_dep_snoc gs g : print_dep (gs ++ [g]) = (gs ≫= fun g => print_group g ++ str_bytes ", ") ++ print_group g.
Proof.
  unfold print_dep. induction gs as [|h gs IH]; [done|]. rewrite bind_cons, <- !app_assoc, <- IH. cbn [app fmap list_fmap].
  destruct gs; done.
Qed.
Lemma print_dep_nonnil gs g : group_ok g -> print_dep (gs ++ [g]) <> [].
Proof.
  intros (Hne & _ & HF). rewrite print_dep_snoc. destruct g as [|o g]; [done|]. inversion HF as [|? ? [(_ & Hn & _) _ _ _ _] _]; subst.
  unfold print_group. cbn [fmap list_fmap]. intros E. apply app_eq_nil in E as [_ E].
  assert (print_alt o <> []) as Hp by (rewrite print_alt_parts; by destruct (al_name o)). destruct (print_alt <$> g) as [|x l]; cbn [join] in E; [done|].
  by apply app_eq_nil in E as [E _].
Qed.

Lemma scan_open d c : 1 <= dp_par d -> c <> 41 -> 1 <= dp_par (scan_char d c).
Proof.
  intros Hd Hc. unfold scan_char. destruct d as [par br pr]. cbn [dp_par] in *. rewrite (proj2 (Z.eqb_neq c 41)) by done. cbn [andb].
  repeat case_match; cbn [dp_par]; lia.
Qed.
Lemma groups_loop_open t g d gs : Forall (fun c => c <> 41) t -> 1 <= dp_par d -> groups_loop t g d gs = inr gs.
Proof.
  intros Ht. revert g d. induction Ht as [|c t Hc Ht IH]; intros g d Hd; cbn [groups_loop].
  - unfold at_top. by rewrite (proj2 (Z.eqb_neq _ _)) by lia.
  - pose proof (scan_open d c Hd Hc) as Hs. assert (at_top (scan_char d c) = false) as -> by (unfold at_top; by rewrite (proj2 (Z.eqb_neq _ _)) by lia).
    rewrite andb_false_r. by apply IH.
Qed.

(** ** Theorems *)

(** C34: a relationship field that is printed is read back, every group,
    alternative, qualifier, relation and restriction of it. *)
Theorem deb_dep_roundtrip (gs : list (list dep_alt)) :
  Forall group_ok gs -> zlen gs <= DEB_DEP_MAX_GROUPS -> deb_dep_parse (print_dep gs) = inr gs.
Proof.
  intros HF Hl. destruct gs as [|g gs _] using rev_ind; [done|]. apply Forall_app in HF as [HF Hg]. inversion Hg as [|? ? Hg' _]; subst.
  rewrite zlen_app, zlen_cons, zlen_nil in Hl. unfold deb_dep_parse. pose proof (print_dep_nonnil gs g Hg') as Hne.
  destruct (print_dep (gs ++ [g])) as [|c t] eqn:E; [done|]. rewrite <- E, print_dep_snoc.
  rewrite (groups_loop_ok gs [] []) by (first [done|constructor|rewrite zlen_nil; lia]).
  destruct Hg' as (Hne' & Hgl & Hgo). destruct (print_group_runs g Hgo) as [R1 R2].
  rewrite <- (app_nil_r (print_group g)), groups_loop_quiet by done. rewrite R1. cbn [groups_loop]. change (at_top depth0) with true. cbv iota.
  rewrite add_group_ok; [done|done|destruct gs; by repeat constructor|]. simpl app. lia.
Qed.
Definition ex_dep : list (list dep_alt) :=
  [[DepAlt (str_bytes "libc6") [] (str_bytes ">=") (str_bytes "2.3") []];
   [DepAlt (str_bytes "foo") (str_bytes "any") [] [] []; DepAlt (str_bytes "bar") [] [] [] (str_bytes "[!amd64 i386]")]].
Lemma ex_dep_ok : Forall group_ok ex_dep.
Proof.
  assert (forall o, al_restrictions o = [] -> bool_decide (
      Forall (fun c => namechar c = true) (al_name o) /\ al_name o <> [] /\ zlen (al_name o) < 128 /\
      Forall (fun c => archchar c = true) (al_arch_qual o) /\ zlen (al_arch_qual o) < 32 /\
      Forall (fun c => opchar c = true) (al_op o) /\ zlen (al_op o) < 4 /\
      Forall (fun c => verchar c = true) (al_version o) /\ zlen (al_version o) < 128) = true ->
      (al_op o = [] <-> al_version o = []) -> alt_ok o) as Hok.
  { intros o Hr Hb Hv. apply bool_decide_eq_true in Hb. destruct Hb as (?&?&?&?&?&?&?&?&?). split; auto. }
  apply Forall_cons_2; [|apply Forall_cons_2; [|apply Forall_nil_2]].
  - split; [discriminate|]. split; [vm_compute; discriminate|]. apply Forall_cons_2; [|apply Forall_nil_2].
    apply Hok; [reflexivity|vm_compute; reflexivity|split; discriminate].
  - split; [discriminate|]. split; [vm_compute; discriminate|]. apply Forall_cons_2; [|apply Forall_cons_2; [|apply Forall_nil_2]].
    + apply Hok; [reflexivity|vm_compute; reflexivity|done].
    + pose proof (Hok (DepAlt (str_bytes "bar") [] [] [] []) eq_refl ltac:(vm_compute; reflexivity) ltac:(done)) as [H1 H2 H3 H4 _].
      split; [exact H1|exact H2|exact H3|exact H4|]. right. exists (str_bytes "!amd64 i386").
      split; [reflexivity|]. split; [decide_now|vm_compute; reflexivity].
Qed.
Lemma deb_dep_roundtrip_witness :
  deb_dep_parse (str_bytes "libc6 (>= 2.3), foo:any | bar [!amd64 i386]") = inr ex_dep.
Proof. apply (deb_dep_roundtrip ex_dep); [apply ex_dep_ok|vm_compute; discriminate]. Defined.

(** A relation whose parenthesis is never closed is not an error: it and
    every group after it are dropped, and the parse succeeds with the groups
    before it. *)
Theorem deb_dep_unclosed_dropped (gs : list (list dep_alt)) (name t : list Z) :
  Forall group_ok gs -> zlen gs <= DEB_DEP_MAX_GROUPS ->
  Forall (fun c => plain c = true) name -> name <> [] -> Forall (fun c => c <> 41) t ->
  deb_dep_parse ((gs ≫= fun g => print_group g ++ str_bytes ", ") ++ name ++ 40 :: t) = inr gs.
Proof.
  intros HF Hl Hn Hne Ht. unfold deb_dep_parse. set (s := _ ++ _). assert (s <> []) as Hs.
  { unfold s. intros E. apply app_eq_nil in E as [_ E]. by apply app_eq_nil in E as [E _]. }
  destruct s as [|c s'] eqn:E; [done|]. rewrite <- E. unfold s.
  rewrite groups_loop_ok by (first [done|constructor|rewrite zlen_nil; lia]).
  destruct (plain_run 44 depth0 name Hn ltac:(by left)) as [R1 R2]. rewrite groups_loop_quiet by done. rewrite R1. cbn [groups_loop].
  change (scan_char depth0 40) with (Depth 1 0 0). change ((40 =? 44) && at_top (Depth 1 0 0)) with false. cbv iota.
  rewrite groups_loop_open; [done|done|]. cbn [dp_par]. lia.
Qed.
Lemma deb_dep_unclosed_dropped_witness :
  deb_dep_parse (str_bytes "libc6 (>= 2.3), foo:any | bar [!amd64 i386], zlib (>= 1.2, bash") = inr ex_dep.
Proof.
  apply (deb_dep_unclosed_dropped ex_dep (str_bytes "zlib ") (str_bytes ">= 1.2, bash"));
    [apply ex_dep_ok|vm_compute; discriminate|decide_now|discriminate|decide_now].
Defined.
