(* ===== verification/HostFile.v ===== *)
(** * HostFile: a host file as libvdisk sees it through [FILE *]

    The contents of an open host file, the longest length the host lets it
    reach, and the four helpers of [lib/vdisk/src/vdisk.c] that every backend
    goes through.  A stream is used unbuffered: every helper seeks before it
    transfers, and what a failing [fwrite] managed to store stays stored. *)
From S2P Require Import Prelude.
From stdpp Require Import gmap.
#[local] Open Scope Z_scope.

(** [hf_get] is read only below [hf_len]; [hf_cap] is the length at which the
    host refuses to store more (file-size limit, full disk); [hf_sync] is
    whether [fflush] reports success. *)
Record hostfile : Type := HostFile {
  hf_len : Z;
  hf_cap : Z;
  hf_sync : bool;
  hf_get : Z -> Z;
}.

(** The byte at [i], zero past the end (what a later extension exposes). *)
Definition hf_at (f : hostfile) (i : Z) : Z := if i <? hf_len f then hf_get f i else 0.

(** A file just truncated by [fopen(path, "wb+")]. *)
Definition hf_empty (cap : Z) : hostfile := HostFile 0 cap true (fun _ => 0).

Record hf_wf (f : hostfile) : Prop := HfWf {
  hf_wf_len : 0 <= hf_len f <= hf_cap f;
  hf_wf_cap : hf_cap f <= LONG_MAX;
  hf_wf_bytes : forall i, is_byte (hf_at f i);
}.

(** [fwrite] at the current position [off]: the bytes below [hf_cap] are stored. *)
Definition hf_store (f : hostfile) (off : Z) (b : list Z) : hostfile :=
  match b with
  | [] => f
  | _ => HostFile (Z.max (hf_len f) (off + zlen b)) (hf_cap f) (hf_sync f) (patch (hf_at f) off b)
  end.

(** [fseeko]: an offset that does not fit [off_t] is negative and refused. *)
Definition vdisk_host_seek (off : Z) : comp hostfile unit := require (off <=? LONG_MAX) (-1).

(** [fread] of [len] bytes at [off]: as many as the file has. *)
Definition host_fread (f : hostfile) (off len : Z) : list Z :=
  bytes_at (hf_at f) off (Z.max 0 (Z.min len (hf_len f - off))).

Definition vdisk_host_read (off len : Z) : comp hostfile (list Z) :=
  vdisk_host_seek off ;;; fun f =>
  let got := host_fread f off len in
  if zlen got =? len then (Done got, f) else (Fail (-1), f).

Definition vdisk_host_write (off : Z) (b : list Z) : comp hostfile unit :=
  vdisk_host_seek off ;;; fun f =>
  let fit := Z.max 0 (Z.min (zlen b) (hf_cap f - off)) in
  (if fit =? zlen b then Done tt else Fail (-1),
   hf_store f off (take (Z.to_nat fit) b)).

Definition vdisk_host_get_size : comp hostfile Z := gets hf_len.

(** [fflush(fp) == 0 ? 0 : -1] *)
Definition host_flush : comp hostfile unit :=
  fun f => (if hf_sync f then Done tt else Fail (-1), f).

(** ** Lemmas *)

Lemma hf_at_store f off b i :
  0 <= i -> hf_at (hf_store f off b) i = patch (hf_at f) off b i.
Proof.
  intros Hi. destruct b as [|x b]; simpl.
  - by rewrite patch_nil.
  - unfold hf_at at 1; simpl. destruct (Z.ltb_spec i (Z.max (hf_len f) (off + zlen (x :: b)))) as [|Hge]; [done|].
    rewrite patch_out by lia. unfold hf_at. btests.
Qed.
Lemma hf_len_store f off b : zlen b <> 0 -> hf_len (hf_store f off b) = Z.max (hf_len f) (off + zlen b).
Proof. destruct b; [done|]. done. Qed.
Lemma hf_len_store_in f off b : off + zlen b <= hf_len f -> hf_len (hf_store f off b) = hf_len f.
Proof. destruct b; [done|]. simpl. lia. Qed.
Lemma hf_len_store_le f off b : hf_len f <= hf_len (hf_store f off b).
Proof. destruct b; simpl; lia. Qed.
Lemma hf_cap_store f off b : hf_cap (hf_store f off b) = hf_cap f.
Proof. by destruct b. Qed.
Lemma hf_sync_store f off b : hf_sync (hf_store f off b) = hf_sync f.
Proof. by destruct b. Qed.

Lemma hf_wf_store f off b :
  hf_wf f -> Forall is_byte b -> b = [] \/ off + zlen b <= hf_cap f -> hf_wf (hf_store f off b).
Proof.
  intros [Hl Hc Hb] HF Hfit. pose proof (hf_len_store_le f off b). destruct b as [|x b]; [done|].
  destruct Hfit as [? | Hfit]; [done|].
  split; [simpl in *; lia|done|].
  intros i. unfold hf_at; simpl. case_match; [|unfold is_byte; lia].
  unfold patch. case_match; [by apply is_byte_bget|apply Hb].
Qed.

(** [f'] is [f] after writes confined to [lo, hi). *)
Record frame (f f' : hostfile) (lo hi : Z) : Prop := Frame {
  fr_out : forall i, 0 <= i -> ~ (lo <= i < hi) -> hf_at f' i = hf_at f i;
  fr_len : hf_len f <= hf_len f';
  fr_cap : hf_cap f' = hf_cap f;
  fr_sync : hf_sync f' = hf_sync f;
  fr_wf : hf_wf f';
}.
Lemma frame_refl f lo hi : hf_wf f -> frame f f lo hi.
Proof. by split. Qed.
Lemma frame_trans f g h lo hi : frame f g lo hi -> frame g h lo hi -> frame f h lo hi.
Proof.
  intros [] []; split; try congruence; try lia.
  intros i Hi Ho. rewrite fr_out1, fr_out0; auto.
Qed.
Lemma frame_weaken f g lo hi lo' hi' :
  frame f g lo hi -> lo' <= lo -> hi <= hi' -> frame f g lo' hi'.
Proof. intros [] ??; split; auto. intros i Hi Ho. apply fr_out0; lia. Qed.
Lemma frame_store f off b :
  hf_wf f -> Forall is_byte b -> b = [] \/ off + zlen b <= hf_cap f ->
  frame f (hf_store f off b) off (off + zlen b).
Proof.
  intros. split.
  - intros i Hi Ho. rewrite hf_at_store by lia. by apply patch_out.
  - apply hf_len_store_le.
  - apply hf_cap_store.
  - apply hf_sync_store.
  - by apply hf_wf_store.
Qed.

Lemma host_read_ok f off n :
  0 <= off -> 0 <= n -> off + n <= hf_len f -> off <= LONG_MAX ->
  vdisk_host_read off n f = (Done (bytes_at (hf_at f) off n), f).
Proof.
  intros. unfold vdisk_host_read, vdisk_host_seek, host_fread. rewrite (proj2 (Z.leb_le _ _)) by lia. simpl.
  unfold bind, require, ret.
  rewrite Z.min_l, Z.max_r by lia. by rewrite zlen_bytes_at, Z.eqb_refl by lia.
Qed.
Lemma host_read_short f off n :
  0 <= off -> 0 < n -> hf_len f < off + n -> vdisk_host_read off n f = (Fail (-1), f).
Proof.
  intros. unfold vdisk_host_read, vdisk_host_seek, host_fread, require. case_match; [|done].
  unfold bind, ret.
  rewrite zlen_bytes_at by lia. btests.
Qed.
Lemma host_write_ok f off b :
  0 <= off -> off + zlen b <= hf_cap f -> off <= LONG_MAX ->
  vdisk_host_write off b f = (Done tt, hf_store f off b).
Proof.
  intros. pose proof (zlen_nonneg b). unfold vdisk_host_write, vdisk_host_seek, require.
  rewrite (proj2 (Z.leb_le _ _)) by lia. unfold bind, ret.
  rewrite Z.min_l, Z.max_r, Z.eqb_refl by lia. unfold zlen. by rewrite Nat2Z.id, firstn_all.
Qed.
(** Whatever its outcome, a write stores a prefix of what it was asked to, all
    of it when it reports success, and refuses only past the host's limit. *)
Lemma host_write_spec f off b :
  hf_wf f -> 0 <= off <= LONG_MAX -> Forall is_byte b ->
  exists o n, vdisk_host_write off b f = (o, hf_store f off (take (Z.to_nat n) b)) /\
    0 <= n <= zlen b /\
    frame f (hf_store f off (take (Z.to_nat n) b)) off (off + zlen b) /\
    (o = Done tt /\ n = zlen b \/ o = Fail (-1) /\ hf_cap f < off + zlen b).
Proof.
  intros Hwf Ho HF. pose proof (zlen_nonneg b). unfold vdisk_host_write, vdisk_host_seek, require.
  rewrite (proj2 (Z.leb_le _ _)) by lia. unfold bind, ret.
  set (n := Z.max 0 (Z.min (zlen b) (hf_cap f - off))). eexists _, n. split; [reflexivity|].
  split; [lia|]. assert (zlen (take (Z.to_nat n) b) = n) as Hn by (apply zlen_take; lia). split.
  - apply frame_weaken with off (off + n); [|lia..]. rewrite <- Hn at 2. apply frame_store; [done| |].
    + by apply Forall_take.
    + destruct (decide (n = 0)) as [->|]; [by left|right; lia].
  - destruct (Z.eqb_spec n (zlen b)); [by left|right; split; [done|lia]].
Qed.
(** A write inside the present length of the file succeeds. *)
Lemma host_write_in f off b :
  hf_wf f -> 0 <= off -> off + zlen b <= hf_len f -> Forall is_byte b ->
  vdisk_host_write off b f = (Done tt, hf_store f off b) /\
  frame f (hf_store f off b) off (off + zlen b).
Proof.
  intros Hwf ???. pose proof (zlen_nonneg b). destruct Hwf as [? ? ?] eqn:E. clear E.
  split; [apply host_write_ok; lia|]. apply frame_store; auto. right; lia.
Qed.

#[global] Arguments hf_store : simpl never.
#[global] Arguments vdisk_host_write : simpl never.
#[global] Arguments vdisk_host_read : simpl never.

(** ** The host directory tree libvdisk opens files in

    A path is a C string.  [hn_write] is whether [fopen] grants update mode;
    [hs_new] is whether a file can be created at a path, and up to which
    length the host would let it grow. *)
Record hnode : Type := HNode { hn_file : hostfile; hn_write : bool }.
Record hostfs : Type := HostFs {
  hs_nodes : gmap (list Z) hnode;
  hs_new : list Z -> option Z;
}.

(** [fopen(path, "rb")] and [fopen(path, "rb+")]: can the file be opened? *)
Definition fopen_rb (path : list Z) (fs : hostfs) : bool := bool_decide (is_Some (hs_nodes fs !! path)).
Definition fopen_rbp (path : list Z) (fs : hostfs) : bool :=
  match hs_nodes fs !! path with Some n => hn_write n | None => false end.

Definition hs_set (path : list Z) (f : hostfile) (fs : hostfs) : hostfs :=
  HostFs (alter (fun n => HNode f (hn_write n)) path (hs_nodes fs)) (hs_new fs).
Definition hs_file (path : list Z) (fs : hostfs) : hostfile :=
  match hs_nodes fs !! path with Some n => hn_file n | None => hf_empty 0 end.

(** [fopen(path, "wb+")]: truncates or creates. *)
Definition fopen_wbp (path : list Z) (fs : hostfs) : option hostfs :=
  match hs_nodes fs !! path with
  | Some n =>
      if hn_write n then
        Some (HostFs (<[path := HNode (HostFile 0 (hf_cap (hn_file n)) (hf_sync (hn_file n)) (fun _ => 0)) true]> (hs_nodes fs)) (hs_new fs))
      else None
  | None =>
      match hs_new fs path with
      | Some cap => Some (HostFs (<[path := HNode (hf_empty cap) true]> (hs_nodes fs)) (hs_new fs))
      | None => None
      end
  end.
Definition host_remove (path : list Z) (fs : hostfs) : hostfs := HostFs (delete path (hs_nodes fs)) (hs_new fs).

Lemma hs_file_set path f fs : is_Some (hs_nodes fs !! path) -> hs_file path (hs_set path f fs) = f.
Proof. intros [n E]. unfold hs_file, hs_set. simpl. by rewrite lookup_alter_eq, E. Qed.
Lemma hs_file_set_ne path path' f fs : path <> path' -> hs_file path' (hs_set path f fs) = hs_file path' fs.
Proof. intros. unfold hs_file, hs_set. simpl. by rewrite lookup_alter_ne. Qed.
Lemma hs_set_lookup path path' f fs : is_Some (hs_nodes (hs_set path f fs) !! path') <-> is_Some (hs_nodes fs !! path').
Proof.
  unfold hs_set. simpl. destruct (decide (path = path')) as [->|].
  - rewrite lookup_alter_eq. destruct (hs_nodes fs !! path'); simpl; split; intros [? ?]; eauto; done.
  - by rewrite lookup_alter_ne.
Qed.
