(* ===== verification/Stream.v ===== *)
(** * Stream: a [FILE *] with its position

    The host streams the archive code reads and writes in sequence: the file,
    and the position [fread] and [fwrite] continue from. *)
From S2P Require Import Prelude HostFile.
#[local] Open Scope Z_scope.

Record stream : Type := Stream { sm_file : hostfile; sm_pos : Z }.

(** [fseek(fp, (long)off, SEEK_SET)] for an offset checked against [LONG_MAX]. *)
Definition fseek_set (off : Z) : comp stream unit := fun s =>
  if off <=? LONG_MAX then (Done tt, Stream (sm_file s) off) else (Fail (-1), s).
(** [fseek(fp, 0, SEEK_END)] and [ftell(fp)]: the length. *)
Definition fseek_end : comp stream Z := fun s =>
  (Done (hf_len (sm_file s)), Stream (sm_file s) (hf_len (sm_file s))).
(** [fread]: as many of the [n] bytes as the file has. *)
Definition fread (n : Z) : comp stream (list Z) := fun s =>
  let got := host_fread (sm_file s) (sm_pos s) n in
  (Done got, Stream (sm_file s) (sm_pos s + zlen got)).
(** [fwrite] of the bytes [b]: what fits below the limit of the host is stored;
    a short write is the failure [rc]. *)
Definition fwrite (rc : Z) (b : list Z) : comp stream unit := fun s =>
  let fit := Z.max 0 (Z.min (zlen b) (hf_cap (sm_file s) - sm_pos s)) in
  (if fit =? zlen b then Done tt else Fail rc,
   Stream (hf_store (sm_file s) (sm_pos s) (take (Z.to_nat fit) b)) (sm_pos s + fit)).

(** All of [n] bytes, or the failure [rc]. *)
Definition fread_all (rc n : Z) : comp stream (list Z) :=
  let* got := fread n in
  require (zlen got =? n) rc ;;; ret got.

(** [f] holds the bytes [b] at [off]. *)
Definition holds_at (f : hostfile) (off : Z) (b : list Z) : Prop :=
  0 <= off /\ off + zlen b <= hf_len f /\ bytes_at (hf_at f) off (zlen b) = b.

(** Copying from one stream to another, a buffer at a time. *)
Record streams : Type := Streams { ss_out : stream; ss_in : stream }.
Definition on_out {A} (c : comp stream A) : comp streams A := zoom ss_out (fun o s => Streams o (ss_in s)) c.
Definition on_in {A} (c : comp stream A) : comp streams A := zoom ss_in (fun i s => Streams (ss_out s) i) c.

(** [sizeof buffer] *)
Definition COPY_BUFFER : Z := 32768.
Fixpoint copy_loop (fuel : nat) (remaining : Z) : comp streams unit :=
  if remaining =? 0 then ret tt else
  match fuel with
  | O => nofuel
  | S fuel =>
      let count := if remaining <? COPY_BUFFER then remaining else COPY_BUFFER in
      let* b := on_in (fread_all (-1) count) in
      on_out (fwrite (-1) b) ;;;
      copy_loop fuel (remaining - count)
  end.
(** A buffer at a time. *)
Definition copy_fuel (size : Z) : nat := Z.to_nat (size / COPY_BUFFER + 1).

(** ** Lemmas *)

Lemma holds_at_app f off a b : holds_at f off (a ++ b) <-> holds_at f off a /\ holds_at f (off + zlen a) b.
Proof.
  unfold holds_at. rewrite zlen_app. pose proof (zlen_nonneg a). pose proof (zlen_nonneg b).
  rewrite bytes_at_app by lia. split.
  - intros (H1 & H2 & H3). apply app_inj_1 in H3 as [H3 H4]; [|pose proof (zlen_bytes_at (hf_at f) off (zlen a)); unfold zlen in *; lia].
    split_and!; auto; lia.
  - intros ((H1 & H2 & H3) & H4 & H5 & H6). rewrite H3, H6. split_and!; auto; lia.
Qed.
Lemma holds_at_bget f off b i : holds_at f off b -> 0 <= i < zlen b -> hf_at f (off + i) = bget b i.
Proof. intros (_ & _ & H) Hi. pose proof (f_equal (fun l => bget l i) H) as E. cbv beta in E. by rewrite bget_bytes_at in E. Qed.
Lemma holds_at_byte f off b : holds_at f off b -> (forall i, is_byte (hf_at f i)) -> Forall is_byte b.
Proof. intros (_ & _ & H) Hb. rewrite <- H. apply Forall_bytes_at. intros. apply Hb. Qed.

Lemma fread_ok s n b : holds_at (sm_file s) (sm_pos s) b -> zlen b = n ->
  fread n s = (Done b, Stream (sm_file s) (sm_pos s + n)).
Proof.
  intros (H1 & H2 & H3) <-. unfold fread, host_fread. rewrite Z.min_l by lia. rewrite Z.max_r by (pose proof (zlen_nonneg b); lia).
  by rewrite H3.
Qed.
Lemma fread_all_ok rc s n b : holds_at (sm_file s) (sm_pos s) b -> zlen b = n ->
  fread_all rc n s = (Done b, Stream (sm_file s) (sm_pos s + n)).
Proof. intros H Hn. unfold fread_all. rewrite (bind_done _ _ _ _ _ (fread_ok s n b H Hn)), require_true by (by apply Z.eqb_eq). done. Qed.

(** A write that fits is appended, and what was there before stays. *)
Lemma fwrite_ok rc s b :
  0 <= sm_pos s <= hf_len (sm_file s) -> sm_pos s + zlen b <= hf_cap (sm_file s) ->
  exists s', fwrite rc b s = (Done tt, s') /\ sm_pos s' = sm_pos s + zlen b /\ hf_cap (sm_file s') = hf_cap (sm_file s) /\
    hf_len (sm_file s') = Z.max (hf_len (sm_file s)) (sm_pos s') /\ holds_at (sm_file s') (sm_pos s) b /\
    (forall i, 0 <= i < sm_pos s -> hf_at (sm_file s') i = hf_at (sm_file s) i).
Proof.
  intros Hp Hc. pose proof (zlen_nonneg b). unfold fwrite. rewrite (Z.min_l (zlen b)), Z.max_r, Z.eqb_refl by lia.
  rewrite take_ge by (unfold zlen; lia). eexists. split; [done|]. cbn [sm_pos sm_file].
  assert (forall i, 0 <= i -> hf_at (hf_store (sm_file s) (sm_pos s) b) i = patch (hf_at (sm_file s)) (sm_pos s) b i) as Hat by (intros; by apply hf_at_store).
  assert (hf_len (hf_store (sm_file s) (sm_pos s) b) = Z.max (hf_len (sm_file s)) (sm_pos s + zlen b)) as Hl.
  { destruct (decide (zlen b = 0)) as [E|]; [|by apply hf_len_store]. destruct b as [|x b]; [change (hf_store (sm_file s) (sm_pos s) []) with (sm_file s); lia|rewrite zlen_cons in E; pose proof (zlen_nonneg b); lia]. }
  split_and!; [done|by rewrite hf_cap_store|done| |].
  - split_and!; [lia|lia|]. rewrite (bytes_at_ext _ (patch (hf_at (sm_file s)) (sm_pos s) b)) by (intros; apply Hat; lia). apply bytes_at_patch.
  - intros i Hi. rewrite Hat by lia. apply patch_out. lia.
Qed.

Lemma holds_at_mono f g off b n :
  holds_at f off b -> off + zlen b <= n -> (forall i, 0 <= i < n -> hf_at g i = hf_at f i) -> hf_len f <= hf_len g -> holds_at g off b.
Proof.
  intros (H1 & H2 & H3) Hn Hg Hl. split_and!; [done|lia|]. etransitivity; [|exact H3]. apply bytes_at_ext. intros i Hi. apply Hg. lia.
Qed.

(** Writing the bytes [b] at the end of the stream [s] gives [s']. *)
Record wrote (s : stream) (b : list Z) (s' : stream) : Prop := Wrote {
  wr_pos : sm_pos s' = sm_pos s + zlen b;
  wr_len : hf_len (sm_file s') = sm_pos s';
  wr_cap : hf_cap (sm_file s') = hf_cap (sm_file s);
  wr_holds : holds_at (sm_file s') (sm_pos s) b;
  wr_keep : forall i, 0 <= i < sm_pos s -> hf_at (sm_file s') i = hf_at (sm_file s) i;
}.
Definition at_end (s : stream) : Prop := 0 <= sm_pos s /\ hf_len (sm_file s) = sm_pos s.

Lemma wrote_at_end s b s' : 0 <= sm_pos s -> wrote s b s' -> at_end s'.
Proof. intros ? []. pose proof (zlen_nonneg b). split; [lia|done]. Qed.
Lemma fwrite_wrote rc s b : at_end s -> sm_pos s + zlen b <= hf_cap (sm_file s) ->
  exists s', fwrite rc b s = (Done tt, s') /\ wrote s b s'.
Proof.
  intros [H1 H2] Hc. destruct (fwrite_ok rc s b) as (s' & E & ? & ? & Hl & ? & ?); [lia|done|].
  exists s'. split; [done|]. split; auto. pose proof (zlen_nonneg b). lia.
Qed.
Lemma wrote_nil s : at_end s -> wrote s [] s.
Proof.
  intros [H1 H2]. split; rewrite ?zlen_nil; auto; try lia. split_and!; rewrite ?zlen_nil; auto; lia.
Qed.
Lemma wrote_app s a t b u : 0 <= sm_pos s -> wrote s a t -> wrote t b u -> wrote s (a ++ b) u.
Proof.
  intros H0 [P1 L1 C1 H1 K1] [P2 L2 C2 H2 K2]. pose proof (zlen_nonneg a). pose proof (zlen_nonneg b). split; rewrite ?zlen_app; try lia.
  - apply holds_at_app. rewrite <- P1. split; [|done]. eapply (holds_at_mono (sm_file t)); [done|reflexivity| |lia].
    intros i Hi. apply K2. lia.
  - intros i Hi. rewrite K2 by lia. apply K1. lia.
Qed.
Lemma holds_at_sub f off d p n : holds_at f off d -> 0 <= p -> 0 <= n -> p + n <= zlen d -> holds_at f (off + p) (sub d p n).
Proof.
  intros H Hp Hn Hl. rewrite <- (take_drop (Z.to_nat p) d) in H. apply holds_at_app in H as [_ H]. rewrite zlen_take in H by lia.
  rewrite <- (take_drop (Z.to_nat n) (drop (Z.to_nat p) d)) in H. by apply holds_at_app in H as [H _].
Qed.
Lemma holds_at_zrep f off n c : 0 <= off -> 0 <= n -> off + n <= hf_len f -> (forall i, hf_at f (off + i) = c) -> holds_at f off (zrep n c).
Proof.
  intros. rewrite <- (bytes_at_const c 0 n). split_and!; rewrite ?zlen_bytes_at by lia; [done|lia|].
  rewrite bytes_at_const. rewrite <- (bytes_at_const c off n). apply bytes_at_ext. intros i _. by replace i with (off + (i - off)) by lia.
Qed.

(** ** Copying *)

Lemma on_out_done {A} (c : comp stream A) ss a o : c (ss_out ss) = (Done a, o) -> on_out c ss = (Done a, Streams o (ss_in ss)).
Proof. unfold on_out, zoom. by intros ->. Qed.
Lemma on_in_done {A} (c : comp stream A) ss a i : c (ss_in ss) = (Done a, i) -> on_in c ss = (Done a, Streams (ss_out ss) i).
Proof. unfold on_in, zoom. by intros ->. Qed.

Lemma copy_loop_wrote fuel data o i :
  zlen data < COPY_BUFFER * Z.of_nat fuel \/ data = [] -> at_end o -> sm_pos o + zlen data <= hf_cap (sm_file o) -> holds_at (sm_file i) (sm_pos i) data ->
  exists o' i', copy_loop fuel (zlen data) (Streams o i) = (Done tt, Streams o' i') /\ wrote o data o'.
Proof.
  revert data o i. induction fuel as [|fuel IH]; intros data o i Hf He Hc Hi.
  - assert (data = []) as -> by (destruct Hf; [pose proof (zlen_nonneg data); lia|done]). exists o, i. split; [done|]. by apply wrote_nil.
  - cbn [copy_loop]. destruct (Z.eqb_spec (zlen data) 0) as [E|Hne].
    { destruct data as [|c d]; [|rewrite zlen_cons in E; pose proof (zlen_nonneg d); lia]. exists o, i. split; [done|]. by apply wrote_nil. }
    set (n := if zlen data <? COPY_BUFFER then zlen data else COPY_BUFFER). pose proof (zlen_nonneg data).
    assert (0 < n <= zlen data /\ (n = zlen data \/ n = COPY_BUFFER)) as [Hn Hn'] by (unfold n, COPY_BUFFER; btests).
    rewrite <- (take_drop (Z.to_nat n) data) in Hi. apply holds_at_app in Hi as [Hi1 Hi2]. rewrite zlen_take in Hi2 by lia.
    rewrite (bind_done _ _ _ _ _ (on_in_done _ (Streams o i) _ _ (fread_all_ok (-1) i n _ Hi1 ltac:(apply zlen_take; lia)))). cbn [ss_out].
    destruct (fwrite_wrote (-1) o (take (Z.to_nat n) data)) as (o1 & E1 & W1); [done|rewrite zlen_take by lia; lia|].
    rewrite (bind_done _ _ _ _ _ (on_out_done _ (Streams o _) _ _ E1)). cbn [ss_in].
    assert (zlen data - n = zlen (drop (Z.to_nat n) data)) as -> by (rewrite zlen_drop by lia; done).
    destruct (IH (drop (Z.to_nat n) data) o1 (Stream (sm_file i) (sm_pos i + n))) as (o' & i' & E' & W').
    + rewrite zlen_drop by lia. destruct Hf as [Hf| ->]; [|right; by rewrite drop_nil]. destruct Hn' as [->| ->]; [right; apply drop_ge; unfold zlen; lia|left; lia].
    + eapply wrote_at_end; [|exact W1]. apply He.
    + rewrite zlen_drop by lia. destruct W1 as [P1 _ C1 _ _]. rewrite zlen_take in P1 by lia. lia.
    + done.
    + exists o', i'. split; [done|]. rewrite <- (take_drop (Z.to_nat n) data). eapply wrote_app; [apply He|done..].
Qed.

(** Bytes stored in a file are read back, and others kept. *)
Lemma holds_at_store f off b : 0 <= off -> off + zlen b <= hf_len f -> holds_at (hf_store f off b) off b.
Proof.
  intros H1 H2. pose proof (zlen_nonneg b). split_and!; [done|rewrite hf_len_store_in; done|].
  rewrite (bytes_at_ext _ (patch (hf_at f) off b)) by (intros; apply hf_at_store; lia). apply bytes_at_patch.
Qed.
Lemma holds_at_store_out f off b o s :
  holds_at f off b -> o + zlen s <= hf_len f -> off + zlen b <= o \/ o + zlen s <= off -> holds_at (hf_store f o s) off b.
Proof.
  intros (H1 & H2 & H3) Ho Hd. pose proof (zlen_nonneg b). split_and!; [done|by rewrite hf_len_store_in|]. rewrite <- H3 at 2. apply bytes_at_ext.
  intros i Hi. rewrite hf_at_store by lia. apply patch_out. lia.
Qed.
Lemma holds_at_nil f off : 0 <= off <= hf_len f -> holds_at f off [].
Proof. intros [H1 H2]. split_and!; rewrite ?zlen_nil; try done. lia. Qed.
