(* ===== verification/Gzip.v ===== *)
(** * Gzip: one gzip member ([src/gu_gzip.c])

    The container around a DEFLATE payload: header, optional fields, checksum
    and size.  [gu_gzip_decode_member] reads the member from a host file. *)
From S2P Require Import Prelude HostFile Crc32 Inflate Canonical Deflate.
#[local] Open Scope Z_scope.

Definition GZ_FTEXT : Z := 0x01.
Definition GZ_FHCRC : Z := 0x02.
Definition GZ_FEXTRA : Z := 0x04.
Definition GZ_FNAME : Z := 0x08.
Definition GZ_FCOMMENT : Z := 0x10.
Definition GZ_RESERVED : Z := 0xE0.
Definition has (flags bit : Z) : bool := negb (Z.land flags bit =? 0).

(** The messages of the code. *)
Inductive gz_error : Type :=
| GzRange        (* invalid gzip member range *)
| GzShortRead    (* short read in gzip member *)
| GzNotGzip      (* not a gzip/deflate stream *)
| GzFlags        (* unsupported gzip header flags *)
| GzMalformed    (* malformed gzip header *)
| GzZeroSize     (* zero/4GiB gzip ISIZE is unsupported *)
| GzOverflow     (* gzip output exceeds ISIZE *)
| GzCorrupt      (* corrupt deflate payload *)
| GzCrc.         (* gzip CRC32 mismatch *)

(** The position after the zero byte, when there is one before [limit]. *)
Fixpoint skip_zstr_loop (n : nat) (buf : list Z) (pos : Z) : option Z :=
  match n with
  | O => None
  | S n => if bget buf pos =? 0 then Some (pos + 1) else skip_zstr_loop n buf (pos + 1)
  end.
Definition skip_zstr (buf : list Z) (limit pos : Z) : option Z := skip_zstr_loop (Z.to_nat (limit - pos)) buf pos.

(** Past the optional fields: where the payload starts. *)
Definition skip_extra (inp : list Z) (payload_end flags pos : Z) : option Z :=
  if has flags GZ_FEXTRA then
    if payload_end <? pos + 2 then None else
    let xlen := Z.lor (bget inp pos) (Z.shiftl (bget inp (pos + 1)) 8) in
    if payload_end <? pos + 2 + xlen then None else Some (pos + 2 + xlen)
  else Some pos.
Definition skip_string (inp : list Z) (payload_end flags bit pos : Z) : option Z :=
  if has flags bit then skip_zstr inp payload_end pos else Some pos.
Definition skip_hcrc (payload_end flags pos : Z) : option Z :=
  if has flags GZ_FHCRC then if payload_end <? pos + 2 then None else Some (pos + 2) else Some pos.

Definition payload_start (inp : list Z) (payload_end flags : Z) : option Z :=
  pos ← skip_extra inp payload_end flags 10;
  pos ← skip_string inp payload_end flags GZ_FNAME pos;
  pos ← skip_string inp payload_end flags GZ_FCOMMENT pos;
  pos ← skip_hcrc payload_end flags pos;
  if payload_end <? pos then None else Some pos.

(** The member [inp], of at least 18 bytes. *)
Definition gz_decode (inp : list Z) : gz_error + list Z :=
  let n := zlen inp in
  if negb (bget inp 0 =? 0x1f) || negb (bget inp 1 =? 0x8b) || negb (bget inp 2 =? 8) then inl GzNotGzip else
  let flags := bget inp 3 in
  if has flags GZ_RESERVED then inl GzFlags else
  let payload_end := n - 8 in
  match payload_start inp payload_end flags with
  | None => inl GzMalformed
  | Some pos =>
      let expected_crc := le32 inp (n - 8) in
      let expected_size := le32 inp (n - 4) in
      if expected_size =? 0 then inl GzZeroSize else
      match inflate_raw (sub inp pos (payload_end - pos)) expected_size with
      | Done outbuf =>
          if negb (zlen outbuf =? expected_size) then inl GzCorrupt
          else if negb (crc32_bytes outbuf =? expected_crc) then inl GzCrc else inr outbuf
      | Fail rc => inl (if rc =? -2 then GzOverflow else GzCorrupt)
      | NoFuel => inl GzCorrupt
      end
  end.

(** The stream returned holds the decoded bytes and stands at its start. *)
Definition gu_gzip_decode_member (src : hostfile) (off len : Z) : gz_error + list Z :=
  if (len <? 18) || (LONG_MAX <? off) then inl GzRange else
  let inp := host_fread src off len in
  if negb (zlen inp =? len) then inl GzShortRead else gz_decode inp.

(** ** Stored members

    The members a writer makes without compressing: a list of stored blocks of
    at most 65535 bytes each, the last one marked final. *)

Fixpoint stored (cs : list (list Z)) : list Z :=
  match cs with
  | [] => []
  | c :: cs => (if bool_decide (cs = []) then 1 else 0) :: put16 (zlen c) ++ put16 (Z.lxor (zlen c) 0xffff) ++ c ++ stored cs
  end.
Definition gzip_member (name : option (list Z)) (cs : list (list Z)) : list Z :=
  [0x1f; 0x8b; 8; match name with Some _ => GZ_FNAME | None => 0 end; 0; 0; 0; 0; 0; 255] ++
  match name with Some s => s ++ [0] | None => [] end ++
  stored cs ++ put32 (crc32_bytes (concat cs)) ++ put32 (zlen (concat cs)).

Definition chunk_ok (c : list Z) : Prop := Forall is_byte c /\ zlen c <= 65535.

Lemma getbits_header src pos b :
  bget src pos = b -> b = 0 \/ b = 1 -> 0 <= pos < zlen src ->
  getbits 1 (BitReader src pos 0 0) = (Done b, BitReader src (pos + 1) 0 7) /\
  getbits 2 (BitReader src (pos + 1) 0 7) = (Done 0, BitReader src (pos + 1) 0 5).
Proof.
  intros Hb H01 Hp. split; [|reflexivity]. unfold getbits, fill_fuel. change (Z.to_nat 1) with 1%nat.
  unfold bind. cbn [fill_bits br_bitcnt br_src br_pos br_bitbuf]. rewrite (proj2 (Z.leb_gt 1 0)) by lia.
  rewrite (proj2 (Z.leb_gt _ _)), Hb by lia. destruct H01 as [-> | ->]; reflexivity.
Qed.

Lemma bget_app_at a b i k : i = zlen a + k -> 0 <= k -> bget (a ++ b) i = bget b k.
Proof. intros -> Hk. rewrite bget_app_r by lia. f_equal. lia. Qed.

Lemma len_check n : 0 <= n <= 65535 -> Z.lor (bget (put16 n) 0) (Z.shiftl (bget (put16 n) 1) 8) = n /\ 0 <= Z.lxor n 0xffff <= 65535.
Proof.
  intros Hn. split.
  - change (bget (put16 n) 0) with (u8 n). change (bget (put16 n) 1) with (u8 (Z.shiftr n 8)).
    rewrite lor_shiftl_add by (try apply u8_range; lia). word_dlia.
  - apply Z.ldiff_le; [lia|]. apply Z.bits_inj'. intros i Hi. change 0xffff with (Z.ones 16).
    rewrite Z.ldiff_spec, Z.lxor_spec, Z.bits_0, Z.testbit_ones_nonneg by lia.
    destruct (Z.ltb_spec i 16); [by rewrite andb_false_r|].
    rewrite <- (Z.mod_small n (2 ^ 16)), Z.mod_pow2_bits_high by lia. done.
Qed.

(** A stored block at a byte boundary. *)
Lemma inflate_stored_ok outcap out pre c suf :
  chunk_ok c -> zlen out + zlen c <= outcap ->
  let src := pre ++ put16 (zlen c) ++ put16 (Z.lxor (zlen c) 0xffff) ++ c ++ suf in
  inflate_stored outcap out (BitReader src (zlen pre) 0 5) =
    (Done (out ++ c), BitReader src (zlen pre + 4 + zlen c) 0 0).
Proof.
  intros [Hc Hl] Hcap src. pose proof (zlen_nonneg c). destruct (len_check (zlen c) ltac:(lia)) as [H1 H2].
  destruct (len_check (Z.lxor (zlen c) 0xffff) H2) as [H3 _].
  assert (forall k, 0 <= k -> bget src (zlen pre + k) = bget (put16 (zlen c) ++ put16 (Z.lxor (zlen c) 0xffff) ++ c ++ suf) k) as Hg
    by (intros; by apply bget_app_at).
  assert (zlen src = zlen pre + 4 + zlen c + zlen suf) as Hz by (unfold src; rewrite !zlen_app, !zlen_put16; lia).
  pose proof (zlen_nonneg suf).
  unfold inflate_stored, byte_align, modify, get, bind. cbn [br_src br_pos br_bitbuf br_bitcnt].
  assert (Z.lor (bget src (zlen pre)) (Z.shiftl (bget src (zlen pre + 1)) 8) = zlen c) as ->.
  { etransitivity; [|exact H1]. rewrite <- (Z.add_0_r (zlen pre)) at 1. rewrite !Hg by lia. by rewrite !bget_app_l by (rewrite zlen_put16; lia). }
  assert (Z.lor (bget src (zlen pre + 2)) (Z.shiftl (bget src (zlen pre + 3)) 8) = Z.lxor (zlen c) 0xffff) as ->.
  { etransitivity; [|exact H3]. rewrite !Hg by lia. rewrite !(bget_app_r (put16 (zlen c))) by (rewrite zlen_put16; lia). rewrite zlen_put16.
    by rewrite !bget_app_l by (rewrite zlen_put16; lia). }
  rewrite (proj2 (Z.ltb_ge _ (_ + 4))) by lia. cbn [negb require ret]. rewrite Z.eqb_refl. cbn [require ret].
  rewrite !(proj2 (Z.ltb_ge _ _)) by lia. cbn [orb negb require ret]. unfold ret. do 3 f_equal.
  replace (zlen pre + 4) with (zlen (pre ++ put16 (zlen c) ++ put16 (Z.lxor (zlen c) 0xffff))) by (rewrite !zlen_app, !zlen_put16; lia).
  unfold src. rewrite !app_assoc, <- (app_assoc _ c suf), <- (app_assoc _ (put16 _) (put16 _)). unfold sub. unfold zlen at 1 2. rewrite !Nat2Z.id.
  rewrite app_assoc. rewrite drop_app_length. by rewrite take_app_length.
Qed.

Lemma inflate_blocks_stored fuel outcap out pre cs suf :
  Forall chunk_ok cs -> cs <> [] -> zlen out + zlen (concat cs) <= outcap -> (length cs <= fuel)%nat ->
  exists br, inflate_blocks fuel outcap out (BitReader (pre ++ stored cs ++ suf) (zlen pre) 0 0) = (Done (out ++ concat cs), br).
Proof.
  intros HF. revert fuel out pre. induction HF as [|c cs Hc HF IH]; intros fuel out pre Hne Hcap Hf; [done|].
  destruct fuel as [|fuel]; [simpl in Hf; lia|]. cbn [inflate_blocks]. set (src := pre ++ stored (c :: cs) ++ suf).
  set (b := if bool_decide (cs = []) then 1 else 0). assert (b = 0 \/ b = 1) as H01 by (unfold b; case_bool_decide; auto).
  simpl concat in Hcap. rewrite zlen_app in Hcap. pose proof (zlen_nonneg (concat cs)). pose proof (zlen_nonneg pre).
  assert (src = (pre ++ [b]) ++ put16 (zlen c) ++ put16 (Z.lxor (zlen c) 0xffff) ++ c ++ stored cs ++ suf) as Es.
  { unfold src. simpl stored. rewrite <- !app_assoc. simpl. by rewrite <- !app_assoc. }
  destruct (getbits_header src (zlen pre) b) as [E1 E2]; [|done| |].
  { unfold src. rewrite (bget_app_at _ _ _ 0) by lia. done. }
  { split; [done|]. rewrite Es, !zlen_app, !zlen_put16. change (zlen [b]) with 1. pose proof (zlen_nonneg c). pose proof (zlen_nonneg (stored cs)). pose proof (zlen_nonneg suf). lia. }
  rewrite (bind_done _ _ _ _ _ E1), (bind_done _ _ _ _ _ E2). cbn [Z.eqb].
  pose proof (inflate_stored_ok outcap out (pre ++ [b]) c (stored cs ++ suf) Hc ltac:(lia)) as E3. cbv zeta in E3.
  rewrite <- Es in E3. replace (zlen (pre ++ [b])) with (zlen pre + 1) in E3 by (rewrite zlen_app; done).
  rewrite (bind_done _ _ _ _ _ E3). unfold b. case_bool_decide as Hcs.
  - cbn [Z.eqb negb]. subst cs. eexists. unfold ret. simpl. by rewrite app_nil_r.
  - cbn [Z.eqb negb].
    destruct (IH fuel (out ++ c) (pre ++ [b] ++ put16 (zlen c) ++ put16 (Z.lxor (zlen c) 0xffff) ++ c)) as (br & E);
      [done|rewrite zlen_app; lia|simpl in Hf; lia|].
    exists br. rewrite <- app_assoc in E. simpl concat. rewrite app_assoc. rewrite <- E. f_equal.
    rewrite !zlen_app, !zlen_put16. change (zlen [b]) with 1. f_equal; [|lia].
    rewrite Es. by rewrite <- !app_assoc.
Qed.

Lemma skip_zstr_ok pre s suf n :
  Forall (fun b => b <> 0) s -> (length s < n)%nat ->
  skip_zstr_loop n (pre ++ s ++ 0 :: suf) (zlen pre) = Some (zlen pre + zlen s + 1).
Proof.
  intros HF. revert pre n. induction HF as [|c s Hc HF IH]; intros pre n Hn; (destruct n as [|n]; [simpl in Hn; lia|]); cbn [skip_zstr_loop].
  - rewrite (bget_app_at pre _ _ 0) by lia. simpl. f_equal. rewrite zlen_nil. lia.
  - rewrite (bget_app_at pre _ _ 0) by lia. change (bget ((c :: s) ++ 0 :: suf) 0) with c. rewrite (proj2 (Z.eqb_neq _ _)) by done.
    specialize (IH (pre ++ [c]) n ltac:(simpl in Hn; lia)). rewrite <- app_assoc in IH.
    assert (zlen (pre ++ [c]) = zlen pre + 1) as Hz by (rewrite zlen_app; done). rewrite Hz in IH.
    rewrite zlen_cons. etransitivity; [exact IH|]. f_equal. lia.
Qed.

Lemma length_stored cs : (length cs <= length (stored cs))%nat.
Proof. induction cs as [|c cs IH]; simpl; [done|]. rewrite length_app. lia. Qed.

Lemma inflate_stored_blocks cs :
  Forall chunk_ok cs -> cs <> [] -> inflate_raw (stored cs) (zlen (concat cs)) = Done (concat cs).
Proof.
  intros HF Hne. unfold inflate_raw. pose proof (length_stored cs).
  destruct (inflate_blocks_stored (S (Z.to_nat (8 * zlen (stored cs)))) (zlen (concat cs)) [] [] cs [] HF Hne) as (br & E).
  - rewrite zlen_nil. lia.
  - unfold zlen. lia.
  - rewrite app_nil_r, !app_nil_l in E. change (zlen (@nil Z)) with 0 in E. by rewrite E.
Qed.

(** The parts of a stored member, and what the decoder finds in them. *)
Definition gz_head (name : option (list Z)) : list Z :=
  [0x1f; 0x8b; 8; match name with Some _ => GZ_FNAME | None => 0 end; 0; 0; 0; 0; 0; 255] ++
  match name with Some s => s ++ [0] | None => [] end.

Lemma payload_start_member name body n :
  match name with Some s => Forall (fun b => b <> 0) s | None => True end -> zlen (gz_head name) <= n ->
  payload_start (gz_head name ++ body) n (match name with Some _ => GZ_FNAME | None => 0 end) = Some (zlen (gz_head name)).
Proof.
  intros Hs Hn. unfold payload_start, skip_extra, skip_string, skip_hcrc. destruct name as [s|].
  - change (has GZ_FNAME GZ_FEXTRA) with false. change (has GZ_FNAME GZ_FNAME) with true.
    change (has GZ_FNAME GZ_FCOMMENT) with false. change (has GZ_FNAME GZ_FHCRC) with false. cbn iota. cbn [mbind option_bind].
    unfold gz_head in *. set (h := [_; _; _; _; _; _; _; _; _; _]) in *. rewrite <- !app_assoc. simpl ([0] ++ body).
    rewrite !zlen_app in Hn |- *. change (zlen h) with 10 in *. change (zlen [0]) with 1 in *.
    pose proof (skip_zstr_ok h s body (Z.to_nat (n - 10)) Hs ltac:(unfold zlen in *; lia)) as E. change (zlen h) with 10 in E.
    unfold skip_zstr. rewrite E. cbn [mbind option_bind]. rewrite (proj2 (Z.ltb_ge _ _)) by lia. f_equal. lia.
  - cbn [has]. change (has 0 GZ_FEXTRA) with false. change (has 0 GZ_FNAME) with false. change (has 0 GZ_FCOMMENT) with false.
    change (has 0 GZ_FHCRC) with false. cbn iota. cbn [mbind option_bind]. change (zlen (gz_head None)) with 10 in *.
    by rewrite (proj2 (Z.ltb_ge _ _)) by lia.
Qed.

Lemma gz_decode_member name cs :
  Forall chunk_ok cs -> concat cs <> [] -> zlen (concat cs) < 2 ^ 32 ->
  match name with Some s => Forall (fun b => b <> 0) s | None => True end ->
  18 <= zlen (gzip_member name cs) /\ gz_decode (gzip_member name cs) = inr (concat cs).
Proof.
  intros HF Hne Hz Hs. assert (cs <> []) as Hcs by (by intros ->).
  set (trl := put32 (crc32_bytes (concat cs)) ++ put32 (zlen (concat cs))).
  assert (gzip_member name cs = gz_head name ++ stored cs ++ trl) as -> by (unfold gzip_member, gz_head, trl; by rewrite <- !app_assoc).
  assert (zlen trl = 8) as Htz by done.
  assert (10 <= zlen (gz_head name)) as Hhz by (unfold gz_head; rewrite zlen_app; change (zlen [_; _; _; _; _; _; _; _; _; _]) with 10; pose proof (zlen_nonneg (match name with Some s => s ++ [0] | None => [] end)); lia).
  assert (5 <= zlen (stored cs)) as Hsz.
  { destruct cs as [|c cs]; [done|]. cbn [stored]. rewrite zlen_cons, !zlen_app, !zlen_put16. pose proof (zlen_nonneg c). pose proof (zlen_nonneg (stored cs)). lia. }
  set (m := gz_head name ++ stored cs ++ trl). assert (zlen m = zlen (gz_head name) + zlen (stored cs) + 8) as Hm by (unfold m; rewrite !zlen_app; lia).
  split; [lia|]. unfold gz_decode.
  assert (bget m 0 = 0x1f /\ bget m 1 = 0x8b /\ bget m 2 = 8 /\ bget m 3 = match name with Some _ => GZ_FNAME | None => 0 end) as (-> & -> & -> & ->) by done.
  cbn [negb orb Z.eqb Pos.eqb]. assert (has (match name with Some _ => GZ_FNAME | None => 0 end) GZ_RESERVED = false) as -> by by destruct name.
  assert (payload_start m (zlen m - 8) (match name with Some _ => GZ_FNAME | None => 0 end) = Some (zlen (gz_head name))) as ->
    by (apply payload_start_member; [done|lia]).
  assert (forall k, 0 <= k -> bget m (zlen m - 8 + k) = bget trl k) as Ht.
  { intros k Hk. unfold m at 1. rewrite app_assoc. apply bget_app_at; [rewrite zlen_app; lia|done]. }
  assert (Forall is_byte (concat cs)) as Hb by (apply Forall_concat; eapply Forall_impl; [exact HF|by intros ? []]).
  pose proof (crc32_range (concat cs) Hb) as Hcr. pose proof (zlen_nonneg (concat cs)).
  assert (le32 m (zlen m - 8) = crc32_bytes (concat cs)) as ->.
  { rewrite <- (le32_put32 (crc32_bytes (concat cs))) by done. apply le32_ext. intros k Hk. rewrite Ht by lia.
    unfold trl. rewrite bget_app_l; [f_equal; lia|rewrite zlen_put32; lia]. }
  assert (le32 m (zlen m - 4) = zlen (concat cs)) as ->.
  { rewrite <- (le32_put32 (zlen (concat cs))) by lia. apply le32_ext. intros k Hk. replace (zlen m - 4 + k) with (zlen m - 8 + (4 + k)) by lia.
    rewrite Ht by lia. unfold trl. rewrite bget_app_r by (rewrite zlen_put32; lia). rewrite zlen_put32. f_equal; lia. }
  assert (zlen (concat cs) <> 0) as Hz0 by (destruct (concat cs); [done|rewrite zlen_cons; pose proof (zlen_nonneg l); lia]).
  rewrite (proj2 (Z.eqb_neq _ _)) by done.
  assert (sub m (zlen (gz_head name)) (zlen m - 8 - zlen (gz_head name)) = stored cs) as ->.
  { unfold sub, m. replace (Z.to_nat (zlen (gz_head name))) with (length (gz_head name)) by (unfold zlen; lia).
    rewrite drop_app_length. fold m. apply take_app_length'. unfold zlen in *. lia. }
  rewrite inflate_stored_blocks by done. by rewrite !Z.eqb_refl.
Qed.

(** ** Theorems *)

(** C23: a member is decoded only to contents that match its trailer: as many
    bytes as the trailer says, and with its checksum, by a payload that lies
    between the header and the trailer. *)
Theorem gzip_decode_sound (src : hostfile) (off len : Z) (out : list Z) :
  gu_gzip_decode_member src off len = inr out ->
  let inp := host_fread src off len in
  zlen inp = len /\ 18 <= len /\ out <> [] /\ zlen out = le32 inp (len - 4) /\ crc32_bytes out = le32 inp (len - 8) /\
  exists pos, payload_start inp (len - 8) (bget inp 3) = Some pos /\ pos <= len - 8 /\
    inflate_raw (sub inp pos (len - 8 - pos)) (le32 inp (len - 4)) = Done out.
Proof.
  unfold gu_gzip_decode_member. cbv zeta. set (inp := host_fread src off len).
  destruct (Z.ltb_spec len 18), (Z.ltb_spec LONG_MAX off); cbn [orb]; try done.
  destruct (Z.eqb_spec (zlen inp) len) as [Hz|]; cbn [negb]; [|done]. unfold gz_decode. rewrite Hz.
  destruct (_ || _); [done|]. destruct (has _ _); [done|].
  destruct (payload_start inp (len - 8) (bget inp 3)) as [pos|] eqn:Ep; [|done].
  destruct (Z.eqb_spec (le32 inp (len - 4)) 0); [done|]. destruct (inflate_raw _ _) as [o|rc|] eqn:Ei; [|by destruct (rc =? -2)|done].
  destruct (Z.eqb_spec (zlen o) (le32 inp (len - 4))) as [Ho|]; cbn [negb]; [|done].
  destruct (Z.eqb_spec (crc32_bytes o) (le32 inp (len - 8))) as [Hc|]; cbn [negb]; [|done]. intros [= <-].
  split_and!; [done|lia| |done|done|].
  - intros ->. rewrite zlen_nil in Ho. lia.
  - exists pos. split; [done|]. split; [|done]. unfold payload_start in Ep.
    apply bind_Some in Ep as (p1 & _ & Ep). apply bind_Some in Ep as (p2 & _ & Ep). apply bind_Some in Ep as (p3 & _ & Ep).
    apply bind_Some in Ep as (p4 & _ & Ep). destruct (Z.ltb_spec (len - 8) p4); [done|]. injection Ep as <-. lia.
Qed.
Definition ex_member : list Z := gzip_member (Some (str_bytes "f.txt")) [str_bytes "guppy"; str_bytes "!"].
Definition ex_member_file : hostfile := HostFile (zlen ex_member) 1000 true (bget ex_member).
Lemma gzip_decode_sound_witness :
  gu_gzip_decode_member ex_member_file 0 40 = inr (str_bytes "guppy!") /\
  zlen (str_bytes "guppy!") = le32 (host_fread ex_member_file 0 40) 36.
Proof.
  assert (gu_gzip_decode_member ex_member_file 0 40 = inr (str_bytes "guppy!")) as E by (vm_compute; reflexivity).
  split; [exact E|]. apply (gzip_decode_sound ex_member_file 0 40 (str_bytes "guppy!") E).
Defined.

(** C24: what is stored uncompressed is read back: a member of stored blocks,
    with or without a file name, anywhere in a host file, decodes to the
    contents of its blocks. *)
Theorem gzip_stored_roundtrip (src : hostfile) (off : Z) (name : option (list Z)) (cs : list (list Z)) :
  let m := gzip_member name cs in
  Forall chunk_ok cs -> concat cs <> [] -> zlen (concat cs) < 2 ^ 32 ->
  match name with Some s => Forall (fun b => b <> 0) s | None => True end ->
  0 <= off <= LONG_MAX -> off + zlen m <= hf_len src -> bytes_at (hf_at src) off (zlen m) = m ->
  gu_gzip_decode_member src off (zlen m) = inr (concat cs).
Proof.
  cbv zeta. intros HF Hne Hz Hs Ho Hl Hm. destruct (gz_decode_member name cs HF Hne Hz Hs) as [H18 E].
  set (m := gzip_member name cs) in *. unfold gu_gzip_decode_member.
  rewrite (proj2 (Z.ltb_ge _ 18)), (proj2 (Z.ltb_ge LONG_MAX _)) by lia. cbn [orb].
  assert (host_fread src off (zlen m) = m) as -> by (unfold host_fread; by rewrite Z.min_l, Z.max_r by lia).
  by rewrite Z.eqb_refl.
Qed.
Lemma gzip_stored_roundtrip_witness :
  gu_gzip_decode_member ex_member_file 0 (zlen ex_member) = inr (str_bytes "guppy!").
Proof.
  apply (gzip_stored_roundtrip ex_member_file 0 (Some (str_bytes "f.txt")) [str_bytes "guppy"; str_bytes "!"]).
  - repeat constructor; try (vm_compute; discriminate); vm_compute; congruence.
  - discriminate.
  - vm_compute. reflexivity.
  - repeat constructor; vm_compute; discriminate.
  - ulia.
  - vm_compute. discriminate.
  - vm_compute. reflexivity.
Defined.
