(* ===== verification/PkgRepo.v ===== *)
(** * PkgRepo: the package repositories ([src/pkg_repo.c])

    The table of the packages that registered repositories offer: reading a
    [Packages] index into it, registering and removing a repository, and the
    two searches the planner makes.  The directory tree and the files of it are
    the arguments [readdir] and [open_path]; the decoder of xz streams is the
    argument [unxz]. *)
From S2P Require Import Prelude Text HostFile Gzip DebVersion DebDep.
#[local] Open Scope Z_scope.

(** ** The data *)

(** The text members of [pkg_repo_entry_t]. *)
Inductive repo_field : Type :=
| R_package | R_version | R_architecture | R_depends | R_pre_depends | R_provides
| R_conflicts | R_breaks | R_replaces | R_filename | R_sha256.
#[export] Instance repo_field_eq_dec : EqDecision repo_field.
Proof. solve_decision. Defined.

Record repo_entry : Type := RepoEntry {
  re_text : repo_field -> list Z; re_size : Z; re_index_path : list Z; re_repo_root : list Z;
}.
Definition entry_empty : repo_entry := RepoEntry (fun _ => []) 0 [] [].

(** [sizeof e->m] *)
Definition repo_cap (f : repo_field) : Z :=
  match f with
  | R_package | R_version => 128
  | R_architecture => 64
  | R_depends => 4096
  | R_pre_depends | R_provides | R_conflicts | R_breaks | R_replaces => 2048
  | R_filename => 768
  | R_sha256 => 65
  end.
(** The macro [F] over the names, in order. *)
Definition repo_names : list (list Z * repo_field) :=
  [(str_bytes "Package", R_package); (str_bytes "Version", R_version); (str_bytes "Architecture", R_architecture);
   (str_bytes "Depends", R_depends); (str_bytes "Pre-Depends", R_pre_depends); (str_bytes "Provides", R_provides);
   (str_bytes "Conflicts", R_conflicts); (str_bytes "Breaks", R_breaks); (str_bytes "Replaces", R_replaces);
   (str_bytes "Filename", R_filename); (str_bytes "SHA256", R_sha256)].

(** [g_entries] with [g_count], and [g_roots] with [g_root_count]. *)
Record repo : Type := Repo { rp_entries : list repo_entry; rp_roots : list (list Z) }.
Definition PKG_REPO_MAX : Z := 8.

(** ** Reading an index *)

(** The text [copytrim] leaves in a buffer of [cap] bytes. *)
Definition copytrim (cap : Z) (v : list Z) : list Z := cstr (trimcopy cap v).
Definition set_text (e : repo_entry) (f : repo_field) (t : list Z) : repo_entry :=
  RepoEntry (fun g => if decide (g = f) then t else re_text e g) (re_size e) (re_index_path e) (re_repo_root e).
Definition field (e : repo_entry) (k v : list Z) : repo_entry :=
  match find (fun kf => bool_decide (k = kf.1)) repo_names with
  | Some (_, f) => set_text e f (copytrim (repo_cap f) v)
  | None =>
      if streq k (str_bytes "Size") then RepoEntry (re_text e) (strtoull (copytrim 64 v)).1 (re_index_path e) (re_repo_root e)
      else e
  end.

Definition same_record (a b : repo_entry) (root : list Z) : bool :=
  streq (re_repo_root a) root && streq (re_text a R_package) (re_text b R_package) && streq (re_text a R_version) (re_text b R_version) &&
  streq (re_text a R_architecture) (re_text b R_architecture) && streq (re_text a R_filename) (re_text b R_filename).

Definition append_entry (e : repo_entry) (root index : list Z) (es : list repo_entry) : list repo_entry :=
  if streq (re_text e R_package) [] || streq (re_text e R_version) [] || streq (re_text e R_filename) [] then es
  else if existsb (fun a => same_record a e root) es then es
  else es ++ [RepoEntry (re_text e) (re_size e) (take 767 index) (take 511 root)].

(** The lines of a text; a last line without newline counts when it is not empty. *)
Fixpoint split_lines (s cur : list Z) : list (list Z) :=
  match s with
  | [] => match cur with [] => [] | _ => [cur] end
  | c :: s => if c =? 10 then cur :: split_lines s [] else split_lines s (cur ++ [c])
  end.
(** One line: the entry being read and the table. *)
Definition index_line (root path : list Z) (st : repo_entry * list repo_entry) (line : list Z) : repo_entry * list repo_entry :=
  let '(e, es) := st in
  let line := if bool_decide (last line = Some 13) then removelast line else line in
  match line with
  | [] => (entry_empty, append_entry e root path es)
  | c :: _ =>
      if (c =? 32) || (c =? 9) then (e, es) else
      match skip_while (fun c => negb (c =? 58)) line with
      | [] => (e, es)
      | _ :: v => (field e (take_while (fun c => negb (c =? 58)) line) v, es)
      end
  end.
Definition parse_index (buf root path : list Z) (es : list repo_entry) : list repo_entry :=
  let '(e, es) := foldl (index_line root path) (entry_empty, es) (split_lines buf []) in append_entry e root path es.

(** ** Registration *)

Definition ends (s x : list Z) : bool := (zlen x <=? zlen s) && streq (drop (length s - length x) s) x.
Fixpoint strstr (s pat : list Z) : bool := starts_with pat s || match s with [] => false | _ :: s => strstr s pat end.
(** [None] when the text does not fit in [n] bytes. *)
Definition join (n : Z) (a b : list Z) : option (list Z) :=
  let o := a ++ (match last a with Some c => if c =? 47 then [] else [47] | None => [] end) ++ b in
  if n <=? zlen o then None else Some o.

Definition VFS_DT_UNKNOWN : Z := 0.
Definition VFS_DT_DIR : Z := 4.

Section host.
(** The entries of a directory with their types, the files, and the xz decoder. *)
Context (readdir : list Z -> option (list (list Z * Z))) (open_path : list Z -> option hostfile) (unxz : hostfile -> option (list Z)).

Definition load_index (root path : list Z) (es : list repo_entry) : option (list repo_entry) :=
  match open_path path with
  | None => None
  | Some f =>
      let data :=
        if ends path (str_bytes ".xz") then unxz f
        else if ends path (str_bytes ".gz") then
          match gu_gzip_decode_member f 0 (hf_len f) with inr o => Some o | inl _ => None end
        else Some (host_fread f 0 (hf_len f)) in
      match data with Some buf => Some (parse_index buf root path es) | None => None end
  end.

Definition index_name (name : list Z) : bool :=
  streq name (str_bytes "Packages") || streq name (str_bytes "Packages.xz") || streq name (str_bytes "Packages.gz").
Definition index_path_ok (p : list Z) : bool :=
  (strstr p (str_bytes "/binary-amd64/Packages") || strstr p (str_bytes "/binary-all/Packages")) && negb (strstr p (str_bytes "/debian-installer/")).

(** [depth] counts down from 7 levels; [false] when the directory cannot be read.
    The state is the number of indexes found and the table. *)
Fixpoint scan_dir (depth : nat) (root path : list Z) (st : Z * list repo_entry) : bool * (Z * list repo_entry) :=
  match depth with
  | O => (true, st)
  | S depth =>
      match readdir path with
      | None => (false, st)
      | Some des =>
          (true, foldl (fun st de =>
             let '(name, type) := de in
             if streq name (str_bytes ".") || streq name (str_bytes "..") then st else
             match join 1024 path name with
             | None => st
             | Some p =>
                 if index_name name then
                   if index_path_ok p then
                     match load_index root p st.2 with Some es => (st.1 + 1, es) | None => st end
                   else st
                 else if (type =? VFS_DT_DIR) || (type =? VFS_DT_UNKNOWN) then (scan_dir depth root p st).2
                 else st
             end) st des)
      end
  end.

Definition root_index (r : repo) (root : list Z) : option nat := fst <$> list_find (fun x => x = root) (rp_roots r).

(** The number of packages added. *)
Definition pkg_repo_add (root : list Z) : comp repo Z := fun r =>
  if streq root [] then (Fail (-1), r) else
  match root_index r root with
  | Some _ => (Fail (-1), r)
  | None =>
      if PKG_REPO_MAX <=? zlen (rp_roots r) then (Fail (-1), r) else
      match join 768 root (str_bytes "dists") with
      | None => (Fail (-1), r)
      | Some dists =>
          let '(ok, (found, es)) := scan_dir 7 root dists (0, rp_entries r) in
          if negb ok || (found =? 0) then (Fail (-1), r)
          else (Done (zlen es - zlen (rp_entries r)), Repo es (rp_roots r ++ [take 511 root]))
      end
  end.
End host.

Definition pkg_repo_delete (spec : list Z) : comp repo unit := fun r =>
  if streq spec [] then (Fail (-1), r) else
  let '(n, rest) := strtoull spec in
  let idx := if streq rest [] && (1 <=? n) && (n <=? zlen (rp_roots r)) then Some (Z.to_nat n - 1)%nat else root_index r spec in
  match idx with
  | None => (Fail (-1), r)
  | Some i =>
      let root := nth i (rp_roots r) [] in
      (Done tt, Repo (filter (fun e => re_repo_root e <> root) (rp_entries r)) (delete i (rp_roots r)))
  end.

(** ** The searches *)

(** [deb_version_compare] and [deb_version_satisfies] answer on every pair of versions. *)
Definition version_compare (a b : list Z) : Z := default 0 (deb_version_compare a b).
Definition version_satisfies (have op want : list Z) : bool := default false (deb_version_satisfies have op want).

(** [if (!best || deb_version_compare(e->version, best->version) > 0) best = e;] *)
Definition better (e : repo_entry) (best : option repo_entry) : option repo_entry :=
  match best with
  | None => Some e
  | Some b => if 0 <? version_compare (re_text e R_version) (re_text b R_version) then Some e else best
  end.
(** A missing relation or version is the empty text. *)
Definition pkg_repo_find_best (r : repo) (name op ver : list Z) : option repo_entry :=
  foldl (fun best e =>
    if negb (streq (re_text e R_package) name) then best
    else if negb (version_satisfies (re_text e R_version) op ver) then best
    else better e best) None (rp_entries r).

(** [true] when the name is followed by the end of the item. *)
Definition item_end (s : list Z) : bool :=
  match s with [] => true | c :: _ => (c =? 44) || (c =? 32) || (c =? 9) || (c =? 40) end.
Definition item_space (c : Z) : bool := (c =? 32) || (c =? 9) || (c =? 44).
(** Every turn of the loop takes at least the comma. *)
Fixpoint provides_loop (fuel : nat) (s n : list Z) : bool :=
  match s, fuel with
  | [], _ | _, O => false
  | _, S fuel =>
      let s := skip_while item_space s in
      match after_prefix n s with
      | Some t => if item_end t then true else match strchr s 44 with Some (_, _ :: s) => provides_loop fuel s n | _ => false end
      | None => match strchr s 44 with Some (_, _ :: s) => provides_loop fuel s n | _ => false end
      end
  end.
Definition provides_name (s n : list Z) : bool := provides_loop (length s) s n.
Definition pkg_repo_find_provider (r : repo) (n : list Z) : option repo_entry :=
  foldl (fun best e => if provides_name (re_text e R_provides) n then better e best else best) None (rp_entries r).

(** ** The table *)

(** What makes a record one record. *)
Definition record_key (e : repo_entry) : list Z * list Z * list Z * list Z * list Z :=
  (re_repo_root e, re_text e R_package, re_text e R_version, re_text e R_architecture, re_text e R_filename).
Definition complete (e : repo_entry) : Prop := re_text e R_package <> [] /\ re_text e R_version <> [] /\ re_text e R_filename <> [].

Record repo_ok (r : repo) : Prop := RepoOk {
  ro_roots : NoDup (rp_roots r);
  ro_max : zlen (rp_roots r) <= PKG_REPO_MAX;
  ro_keys : NoDup (record_key <$> rp_entries r);
  ro_entries : Forall (fun e => complete e /\ re_repo_root e ∈ rp_roots r) (rp_entries r);
}.

(** The table [es'] is [es] followed by records of [root] alone, none of them twice. *)
Record grows (root : list Z) (es es' : list repo_entry) : Prop := Grows {
  gr_new : exists new, es' = es ++ new /\ Forall (fun e => complete e /\ re_repo_root e = root) new;
  gr_keys : NoDup (record_key <$> es) -> NoDup (record_key <$> es');
}.
#[export] Instance grows_preorder root : PreOrder (grows root).
Proof.
  split.
  - intros es. split; [exists []; by rewrite app_nil_r|done].
  - intros a b c [(n1 & -> & F1) K1] [(n2 & -> & F2) K2]. split; [|auto]. exists (n1 ++ n2). rewrite app_assoc. split; [done|]. by apply Forall_app.
Qed.

Lemma streq_true a b : streq a b = true <-> a = b.
Proof. unfold streq. apply bool_decide_eq_true. Qed.
Lemma streq_false a b : streq a b = false <-> a <> b.
Proof. unfold streq. apply bool_decide_eq_false. Qed.

Lemma same_record_key a e root index :
  same_record a e root = true <-> record_key a = record_key (RepoEntry (re_text e) (re_size e) index root).
Proof. unfold same_record, record_key. cbn. rewrite !andb_true_iff, !streq_true. intuition congruence. Qed.

Lemma append_entry_grows e root index es : zlen root < 512 -> grows root es (append_entry e root index es).
Proof.
  intros Hr. unfold append_entry. destruct (_ || _ || _) eqn:E; [done|]. rewrite !orb_false_iff, !streq_false in E. destruct E as [[E1 E2] E3].
  destruct (existsb _ _) eqn:Ex; [done|]. rewrite (take_ge root) by (unfold zlen in Hr; lia). split.
  - eexists. split; [done|]. by repeat constructor.
  - intros Hn. rewrite fmap_app. apply NoDup_app. split; [done|]. split; [|apply NoDup_singleton].
    intros k Hk Hk'. apply list_elem_of_singleton in Hk' as ->. apply list_elem_of_fmap in Hk as (a & Ha & Hin).
    assert (existsb (fun a => same_record a e root) es = true) as C; [|by rewrite C in Ex]. apply existsb_exists. exists a. split; [by apply list_elem_of_In|].
    by apply (same_record_key a e root (take 767 index)).
Qed.
Lemma index_line_grows root path st line : zlen root < 512 -> grows root st.2 (index_line root path st line).2.
Proof.
  intros Hr. destruct st as [e es]. unfold index_line. destruct (if bool_decide _ then _ else _) as [|c l]; [by apply append_entry_grows|].
  destruct (_ || _); [done|]. by destruct (skip_while _ _).
Qed.
Lemma parse_index_grows buf root path es : zlen root < 512 -> grows root es (parse_index buf root path es).
Proof.
  intros Hr. unfold parse_index. assert (forall ls st, grows root st.2 (foldl (index_line root path) st ls).2) as H.
  { induction ls as [|l ls IH]; intros st; simpl; [done|]. etransitivity; [by apply index_line_grows|apply IH]. }
  pose proof (H (split_lines buf []) (entry_empty, es)) as G. destruct (foldl _ _ _) as [e es']. cbn [snd] in G.
  etransitivity; [exact G|by apply append_entry_grows].
Qed.

Lemma filter_all {A} (P : A -> Prop) `{forall x, Decision (P x)} l : Forall P l -> filter P l = l.
Proof. induction 1 as [|x l Hx _ IH]; [done|]. by rewrite filter_cons_True, IH. Qed.
Lemma filter_none {A} (P : A -> Prop) `{forall x, Decision (P x)} l : Forall (fun x => ~ P x) l -> filter P l = [].
Proof. induction 1 as [|x l Hx _ IH]; [done|]. by rewrite filter_cons_False, IH. Qed.
Section host_facts.
Context (readdir : list Z -> option (list (list Z * Z))) (open_path : list Z -> option hostfile) (unxz : hostfile -> option (list Z)).

Lemma load_index_grows root path es es' : zlen root < 512 -> load_index open_path unxz root path es = Some es' -> grows root es es'.
Proof.
  intros Hr. unfold load_index. destruct (open_path path); [|done]. destruct (if ends path _ then _ else _); [|done]. intros [= <-]. by apply parse_index_grows.
Qed.
Lemma scan_dir_grows depth root path st : zlen root < 512 -> grows root st.2 (scan_dir readdir open_path unxz depth root path st).2.2.
Proof.
  intros Hr. revert path st. induction depth as [|depth IH]; intros path st; simpl; [done|]. destruct (readdir path) as [des|]; [|done]. cbn [snd].
  revert st. induction des as [|[name type] des IHd]; intros st; simpl; [done|]. etransitivity; [|apply IHd]. destruct (_ || _); [done|]. destruct (join _ _ _); [|done].
  destruct (index_name _).
  - destruct (index_path_ok _); [|done]. destruct (load_index _ _ _ _ _) eqn:E; [|done]. by eapply load_index_grows.
  - destruct (_ || _); [apply IH|done].
Qed.

Lemma root_index_spec r root : match root_index r root with Some i => rp_roots r !! i = Some root | None => root ∉ rp_roots r end.
Proof.
  unfold root_index. destruct (list_find _ _) as [[i x]|] eqn:E; simpl.
  - apply list_find_Some in E as (H & -> & _). done.
  - apply list_find_None in E. intros Hin. rewrite Forall_forall in E. by apply (E root).
Qed.

Lemma elem_of_delete {A} (l : list A) i x y : l !! i = Some y -> x ∈ l -> x <> y -> x ∈ delete i l.
Proof.
  intros Hi Hx Hn. rewrite <- (take_drop_middle l i y Hi) in Hx. rewrite delete_take_drop. apply elem_of_app in Hx as [Hx|Hx]; apply elem_of_app; [by left|].
  apply elem_of_cons in Hx as [->|Hx]; [done|by right].
Qed.
Lemma delete_entries_ok r i root : repo_ok r -> rp_roots r !! i = Some root ->
  repo_ok (Repo (filter (fun e => re_repo_root e <> root) (rp_entries r)) (delete i (rp_roots r))).
Proof.
  intros [H1 H2 H3 H4] Hi. pose proof (sublist_filter (fun e => re_repo_root e <> root) (rp_entries r)) as Hsub. split; cbn.
  - eapply sublist_NoDup; [done|apply sublist_delete].
  - pose proof (length_delete (rp_roots r) i). unfold zlen in *. rewrite H by (by eexists). lia.
  - eapply sublist_NoDup; [done|by apply (fmap_sublist record_key)].
  - apply Forall_forall. intros e [He Hin]%list_elem_of_filter. rewrite Forall_forall in H4. destruct (H4 e Hin) as [Hc Hr]. split; [done|]. by eapply elem_of_delete.
Qed.
Lemma delete_ok spec r r' : repo_ok r -> pkg_repo_delete spec r = (Done tt, r') -> repo_ok r'.
Proof.
  intros Hok. unfold pkg_repo_delete. destruct (streq spec []); [done|]. destruct (strtoull spec) as [n rest]. pose proof (root_index_spec r spec) as Hi.
  destruct (_ && _) eqn:E; [|destruct (root_index r spec) as [i|]; [|done]]; intros [= <-].
  - rewrite !andb_true_iff in E. destruct E as [[_ E1] E2]. destruct (lookup_lt_is_Some_2 (rp_roots r) (Z.to_nat n - 1)) as [x Hx]; [unfold zlen in *; lia|].
    rewrite (nth_lookup_Some _ _ _ _ Hx). by apply delete_entries_ok.
  - rewrite (nth_lookup_Some _ _ _ _ Hi). by apply delete_entries_ok.
Qed.
Lemma add_ok root r n r' : repo_ok r -> zlen root < 512 -> pkg_repo_add readdir open_path unxz root r = (Done n, r') ->
  repo_ok r' /\ root <> [] /\ (root ∉ rp_roots r) /\ rp_roots r' = rp_roots r ++ [root] /\
  exists new, rp_entries r' = rp_entries r ++ new /\ n = zlen new /\ Forall (fun e => re_repo_root e = root) new.
Proof.
  intros [H1 H2 H3 H4] Hr. unfold pkg_repo_add. destruct (streq root []) eqn:E0; [done|]. apply streq_false in E0. pose proof (root_index_spec r root) as Hi.
  destruct (root_index r root); [done|]. btest; [done|]. destruct (join _ _ _) as [dists|]; [|done].
  pose proof (scan_dir_grows 7 root dists (0, rp_entries r) Hr) as [(new & En & Fn) Hk]. destruct (scan_dir _ _ _ _ _ _ _) as [ok [found es]]. cbn [fst snd] in *. subst es.
  destruct (_ || _); [done|]. intros [= <- <-]. rewrite (take_ge root) by (unfold zlen in Hr; lia). split_and!; try done.
  - split; cbn; [apply NoDup_app; split; [done|]; split; [|apply NoDup_singleton]; by intros x Hx ->%list_elem_of_singleton| | by apply Hk|].
    + unfold PKG_REPO_MAX in *. rewrite zlen_app. change (zlen [root]) with 1. lia.
    + apply Forall_app. split; (eapply Forall_impl; [done|]); intros e [Hc He]; (split; [done|]); apply elem_of_app; [by left|right; subst root; by apply list_elem_of_singleton].
  - exists new. split; [done|]. split; [rewrite zlen_app; lia|]. eapply Forall_impl; [exact Fn|]. by intros e [_ He].
Qed.

(** C27: a repository that is registered adds records of its own only, complete and none of them twice,
    and keeps the table in order; removing it under its root gives back the table as it was. *)
Theorem pkg_repo_add_delete root r n r' :
  repo_ok r -> zlen root < 512 -> (strtoull root).2 <> [] -> pkg_repo_add readdir open_path unxz root r = (Done n, r') ->
  repo_ok r' /\ (exists new, rp_entries r' = rp_entries r ++ new /\ n = zlen new /\ Forall (fun e => re_repo_root e = root) new) /\
  pkg_repo_delete root r' = (Done tt, r).
Proof.
  intros Hok Hr Hn Ha. destruct (add_ok root r n r' Hok Hr Ha) as (Hok' & Hne & Hni & Er & new & En & Ez & Fn). split; [done|]. split; [by exists new|].
  unfold pkg_repo_delete. rewrite (proj2 (streq_false _ _)) by done. destruct (strtoull root) as [k rest]. cbn [snd] in Hn. rewrite (proj2 (streq_false _ _)) by done. cbn [andb].
  pose proof (root_index_spec r' root) as Hi. destruct (root_index r' root) as [i|]; [|exfalso; apply Hi; rewrite Er; apply elem_of_app; right; by apply list_elem_of_singleton].
  assert (i = length (rp_roots r)) as ->.
  { rewrite Er in Hi. apply lookup_app_Some in Hi as [Hi|[Hl Hi]]; [exfalso; apply Hni; by eapply list_elem_of_lookup_2|]. apply list_lookup_singleton_Some in Hi as [Hi _]. lia. }
  rewrite (nth_lookup_Some _ _ _ _ Hi), Er, En. f_equal. destruct r as [es roots]. cbn in *. f_equal.
  - rewrite filter_app. rewrite (filter_none (fun e => re_repo_root e <> root) new) by (eapply Forall_impl; [done|]; intros e ->; tauto).
    rewrite app_nil_r. apply filter_all. apply Forall_forall. intros e He <-. apply Hni. destruct Hok as [_ _ _ H4]. rewrite Forall_forall in H4. by apply H4.
  - by rewrite delete_middle, app_nil_r.
Qed.
End host_facts.

(** A tree with one index of two packages. *)
Definition ex_index : list Z :=
  str_bytes "Package: tool" ++ [10] ++ str_bytes "Version: 1.0" ++ [10] ++ str_bytes "Depends: lib (>= 2)" ++ [10] ++
  str_bytes "Filename: pool/tool.deb" ++ [10; 10] ++
  str_bytes "Package: lib" ++ [10] ++ str_bytes "Version: 2.1" ++ [13; 10] ++ str_bytes "Filename: pool/lib.deb" ++ [10].
Definition ex_readdir (p : list Z) : option (list (list Z * Z)) :=
  if streq p (str_bytes "/r/dists") then Some [(str_bytes ".", 4); (str_bytes "binary-amd64", 4)]
  else if streq p (str_bytes "/r/dists/binary-amd64") then Some [(str_bytes "Packages", 8)] else None.
Definition ex_open (p : list Z) : option hostfile := Some (HostFile (zlen ex_index) (zlen ex_index) true (fun i => bget ex_index i)).
Definition ex_repo : repo := Eval vm_compute in (pkg_repo_add ex_readdir ex_open (fun _ => None) (str_bytes "/r") (Repo [] [])).2.
Lemma pkg_repo_add_delete_witness :
  pkg_repo_add ex_readdir ex_open (fun _ => None) (str_bytes "/r") (Repo [] []) = (Done 2, ex_repo) /\
  repo_ok ex_repo /\ pkg_repo_delete (str_bytes "/r") ex_repo = (Done tt, Repo [] []).
Proof.
  assert (pkg_repo_add ex_readdir ex_open (fun _ => None) (str_bytes "/r") (Repo [] []) = (Done 2, ex_repo)) as E by (vm_compute; reflexivity).
  split; [exact E|]. destruct (pkg_repo_add_delete ex_readdir ex_open (fun _ => None) (str_bytes "/r") (Repo [] []) 2 ex_repo) as (H1 & _ & H2);
    [split; [constructor|vm_compute; congruence|constructor|constructor]|by vm_compute|vm_compute; congruence|exact E|by split].
Defined.

(** ** The searches *)

Definition versions_ok (es : list repo_entry) : Prop := Forall (fun e => Forall char_ok (re_text e R_version)) es.

Lemma version_compare_antisym a b : Forall char_ok a -> Forall char_ok b -> version_compare b a = - version_compare a b.
Proof.
  intros Ha Hb. unfold version_compare. rewrite !deb_version_compare_ok by done. rewrite (version_lex_antisym (version_key a)). by destruct (version_lex _ _).
Qed.
Lemma version_compare_le a b c : Forall char_ok a -> Forall char_ok b -> Forall char_ok c ->
  version_compare a b <= 0 -> version_compare b c <= 0 -> version_compare a c <= 0.
Proof.
  intros Ha Hb Hc. unfold version_compare. rewrite !deb_version_compare_ok by done. cbn [default]. pose proof (version_lex_trans (version_key a) (version_key b) (version_key c)) as T.
  destruct (version_lex (version_key a) (version_key b)), (version_lex (version_key b) (version_key c)), (version_lex (version_key a) (version_key c)); cbn; try lia; intros; exfalso; by apply T.
Qed.

(** [b] is the first of the entries chosen by [q] whose version no other exceeds. *)
Definition best_of (q : repo_entry -> bool) (es : list repo_entry) (best : option repo_entry) : Prop :=
  match best with
  | None => forall e, e ∈ es -> q e = false
  | Some b => exists i, es !! i = Some b /\ q b = true /\
      forall j e, es !! j = Some e -> q e = true -> version_compare (re_text e R_version) (re_text b R_version) <= 0 /\
        ((j < i)%nat -> version_compare (re_text e R_version) (re_text b R_version) < 0)
  end.
Lemma best_of_fold q es : versions_ok es -> best_of q es (foldl (fun best e => if q e then better e best else best) None es).
Proof.
  induction es as [|x es IH] using rev_ind; [by intros _ e ?%elem_of_nil|]. intros [Hes Hx]%Forall_app. apply (Forall_singleton _ x) in Hx. specialize (IH Hes).
  assert (forall j e, (es ++ [x]) !! j = Some e -> es !! j = Some e /\ (j < length es)%nat \/ j = length es /\ e = x) as Hcase.
  { intros j e Hj. destruct (decide (j < length es)%nat) as [Hl|Hl]; [left; by rewrite lookup_app_l in Hj|right]. rewrite lookup_app_r in Hj by lia.
    apply list_lookup_singleton_Some in Hj as [Hj ->]. split; [lia|done]. }
  rewrite foldl_snoc. destruct (foldl _ _ _) as [b|]; cbn [best_of better] in *.
  - destruct IH as (i & Hi & Hq & Hb). pose proof (lookup_lt_Some _ _ _ Hi) as Hil. assert (Forall char_ok (re_text b R_version)) as Hbv by (unfold versions_ok in Hes; rewrite Forall_lookup in Hes; by eapply Hes).
    destruct (q x) eqn:Ex; [destruct (Z.ltb_spec 0 (version_compare (re_text x R_version) (re_text b R_version))) as [Hlt|Hge]|].
    + exists (length es). split; [by rewrite lookup_app_r, Nat.sub_diag by lia|]. split; [done|]. intros j e [[Hj Hl]|[-> ->]]%Hcase He.
      * destruct (Hb j e Hj He) as [Hle _]. assert (Forall char_ok (re_text e R_version)) as Hev by (unfold versions_ok in Hes; rewrite Forall_lookup in Hes; by eapply Hes).
        pose proof (version_compare_antisym _ _ Hx Hbv) as A1. pose proof (version_compare_antisym _ _ Hx Hev) as A2.
        pose proof (version_compare_le _ _ _ Hev Hbv Hx Hle ltac:(lia)) as L1. pose proof (version_compare_le _ _ _ Hx Hev Hbv) as L2. lia.
      * pose proof (version_compare_antisym _ _ Hx Hx). lia.
    + exists i. split; [by rewrite lookup_app_l|]. split; [done|]. intros j e [[Hj Hl]|[-> ->]]%Hcase He; [by apply Hb|]. split; lia.
    + exists i. split; [by rewrite lookup_app_l|]. split; [done|]. intros j e [[Hj Hl]|[-> ->]]%Hcase He; [by apply Hb|congruence].
  - destruct (q x) eqn:Ex.
    + exists (length es). split; [by rewrite lookup_app_r, Nat.sub_diag by lia|]. split; [done|]. intros j e [[Hj Hl]|[-> ->]]%Hcase He.
      * apply list_elem_of_lookup_2 in Hj. by rewrite (IH e Hj) in He.
      * pose proof (version_compare_antisym _ _ Hx Hx). lia.
    + intros e [He|He]%elem_of_app; [by apply IH|]. by apply list_elem_of_singleton in He as ->.
Qed.

Definition matches (name op ver : list Z) (e : repo_entry) : bool :=
  streq (re_text e R_package) name && version_satisfies (re_text e R_version) op ver.

(** C28: the search for a package finds one exactly when some record has the name and a version the
    relation accepts; it is the first of the records with the highest such version. *)
Theorem pkg_repo_find_best_correct r name op ver :
  versions_ok (rp_entries r) -> best_of (matches name op ver) (rp_entries r) (pkg_repo_find_best r name op ver).
Proof.
  intros Hv. assert (pkg_repo_find_best r name op ver = foldl (fun best e => if matches name op ver e then better e best else best) None (rp_entries r)) as ->; [|by apply best_of_fold].
  clear Hv. unfold pkg_repo_find_best. generalize (@None repo_entry). induction (rp_entries r) as [|e es IH]; intros b; simpl; [done|]. unfold matches. destruct (streq _ _), (version_satisfies _ _ _); cbn [negb andb]; apply IH.
Qed.
Lemma pkg_repo_find_best_correct_witness :
  best_of (matches (str_bytes "lib") (str_bytes ">=") (str_bytes "2")) (rp_entries ex_repo) (rp_entries ex_repo !! 1%nat).
Proof.
  assert (versions_ok (rp_entries ex_repo)) as H by (repeat constructor; vm_compute; congruence).
  exact (pkg_repo_find_best_correct ex_repo (str_bytes "lib") (str_bytes ">=") (str_bytes "2") H).
Defined.
(** The provider of a virtual name, likewise. *)
Lemma pkg_repo_find_provider_best r n :
  versions_ok (rp_entries r) -> best_of (fun e => provides_name (re_text e R_provides) n) (rp_entries r) (pkg_repo_find_provider r n).
Proof. apply best_of_fold. Qed.
