(* ===== verification/PkgState.v ===== *)
(** * PkgState: the status file of a target ([src/pkg_state.c])

    The registry of installed packages is a text of paragraphs separated by
    empty lines.  [None] is a status file that cannot be read; [vfs_store] is
    what writing the file back does. *)
From S2P Require Import Prelude Text DebDep HostFile PkgRepo.
#[local] Open Scope Z_scope.

(** ** The code *)

Record state_entry : Type := StateEntry { st_package : list Z; st_version : list Z; st_state : list Z }.
Definition state_empty : state_entry := StateEntry [] [] [].

Definition cp (cap : Z) (v : list Z) : list Z := cstr (trimcopy cap v).

Definition para_line (e : state_entry) (line : list Z) : state_entry :=
  match skip_while (fun c => negb (c =? 58)) line with
  | [] => e
  | _ :: v =>
      let k := take_while (fun c => negb (c =? 58)) line in
      if streq k (str_bytes "Package") then StateEntry (cp 128 v) (st_version e) (st_state e)
      else if streq k (str_bytes "Version") then StateEntry (st_package e) (cp 128 v) (st_state e)
      else if streq k (str_bytes "Status") then StateEntry (st_package e) (st_version e) (cp 64 v)
      else e
  end.
Definition parse_para (p : list Z) : state_entry := foldl para_line state_empty (split_lines p []).

(** The paragraphs, each with whether an empty line follows it ([strstr(p, "\n\n")]). *)
Fixpoint split_paras (s cur : list Z) : list (list Z * bool) :=
  match s with
  | [] => match cur with [] => [] | _ => [(cur, false)] end
  | c :: t =>
      if c =? 10 then
        match t with
        | d :: u => if d =? 10 then (cur, true) :: split_paras u [] else split_paras t (cur ++ [c])
        | [] => split_paras t (cur ++ [c])
        end
      else split_paras t (cur ++ [c])
  end.

(** [inl] is the failure code. *)
Definition pkg_state_lookup (status : option (list Z)) (pkg : list Z) : Z + state_entry :=
  match status with
  | None => inl (-1)
  | Some b =>
      match find (fun e => streq (st_package e) pkg) ((fun pq => parse_para pq.1) <$> split_paras b []) with
      | Some e => inr e
      | None => inl 1
      end
  end.

(** [if (used == 0 || out[used - 1] != '\n') out[used++] = '\n';] *)
Definition put_nl (out : list Z) : list Z := if bool_decide (last out = Some 10) then out else out ++ [10].
Definition replacement : list Z := str_bytes "Status: install ok installed" ++ [10].
Definition status_line (line : list Z) (nl : bool) : list Z :=
  if starts_with (str_bytes "Status:") line then replacement else line ++ (if nl then [10] else []).
(** The lines of a paragraph of the package. *)
Fixpoint set_lines (s cur : list Z) : list Z :=
  match s with
  | [] => match cur with [] => [] | _ => status_line cur false end
  | c :: s => if c =? 10 then status_line cur true ++ set_lines s [] else set_lines s (cur ++ [c])
  end.
Definition para_step (package : list Z) (st : bool * list Z) (pq : list Z * bool) : bool * list Z :=
  let '(found, out) := st in
  let '(p, q) := pq in
  let hit := streq (st_package (parse_para p)) package in
  let out := if hit then out ++ set_lines p [] else put_nl (out ++ p) in
  (found || hit, if q : bool then put_nl out ++ [10] else out).
Definition set_installed_text (package b : list Z) : bool * list Z := foldl (para_step package) (false, []) (split_paras b []).

Section store.
(** Whether the text was stored, and what the file holds then. *)
Context (vfs_store : list Z -> bool * option (list Z)).
Definition pkg_state_set_installed (package : list Z) : comp (option (list Z)) unit := fun status =>
  match status with
  | None => (Fail (-1), status)
  | Some b =>
      let '(found, out) := set_installed_text package b in
      if negb found then (Fail 1, status) else
      let '(ok, status) := vfs_store out in (if ok : bool then Done tt else Fail (-1), status)
  end.
End store.

(** ** Paragraphs as texts *)

(** No empty line inside. *)
Fixpoint no_double (s : list Z) : bool :=
  match s with
  | c :: t => negb ((c =? 10) && match t with d :: _ => d =? 10 | [] => false end) && no_double t
  | [] => true
  end.
Definition starts_nl (s : list Z) : bool := match s with c :: _ => c =? 10 | [] => false end.

Lemma no_double_app a b : no_double (a ++ 10 :: b) = no_double (a ++ [10]) && negb (starts_nl b) && no_double b.
Proof.
  induction a as [|c a IH]; [destruct b as [|d b]; simpl; [done|]; by destruct (d =? 10)|]. cbn [app no_double]. rewrite IH. destruct a; cbn [app]; by rewrite !andb_assoc.
Qed.
Lemma no_double_plain a b : Forall (fun c => c <> 10) a -> no_double (a ++ b) = no_double b.
Proof. induction 1 as [|c a Hc _ IH]; [done|]. simpl. by rewrite (proj2 (Z.eqb_neq _ _) Hc), IH. Qed.

Lemma split_paras_single s cur : no_double s = true -> split_paras s cur = match cur ++ s with [] => [] | p => [(p, false)] end.
Proof.
  revert cur. induction s as [|c s IH]; intros cur; simpl; [rewrite app_nil_r; by destruct cur|]. rewrite andb_true_iff, negb_true_iff. intros [H1 H2].
  rewrite (IH (cur ++ [c])), <- app_assoc by done. destruct (c =? 10); [|done]. destruct s as [|d s]; [done|]. cbn in H1. by rewrite H1.
Qed.
Lemma split_paras_app p cur rest : no_double (p ++ [10]) = true ->
  split_paras (p ++ 10 :: 10 :: rest) cur = (cur ++ p, true) :: split_paras rest [].
Proof.
  revert cur. induction p as [|c p IH]; intros cur; [by rewrite app_nil_r|]. cbn [app no_double split_paras]. rewrite andb_true_iff, negb_true_iff. intros [H1 H2].
  rewrite (IH (cur ++ [c])), <- app_assoc by done. destruct (c =? 10); [|done]. destruct p as [|d p]; [done|]. cbn in *. by rewrite H1.
Qed.
Lemma first_para s : no_double s = true \/ exists p rest, s = p ++ 10 :: 10 :: rest /\ no_double (p ++ [10]) = true.
Proof.
  induction s as [|c s IH]; [by left|]. simpl. destruct ((c =? 10) && _) eqn:E.
  - right. destruct s as [|d s]; rewrite andb_true_iff in E; [by destruct E|]. destruct E as [E1%Z.eqb_eq E2%Z.eqb_eq]. subst. by exists [], s.
  - destruct IH as [->|(p & rest & -> & Hp)]; [by left|]. right. exists (c :: p), rest. split; [done|]. cbn [app no_double]. rewrite Hp, andb_true_r, negb_true_iff.
    rewrite <- E. by destruct p.
Qed.

(** ** Lines *)

Lemma split_lines_plain a s cur : Forall (fun c => c <> 10) a -> split_lines (a ++ s) cur = split_lines s (cur ++ a).
Proof.
  intros Ha. revert cur. induction Ha as [|c a Hc _ IH]; intros cur; simpl; [by rewrite app_nil_r|]. by rewrite (proj2 (Z.eqb_neq _ _) Hc), IH, <- app_assoc.
Qed.
Lemma split_lines_nl s cur : last (cur ++ s) <> None -> last s <> Some 10 -> split_lines (s ++ [10]) cur = split_lines s cur.
Proof.
  revert cur. induction s as [|c s IH]; intros cur; simpl; [rewrite app_nil_r; by destruct cur|]. intros Hn Hl.
  assert (last (c :: s) <> Some 10 -> s = [] /\ c <> 10 \/ s <> [] /\ last s <> Some 10) as Hs by (destruct s; cbn; [left; split; congruence|by right]).
  destruct (Hs Hl) as [[-> Hc]|[Hne Hl']].
  - simpl. rewrite (proj2 (Z.eqb_neq _ _) Hc). by destruct cur.
  - destruct (c =? 10); [rewrite IH; [done| |done]|rewrite IH; [done| |done]]; cbn [app]; rewrite ?last_None; solve [by destruct s|by destruct cur].
Qed.
Definition repl (line : list Z) : list Z := if starts_with (str_bytes "Status:") line then str_bytes "Status: install ok installed" else line.
Lemma split_lines_set s cur : Forall (fun c => c <> 10) cur -> split_lines (set_lines s cur) [] = repl <$> split_lines s cur.
Proof.
  revert cur. induction s as [|c s IH]; intros cur Hcur; simpl.
  - destruct cur as [|x cur]; [done|]. unfold status_line, repl. cbn [fmap list_fmap]. destruct (starts_with _ _); [done|]. rewrite app_nil_r. pose proof (split_lines_plain (x :: cur) [] [] Hcur) as E. rewrite app_nil_r in E. by rewrite E.
  - destruct (Z.eqb_spec c 10) as [->|Hc]; [|apply IH; apply Forall_app; by split; [|constructor]]. cbn [fmap list_fmap]. rewrite <- (IH []) by done. unfold status_line, repl.
    destruct (starts_with _ _); [reflexivity|]. by rewrite <- app_assoc, split_lines_plain.
Qed.
Lemma set_lines_start s cur : starts_nl (cur ++ s) = false -> starts_nl (set_lines s cur) = false.
Proof.
  revert cur. induction s as [|c s IH]; intros cur; simpl.
  - rewrite app_nil_r. destruct cur as [|x cur]; [done|]. unfold status_line. by destruct (starts_with _ _).
  - intros Hs. destruct (Z.eqb_spec c 10) as [->|Hc]; [|apply IH; by rewrite <- app_assoc]. destruct cur as [|x cur]; [done|]. unfold status_line. by destruct (starts_with _ _).
Qed.
Lemma no_double_set s cur : Forall (fun c => c <> 10) cur -> no_double (cur ++ s) = true -> no_double (set_lines s cur) = true.
Proof.
  revert cur. induction s as [|c s IH]; intros cur Hcur; simpl.
  - destruct cur as [|x cur]; [done|]. unfold status_line. destruct (starts_with _ _); [done|]. by rewrite !app_nil_r.
  - destruct (Z.eqb_spec c 10) as [->|Hc]; [|intros H; apply IH; [apply Forall_app; by split; [|constructor]|by rewrite <- app_assoc]].
    rewrite no_double_app, !andb_true_iff, negb_true_iff. intros [[H1 H2] H3].
    assert (forall l, no_double (l ++ [10]) = true -> no_double ((l ++ [10]) ++ set_lines s []) = true) as H.
    { intros l Hl. rewrite <- app_assoc. cbn [app]. rewrite no_double_app, Hl, (IH []), (set_lines_start s []) by done. done. }
    unfold status_line. destruct (starts_with _ _); by apply H.
Qed.

(** ** The registry a text stands for *)

Definition view (s : list Z) : list state_entry := filter (fun e => st_package e <> []) (parse_para <$> (split_paras s []).*1).

Lemma split_paras_one s : no_double s = true -> split_paras s [] = match s with [] => [] | _ => [(s, false)] end.
Proof. intros H. rewrite split_paras_single by done. by destruct s. Qed.
Lemma view_single s : no_double s = true -> view s = filter (fun e => st_package e <> []) [parse_para s].
Proof. intros H. unfold view. rewrite split_paras_one by done. by destruct s. Qed.
Lemma view_app p rest : no_double (p ++ [10]) = true -> view (p ++ 10 :: 10 :: rest) = filter (fun e => st_package e <> []) [parse_para p] ++ view rest.
Proof. intros H. unfold view. rewrite split_paras_app by done. by rewrite <- filter_app. Qed.

(** An empty line more at the start of a paragraph, or a newline at its end, does not matter. *)
Lemma parse_para_start p : parse_para (10 :: p) = parse_para p.
Proof. done. Qed.
Lemma parse_para_end p : last p <> Some 10 -> parse_para (p ++ [10]) = parse_para p.
Proof. intros H. destruct p as [|c p]; [done|]. unfold parse_para. rewrite split_lines_nl; [done| |done]. rewrite last_None. done. Qed.
Lemma no_double_10 c s : c <> 10 -> no_double (10 :: c :: s) = no_double (c :: s).
Proof. intros Hc. cbn. by rewrite (proj2 (Z.eqb_neq _ _) Hc). Qed.
Lemma view_start s : view (10 :: s) = view s.
Proof.
  induction s as [s IH] using (induction_ltof1 _ (@length Z)); unfold ltof in IH. destruct s as [|c s]; [done|]. destruct (Z.eqb_spec c 10) as [->|Hc].
  - rewrite (IH s) by (simpl; lia). apply (view_app [] s eq_refl).
  - destruct (first_para (c :: s)) as [H|(p & rest & E & Hp)].
    + rewrite (view_single (c :: s)) by done. rewrite view_single by (by rewrite no_double_10). by rewrite parse_para_start.
    + destruct p as [|d p]; [by injection E|]. assert (d = c) as -> by (by injection E). rewrite E.
      change (view ((10 :: c :: p) ++ 10 :: 10 :: rest) = view ((c :: p) ++ 10 :: 10 :: rest)).
      rewrite (view_app (c :: p)), (view_app (10 :: c :: p)); [by rewrite parse_para_start|by cbn [app]; rewrite no_double_10|done].
Qed.

(** What setting the state does to an entry. *)
Definition marked (package : list Z) (e e' : state_entry) : Prop :=
  st_package e' = st_package e /\ st_version e' = st_version e /\
  (st_package e <> package -> st_state e' = st_state e) /\
  (st_package e = package -> st_state e <> [] -> st_state e' = str_bytes "install ok installed").

(** The states so far, without and with the change. *)
Definition near (e e' : state_entry) : Prop :=
  st_package e' = st_package e /\ st_version e' = st_version e /\
  (st_state e' = str_bytes "install ok installed" \/ st_state e = [] /\ st_state e' = []).
Lemma near_line e e' l : near e e' -> near (para_line e l) (para_line e' (repl l)).
Proof.
  intros (H1 & H2 & H3). unfold repl. destruct (starts_with _ _) eqn:E.
  - unfold starts_with in E. apply bool_decide_eq_true in E as [r ->%after_prefix_inv]. change (near (StateEntry (st_package e) (st_version e) (cp 64 r)) (StateEntry (st_package e') (st_version e') (str_bytes "install ok installed"))).
    repeat split; [done|done|by left].
  - unfold para_line. pose proof (take_skip_while (fun c => negb (c =? 58)) l) as Hl. destruct (skip_while _ l) as [|x v] eqn:Es; [done|].
    assert (x = 58) as -> by (pose proof (skip_while_head _ l x v Es) as Hx; cbn in Hx; btests).
    destruct (streq _ (str_bytes "Package")); [by repeat split|]. destruct (streq _ (str_bytes "Version")); [by repeat split|].
    destruct (streq _ (str_bytes "Status")) eqn:Ek; [|by repeat split]. apply streq_true in Ek. rewrite Ek in Hl. subst l. done.
Qed.
Lemma parse_para_set p : near (parse_para p) (parse_para (set_lines p [])).
Proof.
  unfold parse_para. rewrite split_lines_set by done. assert (forall ls e e', near e e' -> near (foldl para_line e ls) (foldl para_line e' (repl <$> ls))) as H.
  { induction ls as [|l ls IH]; intros e e' He; [done|]. cbn. by apply IH, near_line. }
  apply H. repeat split. by right.
Qed.

(** ** Setting a package installed *)

Lemma no_double_last s : no_double (s ++ [10]) = true <-> no_double s = true /\ last s <> Some 10.
Proof.
  induction s as [|c s IH]; [done|]. cbn [app no_double]. rewrite !andb_true_iff, IH, !negb_true_iff. destruct s as [|d s]; cbn [app last].
  - destruct (Z.eqb_spec c 10); cbn; intuition congruence.
  - tauto.
Qed.
Lemma put_nl_app out s : s <> [] -> put_nl (out ++ s) = out ++ put_nl s.
Proof. intros H. unfold put_nl. destruct s as [|c s _] using rev_ind; [done|]. rewrite app_assoc, !last_snoc. repeat case_bool_decide; try done; by rewrite <- !app_assoc. Qed.
Lemma put_nl_last s : last (put_nl s) = Some 10.
Proof. unfold put_nl. destruct (bool_decide_reflect (last s = Some 10)); [done|]. apply last_snoc. Qed.
Lemma put_nl_id s : last s = Some 10 -> put_nl s = s.
Proof. intros H. unfold put_nl. by rewrite bool_decide_eq_true_2. Qed.
(** A paragraph with its last newline. *)
Lemma put_nl_para s : no_double s = true -> s <> [] -> exists p, put_nl s = p ++ [10] /\ no_double (p ++ [10]) = true /\ parse_para p = parse_para s.
Proof.
  intros H Hne. unfold put_nl. destruct (bool_decide_reflect (last s = Some 10)) as [Hl|Hl].
  - apply last_Some in Hl as [p ->]. exists p. split; [done|]. split; [done|]. symmetry. apply parse_para_end. by apply no_double_last.
  - exists s. split; [done|]. by rewrite no_double_last.
Qed.

Lemma near_marked package e e' : near e e' -> st_package e = package -> marked package e e'.
Proof. intros (H1 & H2 & H3) Hp. split_and!; try done. destruct H3 as [->|[-> _]]; [|done]. by intros _ _. Qed.
Lemma marked_same package e : st_package e <> package -> marked package e e.
Proof. by repeat split. Qed.
Lemma marked_filter package e e' : marked package e e' ->
  Forall2 (marked package) (filter (fun e => st_package e <> []) [e]) (filter (fun e => st_package e <> []) [e']).
Proof. intros He. rewrite !filter_cons, !filter_nil. pose proof (proj1 He) as ->. destruct (decide _); repeat apply Forall2_cons_2; done || constructor. Qed.
Lemma existsb_filter package es : package <> [] ->
  existsb (fun e => streq (st_package e) package) (filter (fun e => st_package e <> []) es) = existsb (fun e => streq (st_package e) package) es.
Proof.
  intros Hp. induction es as [|e es IH]; [done|]. rewrite filter_cons. cbn [existsb]. rewrite <- IH. destruct (decide _) as [|Hn]; [done|].
  rewrite (proj2 (streq_false _ _)); [done|]. apply dec_stable in Hn. congruence.
Qed.

(** One paragraph that is not empty: what is put for it is a paragraph again. *)
Definition para_out (package p : list Z) : list Z := if streq (st_package (parse_para p)) package then set_lines p [] else p.
Lemma set_lines_nonempty s : s <> [] -> set_lines s [] <> [].
Proof.
  assert (forall s cur, cur ++ s <> [] -> set_lines s cur <> []) as H; [|apply (H s [])]. clear s. induction s as [|c s IH]; intros cur; cbn [set_lines].
  - rewrite app_nil_r. destruct cur as [|x cur]; [done|]. intros _. unfold status_line. by destruct (starts_with _ _).
  - intros _. destruct (c =? 10); [|apply IH; by destruct cur]. unfold status_line. destruct (starts_with _ _); [done|]. by destruct cur.
Qed.
Lemma para_out_facts package p : no_double p = true -> p <> [] ->
  no_double (para_out package p) = true /\ para_out package p <> [] /\ marked package (parse_para p) (parse_para (para_out package p)).
Proof.
  intros H Hne. unfold para_out. destruct (streq _ _) eqn:E.
  - apply streq_true in E. split_and!; [by apply no_double_set|by apply set_lines_nonempty|]. apply near_marked; [apply parse_para_set|done].
  - apply streq_false in E. split_and!; [done|done|]. by apply marked_same.
Qed.
Lemma para_step_out package f out p q : p <> [] ->
  para_step package (f, out) (p, q) = (f || streq (st_package (parse_para p)) package,
    if q then out ++ put_nl (para_out package p) ++ [10]
    else out ++ (if streq (st_package (parse_para p)) package then set_lines p [] else put_nl p)).
Proof.
  intros Hne. unfold para_step, para_out. f_equal. destruct (streq _ _).
  - destruct q; [|done]. by rewrite put_nl_app, app_assoc by (by apply set_lines_nonempty).
  - rewrite put_nl_app by done. destruct q; [|done]. rewrite (put_nl_id (out ++ put_nl p)) by (rewrite last_app, put_nl_last; done). by rewrite app_assoc.
Qed.
Lemma para_step_empty package f out : package <> [] -> out = [] \/ last out = Some 10 ->
  para_step package (f, out) ([], true) = (f, out ++ (if decide (out = []) then [10; 10] else [10])).
Proof.
  intros Hp Ho. unfold para_step. change (st_package (parse_para [])) with (@nil Z). rewrite (proj2 (streq_false _ _)) by done. rewrite orb_false_r, app_nil_r. f_equal.
  destruct Ho as [->|Ho]; [done|]. rewrite !put_nl_id by (rewrite ?put_nl_id; done). destruct (decide _) as [->|]; done.
Qed.

Lemma set_installed_view package : package <> [] -> forall s f out, out = [] \/ last out = Some 10 ->
  exists r, foldl (para_step package) (f, out) (split_paras s []) = (f || existsb (fun e => streq (st_package e) package) (view s), out ++ r) /\
    Forall2 (marked package) (view s) (view r).
Proof.
  intros Hp. induction s as [s IH] using (induction_ltof1 _ (@length Z)); unfold ltof in IH. intros f out Ho. destruct (first_para s) as [H|(p & rest & -> & H)].
  - rewrite split_paras_one, view_single by done. destruct s as [|c s]; [exists []; by rewrite orb_false_r, app_nil_r|]. set (p := c :: s) in *. cbn [foldl].
    rewrite para_step_out by done. destruct (para_out_facts package p H ltac:(done)) as (H1 & H2 & H3). rewrite (existsb_filter package [_]) by done. cbn [existsb]. rewrite orb_false_r.
    eexists. split; [reflexivity|]. unfold para_out in *. destruct (streq _ _).
    + rewrite view_single by done. by apply marked_filter.
    + destruct (put_nl_para p H ltac:(done)) as (p' & -> & H4 & H5). rewrite view_single by done. rewrite parse_para_end by (by apply no_double_last). rewrite H5. by apply marked_filter.
  - rewrite split_paras_app, view_app by done. cbn [app foldl]. destruct p as [|c p].
    + rewrite para_step_empty by done. destruct (IH rest ltac:(simpl; lia) f (out ++ (if decide (out = []) then [10; 10] else [10]))) as (r & -> & Hr).
      { right. rewrite last_app. by destruct (decide _). }
      exists ((if decide (out = []) then [10; 10] else [10]) ++ r). rewrite app_assoc. split; [done|]. by destruct (decide _); cbn [app]; rewrite !view_start.
    + set (q := c :: p) in *. rewrite para_step_out by done. apply no_double_last in H as [H Hl]. destruct (para_out_facts package q H ltac:(done)) as (H1 & H2 & H3).
      destruct (put_nl_para _ H1 H2) as (p' & -> & H4 & H5).
      destruct (IH rest ltac:(rewrite length_app; simpl; lia) (f || streq (st_package (parse_para q)) package) (out ++ (p' ++ [10]) ++ [10])) as (r & -> & Hr).
      { right. by rewrite app_assoc, last_snoc. }
      exists (p' ++ 10 :: 10 :: r). rewrite view_app by done. split.
      * rewrite existsb_app, (existsb_filter package [_]) by done. cbn [existsb]. rewrite orb_false_r, orb_assoc. f_equal. by rewrite <- !app_assoc.
      * apply Forall2_app; [|done]. apply marked_filter. by rewrite H5.
Qed.

Lemma find_filter package es : package <> [] ->
  find (fun e => streq (st_package e) package) (filter (fun e => st_package e <> []) es) = find (fun e => streq (st_package e) package) es.
Proof.
  intros Hp. induction es as [|e es IH]; [done|]. rewrite filter_cons. cbn [find]. rewrite <- IH. destruct (decide _) as [|Hn]; [done|].
  rewrite (proj2 (streq_false _ _)); [done|]. apply dec_stable in Hn. congruence.
Qed.
Lemma lookup_view package b : package <> [] ->
  pkg_state_lookup (Some b) package = match find (fun e => streq (st_package e) package) (view b) with Some e => inr e | None => inl 1 end.
Proof. intros Hp. unfold view. by rewrite find_filter, <- list_fmap_compose. Qed.

Lemma marked_find package name es es' : Forall2 (marked package) es es' ->
  match find (fun e => streq (st_package e) name) es with
  | Some e => exists e', find (fun e => streq (st_package e) name) es' = Some e' /\ marked package e e' /\ st_package e = name
  | None => find (fun e => streq (st_package e) name) es' = None
  end.
Proof.
  induction 1 as [|e e' es es' He _ IH]; [done|]. cbn [find]. pose proof (proj1 He) as ->. destruct (streq _ _) eqn:E; [|exact IH]. apply streq_true in E. by exists e'.
Qed.
Lemma marked_other package e e' : marked package e e' -> st_package e <> package -> e' = e.
Proof. intros (H1 & H2 & H3 & _) Hn. specialize (H3 Hn). destruct e, e'. cbn in *. congruence. Qed.
Lemma find_existsb {A} (f : A -> bool) l : existsb f l = match find f l with Some _ => true | None => false end.
Proof. induction l as [|x l IH]; [done|]. simpl. by destruct (f x). Qed.

Section set_installed.
Context (vfs_store : list Z -> bool * option (list Z)).
(** Writing the file succeeds and stores the text. *)
Hypothesis store_ok : forall t, vfs_store t = (true, Some t).

(** C29: setting a registered package installed leaves a status file in which the package has its
    version and, when it had a state, the state "install ok installed", and every other package
    is registered exactly as before; a package that is not registered changes nothing. *)
Theorem pkg_state_set_installed_correct package b : package <> [] ->
  match pkg_state_lookup (Some b) package with
  | inr e => exists out e', pkg_state_set_installed vfs_store package (Some b) = (Done tt, Some out) /\
      pkg_state_lookup (Some out) package = inr e' /\ marked package e e' /\
      forall name, name <> [] -> name <> package -> pkg_state_lookup (Some out) name = pkg_state_lookup (Some b) name
  | inl _ => pkg_state_set_installed vfs_store package (Some b) = (Fail 1, Some b)
  end.
Proof using store_ok.
  intros Hp. unfold pkg_state_set_installed, set_installed_text. destruct (set_installed_view package Hp b false [] (or_introl eq_refl)) as (out & -> & Hv).
  rewrite lookup_view, find_existsb by done. cbn [orb app]. pose proof (marked_find package package _ _ Hv) as Hm.
  destruct (find _ (view b)) as [e|]; [|done]. destruct Hm as (e' & He' & Hmk & _). exists out, e'. cbn [negb]. rewrite store_ok. split; [done|].
  split; [by rewrite lookup_view, He'|]. split; [done|]. intros name H1 H2. rewrite !lookup_view by done. pose proof (marked_find package name _ _ Hv) as Hn.
  destruct (find _ (view b)) as [x|]; [|by rewrite Hn]. destruct Hn as (x' & -> & Hx & Ex). f_equal. apply (marked_other package); [done|congruence].
Qed.
End set_installed.

Definition ex_status : list Z :=
  str_bytes "Package: lib" ++ [10] ++ str_bytes "Status: install ok unpacked" ++ [10] ++ str_bytes "Version: 2.1" ++ [10; 10; 10; 10] ++
  str_bytes "Package: tool" ++ [10] ++ str_bytes "Version: 1.0" ++ [10] ++ str_bytes "Status: install ok unpacked" ++ [10].
Lemma pkg_state_set_installed_correct_witness : exists out e',
  pkg_state_set_installed (fun t => (true, Some t)) (str_bytes "tool") (Some ex_status) = (Done tt, Some out) /\
  pkg_state_lookup (Some out) (str_bytes "tool") = inr e' /\
  marked (str_bytes "tool") (StateEntry (str_bytes "tool") (str_bytes "1.0") (str_bytes "install ok unpacked")) e'.
Proof.
  pose proof (pkg_state_set_installed_correct (fun t => (true, Some t)) (fun t => eq_refl) (str_bytes "tool") ex_status ltac:(vm_compute; congruence)) as H.
  assert (pkg_state_lookup (Some ex_status) (str_bytes "tool") = inr (StateEntry (str_bytes "tool") (str_bytes "1.0") (str_bytes "install ok unpacked"))) as E by (vm_compute; reflexivity).
  rewrite E in H. destruct H as (out & e' & H1 & H2 & H3 & _). exists out, e'. by split.
Defined.
(** A paragraph without a [Status] line stays without one, and the call succeeds. *)
Example set_installed_no_status :
  let b := str_bytes "Package: lib" ++ [10] ++ str_bytes "Version: 2.1" ++ [10] in
  pkg_state_set_installed (fun t => (true, Some t)) (str_bytes "lib") (Some b) = (Done tt, Some b).
Proof. vm_compute. reflexivity. Qed.
