(* ===== verification/Account.v ===== *)
(** * Account: the account files of a target ([src/account_util.c])

    The texts of [passwd], [shadow] and [group]: names, user numbers, adding a
    line and replacing one, as [useradd] and [passwd] use them, and the hash of
    a password.  Reading and storing the files through the VFS is left to the
    caller; memory allocation does not fail. *)
From S2P Require Import Prelude Text Sha256 PkgRepo PkgState.
#[local] Open Scope Z_scope.

(** ** Texts *)

(** [None] when the path does not fit in [cap] bytes. *)
Definition account_join_path (cap : Z) (root suffix : list Z) : option (list Z) :=
  let slash := match last root with Some c => c =? 47 | None => false end in
  let o := root ++ (if slash then [] else [47]) ++ (match suffix with c :: t => if c =? 47 then t else suffix | [] => [] end) in
  if (cap =? 0) || negb (zlen o <? cap) then None else Some o.

Definition account_valid_name (name : list Z) : bool :=
  match name with
  | [] => false
  | c :: t =>
      (isalpha c || (c =? 95)) && forallb (fun c => isalnum c || (c =? 95) || (c =? 45)) t && (zlen name <=? 31)
  end.

(** The test on a line [p] of [ll] characters. *)
Definition named (name p : list Z) : bool :=
  (zlen name <? zlen p) && bool_decide (take (length name) p = name) && (bget p (zlen name) =? 58).
Definition lines (text : list Z) : list (list Z) := split_lines text [].
Definition account_has_name (text name : list Z) : bool := existsb (named name) (lines text).

(** The text after the first [c], if there is one. *)
Definition after_chr (s : list Z) (c : Z) : option (list Z) := match strchr s c with Some (_, _ :: t) => Some t | _ => None end.
(** The number between the second and the third colon from [p] on, which may be those of a later line. *)
Definition uid_field (p : list Z) : option (list Z) :=
  match after_chr p 58 with
  | None => None
  | Some r => match after_chr r 58 with
    | None => None
    | Some r => match strchr r 58 with None => None | Some (num, _) => Some num end
    end
  end.
Definition uid_max (start max : Z) (num : list Z) : Z :=
  if 24 <=? zlen num then max else
  let '(v, e) := strtoull num in
  match e with
  | [] => if (v <=? UINT32_MAX) && (start <=? v) && (max <? v) then v else max
  | _ => max
  end.
Fixpoint uid_loop (fuel : nat) (start : Z) (p : list Z) (max : Z) : Z :=
  match fuel, p with
  | S fuel, _ :: _ =>
      match uid_field p with
      | None => max
      | Some num =>
          let max := uid_max start max num in
          match after_chr p 10 with None => max | Some p => uid_loop fuel start p max end
      end
  | _, _ => max
  end.
(** Each turn takes a line. *)
Definition account_next_uid (text : list Z) (start_uid : Z) : option Z :=
  let max := uid_loop (length text) start_uid text (if start_uid =? 0 then 999 else start_uid - 1) in
  if max =? UINT32_MAX then None else Some (max + 1).

(** The text, ended by a newline unless it is empty. *)
Definition put_end (t : list Z) : list Z := match t with [] => [] | _ => if bool_decide (last t = Some 10) then t else t ++ [10] end.
Definition account_append_line (old_text line : list Z) : list Z :=
  put_end old_text ++ line ++ (if bool_decide (last line = Some 10) then [] else [10]).

Definition account_replace_named_line (old_text name newline : list Z) : list Z :=
  let '(out, replaced) := foldl (fun '(out, replaced) p => let hit := named name p in (out ++ (if hit then newline else p) ++ [10], replaced || hit))
    ([], false) (lines old_text) in
  if replaced then out else out ++ newline ++ [10].

(** ** Adding a user and setting a password *)

Record account_db : Type := AccountDb { ac_passwd : list Z; ac_shadow : list Z; ac_group : list Z; ac_gshadow : list Z }.
Record user_request : Type := UserRequest {
  ur_name : list Z; ur_uid : option Z; ur_gid : option Z; ur_home : option (list Z); ur_shell : list Z; ur_comment : list Z;
}.

(** [snprintf] into a buffer of [cap] bytes. *)
Definition snprintf (cap : Z) (t : list Z) : list Z := take (Z.to_nat (cap - 1)) t.
Definition colon : list Z := [58].
Definition passwd_line (name : list Z) (uid gid : Z) (comment home shell : list Z) : list Z :=
  name ++ str_bytes ":x:" ++ print_dec uid ++ colon ++ print_dec gid ++ colon ++ comment ++ colon ++ home ++ colon ++ shell.
Definition shadow_line (name hash : list Z) (days : Z) : list Z := name ++ colon ++ hash ++ colon ++ print_dec days ++ str_bytes ":0:99999:7:::".
Definition group_line (name : list Z) (gid : Z) : list Z := name ++ str_bytes ":x:" ++ print_dec gid ++ colon.
Definition gshadow_line (name : list Z) : list Z := name ++ str_bytes ":!::".

(** The texts [useradd] stores with the user number, or its exit status; [days] is [time(NULL) / 86400]. *)
Definition useradd_texts (days : Z) (r : user_request) (db : account_db) : Z + (account_db * Z) :=
  let name := ur_name r in
  if negb (account_valid_name name) then inl 2 else
  if account_has_name (ac_passwd db) name then inl 1 else
  match (match ur_uid r with Some u => Some u | None => account_next_uid (ac_passwd db) 1000 end) with
  | None => inl 1
  | Some uid =>
      let gid := match ur_gid r with Some g => g | None => uid end in
      let home := match ur_home r with Some h => h | None => snprintf 160 (str_bytes "/home/" ++ name) end in
      if negb (bget home 0 =? 47) then inl 1 else
      let pline := snprintf 512 (passwd_line name uid gid (ur_comment r) home (ur_shell r)) in
      let sline := snprintf 256 (shadow_line name (str_bytes "!") days) in
      let gline := snprintf 256 (group_line name gid) in
      let gsline := snprintf 256 (gshadow_line name) in
      let '(ng, ngs) :=
        if bool_decide (ur_gid r = None) && negb (account_has_name (ac_group db) name)
        then (account_append_line (ac_group db) gline, account_append_line (ac_gshadow db) gsline)
        else (ac_group db, ac_gshadow db) in
      inr (AccountDb (account_append_line (ac_passwd db) pline) (account_append_line (ac_shadow db) sline) ng ngs, uid)
  end.

(** The [shadow] text [passwd] stores for a hash, or its exit status. *)
Definition passwd_texts (days : Z) (name hash : list Z) (db : account_db) : Z + account_db :=
  if negb (account_valid_name name) then inl 2 else
  if negb (account_has_name (ac_passwd db) name) then inl 1 else
  let line := snprintf 320 (shadow_line name hash days) in
  inr (AccountDb (ac_passwd db) (account_replace_named_line (ac_shadow db) name line) (ac_group db) (ac_gshadow db)).
(** The argument of [--hash]; [None] is exit status 2. *)
Definition given_hash (hash_arg : list Z) : option (list Z) :=
  if (160 <=? zlen hash_arg) || negb (bget hash_arg 0 =? 36) then None else Some (snprintf 160 hash_arg).

(** ** Lines *)

Definition nonl (l : list Z) : Prop := Forall (fun c => c <> 10) l.

Lemma text_ind (P : list Z -> Prop) :
  P [] -> (forall a, a <> [] -> nonl a -> P a) -> (forall a t, nonl a -> P t -> P (a ++ 10 :: t)) -> forall t, P t.
Proof.
  intros H0 H1 H2 t. induction t as [t IH] using (induction_ltof1 _ (@length Z)); unfold ltof in IH.
  assert (nonl t \/ exists a t', t = a ++ 10 :: t' /\ nonl a) as [Hn|(a & t' & -> & Ha)].
  { clear. induction t as [|c t IH]; [left; constructor|]. destruct (Z.eq_dec c 10) as [->|Hc]; [right; exists [], t; split; [done|constructor]|].
    destruct IH as [IH|(a & t' & -> & Ha)]; [left; by constructor|right; exists (c :: a), t'; split; [done|by constructor]]. }
  - destruct t as [|c t]; [done|by apply H1].
  - apply H2; [done|]. apply IH. rewrite length_app. simpl. lia.
Qed.
Lemma lines_line a t : nonl a -> lines (a ++ 10 :: t) = a :: lines t.
Proof. intros Ha. unfold lines. rewrite split_lines_plain by done. done. Qed.
Lemma lines_last a : a <> [] -> nonl a -> lines a = [a].
Proof. intros Hne Ha. unfold lines. rewrite <- (app_nil_r a) at 1. rewrite split_lines_plain by done. by destruct a. Qed.
Lemma lines_join ls : Forall nonl ls -> lines (ls ≫= fun l => l ++ [10]) = ls.
Proof. induction 1 as [|l ls Hl _ IH]; [done|]. rewrite bind_cons, <- app_assoc. cbn [app]. by rewrite lines_line, IH. Qed.
Lemma lines_nonl t : Forall nonl (lines t).
Proof. induction t using text_ind; [constructor|rewrite lines_last by done; by repeat constructor|rewrite lines_line by done; by constructor]. Qed.
Lemma nonl_last a : nonl a -> last a <> Some 10.
Proof. intros Ha E. apply last_Some in E as [l ->]. apply Forall_app in Ha as [_ Ha]. by apply Forall_inv in Ha. Qed.
Lemma put_end_line a t : put_end (a ++ 10 :: t) = a ++ 10 :: put_end t.
Proof.
  assert (forall s, s <> [] -> put_end s = if bool_decide (last s = Some 10) then s else s ++ [10]) as Hp by by destruct s.
  rewrite Hp by (by destruct a). rewrite last_app_cons. destruct t as [|c t]; [done|]. change (last (10 :: c :: t)) with (last (c :: t)). rewrite (Hp (c :: t)) by done.
  case_bool_decide; [done|]. by rewrite <- app_assoc.
Qed.
Lemma lines_append t l : nonl l -> lines (account_append_line t l) = lines t ++ [l].
Proof.
  intros Hl. unfold account_append_line. rewrite bool_decide_eq_false_2 by by apply nonl_last. induction t as [|a Hne Ha|a t Ha IH] using text_ind.
  - simpl. by rewrite lines_line.
  - assert (put_end a = a ++ [10]) as -> by (unfold put_end; destruct a; [done|]; rewrite bool_decide_eq_false_2; [done|by apply nonl_last]).
    rewrite <- app_assoc. cbn [app]. rewrite lines_line, lines_line by done. by rewrite (lines_last a).
  - rewrite put_end_line, <- app_assoc. cbn [app]. rewrite !lines_line, IH by done. done.
Qed.
Lemma lines_replace t name l : nonl l ->
  lines (account_replace_named_line t name l) = ((fun p => if named name p then l else p) <$> lines t) ++ (if account_has_name t name then [] else [l]).
Proof.
  intros Hl. unfold account_replace_named_line, account_has_name. set (f := fun p => if named name p then l else p).
  assert (forall ls out b, foldl (fun '(out, replaced) p => let hit := named name p in (out ++ (if hit then l else p) ++ [10], replaced || hit)) (out, b) ls
    = (out ++ ((f <$> ls) ≫= fun l => l ++ [10]), b || existsb (named name) ls)) as Hf.
  { induction ls as [|p ls IH]; intros out b; cbn [foldl fmap list_fmap existsb]; [by rewrite app_nil_r, orb_false_r|]. rewrite IH, bind_cons. unfold f at 2. by rewrite <- app_assoc, orb_assoc. }
  rewrite Hf. cbn [app orb]. assert (Forall nonl (f <$> lines t)) as Hnl.
  { apply Forall_fmap. eapply Forall_impl; [apply lines_nonl|]. intros p Hp. unfold compose, f. by case_match. }
  destruct (existsb _ _); [by rewrite lines_join, app_nil_r|]. rewrite <- (lines_join ((f <$> lines t) ++ [l])) by (apply Forall_app; by repeat constructor).
  by rewrite bind_app, bind_cons, app_nil_r.
Qed.

(** ** Entries by name *)

(** The entry a name has in a text is its first line of that name. *)
Definition entry (name text : list Z) : option (list Z) := find (named name) (lines text).

Lemma named_spec name p : named name p = true <-> exists r, p = name ++ 58 :: r.
Proof.
  unfold named. rewrite !andb_true_iff, bool_decide_eq_true, Z.ltb_lt, Z.eqb_eq. split.
  - intros [[Hl Ht] H58]. rewrite <- (take_drop (length name) p), Ht. exists (drop 1 (drop (length name) p)). f_equal.
    assert (bget (drop (Z.to_nat (zlen name)) p) 0 = 58) as E by (rewrite bget_drop by (pose proof (zlen_nonneg name); lia); by rewrite Z.add_0_r).
    unfold zlen in E. rewrite Nat2Z.id in E. destruct (drop (length name) p) as [|c q] eqn:Ed; [done|]. change (c = 58) in E. by rewrite E.
  - intros [r ->]. rewrite zlen_app, zlen_cons. pose proof (zlen_nonneg r). split_and!; [lia|by rewrite take_app_length|]. rewrite bget_app_r by done. by rewrite Z.sub_diag.
Qed.
Definition plain (s : list Z) : Prop := (58 ∉ s) /\ nonl s.
Lemma app_colon_inj a b x y : 58 ∉ a -> 58 ∉ b -> a ++ 58 :: x = b ++ 58 :: y -> a = b /\ x = y.
Proof.
  revert b. induction a as [|c a IH]; intros [|e b] Ha Hb E; cbn [app] in E.
  - by injection E.
  - injection E as <- _. exfalso. apply Hb. apply elem_of_cons. by left.
  - injection E as -> _. exfalso. apply Ha. apply elem_of_cons. by left.
  - injection E as -> E. rewrite not_elem_of_cons in Ha, Hb. destruct (IH b (proj2 Ha) (proj2 Hb) E) as [-> ->]. done.
Qed.
Lemma named_other name n r : plain name -> plain n -> n <> name -> named n (name ++ 58 :: r) = false.
Proof.
  intros [Hn _] [Hm _] Hne. apply not_true_iff_false. intros [x E]%named_spec. by apply app_colon_inj in E as [-> _].
Qed.
Lemma named_self name r : named name (name ++ 58 :: r) = true.
Proof. apply named_spec. by exists r. Qed.
Lemma has_name_entry t name : account_has_name t name = true <-> entry name t <> None.
Proof.
  unfold account_has_name, entry. rewrite existsb_exists. split.
  - intros (p & Hp & E) Hn. pose proof (find_none _ _ Hn p Hp). congruence.
  - intros H. destruct (find _ _) as [p|] eqn:E; [|done]. apply find_some in E as [? ?]. by exists p.
Qed.
Lemma find_app_one {A} (f : A -> bool) l x : find f (l ++ [x]) = match find f l with Some y => Some y | None => if f x then Some x else None end.
Proof. induction l as [|y l IH]; [done|]. cbn [app find]. by destruct (f y). Qed.
Lemma entry_append t name r n : plain name -> nonl r -> plain n -> let l := name ++ 58 :: r in
  entry n (account_append_line t l) = if decide (n = name) then match entry name t with Some p => Some p | None => Some l end else entry n t.
Proof.
  intros Hname Hr Hn l. assert (nonl l) as Hl by (apply Forall_app; split; [apply Hname|by constructor]). unfold entry. rewrite lines_append, find_app_one by done. destruct (decide (n = name)) as [->|Hne].
  - pose proof (named_self name r) as Hs. fold l in Hs. by rewrite Hs.
  - pose proof (named_other name n r Hname Hn Hne) as Ho. fold l in Ho. rewrite Ho. by destruct (find _ _).
Qed.
Lemma entry_replace t name r n : plain name -> nonl r -> plain n -> let l := name ++ 58 :: r in
  entry n (account_replace_named_line t name l) = if decide (n = name) then Some l else entry n t.
Proof.
  intros Hname Hr Hn l. assert (nonl l) as Hl by (apply Forall_app; split; [apply Hname|by constructor]). unfold entry. rewrite lines_replace by done. unfold account_has_name.
  pose proof (named_self name r) as Hs. fold l in Hs. destruct (decide (n = name)) as [->|Hne].
  - induction (lines t) as [|p ls IH]; cbn [fmap list_fmap app existsb find]; [by rewrite Hs|]. destruct (named name p) eqn:E; cbn [orb]; [by rewrite Hs|by rewrite E].
  - pose proof (named_other name n r Hname Hn Hne) as Ho. fold l in Ho. induction (lines t) as [|p ls IH]; cbn [fmap list_fmap app existsb find]; [by rewrite Ho|].
    destruct (named name p) eqn:E; cbn [orb].
    + rewrite Ho. apply named_spec in E as [x ->]. rewrite named_other by done. clear IH. induction ls as [|q ls IH]; [done|]. cbn [fmap list_fmap app find].
      destruct (named name q) eqn:E; [rewrite Ho; apply named_spec in E as [y ->]; by rewrite named_other|]. by destruct (named n q).
    + by destruct (named n p).
Qed.

(** ** User numbers *)

(** The user number a line holds, as [account_next_uid] reads it. *)
Definition uid_value (line : list Z) : option Z :=
  match uid_field line with
  | Some num => if 24 <=? zlen num then None else
      match strtoull num with (v, []) => if v <=? UINT32_MAX then Some v else None | _ => None end
  | None => None
  end.
(** Every line has the three colons that end a user number. *)
Definition well_formed (text : list Z) : Prop := Forall (fun l => is_Some (uid_field l)) (lines text).

Lemma strchr_app s c a b t : strchr s c = Some (a, b) -> strchr (s ++ t) c = Some (a, b ++ t).
Proof.
  revert a b. induction s as [|x s IH]; intros a b; [done|]. cbn [strchr app]. destruct (x =? c); [by intros [= <- <-]|].
  destruct (strchr s c) as [[a' b']|]; [|done]. intros [= <- <-]. by rewrite (IH a' b').
Qed.
Lemma after_chr_app s c r t : after_chr s c = Some r -> after_chr (s ++ t) c = Some (r ++ t).
Proof. unfold after_chr. destruct (strchr s c) as [[a [|x b]]|] eqn:E; try done. intros [= <-]. by rewrite (strchr_app _ _ _ _ t E). Qed.
Lemma uid_field_app p num t : uid_field p = Some num -> uid_field (p ++ t) = Some num.
Proof.
  unfold uid_field. destruct (after_chr p 58) as [r|] eqn:E1; [|done]. rewrite (after_chr_app _ _ _ t E1). destruct (after_chr r 58) as [r'|] eqn:E2; [|done]. rewrite (after_chr_app _ _ _ t E2).
  destruct (strchr r' 58) as [[n b]|] eqn:E3; [|done]. by rewrite (strchr_app _ _ _ _ t E3).
Qed.
Lemma after_chr_plain a c t : Forall (fun x => x <> c) a -> after_chr (a ++ c :: t) c = Some t.
Proof.
  unfold after_chr. induction 1 as [|x a Hx _ IH]; cbn [app strchr]; [by rewrite Z.eqb_refl|]. rewrite (proj2 (Z.eqb_neq _ _) Hx).
  destruct (strchr (a ++ c :: t) c) as [[u [|v w]]|]; congruence.
Qed.
Lemma after_chr_none a c : Forall (fun x => x <> c) a -> after_chr a c = None.
Proof.
  unfold after_chr. induction 1 as [|x a Hx _ IH]; cbn [strchr]; [done|]. rewrite (proj2 (Z.eqb_neq _ _) Hx). destruct (strchr a c) as [[u [|v w]]|]; congruence.
Qed.

Definition line_max (start max : Z) (l : list Z) : Z := match uid_field l with Some num => uid_max start max num | None => max end.
Lemma uid_loop_lines fuel start t max : (length t <= fuel)%nat -> well_formed t -> uid_loop fuel start t max = foldl (line_max start) max (lines t).
Proof.
  revert fuel max. induction t as [|a Hne Ha|a t Ha IH] using text_ind; intros fuel max Hf Hw.
  - by destruct fuel.
  - unfold well_formed in Hw. rewrite lines_last in * by done. apply Forall_inv in Hw as [num E]. destruct fuel; [by destruct a; [|simpl in Hf; lia]|]. cbn [uid_loop foldl]. unfold line_max.
    rewrite E, after_chr_none by done. by destruct a.
  - unfold well_formed in Hw. rewrite lines_line in * by done. apply Forall_cons in Hw as [[num E] Hw]. rewrite length_app in Hf. simpl in Hf. destruct fuel; [lia|]. cbn [uid_loop foldl]. unfold line_max at 2.
    rewrite (uid_field_app _ _ (10 :: t) E), E, after_chr_plain by done. destruct (a ++ 10 :: t) eqn:Ea; [by destruct a|]. apply IH; [lia|done].
Qed.
Lemma uid_max_spec start max num : 0 <= start -> max <= uid_max start max num /\ uid_max start max num <= Z.max max UINT32_MAX.
Proof.
  intros Hs. unfold uid_max. destruct (24 <=? zlen num); [lia|]. destruct (strtoull num) as [v [|]]; [|lia]. destruct ((v <=? UINT32_MAX) && (start <=? v) && (max <? v)) eqn:E; lia.
Qed.
Lemma line_max_value start max l v : uid_value l = Some v -> start <= v -> v <= line_max start max l.
Proof.
  unfold uid_value, line_max, uid_max. destruct (uid_field l) as [num|]; [|done]. destruct (24 <=? zlen num); [done|]. destruct (strtoull num) as [w [|]]; [|done].
  destruct (Z.leb_spec w UINT32_MAX); [|done]. intros [= ->] Hs. rewrite (proj2 (Z.leb_le start v)) by done. cbn [andb]. destruct (Z.ltb_spec max v); lia.
Qed.
Lemma lines_max start max ls : 0 <= start -> max <= foldl (line_max start) max ls <= Z.max max UINT32_MAX /\ forall l v, l ∈ ls -> uid_value l = Some v -> start <= v -> v <= foldl (line_max start) max ls.
Proof.
  intros Hs. revert max. induction ls as [|l ls IH]; intros max; cbn [foldl].
  - split; [lia|]. intros l v Hl. by apply elem_of_nil in Hl.
  - destruct (IH (line_max start max l)) as [H1 H2]. assert (max <= line_max start max l <= Z.max max UINT32_MAX) as Hm.
    { unfold line_max. destruct (uid_field l) as [num|]; [pose proof (uid_max_spec start max num Hs); lia|lia]. }
    split; [lia|]. intros l' v [->|Hl]%elem_of_cons Hv Hsv; [|by apply (H2 l')]. pose proof (line_max_value start max l v Hv Hsv). lia.
Qed.
(** The number handed out is in range and no listed user has it or a greater one. *)
Lemma next_uid_fresh t start u : 0 < start < UINT32_MAX -> well_formed t -> account_next_uid t start = Some u ->
  start <= u <= UINT32_MAX /\ forall l v, l ∈ lines t -> uid_value l = Some v -> v < u.
Proof.
  intros Hs Hw. unfold account_next_uid. rewrite uid_loop_lines by done. rewrite (proj2 (Z.eqb_neq start 0)) by lia. destruct (lines_max start (start - 1) (lines t) ltac:(lia)) as [H1 H2].
  set (m := foldl _ _ _) in *. destruct (Z.eqb_spec m UINT32_MAX); [done|]. intros [= <-]. split; [lia|]. intros l v Hl Hv. destruct (Z.le_gt_cases start v) as [Hsv|]; [specialize (H2 l v Hl Hv Hsv); lia|lia].
Qed.
