(* ===== verification/AccountOk.v ===== *)
(** * AccountOk: what adding a user and setting a password do to the account files *)
From S2P Require Import Prelude Text PkgRepo Account.
#[local] Open Scope Z_scope.

(** ** The lines written *)

Lemma valid_name_plain name : account_valid_name name = true -> plain name /\ zlen name <= 31 /\ name <> [].
Proof.
  unfold account_valid_name, plain, nonl. destruct name as [|c t]; [done|]. rewrite !andb_true_iff, orb_true_iff, Z.leb_le, Z.eqb_eq. intros [[Hc Ht] Hl].
  assert (Forall (fun c => c <> 58 /\ c <> 10) (c :: t)) as Hf; [|split_and!; [|eapply Forall_impl; [exact Hf|tauto]|done|done]; intros Hin; rewrite Forall_forall in Hf; by destruct (Hf 58 Hin)].
  constructor; [unfold isalpha in Hc; lia|]. apply Forall_forall. intros x Hx. rewrite forallb_forall in Ht. specialize (Ht x ltac:(by apply list_elem_of_In)). unfold isalnum, isalpha, isdigit in Ht. lia.
Qed.
Lemma print_dec_plain n : 0 <= n -> plain (print_dec n).
Proof.
  intros Hn. destruct (print_dec_digits n Hn) as [Hd _]. unfold plain, nonl. split; [intros Hin; rewrite Forall_forall in Hd; by specialize (Hd _ Hin)|].
  eapply Forall_impl; [exact Hd|]. unfold isdigit. intros c Hc. cbn beta in Hc. lia.
Qed.
Lemma plain_nonl s : plain s -> nonl s.
Proof. by intros []. Qed.
Ltac nonls := unfold colon; repeat first [apply Forall_app; split|apply Forall_cons; split; [lazy; lia|]]; try decide_now; try done; try (apply plain_nonl, print_dec_plain; lia); try (by apply plain_nonl).

Lemma passwd_line_nonl name uid gid comment home shell : plain name -> 0 <= uid -> 0 <= gid -> nonl comment -> nonl home -> nonl shell -> nonl (passwd_line name uid gid comment home shell).
Proof. intros. unfold passwd_line. nonls. Qed.
Lemma shadow_line_nonl name hash days : plain name -> nonl hash -> 0 <= days -> nonl (shadow_line name hash days).
Proof. intros. unfold shadow_line. nonls. Qed.
Lemma group_line_nonl name gid : plain name -> 0 <= gid -> nonl (group_line name gid).
Proof. intros. unfold group_line. nonls. Qed.
Lemma gshadow_line_nonl name : plain name -> nonl (gshadow_line name).
Proof. intros. unfold gshadow_line. nonls. Qed.

Lemma zlen_uid u : 0 <= u <= UINT32_MAX -> zlen (print_dec u) <= 10.
Proof. intros. apply zlen_print_dec; [change (10 ^ 10) with 10000000000; ulia|lia]. Qed.
Lemma snprintf_id cap t : zlen t < cap -> snprintf cap t = t.
Proof. intros H. apply take_ge. unfold zlen in H. lia. Qed.

Lemma passwd_line_uid name uid gid comment home shell : plain name -> 0 <= uid <= UINT32_MAX ->
  uid_field (passwd_line name uid gid comment home shell) = Some (print_dec uid) /\ uid_value (passwd_line name uid gid comment home shell) = Some uid.
Proof.
  intros [Hc _] Hu. assert (uid_field (passwd_line name uid gid comment home shell) = Some (print_dec uid)) as E.
  { unfold uid_field, passwd_line, colon. change (str_bytes ":x:") with ([58; 120; 58]). cbn [app].
    rewrite after_chr_plain by (apply Forall_forall; intros x Hx ->; done). change (120 :: 58 :: ?t) with ([120] ++ 58 :: t). rewrite after_chr_plain by by repeat constructor.
    destruct (print_dec_plain uid ltac:(lia)) as [Hp _]. induction (print_dec uid) as [|x l IH]; [done|]. cbn [app strchr]. rewrite not_elem_of_cons in Hp. rewrite (proj2 (Z.eqb_neq x 58)) by (intros ->; tauto).
    destruct (strchr (l ++ _) 58) as [[a b]|]; [|by discriminate IH; tauto]. destruct Hp as [_ Hp]. by injection (IH Hp) as ->. }
  split; [done|]. unfold uid_value. rewrite E. pose proof (zlen_uid uid Hu). rewrite (proj2 (Z.leb_gt 24 _)) by lia. rewrite strtoull_print_dec by ulia. by rewrite (proj2 (Z.leb_le _ _)) by lia.
Qed.

(** ** Adding a user *)

Record request_ok (days : Z) (r : user_request) : Prop := RequestOk {
  rq_days : 0 <= days < 10 ^ 10;
  rq_uid : forall u, ur_uid r = Some u -> 0 <= u <= UINT32_MAX; rq_gid : forall g, ur_gid r = Some g -> 0 <= g <= UINT32_MAX;
  rq_lines : nonl (ur_comment r) /\ nonl (ur_shell r) /\ forall h, ur_home r = Some h -> nonl h;
  rq_fits : zlen (ur_comment r) + zlen (ur_shell r) + zlen (default [] (ur_home r)) <= 400;
}.
Definition home_of (r : user_request) : list Z := match ur_home r with Some h => h | None => str_bytes "/home/" ++ ur_name r end.
Definition gid_of (r : user_request) (uid : Z) : Z := match ur_gid r with Some g => g | None => uid end.
Definition user_line (r : user_request) (uid : Z) : list Z := passwd_line (ur_name r) uid (gid_of r uid) (ur_comment r) (home_of r) (ur_shell r).

(** A text with a line added: the lines, the entry of the name, the others. *)
Record extends (name l old new : list Z) : Prop := Extends {
  ex_lines : lines new = lines old ++ [l];
  ex_self : entry name new = match entry name old with Some p => Some p | None => Some l end;
  ex_other : forall n, plain n -> n <> name -> entry n new = entry n old;
}.
Lemma append_extends name r old : plain name -> nonl r -> extends name (name ++ 58 :: r) old (account_append_line old (name ++ 58 :: r)).
Proof.
  intros Hn Hr. split.
  - apply lines_append. apply Forall_app. split; [by apply plain_nonl|by constructor].
  - rewrite entry_append by done. by destruct (decide (name = name)).
  - intros n Hp Hne. rewrite entry_append by done. by destruct (decide (n = name)).
Qed.

Section request.
Context (days : Z) (r : user_request) (Hr : request_ok days r) (Hv : account_valid_name (ur_name r) = true).
Local Abbreviation name := (ur_name r).

Lemma lines_fit uid : 0 <= uid <= UINT32_MAX ->
  zlen (user_line r uid) < 512 /\ zlen (shadow_line name (str_bytes "!") days) < 256 /\ zlen (group_line name uid) < 256 /\ zlen (gshadow_line name) < 256 /\ zlen (str_bytes "/home/" ++ name) < 160.
Proof using Hr Hv.
  intros Hu. destruct (valid_name_plain _ Hv) as (_ & Hl & _). pose proof (zlen_uid uid Hu). pose proof (zlen_print_dec days 10 (rq_days _ _ Hr) ltac:(lia)). pose proof (rq_fits _ _ Hr) as Hf.
  assert (zlen (print_dec (gid_of r uid)) <= 10) by (apply zlen_uid; unfold gid_of; destruct (ur_gid r) eqn:E; [by apply (rq_gid _ _ Hr)|done]).
  assert (zlen (home_of r) <= zlen (default [] (ur_home r)) + 37) as Hh by (unfold home_of; destruct (ur_home r); simpl default in *; rewrite ?zlen_app, ?zlen_nil; change (zlen (str_bytes "/home/")) with 6; lia).
  unfold user_line, passwd_line, shadow_line, group_line, gshadow_line, colon. rewrite !zlen_app.
  change (zlen [58]) with 1. change (zlen (str_bytes ":x:")) with 3. change (zlen (str_bytes "!")) with 1. change (zlen (str_bytes ":0:99999:7:::")) with 13. change (zlen (str_bytes ":!::")) with 4. change (zlen (str_bytes "/home/")) with 6.
  lia.
Qed.
Lemma home_nonl : nonl (home_of r).
Proof using Hr Hv. destruct (valid_name_plain _ Hv) as (Hp & _). unfold home_of. destruct (ur_home r) eqn:E; [by apply (rq_lines _ _ Hr)|]. apply Forall_app. split; [decide_now|by apply plain_nonl]. Qed.
Lemma gid_range uid : 0 <= uid <= UINT32_MAX -> 0 <= gid_of r uid <= UINT32_MAX.
Proof using Hr. intros. unfold gid_of. destruct (ur_gid r) eqn:E; [by apply (rq_gid _ _ Hr)|done]. Qed.

(** The lines start with the name. *)
Lemma user_line_extends uid old : 0 <= uid <= UINT32_MAX -> extends name (user_line r uid) old (account_append_line old (snprintf 512 (user_line r uid))).
Proof using Hr Hv.
  intros Hu. destruct (valid_name_plain _ Hv) as (Hp & _). rewrite snprintf_id by apply (lines_fit uid Hu). pose proof (gid_range uid Hu). destruct (rq_lines _ _ Hr) as (H1 & H2 & _).
  apply append_extends; [done|]. pose proof home_nonl. nonls.
Qed.
Lemma shadow_line_extends old : extends name (shadow_line name (str_bytes "!") days) old (account_append_line old (snprintf 256 (shadow_line name (str_bytes "!") days))).
Proof using Hr Hv.
  destruct (valid_name_plain _ Hv) as (Hp & _). pose proof (rq_days _ _ Hr). rewrite snprintf_id by (apply (lines_fit 0); ulia). apply append_extends; [done|]. nonls.
Qed.
Lemma group_line_extends uid old : 0 <= uid <= UINT32_MAX -> extends name (group_line name uid) old (account_append_line old (snprintf 256 (group_line name uid))).
Proof using Hr Hv.
  intros Hu. destruct (valid_name_plain _ Hv) as (Hp & _). rewrite snprintf_id by apply (lines_fit uid Hu). apply append_extends; [done|]. nonls.
Qed.
Lemma gshadow_line_extends old : extends name (gshadow_line name) old (account_append_line old (snprintf 256 (gshadow_line name))).
Proof using Hr Hv.
  destruct (valid_name_plain _ Hv) as (Hp & _). rewrite snprintf_id by (apply (lines_fit 0); ulia). apply append_extends; [done|]. nonls.
Qed.
End request.

(** What adding a user leaves: the lines added, the entry and the number of the
    name in passwd, and every other entry as it was. *)
Record user_added (days : Z) (r : user_request) (db db' : account_db) (uid : Z) : Prop := UserAdded {
  ua_passwd : extends (ur_name r) (user_line r uid) (ac_passwd db) (ac_passwd db');
  ua_shadow : extends (ur_name r) (shadow_line (ur_name r) (str_bytes "!") days) (ac_shadow db) (ac_shadow db');
  ua_group : if bool_decide (ur_gid r = None) && negb (account_has_name (ac_group db) (ur_name r))
    then extends (ur_name r) (group_line (ur_name r) uid) (ac_group db) (ac_group db') /\ extends (ur_name r) (gshadow_line (ur_name r)) (ac_gshadow db) (ac_gshadow db')
    else ac_group db' = ac_group db /\ ac_gshadow db' = ac_gshadow db;
  ua_entry : entry (ur_name r) (ac_passwd db') = Some (user_line r uid);
  ua_value : uid_value (user_line r uid) = Some uid;
  ua_formed : well_formed (ac_passwd db) -> well_formed (ac_passwd db');
  ua_fresh : match ur_uid r with
    | Some u => uid = u
    | None => well_formed (ac_passwd db) -> 1000 <= uid /\ forall l v, l ∈ lines (ac_passwd db) -> uid_value l = Some v -> v < uid
    end;
  ua_again : useradd_texts days r db' = inl 1;
}.

(** The user number asked for, or the next one. *)
Definition chosen_uid (r : user_request) (db : account_db) : option Z :=
  match ur_uid r with Some u => Some u | None => account_next_uid (ac_passwd db) 1000 end.
Lemma next_uid_range t u : account_next_uid t 1000 = Some u -> 0 <= u <= UINT32_MAX.
Proof.
  unfold account_next_uid. cbn [Z.eqb]. assert (forall fuel p m, 999 <= m <= UINT32_MAX -> 999 <= uid_loop fuel 1000 p m <= UINT32_MAX) as H.
  { induction fuel as [|fuel IH]; intros p m Hm; [done|]. destruct p as [|c p]; [done|]. cbn [uid_loop]. destruct (uid_field _) as [num|]; [|done]. pose proof (uid_max_spec 1000 m num ltac:(lia)).
    destruct (after_chr _ 10); [apply IH|]; lia. }
  specialize (H (length t) t 999 ltac:(ulia)). change (1000 - 1) with 999. destruct (Z.eqb_spec (uid_loop (length t) 1000 t 999) UINT32_MAX); [done|]. intros [= <-]. lia.
Qed.
Lemma home_default days r : request_ok days r -> account_valid_name (ur_name r) = true -> match ur_home r with Some h => h | None => snprintf 160 (str_bytes "/home/" ++ ur_name r) end = home_of r.
Proof. intros Hr Hv. unfold home_of. destruct (ur_home r); [done|]. apply snprintf_id. apply (lines_fit days r Hr Hv 0). ulia. Qed.
Lemma useradd_unfold days r db : request_ok days r -> account_valid_name (ur_name r) = true -> account_has_name (ac_passwd db) (ur_name r) = false -> useradd_texts days r db =
  match chosen_uid r db with
  | None => inl 1
  | Some uid =>
      if negb (bget (home_of r) 0 =? 47) then inl 1 else
      let '(ng, ngs) :=
        if bool_decide (ur_gid r = None) && negb (account_has_name (ac_group db) (ur_name r))
        then (account_append_line (ac_group db) (snprintf 256 (group_line (ur_name r) (gid_of r uid))), account_append_line (ac_gshadow db) (snprintf 256 (gshadow_line (ur_name r))))
        else (ac_group db, ac_gshadow db) in
      inr (AccountDb (account_append_line (ac_passwd db) (snprintf 512 (user_line r uid))) (account_append_line (ac_shadow db) (snprintf 256 (shadow_line (ur_name r) (str_bytes "!") days))) ng ngs, uid)
  end.
Proof.
  intros Hr Hv Hn. unfold useradd_texts. rewrite Hv, Hn. cbn [negb]. fold (chosen_uid r db). destruct (chosen_uid r db) as [uid|]; [|done]. rewrite (home_default days r Hr Hv). done.
Qed.
Lemma has_name_false t name : account_has_name t name = false <-> entry name t = None.
Proof.
  pose proof (has_name_entry t name) as H. destruct (account_has_name t name); split; intros E; try done; [exfalso; by apply (proj1 H)|]. destruct (entry name t); [|done]. by discriminate (proj2 H).
Qed.
Lemma useradd_taken days r db : account_valid_name (ur_name r) = true -> entry (ur_name r) (ac_passwd db) <> None -> useradd_texts days r db = inl 1.
Proof. intros Hv He. unfold useradd_texts. rewrite Hv. apply has_name_entry in He. by rewrite He. Qed.

Lemma user_added_ok days r db uid db' : request_ok days r -> account_valid_name (ur_name r) = true -> entry (ur_name r) (ac_passwd db) = None -> chosen_uid r db = Some uid ->
  useradd_texts days r db = inr (db', uid) -> user_added days r db db' uid.
Proof.
  intros Hr Hv He Hu E. rewrite useradd_unfold, Hu in E by (try done; by apply has_name_false). assert (0 <= uid <= UINT32_MAX) as Hrange.
  { unfold chosen_uid in Hu. destruct (ur_uid r) as [u|] eqn:Eu; [injection Hu as <-; by apply (rq_uid _ _ Hr)|by apply next_uid_range in Hu]. }
  destruct (negb _); [done|]. destruct (valid_name_plain _ Hv) as (Hp & _). pose proof (user_line_extends days r Hr Hv uid (ac_passwd db) Hrange) as Xp. pose proof (shadow_line_extends days r Hr Hv (ac_shadow db)) as Xs.
  destruct (passwd_line_uid (ur_name r) uid (gid_of r uid) (ur_comment r) (home_of r) (ur_shell r) Hp Hrange) as [Hf Hval].
  assert (ac_passwd db' = account_append_line (ac_passwd db) (snprintf 512 (user_line r uid)) /\ ac_shadow db' = account_append_line (ac_shadow db) (snprintf 256 (shadow_line (ur_name r) (str_bytes "!") days))) as [E1 E2] by (destruct (_ && _); by injection E as <-).
  rewrite <- E1 in Xp. rewrite <- E2 in Xs. assert (entry (ur_name r) (ac_passwd db') = Some (user_line r uid)) as Hent by (rewrite (ex_self _ _ _ _ Xp); by rewrite He).
  split; try done.
  - destruct (bool_decide _ && _) eqn:Eg; injection E as <-; [|done]. apply andb_true_iff in Eg as [Eg%bool_decide_eq_true _]. assert (gid_of r uid = uid) as -> by (unfold gid_of; by rewrite Eg).
    split; [by apply (group_line_extends days r Hr Hv)|by apply (gshadow_line_extends days r Hr Hv)].
  - unfold well_formed. rewrite (ex_lines _ _ _ _ Xp). intros Hw. apply Forall_app. split; [done|]. constructor; [by exists (print_dec uid)|constructor].
  - unfold chosen_uid in Hu. destruct (ur_uid r) as [u|]; [congruence|]. intros Hw. destruct (next_uid_fresh (ac_passwd db) 1000 uid ltac:(ulia) Hw Hu) as [H1 H2]. split; [lia|done].
  - apply useradd_taken; [done|]. by rewrite Hent.
Qed.

(** C30: For a request whose fields hold no newline and fit the buffers, adding a
    user refuses an invalid name with 2, and with 1 a name that is taken, a home
    that is not absolute and a full number space.  Otherwise a line of the name
    is appended to passwd and to shadow, and, exactly when no group number was
    asked for and no group has the name, one to group and one to gshadow.  In
    passwd that line is the entry of the name; in the other files an entry the
    name already had stays the one that is found.  The number is the one asked
    for, in use or not; without one it is, when every line of passwd has its
    fields, at least 1000 and above every number there.  The entries of all
    other names stay in every file, and the same request is refused with 1 from
    then on. *)
Theorem useradd_correct days r db : request_ok days r ->
  match useradd_texts days r db with
  | inl e =>
      e = 2 /\ account_valid_name (ur_name r) = false \/
      e = 1 /\ account_valid_name (ur_name r) = true /\
        (entry (ur_name r) (ac_passwd db) <> None \/ ur_uid r = None /\ account_next_uid (ac_passwd db) 1000 = None \/ bget (home_of r) 0 <> 47)
  | inr (db', uid) => account_valid_name (ur_name r) = true /\ entry (ur_name r) (ac_passwd db) = None /\ user_added days r db db' uid
  end.
Proof.
  intros Hr. destruct (account_valid_name (ur_name r)) eqn:Hv.
  2: { unfold useradd_texts. rewrite Hv. by left. }
  destruct (entry (ur_name r) (ac_passwd db)) as [p|] eqn:He.
  { rewrite useradd_taken by (done || by rewrite He). right. split_and!; [done..|by left]. }
  pose proof (fun uid db' => user_added_ok days r db uid db' Hr Hv He) as Hadd. rewrite useradd_unfold in * by (try done; by apply has_name_false).
  destruct (chosen_uid r db) as [uid|] eqn:Eu.
  - destruct (Z.eqb_spec (bget (home_of r) 0) 47) as [Hh|Hh]; cbn [negb] in *; [|right; split_and!; [done..|by right; right]].
    destruct (_ && _); (split; [done|split; [done|by apply Hadd]]).
  - right. split_and!; [done..|]. right. left. unfold chosen_uid in Eu. by destruct (ur_uid r).
Qed.

(** ** Setting a password *)

(** C31: Setting a password refuses an invalid name with 2 and an unknown user
    with 1; otherwise the shadow entry of the user is the new one wherever an
    old one stood, or added when there was none, every other entry is as it was
    and no other file changes. *)
Theorem passwd_correct days name hash db : 0 <= days < 10 ^ 10 -> nonl hash -> zlen hash < 160 ->
  match passwd_texts days name hash db with
  | inl e => e = 2 /\ account_valid_name name = false \/ e = 1 /\ account_valid_name name = true /\ entry name (ac_passwd db) = None
  | inr db' =>
      let l := shadow_line name hash days in
      account_valid_name name = true /\ entry name (ac_passwd db) <> None /\
      ac_passwd db' = ac_passwd db /\ ac_group db' = ac_group db /\ ac_gshadow db' = ac_gshadow db /\
      lines (ac_shadow db') = ((fun p => if named name p then l else p) <$> lines (ac_shadow db)) ++ (if account_has_name (ac_shadow db) name then [] else [l]) /\
      forall n, plain n -> entry n (ac_shadow db') = if decide (n = name) then Some l else entry n (ac_shadow db)
  end.
Proof.
  intros Hd Hh Hl. unfold passwd_texts. destruct (account_valid_name name) eqn:Hv; cbn [negb]; [|by left]. destruct (valid_name_plain _ Hv) as (Hp & Hlen & _).
  destruct (account_has_name (ac_passwd db) name) eqn:He; cbn [negb]; [|right; split_and!; [done..|by apply has_name_false]].
  assert (zlen (shadow_line name hash days) < 320) as Hfit.
  { pose proof (zlen_print_dec days 10 Hd ltac:(lia)). unfold shadow_line, colon. rewrite !zlen_app. change (zlen [58]) with 1. change (zlen (str_bytes ":0:99999:7:::")) with 13. lia. }
  rewrite snprintf_id by done. cbn [ac_passwd ac_shadow ac_group ac_gshadow]. cbv zeta. split_and!; try done; [by apply has_name_entry| |].
  - apply lines_replace. apply shadow_line_nonl; [done|done|lia].
  - intros n Hn. apply entry_replace; [done| |done]. nonls.
Qed.

(** ** A user added, and given a password *)

Definition ex_db : account_db :=
  let nl := [10] in
  AccountDb (str_bytes "root:x:0:0::/root:/bin/sh" ++ nl ++ str_bytes "ann:x:1000:1000::/home/ann:/bin/sh") (str_bytes "root:!:0::::::" ++ nl) [] [].
Definition ex_request : user_request := UserRequest (str_bytes "bob") None None None (str_bytes "/bin/sh") [].
Definition ex_added : account_db := match useradd_texts 20000 ex_request ex_db with inr (db, _) => db | inl _ => ex_db end.
Definition ex_secured : account_db := match passwd_texts 20000 (str_bytes "bob") (str_bytes "$5$x") ex_added with inr db => db | inl _ => ex_added end.

Lemma useradd_correct_witness :
  entry (str_bytes "bob") (ac_passwd ex_added) = Some (str_bytes "bob:x:1001:1001::/home/bob:/bin/sh") /\ entry (str_bytes "ann") (ac_passwd ex_added) = entry (str_bytes "ann") (ac_passwd ex_db) /\
  useradd_texts 20000 ex_request ex_added = inl 1.
Proof.
  assert (request_ok 20000 ex_request) as Hr by (split; [lia|done|done|split_and!; [constructor|decide_now|done]|vm_compute; congruence]).
  pose proof (useradd_correct 20000 ex_request ex_db Hr) as H. assert (useradd_texts 20000 ex_request ex_db = inr (ex_added, 1001)) as E by (vm_compute; reflexivity). rewrite E in H.
  destruct H as (_ & _ & H). split; [etransitivity; [exact (ua_entry _ _ _ _ _ H)|vm_compute; reflexivity]|]. split; [apply (ex_other _ _ _ _ (ua_passwd _ _ _ _ _ H)); [split; decide_now|done]|exact (ua_again _ _ _ _ _ H)].
Defined.
Lemma passwd_correct_witness :
  entry (str_bytes "bob") (ac_shadow ex_secured) = Some (str_bytes "bob:$5$x:20000:0:99999:7:::") /\ entry (str_bytes "root") (ac_shadow ex_secured) = Some (str_bytes "root:!:0::::::").
Proof.
  pose proof (passwd_correct 20000 (str_bytes "bob") (str_bytes "$5$x") ex_added) as H. assert (passwd_texts 20000 (str_bytes "bob") (str_bytes "$5$x") ex_added = inr ex_secured) as E by (vm_compute; reflexivity). rewrite E in H.
  destruct H as (_ & _ & _ & _ & _ & _ & H); [lia|decide_now|reflexivity|]. rewrite !H by (split; decide_now). split; vm_compute; reflexivity.
Defined.
