(* ===== verification/AccountCrypt.v ===== *)
(** * AccountCrypt: the password hash of [src/account_util.c]

    [account_sha256_crypt] against the SHA-crypt definition it follows.  The
    definition is stated apart from the code: with one-shot SHA-256, its own
    repetition of digests, its own alphabet and order of the bytes in the text,
    and is compared with the text published for a known digest. *)
From S2P Require Import Prelude Text Sha256.
#[local] Open Scope Z_scope.

(** ** The code *)

(** [si], [su] and [sf] are the routines of [cmd_sha256.c] over again. *)
Definition si (c : sha256_ctx) : sha256_ctx := sha256_init c.
Definition su (c : sha256_ctx) (d : list Z) : sha256_ctx := sha256_update c d.
Definition sf (c : sha256_ctx) : list Z := sha256_final c.

(** [for (n = pl; n > 32; n -= 32) su(&c, B, 32);] *)
Fixpoint whole_digests (fuel : nat) (c : sha256_ctx) (b : list Z) (n : Z) : sha256_ctx :=
  match fuel with O => c | S fuel => if 32 <? n then whole_digests fuel (su c b) b (n - 32) else c end.
(** [for (n = pl; n > 0; n >>= 1)] *)
Fixpoint length_bits (fuel : nat) (c : sha256_ctx) (b password : list Z) (n : Z) : sha256_ctx :=
  match fuel with
  | O => c
  | S fuel => if 0 <? n then length_bits fuel (su c (if Z.odd n then b else password)) b password (Z.shiftr n 1) else c
  end.
(** [for (i = 0; i < n; i++) su(&c, d, ...);] *)
Fixpoint su_times (n : nat) (c : sha256_ctx) (d : list Z) : sha256_ctx := match n with O => c | S n => su_times n (su c d) d end.
(** [P[i] = D[i % 32]] for [i < n] *)
Definition stretch (d : list Z) (n : Z) : list Z := (fun i => bget d (i mod 32)) <$> seqZ 0 n.

(** One round.  The code goes on with the context of the last one, of which
    [si] keeps the buffer alone; here it is that of [c0], and the theorems hold
    for every content of the buffer. *)
Definition crypt_round (c0 : sha256_ctx) (p s : list Z) (i : Z) (c : list Z) : list Z :=
  let x := si c0 in
  let x := if Z.odd i then su x p else su x c in
  let x := if i mod 3 =? 0 then x else su x s in
  let x := if i mod 7 =? 0 then x else su x p in
  let x := if Z.odd i then su x c else su x p in
  sf x.
Fixpoint crypt_rounds (c0 : sha256_ctx) (p s : list Z) (n : nat) (i : Z) (c : list Z) : list Z :=
  match n with O => c | S n => crypt_rounds c0 p s n (i + 1) (crypt_round c0 p s i c) end.

Definition b64t : list Z := str_bytes "./0123456789ABCDEFGHIJKLMNOPQRSTUVWXYZabcdefghijklmnopqrstuvwxyz".
Fixpoint b64_chars (n : nat) (w : Z) : list Z := match n with O => [] | S n => bget b64t (Z.land w 0x3f) :: b64_chars n (Z.shiftr w 6) end.
Definition b64_24 (b2 b1 b0 : Z) (n : nat) : list Z := b64_chars n (Z.lor (Z.lor (Z.shiftl b2 16) (Z.shiftl b1 8)) b0).
(** The 43 characters for the digest [c]. *)
Definition encode_digest (c : list Z) : list Z :=
  let g i j k := b64_24 (bget c i) (bget c j) (bget c k) 4 in
  g 0 10 20 ++ g 21 1 11 ++ g 12 22 2 ++ g 3 13 23 ++ g 24 4 14 ++ g 15 25 5 ++ g 6 16 26 ++ g 27 7 17 ++ g 18 28 8 ++ g 9 19 29 ++
  b64_24 0 (bget c 31) (bget c 30) 3.

Definition salt_of (salt_in : list Z) : list Z := take 16 (take_while (fun c => negb (c =? 36)) salt_in).
(** [None] is [false]; [c0] is what the stack holds before the first [si]. *)
Definition account_sha256_crypt (c0 : sha256_ctx) (password salt_in : list Z) (out_cap : Z) : option (list Z) :=
  if out_cap <? 64 then None else
  let salt := salt_of salt_in in
  let pl := zlen password in
  let c := su (su (si c0) password) salt in
  let b := sf (su (su (su (si c0) password) salt) password) in
  let c := whole_digests (length password) c b pl in
  let c := su c (take (Z.to_nat (pl mod 32)) b) in
  let c := length_bits (length password) c b password pl in
  let a := sf c in
  let dp := sf (su_times (length password) (si c0) password) in
  let p := stretch dp pl in
  let ds := sf (su_times (Z.to_nat (16 + bget a 0)) (si c0) salt) in
  let s := stretch ds (zlen salt) in
  let digest := crypt_rounds c0 p s 5000 0 a in
  let out := str_bytes "$5$" ++ salt ++ [36] ++ encode_digest digest in
  if zlen out <? out_cap then Some out else None.

(** ** SHA-crypt *)

(** The message made of the digest [b] or the password for the bits of [n], low bit first. *)
Fixpoint bit_blocks (fuel : nat) (b password : list Z) (n : Z) : list Z :=
  match fuel with
  | O => []
  | S fuel => if 0 <? n then (if Z.odd n then b else password) ++ bit_blocks fuel b password (n / 2) else []
  end.
Definition repeat_text (n : nat) (d : list Z) : list Z := concat (replicate n d).

(** The first [n] bytes of the text repeated. *)
Definition repeat_to (n : Z) (d : list Z) : list Z := take (Z.to_nat n) (repeat_text (Z.to_nat n) d).

(** The digest as SHA-crypt defines it, after [rounds] rounds, with [filler]
    bytes of digest B repeated in digest A. *)
Definition crypt_message (p s : list Z) (i : Z) (c : list Z) : list Z :=
  (if Z.odd i then p else c) ++ (if i mod 3 =? 0 then [] else s) ++ (if i mod 7 =? 0 then [] else p) ++ (if Z.odd i then c else p).
Definition crypt_digest (rounds : nat) (filler : Z) (password salt : list Z) : list Z :=
  let b := sha256 (password ++ salt ++ password) in
  let a := sha256 (password ++ salt ++ repeat_to filler b ++ bit_blocks (length password) b password (zlen password)) in
  let p := repeat_to (zlen password) (sha256 (repeat_text (length password) password)) in
  let s := repeat_to (zlen salt) (sha256 (repeat_text (Z.to_nat (16 + bget a 0)) salt)) in
  foldl (fun c i => sha256 (crypt_message p s i c)) a (seqZ 0 (Z.of_nat rounds)).

(** The alphabet: a point, a slash, the digits, the capitals, the small letters. *)
Definition crypt_char (d : Z) : Z := if d <? 2 then 46 + d else if d <? 12 then 48 + (d - 2) else if d <? 38 then 65 + (d - 12) else 97 + (d - 38).
(** [n] digits of [w] to the base 64, the lowest first. *)
Definition digits64 (n w : Z) : list Z := (fun i => crypt_char (w / 64 ^ i mod 64)) <$> seqZ 0 n.
(** Group [k] of the text has the bytes [21 k], [21 k + 10] and [21 k + 20], modulo 30. *)
Definition crypt_group (c : list Z) (k : Z) : Z :=
  bget c (21 * k mod 30) * 2 ^ 16 + bget c ((21 * k + 10) mod 30) * 2 ^ 8 + bget c ((21 * k + 20) mod 30).
Definition crypt_encode (c : list Z) : list Z :=
  (seqZ 0 10 ≫= fun k => digits64 4 (crypt_group c k)) ++ digits64 3 (bget c 31 * 2 ^ 8 + bget c 30).

Definition sha_crypt_filled (filler : Z) (password salt : list Z) : list Z :=
  str_bytes "$5$" ++ salt ++ str_bytes "$" ++ crypt_encode (crypt_digest 5000 filler password salt).
(** SHA-crypt repeats digest B to the length of the password. *)
Definition sha_crypt (password salt : list Z) : list Z := sha_crypt_filled (zlen password) password salt.
(** What the code puts there: it adds [length mod 32] bytes after the whole
    digests, none where they would be all 32. *)
Definition code_filler (n : Z) : Z := if (n mod 32 =? 0) && negb (n =? 0) then n - 32 else n.

(** The digest behind the published hash of ``Hello world!'' with the salt ``saltstring''. *)
Definition hello_digest : list Z :=
  [236; 233; 128; 127; 170; 231; 247; 32; 52; 137; 163; 36; 230; 23; 223; 76;
   139; 100; 154; 35; 71; 146; 19; 67; 88; 216; 69; 101; 93; 77; 16; 122].
Lemma crypt_encode_published : crypt_encode hello_digest = str_bytes "5B8vYYiY.CVt1RlTTf8KbXBH3hsxY/GNooZaBBGWEc5".
Proof. vm_compute. reflexivity. Qed.

(** ** Contexts *)

Lemma si_ok c : zlen (sh_block c) = 64 -> represents [] (si c).
Proof. apply sha256_init_ok. Qed.
Lemma su_ok m c d : represents m c -> represents (m ++ d) (su c d).
Proof. apply sha256_update_ok. Qed.
Lemma sf_ok m c : represents m c -> sf c = sha256 m.
Proof. apply sha256_final_ok. Qed.

Lemma repeat_text_S n d : repeat_text (S n) d = d ++ repeat_text n d.
Proof. done. Qed.
Lemma su_times_ok n m c d : represents m c -> represents (m ++ repeat_text n d) (su_times n c d).
Proof.
  revert m c. induction n as [|n IH]; intros m c Hc; cbn [su_times]; [by rewrite app_nil_r|]. rewrite repeat_text_S, app_assoc. by apply IH, su_ok.
Qed.
Lemma whole_digests_ok fuel m c b n : represents m c -> n <= Z.of_nat fuel -> represents (m ++ repeat_text (Z.to_nat ((n - 1) / 32)) b) (whole_digests fuel c b n).
Proof.
  revert m c n. induction fuel as [|fuel IH]; intros m c n Hc Hn; cbn [whole_digests].
  - replace (Z.to_nat ((n - 1) / 32)) with O by dlia. by rewrite app_nil_r.
  - destruct (Z.ltb_spec 32 n).
    + replace (Z.to_nat ((n - 1) / 32)) with (S (Z.to_nat ((n - 32 - 1) / 32))) by dlia. rewrite repeat_text_S, app_assoc. apply IH; [by apply su_ok|lia].
    + replace (Z.to_nat ((n - 1) / 32)) with O by dlia. by rewrite app_nil_r.
Qed.
Lemma length_bits_ok fuel m c b pw n : represents m c -> represents (m ++ bit_blocks fuel b pw n) (length_bits fuel c b pw n).
Proof.
  revert m c n. induction fuel as [|fuel IH]; intros m c n Hc; cbn [length_bits bit_blocks]; [by rewrite app_nil_r|]. destruct (0 <? n); [|by rewrite app_nil_r].
  rewrite app_assoc. rewrite Z.shiftr_div_pow2 by lia. change (2 ^ 1) with 2. by apply IH, su_ok.
Qed.
(** The loops over the password's length end: more turns than characters change nothing. *)
Lemma whole_digests_enough fuel k c b n : n <= Z.of_nat fuel -> whole_digests (fuel + k) c b n = whole_digests fuel c b n.
Proof.
  revert c n. induction fuel as [|fuel IH]; intros c n Hn; cbn [whole_digests Nat.add]; [destruct k; cbn [whole_digests]; [done|]; by rewrite (proj2 (Z.ltb_ge 32 n)) by lia|].
  destruct (32 <? n); [|done]. apply IH. lia.
Qed.
Lemma length_bits_enough fuel k c b pw n : n <= Z.of_nat fuel -> length_bits (fuel + k) c b pw n = length_bits fuel c b pw n.
Proof.
  revert c n. induction fuel as [|fuel IH]; intros c n Hn; cbn [length_bits Nat.add]; [destruct k; cbn [length_bits]; [done|]; by rewrite (proj2 (Z.ltb_ge 0 n)) by lia|].
  destruct (Z.ltb_spec 0 n); [|done]. apply IH. rewrite Z.shiftr_div_pow2 by lia. change (2 ^ 1) with 2. dlia.
Qed.
Lemma crypt_round_ok c0 p s i c : zlen (sh_block c0) = 64 -> crypt_round c0 p s i c = sha256 (crypt_message p s i c).
Proof.
  intros H0. unfold crypt_round, crypt_message. apply sf_ok. pose proof (si_ok c0 H0) as H. apply (su_ok _ _ (if Z.odd i then p else c)) in H.
  assert (forall m x (b : bool) d, represents m x -> represents (m ++ (if b then [] else d)) (if b then x else su x d)) as Hif by (intros m x [] d Hx; [by rewrite app_nil_r|by apply su_ok]).
  apply (Hif _ _ (i mod 3 =? 0) s), (fun H => Hif _ _ (i mod 7 =? 0) p H), (fun H => su_ok _ _ (if Z.odd i then c else p) H) in H. cbn [app] in H. rewrite <- !app_assoc in H. by destruct (Z.odd i).
Qed.
Lemma crypt_rounds_ok c0 p s n i c : zlen (sh_block c0) = 64 -> crypt_rounds c0 p s n i c = foldl (fun c i => sha256 (crypt_message p s i c)) c (seqZ i (Z.of_nat n)).
Proof.
  intros H0. revert i c. induction n as [|n IH]; intros i c; [done|]. cbn [crypt_rounds]. rewrite Nat2Z.inj_succ, seqZ_cons by lia. cbn [foldl]. rewrite crypt_round_ok, IH by done.
  replace (Z.pred (Z.succ (Z.of_nat n))) with (Z.of_nat n) by lia. done.
Qed.

(** ** Texts of digests *)

Lemma sha256_bytes m : zlen (sha256 m) = 32 /\ Forall is_byte (sha256 m).
Proof. unfold sha256, digest. split; [done|]. repeat (apply Forall_app; split); repeat constructor; apply u8_range. Qed.

Lemma stretch_block b n : zlen b = 32 -> 0 <= n -> stretch b (32 + n) = b ++ stretch b n.
Proof.
  intros Hb Hn. unfold stretch. rewrite seqZ_app, fmap_app by lia. f_equal.
  - apply (bytes_at_eq (fun i => bget b (i mod 32)) 0 32 b Hb). intros i Hi. by rewrite Z.add_0_l, Z.mod_small by lia.
  - apply list_eq. intros i. rewrite !list_lookup_fmap. destruct (Z.ltb_spec (Z.of_nat i) n).
    + rewrite !lookup_seqZ_lt by lia. cbn. do 2 f_equal. replace (0 + 32 + Z.of_nat i) with (0 + Z.of_nat i + 1 * 32) by lia. by rewrite Z.mod_add.
    + rewrite !lookup_seqZ_ge by lia. done.
Qed.
Lemma stretch_take b r : zlen b = 32 -> 0 <= r <= 32 -> stretch b r = take (Z.to_nat r) b.
Proof.
  intros Hb Hr. apply (bytes_at_eq (fun i => bget b (i mod 32)) 0 r); [by apply zlen_take; lia|]. intros i Hi. rewrite bget_take by lia. by rewrite Z.add_0_l, Z.mod_small by lia.
Qed.
Lemma stretch_repeat b k r : zlen b = 32 -> 0 <= r <= 32 -> stretch b (32 * Z.of_nat k + r) = repeat_text k b ++ take (Z.to_nat r) b.
Proof.
  intros Hb Hr. induction k as [|k IH]; [by apply stretch_take|]. replace (32 * Z.of_nat (S k) + r) with (32 + (32 * Z.of_nat k + r)) by lia. rewrite stretch_block by (done || lia). by rewrite IH, repeat_text_S, app_assoc.
Qed.
Lemma repeat_text_app n m d : repeat_text (n + m) d = repeat_text n d ++ repeat_text m d.
Proof. unfold repeat_text. by rewrite replicate_add, concat_app. Qed.
Lemma length_repeat_text n d : length (repeat_text n d) = (n * length d)%nat.
Proof. induction n as [|n IH]; [done|]. rewrite repeat_text_S, length_app, IH. lia. Qed.
Lemma repeat_to_blocks b k r : zlen b = 32 -> 0 <= r <= 32 -> repeat_to (32 * Z.of_nat k + r) b = repeat_text k b ++ take (Z.to_nat r) b.
Proof.
  intros Hb Hr. unfold repeat_to. replace (Z.to_nat (32 * Z.of_nat k + r)) with (32 * k + Z.to_nat r)%nat by lia. set (m := Z.to_nat r). assert (length b = 32%nat) as Hl by (unfold zlen in Hb; lia).
  destruct (decide (32 * k + m = 0)%nat) as [E|E]; [assert (k = O /\ m = O) as [-> ->] by lia; done|].
  assert (exists x, 32 * k + m = k + S x)%nat as [x Ex] by (exists (31 * k + m - 1)%nat; lia). rewrite Ex at 2. rewrite repeat_text_app, repeat_text_S.
  rewrite take_app_ge by (rewrite length_repeat_text; lia). rewrite length_repeat_text, Hl. f_equal. rewrite take_app_le by lia. f_equal. lia.
Qed.
Lemma stretch_repeat_to b n : zlen b = 32 -> 0 <= n -> stretch b n = repeat_to n b.
Proof.
  intros Hb Hn. replace n with (32 * Z.of_nat (Z.to_nat (n / 32)) + n mod 32) by dlia. rewrite stretch_repeat, repeat_to_blocks by first [done|dlia]. done.
Qed.
(** The filler of the code. *)
Lemma code_filler_ok b n : zlen b = 32 -> 0 <= n -> repeat_text (Z.to_nat ((n - 1) / 32)) b ++ take (Z.to_nat (n mod 32)) b = repeat_to (code_filler n) b.
Proof.
  intros Hb Hn. rewrite <- repeat_to_blocks by first [done|dlia]. unfold code_filler. f_equal. destruct (Z.eqb_spec (n mod 32) 0), (Z.eqb_spec n 0); cbn [andb negb]; dlia.
Qed.

Lemma b64t_inj i j : 0 <= i < 64 -> 0 <= j < 64 -> bget b64t i = bget b64t j -> i = j.
Proof.
  intros Hi Hj E. assert (NoDup b64t) as Hn by decide_now. assert (length b64t = 64%nat) as Hl by reflexivity. unfold bget in E. rewrite !nth_lookup in E.
  destruct (lookup_lt_is_Some_2 b64t (Z.to_nat i)) as [x Ex]; [lia|]. destruct (lookup_lt_is_Some_2 b64t (Z.to_nat j)) as [y Ey]; [lia|]. rewrite Ex, Ey in E. cbn in E. subst y.
  pose proof (NoDup_lookup _ _ _ _ Hn Ex Ey). lia.
Qed.
Lemma length_b64_chars n w : length (b64_chars n w) = n.
Proof. revert w. induction n as [|n IH]; intros w; [done|]. cbn. by rewrite IH. Qed.
Lemma b64_chars_inj n w v : 0 <= w < 64 ^ Z.of_nat n -> 0 <= v < 64 ^ Z.of_nat n -> b64_chars n w = b64_chars n v -> w = v.
Proof.
  revert w v. induction n as [|n IH]; intros w v Hw Hv E; [simpl in *; lia|]. cbn [b64_chars] in E. injection E as E1 E2. rewrite Nat2Z.inj_succ, Z.pow_succ_r in Hw, Hv by lia.
  change 63 with (Z.ones 6) in E1. rewrite !Z.land_ones in E1 by lia. rewrite !Z.shiftr_div_pow2 in E2 by lia. change (2 ^ 6) with 64 in *.
  apply b64t_inj in E1; [|apply Z.mod_pos_bound; lia..]. apply IH in E2; [|split; [apply Z.div_pos; lia|apply Z.div_lt_upper_bound; lia]..]. rewrite (Z.div_mod w 64), (Z.div_mod v 64) by lia. lia.
Qed.
Lemma word24 p q r : is_byte p -> is_byte q -> is_byte r -> Z.lor (Z.lor (Z.shiftl p 16) (Z.shiftl q 8)) r = r + q * 2 ^ 8 + p * 2 ^ 16.
Proof.
  unfold is_byte. intros Hp Hq Hr. rewrite Z.lor_comm, (Z.lor_comm (Z.shiftl p 16)), Z.lor_assoc. rewrite (lor_shiftl_add r q 8) by lia. by rewrite lor_shiftl_add by lia.
Qed.
Lemma b64_24_inj a b c x y z n : is_byte a -> is_byte b -> is_byte c -> is_byte x -> is_byte y -> is_byte z -> (n = 4%nat \/ n = 3%nat /\ a = 0 /\ x = 0) ->
  b64_24 a b c n = b64_24 x y z n -> a = x /\ b = y /\ c = z.
Proof.
  intros Ha Hb Hc Hx Hy Hz Hn E. unfold b64_24, is_byte in *.
  rewrite !word24 in E by done. apply b64_chars_inj in E; [lia|..]; (destruct Hn as [->|(-> & -> & ->)]; [change (64 ^ Z.of_nat 4) with 16777216|change (64 ^ Z.of_nat 3) with 262144]; lia).
Qed.
Lemma zlen_encode c : zlen (encode_digest c) = 43.
Proof. unfold encode_digest, b64_24, zlen. rewrite !length_app, !length_b64_chars. done. Qed.
(** The text of a digest stands for no other digest. *)
Lemma encode_digest_inj c d : zlen c = 32 -> zlen d = 32 -> Forall is_byte c -> Forall is_byte d -> encode_digest c = encode_digest d -> c = d.
Proof.
  intros Hc Hd Bc Bd E. pose proof (fun i => is_byte_bget c i Bc) as Xc. pose proof (fun i => is_byte_bget d i Bd) as Xd. unfold encode_digest in E.
  repeat match type of E with ?x ++ ?y = ?u ++ ?v => apply app_inj_1 in E as [?H E]; [|unfold b64_24; by rewrite !length_b64_chars] end.
  assert (is_byte 0) as H00 by (unfold is_byte; lia).
  repeat match goal with H : b64_24 _ _ _ 4 = b64_24 _ _ _ 4 |- _ => apply b64_24_inj in H as (? & ? & ?); [|first [apply Xc|apply Xd|by left]..] end.
  apply b64_24_inj in E as (_ & ? & ?); [|first [done|apply Xc|apply Xd|by right]..].
  apply buf_ext; [congruence|]. intros i Hi. rewrite Hc in Hi.
  assert (i ∈ seqZ 0 32) as Hin by (apply elem_of_seqZ; lia). vm_compute in Hin. repeat (apply elem_of_cons in Hin as [->|Hin]; [done|]). by apply elem_of_nil in Hin.
Qed.

(** The two encodings are the same. *)
Lemma b64t_chars i : 0 <= i < 64 -> bget b64t i = crypt_char i.
Proof.
  intros Hi. assert (Forall (fun i => bget b64t i = crypt_char i) (seqZ 0 64)) as H by decide_now. rewrite Forall_forall in H. apply H. apply elem_of_seqZ. lia.
Qed.
Lemma b64_chars_digits n w : b64_chars n w = digits64 (Z.of_nat n) w.
Proof.
  revert w. induction n as [|n IH]; intros w; [done|]. cbn [b64_chars]. unfold digits64 in *. rewrite Nat2Z.inj_succ, seqZ_cons by lia. cbn [fmap list_fmap]. f_equal.
  - change 63 with (Z.ones 6). rewrite Z.land_ones by lia. change (2 ^ 6) with 64. rewrite b64t_chars by (apply Z.mod_pos_bound; lia). by rewrite Z.pow_0_r, Z.div_1_r.
  - rewrite IH, Z.pred_succ. apply list_eq. intros i. rewrite !list_lookup_fmap. destruct (Z.ltb_spec (Z.of_nat i) (Z.of_nat n)).
    + rewrite !lookup_seqZ_lt by lia. cbn. do 3 f_equal. rewrite Z.shiftr_div_pow2 by lia. change (2 ^ 6) with 64. rewrite Z.div_div by lia. do 2 f_equal.
      replace (Z.succ 0 + Z.of_nat i) with (Z.succ (0 + Z.of_nat i)) by lia. by rewrite Z.pow_succ_r by lia.
    + rewrite !lookup_seqZ_ge by lia. done.
Qed.
Lemma b64_24_digits c2 c1 c0 n : is_byte c2 -> is_byte c1 -> is_byte c0 -> b64_24 c2 c1 c0 n = digits64 (Z.of_nat n) (c2 * 2 ^ 16 + c1 * 2 ^ 8 + c0).
Proof. intros. unfold b64_24. rewrite word24, b64_chars_digits by done. f_equal. lia. Qed.
Lemma encode_digest_spec c : Forall is_byte c -> encode_digest c = crypt_encode c.
Proof.
  intros Hc. pose proof (fun i => is_byte_bget c i Hc) as X. assert (is_byte 0) by (unfold is_byte; lia). unfold encode_digest, crypt_encode. rewrite !b64_24_digits by done. rewrite Z.mul_0_l, Z.add_0_l.
  change (seqZ 0 10) with [0; 1; 2; 3; 4; 5; 6; 7; 8; 9]. rewrite !bind_cons, <- !app_assoc. reflexivity.
Qed.

(** ** The hash *)

Lemma salt_fits salt_in : zlen (salt_of salt_in) <= 16.
Proof. unfold salt_of, zlen. rewrite length_take. lia. Qed.
Lemma zlen_crypt_encode c : zlen (crypt_encode c) = 43.
Proof. unfold crypt_encode. change (seqZ 0 10) with [0; 1; 2; 3; 4; 5; 6; 7; 8; 9]. rewrite !bind_cons. reflexivity. Qed.
Lemma foldl_sha256_bytes (f : list Z -> Z -> list Z) l a : zlen a = 32 /\ Forall is_byte a -> let d := foldl (fun c i => sha256 (f c i)) a l in zlen d = 32 /\ Forall is_byte d.
Proof. revert a. induction l as [|i l IH]; intros a Ha; [done|]. cbn [foldl]. apply IH, sha256_bytes. Qed.
Lemma crypt_digest_bytes rounds filler password salt : zlen (crypt_digest rounds filler password salt) = 32 /\ Forall is_byte (crypt_digest rounds filler password salt).
Proof. unfold crypt_digest. cbv zeta. apply (foldl_sha256_bytes (fun c i => crypt_message _ _ i c)), sha256_bytes. Qed.

Lemma salt_of_spec salt_in : exists rest, salt_in = salt_of salt_in ++ rest /\ Forall (fun c => c <> 36) (salt_of salt_in) /\
  (zlen (salt_of salt_in) = 16 \/ zlen (salt_of salt_in) < 16 /\ match rest with [] => True | c :: _ => c = 36 end).
Proof.
  unfold salt_of. set (t := take_while _ salt_in).
  assert (exists r, salt_in = t ++ r /\ Forall (fun c => c <> 36) t /\ match r with [] => True | c :: _ => c = 36 end) as (r & E & Ht & Hr).
  { subst t. induction salt_in as [|c s (r & E & Ht & Hr)]; [by exists []|]. cbn [take_while]. destruct (Z.eqb_spec c 36) as [->|Hc]; cbn [negb]; [by exists (36 :: s)|].
    exists r. split; [by rewrite E at 1|]. split; [by constructor|done]. }
  exists (drop 16 t ++ r). rewrite app_assoc, take_drop. split; [done|]. split; [by apply Forall_take|]. unfold zlen. rewrite length_take.
  destruct (decide (16 <= length t)%nat); [left; lia|]. right. split; [lia|]. by rewrite drop_ge by lia.
Qed.

Section crypt.
Context (c0 : sha256_ctx) (H0 : zlen (sh_block c0) = 64) (password salt_in : list Z).
Local Abbreviation salt := (salt_of salt_in).

Lemma crypt_text cap : 64 <= cap -> account_sha256_crypt c0 password salt_in cap = Some (sha_crypt_filled (code_filler (zlen password)) password salt).
Proof using H0.
  intros Hc. unfold account_sha256_crypt. rewrite (proj2 (Z.ltb_ge cap 64)) by lia. cbv zeta.
  pose proof (si_ok c0 H0) as Hs. pose proof (zlen_nonneg password) as Hn. pose proof (zlen_nonneg salt) as Hsn.
  assert (sf (su (su (su (si c0) password) salt) password) = sha256 (password ++ salt ++ password)) as Eb.
  { apply sf_ok. rewrite app_assoc, <- (app_nil_l (password ++ salt)), app_assoc. by repeat apply su_ok. }
  rewrite Eb. set (b := sha256 (password ++ salt ++ password)). assert (zlen b = 32) as Hb by apply sha256_bytes.
  assert (sf (length_bits (length password) (su (whole_digests (length password) (su (su (si c0) password) salt) b (zlen password)) (take (Z.to_nat (zlen password mod 32)) b)) b password (zlen password))
    = sha256 (password ++ salt ++ repeat_to (code_filler (zlen password)) b ++ bit_blocks (length password) b password (zlen password))) as Ea.
  { apply sf_ok. rewrite <- (code_filler_ok b _ Hb Hn), <- (app_nil_l password) at 1. rewrite !app_assoc. rewrite <- (app_assoc _ (repeat_text _ _)), <- !app_assoc.
    rewrite !app_assoc. apply length_bits_ok, su_ok, whole_digests_ok; [by do 2 apply su_ok|done]. }
  rewrite Ea. set (a := sha256 (password ++ salt ++ repeat_to _ b ++ _)).
  rewrite (sf_ok (repeat_text (length password) password)) by (apply (su_times_ok _ [] _ _ Hs)). rewrite (sf_ok (repeat_text (Z.to_nat (16 + bget a 0)) salt)) by (apply (su_times_ok _ [] _ _ Hs)).
  rewrite crypt_rounds_ok by done. rewrite !stretch_repeat_to by (done || apply sha256_bytes). unfold sha_crypt_filled, crypt_digest. cbv zeta. fold b. fold a.
  rewrite encode_digest_spec by (apply (foldl_sha256_bytes (fun c i => crypt_message _ _ i c)), sha256_bytes). set (digest := crypt_encode _).
  assert (zlen digest = 43) as Hd by apply zlen_crypt_encode. rewrite (proj2 (Z.ltb_lt _ cap)); [done|]. rewrite !zlen_app, Hd. pose proof (salt_fits salt_in). change (zlen (str_bytes "$5$")) with 3. change (zlen [36]) with 1. lia.
Qed.
End crypt.

(** C32: Hashing a password needs a buffer of 64 bytes and always succeeds with
    one, whatever the stack held.  The salt is what stands before the first
    dollar sign, 16 characters at most.  The text is that of SHA-crypt but for
    one step: when the length of the password is a positive multiple of 32,
    the last 32 bytes of the repeated digest are missing in digest A; for every
    other length it is that of SHA-crypt.  Two passwords have the same text for
    a salt exactly when their digests are the same. *)
Theorem sha256_crypt_correct c0 password salt_in cap : zlen (sh_block c0) = 64 ->
  match account_sha256_crypt c0 password salt_in cap with
  | None => cap < 64
  | Some out =>
      64 <= cap /\ zlen out < 64 /\
      exists salt rest, salt_in = salt ++ rest /\ Forall (fun c => c <> 36) salt /\
        (zlen salt = 16 \/ zlen salt < 16 /\ match rest with [] => True | c :: _ => c = 36 end) /\
        out = sha_crypt_filled (code_filler (zlen password)) password salt /\
        (zlen password mod 32 <> 0 \/ password = [] -> out = sha_crypt password salt) /\
        forall other, account_sha256_crypt c0 other salt_in cap = Some out <->
          crypt_digest 5000 (code_filler (zlen other)) other salt = crypt_digest 5000 (code_filler (zlen password)) password salt
  end.
Proof.
  intros H0. destruct (Z.ltb_spec cap 64) as [Hc|Hc]; [unfold account_sha256_crypt; rewrite (proj2 (Z.ltb_lt cap 64) Hc); exact Hc|].
  rewrite crypt_text by done. split; [done|]. destruct (salt_of_spec salt_in) as (rest & E & Hs & Hl). split; [|exists (salt_of salt_in), rest; split_and!; [done..| |]].
  - unfold sha_crypt_filled. rewrite !zlen_app, zlen_crypt_encode. pose proof (salt_fits salt_in). change (zlen (str_bytes "$5$")) with 3. change (zlen (str_bytes "$")) with 1. lia.
  - intros Hp. assert (code_filler (zlen password) = zlen password) as E1 by (unfold code_filler; destruct Hp as [Hp| ->]; [rewrite (proj2 (Z.eqb_neq _ _) Hp)|]; reflexivity).
    rewrite E1. reflexivity.
  - intros other. rewrite crypt_text by done. unfold sha_crypt_filled. split; [|intros Ed; rewrite Ed; reflexivity]. intros Ed. apply (inj Some) in Ed. do 3 apply app_inv_head in Ed.
    pose proof (crypt_digest_bytes 5000 (code_filler (zlen other)) other (salt_of salt_in)) as [X1 X2]. pose proof (crypt_digest_bytes 5000 (code_filler (zlen password)) password (salt_of salt_in)) as [Y1 Y2].
    rewrite <- !encode_digest_spec in Ed by assumption. apply encode_digest_inj; assumption.
Qed.

(** The fresh context of the concrete run: a zeroed stack frame. *)
Definition zero_ctx : sha256_ctx := Ctx sha256_iv 0 (zrep 64 0) 0.
Lemma sha256_crypt_correct_witness : exists out,
  account_sha256_crypt zero_ctx (str_bytes "toor") (str_bytes "salt$x") 512 = Some out /\ zlen out < 64 /\ out = sha_crypt (str_bytes "toor") (str_bytes "salt").
Proof.
  pose proof (sha256_crypt_correct zero_ctx (str_bytes "toor") (str_bytes "salt$x") 512 eq_refl) as H. destruct (account_sha256_crypt _ _ _ _) as [out|]; [|lia].
  destruct H as (_ & Hl & salt & rest & E & Hs & Hend & _ & Ho & _).
  assert (salt = str_bytes "salt") as Es.
  { clear Ho Hl. destruct salt as [|c1 [|c2 [|c3 [|c4 [|c5 salt]]]]]; vm_compute in E; simplify_eq; [..|by repeat (apply Forall_cons_1 in Hs as [? Hs])];
      first [reflexivity|destruct Hend as [Hend|[_ Hend]]; [by vm_compute in Hend|done]]. }
  exists out. split; [reflexivity|]. split; [exact Hl|]. rewrite Ho by (left; vm_compute; discriminate). rewrite Es. reflexivity.
Defined.
