(* ===== verification/PkgPlan.v ===== *)
(** * PkgPlan: the dependency planner ([src/pkg_plan.c])

    From a requested package the planner builds the graph of the packages it
    needs, collapses the dependency cycles (Tarjan's algorithm), and handles the
    components dependencies first, to print a plan or to install.  The
    repository table and the status file of the target are the variables [r] and
    [status]; the install callback is an argument of [pkg_plan_apply].  Messages
    are not modelled, except the steps of the printed plan. *)
From S2P Require Import Prelude Text DebDep PkgRepo PkgState.
#[local] Open Scope Z_scope.

Definition MAX_NODES : Z := 512.
Definition MAX_EDGES : Z := 4096.

(** ** The data *)

Record node : Type := Node {
  n_e : repo_entry; n_installed : bool; n_visiting : bool; n_done : bool;
  n_index : Z; n_low : Z; n_onstack : bool; n_component : Z;
}.
Definition component : Type := (list nat * bool)%type.
Definition c_members (c : component) : list nat := c.1.
Definition c_emitted (c : component) : bool := c.2.

(** The texts put in [conflict]. *)
Inductive conflict : Type :=
| NoConflict
| NotFound (package : list Z)
| TooManyPackages
| CannotParse (package : list Z)
| Unsatisfied (package : list Z)
| VersionConflict (package version needed_by name op wanted : list Z).

(** [p_stack] has its top first. *)
Record plan : Type := Plan {
  p_n : list node; p_e : list (nat * nat); p_valid : bool; p_conflict : conflict;
  p_next_index : Z; p_stack : list nat; p_comp : list component;
}.
Definition plan_zero : plan := Plan [] [] true NoConflict 0 [] [].

Definition n_package (n : node) : list Z := re_text (n_e n) R_package.
Definition n_version (n : node) : list Z := re_text (n_e n) R_version.
Definition node_new (e : repo_entry) : node := Node e false false false (-1) 0 false (-1).
Definition node_at (p : plan) (i : nat) : node := nth i (p_n p) (node_new entry_empty).

Definition set_n (ns : list node) (p : plan) : plan := Plan ns (p_e p) (p_valid p) (p_conflict p) (p_next_index p) (p_stack p) (p_comp p).
Definition upd_n (f : node -> node) (i : nat) (p : plan) : plan := set_n (alter f i (p_n p)) p.
Definition set_invalid (c : conflict) (p : plan) : plan := Plan (p_n p) (p_e p) false c (p_next_index p) (p_stack p) (p_comp p).
Definition set_comp (cs : list component) (p : plan) : plan := Plan (p_n p) (p_e p) (p_valid p) (p_conflict p) (p_next_index p) (p_stack p) cs.

Definition set_installed (b : bool) (n : node) : node := Node (n_e n) b (n_visiting n) (n_done n) (n_index n) (n_low n) (n_onstack n) (n_component n).
Definition set_visiting (b : bool) (n : node) : node := Node (n_e n) (n_installed n) b (n_done n) (n_index n) (n_low n) (n_onstack n) (n_component n).
Definition set_done (b : bool) (n : node) : node := Node (n_e n) (n_installed n) (n_visiting n) b (n_index n) (n_low n) (n_onstack n) (n_component n).
Definition set_index (i : Z) (n : node) : node := Node (n_e n) (n_installed n) (n_visiting n) (n_done n) i (n_low n) (n_onstack n) (n_component n).
Definition set_low (l : Z) (n : node) : node := Node (n_e n) (n_installed n) (n_visiting n) (n_done n) (n_index n) l (n_onstack n) (n_component n).
Definition set_onstack (b : bool) (n : node) : node := Node (n_e n) (n_installed n) (n_visiting n) (n_done n) (n_index n) (n_low n) b (n_component n).
Definition set_component (c : Z) (n : node) : node := Node (n_e n) (n_installed n) (n_visiting n) (n_done n) (n_index n) (n_low n) (n_onstack n) c.

(** The node of the package called [name]. *)
Definition find_node (p : plan) (name : list Z) : option nat := fst <$> list_find (fun n => n_package n = name) (p_n p).

Definition node_for (e : repo_entry) : comp plan nat := fun p =>
  match find_node p (re_text e R_package) with
  | Some i => (Done i, p)
  | None => if MAX_NODES <=? zlen (p_n p) then (Fail (-1), p) else (Done (length (p_n p)), set_n (p_n p ++ [node_new e]) p)
  end.
Definition add_edge (a b : nat) (p : plan) : plan :=
  if zlen (p_e p) <? MAX_EDGES then Plan (p_n p) (p_e p ++ [(a, b)]) (p_valid p) (p_conflict p) (p_next_index p) (p_stack p) (p_comp p) else p.

(** The computation on every item of a list, in order. *)
Fixpoint each {S A} (f : A -> comp S unit) (l : list A) : comp S unit :=
  match l with [] => ret tt | x :: l => f x ;;; each f l end.

(** ** The graph *)

(** The package chosen for a group ([installed] when the target has it), a
    group the target satisfies with a package of no repository ([is_inst == 2]),
    or none. *)
Inductive choice : Type :=
| Chosen (e : repo_entry) (installed : bool) (alt : dep_alt)
| OnTarget
| NoChoice.

Section planner.
Context (r : repo) (status : option (list Z)).

Definition on_target (a : dep_alt) : bool :=
  match pkg_state_lookup status (al_name a) with inr st => version_satisfies (st_version st) (al_op a) (al_version a) | inl _ => false end.
(** The target has the package at the version of the repository. *)
Definition same_on_target (name : list Z) (e : repo_entry) : bool :=
  match pkg_state_lookup status name with inr st => version_compare (st_version st) (re_text e R_version) =? 0 | inl _ => false end.
Fixpoint choose_alt (g : list dep_alt) : choice :=
  match g with
  | [] => NoChoice
  | a :: g =>
      let best := pkg_repo_find_best r (al_name a) (al_op a) (al_version a) in
      if on_target a then match best with Some e => Chosen e true a | None => OnTarget end
      else
        match best with
        | Some e => Chosen e false a
        | None =>
            match pkg_repo_find_provider r (al_name a) with
            | Some e => Chosen e (same_on_target (re_text e R_package) e) a
            | None => choose_alt g
            end
        end
  end.

(** The conflict reported when no alternative of [g] can be chosen: the first alternative that is a node already. *)
Fixpoint unsatisfied (p : plan) (by_package : list Z) (g : list dep_alt) : conflict :=
  match g with
  | [] => Unsatisfied by_package
  | a :: g =>
      match find_node p (al_name a) with
      | Some x =>
          match al_op a with
          | [] => Unsatisfied by_package
          | op => VersionConflict (n_package (node_at p x)) (n_version (node_at p x)) by_package (al_name a) op (al_version a)
          end
      | None => unsatisfied p by_package g
      end
  end.
Definition invalid (c : conflict) : comp plan unit := modify (set_invalid c) ;;; fail (-1).

(** One group of node [ni]; [rec] is the recursive call. *)
Definition expand_group (rec : nat -> comp plan unit) (ni : nat) (g : list dep_alt) : comp plan unit :=
  let* p := get in
  let package := n_package (node_at p ni) in
  match choose_alt g with
  | OnTarget => ret tt
  | NoChoice => invalid (unsatisfied p package g)
  | Chosen d isinst alt =>
      match find_node p (re_text d R_package) with
      | Some j =>
          let n := node_at p j in
          if negb (version_satisfies (n_version n) (al_op alt) (al_version alt))
          then invalid (VersionConflict (n_package n) (n_version n) package (al_name alt) (match al_op alt with [] => str_bytes "(any)" | op => op end) (al_version alt))
          else ret tt
      | None => ret tt
      end ;;;
      let* o := try (node_for d) in
      match o with
      | None => invalid TooManyPackages
      | Some di =>
          (if isinst then modify (upd_n (set_installed true) di) else ret tt) ;;;
          modify (add_edge ni di) ;;;
          rec di
      end
  end.
Definition expand_field (rec : nat -> comp plan unit) (ni : nat) (txt : list Z) : comp plan unit :=
  match txt with
  | [] => ret tt
  | _ =>
      let* p := get in
      match deb_dep_parse txt with
      | inl _ => invalid (CannotParse (n_package (node_at p ni)))
      | inr gs => each (expand_group rec ni) gs
      end
  end.
Fixpoint expand (fuel : nat) (ni : nat) : comp plan unit := fun p =>
  let n := node_at p ni in
  if n_done n || n_visiting n then (Done tt, p) else
  match fuel with
  | O => (NoFuel, p)
  | S fuel =>
      let '(o, p) := (expand_field (expand fuel) ni (re_text (n_e n) R_pre_depends) ;;; expand_field (expand fuel) ni (re_text (n_e n) R_depends))
                       (upd_n (set_visiting true) ni p) in
      let p := match o with Done _ => upd_n (set_done true) ni p | _ => p end in
      (o, upd_n (set_visiting false) ni p)
  end.

(** ** The components *)

Definition tarjan_enter (v : nat) (p : plan) : plan :=
  let i := p_next_index p in
  Plan (alter (fun n => set_onstack true (set_low i (set_index i n))) v (p_n p)) (p_e p) (p_valid p) (p_conflict p) (i + 1) (v :: p_stack p) (p_comp p).
(** [do ... while (w != v)]: the members popped, the stack left, and the nodes. *)
Fixpoint pop_until (v : nat) (ci : Z) (stack members : list nat) (ns : list node) : list nat * list nat * list node :=
  match stack with
  | [] => (members, [], ns)
  | w :: stack =>
      let ns := alter (fun n => set_component ci (set_onstack false n)) w ns in
      let members := members ++ [w] in
      if decide (w = v) then (members, stack, ns) else pop_until v ci stack members ns
  end.
Definition tarjan_leave (v : nat) (p : plan) : plan :=
  if n_low (node_at p v) =? n_index (node_at p v) then
    if MAX_NODES <=? zlen (p_comp p) then p else
    let '(members, stack, ns) := pop_until v (zlen (p_comp p)) (p_stack p) [] (p_n p) in
    Plan ns (p_e p) (p_valid p) (p_conflict p) (p_next_index p) stack (p_comp p ++ [(members, false)])
  else p.
(** An edge of [v] to [w]; [rec] is the recursive call. *)
Definition tarjan_edge (rec : nat -> comp plan unit) (v w : nat) : comp plan unit :=
  let* p := get in
  if n_index (node_at p w) <? 0 then
    rec w ;;;
    modify (fun p => if n_low (node_at p w) <? n_low (node_at p v) then upd_n (set_low (n_low (node_at p w))) v p else p)
  else if n_onstack (node_at p w) && (n_index (node_at p w) <? n_low (node_at p v))
  then modify (upd_n (set_low (n_index (node_at p w))) v)
  else ret tt.
Fixpoint tarjan (fuel : nat) (v : nat) : comp plan unit :=
  match fuel with
  | O => nofuel
  | S fuel =>
      modify (tarjan_enter v) ;;;
      let* p := get in
      each (fun e => if decide (e.1 = v) then tarjan_edge (tarjan fuel) v e.2 else ret tt) (p_e p) ;;;
      modify (tarjan_leave v)
  end.
Definition reset_node (n : node) : node := set_component (-1) (set_onstack false (set_low 0 (set_index (-1) n))).
Definition build_components : comp plan unit :=
  modify (fun p => Plan (reset_node <$> p_n p) (p_e p) (p_valid p) (p_conflict p) 0 [] []) ;;;
  let* p := get in
  each (fun i => let* p := get in if n_index (node_at p i) <? 0 then tarjan (length (p_n p)) i else ret tt) (seq 0 (length (p_n p))).

(** ** The walk over the components *)

(** The emitted marks cleared. *)
Definition clear_emitted (p : plan) : plan := set_comp ((fun c => (c_members c, false)) <$> p_comp p) p.
Definition comp_at (p : plan) (ci : Z) : component := nth (Z.to_nat ci) (p_comp p) ([], true).

(** [emit_component], [apply_component]: the components a component needs, then
    [work] on its members.  [X] is what the work changes besides the nodes. *)
Section walk.
Context {X : Type} (work : list nat -> comp (list node * X) unit).
Definition on_nodes (c : comp (list node * X) unit) : comp (plan * X) unit := fun s =>
  let '(o, (ns, x)) := c (p_n s.1, s.2) in (o, (set_n ns s.1, x)).
(** The visit of the component that edge [e] leads to, when it starts at [n] and leaves component [ci]. *)
Definition visit_edge (visit : Z -> comp (plan * X) unit) (ci : Z) (n : nat) (e : nat * nat) : comp (plan * X) unit :=
  let* s := get in
  let depc := n_component (node_at s.1 e.2) in
  if decide (e.1 = n) then (if depc =? ci then ret tt else visit depc) else ret tt.
Fixpoint walk_component (fuel : nat) (ci : Z) : comp (plan * X) unit := fun s =>
  let p := s.1 in
  if (ci <? 0) || (zlen (p_comp p) <=? ci) then (Done tt, s) else
  let c := comp_at p ci in
  if c_emitted c then (Done tt, s) else
  match fuel with
  | O => (NoFuel, s)
  | S fuel =>
      (each (fun n => each (visit_edge (walk_component fuel) ci n) (p_e p)) (c_members c) ;;;
       on_nodes (work (c_members c))) (set_comp (alter (fun c => (c_members c, true)) (Z.to_nat ci) (p_comp p)) p, s.2)
  end.
(** From the component of the root node, then the components not reached. *)
Definition walk (root_node : nat) : comp (plan * X) unit :=
  modify (fun s => (clear_emitted s.1, s.2)) ;;;
  let* s := get in
  let fuel := S (length (p_comp s.1)) in
  (if decide (root_node < length (p_n s.1))%nat then walk_component fuel (n_component (node_at s.1 root_node)) else ret tt) ;;;
  each (fun i => let* s := get in if c_emitted (comp_at s.1 (Z.of_nat i)) then ret tt else walk_component fuel (Z.of_nat i)) (seq 0 (length (p_comp s.1))).
End walk.

(** The steps printed: a number and the nodes of the step. *)
Definition print_step (members : list nat) : comp (list node * list (Z * list nat)) unit :=
  modify (fun s => (s.1, s.2 ++ [(zlen s.2 + 1, members)])).
Definition print_unpack_plan (root_node : nat) (p : plan) : outcome unit * (plan * list (Z * list nat)) := walk print_step root_node (p, []).

Definition entry_path (e : repo_entry) : option (list Z) :=
  let root := re_repo_root e in
  let out := root ++ (match last root with Some c => if c =? 47 then [] else [47] | None => [47] end) ++ re_text e R_filename in
  if 1400 <=? zlen out then None else Some out.

Section apply.
Context {T : Type} (cb : list Z -> comp T unit).
(** What installing changes: the target, and the counts of packages unpacked and skipped. *)
Definition apply_member (i : nat) : comp (list node * (T * Z * Z)) unit := fun s =>
  let '(ns, (t, done, skip)) := s in
  let n := nth i ns (node_new entry_empty) in
  if n_installed n then (Done tt, (ns, (t, done, skip + 1))) else
  match entry_path (n_e n) with
  | None => (Fail 1, s)
  | Some path =>
      match cb path t with
      | (Done _, t) => (Done tt, (alter (set_installed true) i ns, (t, done + 1, skip)))
      | (Fail _, t) => (Fail 1, (ns, (t, done, skip)))
      | (NoFuel, t) => (NoFuel, (ns, (t, done, skip)))
      end
  end.
Definition apply_component : nat -> Z -> comp (plan * (T * Z * Z)) unit := walk_component (each apply_member).
End apply.

(** ** The entry points *)

(** The root node; the plan tells whether it is valid. *)
Definition build_plan (package : list Z) : outcome (option nat) * plan :=
  match pkg_repo_find_best r package [] [] with
  | None => (Done None, set_invalid (NotFound package) plan_zero)
  | Some rootpkg =>
      match node_for rootpkg plan_zero with
      | (Done ri, p) =>
          let p := if same_on_target package rootpkg then upd_n (set_installed true) ri p else p in
          (let* _ := try (expand (Z.to_nat MAX_NODES + 1) ri) in build_components ;;; ret (Some ri)) p
      | (_, p) => (Done None, set_invalid TooManyPackages p)
      end
  end.

(** [pkg_plan_run]: the status, the plan, and the steps printed when it is valid. *)
Definition pkg_plan_run (package : list Z) : outcome (Z * plan * list (Z * list nat)) :=
  match build_plan package with
  | (Done None, p) => Done (1, p, [])
  | (Done (Some ri), p) =>
      if p_valid p then
        match print_unpack_plan ri p with
        | (Done _, (_, steps)) => Done (0, p, steps)
        | (Fail rc, _) => Fail rc
        | (NoFuel, _) => NoFuel
        end
      else Done (1, p, [])
  | (Fail rc, _) => Fail rc
  | (NoFuel, _) => NoFuel
  end.
(** The counts of packages unpacked and already present. *)
Definition pkg_plan_apply {T} (cb : list Z -> comp T unit) (package : list Z) : comp T (Z * Z) := fun t =>
  match build_plan package with
  | (Done (Some ri), p) =>
      if p_valid p then
        match walk (each (apply_member cb)) ri (p, (t, 0, 0)) with
        | (Done _, (_, (t, done, skip))) => (Done (done, skip), t)
        | (Fail rc, (_, (t, _, _))) => (Fail rc, t)
        | (NoFuel, (_, (t, _, _))) => (NoFuel, t)
        end
      else (Fail 1, t)
  | (Done None, _) => (Fail 1, t)
  | (Fail rc, _) => (Fail rc, t)
  | (NoFuel, _) => (NoFuel, t)
  end.
End planner.
