(* ===== verification/PkgScc.v ===== *)
(** * PkgScc: the components of the planner are the strongly connected components

    Correctness of [tarjan] and [build_components] of [src/pkg_plan.c]: after
    them two packages have the same component exactly when each needs the
    other, and no edge leads to a component of a higher number. *)
From stdpp Require Import relations.
From S2P Require Import Prelude PkgRepo PkgPlan.
#[local] Open Scope Z_scope.

Definition idx (p : plan) (v : nat) : Z := n_index (node_at p v).
Definition low (p : plan) (v : nat) : Z := n_low (node_at p v).
Definition cmp (p : plan) (v : nat) : Z := n_component (node_at p v).
Definition on (p : plan) (v : nat) : bool := n_onstack (node_at p v).

(** What the components do not change of a node. *)
Definition core (n : node) : repo_entry * bool * bool * bool := (n_e n, n_installed n, n_visiting n, n_done n).

Lemma nth_alter {A} (f : A -> A) (l : list A) i v d : (i < length l)%nat -> nth v (alter f i l) d = if decide (v = i) then f (nth v l d) else nth v l d.
Proof.
  intros Hi. rewrite !nth_lookup, list_lookup_alter. destruct (decide (i = v)) as [<-|Hn], (decide _); try done.
  destruct (lookup_lt_is_Some_2 l i Hi) as [x ->]. done.
Qed.
Lemma node_at_upd f i p v : (i < length (p_n p))%nat -> node_at (upd_n f i p) v = if decide (v = i) then f (node_at p v) else node_at p v.
Proof. intros Hi. unfold node_at. by apply nth_alter. Qed.

(** A loop that keeps [P], which says what has been done so far. *)
Lemma each_ind {S A} (f : A -> comp S unit) (P : list A -> S -> Prop) l s :
  (forall pre x post s, l = pre ++ x :: post -> P pre s -> exists s', f x s = (Done tt, s') /\ P (pre ++ [x]) s') ->
  P [] s -> exists s', each f l s = (Done tt, s') /\ P l s'.
Proof.
  intros Hf H0. assert (forall post pre s, l = pre ++ post -> P pre s -> exists s', each f post s = (Done tt, s') /\ P l s') as H; [|by apply (H l [])].
  induction post as [|x post IH]; intros pre t El Hp; [exists t; rewrite El, app_nil_r; done|]. destruct (Hf pre x post t El Hp) as (t' & Et & Hp').
  cbn [each]. rewrite (bind_done _ _ _ _ _ Et). apply (IH (pre ++ [x])); [by rewrite <- app_assoc|done].
Qed.
Lemma filter_shrinks {A} (P Q : A -> Prop) `{forall x, Decision (P x)} `{forall x, Decision (Q x)} l : (forall x, x ∈ l -> Q x -> P x) ->
  (length (filter Q l) <= length (filter P l))%nat /\ forall x, x ∈ l -> P x -> ~ Q x -> (length (filter Q l) < length (filter P l))%nat.
Proof.
  induction l as [|y l IH]; intros Hl; [split; [done|]; by intros x Hx%elem_of_nil|]. destruct IH as [IH1 IH2]; [intros x Hx; apply Hl; by right|].
  pose proof (Hl y (list_elem_of_here _ _)) as Hy. rewrite !filter_cons. split.
  - destruct (decide (Q y)), (decide (P y)); cbn [length]; try lia. by destruct n; apply Hy.
  - intros x [->|Hx]%elem_of_cons HP HQ; [destruct (decide (Q y)), (decide (P y)); cbn [length]; try lia; done|]. specialize (IH2 x Hx HP HQ).
    destruct (decide (Q y)), (decide (P y)); cbn [length]; try lia. by destruct n; apply Hy.
Qed.

Definition closed_node (ci : Z) (n : node) : node := set_component ci (set_onstack false n).
Lemma pop_until_spec v ci seg rest ms ns : v ∉ seg ->
  pop_until v ci (seg ++ v :: rest) ms ns = (ms ++ seg ++ [v], rest, foldl (fun ns w => alter (closed_node ci) w ns) ns (seg ++ [v])).
Proof.
  intros Hv. revert ms ns. induction seg as [|w seg IH]; intros ms ns; cbn; [by rewrite decide_True|]. apply not_elem_of_cons in Hv as [Hn Hv].
  rewrite decide_False by done. rewrite IH by done. by rewrite <- app_assoc.
Qed.
Lemma nth_closed ci l ns x d : Forall (fun w => (w < length ns)%nat) l ->
  nth x (foldl (fun ns w => alter (closed_node ci) w ns) ns l) d = if decide (x ∈ l) then closed_node ci (nth x ns d) else nth x ns d.
Proof.
  intros Hl. revert ns Hl. induction l as [|w l IH]; intros ns Hl; cbn; [by rewrite decide_False by by intros ?%elem_of_nil|]. inversion Hl; subst.
  rewrite IH by (by rewrite length_alter). rewrite nth_alter by done. destruct (decide (x = w)) as [->|Hn].
  - rewrite (decide_True (P := w ∈ w :: l)) by (by left). by destruct (decide _).
  - destruct (decide (x ∈ l)); [rewrite decide_True by (by right)|rewrite decide_False by (by intros [?|?]%elem_of_cons)]; done.
Qed.
Lemma length_closed ci l ns : length (foldl (fun ns w => alter (closed_node ci) w ns) ns l) = length ns.
Proof. revert ns. induction l as [|w l IH]; intros ns; cbn; [done|]. by rewrite IH, length_alter. Qed.

Section scc.
(** The edges, between [N] nodes. *)
Context (E : list (nat * nat)) (N : nat).
Hypothesis edges_in : forall a b, (a, b) ∈ E -> (a < N)%nat /\ (b < N)%nat.
Hypothesis few : (N <= 512)%nat.

Definition edge (a b : nat) : Prop := (a, b) ∈ E.
Definition reach : nat -> nat -> Prop := rtc edge.

Definition visited (p : plan) (v : nat) : Prop := 0 <= idx p v.

(** The state between the steps of the algorithm. *)
Record inv (p : plan) : Prop := Inv {
  iv_edges : p_e p = E;
  iv_len : length (p_n p) = N;
  iv_next : 0 <= p_next_index p;
  iv_idx : forall v, (v < N)%nat -> idx p v < p_next_index p;
  iv_nodup : NoDup (p_stack p);
  iv_on : forall v, (v < N)%nat -> v ∈ p_stack p <-> on p v = true;
  iv_stk : forall v, v ∈ p_stack p -> (v < N)%nat /\ visited p v /\ cmp p v = -1;
  iv_out : forall v, (v < N)%nat -> visited p v -> v ∉ p_stack p -> 0 <= cmp p v < zlen (p_comp p);
  iv_un : forall v, (v < N)%nat -> ~ visited p v -> cmp p v = -1;
  iv_comp : forall ci c, p_comp p !! ci = Some c -> c_members c <> [] /\ NoDup (c_members c) /\
    forall v, v ∈ c_members c <-> (v < N)%nat /\ cmp p v = Z.of_nat ci;
  iv_edge : forall v w, (v < N)%nat -> 0 <= cmp p v -> edge v w -> 0 <= cmp p w <= cmp p v;
  iv_scc : forall v w, (v < N)%nat -> (w < N)%nat -> 0 <= cmp p v -> cmp p v = cmp p w -> reach v w;
}.

(** From [p] to [p']: the nodes visited before are as they were. *)
Record step (p p' : plan) : Prop := Step {
  sp_frame : forall v, (v < N)%nat -> visited p v -> node_at p' v = node_at p v;
  sp_core : forall v, core (node_at p' v) = core (node_at p v);
  sp_next : p_next_index p <= p_next_index p';
  sp_valid : p_valid p' = p_valid p;
}.
#[local] Instance step_preorder : PreOrder step.
Proof.
  split; [split; [done|done|lia|done]|]. intros a b c [F1 C1 N1 V1] [F2 C2 N2 V2]. split; [|intros v; by rewrite C2|lia|congruence].
  intros v Hv H. rewrite F2; [by apply F1|done|]. unfold visited, idx in *. by rewrite F1.
Qed.

(** The edges of a node lead to visited nodes, on the stack to none below [l]. *)
Definition above (p : plan) (l : Z) (w : nat) : Prop := visited p w /\ (w ∈ p_stack p -> l <= idx p w).
Definition edges_above (p : plan) (l : Z) (x : nat) : Prop := forall w, edge x w -> above p l w.
Definition linked (v x : nat) : Prop := reach v x /\ reach x v.

(** What a call of [tarjan v] in [p] leaves. *)
Record called (v : nat) (p p' : plan) : Prop := Called {
  cl_inv : inv p';
  cl_step : step p p';
  cl_visited : visited p' v;
  cl_seg : exists seg, p_stack p' = seg ++ p_stack p /\
    (forall x, x ∈ seg -> p_next_index p <= idx p' x /\ linked v x /\ edges_above p' (low p' v) x) /\
    (seg = [] /\ p_next_index p <= low p' v \/
     v ∈ seg /\ exists y, y ∈ p_stack p /\ idx p y = low p' v /\ reach v y);
}.

(** Inside the call of [tarjan v] in [p0], the edges [es] of [v] done. *)
Record looping (v : nat) (p0 : plan) (es : list (nat * nat)) (p : plan) : Prop := Looping {
  lo_inv : inv p;
  lo_step : step p0 p;
  lo_idx : idx p v = p_next_index p0;
  lo_low : low p v <= idx p v /\ exists y, y ∈ p_stack p /\ idx p y = low p v /\ reach v y;
  lo_seg : exists seg, p_stack p = seg ++ v :: p_stack p0 /\
    forall x, x ∈ seg -> p_next_index p0 <= idx p x /\ linked v x /\ edges_above p (low p v) x;
  lo_done : forall w, (v, w) ∈ es -> above p (low p v) w;
}.

Lemma step_visited p p' v : step p p' -> (v < N)%nat -> visited p v -> visited p' v.
Proof. intros H Hv Hx. unfold visited, idx in *. by rewrite (sp_frame _ _ H). Qed.
Definition unvisited (p : plan) : nat := length (filter (fun v => idx p v < 0) (seq 0 N)).
Lemma unvisited_step p p' : step p p' -> (unvisited p' <= unvisited p)%nat.
Proof.
  intros H. apply filter_shrinks. intros x Hx%elem_of_seq Hn. destruct (Z.lt_ge_cases (idx p x) 0) as [|Hge]; [done|].
  pose proof (step_visited _ _ x H ltac:(lia) Hge). unfold visited in *. lia.
Qed.
Lemma unvisited_less p p' v : step p p' -> (v < N)%nat -> ~ visited p v -> visited p' v -> (unvisited p' < unvisited p)%nat.
Proof.
  intros H Hv Hn Hy. apply (filter_shrinks (fun x => idx p x < 0) (fun x => idx p' x < 0)) with v; [|by apply elem_of_seq; lia|unfold visited in *; lia..].
  intros x Hx%elem_of_seq Hnx. destruct (Z.lt_ge_cases (idx p x) 0) as [|Hge]; [done|]. pose proof (step_visited _ _ x H ltac:(lia) Hge). unfold visited in *. lia.
Qed.

Lemma unvisited_le p : (unvisited p <= N)%nat.
Proof.
  unfold unvisited. pose proof (submseteq_length _ _ (sublist_submseteq _ _ (sublist_filter (fun v => idx p v < 0) (seq 0 N)))) as H. by rewrite length_seq in H.
Qed.
Lemma unvisited_ext p p' : (forall x, idx p' x = idx p x) -> unvisited p' = unvisited p.
Proof. intros H. unfold unvisited. f_equal. apply list_filter_iff. intros x. by rewrite H. Qed.

(** [low] does not matter to the invariant. *)
Lemma node_at_low l v p x : length (p_n p) = N -> (v < N)%nat -> node_at (upd_n (set_low l) v p) x = if decide (x = v) then set_low l (node_at p v) else node_at p x.
Proof. intros Hl Hv. rewrite node_at_upd by lia. by destruct (decide _) as [->|]. Qed.
Lemma upd_low l v p x : length (p_n p) = N -> (v < N)%nat ->
  idx (upd_n (set_low l) v p) x = idx p x /\ on (upd_n (set_low l) v p) x = on p x /\ cmp (upd_n (set_low l) v p) x = cmp p x /\
  low (upd_n (set_low l) v p) x = (if decide (x = v) then l else low p x) /\ core (node_at (upd_n (set_low l) v p) x) = core (node_at p x).
Proof. intros Hl Hv. unfold idx, on, cmp, low. rewrite node_at_low by done. by destruct (decide _) as [->|]. Qed.
Lemma inv_low p v l : inv p -> (v < N)%nat -> inv (upd_n (set_low l) v p).
Proof.
  intros Hi Hv. pose proof (fun x => upd_low l v p x (iv_len _ Hi) Hv) as U. destruct Hi as [H1 H2 H3 H4 H5 H6 H7 H8 H9 H10 H11 H12].
  split; unfold visited in *; cbn; try done.
  - by rewrite length_alter.
  - intros x Hx. rewrite (proj1 (U x)). by apply H4.
  - intros x Hx. destruct (U x) as (_ & -> & _). by apply H6.
  - intros x Hx. destruct (U x) as (-> & _ & -> & _). by apply H7.
  - intros x Hx. destruct (U x) as (-> & _ & -> & _). by apply H8.
  - intros x Hx. destruct (U x) as (-> & _ & -> & _). by apply H9.
  - intros ci c Hc. destruct (H10 ci c Hc) as (A & B & C). split_and!; try done. intros x. destruct (U x) as (_ & _ & -> & _). apply C.
  - intros x w. destruct (U x) as (_ & _ & -> & _), (U w) as (_ & _ & -> & _). apply H11.
  - intros x w. destruct (U x) as (_ & _ & -> & _), (U w) as (_ & _ & -> & _). apply H12.
Qed.

(** ** Entering a node *)

Lemma enter_node v p x : length (p_n p) = N -> (v < N)%nat ->
  node_at (tarjan_enter v p) x = if decide (x = v) then set_onstack true (set_low (p_next_index p) (set_index (p_next_index p) (node_at p v))) else node_at p x.
Proof. intros Hl Hv. unfold node_at, tarjan_enter. cbn. rewrite nth_alter by lia. by destruct (decide _) as [->|]. Qed.
Lemma enter_inv p v : inv p -> (v < N)%nat -> ~ visited p v -> inv (tarjan_enter v p).
Proof.
  intros Hi Hv Hn. pose proof (fun x => enter_node v p x (iv_len _ Hi) Hv) as U. destruct Hi as [H1 H2 H3 H4 H5 H6 H7 H8 H9 H10 H11 H12].
  assert (v ∉ p_stack p) as Hvs by (intros Hs; by apply Hn, H7).
  assert (forall x, cmp (tarjan_enter v p) x = cmp p x) as Uc by (intros x; unfold cmp; rewrite U; by destruct (decide _) as [->|]).
  assert (forall x, idx (tarjan_enter v p) x = if decide (x = v) then p_next_index p else idx p x) as Ui by (intros x; unfold idx; rewrite U; by destruct (decide _)).
  split; unfold visited in *; cbn; try done.
  - by rewrite length_alter.
  - lia.
  - intros x Hx. rewrite Ui. specialize (H4 x Hx). destruct (decide _); lia.
  - by apply NoDup_cons.
  - intros x Hx. unfold on. rewrite U, elem_of_cons. destruct (decide _) as [->|]; [split; [done|by left]|]. rewrite <- (H6 x Hx). split; [by intros [?|?]|by right].
  - intros x [->|Hx]%elem_of_cons; rewrite Ui, Uc; [rewrite decide_True by done; split_and!; [done|done|apply H9; [done|lia]]|].
    destruct (decide _) as [->|]; [done|by apply H7].
  - intros x Hx. rewrite Ui, Uc, not_elem_of_cons. intros Hge [Hne Hs]. rewrite decide_False in Hge by done. by apply H8.
  - intros x Hx. rewrite Ui, Uc. destruct (decide _) as [->|]; [lia|by apply H9].
  - intros ci c Hc. destruct (H10 ci c Hc) as (A & B & C). split_and!; try done. intros x. by rewrite Uc.
  - intros x w. rewrite !Uc. apply H11.
  - intros x w. rewrite !Uc. apply H12.
Qed.
Lemma enter_looping p v : inv p -> (v < N)%nat -> ~ visited p v -> looping v p [] (tarjan_enter v p).
Proof.
  intros Hi Hv Hn. pose proof (fun x => enter_node v p x (iv_len _ Hi) Hv) as U. pose proof (iv_next _ Hi).
  assert (low (tarjan_enter v p) v = p_next_index p /\ idx (tarjan_enter v p) v = p_next_index p) as [El Ei] by (unfold low, idx; rewrite U, decide_True by done; done).
  split; [by apply enter_inv| |done| | |].
  - split; [|intros x; rewrite U; by destruct (decide _) as [->|]|cbn; lia|done]. intros x Hx Hvx. rewrite U. by destruct (decide _) as [->|].
  - rewrite El, Ei. split; [done|]. exists v. split; [cbn; by left|]. split; [done|]. apply rtc_refl.
  - exists []. split; [done|]. by intros x Hx%elem_of_nil.
  - by intros w Hw%elem_of_nil.
Qed.

(** ** The edges of a node *)

Lemma above_mono p p' l l' w : above p l w -> l' <= l -> visited p' w -> (w ∈ p_stack p' -> w ∈ p_stack p /\ idx p' w = idx p w) -> above p' l' w.
Proof. intros [H1 H2] Hl Hv Hw. split; [done|]. intros [Hs ->]%Hw. specialize (H2 Hs). lia. Qed.

(** One more edge of [v], to [w]: [seg] is new on the stack, [low v] may have gone down. *)
Lemma looping_more v w p0 es p p' seg : looping v p0 es p -> inv p' -> step p0 p' ->
  p_stack p' = seg ++ p_stack p -> idx p' v = idx p v -> low p' v <= low p v ->
  (exists y, y ∈ p_stack p' /\ idx p' y = low p' v /\ reach v y) ->
  (forall x, (x < N)%nat -> visited p x -> idx p' x = idx p x /\ (x ∈ seg -> x ∈ p_stack p)) ->
  (forall x, x ∈ seg -> p_next_index p0 <= idx p' x /\ linked v x /\ edges_above p' (low p' v) x) ->
  above p' (low p' v) w -> looping v p0 (es ++ [(v, w)]) p'.
Proof.
  intros Hl Hi' Hst Es Ev Hlow Hy Hold Hseg Hw. pose proof (lo_inv _ _ _ _ Hl) as Hi. destruct (lo_seg _ _ _ _ Hl) as (seg0 & Es0 & H0).
  assert (forall x, above p (low p v) x -> (x < N)%nat -> above p' (low p' v) x) as Hup.
  { intros x Hx HxN. destruct (Hold x HxN (proj1 Hx)) as [Ex Hxs]. apply (above_mono p p' (low p v)); [done|done|unfold visited; rewrite Ex; apply Hx|].
    rewrite Es, elem_of_app. intros [H|H]; [split; [by apply Hxs|done]|done]. }
  split; [done|done| | | |].
  - rewrite Ev. apply (lo_idx _ _ _ _ Hl).
  - split; [rewrite Ev; pose proof (proj1 (lo_low _ _ _ _ Hl)); lia|done].
  - exists (seg ++ seg0). split; [by rewrite Es, Es0, app_assoc|]. intros x [Hx|Hx]%elem_of_app; [by apply Hseg|]. destruct (H0 x Hx) as (A & B & C).
    destruct (iv_stk _ Hi x) as (HxN & Hxv & _); [rewrite Es0; apply elem_of_app; by left|]. destruct (Hold x HxN Hxv) as [-> _]. split_and!; [done|done|].
    intros y Hxy. apply Hup; [by apply C|]. by apply (edges_in _ _ Hxy).
  - intros x [Hx|Hx]%elem_of_app; [|by apply list_elem_of_singleton in Hx as [= ->]]. pose proof (lo_done _ _ _ _ Hl x Hx) as Ha. apply Hup; [done|].
    destruct (decide (x < N)%nat) as [|Hn]; [done|]. exfalso. destruct Ha as [Ha _]. unfold visited, idx, node_at in Ha. rewrite nth_overflow in Ha by (rewrite (iv_len _ Hi); lia). cbn in Ha. lia.
Qed.

(** Lowering [low v]. *)
Lemma low_step v p0 p l : inv p0 -> inv p -> (v < N)%nat -> ~ visited p0 v -> step p0 p -> step p0 (upd_n (set_low l) v p).
Proof.
  intros Hi0 Hi Hv Hn [F C X V]. split; [|intros x; rewrite <- C; apply (upd_low l v p x); [apply Hi|done]|done|done].
  intros x Hx Hvx. rewrite node_at_low by (exact (iv_len _ Hi) || done). rewrite decide_False by (by intros ->). by apply F.
Qed.

(** An edge to a node visited before. *)
Lemma looping_seen v w p0 es p : inv p0 -> (v < N)%nat -> ~ visited p0 v -> looping v p0 es p -> edge v w -> visited p w ->
  looping v p0 (es ++ [(v, w)]) (if on p w && (idx p w <? low p v) then upd_n (set_low (idx p w)) v p else p).
Proof.
  intros Hi0 Hv Hn Hl Hvw Hw. pose proof (lo_inv _ _ _ _ Hl) as Hi. destruct (edges_in _ _ Hvw) as [_ HwN]. destruct (lo_low _ _ _ _ Hl) as [L1 (y & Y1 & Y2 & Y3)].
  destruct (_ && _) eqn:Eb.
  - apply andb_true_iff in Eb as [Eon Hlt%Z.ltb_lt]. pose proof (fun x => upd_low (idx p w) v p x (iv_len _ Hi) Hv) as U. set (p' := upd_n _ v p) in *.
    destruct (U v) as (Uv & _ & _ & Ul & _). rewrite decide_True in Ul by done. pose proof (proj2 (iv_on _ Hi w HwN) Eon) as Hws.
    apply (looping_more v w p0 es p p' []); try done.
    + by apply inv_low.
    + apply low_step; try done; apply Hl.
    + lia.
    + exists w. destruct (U w) as (-> & _). split; [done|]. split; [done|]. by apply rtc_once.
    + intros x _ _. destruct (U x) as (-> & _). split; [done|]. by intros ?%elem_of_nil.
    + by intros x Hx%elem_of_nil.
    + unfold above, visited. destruct (U w) as (-> & _). split; [done|]. intros _. lia.
  - apply (looping_more v w p0 es p p []); try done.
    + apply Hl.
    + by exists y.
    + intros x _ _. split; [done|]. by intros ?%elem_of_nil.
    + by intros x Hx%elem_of_nil.
    + split; [done|]. intros Hs. rewrite (proj1 (iv_on _ Hi w HwN) Hs) in Eb. cbn in Eb. by apply Z.ltb_ge in Eb.
Qed.

(** An edge to a node not visited, after the call for it. *)
Lemma looping_call v w p0 es p p1 : inv p0 -> (v < N)%nat -> ~ visited p0 v -> (forall a, a ∈ p_stack p0 -> reach a v) ->
  looping v p0 es p -> edge v w -> ~ visited p w -> called w p p1 ->
  looping v p0 (es ++ [(v, w)]) (if low p1 w <? low p1 v then upd_n (set_low (low p1 w)) v p1 else p1).
Proof.
  intros Hi0 Hv Hn Hpre Hl Hvw Hnw [Ci Cs Cv (seg & Eseg & Hseg & Hcase)]. pose proof (lo_inv _ _ _ _ Hl) as Hi. destruct (lo_low _ _ _ _ Hl) as [L1 (y & Y1 & Y2 & Y3)].
  pose proof (iv_next _ Hi0) as Hn0. pose proof (lo_idx _ _ _ _ Hl) as Ei. assert (visited p v) as Hvv by (unfold visited; lia).
  assert (forall x, (x < N)%nat -> visited p x -> idx p1 x = idx p x /\ low p1 x = low p x) as F by (intros x Hx Hvx; unfold idx, low; by rewrite (sp_frame _ _ Cs)).
  destruct (F v Hv Hvv) as [Eiv Elv]. pose proof (iv_idx _ Hi v Hv) as Hiv. destruct (edges_in _ _ Hvw) as [_ HwN].
  assert (forall a, a ∈ p_stack p -> reach a v) as Hback.
  { destruct (lo_seg _ _ _ _ Hl) as (seg0 & -> & H0). intros a [Ha|[->|Ha]%elem_of_cons]%elem_of_app; [by apply H0|apply rtc_refl|by apply Hpre]. }
  set (p' := if low p1 w <? low p1 v then _ else p1).
  assert ((forall x, idx p' x = idx p1 x) /\ p_stack p' = p_stack p1 /\ inv p' /\ step p0 p' /\ low p' v <= low p1 v /\ low p' v <= low p1 w /\
    (low p' v = low p1 v \/ low p' v = low p1 w)) as (Pi & Ps & Pv & Pst & Pl1 & Pl2 & Pl3).
  { pose proof (fun x => upd_low (low p1 w) v p1 x (iv_len _ Ci) Hv) as U. destruct (U v) as (_ & _ & _ & Ul & _). rewrite decide_True in Ul by done.
    assert (step p0 p1) as S1 by (etransitivity; [apply Hl|done]). subst p'. destruct (Z.ltb_spec (low p1 w) (low p1 v)).
    - rewrite Ul. split_and!; [intros x; apply U|done|by apply inv_low|by apply low_step|lia|lia|by right].
    - split_and!; try done. by left. }
  assert (forall l x, low p' v <= l -> above p1 l x -> above p' (low p' v) x) as Hup.
  { intros l x Hle Hx. apply (above_mono p1 p' l); [done|done|unfold visited; rewrite Pi; apply Hx|]. by rewrite Ps, Pi. }
  apply (looping_more v w p0 es p p' seg); try done.
  - by rewrite Ps.
  - by rewrite Pi.
  - lia.
  - destruct Pl3 as [El|El].
    + exists y. destruct (iv_stk _ Hi y Y1) as (HyN & Hyv & _). rewrite Ps, Pi, El, Elv, Eseg. split; [apply elem_of_app; by right|]. by rewrite (proj1 (F y HyN Hyv)).
    + destruct Hcase as [[-> Hge]|(Hws & z & Z1 & Z2 & Z3)]; [lia|]. exists z. destruct (iv_stk _ Hi z Z1) as (HzN & Hzv & _). rewrite Ps, Pi, El, Eseg.
      split; [apply elem_of_app; by right|]. split; [by rewrite (proj1 (F z HzN Hzv))|]. by apply rtc_l with w.
  - intros x Hx Hvx. destruct (F x Hx Hvx) as [Ex _]. rewrite Pi, Ex. split; [done|]. intros Hxs. destruct (Hseg x Hxs) as (Hge & _). pose proof (iv_idx _ Hi x Hx). lia.
  - intros x Hx. destruct (Hseg x Hx) as (A & (B1 & B2) & C). destruct Hcase as [[-> _]|(Hws & z & Z1 & Z2 & Z3)]; [by apply elem_of_nil in Hx|].
    rewrite Pi. split_and!; [pose proof (sp_next _ _ (lo_step _ _ _ _ Hl)); lia| |intros u Hu; by apply (Hup (low p1 w)), C].
    split; [by apply rtc_l with w|]. etransitivity; [exact B2|]. etransitivity; [exact Z3|]. by apply Hback.
  - unfold above, visited. rewrite Ps, Pi, Eseg. split; [done|]. intros [Hw|Hw]%elem_of_app; [|by apply (iv_stk _ Hi) in Hw as (_ & Hw & _)].
    destruct (Hseg w Hw) as (A & _). lia.
Qed.

(** ** Leaving a node *)

Lemma cmp_lt p x : inv p -> (x < N)%nat -> cmp p x < zlen (p_comp p).
Proof.
  intros Hi Hx. pose proof (zlen_nonneg (p_comp p)). destruct (decide (x ∈ p_stack p)) as [Hs|Hs]; [apply (iv_stk _ Hi) in Hs as (_ & _ & ->); lia|].
  destruct (Z.lt_ge_cases (idx p x) 0) as [Hlt|Hge]; [rewrite (iv_un _ Hi x Hx); unfold visited; lia|]. by apply (iv_out _ Hi).
Qed.
(** There are fewer components than nodes as long as some node has none. *)
Lemma comp_room p v : inv p -> (v < N)%nat -> cmp p v = -1 -> zlen (p_comp p) < Z.of_nat N.
Proof.
  intros Hi Hv Hc. set (hd := fun c : component => nth 0 (c_members c) O).
  assert (forall ci c, p_comp p !! ci = Some c -> (hd c < N)%nat /\ cmp p (hd c) = Z.of_nat ci) as Hhd.
  { intros ci c Hci. destruct (iv_comp _ Hi ci c Hci) as (Hne & _ & Hm). apply Hm. unfold hd. destruct (c_members c); [done|]. by left. }
  assert (NoDup (v :: (hd <$> p_comp p))) as Hd.
  { apply NoDup_cons. split.
    - intros (c & Ec & Hin)%list_elem_of_fmap. apply list_elem_of_lookup_1 in Hin as [ci Hci]. destruct (Hhd ci c Hci) as [_ E2]. rewrite <- Ec, Hc in E2. lia.
    - apply NoDup_fmap_2_strong; [|apply NoDup_alt; intros i j c Hi1 Hj1; pose proof (proj2 (Hhd i c Hi1)); pose proof (proj2 (Hhd j c Hj1)); lia].
      intros c d Hc1 Hd1 Ecd. apply list_elem_of_lookup_1 in Hc1 as [i Hc1], Hd1 as [j Hd1]. pose proof (proj2 (Hhd i c Hc1)) as A. pose proof (proj2 (Hhd j d Hd1)) as B.
      rewrite Ecd in A. assert (i = j) by lia. congruence. }
  assert (v :: (hd <$> p_comp p) ⊆+ seq 0 N) as Hsub.
  { apply NoDup_submseteq; [done|]. intros x [->|(c & -> & Hin)%list_elem_of_fmap]%elem_of_cons; apply elem_of_seq; [lia|].
    apply list_elem_of_lookup_1 in Hin as [ci Hci]. destruct (Hhd ci c Hci). lia. }
  apply submseteq_length in Hsub. cbn in Hsub. rewrite length_fmap, length_seq in Hsub. unfold zlen. lia.
Qed.

(** The nodes [ms] at the top of the stack made a component. *)
Definition close (ms rest : list nat) (p : plan) : plan :=
  Plan (foldl (fun ns w => alter (closed_node (zlen (p_comp p))) w ns) (p_n p) ms) (p_e p) (p_valid p) (p_conflict p) (p_next_index p) rest (p_comp p ++ [(ms, false)]).
Lemma close_node ms rest p x : inv p -> (forall w, w ∈ ms -> (w < N)%nat) ->
  node_at (close ms rest p) x = if decide (x ∈ ms) then closed_node (zlen (p_comp p)) (node_at p x) else node_at p x.
Proof. intros Hi Hms. unfold node_at. cbn. apply nth_closed. apply Forall_forall. intros w Hw. rewrite (iv_len _ Hi). by apply Hms. Qed.
Lemma close_inv ms rest p : inv p -> p_stack p = ms ++ rest -> ms <> [] -> (forall x y, x ∈ ms -> y ∈ ms -> reach x y) ->
  (forall x w, x ∈ ms -> edge x w -> visited p w /\ (w ∈ p_stack p -> w ∈ ms)) -> inv (close ms rest p).
Proof.
  intros Hi Es Hne Hscc Hedge. assert (forall w, w ∈ ms -> w ∈ p_stack p) as Hin by (intros w Hw; rewrite Es; apply elem_of_app; by left).
  assert (forall w, w ∈ ms -> (w < N)%nat) as HN by (intros w Hw; by apply (iv_stk _ Hi), Hin).
  pose proof (iv_nodup _ Hi) as Hnd. rewrite Es in Hnd. apply NoDup_app in Hnd as (Hnd1 & Hnd2 & Hnd3).
  pose proof (fun x => close_node ms rest p x Hi HN) as U. set (ci := zlen (p_comp p)) in *. assert (0 <= ci) as Hci by apply zlen_nonneg.
  assert (forall x, idx (close ms rest p) x = idx p x) as Ui by (intros x; unfold idx; rewrite U; by destruct (decide _)).
  assert (forall x, cmp (close ms rest p) x = if decide (x ∈ ms) then ci else cmp p x) as Uc by (intros x; unfold cmp; rewrite U; by destruct (decide _)).
  assert (forall w, w ∈ ms -> cmp p w = -1) as Hm1 by (intros w Hw; by apply (iv_stk _ Hi), Hin).
  split; unfold visited in *.
  - apply Hi.
  - cbn. rewrite length_closed. apply Hi.
  - apply Hi.
  - intros x Hx. rewrite Ui. by apply (iv_idx _ Hi).
  - done.
  - intros x Hx. change (p_stack (close ms rest p)) with rest. unfold on. rewrite U. pose proof (iv_on _ Hi x Hx) as Hon. rewrite Es, elem_of_app in Hon. unfold on in Hon. destruct (decide _) as [Hd|Hd].
    + cbn. split; [intros Hr; by destruct (Hnd2 x Hd)|done].
    + rewrite <- Hon. split; [by right|by intros [?|?]].
  - intros x Hx. destruct (iv_stk _ Hi x) as (A & B & C); [rewrite Es; apply elem_of_app; by right|]. rewrite Ui, Uc, decide_False by (intros Hd; by apply (Hnd2 x)). done.
  - intros x Hx. change (p_stack (close ms rest p)) with rest. change (p_comp (close ms rest p)) with (p_comp p ++ [(ms, false)]). rewrite zlen_app, Ui, Uc. change (zlen [(ms, false)]) with 1.
    intros Hv Hr. destruct (decide (x ∈ ms)); [lia|]. assert (0 <= cmp p x < ci); [|lia]. apply (iv_out _ Hi x Hx Hv). rewrite Es. by intros [?|?]%elem_of_app.
  - intros x Hx. rewrite Ui, Uc. intros Hv. rewrite decide_False; [by apply (iv_un _ Hi)|]. intros Hd. by apply Hv, (iv_stk _ Hi), Hin.
  - intros cj c. change (p_comp (close ms rest p)) with (p_comp p ++ [(ms, false)]). intros [Hc|[Hl Hc]]%lookup_app_Some.
    + destruct (iv_comp _ Hi cj c Hc) as (A & B & C). split_and!; try done. intros x. rewrite C, Uc. apply lookup_lt_Some in Hc. destruct (decide _) as [Hd|Hd]; [|done].
      rewrite (Hm1 x Hd). unfold ci, zlen. split; intros [_ ?]; lia.
    + apply list_lookup_singleton_Some in Hc as [Hc <-]. split_and!; [done|done|]. intros x. rewrite Uc. unfold ci, zlen. cbn. destruct (decide _) as [Hd|Hd].
      * split; [|done]. intros _. split; [by apply HN|lia].
      * split; [done|]. intros [Hx E1]. pose proof (cmp_lt p x Hi Hx) as Hlt. unfold zlen in Hlt. lia.
  - intros x w Hx. rewrite !Uc. intros Hc Hxw. destruct (edges_in _ _ Hxw) as [_ Hw]. pose proof (cmp_lt p w Hi Hw) as Hlt. fold ci in Hlt. destruct (decide (x ∈ ms)) as [Hd|Hd].
    + destruct (Hedge x w Hd Hxw) as [Hv Hs]. destruct (decide (w ∈ ms)) as [Hd'|Hd']; [lia|]. pose proof (iv_out _ Hi w Hw Hv (fun H => Hd' (Hs H))). lia.
    + pose proof (iv_edge _ Hi x w Hx Hc Hxw) as [H1 H2]. rewrite decide_False; [lia|]. intros Hd'. rewrite (Hm1 w Hd') in H1. lia.
  - intros x w Hx Hw. rewrite !Uc. pose proof (cmp_lt p x Hi Hx). pose proof (cmp_lt p w Hi Hw). destruct (decide (x ∈ ms)), (decide (w ∈ ms)); try lia; [by intros; apply Hscc|]. by apply (iv_scc _ Hi).
Qed.

Lemma leave_called v p0 es p : inv p0 -> (v < N)%nat -> ~ visited p0 v -> looping v p0 es p -> (forall w, edge v w -> (v, w) ∈ es) ->
  called v p0 (tarjan_leave v p).
Proof.
  intros Hi0 Hv Hn Hl Hes. pose proof (lo_inv _ _ _ _ Hl) as Hi. pose proof (iv_next _ Hi0) as Hn0. pose proof (lo_idx _ _ _ _ Hl) as Ei.
  destruct (lo_seg _ _ _ _ Hl) as (seg & Es & Hseg). destruct (lo_low _ _ _ _ Hl) as [L1 (y & Y1 & Y2 & Y3)].
  assert (forall x, x ∈ seg ++ [v] -> p_next_index p0 <= idx p x /\ linked v x /\ edges_above p (low p v) x) as Hall.
  { intros x [Hx|Hx]%elem_of_app; [by apply Hseg|]. apply list_elem_of_singleton in Hx as ->. split; [lia|]. split; [by split|]. intros w Hw. apply (lo_done _ _ _ _ Hl). by apply Hes. }
  assert (forall x, x ∈ p_stack p0 -> idx p x < p_next_index p0) as Hold.
  { intros x Hx. destruct (iv_stk _ Hi0 x Hx) as (HxN & Hxv & _). pose proof (iv_idx _ Hi0 x HxN). unfold idx in *. by rewrite (sp_frame _ _ (lo_step _ _ _ _ Hl)). }
  assert (p_stack p = (seg ++ [v]) ++ p_stack p0) as Es' by (by rewrite <- app_assoc).
  assert (forall x, x ∈ seg ++ [v] -> x ∈ p_stack p) as Hin by (intros x Hx; rewrite Es'; apply elem_of_app; by left).
  unfold tarjan_leave. fold (low p v) (idx p v). destruct (Z.eqb_spec (low p v) (idx p v)) as [Elow|Elow].
  2: { split; [done|apply Hl|unfold visited; lia|]. exists (seg ++ [v]). split; [done|]. split; [done|]. right. split; [apply elem_of_app; right; by apply list_elem_of_singleton|].
    rewrite Es' in Y1. apply elem_of_app in Y1 as [Y1|Y1]; [destruct (Hall y Y1); lia|]. exists y. split; [done|]. split; [|done].
    destruct (iv_stk _ Hi0 y Y1) as (HyN & Hyv & _). unfold idx in *. by rewrite <- (sp_frame _ _ (lo_step _ _ _ _ Hl)) by done. }
  assert (v ∈ seg ++ [v]) as Hvin by (apply elem_of_app; right; by apply list_elem_of_singleton).
  pose proof (comp_room p v Hi Hv (proj2 (proj2 (iv_stk _ Hi v (Hin v Hvin))))) as Hroom. rewrite (proj2 (Z.leb_gt _ _)) by (unfold MAX_NODES; lia).
  pose proof (iv_nodup _ Hi) as Hnd. rewrite Es' in Hnd. apply NoDup_app in Hnd as (Hnd1 & Hnd2 & _).
  rewrite Es, pop_until_spec by (intros Hvs; apply NoDup_app in Hnd1 as (_ & Hnd1 & _); apply (Hnd1 v Hvs); by apply list_elem_of_singleton). cbn [app].
  change (called v p0 (close (seg ++ [v]) (p_stack p0) p)). assert (forall w, w ∈ seg ++ [v] -> (w < N)%nat) as HN by (intros w Hw; by apply (iv_stk _ Hi), Hin).
  pose proof (fun x => close_node (seg ++ [v]) (p_stack p0) p x Hi HN) as U.
  assert (idx (close (seg ++ [v]) (p_stack p0) p) v = p_next_index p0 /\ low (close (seg ++ [v]) (p_stack p0) p) v = p_next_index p0) as [Ui Ul].
  { unfold idx, low in *. rewrite U, decide_True by done. cbn. lia. }
  split.
  - apply close_inv; [done|done|by destruct seg| |].
    + intros x z Hx Hz. destruct (Hall x Hx) as (_ & (_ & A) & _), (Hall z Hz) as (_ & (B & _) & _). by transitivity v.
    + intros x w Hx Hw. destruct (Hall x Hx) as (_ & _ & C). destruct (C w Hw) as [C1 C2]. split; [done|]. intros Hs. specialize (C2 Hs). rewrite Es' in Hs.
      apply elem_of_app in Hs as [Hs|Hs]; [done|]. specialize (Hold w Hs). lia.
  - destruct (lo_step _ _ _ _ Hl) as [F C X V]. split; [|intros x; rewrite U, <- C; by destruct (decide _)|done|done]. intros x Hx Hvx. rewrite U, decide_False; [by apply F|].
    intros Hd. destruct (Hall x Hd) as [A _]. pose proof (iv_idx _ Hi0 x Hx). unfold idx in *. rewrite F in A by done. lia.
  - unfold visited. lia.
  - exists []. split; [done|]. split; [by intros x ?%elem_of_nil|]. left. split; [done|]. lia.
Qed.

(** ** The algorithm *)

Lemma tarjan_called fuel v p : inv p -> (v < N)%nat -> ~ visited p v -> (forall a, a ∈ p_stack p -> reach a v) -> (unvisited p <= fuel)%nat ->
  exists p', tarjan fuel v p = (Done tt, p') /\ called v p p'.
Proof.
  revert v p. induction fuel as [|fuel IH]; intros v p Hi Hv Hn Hpre Hf.
  { exfalso. assert (v ∈ filter (fun v => idx p v < 0) (seq 0 N)) as Hin; [|unfold unvisited in Hf; destruct (filter _ _); [by apply elem_of_nil in Hin|cbn in Hf; lia]].
    apply list_elem_of_filter. split; [unfold visited in Hn; lia|apply elem_of_seq; lia]. }
  cbn [tarjan]. pose proof (enter_looping p v Hi Hv Hn) as H0. set (p1 := tarjan_enter v p) in *. erewrite bind_done by done. erewrite bind_done by done.
  assert (unvisited p1 <= fuel)%nat as Hf1.
  { pose proof (unvisited_less p p1 v (lo_step _ _ _ _ H0) Hv Hn). assert (visited p1 v) as Hv1 by (unfold visited; rewrite (lo_idx _ _ _ _ H0); apply (iv_next _ Hi)). specialize (H Hv1). lia. }
  destruct (each_ind (fun e : nat * nat => if decide (e.1 = v) then tarjan_edge (tarjan fuel) v e.2 else ret tt)
    (fun es q => looping v p es q /\ (unvisited q <= fuel)%nat) (p_e p1) p1) as (p2 & E2 & Hl2 & _).
  - intros pre [a w] post q Ep [Hl Hu]. cbn [fst snd]. destruct (decide (a = v)) as [->|Hne].
    2: { exists q. split; [done|]. split; [|done]. destruct Hl as [A B C D F G]. split; try done. intros x [Hx|Hx]%elem_of_app; [by apply G|]. apply list_elem_of_singleton in Hx as [= <- _]. done. }
    assert (edge v w) as Hvw by (unfold edge; rewrite <- (iv_edges _ (lo_inv _ _ _ _ H0)), Ep; apply elem_of_app; right; by left). destruct (edges_in _ _ Hvw) as [_ Hw].
    unfold tarjan_edge. erewrite bind_done by done. fold (idx q w) (low q v) (on q w). destruct (Z.ltb_spec (idx q w) 0) as [Hlt|Hge].
    + assert (~ visited q w) as Hnw by (unfold visited; lia). destruct (IH w q) as (q' & Eq & Hc); [apply Hl|done|done| | |].
      * intros a Ha. destruct (lo_seg _ _ _ _ Hl) as (seg & Es & Hseg). transitivity v; [|by apply rtc_once]. rewrite Es in Ha.
        apply elem_of_app in Ha as [Ha|[->|Ha]%elem_of_cons]; [by apply Hseg|done|by apply Hpre].
      * done.
      * rewrite (bind_done _ _ _ _ _ Eq). eexists. split; [done|]. fold (low q' w) (low q' v). split; [by eapply looping_call|].
        pose proof (unvisited_step q q' (cl_step _ _ _ Hc)). destruct (low q' w <? low q' v); [|lia]. rewrite (unvisited_ext q'); [lia|].
        intros x. apply upd_low; [apply Hc|done].
    + pose proof (looping_seen v w p pre q Hi Hv Hn Hl Hvw Hge) as Hs. destruct (on q w && _); (eexists; split; [done|]; split; [done|]; [..]); [|done].
      rewrite (unvisited_ext q); [done|]. intros x. apply upd_low; [apply Hl|done].
  - split; [done|done].
  - rewrite (bind_done _ _ _ _ _ E2). eexists. split; [done|]. apply (leave_called v p (p_e p1)); try done. intros w Hw. by rewrite (iv_edges _ (lo_inv _ _ _ _ H0)).
Qed.

(** Every node visited, none on the stack. *)
Record components (p p' : plan) : Prop := Components {
  co_edges : p_e p' = E;
  co_len : length (p_n p') = N;
  co_core : forall v, core (node_at p' v) = core (node_at p v);
  co_valid : p_valid p' = p_valid p;
  co_range : forall v, (v < N)%nat -> 0 <= cmp p' v < zlen (p_comp p');
  co_members : forall ci c, p_comp p' !! ci = Some c -> c_members c <> [] /\ NoDup (c_members c) /\
    forall v, v ∈ c_members c <-> (v < N)%nat /\ cmp p' v = Z.of_nat ci;
  co_down : forall v w, edge v w -> cmp p' w <= cmp p' v;
  co_scc : forall v w, (v < N)%nat -> (w < N)%nat -> cmp p' v = cmp p' w <-> reach v w /\ reach w v;
}.

Lemma reach_down p' : (forall v w, edge v w -> cmp p' w <= cmp p' v) -> forall v w, reach v w -> cmp p' w <= cmp p' v.
Proof. intros H v w Hr. induction Hr as [|x y z Hxy _ IH]; [done|]. specialize (H x y Hxy). lia. Qed.

Lemma reset_node_at p x : node_at (Plan (reset_node <$> p_n p) (p_e p) (p_valid p) (p_conflict p) 0 [] []) x = reset_node (node_at p x).
Proof. unfold node_at. cbn. rewrite !nth_lookup, list_lookup_fmap. by destruct (p_n p !! x). Qed.
Lemma build_components_ok p : p_e p = E -> length (p_n p) = N -> exists p', build_components p = (Done tt, p') /\ components p p'.
Proof.
  intros HE HN. unfold build_components. erewrite bind_done by done. set (p0 := Plan _ _ _ _ _ _ _). erewrite bind_done by done.
  assert (length (p_n p0) = N) as HN0 by (unfold p0; cbn; by rewrite length_fmap). rewrite HN0.
  assert (forall x, node_at p0 x = reset_node (node_at p x)) as U by apply reset_node_at.
  assert (forall x, idx p0 x = -1 /\ on p0 x = false /\ cmp p0 x = -1) as U' by (intros x; unfold idx, on, cmp; by rewrite U).
  assert (inv p0) as Hi0.
  { split; try done; unfold visited.
    - intros x Hx. destruct (U' x) as (-> & _). done.
    - constructor.
    - intros x Hx. destruct (U' x) as (_ & -> & _). split; [by intros ?%elem_of_nil|done].
    - by intros x ?%elem_of_nil.
    - intros x Hx. destruct (U' x) as (-> & _). lia.
    - intros x Hx. by destruct (U' x) as (_ & _ & ->).
    - intros x w Hx. destruct (U' x) as (_ & _ & ->). lia.
    - intros x w Hx Hw. destruct (U' x) as (_ & _ & ->). lia. }
  destruct (each_ind (fun i => let* p := get in if n_index (node_at p i) <? 0 then tarjan (length (p_n p)) i else ret tt)
    (fun vs q => inv q /\ p_stack q = [] /\ step p0 q /\ forall x, x ∈ vs -> visited q x) (seq 0 N) p0) as (p1 & E1 & Hi1 & Es1 & Hst & Hv1).
  - intros pre i post q Ep (Hi & Hs & Hst & Hv). assert (i < N)%nat as HiN by (assert (i ∈ seq 0 N) as H by (rewrite Ep; apply elem_of_app; right; by left); apply elem_of_seq in H; lia).
    erewrite bind_done by done. rewrite (iv_len _ Hi). fold (idx q i). destruct (Z.ltb_spec (idx q i) 0) as [Hlt|Hge].
    + destruct (tarjan_called N i q) as (q' & Eq & [Ci Cs Cv (seg & Eseg & Hseg & Hc)]); try done; [unfold visited; lia|rewrite Hs; by intros a ?%elem_of_nil| |].
      { apply unvisited_le. }
      exists q'. split; [done|]. split; [done|]. destruct Hc as [[-> _]|(_ & y & Hy & _)]; [|rewrite Hs in Hy; by apply elem_of_nil in Hy]. split; [by rewrite Eseg, Hs|].
      split; [by etransitivity|]. intros x [Hx|Hx]%elem_of_app; [|by apply list_elem_of_singleton in Hx as ->]. apply (step_visited q); [done| |by apply Hv].
      assert (x ∈ seq 0 N) as H by (rewrite Ep; apply elem_of_app; by left). apply elem_of_seq in H. lia.
    + exists q. split; [done|]. split_and!; try done. intros x [Hx|Hx]%elem_of_app; [by apply Hv|]. by apply list_elem_of_singleton in Hx as ->.
  - split_and!; try done. by intros x ?%elem_of_nil.
  - exists p1. split; [exact E1|]. assert (forall v, (v < N)%nat -> 0 <= cmp p1 v < zlen (p_comp p1)) as Hr.
    { intros v Hv. apply (iv_out _ Hi1); [done|apply Hv1, elem_of_seq; lia|rewrite Es1; by intros ?%elem_of_nil]. }
    assert (forall v w, edge v w -> cmp p1 w <= cmp p1 v) as Hd by (intros v w Hvw; destruct (edges_in _ _ Hvw); apply (iv_edge _ Hi1); [done|apply Hr; lia|done]).
    split; try done; [apply Hi1|apply Hi1|intros v; rewrite (sp_core _ _ Hst), U; done|by rewrite (sp_valid _ _ Hst)|apply Hi1|].
    intros v w Hv Hw. split.
    + intros Ec. split; apply (iv_scc _ Hi1); try done; by apply Hr.
    + intros [R1 R2]. pose proof (reach_down p1 Hd _ _ R1). pose proof (reach_down p1 Hd _ _ R2). lia.
Qed.
End scc.

(** C6: the components the planner computes are the strongly connected components of its graph: it
    ends on every graph of at most 512 packages, two packages are in one component exactly when
    each is reachable from the other, every package is in one component, and an edge never leads
    to a component of a higher number. *)
Theorem build_components_scc (p : plan) :
  (forall a b, (a, b) ∈ p_e p -> (a < length (p_n p))%nat /\ (b < length (p_n p))%nat) -> (length (p_n p) <= 512)%nat ->
  exists p', build_components p = (Done tt, p') /\ components (p_e p) (length (p_n p)) p p'.
Proof. intros He Hn. by apply build_components_ok. Qed.
(** Two packages that need each other, and a third that needs one of them. *)
Definition ex_graph : plan := Plan (replicate 3 (node_new entry_empty)) [(0, 1); (1, 2); (2, 1)]%nat true NoConflict 0 [] [].
Lemma build_components_scc_witness : exists p',
  build_components ex_graph = (Done tt, p') /\ cmp p' 1 = cmp p' 2 /\ cmp p' 0 <> cmp p' 1 /\ components (p_e ex_graph) 3 ex_graph p'.
Proof.
  destruct (build_components_scc ex_graph) as (p' & E & H); [|cbn; lia|].
  - intros a b Hab. repeat (apply elem_of_cons in Hab as [[= -> ->]|Hab]; [cbn; lia|]). by apply elem_of_nil in Hab.
  - exists p'. split; [exact E|]. assert (p' = (build_components ex_graph).2) as -> by (by rewrite E). split; [by vm_compute|]. split; [by vm_compute|exact H].
Defined.
