(* ===== verification/PkgClosure.v ===== *)
(** * PkgClosure: the graph of the planner is the closure of the request

    Correctness of [expand] and [build_plan] of [src/pkg_plan.c]: a valid plan
    holds every package that the packages in it need. *)
From stdpp Require Import relations.
From S2P Require Import Prelude Text DebDep PkgRepo PkgState PkgPlan PkgScc.
#[local] Open Scope Z_scope.

(** ** The searches *)

Lemma pkg_repo_find_best_some r name op ver e : pkg_repo_find_best r name op ver = Some e ->
  e ∈ rp_entries r /\ re_text e R_package = name /\ version_satisfies (re_text e R_version) op ver = true.
Proof.
  unfold pkg_repo_find_best. assert (forall es best, foldl (fun best e => if negb (streq (re_text e R_package) name) then best else if negb (version_satisfies (re_text e R_version) op ver) then best else better e best) best es = Some e ->
    best = Some e \/ e ∈ es /\ re_text e R_package = name /\ version_satisfies (re_text e R_version) op ver = true) as H.
  { induction es as [|x es IH]; intros best; cbn; [by left|]. intros [Hb|(A & B & C)]%IH; [|right; split_and!; try done; by right].
    destruct (streq _ name) eqn:E1; [|by left]. cbn in Hb. destruct (version_satisfies (re_text x _) op ver) eqn:E2; [|by left]. cbn in Hb. apply streq_true in E1.
    unfold better in Hb. destruct best as [b|]; [destruct (0 <? _)|]; try (by left); injection Hb as ->; right; split_and!; try done; by left. }
  intros [?|?]%H; done.
Qed.
Lemma pkg_repo_find_provider_some r n e : pkg_repo_find_provider r n = Some e -> e ∈ rp_entries r /\ provides_name (re_text e R_provides) n = true.
Proof.
  unfold pkg_repo_find_provider. assert (forall es best, foldl (fun best e => if provides_name (re_text e R_provides) n then better e best else best) best es = Some e ->
    best = Some e \/ e ∈ es /\ provides_name (re_text e R_provides) n = true) as H.
  { induction es as [|x es IH]; intros best; cbn; [by left|]. intros [Hb|(A & B)]%IH; [|right; split; [by right|done]].
    destruct (provides_name (re_text x R_provides) n) eqn:E1; [|by left]. unfold better in Hb. destruct best as [b|]; [destruct (0 <? _)|]; try (by left); injection Hb as ->; right; (split; [by left|done]). }
  intros [?|?]%H; done.
Qed.

Lemma find_node_some p name j : find_node p name = Some j -> (j < length (p_n p))%nat /\ n_package (node_at p j) = name.
Proof.
  unfold find_node. destruct (list_find _ _) as [[i n]|] eqn:E; [|done]. intros [= <-]. apply list_find_Some in E as (H & <- & _). split; [by eapply lookup_lt_Some|].
  unfold node_at. by rewrite (nth_lookup_Some _ _ _ _ H).
Qed.
Lemma find_node_none p name : find_node p name = None -> name ∉ n_package <$> p_n p.
Proof.
  unfold find_node. destruct (list_find _ _) as [[i n]|] eqn:E; [done|]. intros _ (n & -> & Hn)%list_elem_of_fmap. apply list_find_None in E. rewrite Forall_forall in E. by apply (E n).
Qed.

Lemma fmap_alter_same {A B} (f : A -> A) (g : A -> B) (l : list A) i : (forall x, g (f x) = g x) -> g <$> alter f i l = g <$> l.
Proof. intros H. revert i. induction l as [|x l IH]; intros [|i]; cbn; [done|done|by rewrite H|by rewrite IH]. Qed.
Lemma node_at_out p j : (length (p_n p) <= j)%nat -> node_at p j = node_new entry_empty.
Proof. intros H. unfold node_at. by apply nth_overflow. Qed.
(** A change of a node that [g] does not see. *)
Lemma node_at_same {B} (g : node -> B) f i p j : (forall n, g (f n) = g n) -> g (node_at (upd_n f i p) j) = g (node_at p j).
Proof.
  intros H. destruct (decide (i < length (p_n p))%nat) as [Hi|Hi]; [rewrite node_at_upd by done; by destruct (decide _) as [->|]|].
  destruct (decide (j < length (p_n p))%nat) as [Hj|Hj]; [|rewrite !node_at_out by (cbn; rewrite ?length_alter; lia); done].
  unfold node_at. cbn. by rewrite !nth_lookup, list_lookup_alter_ne by lia.
Qed.

Section closure.
Context (r : repo) (status : option (list Z)).

(** ** What a plan promises *)

(** Node [j] answers alternative [a]: it is the package named, at a version the relation accepts, or
    a package of which some record provides the name. *)
Definition answers (p : plan) (j : nat) (a : dep_alt) : Prop :=
  n_package (node_at p j) = al_name a /\ version_satisfies (n_version (node_at p j)) (al_op a) (al_version a) = true \/
  exists d, d ∈ rp_entries r /\ re_text d R_package = n_package (node_at p j) /\ provides_name (re_text d R_provides) (al_name a) = true.
Definition satisfied (p : plan) (ni : nat) (g : list dep_alt) : Prop :=
  exists a, a ∈ g /\ (on_target status a = true \/ exists j, (ni, j) ∈ p_e p /\ (j < length (p_n p))%nat /\ answers p j a).
(** Both relationship fields of node [ni] parse and every group of them is satisfied. *)
Definition deps_met (p : plan) (ni : nat) : Prop :=
  forall f, f = R_pre_depends \/ f = R_depends -> exists gs, deb_dep_parse (re_text (n_e (node_at p ni)) f) = inr gs /\ forall g, g ∈ gs -> satisfied p ni g.

Definition edges_left (p : plan) : Prop := zlen (p_e p) < MAX_EDGES.
Record plan_ok (p : plan) : Prop := PlanOk {
  po_len : (length (p_n p) <= 512)%nat;
  po_pkgs : NoDup (n_package <$> p_n p);
  po_entries : forall j, (j < length (p_n p))%nat -> n_e (node_at p j) ∈ rp_entries r;
  po_edges : forall a b, (a, b) ∈ p_e p -> (a < length (p_n p))%nat /\ (b < length (p_n p))%nat;
  po_reach : edges_left p -> forall j, (j < length (p_n p))%nat -> rtc (edge (p_e p)) 0%nat j;
  po_done : edges_left p -> forall j, (j < length (p_n p))%nat -> n_done (node_at p j) = true -> deps_met p j;
}.

(** From [p] to [p'] nodes and edges are only added. *)
Record grow (p p' : plan) : Prop := Grow {
  gw_len : (length (p_n p) <= length (p_n p'))%nat;
  gw_e : forall j, (j < length (p_n p))%nat -> n_e (node_at p' j) = n_e (node_at p j);
  gw_visiting : forall j, n_visiting (node_at p' j) = n_visiting (node_at p j);
  gw_done : forall j, n_done (node_at p j) = true -> n_done (node_at p' j) = true;
  gw_edges : p_e p `prefix_of` p_e p';
}.
#[local] Instance grow_preorder : PreOrder grow.
Proof.
  split; [by split|]. intros a b c [L1 E1 V1 D1 P1] [L2 E2 V2 D2 P2]. split; [lia| | |by auto|by etransitivity].
  - intros j Hj. rewrite E2 by lia. by apply E1.
  - intros j. by rewrite V2.
Qed.
Lemma grow_left p p' : grow p p' -> edges_left p' -> edges_left p.
Proof. intros H. unfold edges_left, zlen. pose proof (prefix_length _ _ (gw_edges _ _ H)). lia. Qed.
Lemma answers_grow p p' j a : grow p p' -> (j < length (p_n p))%nat -> answers p j a -> answers p' j a.
Proof. intros H Hj. unfold answers, n_package, n_version. by rewrite (gw_e _ _ H j Hj). Qed.
Lemma satisfied_grow p p' ni g : grow p p' -> satisfied p ni g -> satisfied p' ni g.
Proof.
  intros H (a & Ha & Hs). exists a. split; [done|]. destruct Hs as [Hs|(j & Hj & Hl & Hs)]; [by left|right]. exists j. split_and!.
  - destruct (gw_edges _ _ H) as [k ->]. apply elem_of_app. by left.
  - pose proof (gw_len _ _ H). lia.
  - by apply (answers_grow p).
Qed.
Lemma deps_met_grow p p' ni : grow p p' -> (ni < length (p_n p))%nat -> deps_met p ni -> deps_met p' ni.
Proof.
  intros H Hn Hm f Hf. destruct (Hm f Hf) as (gs & E & Hg). exists gs. rewrite (gw_e _ _ H ni Hn). split; [done|]. intros g Hin. by apply (satisfied_grow p), Hg.
Qed.

(** ** Adding a package and an edge *)

Lemma choose_alt_chosen g d inst a : choose_alt r status g = Chosen d inst a ->
  a ∈ g /\ d ∈ rp_entries r /\ (re_text d R_package = al_name a /\ version_satisfies (re_text d R_version) (al_op a) (al_version a) = true \/
    provides_name (re_text d R_provides) (al_name a) = true).
Proof.
  induction g as [|x g IH]; cbn; [done|]. destruct (on_target status x), (pkg_repo_find_best _ _ _ _) as [e|] eqn:E1; try done.
  1, 2: intros [= <- _ <-]; apply pkg_repo_find_best_some in E1 as (A & B & C); (split; [by left|]); (split; [done|]); by left.
  destruct (pkg_repo_find_provider _ _) as [e|] eqn:E2; [|intros H; destruct (IH H) as (A & B); split; [by right|done]].
  intros [= <- _ <-]. apply pkg_repo_find_provider_some in E2 as (A & B). split; [by left|]. split; [done|]. by right.
Qed.
Lemma choose_alt_on_target g : choose_alt r status g = OnTarget -> exists a, a ∈ g /\ on_target status a = true.
Proof.
  induction g as [|x g IH]; cbn; [done|]. destruct (on_target status x) eqn:E, (pkg_repo_find_best _ _ _ _) as [e|]; try done; [exists x; by split; [left|]|].
  destruct (pkg_repo_find_provider _ _); [done|]. intros H. destruct (IH H) as (a & A & B). exists a. by split; [right|].
Qed.

Lemma node_at_edge a b p j : node_at (add_edge a b p) j = node_at p j.
Proof. unfold add_edge. by destruct (_ <? _). Qed.
(** [q] is [p], or [p] with the one new node [di]. *)
Record attached (p q : plan) (di : nat) : Prop := Attached {
  at_edges : p_e q = p_e p;
  at_grow : grow p q;
  at_len : (length (p_n q) <= 512)%nat;
  at_pkgs : NoDup (n_package <$> p_n q);
  at_entries : forall j, (j < length (p_n q))%nat -> n_e (node_at q j) ∈ rp_entries r;
  at_new : forall j, (length (p_n p) <= j < length (p_n q))%nat -> j = di;
  at_done : forall j, n_done (node_at q j) = n_done (node_at p j);
  at_di : (di < length (p_n q))%nat;
  at_valid : p_valid q = p_valid p;
}.
Lemma attached_link p q ni di b : plan_ok p -> attached p q di -> (ni < length (p_n p))%nat ->
  let q' := add_edge ni di (if b : bool then upd_n (set_installed true) di q else q) in
  plan_ok q' /\ grow p q' /\ length (p_n q') = length (p_n q) /\ p_valid q' = p_valid p /\ (edges_left q' -> (ni, di) ∈ p_e q') /\
  forall j, n_e (node_at q' j) = n_e (node_at q j).
Proof.
  intros Hok [He Hg Hl Hp Hen Hnew Hd Hdi Hv] Hni. set (q1 := if b then _ else q). cbn zeta.
  assert (p_e q1 = p_e p /\ length (p_n q1) = length (p_n q) /\ p_valid q1 = p_valid p /\ n_package <$> p_n q1 = n_package <$> p_n q) as (Q1 & Q2 & Q3 & Q4).
  { subst q1. destruct b; cbn; rewrite ?length_alter; split_and!; try done. by apply fmap_alter_same. }
  assert (forall j, n_e (node_at q1 j) = n_e (node_at q j) /\ n_visiting (node_at q1 j) = n_visiting (node_at q j) /\ n_done (node_at q1 j) = n_done (node_at q j)) as Q5.
  { intros j. subst q1. destruct b; [|done]. split_and!; [apply (node_at_same n_e)|apply (node_at_same n_visiting)|apply (node_at_same n_done)]; done. }
  set (q' := add_edge ni di q1). assert (p_n q' = p_n q1 /\ p_valid q' = p_valid p) as [Q6 Q7] by (unfold q', add_edge; by destruct (_ <? _)).
  assert (forall j, node_at q' j = node_at q1 j) as Q8 by (intros j; unfold node_at; by rewrite Q6).
  assert (p_e p `prefix_of` p_e q' /\ (edges_left q' -> p_e q' = p_e p ++ [(ni, di)]) /\ forall e, e ∈ p_e q' -> e ∈ p_e p \/ e = (ni, di)) as (Q9 & Q10 & Q11).
  { unfold q', add_edge, edges_left. rewrite Q1. destruct (Z.ltb_spec (zlen (p_e p)) MAX_EDGES) as [Hlt|Hge]; cbn.
    - split; [by eexists|]. split; [done|]. intros e [?|?%list_elem_of_singleton]%elem_of_app; [by left|by right].
    - rewrite Q1. split; [done|]. split; [lia|]. by left. }
  assert (grow p q') as G.
  { split; rewrite ?Q6, ?Q2; try done; [apply Hg| | |]; intros j; rewrite Q8; destruct (Q5 j) as (A1 & A2 & A3); rewrite ?A1, ?A2, ?A3; apply Hg. }
  split_and!; try done.
  - split; rewrite ?Q6, ?Q2, ?Q4; try done.
    + intros j Hj. rewrite Q8. destruct (Q5 j) as (-> & _). by apply Hen.
    + intros x y [Hxy|[= -> ->]]%Q11; [destruct (po_edges _ Hok x y Hxy); pose proof (gw_len _ _ Hg); lia|]. pose proof (gw_len _ _ Hg). lia.
    + intros Hel j Hj. pose proof (grow_left _ _ G Hel) as Hel0.
      assert (forall i, (i < length (p_n p))%nat -> rtc (edge (p_e q')) 0%nat i) as Hr.
      { intros i Hi. eapply rtc_subrel; [|by apply (po_reach _ Hok)]. intros x y Hxy. unfold edge in *. rewrite Q10 by done. apply elem_of_app. by left. }
      destruct (decide (j < length (p_n p))%nat) as [Hjp|Hjp]; [by apply Hr|]. rewrite (Hnew j ltac:(lia)). eapply rtc_r; [by apply Hr|]. unfold edge. rewrite Q10 by done. apply elem_of_app. right. by apply list_elem_of_singleton.
    + intros Hel j Hj. rewrite Q8. destruct (Q5 j) as (_ & _ & ->). rewrite Hd. intros Hdj. destruct (decide (j < length (p_n p))%nat) as [Hjp|Hjp]; [|by rewrite node_at_out in Hdj by lia].
      apply (deps_met_grow p); [done|done|]. apply (po_done _ Hok); [by eapply grow_left|done|done].
  - by rewrite Q6, Q2.
  - intros Hel. rewrite Q10 by done. apply elem_of_app. right. by apply list_elem_of_singleton.
  - intros j. rewrite Q8. apply Q5.
Qed.
Lemma attached_old p di : plan_ok p -> (di < length (p_n p))%nat -> attached p p di.
Proof. intros [] Hd. split; try done. lia. Qed.
Lemma attached_new p d : plan_ok p -> (length (p_n p) < 512)%nat -> d ∈ rp_entries r -> re_text d R_package ∉ n_package <$> p_n p ->
  attached p (set_n (p_n p ++ [node_new d]) p) (length (p_n p)).
Proof.
  intros Hok Hl Hd Hn. set (q := set_n _ p). assert (length (p_n q) = S (length (p_n p))) as El by (unfold q; cbn; rewrite length_app; cbn; lia).
  assert (forall j, node_at q j = if decide (j = length (p_n p)) then node_new d else node_at p j) as U.
  { intros j. unfold node_at, q. cbn. destruct (decide _) as [->|Hne]; [by rewrite app_nth2, Nat.sub_diag by lia|].
    destruct (decide (j < length (p_n p))%nat); [by rewrite app_nth1|]. rewrite !nth_overflow; [done|lia|rewrite length_app; cbn; lia]. }
  assert (forall j B (g : node -> B), g (node_new d) = g (node_new entry_empty) -> g (node_at q j) = g (node_at p j)) as Us.
  { intros j B g Hg. rewrite U. destruct (decide _) as [->|]; [|done]. by rewrite node_at_out. }
  split; try done.
  - split; [lia| | | |done].
    + intros j Hj. rewrite U. by rewrite decide_False by lia.
    + intros j. by apply (Us j _ n_visiting).
    + intros j. by rewrite (Us j _ n_done).
  - lia.
  - unfold q. cbn. rewrite fmap_app. apply NoDup_app. split; [apply Hok|]. split; [|apply NoDup_singleton]. intros x Hx Hx'. apply list_elem_of_singleton in Hx' as ->. by apply Hn.
  - intros j Hj. rewrite U. destruct (decide _); [done|]. apply (po_entries _ Hok). lia.
  - lia.
  - intros j. by apply (Us j _ n_done).
  - lia.
Qed.

(** ** Expanding a node *)

(** A step keeps the plan right and only adds to it; when it succeeds the nodes it added are done
    and [ok] holds, when it fails the plan is marked invalid. *)
Definition spec (c : comp plan unit) (p : plan) (ok : plan -> Prop) : Prop :=
  let '(o, p') := c p in plan_ok p' /\ grow p p' /\
  match o with
  | Done _ => p_valid p' = p_valid p /\ (forall j, (length (p_n p) <= j < length (p_n p'))%nat -> n_done (node_at p' j) = true) /\ ok p'
  | Fail _ => p_valid p' = false
  | NoFuel => False
  end.
Lemma spec_ret p (ok : plan -> Prop) : plan_ok p -> ok p -> spec (ret tt) p ok.
Proof. intros H Ho. split_and!; try done. lia. Qed.
Lemma spec_invalid c p ok : plan_ok p -> spec (invalid c) p ok.
Proof. intros []. split_and!; [by split|by split|done]. Qed.
Lemma spec_bind c k p (ok1 ok : plan -> Prop) : spec c p ok1 -> (forall q, plan_ok q -> grow p q -> ok1 q -> spec k q ok) -> spec (c ;;; k) p ok.
Proof.
  unfold spec, bind. destruct (c p) as [[[]|rc|] q]; [|done|by intros (_ & _ & [])]. intros (H1 & H2 & H3 & H4 & H5) Hk. specialize (Hk q H1 H2 H5).
  destruct (k q) as [o q']. destruct Hk as (K1 & K2 & K3). split; [done|]. split; [by etransitivity|]. destruct o as [u|rc|]; try done. destruct K3 as (K3 & K4 & K5). split; [congruence|]. split; [|done].
  intros j Hj. destruct (decide (j < length (p_n q))%nat) as [Hl|Hl]; [|apply K4; lia]. apply (gw_done _ _ K2), H4. lia.
Qed.
Lemma spec_each {A} (f : A -> comp plan unit) (R : A -> plan -> Prop) gs p : plan_ok p ->
  (forall g q, g ∈ gs -> plan_ok q -> grow p q -> spec (f g) q (R g)) -> (forall g q q', grow q q' -> R g q -> R g q') ->
  spec (each f gs) p (fun q => forall g, g ∈ gs -> R g q).
Proof.
  intros Hok Hf Hm. revert p Hok Hf. induction gs as [|g gs IH]; intros p Hok Hf; [apply spec_ret; [done|by intros g ?%elem_of_nil]|].
  cbn [each]. eapply spec_bind; [apply Hf; [by left|done|done]|]. intros q Hq Hpq Hg. pose proof (IH q Hq) as K.
  assert (spec (each f gs) q (fun q => forall g, g ∈ gs -> R g q)) as K' by (apply K; intros g' q' Hin Hq' Hg'; apply Hf; [by right|done|by etransitivity]).
  unfold spec in *. destruct (each f gs q) as [[u|rc|] q']; try done. destruct K' as (A1 & A2 & A3 & A4 & A5). split_and!; try done.
  intros g' [->|Hin]%elem_of_cons; [by apply (Hm _ q)|by apply A5].
Qed.

(** The nodes being visited. *)
Definition nvis (p : plan) : nat := length (filter (fun j => n_visiting (node_at p j) = true) (seq 0 512)).
Lemma nvis_grow p p' : grow p p' -> nvis p' = nvis p.
Proof. intros H. unfold nvis. f_equal. apply list_filter_iff. intros j. by rewrite (gw_visiting _ _ H). Qed.
Lemma nvis_max p : (nvis p <= 512)%nat.
Proof.
  unfold nvis. pose proof (submseteq_length _ _ (sublist_submseteq _ _ (sublist_filter (fun j => n_visiting (node_at p j) = true) (seq 0 512)))) as H. by rewrite length_seq in H.
Qed.
Lemma nvis_enter p ni : plan_ok p -> (ni < length (p_n p))%nat -> n_visiting (node_at p ni) = false -> (nvis p < nvis (upd_n (set_visiting true) ni p))%nat.
Proof.
  intros Hok Hn Hv. unfold nvis. apply (filter_shrinks (fun j => n_visiting (node_at (upd_n (set_visiting true) ni p) j) = true) (fun j => n_visiting (node_at p j) = true)) with ni.
  - intros j _. rewrite node_at_upd by done. by destruct (decide _).
  - apply elem_of_seq. pose proof (po_len _ Hok). lia.
  - rewrite node_at_upd by done. by rewrite decide_True.
  - by rewrite Hv.
Qed.

Section group.
Context (rec : nat -> comp plan unit) (k : nat).
Hypothesis rec_ok : forall di p, plan_ok p -> (di < length (p_n p))%nat -> nvis p = k -> spec (rec di) p (fun q => n_done (node_at q di) = true \/ n_visiting (node_at p di) = true).

(** From [p] with node [di] attached: mark it, link it, expand it. *)
Lemma link_ok ni di inst a g p q : plan_ok p -> attached p q di -> (ni < length (p_n p))%nat -> nvis p = k -> a ∈ g -> answers q di a ->
  let '(o, p') := ((if inst : bool then modify (upd_n (set_installed true) di) else ret tt) ;;; modify (add_edge ni di) ;;; rec di) q in
  plan_ok p' /\ grow p p' /\
  match o with
  | Done _ => p_valid p' = p_valid p /\ (forall j, (length (p_n p) <= j < length (p_n p'))%nat -> n_done (node_at p' j) = true) /\ (edges_left p' -> satisfied p' ni g)
  | Fail _ => p_valid p' = false
  | NoFuel => False
  end.
Proof.
  intros Hok Hat Hni Hk Ha Hans. destruct (attached_link p q ni di inst Hok Hat Hni) as (L1 & L2 & L3 & L4 & L5 & L6). set (q' := add_edge ni di _) in *.
  assert (((if inst then modify (upd_n (set_installed true) di) else ret tt) ;;; modify (add_edge ni di) ;;; rec di) q = rec di q') as -> by (unfold q'; by destruct inst).
  assert (di < length (p_n q'))%nat as Hdi by (rewrite L3; apply Hat). pose proof (rec_ok di q' L1 Hdi ltac:(rewrite (nvis_grow _ _ L2); done)) as H. unfold spec in H.
  destruct (rec di q') as [o p']. destruct H as (H1 & H2 & H3). split; [done|]. split; [by etransitivity|]. destruct o as [u|rc|]; try done. destruct H3 as (H3 & H4 & H5). split; [congruence|]. split.
  - intros j Hj. destruct (decide (j < length (p_n q'))%nat) as [Hl|Hl]; [|apply H4; lia]. assert (j = di) as -> by (apply (at_new _ _ _ Hat); lia).
    destruct H5 as [H5|H5]; [done|]. rewrite (gw_visiting _ _ L2), node_at_out in H5 by lia. done.
  - intros Hel. exists a. split; [done|]. right. exists di. split_and!; [|pose proof (gw_len _ _ H2); lia|].
    + destruct (gw_edges _ _ H2) as [es ->]. apply elem_of_app. left. apply L5. by eapply grow_left.
    + apply (answers_grow q'); [done|done|]. unfold answers, n_package, n_version in *. by rewrite L6.
Qed.

Lemma expand_group_ok ni g p : plan_ok p -> (ni < length (p_n p))%nat -> nvis p = k ->
  spec (expand_group r status rec ni g) p (fun q => edges_left q -> satisfied q ni g).
Proof.
  intros Hok Hni Hk. unfold expand_group. destruct (choose_alt r status g) as [d inst a| |] eqn:Ec.
  - apply choose_alt_chosen in Ec as (Ha & Hd & Hans). unfold spec. erewrite bind_done by done. cbn beta. pose proof (po_len _ Hok) as Hlen.
    destruct (find_node p (re_text d R_package)) as [j|] eqn:Ef.
    + pose proof (find_node_some _ _ _ Ef) as [Hj Hjp]. destruct (version_satisfies (n_version (node_at p j)) (al_op a) (al_version a)) eqn:Ev; cbn [negb].
      * rewrite bind_ret. assert (try (node_for d) p = (Done (Some j), p)) as Et by (unfold try, node_for; by rewrite Ef). rewrite (bind_done _ _ _ _ _ Et).
        apply (link_ok ni j inst a g p p); try done; [by apply attached_old|]. unfold answers. rewrite Hjp. destruct Hans as [[-> _]|Hp]; [left; by rewrite Ev|right; by exists d].
      * by apply (spec_invalid _ p).
    + rewrite bind_ret. apply find_node_none in Ef as Hn. destruct (Z.leb_spec MAX_NODES (zlen (p_n p))) as [Hge|Hlt]; unfold MAX_NODES, zlen in *.
      * assert (try (node_for d) p = (Done None, p)) as Et by (unfold try, node_for, MAX_NODES, zlen; rewrite Ef; by rewrite (proj2 (Z.leb_le _ _) Hge)). rewrite (bind_done _ _ _ _ _ Et). by apply (spec_invalid _ p).
      * assert (try (node_for d) p = (Done (Some (length (p_n p))), set_n (p_n p ++ [node_new d]) p)) as Et
          by (unfold try, node_for, MAX_NODES, zlen; rewrite Ef; by rewrite (proj2 (Z.leb_gt _ _) Hlt)).
        rewrite (bind_done _ _ _ _ _ Et).
        apply (link_ok ni (length (p_n p)) inst a g p); try done; [apply attached_new; try done; lia|].
        unfold answers, n_package, n_version, node_at. cbn. rewrite app_nth2, Nat.sub_diag by lia. cbn. destruct Hans as [?|Hp]; [by left|right; by exists d].
  - unfold spec. cbn. split; [done|]. split; [done|]. split; [done|]. split; [lia|]. intros _. destruct (choose_alt_on_target g Ec) as (a & A & B). exists a. split; [done|by left].
  - unfold spec. erewrite bind_done by done. by apply (spec_invalid _ p).
Qed.
Lemma expand_field_ok ni txt p : plan_ok p -> (ni < length (p_n p))%nat -> nvis p = k ->
  spec (expand_field r status rec ni txt) p (fun q => exists gs, deb_dep_parse txt = inr gs /\ forall g, g ∈ gs -> edges_left q -> satisfied q ni g).
Proof.
  intros Hok Hni Hk. unfold expand_field. destruct txt as [|c txt]; [apply spec_ret; [done|]; exists []; split; [done|]; by intros g ?%elem_of_nil|].
  unfold spec. erewrite bind_done by done. cbn beta. destruct (deb_dep_parse (c :: txt)) as [rc|gs]; [by apply (spec_invalid _ p)|].
  assert (spec (each (expand_group r status rec ni) gs) p (fun q => forall g, g ∈ gs -> edges_left q -> satisfied q ni g)) as H.
  { apply spec_each; [done| |].
    - intros g q _ Hq Hpq. apply expand_group_ok; [done|pose proof (gw_len _ _ Hpq); lia|by rewrite (nvis_grow _ _ Hpq)].
    - intros g q q' Hqq H Hel. apply (satisfied_grow q); [done|]. by apply H, (grow_left _ _ Hqq). }
  unfold spec in H. destruct (each _ gs p) as [[u|rc|] q]; try done. destruct H as (A1 & A2 & A3 & A4 & A5). split_and!; try done. by exists gs.
Qed.
End group.

Lemma plan_ok_same p p' : plan_ok p -> p_e p' = p_e p -> length (p_n p') = length (p_n p) -> n_package <$> p_n p' = n_package <$> p_n p ->
  (forall j, n_e (node_at p' j) = n_e (node_at p j)) ->
  (edges_left p -> forall j, (j < length (p_n p))%nat -> n_done (node_at p' j) = true -> deps_met p j) -> plan_ok p'.
Proof.
  intros [H1 H2 H3 H4 H5 H6] He Hl Hp Hn Hd. split; rewrite ?He, ?Hl, ?Hp; try done; unfold edges_left in *; rewrite ?He in *; try done.
  - intros j Hj. rewrite Hn. by apply H3.
  - intros Hel j Hj Hdj. intros f Hf. destruct (Hd Hel j Hj Hdj f Hf) as (gs & E & Hg). exists gs. rewrite Hn. split; [done|]. intros g Hin. destruct (Hg g Hin) as (a & A & B). exists a. split; [done|].
    destruct B as [B|(i & B1 & B2 & B3)]; [by left|right]. exists i. rewrite He, Hl. split_and!; try done. unfold answers, n_package, n_version in *. by rewrite Hn.
Qed.

Lemma expand_ok fuel ni p : plan_ok p -> (ni < length (p_n p))%nat -> (512 - nvis p < fuel)%nat ->
  spec (expand r status fuel ni) p (fun q => n_done (node_at q ni) = true \/ n_visiting (node_at p ni) = true).
Proof.
  revert ni p. induction fuel as [|fuel IH]; intros ni p Hok Hni Hf; [lia|]. unfold spec. cbn [expand].
  destruct (n_done (node_at p ni)) eqn:Ed; [split_and!; [done|done|done|lia|by left]|]. destruct (n_visiting (node_at p ni)) eqn:Ev; [split_and!; [done|done|done|lia|by right]|]. cbn [orb].
  pose proof (nvis_enter p ni Hok Hni Ev) as Hlt. set (p1 := upd_n (set_visiting true) ni p) in *. pose proof (nvis_max p1) as Hmax.
  assert (forall j, n_e (node_at p1 j) = n_e (node_at p j) /\ n_done (node_at p1 j) = n_done (node_at p j)) as U by (intros j; split; [by apply (node_at_same n_e)|by apply (node_at_same n_done)]).
  assert (forall f q, (forall n, n_package (f n) = n_package n) -> n_package <$> p_n (upd_n f ni q) = n_package <$> p_n q) as Hpk by (intros f q Hfn; by apply fmap_alter_same).
  assert (plan_ok p1) as Hok1.
  { apply (plan_ok_same p); try done; [by cbn; rewrite length_alter|by apply Hpk|intros j; apply U|]. intros Hel j Hj. rewrite (proj2 (U j)). by apply (po_done _ Hok). }
  assert (ni < length (p_n p1))%nat as Hni1 by (unfold p1; cbn; by rewrite length_alter).
  assert (forall di q, plan_ok q -> (di < length (p_n q))%nat -> nvis q = nvis p1 -> spec (expand r status fuel di) q (fun q' => n_done (node_at q' di) = true \/ n_visiting (node_at q di) = true)) as Hrec
    by (intros di q Hq Hdi Hk; apply IH; [done|done|lia]).
  set (txt f := re_text (n_e (node_at p ni)) f).
  assert (spec (expand_field r status (expand r status fuel) ni (txt R_pre_depends) ;;; expand_field r status (expand r status fuel) ni (txt R_depends)) p1
    (fun q => edges_left q -> deps_met q ni)) as Hbody.
  { eapply spec_bind; [by apply (expand_field_ok _ (nvis p1))|]. intros q Hq Hpq (gs & E1 & Hg).
    pose proof (expand_field_ok _ (nvis p1) Hrec ni (txt R_depends) q Hq ltac:(pose proof (gw_len _ _ Hpq); lia) (nvis_grow _ _ Hpq)) as H2. unfold spec in *.
    destruct (expand_field _ _ _ _ _ q) as [[u|rc|] q2]; try done. destruct H2 as (A1 & A2 & A3 & A4 & gs2 & E2 & Hg2). split_and!; try done. intros Hel f Hff.
    assert (n_e (node_at q2 ni) = n_e (node_at p ni)) as -> by (rewrite (gw_e _ _ A2) by (pose proof (gw_len _ _ Hpq); lia); rewrite (gw_e _ _ Hpq) by done; apply U).
    destruct Hff as [->| ->]; [exists gs|exists gs2]; (split; [done|]); intros g Hin; [|by apply Hg2].
    apply (satisfied_grow q); [done|]. apply Hg; [done|by eapply grow_left]. }
  unfold spec in Hbody. fold (txt R_pre_depends) (txt R_depends). destruct ((expand_field r status (expand r status fuel) ni (txt R_pre_depends) ;;; expand_field r status (expand r status fuel) ni (txt R_depends)) p1) as [o q]. destruct Hbody as (B1 & B2 & B3).
  assert (forall q', p_e q' = p_e q -> length (p_n q') = length (p_n q) -> (forall j, n_e (node_at q' j) = n_e (node_at q j)) ->
    (forall j, n_visiting (node_at q' j) = if decide (j = ni) then false else n_visiting (node_at q j)) ->
    (forall j, n_done (node_at q j) = true -> n_done (node_at q' j) = true) -> grow p q') as Hgrow.
  { intros q' Q1 Q2 Q3 Q4 Q5. pose proof (gw_len _ _ B2) as L. unfold p1 in L. cbn in L. rewrite length_alter in L. split; rewrite ?Q1, ?Q2; try done.
    - intros j Hj. rewrite Q3, (gw_e _ _ B2) by (unfold p1; cbn; by rewrite length_alter). apply U.
    - intros j. rewrite Q4. destruct (decide _) as [->|Hne]; [done|]. rewrite (gw_visiting _ _ B2). unfold p1. rewrite node_at_upd by done. by rewrite decide_False.
    - intros j Hj. apply Q5, (gw_done _ _ B2). by rewrite (proj2 (U j)).
    - apply (gw_edges _ _ B2). }
  pose proof (gw_len _ _ B2) as Hlen. unfold p1 in Hlen. cbn in Hlen. rewrite length_alter in Hlen. assert (ni < length (p_n q))%nat as Hniq by lia.
  assert (forall f q, (forall n, n_e (f n) = n_e n) -> forall j, n_e (node_at (upd_n f ni q) j) = n_e (node_at q j)) as He by (intros f q0 Hfe j; by apply (node_at_same n_e)).
  destruct o as [u|rc|]; [|split_and!|done].
  - destruct B3 as (C1 & C2 & C3). set (q1 := upd_n (set_done true) ni q). set (q' := upd_n (set_visiting false) ni q1).
    assert (length (p_n q1) = length (p_n q) /\ length (p_n q') = length (p_n q)) as [L1 L2] by (unfold q', q1; cbn; by rewrite !length_alter).
    assert (forall j, n_done (node_at q' j) = if decide (j = ni) then true else n_done (node_at q j)) as D.
    { intros j. unfold q'. rewrite (node_at_same n_done) by done. unfold q1. rewrite node_at_upd by done. by destruct (decide _) as [->|]. }
    assert (plan_ok q') as Hokq.
    { apply (plan_ok_same q); try done; [unfold q', q1; by rewrite !Hpk|intros j; unfold q', q1; by rewrite !He|].
      intros Hel j Hj. rewrite D. destruct (decide _) as [->|]; [intros _; by apply C3|by apply (po_done _ B1)]. }
    split; [done|]. split; [|split; [done|split]].
    + apply Hgrow; [done|done|intros j; unfold q', q1; by rewrite !He| |intros j Hj; rewrite D; by destruct (decide _)].
      intros j. unfold q'. rewrite node_at_upd by lia. destruct (decide _) as [->|]; [done|]. by apply (node_at_same n_visiting).
    + intros j Hj. rewrite D. destruct (decide _); [done|]. apply C2. unfold p1. cbn. rewrite length_alter. lia.
    + left. rewrite D. by rewrite decide_True.
  - apply (plan_ok_same q); try done; [by cbn; rewrite length_alter|by apply Hpk|by apply He|]. intros Hel j Hj. rewrite (node_at_same n_done) by done. by apply (po_done _ B1).
  - apply Hgrow; [done|by cbn; rewrite length_alter|by apply He| |].
    + intros j. rewrite node_at_upd by done. by destruct (decide _).
    + intros j. by rewrite (node_at_same n_done).
  - done.
Qed.

(** ** The plan *)

(** What a plan for a request holds when it is valid and no edge was dropped: the packages reached
    from the request, every one of them with its dependencies met. *)
Definition closed (p : plan) (ri : nat) : Prop :=
  forall j, (j < length (p_n p))%nat -> rtc (edge (p_e p)) ri j /\ deps_met p j.

Lemma node_for_zero e : node_for e plan_zero = (Done 0%nat, set_n [node_new e] plan_zero).
Proof. done. Qed.
Lemma root_ok e : e ∈ rp_entries r -> plan_ok (set_n [node_new e] plan_zero).
Proof.
  intros He. split; cbn; try (intros; lia); [apply NoDup_singleton| |by intros a b ?%elem_of_nil| |].
  - intros j Hj. assert (j = 0)%nat as -> by lia. done.
  - intros _ j Hj. assert (j = 0)%nat as -> by lia. apply rtc_refl.
  - intros _ j Hj. assert (j = 0)%nat as -> by lia. done.
Qed.
Lemma nth_packages p j : n_package (node_at p j) = re_text (n_e (node_at p j)) R_package.
Proof. done. Qed.
Lemma packages_same p p' : length (p_n p') = length (p_n p) -> (forall j, n_e (node_at p' j) = n_e (node_at p j)) -> n_package <$> p_n p' = n_package <$> p_n p.
Proof.
  intros Hl He. apply list_eq. intros j. rewrite !list_lookup_fmap. specialize (He j). unfold node_at in He. rewrite !nth_lookup in He.
  destruct (p_n p' !! j) as [n|] eqn:E1, (p_n p !! j) as [m|] eqn:E2; cbn in *; [|apply lookup_lt_Some in E1; apply lookup_ge_None in E2; lia|apply lookup_ge_None in E1; apply lookup_lt_Some in E2; lia|done].
  unfold n_package. by rewrite He.
Qed.

(** From the plan of the request alone: the expansion and the components. *)
Lemma plan_from fuel p1 : plan_ok p1 -> (0 < length (p_n p1))%nat -> (512 - nvis p1 < fuel)%nat -> length (p_n p1) = 1%nat -> (forall j, n_visiting (node_at p1 j) = false) ->
  exists p, (let* _ := try (expand r status fuel 0) in build_components ;;; ret (Some 0%nat)) p1 = (Done (Some 0%nat), p) /\
    plan_ok p /\ (exists p0, components (p_e p) (length (p_n p)) p0 p) /\ (0 < length (p_n p))%nat /\ n_e (node_at p 0) = n_e (node_at p1 0) /\
    (p_valid p = true -> edges_left p -> closed p 0).
Proof.
  intros Hok1 L1 Hf L2 Vi1. pose proof (expand_ok fuel 0 p1 Hok1 L1 Hf) as H. unfold spec in H.
  destruct (expand r status fuel 0 p1) as [o p2] eqn:Ex. destruct H as (H1 & H2 & H3).
  assert (exists x, try (expand r status fuel 0) p1 = (Done x, p2)) as [x Et] by (unfold try; rewrite Ex; destruct o; [by eexists|by eexists|done]).
  destruct (build_components_ok (p_e p2) (length (p_n p2)) (po_edges _ H1) (po_len _ H1) p2 eq_refl eq_refl) as (p3 & Ec & Hc).
  exists p3. split; [by rewrite (bind_done _ _ _ _ _ Et), (bind_done _ _ _ _ _ Ec)|].
  assert (forall j, n_e (node_at p3 j) = n_e (node_at p2 j) /\ n_done (node_at p3 j) = n_done (node_at p2 j)) as U by (intros j; pose proof (co_core _ _ _ _ Hc j) as Hj; unfold core in Hj; split; congruence).
  assert (plan_ok p3) as Hok3.
  { apply (plan_ok_same p2); [done|apply Hc|apply Hc|apply packages_same; [apply Hc|intros j; apply U]|intros j; apply U|]. intros Hel j Hj. rewrite (proj2 (U j)). by apply (po_done _ H1). }
  split; [done|]. split; [exists p2; by rewrite (co_edges _ _ _ _ Hc), (co_len _ _ _ _ Hc)|]. pose proof (gw_len _ _ H2). rewrite (co_len _ _ _ _ Hc). split; [lia|].
  split; [by rewrite (proj1 (U 0%nat)), (gw_e _ _ H2) by lia|]. rewrite (co_valid _ _ _ _ Hc). intros Hv Hel j Hj.
  destruct o as [u|rc|]; [|by rewrite H3 in Hv|done]. destruct H3 as (_ & Hnew & Hroot). split; [by apply (po_reach _ Hok3)|]. apply (po_done _ Hok3); [done|done|]. rewrite (proj2 (U j)).
  rewrite (co_len _ _ _ _ Hc) in Hj. destruct (decide (j = 0)%nat) as [->|Hne]; [|apply Hnew; lia]. destruct Hroot as [Hr|Hr]; [done|]. by rewrite Vi1 in Hr.
Qed.
Lemma root_installed (b : bool) e : e ∈ rp_entries r ->
  let p1 := if b then upd_n (set_installed true) 0 (set_n [node_new e] plan_zero) else set_n [node_new e] plan_zero in
  plan_ok p1 /\ length (p_n p1) = 1%nat /\ n_e (node_at p1 0) = e /\ forall j, n_visiting (node_at p1 j) = false.
Proof.
  intros He. pose proof (root_ok e He) as Hok0. set (p0 := set_n [node_new e] plan_zero) in *. assert (forall j, n_visiting (node_at p0 j) = false) as V0 by (intros [|[|j]]; done).
  destruct b; [|done]. cbn zeta. split_and!; try done.
  - apply (plan_ok_same p0); try done; [intros j; by apply (node_at_same n_e)|]. intros _ j Hj. rewrite (node_at_same n_done) by done. assert (j = 0)%nat as -> by (cbn in Hj; lia). done.
  - intros j. by rewrite (node_at_same n_visiting).
Qed.
Lemma build_plan_ok package : match build_plan r status package with
  | (Done None, p) => pkg_repo_find_best r package [] [] = None /\ p_valid p = false
  | (Done (Some ri), p) => ri = 0%nat /\ plan_ok p /\ (exists p0, components (p_e p) (length (p_n p)) p0 p) /\ (0 < length (p_n p))%nat /\
      pkg_repo_find_best r package [] [] = Some (n_e (node_at p 0)) /\ (p_valid p = true -> edges_left p -> closed p 0)
  | _ => False
  end.
Proof.
  unfold build_plan. destruct (pkg_repo_find_best r package [] []) as [e|] eqn:Eb; [|done]. rewrite node_for_zero.
  destruct (pkg_repo_find_best_some _ _ _ _ _ Eb) as (He & _). destruct (root_installed (same_on_target status package e) e He) as (A & B & C & D).
  destruct (plan_from (Z.to_nat MAX_NODES + 1) _ A ltac:(lia) ltac:(unfold MAX_NODES; lia) B D) as (p & -> & E1 & E2 & E3 & E4 & E5).
  split_and!; try done. by rewrite E4, C.
Qed.
End closure.

(** C7: planning ends for every request and every table; a package that the table has is the root of the
    plan, and a valid plan whose edges all fit is closed: it names every package once, each of
    them a record of the table and reached from the request, and every group of dependencies of
    each is satisfied, by the target or by a package of the plan the group has an edge to. *)
Theorem build_plan_closed r status package :
  exists o p, build_plan r status package = (Done o, p) /\
  match o with
  | None => pkg_repo_find_best r package [] [] = None
  | Some ri => pkg_repo_find_best r package [] [] = Some (n_e (node_at p ri)) /\
      (p_valid p = true -> zlen (p_e p) < MAX_EDGES ->
       NoDup (n_package <$> p_n p) /\
       forall j, (j < length (p_n p))%nat -> n_e (node_at p j) ∈ rp_entries r /\ rtc (edge (p_e p)) ri j /\ deps_met r status p j)
  end.
Proof.
  pose proof (build_plan_ok r status package) as H. destruct (build_plan r status package) as [[[ri|]|rc|] p]; [| |done|done].
  - destruct H as (-> & H1 & _ & _ & H2 & H3). exists (Some 0%nat), p. split; [done|]. split; [done|]. intros Hv Hel. split; [apply H1|]. intros j Hj. split; [by apply (po_entries _ _ _ H1)|]. by apply H3.
  - exists None, p. split; [done|]. by destruct H.
Qed.

(** A record that only provides a name is taken whatever version the relation asks for, but once it is
    in the plan its own version is held against the relation: the request for [one] is planned,
    the request for [two], which has the same dependency twice, is refused. *)
Definition provider_repo : repo := Repo (parse_index (
  str_bytes "Package: one" ++ [10] ++ str_bytes "Version: 1" ++ [10] ++ str_bytes "Depends: awk (>= 2)" ++ [10] ++ str_bytes "Filename: one.deb" ++ [10; 10] ++
  str_bytes "Package: two" ++ [10] ++ str_bytes "Version: 1" ++ [10] ++ str_bytes "Depends: one, awk (>= 2)" ++ [10] ++ str_bytes "Filename: two.deb" ++ [10; 10] ++
  str_bytes "Package: mawk" ++ [10] ++ str_bytes "Version: 1" ++ [10] ++ str_bytes "Provides: awk" ++ [10] ++ str_bytes "Filename: mawk.deb" ++ [10])
  (str_bytes "/r") (str_bytes "/r/Packages") []) [str_bytes "/r"].
Example provider_second_refused :
  p_valid (build_plan provider_repo None (str_bytes "one")).2 = true /\ p_valid (build_plan provider_repo None (str_bytes "two")).2 = false /\
  p_conflict (build_plan provider_repo None (str_bytes "two")).2 =
    VersionConflict (str_bytes "mawk") (str_bytes "1") (str_bytes "two") (str_bytes "awk") (str_bytes ">=") (str_bytes "2").
Proof. vm_compute. by split_and!. Qed.
