(* ===== verification/PkgInstall.v ===== *)
(** * PkgInstall: the order in which a plan is printed and installed

    Correctness of the walk over the components ([emit_component],
    [apply_component] of [src/pkg_plan.c]): the steps printed and the packages
    installed follow one order, in which every package comes once and after the
    packages it needs. *)
From stdpp Require Import relations.
From S2P Require Import Prelude Text DebDep PkgRepo PkgState PkgPlan PkgScc PkgClosure.
#[local] Open Scope Z_scope.

Lemma each_app {S A} (f : A -> comp S unit) l k s : each f (l ++ k) s = (each f l ;;; each f k) s.
Proof. revert s. induction l as [|x l IH]; intros s; cbn; [done|]. rewrite bind_assoc. unfold bind. destruct (f x s) as [[u|rc|] s']; [apply IH|done|done]. Qed.

(** ** Every work follows the order of the log *)

Section sim.
Context {X : Type} (work : list nat -> comp (list node * X) unit).
(** The work does not change the graph. *)
Hypothesis work_comp : forall ms ns x, let '(_, (ns', _)) := work ms (ns, x) in length ns' = length ns /\ forall d j, n_component (nth j ns' d) = n_component (nth j ns d).

(** The log of the members, as [print_step] without its numbers. *)
Definition log_work (ms : list nat) : comp (list node * list (list nat)) unit := modify (fun s => (s.1, s.2 ++ [ms])).

Record lockstep (p q : plan) : Prop := Lockstep {
  ls_edges : p_e p = p_e q;
  ls_comp : p_comp p = p_comp q;
  ls_len : length (p_n p) = length (p_n q);
  ls_cmp : forall j, cmp p j = cmp q j;
}.
Definition simulates (c1 : comp (plan * list (list nat)) unit) (p : plan) (c2 : comp (plan * X) unit) (q : plan) : Prop := forall l x,
  exists o1 p' cs, c1 (p, l) = (o1, (p', l ++ cs)) /\
  (o1 = Done tt -> exists o q' x', c2 (q, x) = (o, (q', x')) /\ each work cs (p_n q, x) = (o, (p_n q', x')) /\ (o = Done tt -> lockstep p' q')).

Lemma sim_ret p q : lockstep p q -> simulates (ret tt) p (ret tt) q.
Proof. intros H l x. exists (Done tt), p, []. split; [by rewrite app_nil_r|]. intros _. by exists (Done tt), q, x. Qed.
(** A logged computation only adds to the log. *)
Definition appends (c : comp (plan * list (list nat)) unit) : Prop := forall p l, exists o p' cs, c (p, l) = (o, (p', l ++ cs)).
Lemma appends_ret : appends (ret tt).
Proof. intros p l. exists (Done tt), p, []. by rewrite app_nil_r. Qed.
Lemma appends_bind c k : appends c -> appends k -> appends (c ;;; k).
Proof.
  intros Hc Hk p l. destruct (Hc p l) as (o & p1 & cs & E). destruct o as [[]|rc|]; [|unfold bind; rewrite E; by eexists _, p1, cs..].
  destruct (Hk p1 (l ++ cs)) as (o & p2 & cs2 & E2). exists o, p2, (cs ++ cs2). by rewrite (bind_done _ _ _ _ _ E), E2, app_assoc.
Qed.
Lemma appends_each {A} (f : A -> comp _ unit) l : (forall a, appends (f a)) -> appends (each f l).
Proof. intros H. induction l as [|a l IH]; [apply appends_ret|]. cbn [each]. by apply appends_bind. Qed.
Lemma appends_get f : (forall s, appends (f s)) -> appends (let* s := get in f s).
Proof. intros H p l. apply (H (p, l) p l). Qed.

Lemma sim_bind c1 k1 c2 k2 p q : simulates c1 p c2 q -> appends k1 -> (forall p' q', lockstep p' q' -> simulates k1 p' k2 q') -> simulates (c1 ;;; k1) p (c2 ;;; k2) q.
Proof.
  intros Hc Ha Hk l x. destruct (Hc l x) as (o1 & p1 & cs1 & E1 & H1). destruct o1 as [[]|rc|].
  2, 3: unfold bind; rewrite E1; eexists _, p1, cs1; by split.
  destruct (H1 eq_refl) as (o & q1 & x1 & E2 & E3 & H2). rewrite (bind_done _ _ _ _ _ E1). destruct o as [[]|rc|].
  - destruct (Hk p1 q1 (H2 eq_refl) (l ++ cs1) x1) as (o1' & p2 & cs2 & E4 & H3). exists o1', p2, (cs1 ++ cs2). rewrite app_assoc. split; [done|]. intros Ho.
    destruct (H3 Ho) as (o & q2 & x2 & E5 & E6 & H4). exists o, q2, x2. rewrite (bind_done _ _ _ _ _ E2). split; [done|]. split; [|done]. by rewrite each_app, (bind_done _ _ _ _ _ E3).
  - destruct (Ha p1 (l ++ cs1)) as (o1' & p2 & cs2 & E4). exists o1', p2, (cs1 ++ cs2). rewrite app_assoc. split; [done|]. intros _. exists (Fail rc), q1, x1.
    rewrite each_app. unfold bind. by rewrite E2, E3.
  - destruct (Ha p1 (l ++ cs1)) as (o1' & p2 & cs2 & E4). exists o1', p2, (cs1 ++ cs2). rewrite app_assoc. split; [done|]. intros _. exists NoFuel, q1, x1.
    rewrite each_app. unfold bind. by rewrite E2, E3.
Qed.
Lemma sim_each {A} (f1 : A -> comp _ unit) (f2 : A -> comp _ unit) l p q : lockstep p q -> (forall a, appends (f1 a)) ->
  (forall a p' q', lockstep p' q' -> simulates (f1 a) p' (f2 a) q') -> simulates (each f1 l) p (each f2 l) q.
Proof.
  intros H Ha Hf. revert p q H. induction l as [|a l IH]; intros p q H; [by apply sim_ret|]. cbn [each]. apply sim_bind; [by apply Hf|by apply appends_each|]. intros. by apply IH.
Qed.
Lemma sim_get f1 f2 p q : (forall l x, simulates (f1 (p, l)) p (f2 (q, x)) q) -> simulates (let* s := get in f1 s) p (let* s := get in f2 s) q.
Proof. intros H l x. apply (H l x l x). Qed.
Lemma sim_work ms p q : lockstep p q -> simulates (on_nodes (log_work ms)) p (on_nodes (work ms)) q.
Proof.
  intros [H1 H2 H3 H4] l x. exists (Done tt), p, [ms]. split; [by destruct p|]. intros _. unfold on_nodes. cbn [fst snd]. pose proof (work_comp ms (p_n q) x) as Hw.
  destruct (work ms (p_n q, x)) as [o [ns x']] eqn:E. destruct Hw as [Hl Hc]. exists o, (set_n ns q), x'. split; [done|]. split.
  - cbn [each]. unfold bind. rewrite E. by destruct o as [[]|rc|].
  - intros _. split; try done; [cbn; lia|]. intros j. rewrite H4. unfold cmp, node_at. cbn. by rewrite Hc.
Qed.

Lemma visit_edge_appends visit ci n e : (forall c, appends (visit c)) -> appends (visit_edge visit ci n e).
Proof. intros H. apply appends_get. intros s. destruct (decide _); [|apply appends_ret]. destruct (_ =? _); [apply appends_ret|apply H]. Qed.
Lemma walk_component_appends fuel ci : appends (walk_component log_work fuel ci).
Proof.
  revert ci. induction fuel as [|fuel IH]; intros ci p l; cbn [walk_component fst snd].
  - destruct (_ || _); [by apply appends_ret|]. destruct (c_emitted _); [by apply appends_ret|]. exists NoFuel, p, []. by rewrite app_nil_r.
  - destruct (_ || _); [by apply appends_ret|]. destruct (c_emitted _); [by apply appends_ret|]. refine (appends_bind _ _ _ _ _ l).
    + apply appends_each. intros n. apply appends_each. intros e. by apply visit_edge_appends.
    + intros q k. exists (Done tt), q, [c_members (comp_at p ci)]. by destruct q.
Qed.
Lemma walk_component_sim fuel ci p q : lockstep p q -> simulates (walk_component log_work fuel ci) p (walk_component work fuel ci) q.
Proof.
  revert ci p q. induction fuel as [|fuel IH]; intros ci p q H; pose proof H as [H1 H2 H3 H4]; intros l x; cbn [walk_component fst snd]; unfold comp_at; rewrite <- H2.
  - destruct (_ || _); [by apply sim_ret|]. destruct (c_emitted _); [by apply sim_ret|]. exists NoFuel, p, []. split; [by rewrite app_nil_r|done].
  - destruct (_ || _); [by apply sim_ret|]. destruct (c_emitted _); [by apply sim_ret|].
    set (c := nth (Z.to_nat ci) (p_comp p) ([], true)). set (p1 := set_comp _ p). set (q1 := set_comp _ q).
    assert (lockstep p1 q1) as L1 by by split.
    rewrite <- H1. refine (sim_bind _ _ _ _ p1 q1 _ _ _ l x).
    + apply sim_each; [done| |].
      * intros n. apply appends_each. intros e. apply visit_edge_appends, walk_component_appends.
      * intros n p2 q2 L2. apply sim_each; [done| |].
        -- intros e. apply visit_edge_appends, walk_component_appends.
        -- intros e p3 q3 L3. apply sim_get. intros l' x'. cbn [fst]. pose proof (ls_cmp _ _ L3 e.2) as Ec. unfold cmp in Ec. rewrite <- Ec.
           destruct (decide _); [|by apply sim_ret]. destruct (_ =? _); [by apply sim_ret|by apply IH].
    + intros p' k. exists (Done tt), p', [c_members c]. by destruct p'.
    + intros p' q' L'. by apply sim_work.
Qed.
Lemma lockstep_clear p q : lockstep p q -> lockstep (clear_emitted p) (clear_emitted q).
Proof. intros [H1 H2 H3 H4]. split; try done. cbn. by rewrite H2. Qed.
Lemma walk_sim ri p q : lockstep p q -> simulates (walk log_work ri) p (walk work ri) q.
Proof.
  intros H%lockstep_clear. intros l x. unfold walk. erewrite (bind_done _ _ (p, l)), (bind_done _ _ (q, x)) by done. cbn [fst snd].
  set (p1 := clear_emitted p) in *. set (q1 := clear_emitted q) in *. refine (sim_get _ _ p1 q1 _ l x). clear l x. intros l x. cbn [fst].
  pose proof H as [H1 H2 H3 H4]. rewrite <- H2, <- H3. pose proof (H4 ri) as Er. unfold cmp in Er. rewrite <- Er. apply sim_bind.
  - destruct (decide _); [by apply walk_component_sim|by apply sim_ret].
  - apply appends_each. intros i. apply appends_get. intros s. destruct (c_emitted _); [apply appends_ret|apply walk_component_appends].
  - intros p2 q2 L2. apply sim_each; [done| |].
    + intros i. apply appends_get. intros s. destruct (c_emitted _); [apply appends_ret|apply walk_component_appends].
    + intros i p3 q3 L3. apply sim_get. intros l' x'. cbn [fst]. unfold comp_at. rewrite <- (ls_comp _ _ L3). destruct (c_emitted _); [by apply sim_ret|by apply walk_component_sim].
Qed.
End sim.

(** ** The order *)

Section order.
Context (E : list (nat * nat)) (N : nat) (cm : nat -> Z) (M : list (list nat)).
Hypothesis edges_in : forall a b, (a, b) ∈ E -> (a < N)%nat /\ (b < N)%nat.
Hypothesis cm_range : forall v, (v < N)%nat -> 0 <= cm v < zlen M.
Hypothesis cm_members : forall i m, M !! i = Some m -> NoDup m /\ forall v, v ∈ m <-> (v < N)%nat /\ cm v = Z.of_nat i.
Hypothesis cm_down : forall v w, (v, w) ∈ E -> cm w <= cm v.

Definition mem (i : nat) : list nat := nth i M [].
Definition dep (i d : nat) : Prop := exists v w, (v, w) ∈ E /\ cm v = Z.of_nat i /\ cm w = Z.of_nat d.
Definition em (p : plan) (i : nat) : Prop := (i < length M)%nat /\ c_emitted (comp_at p (Z.of_nat i)) = true.

Record graph (p : plan) : Prop := Graph {
  gr_edges : p_e p = E;
  gr_len : length (p_n p) = N;
  gr_cmp : forall j, cmp p j = cm j;
  gr_members : c_members <$> p_comp p = M;
}.
(** The components that come after what they need. *)
Definition before (ord : list nat) : Prop := forall pre i post, ord = pre ++ i :: post -> forall d, dep i d -> d <> i -> d ∈ pre.
Record sched (p : plan) (ord : list nat) : Prop := Sched {
  sc_graph : graph p;
  sc_nodup : NoDup ord;
  sc_em : forall i, i ∈ ord -> em p i;
  sc_before : before ord;
}.

Lemma before_snoc ord i : before ord -> (forall d, dep i d -> d <> i -> d ∈ ord) -> before (ord ++ [i]).
Proof.
  intros Hb Hi pre j post E1 d Hd Hn. destruct post as [|k post] using rev_ind.
  - apply app_inj_tail in E1 as [<- <-]. by apply Hi.
  - rewrite app_comm_cons, app_assoc in E1. apply app_inj_tail in E1 as [-> _]. by eapply Hb.
Qed.
Lemma graph_count p : graph p -> length (p_comp p) = length M.
Proof. intros H. by rewrite <- (gr_members _ H), length_fmap. Qed.
Lemma graph_mem p i : graph p -> (i < length M)%nat -> c_members (comp_at p (Z.of_nat i)) = mem i.
Proof.
  intros H Hi. pose proof (graph_count _ H). destruct (lookup_lt_is_Some_2 (p_comp p) i ltac:(lia)) as [c Hc]. unfold comp_at, mem. rewrite Nat2Z.id, <- (gr_members _ H).
  rewrite (nth_lookup_Some _ _ _ _ Hc). symmetry. apply nth_lookup_Some. by rewrite list_lookup_fmap, Hc.
Qed.

(** Marking component [i]. *)
Definition mark (i : nat) (p : plan) : plan := set_comp (alter (fun c => (c_members c, true)) i (p_comp p)) p.
Lemma mark_em i p c : graph p -> (i < length M)%nat -> em (mark i p) c <-> em p c \/ c = i.
Proof.
  intros H Hi. pose proof (graph_count _ H). unfold em, comp_at, mark. cbn. rewrite !Nat2Z.id, nth_alter by lia. destruct (decide (c = i)) as [->|]; cbn; intuition congruence.
Qed.
Lemma mark_graph i p : graph p -> graph (mark i p).
Proof. intros [H1 H2 H3 H4]. split; try done. cbn. by rewrite (fmap_alter_same _ c_members). Qed.
Lemma mark_sched i p ord : sched p ord -> (i < length M)%nat -> sched (mark i p) ord.
Proof. intros [H1 H2 H3 H4] Hi. split; try done; [by apply mark_graph|]. intros j Hj. apply mark_em; [done|done|]. left. by apply H3. Qed.

(** What visiting components up to [top] did: [js] came after [ord]. *)
Record advanced (p : plan) (ord : list nat) (p' : plan) (js : list nat) (top : Z) : Prop := Advanced {
  ad_sched : sched p' (ord ++ js);
  ad_keep : forall c, em p c -> em p' c;
  ad_new : forall c, em p' c -> em p c \/ c ∈ js;
  ad_top : forall c, c ∈ js -> Z.of_nat c <= top;
}.
Lemma advanced_nil p ord top : sched p ord -> advanced p ord p [] top.
Proof. intros H. split; [by rewrite app_nil_r|done|by left|by intros c ?%elem_of_nil]. Qed.
Lemma advanced_trans p ord q js r ks top top' : advanced p ord q js top -> advanced q (ord ++ js) r ks top' -> top' <= top -> advanced p ord r (js ++ ks) top.
Proof.
  intros [A1 A2 A3 A4] [B1 B2 B3 B4] Ht. split; [by rewrite app_assoc|by auto| |].
  - intros c [Hc|Hc]%B3; [destruct (A3 c Hc); [by left|right; apply elem_of_app; by left]|right; apply elem_of_app; by right].
  - intros c [Hc|Hc]%elem_of_app; [by apply A4|]. specialize (B4 c Hc). lia.
Qed.

Lemma elem_of_snoc {A} (x y : A) l : x ∈ l ++ [y] <-> x ∈ l \/ x = y.
Proof. by rewrite elem_of_app, list_elem_of_singleton. Qed.

(** The components that component [ci] needs, then itself. *)
Lemma visit_members fuel ci p1 l ord : (ci < length M)%nat -> sched p1 ord ->
  (forall d p l js, (d < ci)%nat -> advanced p1 ord p js (Z.of_nat ci - 1) ->
    exists p' ks, walk_component log_work fuel (Z.of_nat d) (p, l) = (Done tt, (p', l ++ (mem <$> ks))) /\ advanced p (ord ++ js) p' ks (Z.of_nat d) /\ d ∈ (ord ++ js) ++ ks) ->
  exists p2 js, each (fun n => each (visit_edge (walk_component log_work fuel) (Z.of_nat ci) n) E) (mem ci) (p1, l) = (Done tt, (p2, l ++ (mem <$> js))) /\
    advanced p1 ord p2 js (Z.of_nat ci - 1) /\ forall d, dep ci d -> d <> ci -> d ∈ ord ++ js.
Proof.
  intros Hci Hs1 Hrec. destruct (cm_members ci (mem ci)) as [_ Hm]; [unfold mem; destruct (nth_lookup_or_length M ci []); [done|lia]|].
  set (P := fun (done : list (nat * nat)) (s : plan * list (list nat)) => exists js, s.2 = l ++ (mem <$> js) /\ advanced p1 ord s.1 js (Z.of_nat ci - 1) /\
    forall v w d, (v, w) ∈ done -> cm w = Z.of_nat d -> d <> ci -> d ∈ ord ++ js).
  destruct (each_ind (fun n => each (visit_edge (walk_component log_work fuel) (Z.of_nat ci) n) E)
    (fun vs s => P (filter (fun e => e.1 ∈ vs) E) s) (mem ci) (p1, l)) as ([p2 l2] & E2 & js & El2 & Ha & Hd).
  - intros pre v post s Em Hp. assert (v ∈ mem ci) as Hv by (rewrite Em; apply elem_of_app; right; by left). apply Hm in Hv as [HvN Hvc].
    destruct (each_ind (visit_edge (walk_component log_work fuel) (Z.of_nat ci) v)
      (fun es s => P (filter (fun e => e.1 ∈ pre) E ++ filter (fun e => e.1 = v) es) s) E s) as (s' & Es & Hp').
    + intros es [a w] post' [q l'] Ee (js & El & Ha & Hd). cbn [fst snd] in *. unfold visit_edge. erewrite bind_done by done. cbn [fst snd].
      rewrite filter_app, filter_cons, filter_nil. cbn [fst]. fold (cmp q w). rewrite (gr_cmp _ (sc_graph _ _ (ad_sched _ _ _ _ _ Ha)) w).
      destruct (decide (a = v)) as [->|Hne]; [|exists (q, l'); split; [done|]; rewrite app_nil_r; by exists js].
      assert ((v, w) ∈ E) as Hvw by (rewrite Ee; apply elem_of_app; right; by left). destruct (edges_in _ _ Hvw) as [_ HwN]. pose proof (cm_down _ _ Hvw) as Hdn. pose proof (cm_range w HwN) as Hr.
      destruct (Z.eqb_spec (cm w) (Z.of_nat ci)) as [Ew|Ew].
      * exists (q, l'). split; [done|]. exists js. split; [done|]. split; [done|]. intros x y d. rewrite app_assoc, elem_of_snoc. intros [Hin|[= -> ->]] Hcd Hdn'; [by eapply Hd|]. lia.
      * destruct (Hrec (Z.to_nat (cm w)) q l' js ltac:(lia) Ha) as (q' & ks & Eq & Hk & Hin). rewrite Z2Nat.id in Eq, Hk by lia. exists (q', l' ++ (mem <$> ks)). split; [done|].
        exists (js ++ ks). cbn [fst snd]. rewrite El, fmap_app, app_assoc. split; [done|]. split; [eapply advanced_trans; [done|done|lia]|]. intros x y d. rewrite app_assoc, elem_of_snoc, app_assoc.
        intros [Hxy|[= -> ->]] Hcd Hdn'; [apply elem_of_app; left; by eapply Hd|]. replace d with (Z.to_nat (cm w)) by lia. done.
    + rewrite filter_nil, app_nil_r. exact Hp.
    + exists s'. split; [done|]. destruct Hp' as (js & El & Ha & Hd). exists js. split; [done|]. split; [done|]. intros x w d [Hx Hxw]%list_elem_of_filter Hcd Hn. apply (Hd x w d); [|done|done].
      apply elem_of_snoc in Hx. apply elem_of_app. destruct Hx as [Hx|Hx]; [left|right]; by apply list_elem_of_filter.
  - exists []. split; [by rewrite app_nil_r|]. split; [by apply advanced_nil|]. intros x w d [Hx _]%list_elem_of_filter. by apply elem_of_nil in Hx.
  - exists p2, js. cbn [snd fst] in *. subst l2. split; [done|]. split; [done|]. intros d (v & w & Hvw & Ev & Ew) Hn. apply (Hd v w d); [|done|done]. apply list_elem_of_filter. split; [|done].
    apply Hm. split; [by apply (edges_in _ _ Hvw)|done].
Qed.

Lemma walk_component_order fuel ci p l ord : sched p ord -> (ci < length M)%nat -> (ci < fuel)%nat -> (forall c, (c <= ci)%nat -> em p c -> c ∈ ord) ->
  exists p' js, walk_component log_work fuel (Z.of_nat ci) (p, l) = (Done tt, (p', l ++ (mem <$> js))) /\ advanced p ord p' js (Z.of_nat ci) /\ ci ∈ ord ++ js.
Proof.
  revert ci p l ord. induction fuel as [|fuel IH]; intros ci p l ord Hs Hci Hf Hpre; [lia|]. pose proof (sc_graph _ _ Hs) as Hg. pose proof (graph_count _ Hg) as Hcnt.
  cbn [walk_component fst snd]. unfold zlen. rewrite Hcnt, (proj2 (Z.ltb_ge _ _)), (proj2 (Z.leb_gt _ _)) by lia. cbn [orb].
  destruct (c_emitted (comp_at p (Z.of_nat ci))) eqn:Ee.
  { exists p, []. split; [by rewrite app_nil_r|]. split; [by apply advanced_nil|]. rewrite app_nil_r. apply Hpre; [done|by split]. }
  rewrite graph_mem by done. rewrite (gr_edges _ Hg), Nat2Z.id. fold (mark ci p). set (p1 := mark ci p).
  pose proof (mark_sched ci p ord Hs Hci) as Hs1. fold p1 in Hs1.
  destruct (visit_members fuel ci p1 l ord Hci Hs1) as (p2 & js & E2 & Ha & Hd).
  { intros d q l' js Hdc Ha. apply IH; [apply Ha|lia|lia|]. intros c Hc Hem. apply elem_of_app. destruct (ad_new _ _ _ _ _ Ha c Hem) as [Hc1|Hc1]; [left|by right].
    apply mark_em in Hc1 as [Hc1| ->]; [apply Hpre; [lia|done]|lia|done|done]. }
  rewrite (bind_done _ _ _ _ _ E2). exists p2, (js ++ [ci]). split; [unfold on_nodes; cbn; rewrite fmap_app, app_assoc; by destruct p2|].
  assert (~ em p ci) as Hnem by (intros [_ Hc]; by rewrite Hc in Ee). destruct Ha as [A1 A2 A3 A4]. split; [|rewrite app_assoc; apply elem_of_snoc; by right].
  split.
  - destruct A1 as [G1 G2 G3 G4]. rewrite app_assoc. split; [done| | |by apply before_snoc].
    + apply NoDup_app. split; [done|]. split; [|apply NoDup_singleton]. intros c Hc Hc'. apply list_elem_of_singleton in Hc' as ->.
      apply elem_of_app in Hc as [Hc|Hc]; [by apply Hnem, (sc_em _ _ Hs)|]. specialize (A4 ci Hc). lia.
    + intros c [Hc| ->]%elem_of_snoc; [by apply G3|]. apply A2, mark_em; [done|done|by right].
  - intros c Hc. apply A2, mark_em; [done|done|by left].
  - intros c [Hc|Hc]%A3; [|right; apply elem_of_snoc; by left]. apply mark_em in Hc as [Hc| ->]; [by left|right; apply elem_of_snoc; by right|done|done].
  - intros c [Hc| ->]%elem_of_snoc; [specialize (A4 c Hc)|]; lia.
Qed.

Lemma clear_graph p : graph p -> graph (clear_emitted p) /\ forall c, ~ em (clear_emitted p) c.
Proof.
  intros Hg. pose proof (graph_count _ Hg) as Hcnt. split.
  - destruct Hg as [H1 H2 H3 H4]. split; try done. cbn. rewrite <- H4, <- list_fmap_compose. done.
  - intros c [Hc He]. unfold comp_at in He. rewrite Nat2Z.id in He. cbn in He. destruct (lookup_lt_is_Some_2 (p_comp p) c ltac:(lia)) as [x Hx].
    rewrite (nth_lookup_Some _ _ _ (c_members x, false)) in He; [done|]. by rewrite list_lookup_fmap, Hx.
Qed.
(** The whole walk: every component once, after what it needs. *)
Lemma walk_order ri p0 : graph p0 -> exists p' ord, walk log_work ri (p0, []) = (Done tt, (p', mem <$> ord)) /\
  NoDup ord /\ (forall i, i ∈ ord <-> (i < length M)%nat) /\ before ord.
Proof.
  intros Hg0. destruct (clear_graph p0 Hg0) as [Hg Hem]. unfold walk. erewrite bind_done by done. cbn [fst snd]. set (p1 := clear_emitted p0) in *. erewrite bind_done by done. cbn [fst].
  rewrite (graph_count _ Hg), (gr_len _ Hg). set (fuel := S (length M)). fold (cmp p1 ri). rewrite (gr_cmp _ Hg).
  assert (sched p1 []) as Hs1 by (split; [done|constructor|by intros i ?%elem_of_nil|intros pre i post E1; by destruct pre]).
  set (P := fun (vs : list nat) (s : plan * list (list nat)) => exists ord, s.2 = mem <$> ord /\ sched s.1 ord /\ (forall c, em s.1 c -> c ∈ ord) /\ forall c, c ∈ vs -> c ∈ ord).
  assert (forall ci s vs, P vs s -> (ci < length M)%nat -> exists s', walk_component log_work fuel (Z.of_nat ci) s = (Done tt, s') /\ P (vs ++ [ci]) s') as Hvisit.
  { intros ci [q l] vs (ord & El & Hs & He & Hv) Hci. cbn [fst snd] in *. destruct (walk_component_order fuel ci q l ord Hs Hci ltac:(lia)) as (q' & js & Eq & Ha & Hin); [intros c _ Hc; by apply He|].
    eexists. split; [exact Eq|]. exists (ord ++ js). cbn [fst snd]. rewrite El, fmap_app. split; [done|]. split; [apply Ha|]. split.
    - intros c [Hc|Hc]%(ad_new _ _ _ _ _ Ha); apply elem_of_app; [left; by apply He|by right].
    - intros c [Hc| ->]%elem_of_snoc; [apply elem_of_app; left; by apply Hv|done]. }
  assert (P [] (p1, [])) as HP0 by (exists []; split_and!; [done|done|intros c Hc; by destruct (Hem c)|by intros c ?%elem_of_nil]).
  assert (exists s, (if decide (ri < N)%nat then walk_component log_work fuel (cm ri) else ret tt) (p1, []) = (Done tt, s) /\ P [] s) as (s & Es & HPs).
  { destruct (decide (ri < N)%nat) as [Hr|Hr]; [|by exists (p1, [])]. pose proof (cm_range ri Hr) as Hc. unfold zlen in Hc.
    destruct (Hvisit (Z.to_nat (cm ri)) (p1, []) [] HP0 ltac:(lia)) as (s & Es & ord & A & B & C & _). rewrite Z2Nat.id in Es by lia. exists s. split; [done|]. exists ord. split_and!; try done. by intros c ?%elem_of_nil. }
  rewrite (bind_done _ _ _ _ _ Es).
  destruct (each_ind (fun i => let* s := get in if c_emitted (comp_at s.1 (Z.of_nat i)) then ret tt else walk_component log_work fuel (Z.of_nat i)) P (seq 0 (length M)) s)
    as ([q l] & Eq & ord & El & Hs & He & Hv).
  - intros pre i post t Ep HPt. assert (i < length M)%nat as Hi by (assert (i ∈ seq 0 (length M)) as H by (rewrite Ep; apply elem_of_app; right; by left); apply elem_of_seq in H; lia).
    erewrite bind_done by done. destruct (c_emitted _) eqn:Ee; [|by apply Hvisit]. exists t. split; [done|]. destruct HPt as (ord & A & B & C & D). exists ord. split_and!; try done.
    intros c [Hc| ->]%elem_of_snoc; [by apply D|]. apply C. by split.
  - done.
  - exists q, ord. cbn [snd fst] in *. subst l. split; [exact Eq|]. split; [apply Hs|]. split; [|apply Hs]. intros i. split; [intros Hi; by apply (sc_em _ _ Hs i Hi)|]. intros Hi. apply Hv, elem_of_seq. lia.
Qed.

(** ** The order of the packages *)

Lemma mem_spec i v : (i < length M)%nat -> v ∈ mem i <-> (v < N)%nat /\ cm v = Z.of_nat i.
Proof. intros Hi. destruct (lookup_lt_is_Some_2 M i Hi) as [m Hm]. unfold mem. rewrite (nth_lookup_Some _ _ _ _ Hm). by apply cm_members. Qed.
Lemma in_order ord v : (forall i, i ∈ ord -> (i < length M)%nat) -> v ∈ concat (mem <$> ord) <-> (v < N)%nat /\ Z.to_nat (cm v) ∈ ord.
Proof.
  intros Ho. rewrite list_elem_of_In, in_concat. split.
  - intros (m & Hm & Hv). apply list_elem_of_In in Hm, Hv. apply list_elem_of_fmap in Hm as (i & -> & Hi). apply mem_spec in Hv as [Hv Ec]; [|by apply Ho]. split; [done|]. by rewrite Ec, Nat2Z.id.
  - intros [Hv Hi]. exists (mem (Z.to_nat (cm v))). rewrite <- !list_elem_of_In. split; [apply list_elem_of_fmap; by eexists|]. apply mem_spec; [by apply Ho|]. split; [done|]. pose proof (cm_range v Hv). lia.
Qed.
Lemma order_nodup ord : (forall i, i ∈ ord -> (i < length M)%nat) -> NoDup ord -> NoDup (concat (mem <$> ord)).
Proof.
  intros Ho Hn. induction Hn as [|i ord Hi Hn IH]; [constructor|]. cbn. apply NoDup_app. split; [|split; [|apply IH; intros j Hj; apply Ho; by right]].
  - destruct (lookup_lt_is_Some_2 M i) as [m Hm]; [apply Ho; by left|]. unfold mem. rewrite (nth_lookup_Some _ _ _ _ Hm). by apply (cm_members i).
  - intros v Hv Hv'. apply mem_spec in Hv as [_ Ec]; [|apply Ho; by left]. apply in_order in Hv' as [_ Hv']; [|intros j Hj; apply Ho; by right]. by rewrite Ec, Nat2Z.id in Hv'.
Qed.
Lemma order_before ord : (forall i, i ∈ ord <-> (i < length M)%nat) -> NoDup ord -> before ord ->
  forall pre v post, concat (mem <$> ord) = pre ++ v :: post -> forall w, (v, w) ∈ E -> cm w <> cm v -> w ∈ pre.
Proof.
  intros Ho Hn Hb pre v post Ec w Hvw Hne. destruct (edges_in _ _ Hvw) as [Hv Hw]. pose proof (cm_range v Hv) as Rv. pose proof (cm_range w Hw) as Rw. unfold zlen in *.
  assert (Z.to_nat (cm v) ∈ ord) as Hi by (apply Ho; lia). apply list_elem_of_split in Hi as (o1 & o2 & ->).
  assert (Z.to_nat (cm w) ∈ o1) as Hd.
  { apply (Hb o1 (Z.to_nat (cm v)) o2 eq_refl); [|lia]. exists v, w. rewrite !Z2Nat.id by lia. done. }
  assert (w ∈ concat (mem <$> o1)) as Hwin by (apply in_order; [intros i Hi; apply Ho, elem_of_app; by left|done]).
  rewrite fmap_app, concat_app in Ec. cbn in Ec.
  assert (v ∉ concat (mem <$> o1)) as Hvn.
  { intros [_ Hv1]%in_order; [|intros i Hi; apply Ho, elem_of_app; by left]. apply NoDup_app in Hn as (_ & Hn & _). apply (Hn _ Hv1). by left. }
  apply app_eq_app in Ec as (k & [[E1 E2]|[-> E2]]); [|apply elem_of_app; by left].
  destruct k as [|x k]; [rewrite app_nil_r in E1; by rewrite <- E1|]. injection E2 as <- E2. exfalso. apply Hvn. rewrite E1. apply elem_of_app. right. by left.
Qed.
End order.

(** ** Printing and installing *)

Lemma each_concat {S A} (f : A -> comp S unit) ll s : each (each f) ll s = each f (concat ll) s.
Proof. revert s. induction ll as [|l ll IH]; intros s; cbn; [done|]. rewrite each_app. unfold bind. destruct (each f l s) as [[u|rc|] s']; [apply IH|done|done]. Qed.

(** A plan is fit for the walk when its components are those of its graph. *)
Lemma plan_order p p0 : components (p_e p) (length (p_n p)) p0 p -> (forall a b, (a, b) ∈ p_e p -> (a < length (p_n p))%nat /\ (b < length (p_n p))%nat) ->
  forall ri, exists p' ms, walk log_work ri (p, []) = (Done tt, (p', ms)) /\ concat ms ≡ₚ seq 0 (length (p_n p)) /\
  forall pre v post, concat ms = pre ++ v :: post -> forall w, (v, w) ∈ p_e p -> w ∈ pre \/ rtc (edge (p_e p)) w v.
Proof.
  intros Hc He ri. set (M := c_members <$> p_comp p). set (N := length (p_n p)) in *. set (cm := cmp p).
  assert (forall v, (v < N)%nat -> 0 <= cm v < zlen M) as Hr by (intros v Hv; unfold M, zlen; rewrite length_fmap; by apply (co_range _ _ _ _ Hc)).
  assert (forall i m, M !! i = Some m -> NoDup m /\ forall v, v ∈ m <-> (v < N)%nat /\ cm v = Z.of_nat i) as Hm.
  { intros i m H. unfold M in H. rewrite list_lookup_fmap in H. destruct (p_comp p !! i) as [c|] eqn:Ec; [|done]. injection H as <-. by apply (co_members _ _ _ _ Hc). }
  assert (graph (p_e p) N cm M p) as Hg by by split.
  destruct (walk_order (p_e p) N cm M He Hr Hm (co_down _ _ _ _ Hc) ri p Hg) as (p' & ord & Ew & Hn & Ho & Hb).
  exists p', (mem M <$> ord). split; [exact Ew|]. split.
  - apply NoDup_Permutation; [apply (order_nodup N cm M Hr Hm); [intros i Hi; by apply Ho|done]|apply NoDup_seq|]. intros v. rewrite (in_order N cm M Hr Hm) by (intros i Hi; by apply Ho).
    rewrite elem_of_seq. split; [lia|]. intros [_ Hv]. split; [lia|]. apply Ho. pose proof (Hr v ltac:(lia)). unfold zlen in *. lia.
  - intros pre v post E1 w Hvw. destruct (Z.eq_dec (cm w) (cm v)) as [Eq|Hne].
    + right. destruct (He _ _ Hvw). by apply (co_scc _ _ _ _ Hc w v).
    + left. by apply (order_before (p_e p) N cm M He Hr Hm ord Ho Hn Hb pre v post E1).
Qed.

Lemma lockstep_refl p : lockstep p p.
Proof. by split. Qed.
(** Any work on a plan follows its order. *)
Lemma walk_follows {X} (work : list nat -> comp (list node * X) unit) p ri p' ms x :
  (forall ms ns x, let '(_, (ns', _)) := work ms (ns, x) in length ns' = length ns /\ forall d j, n_component (nth j ns' d) = n_component (nth j ns d)) ->
  walk log_work ri (p, []) = (Done tt, (p', ms)) ->
  exists q, let '(o, (ns, x')) := each work ms (p_n p, x) in walk work ri (p, x) = (o, (q, x')) /\ p_n q = ns.
Proof.
  intros Hw El. destruct (walk_sim work Hw ri p p (lockstep_refl p) [] x) as (o1 & p1 & cs & E1 & H). rewrite El in E1. injection E1 as <- <- ->. cbn [app] in *.
  destruct (H eq_refl) as (o & q & x' & E2 & E3 & _). exists q. by rewrite E3.
Qed.

Lemma print_step_comp ms (ns : list node) (x : list (Z * list nat)) : let '(_, (ns', _)) := print_step ms (ns, x) in length ns' = length ns /\ forall d j, n_component (nth j ns' d) = n_component (nth j ns d).
Proof. done. Qed.
Lemma print_steps ms (ns : list node) x : each print_step ms (ns, x) = (Done tt, (ns, x ++ imap (fun i m => (zlen x + 1 + Z.of_nat i, m)) ms)).
Proof.
  revert x. induction ms as [|m ms IH]; intros x; [cbn; by rewrite app_nil_r|]. cbn [each]. erewrite bind_done by reflexivity. cbn [fst snd]. rewrite IH, <- app_assoc. cbn [app imap]. do 4 f_equal; [f_equal; lia|].
  apply imap_ext. intros i y _. unfold compose. f_equal. rewrite zlen_app, zlen_cons, zlen_nil. lia.
Qed.

Section install.
Context {T : Type} (cb : list Z -> comp T unit).
(** Installing the packages of [order] that the target does not have, one after the other. *)
Definition install (p : plan) (i : nat) : comp T unit :=
  if n_installed (node_at p i) then ret tt else
  match entry_path (n_e (node_at p i)) with Some path => fail_as 1 (cb path) | None => fail 1 end.
Definition missing (p : plan) (order : list nat) : Z := zlen (filter (fun i => n_installed (node_at p i) = false) order).

Lemma apply_member_comp ms ns (x : T * Z * Z) : let '(_, (ns', _)) := each (apply_member cb) ms (ns, x) in length ns' = length ns /\ forall d j, n_component (nth j ns' d) = n_component (nth j ns d).
Proof.
  revert ns x. induction ms as [|i ms IH]; intros ns [[t d] k]; [done|]. cbn [each]. unfold bind at 1, apply_member at 1. destruct (n_installed _); [apply IH|]. destruct (entry_path _) as [path|]; [|done].
  destruct (cb path t) as [[u|rc|] t']; try done. specialize (IH (alter (set_installed true) i ns) (t', d + 1, k)). destruct (each _ ms _) as [o [ns' x']]. destruct IH as [IH1 IH2].
  rewrite length_alter in IH1. split; [done|]. intros d' j. rewrite IH2, !nth_lookup, list_lookup_alter. destruct (decide _) as [->|]; [|done]. by destruct (ns !! j).
Qed.
Lemma apply_members p order : NoDup order -> forall ns t d k,
  (forall i, i ∈ order -> n_installed (nth i ns (node_new entry_empty)) = n_installed (node_at p i) /\ n_e (nth i ns (node_new entry_empty)) = n_e (node_at p i)) ->
  exists ns' d' k', let '(o, t') := each (install p) order t in
  each (apply_member cb) order (ns, (t, d, k)) = (match o with Done _ => Done tt | Fail _ => Fail 1 | NoFuel => NoFuel end, (ns', (t', d', k'))) /\
  (o = Done tt -> d' = d + missing p order /\ k' = k + (zlen order - missing p order)).
Proof.
  induction 1 as [|i order Hi Hn IH]; intros ns t d k Hns; [exists ns, d, k; cbn; split; [done|]; unfold missing, zlen; cbn; lia|].
  destruct (Hns i ltac:(by left)) as [Ei Ee]. cbn [each]. unfold bind at 1 2, install at 1, apply_member at 1. rewrite Ei, Ee. unfold missing. rewrite filter_cons, zlen_cons.
  destruct (n_installed (node_at p i)) eqn:Ein.
  - rewrite decide_False by done. destruct (IH ns t d (k + 1)) as (ns' & d' & k' & H); [intros j Hj; apply Hns; by right|]. exists ns', d', k'.
    cbn [ret]. destruct (each (install p) order t) as [o t']. destruct H as [-> H]. split; [done|]. intros Ho. destruct (H Ho) as [-> ->]. unfold missing. lia.
  - rewrite decide_True by done. destruct (entry_path (n_e (node_at p i))) as [path|]; [|by exists ns, d, k]. unfold fail_as. destruct (cb path t) as [[u|rc|] t1]; [|by exists ns, d, k..].
    destruct (IH (alter (set_installed true) i ns) t1 (d + 1) k) as (ns' & d' & k' & H).
    + intros j Hj. rewrite !nth_lookup, list_lookup_alter_ne by (by intros ->). rewrite <- !nth_lookup. apply Hns. by right.
    + exists ns', d', k'. destruct (each (install p) order t1) as [o t']. destruct H as [-> H]. split; [done|]. intros Ho. destruct (H Ho) as [-> ->]. unfold missing. rewrite zlen_cons. lia.
Qed.
End install.

(** C8: a valid plan is printed and installed in one order: every package of the
    plan once, and before a package everything its recorded edges say it needs
    that does not need it back (all it needs, unless the plan has the 4096 edges
    it can record).  [pkg_plan_run] prints the steps of that order, numbered
    from 1; [pkg_plan_apply] calls the callback, in that order, on the path of
    each package the target does not have, stops at the first failure, and counts. *)
Theorem pkg_plan_order r status package ri p : build_plan r status package = (Done (Some ri), p) -> p_valid p = true ->
  exists ms, concat ms ≡ₚ seq 0 (length (p_n p)) /\
  (forall pre v post, concat ms = pre ++ v :: post -> forall w, (v, w) ∈ p_e p -> w ∈ pre \/ rtc (edge (p_e p)) w v) /\
  pkg_plan_run r status package = Done (0, p, imap (fun i m => (1 + Z.of_nat i, m)) ms) /\
  forall T (cb : list Z -> comp T unit) t, pkg_plan_apply r status cb package t =
    match each (install cb p) (concat ms) t with
    | (Done _, t') => (Done (missing p (concat ms), zlen (p_n p) - missing p (concat ms)), t')
    | (Fail _, t') => (Fail 1, t')
    | (NoFuel, t') => (NoFuel, t')
    end.
Proof.
  intros Eb Hv. pose proof (build_plan_ok r status package) as H. rewrite Eb in H. destruct H as (-> & Hok & (p0 & Hc) & _).
  destruct (plan_order p p0 Hc (po_edges _ _ _ Hok) 0) as (p' & ms & El & Hp & Hb). exists ms. split; [done|]. split; [done|]. split.
  - destruct (walk_follows print_step p 0 p' ms [] print_step_comp El) as (q & H). rewrite print_steps in H. destruct H as [H _].
    unfold pkg_plan_run. rewrite Eb, Hv. unfold print_unpack_plan. by rewrite H.
  - intros T cb t. unfold pkg_plan_apply. rewrite Eb, Hv. destruct (walk_follows (each (apply_member cb)) p 0 p' ms (t, 0, 0) (apply_member_comp cb) El) as (q & H).
    rewrite each_concat in H. assert (NoDup (concat ms)) as Hn by (rewrite Hp; apply NoDup_seq).
    destruct (apply_members cb p (concat ms) Hn (p_n p) t 0 0 ltac:(done)) as (ns' & d' & k' & Ha). destruct (each (install cb p) (concat ms) t) as [o t']. destruct Ha as [Ea Hcnt].
    rewrite Ea in H. destruct H as [-> _]. destruct o as [[]|rc|]; [|done|done]. destruct (Hcnt eq_refl) as [-> ->].
    assert (zlen (concat ms) = zlen (p_n p)) as -> by (unfold zlen; by rewrite Hp, length_seq). done.
Qed.
Lemma steps_members (ms : list (list nat)) : (imap (fun i m => (1 + Z.of_nat i, m)) ms).*2 = ms.
Proof. apply list_eq. intros i. rewrite list_lookup_fmap, list_lookup_imap. by destruct (ms !! i). Qed.
Definition ex_plan : plan := Eval vm_compute in (build_plan ex_repo None (str_bytes "tool")).2.
Lemma pkg_plan_order_witness : pkg_plan_run ex_repo None (str_bytes "tool") = Done (0, ex_plan, [(1, [1%nat]); (2, [0%nat])]) /\
  forall T (cb : list Z -> comp T unit) t, pkg_plan_apply ex_repo None cb (str_bytes "tool") t =
    match each (install cb ex_plan) [1; 0]%nat t with
    | (Done _, t') => (Done (2, 0), t') | (Fail _, t') => (Fail 1, t') | (NoFuel, t') => (NoFuel, t')
    end.
Proof.
  assert (build_plan ex_repo None (str_bytes "tool") = (Done (Some 0%nat), ex_plan)) as E by (vm_compute; reflexivity).
  destruct (pkg_plan_order ex_repo None (str_bytes "tool") 0 ex_plan E eq_refl) as (ms & Hp & _ & Er & Ha).
  assert (pkg_plan_run ex_repo None (str_bytes "tool") = Done (0, ex_plan, [(1, [1%nat]); (2, [0%nat])])) as E2 by (vm_compute; reflexivity).
  split; [exact E2|]. pose proof (f_equal (fun o : outcome (Z * plan * list (Z * list nat)) => match o with Done (_, _, l) => l.*2 | _ => [] end) (eq_trans (eq_sym E2) Er)) as Em.
  cbv beta iota in Em. rewrite steps_members in Em. change ([[1]; [0]]%nat = ms) in Em. subst ms. intros T cb t. rewrite Ha. reflexivity.
Defined.
