(* ===== verification/Tar.v ===== *)
(** * Tar: USTAR archives ([src/tar.c], [src/tar_write.c])

    The writer of headers, files, directories and the end mark, and the walk
    that hands every entry of an archive to a callback. *)
From S2P Require Import Prelude Text HostFile Stream.
#[local] Open Scope Z_scope.

Definition TAR_BLOCK_SIZE : Z := 512.

(** ** Writing *)

(** [dst[width - 1 - k]], [dst[width - 2 - k]], ... from the low digits of [value]. *)
Fixpoint oct_digits (n : nat) (value : Z) (dst : list Z) : list Z :=
  match n with
  | O => dst
  | S i =>
      if value =? 0 then dst
      else oct_digits i (Z.shiftr value 3) (splice dst (Z.of_nat i) [u8 (48 + Z.land value 7)])
  end.

(** The [width] bytes of the field. *)
Definition oct (width value : Z) : option (list Z) :=
  let check := Nat.iter (Z.to_nat (width - 1)) (fun c => Z.shiftr c 3) value in
  if negb (check =? 0) then None else
  let dst := splice (zrep width 48) (width - 1) [0] in
  Some (oct_digits (Z.to_nat (width - 1)) value dst).

(** [strstr(s, lit) != NULL] *)
Fixpoint strstr (s lit : list Z) : bool :=
  starts_with lit s || match s with [] => false | _ :: s => strstr s lit end.

(** The last slash at which the path splits into a prefix and a name that fit;
    [i] is the position of [s] in the path. *)
Fixpoint split_slash (s : list Z) (i length : Z) (slash : option Z) : option Z :=
  match s with
  | [] => slash
  | c :: s =>
      split_slash s (i + 1) length
        (if (c =? 47) && (i <=? 155) && (length - i - 1 <=? 100) then Some i else slash)
  end.

Definition name_fields (header path : list Z) : option (list Z) :=
  let length := zlen path in
  if bool_decide (path = []) || (bget path 0 =? 47) || bool_decide (92 ∈ path) then None else
  if strstr path (str_bytes "../") || streq path (str_bytes "..") || strstr path (str_bytes "/./") || streq path (str_bytes ".") then None else
  if length <=? 100 then Some (splice header 0 path) else
  match split_slash path 0 length None with
  | None => None
  | Some slash =>
      if (slash =? 0) || (slash + 1 =? length) then None else
      Some (splice (splice header 0 (drop (Z.to_nat (slash + 1)) path)) 345 (take (Z.to_nat slash) path))
  end.

(** [if (oct(block + off, width, value) != 0) return -1;] *)
Definition put_oct (block : list Z) (off width value : Z) : option (list Z) :=
  f ← oct width value; Some (splice block off f).

Definition checksum (block : list Z) : Z := foldl (fun s b => u32 (s + b)) 0 block.

(** The 512 bytes of the header. *)
Definition header_block (path : list Z) (size mode type : Z) : option (list Z) :=
  block ← name_fields (zrep TAR_BLOCK_SIZE 0) path;
  block ← put_oct block 100 8 (Z.land mode 4095);
  block ← put_oct block 108 8 0;
  block ← put_oct block 116 8 0;
  block ← put_oct block 124 12 size;
  block ← put_oct block 136 12 0;
  let block := splice block 148 (zrep 8 32) in
  let block := splice block 156 [u8 type] in
  let block := splice block 257 (str_bytes "ustar") in
  let block := splice block 262 [0] in
  let block := splice block 263 (str_bytes "00") in
  let sum := checksum block in
  block ← put_oct block 148 7 sum;
  Some (splice block 155 [32]).

Definition header (path : list Z) (size mode type : Z) : comp stream unit :=
  let* block := of_option (-1) (header_block path size mode type) in
  fwrite (-1) block.

Definition gu_tar_write_file (path : list Z) (size mode : Z) : comp streams unit :=
  on_out (header path size mode 48) ;;;
  copy_loop (copy_fuel size) size ;;;
  let padding := (TAR_BLOCK_SIZE - size mod TAR_BLOCK_SIZE) mod TAR_BLOCK_SIZE in
  if negb (padding =? 0) then on_out (fwrite (-1) (zrep padding 0)) else ret tt.

(** [name] in its buffer of 256. *)
Definition dir_name (path : list Z) : list Z :=
  if bool_decide (last path = Some 47) then path else path ++ [47].
Definition gu_tar_write_dir (path : list Z) (mode : Z) : comp stream unit :=
  let length := zlen path in
  require (negb ((length =? 0) || (255 <=? length))) (-1) ;;;
  header (dir_name path) 0 mode 53.

Definition gu_tar_write_end : comp stream unit := fwrite (-1) (zrep (TAR_BLOCK_SIZE * 2) 0).

(** ** Walking *)

Record tar_entry : Type := TarEntry {
  te_path : list Z; te_linkname : list Z; te_size : Z; te_mode : Z; te_type : Z; te_data_offset : Z;
}.

Definition octal_blank (c : Z) : bool := (c =? 32) || (c =? 0).
Definition octal_digit (c : Z) : bool := (48 <=? c) && (c <=? 55).
Definition octal (p : list Z) : Z :=
  foldl (fun v c => u64 (u64 (Z.shiftl v 3) + (c - 48))) 0 (take_while octal_digit (skip_while octal_blank p)).

Definition zero (p : list Z) : bool := forallb (fun b => b =? 0) p.

(** The entry the header [h] describes, its data at [data_offset]. *)
Definition parse_entry (h : list Z) (data_offset : Z) : tar_entry :=
  let name := cstr (sub h 0 100) in
  TarEntry
    (if negb (bget h 345 =? 0) then take 511 (cstr (sub h 345 155) ++ [47] ++ name) else name)
    (cstr (sub h 157 100))
    (octal (sub h 124 12))
    (u32 (octal (sub h 100 8)))
    (if negb (bget h 156 =? 0) then bget h 156 else 48)
    data_offset.

(** [(e.size + 511u) & ~511u]: the mask has the width of [unsigned]. *)
Definition pad_size (size : Z) : Z := Z.land (u64 (size + 511)) (u32 (Z.lnot 511)).

Section walk.
(** The callback: it may use the stream, and a failure of it stops the walk. *)
Context {C : Type} (cb : tar_entry -> comp (stream * C) unit).

Definition on_fp {A} (c : comp stream A) : comp (stream * C) A := zoom fst (fun s sc => (s, sc.2)) c.

Fixpoint walk_loop (fuel : nat) (off len pos : Z) : comp (stream * C) unit :=
  if u64 (pos + 512) <=? len then
    match fuel with
    | O => nofuel
    | S fuel =>
        let* h := on_fp (fread_all (-2) 512) in
        let pos := pos + 512 in
        if zero h then ret tt else
        let e := parse_entry h (u64 (off + pos)) in
        require (negb (len - pos <? te_size e)) (-3) ;;;
        fail_as (-4) (cb e) ;;;
        let padded := pad_size (te_size e) in
        require (negb (len - pos <? padded)) (-5) ;;;
        let pos := pos + padded in
        fail_as (-6) (on_fp (fseek_set (u64 (off + pos)))) ;;;
        walk_loop fuel off len pos
    end
  else ret tt.
(** Every turn passes a header. *)
Definition walk_fuel (len : Z) : nat := Z.to_nat (len / 512 + 1).

Definition gu_tar_walk (off len : Z) : comp (stream * C) unit :=
  fail_as (-1) (on_fp (fseek_set off)) ;;;
  walk_loop (walk_fuel len) off len 0.

Definition gu_tar_walk_stream : comp (stream * C) unit :=
  let* len := on_fp fseek_end in
  gu_tar_walk 0 len.
End walk.

(** ** Octal fields *)

(** The [n] low octal digits of [v]. *)
Fixpoint octs (n : nat) (v : Z) : list Z :=
  match n with O => [] | S n => octs n (Z.shiftr v 3) ++ [48 + Z.land v 7] end.

Lemma length_octs n v : length (octs n v) = n.
Proof. revert v. induction n as [|n IH]; intros; simpl; [done|]. rewrite length_app, IH. simpl. lia. Qed.
Lemma land7 v : Z.land v 7 = v mod 8.
Proof. change 7 with (Z.ones 3). by rewrite Z.land_ones. Qed.
Lemma shiftr3 v : Z.shiftr v 3 = v / 8.
Proof. by rewrite Z.shiftr_div_pow2. Qed.
Lemma octs_0 n : octs n 0 = replicate n 48.
Proof. induction n as [|n IH]; [done|]. cbn [octs]. change (Z.shiftr 0 3) with 0. rewrite IH. by rewrite replicate_S_end. Qed.
Lemma octs_digits n v : Forall (fun c => octal_digit c = true) (octs n v).
Proof.
  revert v. induction n as [|n IH]; intros; simpl; [done|]. apply Forall_app_2; [apply IH|].
  constructor; [|done]. rewrite land7. unfold octal_digit. pose proof (Z.mod_pos_bound v 8 ltac:(lia)). lia.
Qed.
Lemma oct_digits_octs n v l : oct_digits n v (replicate n 48 ++ l) = octs n v ++ l.
Proof.
  revert v l. induction n as [|n IH]; intros v l; [done|]. cbn [oct_digits]. destruct (Z.eqb_spec v 0) as [->|].
  - by rewrite octs_0.
  - assert (splice (replicate (S n) 48 ++ l) (Z.of_nat n) [u8 (48 + Z.land v 7)] = replicate n 48 ++ (48 + Z.land v 7) :: l) as ->.
    { rewrite u8_id by (rewrite land7; pose proof (Z.mod_pos_bound v 8 ltac:(lia)); lia).
      unfold splice. rewrite Nat2Z.id, replicate_S_end, <- app_assoc. rewrite take_app_le, take_ge by (rewrite length_replicate; lia).
      f_equal. simpl. f_equal. rewrite drop_app_ge by (rewrite length_replicate; simpl; lia). rewrite length_replicate. by replace (n + 1 - n)%nat with 1%nat by lia. }
    rewrite IH. simpl. by rewrite <- app_assoc.
Qed.
Lemma iter_shiftr3 n v : 0 <= v -> Nat.iter n (fun c => Z.shiftr c 3) v = v / 8 ^ Z.of_nat n.
Proof.
  intros Hv. induction n as [|n IH]; [by rewrite Z.div_1_r|]. rewrite Nat.iter_succ, IH, shiftr3.
  rewrite Z.div_div by lia. f_equal. rewrite Nat2Z.inj_succ, Z.pow_succ_r by lia. lia.
Qed.
Lemma oct_spec w v : 0 < w -> 0 <= v ->
  oct w v = if v <? 8 ^ (w - 1) then Some (octs (Z.to_nat (w - 1)) v ++ [0]) else None.
Proof.
  intros Hw Hv. unfold oct. rewrite iter_shiftr3 by done. rewrite Z2Nat.id by lia.
  assert (0 < 8 ^ (w - 1)) by (apply Z.pow_pos_nonneg; lia).
  destruct (Z.ltb_spec v (8 ^ (w - 1))) as [H1|H1].
  - rewrite Z.div_small by lia. cbn [Z.eqb negb]. f_equal. rewrite <- oct_digits_octs. f_equal.
    unfold splice, zrep. replace (Z.to_nat w) with (Z.to_nat (w - 1) + 1)%nat by lia. rewrite replicate_add.
    rewrite take_app_le, take_ge by (rewrite length_replicate; lia). f_equal. simpl.
    rewrite drop_ge by (rewrite length_app, length_replicate; simpl; lia). done.
  - assert (1 <= v / 8 ^ (w - 1)) by (apply Z.div_le_lower_bound; lia). by rewrite (proj2 (Z.eqb_neq (v / 8 ^ (w - 1)) 0)) by lia.
Qed.

Lemma octal_octs n v : (n <= 21)%nat -> 0 <= v < 8 ^ Z.of_nat n ->
  foldl (fun v c => u64 (u64 (Z.shiftl v 3) + (c - 48))) 0 (octs n v) = v.
Proof.
  intros Hn. revert v. induction n as [|n IH]; intros v Hv; [simpl in *; lia|]. cbn [octs]. rewrite foldl_app.
  rewrite Nat2Z.inj_succ, Z.pow_succ_r in Hv by lia. rewrite shiftr3, land7.
  assert (0 <= v / 8 < 8 ^ Z.of_nat n) as Hq by (split; [apply Z.div_pos; lia|apply Z.div_lt_upper_bound; lia]).
  rewrite (IH ltac:(lia) _ Hq). cbn [foldl].
  assert (8 ^ Z.of_nat n <= 8 ^ 20) by (apply Z.pow_le_mono_r; lia).
  pose proof (Z.mod_pos_bound v 8 ltac:(lia)). pose proof (Z.div_mod v 8 ltac:(lia)). change (8 ^ 20) with (2 ^ 60) in *.
  rewrite Z.shiftl_mul_pow2 by lia. change (2 ^ 3) with 8. rewrite (u64_id (v / 8 * 8)) by lia. rewrite u64_id by lia. lia.
Qed.

(** What the reader makes of a field the writer filled. *)
Lemma oct_octal w v : 0 < w <= 22 -> 0 <= v < 8 ^ (w - 1) ->
  exists f, oct w v = Some f /\ zlen f = w /\ Forall is_byte f /\ octal f = v.
Proof.
  intros Hw Hv. rewrite oct_spec by lia. rewrite (proj2 (Z.ltb_lt _ _)) by lia. eexists. split; [done|].
  set (n := Z.to_nat (w - 1)). pose proof (octs_digits n v) as Hd. split_and!.
  - rewrite zlen_app. unfold zlen at 1. rewrite length_octs. change (zlen [0]) with 1. lia.
  - apply Forall_app_2; [|repeat constructor; lia]. eapply Forall_impl; [exact Hd|]. unfold octal_digit, is_byte. lia.
  - unfold octal. destruct n as [|n'] eqn:En.
    + assert (w = 1) as -> by lia. simpl in Hv. cbn. lia.
    + rewrite <- En in *.
      assert (skip_while octal_blank (octs n v ++ [0]) = octs n v ++ [0]) as ->.
      { destruct (octs n v) as [|c l] eqn:El; [pose proof (length_octs n v) as Hl; rewrite El in Hl; simpl in Hl; lia|].
        apply Forall_cons in Hd as [Hc _]. simpl. unfold octal_digit, octal_blank in *.
        by replace ((c =? 32) || (c =? 0)) with false by lia. }
      rewrite (take_while_app _ _ [0]) by done. apply octal_octs; [lia|]. unfold n. rewrite Z2Nat.id by lia. done.
Qed.

(** ** Headers *)

Lemma split_slash_inv s i length slash k :
  split_slash s i length slash = Some k ->
  slash = Some k \/ (exists a b, s = a ++ 47 :: b /\ k = i + zlen a /\ k <= 155 /\ length - k - 1 <= 100).
Proof.
  revert i slash. induction s as [|c s IH]; intros i slash; simpl; [auto|]. intros H.
  apply IH in H as [H|(a & b & -> & -> & H1 & H2)].
  - destruct ((c =? 47) && (i <=? 155) && (length - i - 1 <=? 100)) eqn:E; [|auto]. injection H as <-. right.
    apply andb_true_iff in E as [[H1 H2]%andb_true_iff H3]. apply Z.eqb_eq in H1 as ->. exists [], s. unfold zlen; simpl. split_and!; [done|lia..].
  - right. exists (c :: a), b. rewrite zlen_cons. split_and!; [done|lia..].
Qed.

Lemma sub_splice_pad n off p m :
  0 <= off -> zlen p <= m -> off + m <= n -> sub (splice (zrep n 0) off p) off m = p ++ zrep (m - zlen p) 0.
Proof.
  intros H1 H2 H3. pose proof (zlen_nonneg p).
  assert (zlen (splice (zrep n 0) off p) = n) as Hl by (apply zlen_splice_n; rewrite ?zlen_zrep; lia).
  apply buf_ext; rewrite zlen_sub by (rewrite ?Hl; lia); [rewrite zlen_app, zlen_zrep by lia; lia|].
  intros i Hi. rewrite bget_sub by lia. destruct (decide (i < zlen p)).
  - rewrite bget_splice_in by (rewrite ?zlen_zrep; lia). rewrite bget_app_l by lia. f_equal; lia.
  - rewrite bget_splice_out by (rewrite ?zlen_zrep; lia). rewrite bget_app_r by lia. by rewrite !bget_zrep0.
Qed.
Lemma sub_zrep n off m : 0 <= off -> 0 <= m -> off + m <= n -> sub (zrep n (0 : Z)) off m = zrep m 0.
Proof.
  intros. apply buf_ext; rewrite zlen_sub by (rewrite ?zlen_zrep; lia); [by rewrite zlen_zrep by lia|].
  intros i Hi. rewrite bget_sub by lia. by rewrite !bget_zrep0.
Qed.

(** The path in the name and prefix fields. *)
Definition path_of (h : list Z) : list Z :=
  if negb (bget h 345 =? 0) then take 511 (cstr (sub h 345 155) ++ [47] ++ cstr (sub h 0 100)) else cstr (sub h 0 100).
Definition path_ok (path : list Z) : Prop :=
  Forall (fun c => 0 < c < 256) path /\ is_Some (name_fields (zrep TAR_BLOCK_SIZE 0) path).

Lemma path_ok_0 path : Forall (fun c => 0 < c < 256) path -> 0 ∉ path.
Proof. intros H Hin. rewrite Forall_forall in H. specialize (H _ Hin). lia. Qed.

Lemma name_fields_inv path b :
  name_fields (zrep TAR_BLOCK_SIZE 0) path = Some b ->
  path <> [] /\ (zlen path <= 100 /\ b = splice (zrep TAR_BLOCK_SIZE 0) 0 path \/
  exists x y, path = x ++ 47 :: y /\ x <> [] /\ zlen x <= 155 /\ zlen y <= 100 /\ b = splice (splice (zrep TAR_BLOCK_SIZE 0) 0 y) 345 x).
Proof.
  unfold name_fields. destruct (bool_decide_reflect (path = [])); [done|]. intros H. split; [done|]. cbn [orb] in H.
  destruct (_ || _); [done|]. destruct (_ || _); [done|]. destruct (Z.leb_spec (zlen path) 100); [left; by injection H as <-|].
  right. destruct (split_slash path 0 (zlen path) None) as [k|] eqn:Es; [|done].
  apply split_slash_inv in Es as [|(x & y & E & -> & H1 & H2)]; [done|]. rewrite Z.add_0_l in *.
  destruct (_ || _) eqn:Eb; [done|]. apply orb_false_iff in Eb as [Eb _]. apply Z.eqb_neq in Eb. injection H as <-.
  exists x, y. assert (zlen path = zlen x + 1 + zlen y) by (rewrite E, zlen_app, zlen_cons; lia). split_and!; [done|by intros ->|lia|lia|].
  assert (take (Z.to_nat (zlen x)) path = x) as -> by (rewrite E; unfold zlen; rewrite Nat2Z.id; apply take_app_length).
  assert (drop (Z.to_nat (zlen x + 1)) path = y) as ->; [|done].
  rewrite E. replace (Z.to_nat (zlen x + 1)) with (length x + 1)%nat by (unfold zlen; lia). by rewrite drop_app_add'.
Qed.

Lemma name_fields_parse path b :
  Forall (fun c => 0 < c < 256) path -> name_fields (zrep TAR_BLOCK_SIZE 0) path = Some b ->
  zlen b = 512 /\ Forall is_byte b /\ path_of b = path /\ sub b 157 100 = zrep 100 0.
Proof.
  intros Hp (Hne & [[Hl ->]|(x & y & -> & Hx & Hlx & Hly & ->)])%name_fields_inv; unfold TAR_BLOCK_SIZE in *.
  - pose proof (zlen_nonneg path). assert (Forall is_byte path) by (eapply Forall_impl; [exact Hp|]; unfold is_byte; lia).
    assert (zlen (zrep 512 (0:Z)) = 512) as Hz by done. split_and!.
    + apply zlen_splice_n; lia.
    + apply splice_bytes; [apply zrep0_bytes|done].
    + unfold path_of. rewrite bget_splice_skip by lia. rewrite bget_zrep0, sub_splice_pad by lia. by apply cstr_pad, path_ok_0.
    + rewrite sub_splice_out by lia. by apply sub_zrep.
  - pose proof (zlen_nonneg x). pose proof (zlen_nonneg y). apply Forall_app in Hp as [Hpx [_ Hpy]%Forall_cons].
    assert (zlen (zrep 512 (0:Z)) = 512) as Hz by done.
    assert (zlen (splice (zrep 512 (0:Z)) 0 y) = 512) as Hs by (apply zlen_splice_n; lia).
    assert (forall l, Forall (fun c => 0 < c < 256) l -> Forall is_byte l) as Hb by (intros l Hl; eapply Forall_impl; [exact Hl|]; unfold is_byte; lia).
    split_and!.
    + apply zlen_splice_n; lia.
    + apply splice_bytes; [apply splice_bytes; [apply zrep0_bytes|]|]; auto.
    + unfold path_of. destruct x as [|c x]; [done|]. apply Forall_cons in Hpx as [Hc Hpx'].
      assert (1 <= zlen (c :: x)) by (rewrite zlen_cons; pose proof (zlen_nonneg x); lia).
      rewrite bget_splice_in by lia. change (bget (c :: x) (345 - 345)) with c.
      rewrite (proj2 (Z.eqb_neq c 0)) by lia. cbn [negb]. rewrite (sub_splice_out _ (c :: x) 345 0) by lia.
      assert (sub (splice (splice (zrep 512 0) 0 y) 345 (c :: x)) 345 155 = (c :: x) ++ zrep (155 - zlen (c :: x)) 0) as ->.
      { rewrite <- (sub_splice_pad 512 345) by lia.
        apply buf_ext; rewrite !zlen_sub by (rewrite ?(zlen_splice_n _ _ _ 512); lia); [done|]. intros i Hi. rewrite !bget_sub by lia.
        destruct (decide (i < zlen (c :: x))).
        - rewrite !bget_splice_in by lia. done.
        - rewrite !(bget_splice_out _ _ (c :: x)) by lia. rewrite bget_splice_out by lia. done. }
      rewrite (sub_splice_pad 512 0 y 100) by lia. rewrite !cstr_pad by (apply path_ok_0; auto). apply take_ge. rewrite !length_app. unfold zlen in *. simpl in *. lia.
    + rewrite !sub_splice_out by lia. by apply sub_zrep.
Qed.

Lemma checksum_bound l s : Forall is_byte l -> 0 <= s ->
  0 <= foldl (fun s b => u32 (s + b)) s l <= s + 255 * zlen l.
Proof.
  revert s. induction l as [|b l IH]; intros s Hl Hs; [unfold zlen; simpl; lia|]. apply Forall_cons in Hl as [Hb Hl].
  unfold is_byte in Hb. rewrite zlen_cons. cbn [foldl]. pose proof (u32_range (s + b)).
  assert (u32 (s + b) <= s + b) by (unfold u32; apply Z.mod_le; lia). specialize (IH (u32 (s + b)) Hl ltac:(lia)). lia.
Qed.
Lemma zero_bget h i : zero h = true -> bget h i = 0.
Proof.
  unfold zero. rewrite forallb_forall. intros H. unfold bget. destruct (nth_in_or_default (Z.to_nat i) h 0) as [Hin| ->]; [|done].
  apply H in Hin. by apply Z.eqb_eq.
Qed.
Lemma put_oct_ok block off w v f : oct w v = Some f -> put_oct block off w v = Some (splice block off f).
Proof. unfold put_oct. by intros ->. Qed.
(** The entry a header stands for. *)
Definition entry_of (path : list Z) (size mode type off : Z) : tar_entry := TarEntry path [] size (Z.land mode 4095) type off.

Ltac tar_len := repeat (apply zlen_splice_n; [|lia|lia]); assumption.
Ltac tar_side := match goal with |- _ <= zlen ?b => replace (zlen b) with 512 by (symmetry; tar_len); lia | |- _ => lia end.
Ltac tar_field :=
  repeat first [ rewrite sub_splice_in by tar_side | rewrite sub_splice_out by tar_side
               | rewrite bget_splice_hit by tar_side | rewrite bget_splice_skip by tar_side ]; try done.

Lemma header_block_parse path size mode type :
  path_ok path -> 0 <= size < 8 ^ 11 -> 0 < type < 256 ->
  exists h, header_block path size mode type = Some h /\ zlen h = 512 /\ Forall is_byte h /\ zero h = false /\
    forall off, parse_entry h off = entry_of path size mode type off.
Proof.
  intros [Hp [b0 H0]] Hs Ht. destruct (name_fields_parse _ _ Hp H0) as (Hl & Hb & Hpath & Hlink).
  assert (0 <= Z.land mode 4095 < 8 ^ 4) as Hm by (change 4095 with (Z.ones 12); rewrite Z.land_ones by lia; apply Z.mod_pos_bound; lia).
  destruct (oct_octal 8 (Z.land mode 4095)) as (f1 & E1 & L1 & B1 & V1); [lia..|].
  destruct (oct_octal 8 0) as (f2 & E2 & L2 & B2 & V2); [lia..|].
  destruct (oct_octal 12 size) as (f3 & E3 & L3 & B3 & V3); [lia..|].
  destruct (oct_octal 12 0) as (f4 & E4 & L4 & B4 & V4); [lia..|].
  assert (zlen (zrep 8 32 : list Z) = 8) as L5 by done. assert (zlen [u8 type] = 1) as L6 by done.
  assert (zlen (str_bytes "ustar") = 5) as L7 by done. assert (zlen [0] = 1) as L8 by done. assert (zlen (str_bytes "00") = 2) as L9 by done.
  assert (zlen [32] = 1) as L11 by done. assert (Forall is_byte (zrep 8 32)) as B5 by (apply Forall_replicate; unfold is_byte; lia).
  assert (Forall is_byte [u8 type]) as B6 by (repeat constructor; apply u8_range). assert (Forall is_byte [0]) as B8 by (repeat constructor; lia).
  assert (Forall is_byte [32]) as B11 by (repeat constructor; lia).
  unfold header_block. rewrite H0. cbn [mbind option_bind].
  rewrite (put_oct_ok _ 100 _ _ _ E1). cbn [mbind option_bind]. rewrite (put_oct_ok _ 108 _ _ _ E2). cbn [mbind option_bind].
  rewrite (put_oct_ok _ 116 _ _ _ E2). cbn [mbind option_bind]. rewrite (put_oct_ok _ 124 _ _ _ E3). cbn [mbind option_bind].
  rewrite (put_oct_ok _ 136 _ _ _ E4). cbn [mbind option_bind]. cbv zeta.
  match goal with |- context [checksum ?b] => set (blk := b) end.
  assert (zlen blk = 512) as Hblk by (unfold blk; repeat (apply zlen_splice_n; [|lia|lia]); done).
  assert (Forall is_byte blk) as Bblk by (unfold blk; repeat (apply splice_bytes; [|by auto using str_bytes_is_byte]); done).
  destruct (oct_octal 7 (checksum blk)) as (f5 & E5 & L10 & B10 & V5); [lia|unfold checksum; pose proof (checksum_bound blk 0 Bblk ltac:(lia)); lia|].
  rewrite (put_oct_ok _ 148 _ _ _ E5). cbn [mbind option_bind]. eexists. split; [done|].
  set (h := splice (splice blk 148 f5) 155 [32]). assert (zlen h = 512) as Hh by (unfold h; repeat (apply zlen_splice_n; [|lia|lia]); done).
  split_and!; [done| | |].
  - unfold h. repeat (apply splice_bytes; [|by auto]). done.
  - destruct (zero h) eqn:Ez; [|done]. exfalso. pose proof (zero_bget h 257 Ez) as E. unfold h in E.
    rewrite bget_splice_skip, bget_splice_skip in E by (rewrite ?(zlen_splice_n _ _ _ 512); lia). unfold blk in E.
    rewrite bget_splice_skip, bget_splice_skip, bget_splice_in in E by tar_side. by vm_compute in E.
  - intros off. unfold parse_entry, entry_of. fold (path_of h).
    assert (path_of h = path) as ->.
    { rewrite <- Hpath. unfold path_of. assert (sub h 0 100 = sub b0 0 100) as -> by (unfold h, blk; tar_field).
      assert (sub h 345 155 = sub b0 345 155) as -> by (unfold h, blk; tar_field). assert (bget h 345 = bget b0 345) as -> by (unfold h, blk; tar_field). done. }
    assert (sub h 157 100 = zrep 100 0) as -> by (unfold h, blk; tar_field).
    assert (sub h 124 12 = f3) as -> by (unfold h, blk; tar_field). assert (sub h 100 8 = f1) as -> by (unfold h, blk; tar_field).
    assert (bget h 156 = type) as -> by (unfold h, blk; tar_field; by apply u8_id; lia).
    rewrite V1, V3, u32_id by lia. by rewrite (proj2 (Z.eqb_neq type 0)) by lia.
Qed.

(** ** Appending members *)

Lemma header_wrote path size mode type o :
  path_ok path -> 0 <= size < 8 ^ 11 -> 0 < type < 256 -> at_end o -> sm_pos o + 512 <= hf_cap (sm_file o) ->
  exists h o', header path size mode type o = (Done tt, o') /\ wrote o h o' /\ zlen h = 512 /\ zero h = false /\
    forall off, parse_entry h off = entry_of path size mode type off.
Proof.
  intros Hp Hs Ht He Hc. destruct (header_block_parse path size mode type) as (h & E & Hl & _ & Hz & Hh); [done..|].
  destruct (fwrite_wrote (-1) o h) as (o' & E' & W); [done|lia|]. exists h, o'. split_and!; auto.
  unfold header. rewrite E. done.
Qed.
Definition padding (size : Z) : Z := (512 - size mod 512) mod 512.
Lemma pad_wrote n o i : 0 <= n -> at_end o -> sm_pos o + n <= hf_cap (sm_file o) ->
  exists o', (if negb (n =? 0) then on_out (fwrite (-1) (zrep n 0)) else ret tt) (Streams o i) = (Done tt, Streams o' i) /\ wrote o (zrep n 0) o'.
Proof.
  intros Hn He Hc. destruct (Z.eqb_spec n 0) as [->|]; cbn [negb].
  - exists o. split; [done|]. by apply wrote_nil.
  - destruct (fwrite_wrote (-1) o (zrep n 0)) as (o' & E & W); [done|rewrite zlen_zrep by lia; lia|].
    exists o'. split; [|done]. exact (on_out_done _ (Streams o i) _ _ E).
Qed.
Lemma write_file_wrote path mode data o i :
  path_ok path -> zlen data < 8 ^ 11 -> at_end o ->
  sm_pos o + 512 + zlen data + padding (zlen data) <= hf_cap (sm_file o) -> holds_at (sm_file i) (sm_pos i) data ->
  exists h o' i', gu_tar_write_file path (zlen data) mode (Streams o i) = (Done tt, Streams o' i') /\
    wrote o (h ++ data ++ zrep (padding (zlen data)) 0) o' /\ zlen h = 512 /\ zero h = false /\
    forall off, parse_entry h off = entry_of path (zlen data) mode 48 off.
Proof.
  intros Hp Hs He Hc Hi. pose proof (zlen_nonneg data). assert (0 <= padding (zlen data)) as Hpad by (apply Z.mod_pos_bound; lia).
  destruct (header_wrote path (zlen data) mode 48 o) as (h & o1 & E1 & W1 & Hl & Hz & Hh); [done|lia|lia|done|lia|].
  pose proof (wrote_at_end _ _ _ (proj1 He) W1) as He1. pose proof (wr_pos _ _ _ W1) as P1. pose proof (wr_cap _ _ _ W1) as C1.
  destruct (copy_loop_wrote (copy_fuel (zlen data)) data o1 i) as (o2 & i2 & E2 & W2); [|done|lia|done|].
  { left. unfold copy_fuel, COPY_BUFFER. rewrite Z2Nat.id by (pose proof (Z.div_pos (zlen data) 32768); lia). dlia. }
  pose proof (wrote_at_end _ _ _ (proj1 He1) W2) as He2. pose proof (wr_pos _ _ _ W2). pose proof (wr_cap _ _ _ W2).
  destruct (pad_wrote (padding (zlen data)) o2 i2) as (o3 & E3 & W3); [done|done|lia|].
  exists h, o3, i2. split_and!; auto; [|eapply wrote_app; [apply He|done|]; eapply wrote_app; [apply He1|done..]].
  unfold gu_tar_write_file. rewrite (bind_done _ _ _ _ _ (on_out_done _ (Streams o i) _ _ E1)). cbn [ss_in].
  rewrite (bind_done _ _ _ _ _ E2). exact E3.
Qed.

Lemma write_dir_wrote path mode o :
  path_ok (dir_name path) -> zlen path < 255 -> path <> [] -> at_end o -> sm_pos o + 512 <= hf_cap (sm_file o) ->
  exists h o', gu_tar_write_dir path mode o = (Done tt, o') /\ wrote o h o' /\ zlen h = 512 /\ zero h = false /\
    forall off, parse_entry h off = entry_of (dir_name path) 0 mode 53 off.
Proof.
  intros Hp Hl Hne He Hc. destruct (header_wrote (dir_name path) 0 mode 53 o) as (h & o' & E & H); [done|lia|lia|done|done|].
  exists h, o'. split; [|done]. unfold gu_tar_write_dir. rewrite require_true; [done|].
  destruct path as [|c path]; [done|]. rewrite zlen_cons in *. pose proof (zlen_nonneg path). lia.
Qed.

(** ** Archives *)

(** A file, read from the stream [src], or a directory. *)
Inductive member : Type :=
| MFile (path : list Z) (mode : Z) (data : list Z) (src : stream)
| MDir (path : list Z) (mode : Z).
Definition data_of (m : member) : list Z := match m with MFile _ _ d _ => d | MDir _ _ => [] end.
Definition entry_at (m : member) (off : Z) : tar_entry :=
  match m with
  | MFile path mode d _ => entry_of path (zlen d) mode 48 off
  | MDir path mode => entry_of (dir_name path) 0 mode 53 off
  end.
Definition member_len (m : member) : Z := 512 + (zlen (data_of m) + padding (zlen (data_of m))).
Definition member_ok (m : member) : Prop :=
  match m with
  | MFile path _ d src => path_ok path /\ zlen d < 8 ^ 11 /\ holds_at (sm_file src) (sm_pos src) d
  | MDir path _ => path_ok (dir_name path) /\ path <> [] /\ zlen path < 255
  end.

(** Adding a member to the archive [o]. *)
Definition add_member (m : member) : comp stream unit :=
  match m with
  | MFile path mode d src => fun o => let '(r, ss) := gu_tar_write_file path (zlen d) mode (Streams o src) in (r, ss_out ss)
  | MDir path mode => gu_tar_write_dir path mode
  end.
Fixpoint write_archive (ms : list member) : comp stream unit :=
  match ms with [] => gu_tar_write_end | m :: ms => add_member m ;;; write_archive ms end.

(** The bytes [b] a member is stored as. *)
Definition member_bytes (m : member) (b : list Z) : Prop :=
  exists h, b = h ++ data_of m ++ zrep (padding (zlen (data_of m))) 0 /\ zlen h = 512 /\ zero h = false /\
    forall off, parse_entry h off = entry_at m off.
Inductive archive_bytes : list member -> list Z -> Prop :=
| archive_end : archive_bytes [] (zrep 1024 0)
| archive_member m b ms bs : member_bytes m b -> archive_bytes ms bs -> archive_bytes (m :: ms) (b ++ bs).
Definition archive_len (ms : list member) : Z := foldr (fun m n => member_len m + n) 1024 ms.

Lemma padding_range n : 0 <= padding n < 512.
Proof. apply Z.mod_pos_bound. lia. Qed.
Lemma zlen_member_bytes m b : member_bytes m b -> zlen b = member_len m.
Proof.
  intros (h & -> & Hl & _). unfold member_len. pose proof (padding_range (zlen (data_of m))). rewrite !zlen_app, zlen_zrep by lia. lia.
Qed.
Lemma zlen_archive_bytes ms b : archive_bytes ms b -> zlen b = archive_len ms.
Proof. induction 1 as [|m b ms bs Hm _ IH]; simpl; [done|]. rewrite zlen_app, IH. by rewrite (zlen_member_bytes _ _ Hm). Qed.
Lemma archive_len_pos ms : 1024 <= archive_len ms.
Proof.
  induction ms as [|m ms IH]; simpl; [lia|]. unfold member_len. pose proof (padding_range (zlen (data_of m))).
  pose proof (zlen_nonneg (data_of m)). lia.
Qed.

Lemma add_member_wrote m o :
  member_ok m -> at_end o -> sm_pos o + member_len m <= hf_cap (sm_file o) ->
  exists b o', add_member m o = (Done tt, o') /\ wrote o b o' /\ member_bytes m b.
Proof.
  intros Hm He Hc. unfold member_len in Hc. pose proof (padding_range (zlen (data_of m))). pose proof (zlen_nonneg (data_of m)).
  destruct m as [path mode d src|path mode]; cbn [data_of] in *.
  - destruct Hm as (Hp & Hs & Hi). destruct (write_file_wrote path mode d o src) as (h & o' & i' & E & W & Hl & Hz & Hh); [done|done|done|lia|done|].
    exists (h ++ d ++ zrep (padding (zlen d)) 0), o'. split_and!; [|done|by exists h]. unfold add_member. by rewrite E.
  - destruct Hm as (Hp & Hne & Hs). destruct (write_dir_wrote path mode o) as (h & o' & E & W & Hl & Hz & Hh); [done|done|done|done|lia|].
    exists h, o'. split_and!; [done|done|]. exists h. split_and!; auto. simpl. by rewrite app_nil_r.
Qed.
Lemma write_archive_wrote ms o :
  Forall member_ok ms -> at_end o -> sm_pos o + archive_len ms <= hf_cap (sm_file o) ->
  exists b o', write_archive ms o = (Done tt, o') /\ wrote o b o' /\ archive_bytes ms b.
Proof.
  intros Hms. revert o. induction Hms as [|m ms Hm _ IH]; intros o He Hc; simpl in Hc |- *.
  - destruct (fwrite_wrote (-1) o (zrep (TAR_BLOCK_SIZE * 2) 0)) as (o' & E & W); [done|done|].
    exists (zrep 1024 0), o'. split_and!; [done|done|constructor].
  - pose proof (archive_len_pos ms). destruct (add_member_wrote m o Hm He) as (b & o1 & E & W & Hb); [lia|].
    pose proof (wr_pos _ _ _ W). pose proof (wr_cap _ _ _ W). rewrite (zlen_member_bytes _ _ Hb) in *.
    destruct (IH o1) as (bs & o2 & E2 & W2 & Hbs); [eapply wrote_at_end; [apply He|done]|lia|].
    exists (b ++ bs), o2. split_and!; [by rewrite (bind_done _ _ _ _ _ E)|eapply wrote_app; [apply He|done..]|by constructor].
Qed.

(** ** Walking an archive *)

Lemma pad_size_spec n : 0 <= n < 2 ^ 64 - 511 -> pad_size n = (n + 511) / 512 mod 2 ^ 23 * 512.
Proof.
  intros Hn. unfold pad_size. rewrite u64_id by lia. change (u32 (Z.lnot 511)) with (Z.shiftl (Z.ones 23) 9).
  change 512 with (2 ^ 9). rewrite <- Z.shiftr_div_pow2, <- Z.land_ones, <- Z.shiftl_mul_pow2 by lia.
  apply Z.bits_inj'. intros k Hk. rewrite Z.land_spec, !Z.shiftl_spec by lia.
  destruct (Z.ltb_spec k 9); [rewrite !(Z.testbit_neg_r _ (k - 9)) by lia; apply andb_false_r|].
  rewrite Z.land_spec, Z.shiftr_spec by lia. by replace (k - 9 + 9) with k by lia.
Qed.
Lemma pad_size_small n : 0 <= n -> n + 511 < 2 ^ 32 -> pad_size n = n + padding n.
Proof.
  intros H1 H2. rewrite pad_size_spec by lia. rewrite Z.mod_small by (split; [apply Z.div_pos; lia|apply Z.div_lt_upper_bound; lia]).
  unfold padding. dlia.
Qed.

Section walked.
Context {C : Type} (cb : tar_entry -> comp (stream * C) unit) (f : hostfile) (off len : Z).
Context (Hoff : 0 <= off) (Hlen : off + len <= LONG_MAX) (Hfile : off + len <= hf_len f).

Lemma walk_entry fuel pos h c e c' p' :
  0 <= pos -> holds_at f (off + pos) h -> zlen h = 512 -> zero h = false -> parse_entry h (off + pos + 512) = e ->
  0 <= te_size e -> te_size e <= len - (pos + 512) -> pad_size (te_size e) <= len - (pos + 512) -> 0 <= pad_size (te_size e) -> pos + 512 <= len ->
  cb e (Stream f (off + pos + 512), c) = (Done tt, (Stream f p', c')) ->
  walk_loop cb (S fuel) off len pos (Stream f (off + pos), c) =
  walk_loop cb fuel off len (pos + 512 + pad_size (te_size e)) (Stream f (off + (pos + 512 + pad_size (te_size e))), c').
Proof using Hoff Hlen Hfile.
  intros Hp Hh Hl Hz He Hs1 Hs2 Hpad Hpad0 Hlt Hcb. cbn [walk_loop]. unfold LONG_MAX in Hlen.
  rewrite u64_id by lia. rewrite (proj2 (Z.leb_le _ _)) by lia.
  assert (on_fp (C := C) (fread_all (-2) 512) (Stream f (off + pos), c) = (Done h, (Stream f (off + pos + 512), c))) as E.
  { unfold on_fp, zoom. cbn [fst snd]. rewrite (fread_all_ok (-2) (Stream f (off + pos)) 512 h); done. }
  rewrite (bind_done _ _ _ _ _ E), Hz. cbv zeta. rewrite (u64_id (off + (pos + 512))) by lia.
  replace (off + (pos + 512)) with (off + pos + 512) by lia. rewrite He.
  rewrite require_true by btests. rewrite (bind_done (fail_as (-4) (cb e)) _ _ tt (Stream f p', c')) by (unfold fail_as; by rewrite Hcb).
  rewrite require_true by btests. rewrite (u64_id (off + _)) by lia.
  rewrite (bind_done _ _ _ tt (Stream f (off + (pos + 512 + pad_size (te_size e))), c')); [done|].
  unfold fail_as, on_fp, zoom, fseek_set.
  by rewrite (proj2 (Z.leb_le (off + (pos + 512 + pad_size (te_size e))) LONG_MAX)) by (unfold LONG_MAX; lia).
Qed.
Lemma walk_zero fuel pos c :
  0 <= pos -> pos + 512 <= len -> holds_at f (off + pos) (zrep 512 0) ->
  walk_loop cb (S fuel) off len pos (Stream f (off + pos), c) = (Done tt, (Stream f (off + pos + 512), c)).
Proof using Hoff Hlen.
  intros Hp Hl Hh. cbn [walk_loop]. unfold LONG_MAX in Hlen. rewrite u64_id by lia. rewrite (proj2 (Z.leb_le _ _)) by lia.
  assert (on_fp (C := C) (fread_all (-2) 512) (Stream f (off + pos), c) = (Done (zrep 512 0), (Stream f (off + pos + 512), c))) as E.
  { unfold on_fp, zoom. cbn [fst snd]. rewrite (fread_all_ok (-2) (Stream f (off + pos)) 512 (zrep 512 0)); done. }
  by rewrite (bind_done _ _ _ _ _ E).
Qed.
End walked.

(** A callback that reads every entry's data. *)
Definition collect (e : tar_entry) : comp (stream * list (tar_entry * list Z)) unit :=
  on_fp (fseek_set (te_data_offset e)) ;;;
  let* d := on_fp (fread_all (-1) (te_size e)) in
  modify (fun sc => (sc.1, sc.2 ++ [(e, d)])).
(** A callback that only lists the entries. *)
Definition listing (e : tar_entry) : comp (stream * list tar_entry) unit := modify (fun sc => (sc.1, sc.2 ++ [e])).

(** What [collect] gathers from an archive that starts at [off]. *)
Fixpoint expected (ms : list member) (off : Z) : list (tar_entry * list Z) :=
  match ms with [] => [] | m :: ms => (entry_at m (off + 512), data_of m) :: expected ms (off + member_len m) end.

Lemma entry_at_size m off : te_size (entry_at m off) = zlen (data_of m).
Proof. by destruct m. Qed.
Lemma entry_at_offset m off : te_data_offset (entry_at m off) = off.
Proof. by destruct m. Qed.
Lemma collect_ok e d f p c :
  te_data_offset e <= LONG_MAX -> holds_at f (te_data_offset e) d -> zlen d = te_size e ->
  collect e (Stream f p, c) = (Done tt, (Stream f (te_data_offset e + te_size e), c ++ [(e, d)])).
Proof.
  intros Hl Hh Hd. unfold collect. rewrite (bind_done _ _ _ tt (Stream f (te_data_offset e), c)).
  2:{ unfold on_fp, zoom, fseek_set. by rewrite (proj2 (Z.leb_le _ _)) by lia. }
  rewrite (bind_done _ _ _ d (Stream f (te_data_offset e + te_size e), c)); [done|].
  unfold on_fp, zoom. cbn [fst snd]. by rewrite (fread_all_ok (-1) (Stream f (te_data_offset e)) (te_size e) d).
Qed.

Definition small (m : member) : Prop := zlen (data_of m) + 511 < 2 ^ 32.
Lemma walk_archive f off len fuel pos ms b c :
  0 <= off -> off + len <= LONG_MAX -> off + len <= hf_len f -> 0 <= pos -> pos + zlen b <= len ->
  archive_bytes ms b -> Forall small ms -> holds_at f (off + pos) b -> (length ms < fuel)%nat ->
  exists s, walk_loop collect fuel off len pos (Stream f (off + pos), c) = (Done tt, (s, c ++ expected ms (off + pos))).
Proof.
  intros H1 H2 H3 H4 H5 Hb. revert fuel pos c H4 H5. induction Hb as [|m b ms bs (h & -> & Hl & Hz & Hh) Hbs IH];
    intros fuel pos c Hp Hlen Hs Hf Hfuel; (destruct fuel as [|fuel]; [simpl in Hfuel; lia|]).
  - change (zrep 1024 0) with (zrep 512 0 ++ zrep 512 0) in *. rewrite zlen_app in Hlen. change (zlen (zrep 512 0)) with 512 in Hlen.
    apply holds_at_app in Hf as [Hf _]. rewrite walk_zero by (done || lia). eexists. cbn [expected]. by rewrite app_nil_r.
  - apply Forall_cons in Hs as [Hsm Hs]. unfold small in Hsm. pose proof (zlen_nonneg bs). pose proof (zlen_nonneg (data_of m)).
    pose proof (padding_range (zlen (data_of m))). rewrite !zlen_app, zlen_zrep in Hlen by lia.
    apply holds_at_app in Hf as [Hfm Hfs]. apply holds_at_app in Hfm as [Hfh Hfd]. apply holds_at_app in Hfd as [Hfd _].
    rewrite !zlen_app, zlen_zrep in Hfs by lia. rewrite Hl in *.
    assert (pad_size (zlen (data_of m)) = zlen (data_of m) + padding (zlen (data_of m))) as Hpad by (apply pad_size_small; lia).
    erewrite walk_entry; [|done|done|done|lia|exact Hfh|done|done|by apply Hh|rewrite entry_at_size; lia..|lia|
      apply (collect_ok _ (data_of m)); rewrite ?entry_at_offset, ?entry_at_size; [lia|done|done]].
    rewrite entry_at_size, Hpad. destruct (IH fuel (pos + 512 + (zlen (data_of m) + padding (zlen (data_of m)))) (c ++ [(entry_at m (off + pos + 512), data_of m)])) as [s E].
    + lia.
    + lia.
    + done.
    + by replace (off + (pos + 512 + (zlen (data_of m) + padding (zlen (data_of m))))) with (off + pos + (512 + (zlen (data_of m) + padding (zlen (data_of m))))) by lia.
    + simpl in Hfuel. lia.
    + exists s. rewrite E. cbn [expected]. rewrite <- app_assoc. unfold member_len. do 4 f_equal. f_equal. lia.
Qed.

(** The empty archive being written. *)
Definition new_archive (cap : Z) : stream := Stream (hf_empty cap) 0.
Lemma new_archive_at_end cap : at_end (new_archive cap).
Proof. by split. Qed.
Lemma archive_len_count ms : 512 * Z.of_nat (length ms) + 1024 <= archive_len ms.
Proof.
  induction ms as [|m ms IH]; simpl; [lia|]. unfold member_len. pose proof (padding_range (zlen (data_of m))).
  pose proof (zlen_nonneg (data_of m)). lia.
Qed.
Lemma walk_stream_start {C} (cb : tar_entry -> comp (stream * C) unit) f p c :
  gu_tar_walk_stream cb (Stream f p, c) = walk_loop cb (walk_fuel (hf_len f)) 0 (hf_len f) 0 (Stream f 0, c).
Proof. reflexivity. Qed.

(** C35: An archive written member by member and read back by
    [gu_tar_walk_stream] yields, in order, an entry for every member with its
    path (split over two header fields when long), size, permission bits and
    type, and the member's bytes at the entry's data offset; provided every
    file is smaller than 4 GiB less 511 bytes. *)
Theorem tar_roundtrip (cap : Z) (ms : list member) (p : Z) :
  Forall member_ok ms -> Forall small ms -> archive_len ms <= cap -> cap <= LONG_MAX ->
  exists o s, write_archive ms (new_archive cap) = (Done tt, o) /\
    gu_tar_walk_stream collect (Stream (sm_file o) p, []) = (Done tt, (s, expected ms 0)).
Proof.
  intros Hok Hs Hl Hc. destruct (write_archive_wrote ms (new_archive cap) Hok (new_archive_at_end cap)) as (b & o & E & W & Hb); [done|].
  exists o. destruct W as [Hpos Hlen _ Hh _]. cbn [new_archive sm_pos] in Hpos, Hh. rewrite Z.add_0_l in Hpos. pose proof (zlen_archive_bytes _ _ Hb). pose proof (archive_len_count ms).
  destruct (walk_archive (sm_file o) 0 (hf_len (sm_file o)) (walk_fuel (hf_len (sm_file o))) 0 ms b []) as [s Es]; auto; try lia.
  - unfold walk_fuel. rewrite Hlen, Hpos. apply Nat2Z.inj_lt. rewrite Z2Nat.id by (pose proof (Z.div_pos (zlen b) 512); lia). dlia.
  - exists s. split; [done|]. rewrite walk_stream_start. exact Es.
Qed.

Definition ex_src (b : list Z) : stream := Stream (HostFile (zlen b) (zlen b) true (bget b)) 0.
Definition ex_long_path : list Z := zrep 120 97 ++ [47] ++ zrep 90 98.
Definition ex_members : list member :=
  [MDir (str_bytes "usr") 0x1ED; MFile ex_long_path 0x1A4 (str_bytes "guppy") (ex_src (str_bytes "guppy"));
   MFile (str_bytes "usr/empty") 0x9ED [] (ex_src [])].
Lemma tar_roundtrip_witness :
  (exists o s, write_archive ex_members (new_archive 10000) = (Done tt, o) /\
    gu_tar_walk_stream collect (Stream (sm_file o) 7, []) = (Done tt, (s, expected ex_members 0))) /\
  expected ex_members 0 =
    [(TarEntry (str_bytes "usr/") [] 0 0x1ED 53 512, []);
     (TarEntry ex_long_path [] 5 0x1A4 48 1024, str_bytes "guppy");
     (TarEntry (str_bytes "usr/empty") [] 0 0x9ED 48 2048, [])].
Proof.
  split; [|by vm_compute]. apply (tar_roundtrip 10000 ex_members 7).
  - repeat constructor; try (decide_now || (eexists; vm_compute; reflexivity)); try (split; vm_compute; congruence).
  - repeat constructor; vm_compute; reflexivity.
  - by vm_compute.
  - by vm_compute.
Defined.

Lemma archive_bytes_cons m ms b : archive_bytes (m :: ms) b -> exists b1 bs, b = b1 ++ bs /\ member_bytes m b1 /\ archive_bytes ms bs.
Proof. intros H. inversion H; subst. eauto. Qed.

(** C36: The writer stores files up to 8 GiB, but the walk rounds a size with a
    32-bit mask: after a file of 4 GiB or more it resumes inside the file's
    data.  When the 512 bytes there are zero it takes them for the end mark and
    reports success, having listed nothing of what follows. *)
Theorem tar_large_file_hides_rest (cap : Z) (path : list Z) (mode : Z) (d : list Z) (src : stream) (ms : list member) :
  member_ok (MFile path mode d src) -> Forall member_ok ms -> archive_len (MFile path mode d src :: ms) <= cap -> cap <= LONG_MAX ->
  2 ^ 32 <= zlen d -> sub d (pad_size (zlen d)) 512 = zrep 512 0 ->
  exists o s, write_archive (MFile path mode d src :: ms) (new_archive cap) = (Done tt, o) /\
    gu_tar_walk_stream listing (Stream (sm_file o) 0, []) = (Done tt, (s, [entry_at (MFile path mode d src) 512])).
Proof.
  intros Hm Hms Hl Hc Hd Hz. set (m := MFile path mode d src) in *.
  assert (zlen d < 2 ^ 33) as Hd2 by (change (2 ^ 33) with (8 ^ 11); apply Hm).
  assert (0 <= pad_size (zlen d) /\ pad_size (zlen d) + 512 <= zlen d) as Hpr.
  { rewrite pad_size_spec by lia. pose proof (Z.mod_pos_bound ((zlen d + 511) / 512) (2 ^ 23)). lia. }
  destruct (write_archive_wrote (m :: ms) (new_archive cap)) as (b & o & E & W & Hb); [by constructor|apply new_archive_at_end|done|].
  exists o. destruct W as [Hpos Hlen _ Hh _]. cbn [new_archive sm_pos] in Hpos, Hh. rewrite Z.add_0_l in Hpos. pose proof (zlen_archive_bytes _ _ Hb) as Hbl.
  rewrite walk_stream_start, Hlen, Hpos. destruct (archive_bytes_cons _ _ _ Hb) as (b1 & bs & -> & (h & -> & Hhl & Hhz & Hhp) & Hbs). clear Hb. cbn [m data_of] in *.
  pose proof (padding_range (zlen d)). pose proof (zlen_nonneg bs). rewrite !zlen_app, zlen_zrep in Hpos, Hbl |- * by lia.
  apply holds_at_app in Hh as [Hh1 _]. apply holds_at_app in Hh1 as [Hhh Hhd]. apply holds_at_app in Hhd as [Hhd _]. rewrite Hhl in *.
  unfold walk_fuel. set (len := 512 + (zlen d + padding (zlen d)) + zlen bs) in *.
  assert (exists n, Z.to_nat (len / 512 + 1) = S (S n)) as [n ->].
  { exists (Z.to_nat (len / 512 - 1)). assert (2 <= len / 512) by (apply Z.div_le_lower_bound; unfold len; lia). lia. }
  exists (Stream (sm_file o) (0 + (0 + 512 + pad_size (zlen d)) + 512)). split; [done|].
  assert (te_size (entry_at m 512) = zlen d) as Hsz by apply entry_at_size.
  change (Stream (sm_file o) 0) with (Stream (sm_file o) (0 + 0)).
  rewrite (walk_entry listing (sm_file o) 0 len ltac:(lia) ltac:(lia) ltac:(lia) (S n) 0 h [] (entry_at m 512) [entry_at m 512] (0 + 0 + 512));
    rewrite ?Hsz; try done; try (unfold len; lia).
  apply walk_zero; try (unfold len; lia).
  rewrite <- Hz. replace (0 + (0 + 512 + pad_size (zlen d))) with (0 + 512 + pad_size (zlen d)) by lia. apply holds_at_sub; try done; lia.
Qed.

Definition ex_sparse : stream := Stream (HostFile (2 ^ 32) (2 ^ 32) true (fun _ => 0)) 0.
Lemma tar_large_file_hides_rest_witness :
  exists o s, write_archive [MFile (str_bytes "image.raw") 0x1A4 (zrep (2 ^ 32) 0) ex_sparse; MDir (str_bytes "lost") 0x1ED] (new_archive (2 ^ 40)) = (Done tt, o) /\
    gu_tar_walk_stream listing (Stream (sm_file o) 0, []) = (Done tt, (s, [entry_at (MFile (str_bytes "image.raw") 0x1A4 (zrep (2 ^ 32) 0) ex_sparse) 512])).
Proof.
  assert (zlen (zrep (2 ^ 32) (0 : Z)) = 2 ^ 32) as Hl by (apply zlen_zrep; lia).
  apply (tar_large_file_hides_rest (2 ^ 40)).
  - split_and!; [split; [decide_now|eexists; vm_compute; reflexivity]|rewrite Hl; lia|]. apply holds_at_zrep; cbn; try lia.
    intros i. unfold hf_at. simpl. by case_match.
  - repeat constructor; try (decide_now || (eexists; vm_compute; reflexivity)); try (vm_compute; congruence).
  - cbn [archive_len foldr]. unfold member_len. cbn [data_of]. rewrite Hl. vm_compute. congruence.
  - by vm_compute.
  - lia.
  - rewrite Hl. apply sub_zrep; vm_compute; congruence.
Defined.
