(* ===== verification/Ar.v ===== *)
(** * Ar: Debian packages as [ar] archives ([src/ar_write.c], [src/deb.c])

    The writer of archive members, the scan of a package for its format
    version, control and data members, and the copy of a member. *)
From S2P Require Import Prelude Text HostFile Stream.
#[local] Open Scope Z_scope.

(** ** Writing *)

Definition AR_MAGIC : list Z := str_bytes "!<arch>" ++ [10].
Definition gu_ar_write_begin : comp stream unit := fwrite (-1) AR_MAGIC.

(** [dst] of [width] bytes. *)
Definition field (width : Z) (value : list Z) : option (list Z) :=
  if width <? zlen value then None else Some (splice (zrep width 32) 0 value).
(** [if (field(header + off, width, value) != 0) return -1;] *)
Definition put_field (h : list Z) (off width : Z) (value : list Z) : option (list Z) :=
  f ← field width value; Some (splice h off f).

Definition name_ok (name : list Z) : bool :=
  negb ((zlen name =? 0) || (15 <? zlen name) || bool_decide (47 ∈ name) || bool_decide (10 ∈ name) || bool_decide (32 ∈ name)).

(** The 60 bytes of the header. *)
Definition member_header (name : list Z) (size mode : Z) : option (list Z) :=
  if negb (name_ok name) then None else
  h ← put_field (zrep 60 32) 0 16 (name ++ [47]);
  h ← put_field h 16 12 (str_bytes "0");
  h ← put_field h 28 6 (str_bytes "0");
  h ← put_field h 34 6 (str_bytes "0");
  h ← put_field h 40 8 (print_oct (Z.land mode 4095));
  h ← put_field h 48 10 (print_dec size);
  let h := splice h 58 [96] in
  Some (splice h 59 [10]).

Definition gu_ar_write_member (name : list Z) (size mode : Z) : comp streams unit :=
  let* header := of_option (-1) (member_header name size mode) in
  on_out (fwrite (-1) header) ;;;
  copy_loop (copy_fuel size) size ;;;
  if negb (Z.land size 1 =? 0) then on_out (fwrite (-1) [10]) else ret tt.

(** ** Reading *)

Record deb_member : Type := DebMember { dm_name : list Z; dm_offset : Z; dm_size : Z }.
Record deb_package : Type := DebPackage { dp_version : list Z; dp_control : deb_member; dp_data : deb_member }.
Definition deb_empty : deb_package := DebPackage [] (DebMember [] 0 0) (DebMember [] 0 0).

Definition trim (s : list Z) : list Z :=
  let s := rskip_while isspace s in
  if bool_decide (last s = Some 47) then removelast s else s.
Definition dec (p : list Z) : option Z :=
  match trim (cstr p) with
  | [] => None
  | b => let '(x, e) := strtoull b in match e with [] => Some x | _ => None end
  end.

(** What the member [name] of [sz] bytes at [pos] is to the package. *)
Definition deb_take (pkg : deb_package) (name : list Z) (sz pos : Z) : comp stream deb_package :=
  if streq name (str_bytes "debian-binary") then
    let n := if sz <? 31 then sz else 31 in
    let* v := fread_all (-8) n in
    ret (DebPackage (trim (cstr v)) (dp_control pkg) (dp_data pkg))
  else if starts_with (str_bytes "control.tar") name then
    ret (DebPackage (dp_version pkg) (DebMember name pos sz) (dp_data pkg))
  else if starts_with (str_bytes "data.tar") name then
    ret (DebPackage (dp_version pkg) (dp_control pkg) (DebMember name pos sz))
  else ret pkg.

Fixpoint deb_loop (fuel : nat) (pkg : deb_package) : comp stream deb_package :=
  match fuel with
  | O => nofuel
  | S fuel =>
      let* h := fread 60 in
      if zlen h =? 0 then ret pkg else
      require (zlen h =? 60) (-4) ;;;
      require ((bget h 58 =? 96) && (bget h 59 =? 10)) (-5) ;;;
      let name := trim (cstr (sub h 0 16)) in
      let* sz := of_option (-6) (dec (sub h 48 10)) in
      let* pos := gets sm_pos in
      let* pkg := deb_take pkg name sz pos in
      let next := u64 (u64 (pos + sz) + Z.land sz 1) in
      fail_as (-9) (fseek_set next) ;;;
      deb_loop fuel pkg
  end.

Definition deb_open_fp (fuel : nat) : comp stream deb_package :=
  fail_as (-2) (fseek_set 0) ;;;
  let* magic := fread 8 in
  require (bool_decide (magic = AR_MAGIC)) (-3) ;;;
  let* pkg := deb_loop fuel deb_empty in
  require (negb (bool_decide (dp_version pkg = [])) && negb (bool_decide (dm_name (dp_control pkg) = [])) && negb (bool_decide (dm_name (dp_data pkg) = []))) (-10) ;;;
  ret pkg.

(** [f] is the file at the path, if it opens. *)
Definition deb_open (fuel : nat) (f : option hostfile) : outcome deb_package :=
  match f with
  | None => Fail (-2)
  | Some f => fst (deb_open_fp fuel (Stream f 0))
  end.

Definition deb_copy_member (m : deb_member) : comp streams unit :=
  on_in (fail_as (-1) (fseek_set (dm_offset m))) ;;;
  copy_loop (copy_fuel (dm_size m)) (dm_size m).

(** ** Fields *)

Lemma zlen_field w v f : field w v = Some f -> 0 <= w -> zlen f = w.
Proof.
  unfold field. btests. intros [= <-] Hw. apply zlen_splice_n; [by apply zlen_zrep|lia|lia].
Qed.
Lemma field_some w v : zlen v <= w -> field w v = Some (v ++ zrep (w - zlen v) 32).
Proof.
  intros H. pose proof (zlen_nonneg v). unfold field. rewrite (proj2 (Z.ltb_ge _ _)) by done. f_equal.
  unfold splice. simpl. f_equal. unfold zrep. rewrite drop_replicate. f_equal. unfold zlen. lia.
Qed.
Lemma last_not_in {A} (s : list A) c x : c ∉ s -> last s = Some x -> x <> c.
Proof. intros H Hl ->. apply H. by apply last_Some_elem_of in Hl. Qed.
Lemma trim_pad s n : (forall c, last s = Some c -> isspace c = false) -> last s <> Some 47 -> trim (s ++ zrep n 32) = s.
Proof.
  intros H1 H2. unfold trim. rewrite rskip_while_app by (done || apply Forall_replicate; done). by rewrite bool_decide_eq_false_2.
Qed.
Lemma trim_slash s n : trim ((s ++ [47]) ++ zrep n 32) = s.
Proof.
  unfold trim. rewrite rskip_while_app; [|by apply Forall_replicate|intros c; rewrite last_snoc; by intros [= <-]].
  rewrite bool_decide_eq_true_2 by (by rewrite last_snoc). by rewrite removelast_last.
Qed.
Lemma print_dec_last n c : 0 <= n -> last (print_dec n) = Some c -> isdigit c = true.
Proof. intros Hn Hl. destruct (print_dec_digits n Hn) as [Hd _]. rewrite Forall_forall in Hd. apply Hd. by apply last_Some_elem_of in Hl. Qed.
Lemma dec_print n k : 0 <= n < 2 ^ 64 -> dec (print_dec n ++ zrep k 32) = Some n.
Proof.
  intros Hn. destruct (print_dec_digits n ltac:(lia)) as [Hd Hne]. unfold dec. rewrite cstr_id.
  - rewrite trim_pad; [|intros c Hc; pose proof (print_dec_last n c ltac:(lia) Hc); unfold isdigit, isspace in *; lia|intros Hc; by pose proof (print_dec_last n 47 ltac:(lia) Hc)].
    destruct (print_dec n) eqn:E; [done|]. rewrite <- E. by rewrite strtoull_print_dec.
  - rewrite elem_of_app. intros [Hin|Hin]; [|apply elem_of_replicate in Hin; lia].
    rewrite Forall_forall in Hd. by apply Hd in Hin.
Qed.

(** ** Members *)

Lemma name_ok_spec name : name_ok name = true -> 0 < zlen name <= 15 /\ (47 ∉ name) /\ (10 ∉ name) /\ (32 ∉ name).
Proof.
  unfold name_ok. pose proof (zlen_nonneg name). rewrite negb_true_iff, !orb_false_iff, !bool_decide_eq_false. intros ((((H1 & H2) & H3) & H4) & H5).
  split_and!; auto; lia.
Qed.
Lemma print_oct_mode mode : zlen (print_oct (Z.land mode 4095)) <= 8.
Proof.
  change 4095 with (Z.ones 12). rewrite Z.land_ones by lia. pose proof (Z.mod_pos_bound mode (2 ^ 12)).
  etransitivity; [apply (zlen_print_oct _ 4)|]; lia.
Qed.
Lemma put_field_ok h off w v : zlen v <= w -> put_field h off w v = Some (splice h off (v ++ zrep (w - zlen v) 32)).
Proof. intros. unfold put_field. by rewrite field_some. Qed.

(** What the scan reads in a header the writer made. *)
Lemma member_header_parse name size mode :
  name_ok name = true -> 0 ∉ name -> 0 <= size < 10 ^ 10 ->
  exists h, member_header name size mode = Some h /\ zlen h = 60 /\ bget h 58 = 96 /\ bget h 59 = 10 /\
    trim (cstr (sub h 0 16)) = name /\ dec (sub h 48 10) = Some size.
Proof.
  intros Hn H0 Hs. destruct (name_ok_spec _ Hn) as (Hl & _). unfold member_header. rewrite Hn. cbn [negb].
  assert (zlen (name ++ [47]) = zlen name + 1) as Hn1 by (rewrite zlen_app; done).
  pose proof (zlen_print_dec size 10 ltac:(lia) ltac:(lia)) as Hd. pose proof (print_oct_mode mode) as Hm. pose proof (zlen_nonneg (print_dec size)). pose proof (zlen_nonneg (print_oct (Z.land mode 4095))).
  rewrite put_field_ok by lia. cbn [mbind option_bind]. rewrite put_field_ok by done. cbn [mbind option_bind].
  rewrite put_field_ok by done. cbn [mbind option_bind]. rewrite put_field_ok by done. cbn [mbind option_bind].
  rewrite put_field_ok by lia. cbn [mbind option_bind]. rewrite put_field_ok by lia. cbn [mbind option_bind]. cbv zeta.
  set (f1 := (name ++ [47]) ++ _). set (f2 := str_bytes "0" ++ zrep (12 - _) 32). set (f3 := str_bytes "0" ++ zrep (6 - _) 32).
  set (f5 := print_oct _ ++ _). set (f6 := print_dec size ++ _).
  assert (zlen f1 = 16) as L1 by (unfold f1; rewrite zlen_app, zlen_zrep; lia). assert (zlen f2 = 12) as L2 by done. assert (zlen f3 = 6) as L3 by done.
  assert (zlen f5 = 8) as L5 by (unfold f5; rewrite zlen_app, zlen_zrep; lia). assert (zlen f6 = 10) as L6 by (unfold f6; rewrite zlen_app, zlen_zrep; lia).
  assert (zlen [96] = 1) as L7 by done. assert (zlen [10] = 1) as L8 by done. assert (zlen (zrep 60 (32 : Z)) = 60) as L0 by done.
  eexists. split; [done|]. split_and!.
  - repeat (apply zlen_splice_n; [|lia|lia]). done.
  - buf_field 60. done.
  - buf_field 60. done.
  - assert (forall h, sub h 0 16 = f1 -> trim (cstr (sub h 0 16)) = name) as E.
    { intros h ->. unfold f1. rewrite cstr_id; [apply trim_slash|]. rewrite !elem_of_app. intros [[|Hin]|Hin]; [done|..].
      - apply elem_of_cons in Hin as [|Hin]; [done|by apply elem_of_nil in Hin].
      - apply elem_of_replicate in Hin. lia. }
    apply E. buf_field 60. done.
  - assert (forall h, sub h 48 10 = f6 -> dec (sub h 48 10) = Some size) as E by (intros h ->; apply dec_print; lia).
    apply E. buf_field 60. done.
Qed.

(** A member, read from the stream [src]. *)
Record member : Type := Member { am_name : list Z; am_mode : Z; am_data : list Z; am_src : stream }.
Definition member_ok (m : member) : Prop :=
  name_ok (am_name m) = true /\ (0 ∉ am_name m) /\ zlen (am_data m) < 10 ^ 10 /\ holds_at (sm_file (am_src m)) (sm_pos (am_src m)) (am_data m).
Definition tail (d : list Z) : list Z := zrep (Z.land (zlen d) 1) 10.
Definition member_len (m : member) : Z := 60 + (zlen (am_data m) + Z.land (zlen (am_data m)) 1).
Definition add_member (m : member) : comp stream unit := fun o =>
  let '(r, ss) := gu_ar_write_member (am_name m) (zlen (am_data m)) (am_mode m) (Streams o (am_src m)) in (r, ss_out ss).
Fixpoint add_members (ms : list member) : comp stream unit :=
  match ms with [] => ret tt | m :: ms => add_member m ;;; add_members ms end.
Definition write_package (ms : list member) : comp stream unit := gu_ar_write_begin ;;; add_members ms.

Definition member_bytes (m : member) (b : list Z) : Prop :=
  exists h, b = h ++ am_data m ++ tail (am_data m) /\ zlen h = 60 /\ bget h 58 = 96 /\ bget h 59 = 10 /\
    trim (cstr (sub h 0 16)) = am_name m /\ dec (sub h 48 10) = Some (zlen (am_data m)).
Definition members_len (ms : list member) : Z := foldr (fun m n => member_len m + n) 0 ms.

Lemma land1_range n : 0 <= Z.land n 1 <= 1.
Proof. pose proof (Z.land_ones n 1 ltac:(lia)) as E. change (Z.ones 1) with 1 in E. rewrite E. pose proof (Z.mod_pos_bound n (2 ^ 1)). lia. Qed.
Lemma zlen_tail d : zlen (tail d) = Z.land (zlen d) 1.
Proof. unfold tail. rewrite zlen_zrep; [done|apply land1_range]. Qed.
Lemma zlen_ar_member_bytes m b : member_bytes m b -> zlen b = member_len m.
Proof. intros (h & -> & Hl & _). unfold member_len. rewrite !zlen_app, zlen_tail. lia. Qed.

Lemma add_ar_member_wrote m o :
  member_ok m -> at_end o -> sm_pos o + member_len m <= hf_cap (sm_file o) ->
  exists b o', add_member m o = (Done tt, o') /\ wrote o b o' /\ member_bytes m b.
Proof.
  intros (Hn & H0 & Hs & Hi) He Hc. unfold member_len in Hc. set (d := am_data m) in *. pose proof (zlen_nonneg d). pose proof (land1_range (zlen d)).
  destruct (member_header_parse (am_name m) (zlen d) (am_mode m) Hn H0 ltac:(lia)) as (h & E & Hl & Hrest).
  destruct (fwrite_wrote (-1) o h He ltac:(lia)) as (o1 & E1 & W1). pose proof (wrote_at_end _ _ _ (proj1 He) W1) as He1.
  pose proof (wr_pos _ _ _ W1). pose proof (wr_cap _ _ _ W1).
  destruct (copy_loop_wrote (copy_fuel (zlen d)) d o1 (am_src m)) as (o2 & i2 & E2 & W2); [|done|lia|done|].
  { left. unfold copy_fuel, COPY_BUFFER. rewrite Z2Nat.id by (pose proof (Z.div_pos (zlen d) 32768); lia). dlia. }
  pose proof (wrote_at_end _ _ _ (proj1 He1) W2) as He2. pose proof (wr_pos _ _ _ W2). pose proof (wr_cap _ _ _ W2).
  assert (exists o3, (if negb (Z.land (zlen d) 1 =? 0) then on_out (fwrite (-1) [10]) else ret tt) (Streams o2 i2) = (Done tt, Streams o3 i2) /\ wrote o2 (tail d) o3) as (o3 & E3 & W3).
  { unfold tail. destruct (Z.eqb_spec (Z.land (zlen d) 1) 0) as [->|]; [exists o2; split; [done|by apply wrote_nil]|]. assert (Z.land (zlen d) 1 = 1) as -> by lia.
    destruct (fwrite_wrote (-1) o2 [10] He2) as (o3 & E3 & W3); [change (zlen [10]) with 1; lia|]. exists o3. split; [exact (on_out_done _ (Streams o2 i2) _ _ E3)|done]. }
  exists (h ++ d ++ tail d), o3. split_and!; [|eapply wrote_app; [apply He|done|]; eapply wrote_app; [apply He1|done..]|by exists h].
  unfold add_member. fold d. unfold gu_ar_write_member. rewrite E. cbn [of_option]. rewrite bind_ret.
  rewrite (bind_done _ _ _ _ _ (on_out_done _ (Streams o (am_src m)) _ _ E1)). cbn [ss_in]. rewrite (bind_done _ _ _ _ _ E2). by rewrite E3.
Qed.

(** ** Packages *)

(** The package after the member [m], whose data is at [pos]. *)
Definition note (pkg : deb_package) (m : member) (pos : Z) : deb_package :=
  if streq (am_name m) (str_bytes "debian-binary") then
    DebPackage (trim (cstr (take 31 (am_data m)))) (dp_control pkg) (dp_data pkg)
  else if starts_with (str_bytes "control.tar") (am_name m) then
    DebPackage (dp_version pkg) (DebMember (am_name m) pos (zlen (am_data m))) (dp_data pkg)
  else if starts_with (str_bytes "data.tar") (am_name m) then
    DebPackage (dp_version pkg) (dp_control pkg) (DebMember (am_name m) pos (zlen (am_data m)))
  else pkg.
Fixpoint note_all (ms : list member) (pos : Z) (pkg : deb_package) : deb_package :=
  match ms with [] => pkg | m :: ms => note_all ms (pos + member_len m) (note pkg m (pos + 60)) end.
(** Each member with where its data is. *)
Fixpoint located (ms : list member) (pos : Z) : list (member * Z) :=
  match ms with [] => [] | m :: ms => (m, pos + 60) :: located ms (pos + member_len m) end.
Definition complete (pkg : deb_package) : bool :=
  negb (bool_decide (dp_version pkg = [])) && negb (bool_decide (dm_name (dp_control pkg) = [])) && negb (bool_decide (dm_name (dp_data pkg) = [])).

Inductive members_bytes : list member -> list Z -> Prop :=
| members_nil : members_bytes [] []
| members_cons m b ms bs : member_bytes m b -> members_bytes ms bs -> members_bytes (m :: ms) (b ++ bs).

Lemma member_len_pos m : 60 <= member_len m.
Proof. unfold member_len. pose proof (zlen_nonneg (am_data m)). pose proof (land1_range (zlen (am_data m))). lia. Qed.
Lemma members_len_pos ms : 0 <= members_len ms.
Proof. induction ms as [|m ms IH]; simpl; [lia|]. pose proof (member_len_pos m). lia. Qed.
Lemma zlen_members_bytes ms b : members_bytes ms b -> zlen b = members_len ms.
Proof. induction 1 as [|m b ms bs Hm _ IH]; simpl; [done|]. rewrite zlen_app, IH. by rewrite (zlen_ar_member_bytes _ _ Hm). Qed.

Lemma add_members_wrote ms o :
  Forall member_ok ms -> at_end o -> sm_pos o + members_len ms <= hf_cap (sm_file o) ->
  exists b o', add_members ms o = (Done tt, o') /\ wrote o b o' /\ members_bytes ms b.
Proof.
  intros Hms. revert o. induction Hms as [|m ms Hm _ IH]; intros o He Hc; simpl in Hc |- *.
  - exists [], o. split_and!; [done|by apply wrote_nil|constructor].
  - pose proof (members_len_pos ms). destruct (add_ar_member_wrote m o Hm He) as (b & o1 & E & W & Hb); [lia|].
    pose proof (wr_pos _ _ _ W). pose proof (wr_cap _ _ _ W). rewrite (zlen_ar_member_bytes _ _ Hb) in *.
    destruct (IH o1) as (bs & o2 & E2 & W2 & Hbs); [eapply wrote_at_end; [apply He|done]|lia|].
    exists (b ++ bs), o2. split_and!; [by rewrite (bind_done _ _ _ _ _ E)|eapply wrote_app; [apply He|done..]|by constructor].
Qed.

Lemma deb_take_note pkg m f pos :
  holds_at f pos (am_data m) -> exists p, deb_take pkg (am_name m) (zlen (am_data m)) pos (Stream f pos) = (Done (note pkg m pos), Stream f p).
Proof.
  intros H. unfold deb_take, note. destruct (streq _ _); [|repeat case_match; by exists pos].
  set (d := am_data m) in *. pose proof (zlen_nonneg d). set (n := if zlen d <? 31 then zlen d else 31).
  assert (0 <= n <= zlen d /\ take (Z.to_nat n) d = take 31 d) as [Hn Ht].
  { unfold n. btests. split; [lia|]. rewrite !take_ge by (unfold zlen in *; lia). done. }
  rewrite <- (take_drop (Z.to_nat n) d) in H. apply holds_at_app in H as [H _].
  rewrite (bind_done _ _ _ _ _ (fread_all_ok (-8) (Stream f pos) n _ H ltac:(apply zlen_take; lia))). rewrite Ht. by eexists.
Qed.

Lemma deb_loop_member fuel pkg f pos m b :
  0 <= pos -> pos + zlen b <= LONG_MAX -> holds_at f pos b -> member_bytes m b ->
  deb_loop (S fuel) pkg (Stream f pos) = deb_loop fuel (note pkg m (pos + 60)) (Stream f (pos + zlen b)).
Proof.
  intros Hp Hl Hf Hb. pose proof (zlen_ar_member_bytes _ _ Hb) as Hbl. destruct Hb as (h & -> & Hhl & H58 & H59 & Hn & Hs). unfold member_len in Hbl.
  pose proof (zlen_nonneg (am_data m)). pose proof (land1_range (zlen (am_data m))).
  rewrite Hbl in *. apply holds_at_app in Hf as [Hf1 Hf2]. apply holds_at_app in Hf2 as [Hf2 _]. rewrite Hhl in Hf2.
  cbn [deb_loop]. rewrite (bind_done _ _ _ _ _ (fread_ok (Stream f pos) 60 h Hf1 Hhl)). rewrite Hhl, H58, H59. cbn [Z.eqb].
  rewrite !require_true by done. cbv zeta. rewrite Hn, Hs. cbn [of_option]. rewrite bind_ret, bind_gets. cbn [sm_pos sm_file].
  destruct (deb_take_note pkg m f (pos + 60) Hf2) as [p E]. rewrite (bind_done _ _ _ _ _ E). unfold LONG_MAX in Hl.
  rewrite (u64_id (pos + 60 + zlen (am_data m))), u64_id by lia.
  replace (pos + 60 + zlen (am_data m) + Z.land (zlen (am_data m)) 1) with (pos + (60 + (zlen (am_data m) + Z.land (zlen (am_data m)) 1))) by lia.
  rewrite (bind_done _ _ _ tt (Stream f (pos + (60 + (zlen (am_data m) + Z.land (zlen (am_data m)) 1))))); [done|].
  unfold fail_as, fseek_set. cbn [sm_file]. rewrite (proj2 (Z.leb_le _ _)); [done|]. unfold LONG_MAX. lia.
Qed.
Lemma deb_loop_end fuel pkg f : 0 <= hf_len f -> deb_loop (S fuel) pkg (Stream f (hf_len f)) = (Done pkg, Stream f (hf_len f)).
Proof.
  intros H. cbn [deb_loop]. rewrite (bind_done _ _ _ [] (Stream f (hf_len f))); [done|].
  unfold fread, host_fread. cbn [sm_file sm_pos]. rewrite Z.sub_diag. change (Z.max 0 (Z.min 60 0)) with 0. rewrite bytes_at_0, zlen_nil. do 2 f_equal. lia.
Qed.
Lemma deb_loop_members fuel pkg f pos ms b :
  0 <= pos -> pos + zlen b = hf_len f -> hf_len f <= LONG_MAX -> holds_at f pos b -> members_bytes ms b -> (length ms < fuel)%nat ->
  deb_loop fuel pkg (Stream f pos) = (Done (note_all ms pos pkg), Stream f (hf_len f)).
Proof.
  intros Hp Hl Hc Hf Hb. revert fuel pkg pos Hp Hl Hf. induction Hb as [|m b ms bs Hm Hbs IH]; intros fuel pkg pos Hp Hl Hf Hfuel;
    (destruct fuel as [|fuel]; [simpl in Hfuel; lia|]).
  - rewrite zlen_nil in Hl. assert (pos = hf_len f) as -> by lia. by apply deb_loop_end.
  - pose proof (zlen_nonneg bs). pose proof (zlen_nonneg b). rewrite zlen_app in Hl. apply holds_at_app in Hf as [Hf1 Hf2].
    rewrite (deb_loop_member _ _ _ _ m b) by (done || lia). rewrite IH; [|lia..|done|simpl in Hfuel; lia].
    cbn [note_all]. by rewrite (zlen_ar_member_bytes _ _ Hm).
Qed.

Lemma located_data f ms pos b m off :
  0 <= pos -> holds_at f pos b -> members_bytes ms b -> (m, off) ∈ located ms pos -> holds_at f off (am_data m).
Proof.
  intros Hp Hf Hb. revert pos Hp Hf. induction Hb as [|m' b ms bs Hm Hbs IH]; intros pos Hp Hf Hin; simpl in Hin; [by apply elem_of_nil in Hin|].
  apply holds_at_app in Hf as [Hf1 Hf2]. rewrite (zlen_ar_member_bytes _ _ Hm) in Hf2. pose proof (member_len_pos m'). apply elem_of_cons in Hin as [[= -> ->]|Hin]; [|apply (IH (pos + member_len m')); auto; lia].
  destruct Hm as (h & -> & Hl & _). apply holds_at_app in Hf1 as [_ Hf1]. rewrite Hl in Hf1. by apply holds_at_app in Hf1 as [Hf1 _].
Qed.
Lemma copy_member_ok name off d f p out :
  holds_at f off d -> off <= LONG_MAX -> at_end out -> sm_pos out + zlen d <= hf_cap (sm_file out) ->
  exists out' i, deb_copy_member (DebMember name off (zlen d)) (Streams out (Stream f p)) = (Done tt, Streams out' i) /\ wrote out d out'.
Proof.
  intros Hf Ho He Hc. unfold deb_copy_member. cbn [dm_offset dm_size]. pose proof (zlen_nonneg d).
  rewrite (bind_done _ _ _ tt (Streams out (Stream f off))).
  2:{ apply (on_in_done _ (Streams out (Stream f p)) tt (Stream f off)). unfold fail_as, fseek_set. by rewrite (proj2 (Z.leb_le _ _)) by lia. }
  apply copy_loop_wrote; [|done..]. left. unfold copy_fuel, COPY_BUFFER. rewrite Z2Nat.id by (pose proof (Z.div_pos (zlen d) 32768); lia). dlia.
Qed.

Lemma dec_nonneg p n : dec p = Some n -> 0 <= n.
Proof.
  unfold dec. destruct (trim (cstr p)) as [|c b]; [done|]. pose proof (strtoull_range (c :: b)). destruct (strtoull (c :: b)) as [x e].
  destruct e; [|done]. intros [= <-]. simpl in *. lia.
Qed.
Lemma deb_take_file pkg name sz pos s pkg' s' : deb_take pkg name sz pos s = (Done pkg', s') -> sm_file s' = sm_file s.
Proof.
  unfold deb_take. destruct (streq _ _); [|repeat case_match; by intros [= _ <-]]. intros H.
  apply bind_inv in H as (v & s1 & H & [= _ <-]). apply bind_inv in H as (got & s2 & [= <- <-] & H). by apply require_inv in H as [_ [= _ <-]].
Qed.
Lemma deb_take_fuel pkg name sz pos s : fst (deb_take pkg name sz pos s) <> NoFuel.
Proof. unfold deb_take, fread_all, fread, bind, require. repeat case_match; simplify_eq; try done. Qed.

(** The size fields of [f] are below [2^63], wherever a header is read. *)
Definition sizes_small (f : hostfile) : Prop :=
  forall pos sz, 0 <= pos -> dec (sub (host_fread f pos 60) 48 10) = Some sz -> sz <= LONG_MAX.

Lemma deb_loop_total fuel pkg f pos :
  0 <= pos -> hf_len f <= LONG_MAX -> sizes_small f -> hf_len f - pos < 60 * Z.of_nat fuel -> (0 < fuel)%nat ->
  fst (deb_loop fuel pkg (Stream f pos)) <> NoFuel.
Proof.
  intros Hp Hl Hs. revert pkg pos Hp. induction fuel as [|fuel IH]; intros pkg pos Hp Hf Hpos; [lia|]. cbn [deb_loop].
  unfold fread at 1, bind at 1. cbn [sm_file sm_pos]. set (h := host_fread f pos 60).
  assert (zlen h = Z.max 0 (Z.min 60 (hf_len f - pos))) as Hh by (apply zlen_bytes_at; lia).
  destruct (Z.eqb_spec (zlen h) 0); [done|]. destruct (Z.eqb_spec (zlen h) 60) as [E|]; [|by rewrite require_false].
  rewrite require_true by done. destruct (_ && _); [rewrite require_true by done|by rewrite require_false].
  cbv zeta. destruct (dec (sub h 48 10)) as [sz|] eqn:Ed; [|done]. cbn [of_option]. rewrite bind_ret, bind_gets. cbn [sm_pos].
  pose proof (dec_nonneg _ _ Ed). specialize (Hs _ _ Hp Ed). pose proof (land1_range sz). unfold LONG_MAX in *.
  unfold bind at 1. destruct (deb_take _ _ _ _ _) as [[pkg'|rc|] s'] eqn:Et; [|done|by pose proof (deb_take_fuel pkg (trim (cstr (sub h 0 16))) sz (pos + zlen h) (Stream f (pos + zlen h))) as Hn; rewrite Et in Hn].
  apply deb_take_file in Et as Hfile. cbn [sm_file] in Hfile. rewrite (u64_id (pos + zlen h + sz)), u64_id by lia.
  unfold bind, fail_as, fseek_set, LONG_MAX. rewrite Hfile. destruct (Z.leb_spec (pos + zlen h + sz + Z.land sz 1) (2 ^ 63 - 1)); [|done].
  apply IH; lia.
Qed.

(** C37: A package written as [ar] members and opened again: the scan gives the
    format version and the place and size of the control and data members (or
    reports that one is missing), and copying a member out of it, from where
    its data is, delivers exactly the bytes that were added. *)
Theorem deb_package_roundtrip (cap : Z) (ms : list member) (fuel : nat) :
  Forall member_ok ms -> 8 + members_len ms <= cap -> cap <= LONG_MAX -> (length ms < fuel)%nat ->
  let pkg := note_all ms 8 deb_empty in
  exists o, write_package ms (Stream (hf_empty cap) 0) = (Done tt, o) /\
    deb_open fuel (Some (sm_file o)) = (if complete pkg then Done pkg else Fail (-10)) /\
    forall m off p out, (m, off) ∈ located ms 8 -> at_end out -> sm_pos out + zlen (am_data m) <= hf_cap (sm_file out) ->
      exists out' i, deb_copy_member (DebMember (am_name m) off (zlen (am_data m))) (Streams out (Stream (sm_file o) p)) = (Done tt, Streams out' i) /\
        wrote out (am_data m) out'.
Proof.
  intros Hms Hl Hc Hf pkg. assert (zlen AR_MAGIC = 8) as Hm by done. pose proof (members_len_pos ms).
  destruct (fwrite_wrote (-1) (Stream (hf_empty cap) 0) AR_MAGIC) as (o1 & E1 & W1); [by split|cbn [sm_pos sm_file hf_empty hf_cap]; lia|].
  pose proof (wr_pos _ _ _ W1) as P1. pose proof (wr_cap _ _ _ W1) as C1. cbn [sm_pos sm_file hf_empty hf_cap] in P1, C1.
  destruct (add_members_wrote ms o1 Hms) as (b & o & E & W & Hb); [eapply wrote_at_end; [|done]; done|lia|]. exists o.
  assert (wrote (Stream (hf_empty cap) 0) (AR_MAGIC ++ b) o) as [Hpos Hlen _ Hh _] by (eapply wrote_app; done).
  cbn [sm_pos] in Hpos, Hh. rewrite zlen_app, Hm, Z.add_0_l in Hpos. apply holds_at_app in Hh as [Hh1 Hh2]. rewrite Hm in Hh2.
  pose proof (zlen_members_bytes _ _ Hb). split_and!.
  - unfold write_package, gu_ar_write_begin. by rewrite (bind_done _ _ _ _ _ E1).
  - unfold deb_open, deb_open_fp. rewrite (bind_done _ _ _ tt (Stream (sm_file o) 0)) by done.
    rewrite (bind_done _ _ _ AR_MAGIC (Stream (sm_file o) 8)) by (apply (fread_ok (Stream (sm_file o) 0)); done).
    rewrite require_true by (by apply bool_decide_eq_true_2).
    rewrite (bind_done _ _ _ _ _ (deb_loop_members fuel deb_empty (sm_file o) 8 ms b ltac:(lia) ltac:(lia) ltac:(lia) Hh2 Hb Hf)).
    fold pkg. fold (complete pkg). by destruct (complete pkg).
  - intros m off p out Hin He Hcap. pose proof (located_data (sm_file o) ms 8 b m off ltac:(lia) Hh2 Hb Hin) as Hd.
    apply copy_member_ok; try done. destruct Hd as (H1 & H2 & _). pose proof (zlen_nonneg (am_data m)). lia.
Qed.

Definition ex_member (name : string) (d : list Z) : member :=
  Member (str_bytes name) 0x1A4 d (Stream (HostFile (zlen d) (zlen d) true (bget d)) 0).
Definition ex_package : list member :=
  [ex_member "debian-binary" (str_bytes "2.0" ++ [10]); ex_member "control.tar.gz" [1; 2; 3]; ex_member "data.tar.xz" [4; 5]; ex_member "extra" [6]].
Lemma deb_package_roundtrip_witness :
  let pkg := note_all ex_package 8 deb_empty in
  pkg = DebPackage (str_bytes "2.0") (DebMember (str_bytes "control.tar.gz") 132 3) (DebMember (str_bytes "data.tar.xz") 196 2) /\
  exists o, write_package ex_package (Stream (hf_empty 1000) 0) = (Done tt, o) /\
    deb_open 5 (Some (sm_file o)) = (if complete pkg then Done pkg else Fail (-10)) /\
    forall m off p out, (m, off) ∈ located ex_package 8 -> at_end out -> sm_pos out + zlen (am_data m) <= hf_cap (sm_file out) ->
      exists out' i, deb_copy_member (DebMember (am_name m) off (zlen (am_data m))) (Streams out (Stream (sm_file o) p)) = (Done tt, Streams out' i) /\
        wrote out (am_data m) out'.
Proof.
  split; [by vm_compute|]. apply (deb_package_roundtrip 1000 ex_package 5).
  - assert (forall name d, name_ok (str_bytes name) = true -> (0 ∉ str_bytes name) -> zlen d < 10 ^ 10 -> member_ok (ex_member name d)) as H.
    { intros name d H1 H2 H3. split_and!; auto. split_and!; [done|simpl; lia|]. apply bytes_at_eq; [done|].
      intros i Hi. unfold hf_at. cbn [am_src am_data ex_member sm_file sm_pos hf_len hf_get] in *. rewrite Z.add_0_l. by rewrite (proj2 (Z.ltb_lt _ _)) by lia. }
    unfold ex_package. repeat constructor; apply H; done || decide_now.
  - by vm_compute.
  - by vm_compute.
  - simpl. lia.
Defined.

(** The scan of any file whose size fields are below [2^63] ends, within
    one turn per 60 bytes of the file. *)
Theorem deb_open_terminates (f : hostfile) (fuel : nat) :
  0 <= hf_len f <= LONG_MAX -> sizes_small f -> hf_len f < 60 * Z.of_nat fuel -> deb_open fuel (Some f) <> NoFuel.
Proof.
  intros Hl Hs Hf. unfold deb_open, deb_open_fp. rewrite (bind_done _ _ _ tt (Stream f 0)) by done.
  unfold fread at 1, bind at 1. cbn [sm_file sm_pos]. destruct (bool_decide _); [rewrite require_true by done|by rewrite require_false].
  set (p := 0 + _). unfold bind. pose proof (deb_loop_total fuel deb_empty f p ltac:(unfold p; pose proof (zlen_nonneg (host_fread f 0 8)); lia) ltac:(lia) Hs) as H.
  destruct (deb_loop fuel deb_empty (Stream f p)) as [[pkg|rc|] s] eqn:E; [by destruct (negb _ && _ && _)|done|].
  exfalso. apply H; [unfold p; pose proof (zlen_nonneg (host_fread f 0 8)); lia|lia|]. done.
Qed.
Definition sizes_checked (f : hostfile) : bool :=
  forallb (fun pos => match dec (sub (host_fread f pos 60) 48 10) with Some sz => sz <=? LONG_MAX | None => true end) (seqZ 0 (hf_len f)).
Lemma sizes_checked_small f : 0 <= hf_len f -> sizes_checked f = true -> sizes_small f.
Proof.
  intros Hl Hc pos sz Hp Hd. destruct (decide (pos < hf_len f)).
  - unfold sizes_checked in Hc. rewrite forallb_forall in Hc. specialize (Hc pos). rewrite Hd in Hc. apply Z.leb_le, Hc.
    apply list_elem_of_In, elem_of_seqZ. lia.
  - unfold host_fread in Hd. rewrite Z.max_l, bytes_at_0 in Hd by lia. done.
Qed.
Definition ex_deb : hostfile := sm_file (snd (write_package ex_package (Stream (hf_empty 1000) 0))).
Lemma deb_open_terminates_witness : deb_open 10 (Some ex_deb) <> NoFuel.
Proof.
  apply deb_open_terminates; [split; by vm_compute| |by vm_compute]. apply sizes_checked_small; [by vm_compute|]. by vm_compute.
Defined.

(** A control member whose header gives its size as "-61" sends the scan
    back to that header (the size is read as an unsigned number of 64 bits and
    the position wraps around), so the scan never ends. *)
Theorem deb_negative_size_diverges (f : hostfile) (h : list Z) (fuel : nat) :
  holds_at f 0 AR_MAGIC -> holds_at f 8 h -> zlen h = 60 -> bget h 58 = 96 -> bget h 59 = 10 ->
  starts_with (str_bytes "control.tar") (trim (cstr (sub h 0 16))) = true -> sub h 48 10 = str_bytes "-61       " ->
  deb_open fuel (Some f) = NoFuel.
Proof.
  intros Hm Hh Hl H58 H59 Hn Hs. unfold deb_open, deb_open_fp. rewrite (bind_done _ _ _ tt (Stream f 0)) by done.
  rewrite (bind_done _ _ _ AR_MAGIC (Stream f 8)) by (apply (fread_ok (Stream f 0)); done). rewrite require_true by (by apply bool_decide_eq_true_2).
  assert (forall pkg, deb_loop fuel pkg (Stream f 8) = (NoFuel, Stream f 8)) as E; [|unfold bind; by rewrite E].
  induction fuel as [|fuel IH]; intros pkg; [done|]. cbn [deb_loop].
  rewrite (bind_done _ _ _ _ _ (fread_ok (Stream f 8) 60 h Hh Hl)). rewrite Hl, H58, H59. cbn [Z.eqb].
  rewrite !require_true by done. cbv zeta. rewrite Hs. change (dec (str_bytes "-61       ")) with (Some (2 ^ 64 - 61)).
  cbn [of_option]. rewrite bind_ret, bind_gets. set (name := trim (cstr (sub h 0 16))) in *.
  assert (streq name (str_bytes "debian-binary") = false) as Hne.
  { destruct (streq name (str_bytes "debian-binary")) eqn:E; [|done]. apply bool_decide_eq_true_1 in E. by rewrite E in Hn. }
  unfold deb_take. rewrite Hne, Hn. rewrite bind_ret. cbn [sm_pos sm_file]. apply IH.
Qed.
Definition ex_loop_header : list Z := str_bytes "control.tar/    0           0     0     644     -61       `" ++ [10].
Definition ex_loop : hostfile := HostFile 68 68 true (bget (AR_MAGIC ++ ex_loop_header)).
Lemma deb_negative_size_diverges_witness : deb_open 1000 (Some ex_loop) = NoFuel.
Proof. by apply (deb_negative_size_diverges ex_loop ex_loop_header 1000). Defined.
