(* ===== verification/Store.v ===== *)
(** * Store: what a guest-visible disk promises to its clients

    The interface between libvdisk and everything above it: bounded reads and
    writes of at most [UINT32_MAX] bytes on a content of fixed size.  [ByteStoreLaws] is the promise; a
    client (the partition slices of vblk, the filesystems) is proved against
    it and each backend discharges it.  [flat] is the reference disk, and
    [store_simulates] says that no sequence of requests distinguishes a lawful
    store from it. *)
From S2P Require Import Prelude.

Class ByteStore (S : Type) := {
  store_ok : S -> Prop;            (* the component's invariant *)
  store_size : S -> Z;
  store_writable : S -> bool;
  store_at : S -> Z -> Z;          (* guest content *)
  store_read : Z -> Z -> comp S (list Z);
  store_write : Z -> list Z -> comp S unit;
}.

Class ByteStoreLaws (S : Type) `{ByteStore S} := {
  store_read_in : forall s off n,
    store_ok s -> 0 <= off -> 0 <= n <= UINT32_MAX -> off + n <= store_size s ->
    store_read off n s = (Done (bytes_at (store_at s) off n), s);
  store_read_out : forall s off n,
    store_ok s -> 0 <= off -> 0 <= n <= UINT32_MAX -> store_size s < off + n ->
    store_read off n s = (Fail (-1), s);
  store_write_in : forall s off b,
    store_ok s -> store_writable s = true -> Forall is_byte b ->
    0 <= off -> zlen b <= UINT32_MAX -> off + zlen b <= store_size s ->
    exists s', store_write off b s = (Done tt, s') /\ store_ok s' /\
      store_size s' = store_size s /\ store_writable s' = true /\
      (forall i, 0 <= i < store_size s -> store_at s' i = patch (store_at s) off b i);
  store_write_out : forall s off b,
    store_ok s -> 0 <= off -> zlen b <= UINT32_MAX -> store_writable s = false \/ store_size s < off + zlen b ->
    store_write off b s = (Fail (-1), s);
}.

(** ** The reference disk *)
Record flat : Type := Flat { fl_size : Z; fl_writable : bool; fl_at : Z -> Z }.

#[export] Instance flat_store : ByteStore flat := {|
  store_ok _ := True;
  store_size := fl_size;
  store_writable := fl_writable;
  store_at := fl_at;
  store_read off n s :=
    if off + n <=? fl_size s then (Done (bytes_at (fl_at s) off n), s) else (Fail (-1), s);
  store_write off b s :=
    if fl_writable s && (off + zlen b <=? fl_size s)
    then (Done tt, Flat (fl_size s) (fl_writable s) (patch (fl_at s) off b))
    else (Fail (-1), s);
|}.

#[export] Instance flat_laws : ByteStoreLaws flat.
Proof.
  split; simpl; intros.
  - by rewrite (proj2 (Z.leb_le _ _)) by lia.
  - by rewrite (proj2 (Z.leb_gt _ _)) by lia.
  - rewrite (proj2 (Z.leb_le _ _)) by lia. rewrite H0. simpl. eauto 10.
  - destruct H2 as [-> | Hlt]; [done|]. rewrite (proj2 (Z.leb_gt _ _)) by lia. by rewrite andb_false_r.
Qed.

(** ** Requests and their answers *)
Inductive request : Type :=
| Read (off n : Z)
| Write (off : Z) (b : list Z).

Definition request_ok (r : request) : Prop :=
  match r with
  | Read off n => 0 <= off /\ 0 <= n <= UINT32_MAX
  | Write off b => 0 <= off /\ Forall is_byte b /\ zlen b <= UINT32_MAX
  end.

#[export] Instance request_ok_dec r : Decision (request_ok r).
Proof. destruct r; simpl; solve_decision. Defined.

(** The answer to one request: the bytes read (none for a write), or failure. *)
Definition serve {S : Type} `{ByteStore S} (r : request) (s : S) : option (list Z) * S :=
  match r with
  | Read off n => match store_read off n s with (Done b, s') => (Some b, s') | (_, s') => (None, s') end
  | Write off b => match store_write off b s with (Done _, s') => (Some [], s') | (_, s') => (None, s') end
  end.

Fixpoint serve_all {S : Type} `{ByteStore S} (rs : list request) (s : S) : list (option (list Z)) :=
  match rs with
  | [] => []
  | r :: rs => let '(a, s') := serve r s in a :: serve_all rs s'
  end.

(** Two stores no client can tell apart. *)
Record store_sim {S T : Type} `{ByteStore S} `{ByteStore T} (s : S) (t : T) : Prop := StoreSim {
  sim_ok_l : store_ok s;
  sim_ok_r : store_ok t;
  sim_size : store_size s = store_size t;
  sim_writable : store_writable s = store_writable t;
  sim_at : forall i, 0 <= i < store_size s -> store_at s i = store_at t i;
}.

Section simulation.
  Context {S T : Type} `{ByteStoreLaws S} `{ByteStoreLaws T}.

Lemma serve_sim (s : S) (t : T) r :
    store_sim s t -> request_ok r ->
    (serve r s).1 = (serve r t).1 /\ store_sim (serve r s).2 (serve r t).2.
  Proof.
    intros Hsim. pose proof Hsim as [Hs Ht Hz Hw Ha]. destruct r as [off n|off b]; simpl.
    - intros (Hoff & Hn). destruct (decide (off + n <= store_size s)).
      + rewrite !store_read_in by (auto; lia). simpl. split; [|done].
        f_equal. apply bytes_at_ext. intros. apply Ha. lia.
      + rewrite !store_read_out by (auto; lia). done.
    - intros (Hoff & Hb & Hn). destruct (decide (off + zlen b <= store_size s)).
      2: { rewrite !store_write_out by (auto; lia). done. }
      destruct (store_writable s) eqn:Ew.
      2: { rewrite !store_write_out by (auto; lia). done. }
      destruct (store_write_in s off b) as (s' & -> & Hs' & Hz' & Hw' & Ha'); auto.
      destruct (store_write_in t off b) as (t' & -> & Ht' & Hzt & Hwt & Hat); auto; [lia|].
      simpl. split; [done|]. split; auto; try congruence.
      intros i Hi. rewrite Ha', Hat by lia. apply patch_ext. intros. apply Ha. lia.
  Qed.

Lemma serve_all_sim rs (s : S) (t : T) :
    store_sim s t -> Forall request_ok rs -> serve_all rs s = serve_all rs t.
  Proof.
    intros Hsim Hrs. revert s t Hsim. induction Hrs as [|r rs Hr Hrs IH]; intros s t Hsim; simpl; [done|].
    destruct (serve_sim s t r Hsim Hr) as [Ha Hs].
    destruct (serve r s), (serve r t); simpl in *. f_equal; auto.
  Qed.
End simulation.

(** The flat disk with the same size and content. *)
Definition flatten {S : Type} `{ByteStore S} (s : S) : flat := Flat (store_size s) (store_writable s) (store_at s).

Lemma flatten_sim {S : Type} `{ByteStoreLaws S} (s : S) : store_ok s -> store_sim s (flatten s).
Proof. intros; by split. Qed.

(** Every lawful store answers any sequence of requests as the flat disk does. *)
Lemma store_simulates {S : Type} `{ByteStoreLaws S} rs (s : S) :
  store_ok s -> Forall request_ok rs -> serve_all rs s = serve_all rs (flatten s).
Proof. intros Hs Hrs. apply serve_all_sim; [by apply flatten_sim | done]. Qed.

(** Reading back what was written, and what was not. *)
Lemma store_read_after_write {S : Type} `{ByteStoreLaws S} (s s' : S) off b :
  store_ok s -> store_writable s = true -> Forall is_byte b -> 0 <= off -> zlen b <= UINT32_MAX ->
  off + zlen b <= store_size s -> store_write off b s = (Done tt, s') -> store_read off (zlen b) s' = (Done b, s').
Proof.
  intros Hs Hw Hb Ho Hm Hlt E. destruct (store_write_in s off b) as (s1 & E1 & Hs1 & Hz1 & _ & Ha1); auto.
  rewrite E in E1. injection E1 as <-. pose proof (zlen_nonneg b).
  rewrite store_read_in by (auto; lia). do 2 f_equal.
  rewrite (bytes_at_ext _ (patch (store_at s) off b)) by (intros; apply Ha1; lia). apply bytes_at_patch.
Qed.
