(* ===== verification/Vdisk.v ===== *)
(** * Vdisk: the open disk of libvdisk and its host stream

    [struct vdisk] of [lib/vdisk/src/vdisk_internal.h] as a record, the state a
    backend runs in (the disk and the host file behind its [fp]), the report
    [vdisk_info_t] of the inspectors, and the format selection of [vdisk.c]. *)
From S2P Require Import Prelude Text HostFile.

Inductive vdisk_format : Type :=
| VDISK_FMT_AUTO | VDISK_FMT_RAW | VDISK_FMT_VDI | VDISK_FMT_VMDK | VDISK_FMT_VHD | VDISK_FMT_QCOW2.
#[export] Instance vdisk_format_eq_dec : EqDecision vdisk_format.
Proof. solve_decision. Defined.

Record vdisk : Type := Vdisk {
  vd_size_bytes : Z;
  vd_data_offset : Z;
  vd_host_size_bytes : Z;
  vd_block_size : Z;
  vd_block_extra : Z;
  vd_blocks_offset : Z;
  vd_blocks_count : Z;
  vd_blocks_allocated : Z;
  vd_image_type : Z;
  vd_writable : bool;
  vd_format : vdisk_format;
  vd_create_flags : Z;
  vd_create_uuid : option (list Z);
}.

(** The assignments a backend's [open] and [create] end with. *)
Definition set_layout (size data host bsize extra boff bcount balloc type : Z) (d : vdisk) : vdisk :=
  Vdisk size data host bsize extra boff bcount balloc type
    (vd_writable d) (vd_format d) (vd_create_flags d) (vd_create_uuid d).

(** [size_bytes], [host_size_bytes] and [data_offset] only. *)
Definition set_extent (size data host : Z) (d : vdisk) : vdisk :=
  set_layout size data host (vd_block_size d) (vd_block_extra d) (vd_blocks_offset d)
    (vd_blocks_count d) (vd_blocks_allocated d) (vd_image_type d) d.

Definition set_allocated (balloc host : Z) (d : vdisk) : vdisk :=
  set_layout (vd_size_bytes d) (vd_data_offset d) host (vd_block_size d) (vd_block_extra d)
    (vd_blocks_offset d) (vd_blocks_count d) balloc (vd_image_type d) d.

(** The state a backend operation runs in: [d] and the file behind [d->fp]. *)
Record vdst : Type := Vdst { vs_disk : vdisk; vs_fp : hostfile }.

Definition on_fp {A} (c : comp hostfile A) : comp vdst A :=
  zoom vs_fp (fun f s => Vdst (vs_disk s) f) c.
Definition disk : comp vdst vdisk := gets vs_disk.
Definition set_disk (g : vdisk -> vdisk) : comp vdst unit :=
  modify (fun s => Vdst (g (vs_disk s)) (vs_fp s)).

Lemma on_fp_eq {A} (c : comp hostfile A) d f o f' : c f = (o, f') -> on_fp c (Vdst d f) = (o, Vdst d f').
Proof. unfold on_fp, zoom. simpl. by intros ->. Qed.

Lemma bind_set_disk {A} g (k : unit -> comp vdst A) d f :
  bind (set_disk g) k (Vdst d f) = k tt (Vdst (g d) f).
Proof. done. Qed.
Lemma bind_disk {A} (k : vdisk -> comp vdst A) d f : bind disk k (Vdst d f) = k d (Vdst d f).
Proof. done. Qed.
Lemma bind_on_fp {A B} (c : comp hostfile A) (k : A -> comp vdst B) d f a f' :
  c f = (Done a, f') -> bind (on_fp c) k (Vdst d f) = k a (Vdst d f').
Proof. intros E. by erewrite bind_done by (apply on_fp_eq; exact E). Qed.

(** [vdisk_info_t]. *)
Record vdisk_info : Type := VdiskInfo {
  vi_format : vdisk_format;
  vi_host_size_bytes : Z;
  vi_logical_size_bytes : Z;
  vi_data_offset : Z;
  vi_blocks_offset : Z;
  vi_image_type : Z;
  vi_sector_size : Z;
  vi_block_size : Z;
  vi_blocks_count : Z;
  vi_blocks_allocated : Z;
  vi_map_allocated_entries : Z;
  vi_map_unallocated_entries : Z;
  vi_map_invalid_entries : Z;
  vi_map_duplicate_entries : Z;
  vi_checks_passed : Z;
  vi_checks_failed : Z;
  vi_supported : bool;
  vi_structurally_valid : bool;
  vi_variant : string;
}.

(** The two counters the [CHECK] macro moves. *)
Definition checks : Type := (Z * Z)%type.
Definition CHECK (c : bool) (k : checks) : checks :=
  if c then (k.1 + 1, k.2) else (k.1, k.2 + 1).
Fixpoint check_all (cs : list bool) (k : checks) : checks :=
  match cs with
  | [] => k
  | c :: cs => check_all cs (CHECK c k)
  end.

Lemma check_all_true cs k : Forall (fun c => c = true) cs -> check_all cs k = (k.1 + Z.of_nat (length cs), k.2).
Proof.
  intros H. revert k. induction H as [|c cs -> _ IH]; intros [p q]; simpl.
  - by rewrite Z.add_0_r.
  - rewrite IH. simpl. f_equal. lia.
Qed.
Lemma check_all_failed_le cs k : k.2 <= (check_all cs k).2.
Proof.
  revert k. induction cs as [|c cs IH]; intros k; simpl; [lia|].
  specialize (IH (CHECK c k)). destruct c; simpl in *; lia.
Qed.
(** No failed check means every check held. *)
Lemma check_all_failed0 cs k :
  (check_all cs k).2 = k.2 -> Forall (fun c => c = true) cs.
Proof.
  revert k. induction cs as [|c cs IH]; intros k; simpl; [done|]. intros H.
  pose proof (check_all_failed_le cs (CHECK c k)). destruct c.
  - constructor; [done|]. by apply (IH (CHECK true k)).
  - simpl in *. lia.
Qed.

(** ** Format selection *)

Fixpoint ext_eq (a b : list Z) : bool :=
  match a, b with
  | [], [] => true
  | x :: a, y :: b => if tolower x =? tolower y then ext_eq a b else false
  | _, _ => false
  end.

Definition vdisk_format_from_extension (path : list Z) : vdisk_format :=
  match strrchr path 46 with
  | None => VDISK_FMT_AUTO
  | Some (_, dot) =>
      let ext s := ext_eq dot (str_bytes s) in
      if ext ".vdi" then VDISK_FMT_VDI
      else if ext ".vmdk" then VDISK_FMT_VMDK
      else if ext ".vhd" then VDISK_FMT_VHD
      else if ext ".qcow2" || ext ".qcow" then VDISK_FMT_QCOW2
      else if ext ".raw" || ext ".img" || ext ".hdd" then VDISK_FMT_RAW
      else VDISK_FMT_AUTO
  end.

Definition vdisk_format_name (f : vdisk_format) : string :=
  match f with
  | VDISK_FMT_RAW => "raw"
  | VDISK_FMT_VDI => "vdi"
  | VDISK_FMT_VMDK => "vmdk"
  | VDISK_FMT_VHD => "vhd"
  | VDISK_FMT_QCOW2 => "qcow2"
  | VDISK_FMT_AUTO => "auto"
  end.

(** [off <= size && len <= size - off], the bounds test of every backend. *)
Definition bounds_ok (d : vdisk) (off len : Z) : bool :=
  (off <=? vd_size_bytes d) && (len <=? vd_size_bytes d - off).

Lemma bounds_ok_true d off len :
  0 <= len -> bounds_ok d off len = true <-> off + len <= vd_size_bytes d.
Proof. unfold bounds_ok. intros. btests; split; intros; try lia; try done. Qed.
Lemma bounds_ok_false d off len :
  0 <= len -> vd_size_bytes d < off + len -> bounds_ok d off len = false.
Proof. unfold bounds_ok. intros. btests; lia. Qed.

(** ** A disk handle in its host tree

    [hd_path] is [d->path]; [hd_fp] is the path of the file [d->fp] is open on
    (the extent, for a VMDK). *)
Record handle : Type := Handle { hd_fs : hostfs; hd_disk : vdisk; hd_path : list Z; hd_fp : list Z }.

(** Run a backend operation on the disk and the file behind its [fp]. *)
Definition on_disk {A} (c : comp vdst A) : comp handle A :=
  zoom (fun h => Vdst (hd_disk h) (hs_file (hd_fp h) (hd_fs h)))
       (fun s h => Handle (hs_set (hd_fp h) (vs_fp s) (hd_fs h)) (vs_disk s) (hd_path h) (hd_fp h)) c.

Definition set_fs (fs : hostfs) : comp handle unit :=
  modify (fun h => Handle fs (hd_disk h) (hd_path h) (hd_fp h)).
Definition set_handle_disk (g : vdisk -> vdisk) : comp handle unit :=
  modify (fun h => Handle (hd_fs h) (g (hd_disk h)) (hd_path h) (hd_fp h)).
(** [fclose(d->fp); d->fp = efp;] *)
Definition set_fp (fp : list Z) : comp handle unit :=
  modify (fun h => Handle (hd_fs h) (hd_disk h) (hd_path h) fp).

(** The state behind an open handle. *)
Definition opened (h : handle) : vdst := Vdst (hd_disk h) (hs_file (hd_fp h) (hd_fs h)).

Lemma on_disk_opened {A} (c : comp vdst A) h o s' :
  is_Some (hs_nodes (hd_fs h) !! hd_fp h) -> c (opened h) = (o, s') ->
  exists h', on_disk c h = (o, h') /\ opened h' = s' /\ hd_path h' = hd_path h /\ hd_fp h' = hd_fp h.
Proof.
  intros Hf E. unfold on_disk, zoom. fold (opened h). rewrite E. eexists. split; [done|].
  unfold opened. simpl. rewrite hs_file_set by done. by destruct s'.
Qed.
