(* ===== verification/Raw.v ===== *)
(** * Raw: contiguous images and the raw backend ([lib/vdisk/src/backend_raw.c])

    Raw, fixed VDI, fixed VHD and flat VMDK images keep the guest disk as one
    run of host bytes at [data_offset].  [linear_ok] is their invariant; the
    lemmas on [linear_read] and [linear_write] serve the four backends. *)
From S2P Require Import Prelude HostFile Store Vdisk.

(** ** Guest I/O on one run of host bytes *)

(** The guest byte at [o]. *)
Definition lin_at (s : vdst) (o : Z) : Z := hf_at (vs_fp s) (vd_data_offset (vs_disk s) + o).

Record linear_ok (s : vdst) : Prop := LinearOk {
  lk_off : 0 <= vd_data_offset (vs_disk s);
  lk_size : 0 <= vd_size_bytes (vs_disk s);
  lk_len : vd_data_offset (vs_disk s) + vd_size_bytes (vs_disk s) <= hf_len (vs_fp s);
  lk_wf : hf_wf (vs_fp s);
}.

Lemma linear_limit s : linear_ok s -> vd_data_offset (vs_disk s) + vd_size_bytes (vs_disk s) <= LONG_MAX.
Proof. intros [? ? ? [? ? _]]. lia. Qed.

Section linear.
  Context (s : vdst) (Hs : linear_ok s).

Lemma linear_read_ok off n :
    0 <= off -> 0 <= n -> off + n <= vd_size_bytes (vs_disk s) ->
    on_fp (vdisk_host_read (vd_data_offset (vs_disk s) + off) n) s = (Done (bytes_at (lin_at s) off n), s).
  Proof using Hs.
    intros. pose proof (linear_limit s Hs). destruct Hs. destruct s as [d f]. simpl in *.
    erewrite on_fp_eq by (apply host_read_ok; lia). do 2 f_equal. apply bytes_at_eq.
    - apply zlen_bytes_at; lia.
    - intros i Hi. rewrite bget_bytes_at by lia. unfold lin_at; simpl. f_equal; lia.
  Qed.

Lemma linear_write_ok off b :
    0 <= off -> off + zlen b <= vd_size_bytes (vs_disk s) -> Forall is_byte b ->
    exists f', on_fp (vdisk_host_write (vd_data_offset (vs_disk s) + off) b) s = (Done tt, Vdst (vs_disk s) f') /\
      linear_ok (Vdst (vs_disk s) f') /\
      frame (vs_fp s) f' (vd_data_offset (vs_disk s) + off) (vd_data_offset (vs_disk s) + off + zlen b) /\
      hf_len f' = hf_len (vs_fp s) /\
      (forall i, 0 <= i -> lin_at (Vdst (vs_disk s) f') i = patch (lin_at s) off b i).
  Proof using Hs.
    intros Ho Hl HF. pose proof (zlen_nonneg b). destruct Hs. destruct s as [d f]. simpl in *.
    destruct (host_write_in f (vd_data_offset d + off) b) as [E F]; [done|lia..|done|].
    eexists. erewrite on_fp_eq by exact E. split; [done|].
    assert (hf_len (hf_store f (vd_data_offset d + off) b) = hf_len f) as Hlen by (apply hf_len_store_in; lia).
    split_and!; auto.
    - split; simpl; rewrite ?Hlen; auto. apply F.
    - intros i Hi. unfold lin_at. simpl. rewrite hf_at_store by lia.
      unfold patch. btests; f_equal; lia.
  Qed.
End linear.

(** ** The raw backend *)

Definition raw_probe : comp hostfile bool := ret true.

Definition raw_open : comp vdst unit :=
  let* n := on_fp vdisk_host_get_size in
  set_disk (set_extent n 0 n).

(** [vdisk_host_seek] to [off] and [fputc(0, fp)]. *)
Definition put_zero_at (off : Z) : comp hostfile unit := vdisk_host_write off [0].

Definition raw_create (size : Z) : comp vdst unit :=
  require (negb (size =? 0)) (-1) ;;;
  on_fp (put_zero_at (u64 (size - 1))) ;;;
  set_disk (set_extent size 0 size) ;;;
  on_fp host_flush.

Definition raw_read (off n : Z) : comp vdst (list Z) :=
  let* d := disk in
  require (bounds_ok d off n) (-1) ;;;
  on_fp (vdisk_host_read off n).

Definition raw_write (off : Z) (b : list Z) : comp vdst unit :=
  let* d := disk in
  require (vd_writable d && bounds_ok d off (zlen b)) (-1) ;;;
  on_fp (vdisk_host_write off b).

Definition raw_flush : comp vdst unit := on_fp host_flush.

Lemma raw_open_ok d f :
  hf_wf f -> exists d', raw_open (Vdst d f) = (Done tt, Vdst d' f) /\ linear_ok (Vdst d' f) /\
    vd_size_bytes d' = hf_len f /\ vd_data_offset d' = 0 /\ vd_writable d' = vd_writable d /\
    vd_format d' = vd_format d.
Proof.
  intros W. eexists. split; [reflexivity|]. destruct W eqn:E. clear E. split_and!; auto. split; simpl; auto; lia.
Qed.

(** Writing one zero byte at the end of an empty file materialises a disk of zeros. *)
Lemma put_zero_at_ok cap size :
  0 < size <= cap -> cap <= LONG_MAX ->
  exists f, put_zero_at (size - 1) (hf_empty cap) = (Done tt, f) /\ hf_wf f /\ hf_len f = size /\
    hf_cap f = cap /\ hf_sync f = true /\ (forall i, 0 <= i -> hf_at f i = 0).
Proof.
  intros Hz Hc. unfold put_zero_at. eexists. split.
  { apply host_write_ok; [lia| |lia]. unfold zlen. simpl. lia. }
  assert (hf_wf (hf_empty cap)) as W.
  { split; simpl; [lia|lia|]. intros i. unfold hf_at; simpl. case_match; unfold is_byte; lia. }
  split_and!.
  - apply hf_wf_store; auto. { by repeat constructor. } right. unfold zlen; simpl; lia.
  - rewrite hf_len_store by done. unfold zlen; simpl; lia.
  - done.
  - done.
  - intros i Hi. rewrite hf_at_store by lia. unfold patch. case_match.
    + change (zlen [0]) with 1 in *. assert (i = size - 1) as -> by lia. by rewrite Z.sub_diag.
    + unfold hf_at; simpl. by case_match.
Qed.

Lemma raw_create_ok d cap size :
  0 < size <= cap -> cap <= LONG_MAX ->
  exists f, raw_create size (Vdst d (hf_empty cap)) = (Done tt, Vdst (set_extent size 0 size d) f) /\
    linear_ok (Vdst (set_extent size 0 size d) f) /\ hf_len f = size /\
    (forall i, 0 <= i -> lin_at (Vdst (set_extent size 0 size d) f) i = 0).
Proof.
  intros Hz Hc. destruct (put_zero_at_ok cap size Hz Hc) as (f & E & W & Hlen & Hcap & Hs & Ha).
  exists f. unfold raw_create. rewrite require_true by lia. rewrite u64_id by slia.
  erewrite bind_on_fp by exact E. rewrite bind_set_disk. split_and!; auto.
  - erewrite on_fp_eq; [done|]. unfold host_flush. by rewrite Hs.
  - split; simpl; auto; lia.
Qed.
