(* ===== verification/Vhd.v ===== *)
(** * Vhd: the fixed VHD backend ([lib/vdisk/src/backend_vhd.c])

    The 512-byte footer (checksum, CHS geometry, uniqueness id), probing,
    opening, creation, guest I/O and inspection, with the guest disk as the run
    of host bytes in front of the footer.  [now] is what [time(NULL)] returns. *)
From S2P Require Import Prelude HostFile Store Vdisk Raw.

Definition VHD_FOOTER_SIZE : Z := 512.
Definition VHD_SECTOR_SIZE : Z := 512.
Definition VHD_TYPE_FIXED : Z := 2.
Definition VHD_EPOCH_DELTA : Z := 946684800.

(** The accumulation loop over bytes [i], [i + 1], ... of the footer. *)
Fixpoint footer_sum (n : nat) (i sum : Z) (footer : list Z) : Z :=
  match n with
  | O => sum
  | S n =>
      let sum := if (64 <=? i) && (i <? 68) then sum else u32 (sum + bget footer i) in
      footer_sum n (i + 1) sum footer
  end.
(** [~sum] on [uint32_t]. *)
Definition footer_checksum (footer : list Z) : Z := UINT32_MAX - footer_sum 512 0 0 footer.

(** (cylinders, heads, sectors) *)
Definition geometry_for (size_bytes : Z) : Z * Z * Z :=
  let total_sectors := size_bytes / VHD_SECTOR_SIZE in
  let max_sectors := 65535 * 16 * 255 in
  let total_sectors := if max_sectors <? total_sectors then max_sectors else total_sectors in
  let '(spt, h, cyl_times_heads) :=
    if 65535 * 16 * 63 <=? total_sectors then (255, 16, total_sectors / 255)
    else
      let spt := 17 in
      let cyl_times_heads := total_sectors / spt in
      let h := u32 ((cyl_times_heads + 1023) / 1024) in
      let h := if h <? 4 then 4 else h in
      let '(spt, h, cyl_times_heads) :=
        if (h * 1024 <=? cyl_times_heads) || (16 <? h)
        then (31, 16, total_sectors / 31) else (spt, h, cyl_times_heads) in
      if h * 1024 <=? cyl_times_heads then (63, 16, total_sectors / 63) else (spt, h, cyl_times_heads) in
  let h := if h =? 0 then 1 else h in
  (u16 (cyl_times_heads / h), u8 h, u8 spt).

Definition vhd_timestamp_now (now : Z) : Z :=
  if now <=? 0 then 0
  else if now <=? VHD_EPOCH_DELTA then 0
  else let s := now - VHD_EPOCH_DELTA in if UINT32_MAX <? s then UINT32_MAX else u32 s.

Definition vhd_make_uuid (now size_bytes : Z) : list Z :=
  let x := Z.lxor (Z.lxor (u64 (Z.shiftl (vhd_timestamp_now now) 32)) size_bytes) 0x4755505059564844 in
  let x := if x =? 0 then 0x9e3779b97f4a7c15 else x in
  uuid_bits (xorshift_bytes 16 0 x).

(** The footer and the host size. *)
Definition read_footer : comp hostfile (list Z * Z) :=
  let* host_size := vdisk_host_get_size in
  require (negb (host_size <? VHD_FOOTER_SIZE)) (-1) ;;;
  let* footer := fail_as (-1) (vdisk_host_read (u64 (host_size - VHD_FOOTER_SIZE)) VHD_FOOTER_SIZE) in
  ret (footer, host_size).

(** [memcmp(p, s, strlen(s)) == 0] at offset [off]. *)
Definition bytes_eq (b : list Z) (off : Z) (s : list Z) : bool := bool_decide (sub b off (zlen s) = s).

(** The logical size of a valid fixed footer. *)
Definition fixed_footer_valid (f : list Z) (host_size : Z) : option Z :=
  if negb (bytes_eq f 0 (str_bytes "conectix")) then None
  else if negb (be32 f 60 =? VHD_TYPE_FIXED) then None
  else if negb (be64 f 16 =? UINT64_MAX) then None
  else if negb (be32 f 12 =? 0x00010000) then None
  else if negb (be32 f 64 =? footer_checksum f) then None
  else
    let current_size := be64 f 48 in
    if (current_size =? 0) || negb (current_size mod VHD_SECTOR_SIZE =? 0) then None
    else if negb (host_size =? u64 (current_size + VHD_FOOTER_SIZE)) then None
    else Some current_size.

Definition vhd_probe : comp hostfile bool :=
  let* r := try read_footer in
  ret (match r with
       | Some (f, host_size) => bool_decide (is_Some (fixed_footer_valid f host_size))
       | None => false
       end).

Definition vhd_sectors (size : Z) : Z :=
  let sectors := size / VHD_SECTOR_SIZE in if UINT32_MAX <? sectors then UINT32_MAX else u32 sectors.

Definition vhd_layout (size host : Z) (d : vdisk) : vdisk :=
  set_layout size 0 host VHD_SECTOR_SIZE 0 0 (vhd_sectors size) (vhd_sectors size) VHD_TYPE_FIXED d.

Definition vhd_open : comp vdst unit :=
  let* (f, host_size) := on_fp (fail_as (-1) read_footer) in
  let* logical_size := of_option (-1) (fixed_footer_valid f host_size) in
  set_disk (vhd_layout logical_size host_size).

Definition build_footer (now size_bytes : Z) : option (list Z) :=
  if (size_bytes =? 0) || negb (size_bytes mod VHD_SECTOR_SIZE =? 0) then None else
  let '(cylinders, heads, sectors) := geometry_for size_bytes in
  let f := zrep VHD_FOOTER_SIZE 0 in
  let f := splice f 0 (str_bytes "conectix") in
  let f := splice f 8 (put32be 0x00000002) in
  let f := splice f 12 (put32be 0x00010000) in
  let f := splice f 16 (put64be UINT64_MAX) in
  let f := splice f 24 (put32be (vhd_timestamp_now now)) in
  let f := splice f 28 (str_bytes "GUPP") in
  let f := splice f 32 (put32be 0x00010000) in
  let f := splice f 36 (str_bytes "Wi2k") in
  let f := splice f 40 (put64be size_bytes) in
  let f := splice f 48 (put64be size_bytes) in
  let f := splice f 56 (put16be cylinders) in
  let f := splice f 58 [heads] in
  let f := splice f 59 [sectors] in
  let f := splice f 60 (put32be VHD_TYPE_FIXED) in
  let f := splice f 68 (vhd_make_uuid now size_bytes) in
  let f := splice f 84 [0] in
  Some (splice f 64 (put32be (footer_checksum f))).

Definition vhd_create_fixed (now size_bytes : Z) : comp vdst unit :=
  let* footer := of_option (-1) (build_footer now size_bytes) in
  on_fp (put_zero_at (u64 (size_bytes - 1))) ;;;
  on_fp (vdisk_host_write size_bytes footer) ;;;
  on_fp host_flush ;;;
  set_disk (vhd_layout size_bytes (u64 (size_bytes + VHD_FOOTER_SIZE))).

Definition vhd_read (off len : Z) : comp vdst (list Z) :=
  let* d := disk in
  require (bounds_ok d off len) (-1) ;;;
  on_fp (vdisk_host_read off len).

Definition vhd_write (off : Z) (buf : list Z) : comp vdst unit :=
  let* d := disk in
  require (vd_writable d && bounds_ok d off (zlen buf)) (-1) ;;;
  on_fp (vdisk_host_write off buf).

Definition vhd_flush : comp vdst unit := on_fp host_flush.

Definition vhd_checks (f : list Z) (host_size : Z) : checks :=
  let type := be32 f 60 in
  let current_size := be64 f 48 in
  let k := check_all
    [bytes_eq f 0 (str_bytes "conectix");
     be32 f 8 =? 0x00000002;
     be32 f 12 =? 0x00010000;
     if type =? VHD_TYPE_FIXED then be64 f 16 =? UINT64_MAX else true;
     negb (current_size =? 0) && (current_size mod VHD_SECTOR_SIZE =? 0);
     be64 f 40 =? current_size;
     negb (be16 f 56 =? 0) && negb (bget f 58 =? 0) && negb (bget f 59 =? 0);
     be32 f 64 =? footer_checksum f] (0, 0) in
  if type =? VHD_TYPE_FIXED then CHECK (host_size =? u64 (current_size + VHD_FOOTER_SIZE)) k else k.

Definition vdisk_vhd_inspect : comp hostfile vdisk_info :=
  let* (f, host_size) := fail_as (-1) read_footer in
  let type := be32 f 60 in
  let current_size := be64 f 48 in
  let blocks := current_size / VHD_SECTOR_SIZE in
  let blocks := if blocks <=? UINT32_MAX then u32 blocks else 0 in
  let k := vhd_checks f host_size in
  ret (VdiskInfo VDISK_FMT_VHD host_size current_size 0 0 type VHD_SECTOR_SIZE VHD_SECTOR_SIZE
         blocks blocks 0 0 0 0 k.1 k.2 (type =? VHD_TYPE_FIXED) (k.2 =? 0)
         (if type =? VHD_TYPE_FIXED then "fixed/full"
          else if type =? 3 then "dynamic"
          else if type =? 4 then "differencing"
          else "unknown")).

(** ** Geometry *)

(** The CHS triple fits its fields and never describes more than the disk. *)
Lemma geometry_for_bounds size c h s :
  0 <= size < 2 ^ 64 -> geometry_for size = (c, h, s) ->
  0 <= c <= 65535 /\ 1 <= h <= 16 /\ s ∈ [17; 31; 63; 255] /\ c * h * s * 512 <= size /\
  (34816 <= size -> c <> 0).
Proof.
  unfold geometry_for, VHD_SECTOR_SIZE. intros Hs.
  set (t := if _ <? size / 512 then _ else _).
  assert (0 <= t <= 267382800 /\ t * 512 <= size /\ (34816 <= size -> 68 <= t)) as (Ht1 & Ht2 & Ht3).
  { unfold t. assert (0 <= size / 512) by dlia. assert (size / 512 * 512 <= size) by dlia.
    assert (34816 <= size -> 68 <= size / 512) by (intros; dlia). btests. }
  assert (forall k n (a : Z), 0 < k -> 0 < n -> t < 65536 * n * k -> 0 <= t / k / n <= 65535 /\ t / k / n * n * k <= t)
    as Hq.
  { intros k n _ Hk Hn Hlt. rewrite Z.div_div by lia.
    pose proof (Z.mul_div_le t (k * n) ltac:(nia)). assert (0 <= t / (k * n)) by (apply Z.div_pos; nia).
    assert (t / (k * n) < 65536) by (apply Z.div_lt_upper_bound; nia). nia. }
  assert (forall spt x, spt ∈ [17; 31; 63; 255] -> 1 <= x <= 16 -> t < 65536 * x * spt ->
            (34816 <= size -> x * spt <= t) ->
            (u16 (t / spt / (if x =? 0 then 1 else x)), u8 (if x =? 0 then 1 else x), u8 spt) = (c, h, s) ->
            0 <= c <= 65535 /\ 1 <= h <= 16 /\ s ∈ [17; 31; 63; 255] /\ c * h * s * 512 <= size /\
            (34816 <= size -> c <> 0)) as Hfin.
  { intros spt x Hspt Hx Hlt Hmin. assert (0 < spt <= 255) as Hsb.
    { clear -Hspt. repeat (apply elem_of_cons in Hspt as [->|Hspt]; [lia|]). by apply elem_of_nil in Hspt. }
    rewrite (proj2 (Z.eqb_neq x 0)) by lia. rewrite !u8_id by lia.
    destruct (Hq spt x 0) as [H1 H2]; [lia..|]. rewrite u16_id by lia. intros [= <- <- <-].
    split_and!; auto; try lia. intros Hg. specialize (Hmin Hg).
    rewrite Z.div_div by lia. assert (1 <= t / (spt * x)) by (apply Z.div_le_lower_bound; nia). lia. }
  clear Hq. destruct (Z.leb_spec (65535 * 16 * 63) t) as [Hbig|Hsmall].
  { apply Hfin; [by rewrite !elem_of_cons; auto 6|lia|lia|lia]. }
  set (h0 := u32 ((t / 17 + 1023) / 1024)).
  assert (h0 = (t / 17 + 1023) / 1024 /\ 0 <= h0) as [Eh Hh0].
  { unfold h0. rewrite u32_id by dlia. split; dlia. }
  set (h1 := if h0 <? 4 then 4 else h0).
  assert (h0 <= h1 /\ 4 <= h1 /\ (h1 = 4 \/ h1 = h0)) as (Hh1 & Hh4 & Hhc) by (unfold h1; btests).
  destruct (Z.leb_spec (h1 * 1024) (t / 17)) as [Ha|Ha]; cbn [orb].
  - destruct (Z.leb_spec (16 * 1024) (t / 31)); (apply Hfin; [by rewrite !elem_of_cons; auto 6|lia|dlia|dlia]).
  - destruct (Z.ltb_spec 16 h1) as [Hb|Hb].
    + destruct (Z.leb_spec (16 * 1024) (t / 31)); (apply Hfin; [by rewrite !elem_of_cons; auto 6|lia|dlia|dlia]).
    + rewrite (proj2 (Z.leb_gt (h1 * 1024) (t / 17))) by lia. apply Hfin; [by rewrite !elem_of_cons; auto 6|lia|dlia|].
      intros Hg. specialize (Ht3 Hg). destruct Hhc as [->| ->]; [lia|]. rewrite Eh. dlia.
Qed.

(** ** The footer *)

Lemma footer_sum_range n i s f : 0 <= s <= UINT32_MAX -> 0 <= footer_sum n i s f <= UINT32_MAX.
Proof.
  revert i s. induction n as [|n IH]; intros i s Hs; cbn [footer_sum]; [done|]. apply IH.
  case_match; [done|]. pose proof (u32_range (s + bget f i)). ulia.
Qed.
Lemma footer_checksum_range f : 0 <= footer_checksum f < 2 ^ 32.
Proof. unfold footer_checksum. pose proof (footer_sum_range 512 0 0 f ltac:(ulia)). ulia. Qed.

(** The checksum ignores the four bytes it is stored in. *)
Lemma footer_checksum_splice f v :
  zlen f = 512 -> footer_checksum (splice f 64 (put32be v)) = footer_checksum f.
Proof.
  intros Hf. unfold footer_checksum. f_equal.
  assert (forall n i s, 0 <= i -> footer_sum n i s (splice f 64 (put32be v)) = footer_sum n i s f) as H; [|by apply H].
  induction n as [|n IH]; intros i s Hi; cbn [footer_sum]; [done|].
  rewrite IH by lia. f_equal. destruct ((64 <=? i) && (i <? 68)) eqn:E; [done|].
  by rewrite bget_splice_out by (rewrite ?zlen_put32be; lia).
Qed.

Lemma vhd_timestamp_range now : 0 <= vhd_timestamp_now now < 2 ^ 32.
Proof.
  unfold vhd_timestamp_now. repeat case_match; try ulia. pose proof (u32_range (now - VHD_EPOCH_DELTA)). lia.
Qed.

(** What a reader finds in a footer [build_footer] made. *)
Record footer_of (now size : Z) (f : list Z) : Prop := FooterOf {
  ft_len : zlen f = 512;
  ft_bytes : Forall is_byte f;
  ft_cookie : bytes_eq f 0 (str_bytes "conectix") = true;
  ft_features : be32 f 8 = 2;
  ft_version : be32 f 12 = 0x00010000;
  ft_offset : be64 f 16 = UINT64_MAX;
  ft_original : be64 f 40 = size;
  ft_current : be64 f 48 = size;
  ft_geometry : geometry_for size = (be16 f 56, bget f 58, bget f 59);
  ft_type : be32 f 60 = VHD_TYPE_FIXED;
  ft_checksum : be32 f 64 = footer_checksum f;
}.

Lemma build_footer_spec now size f :
  0 <= size < 2 ^ 64 -> build_footer now size = Some f ->
  size <> 0 /\ size mod 512 = 0 /\ footer_of now size f.
Proof.
  intros Hs. unfold build_footer. case_match eqn:E; [done|]. apply orb_false_iff in E as [E1 E2].
  apply negb_false_iff, Z.eqb_eq in E2. apply Z.eqb_neq in E1. unfold VHD_SECTOR_SIZE in E2.
  destruct (geometry_for size) as [[c h] s] eqn:Eg.
  destruct (geometry_for_bounds size c h s Hs Eg) as (Hc & Hh & Hsec & _).
  assert (0 <= s < 256) as Hs'.
  { clear -Hsec. repeat (apply elem_of_cons in Hsec as [->|Hsec]; [lia|]). by apply elem_of_nil in Hsec. }
  pose proof (vhd_timestamp_range now) as Htm. set (tm := vhd_timestamp_now now) in *. clearbody tm.
  assert (zlen (vhd_make_uuid now size) = 16 /\ Forall is_byte (vhd_make_uuid now size)) as [Hu1 Hu2].
  { unfold vhd_make_uuid. case_match; (split; [apply zlen_uuid_bits, (zlen_xorshift_bytes 16)|];
      apply uuid_bits_bytes, xorshift_bytes_bytes). }
  set (uu := vhd_make_uuid now size) in *. clearbody uu.
  assert (zlen (str_bytes "conectix") = 8 /\ zlen (str_bytes "GUPP") = 4 /\ zlen (str_bytes "Wi2k") = 4)
    as (Hk1 & Hk2 & Hk3) by done.
  pose proof (str_bytes_is_byte "conectix"). pose proof (str_bytes_is_byte "GUPP"). pose proof (str_bytes_is_byte "Wi2k").
  assert (forall b, bytes_eq b 0 (str_bytes "conectix") = bool_decide (sub b 0 8 = str_bytes "conectix")) as Hbe by done.
  set (k1 := str_bytes "conectix") in *. set (k2 := str_bytes "GUPP") in *. set (k3 := str_bytes "Wi2k") in *.
  clearbody k2 k3. cbv zeta. set (f0 := splice _ 84 [0]). intros [= <-]. unfold VHD_FOOTER_SIZE in f0.
  assert (zlen f0 = 512) as Hl0 by (unfold f0; buf_len 512).
  pose proof (footer_checksum_range f0) as Hck.
  split; [done|]. split; [done|]. split.
  - by apply zlen_splice_n.
  - apply splice_bytes; [|apply put32be_bytes]. unfold f0.
    repeat apply splice_bytes; auto using put32be_bytes, put64be_bytes, put16be_bytes, zrep0_bytes;
      repeat constructor; unfold is_byte; lia.
  - fold k1. rewrite Hbe. apply bool_decide_eq_true. unfold f0; buf_field 512; done.
  - unfold f0; buf_field 512; done.
  - unfold f0; buf_field 512; done.
  - unfold f0, UINT64_MAX; buf_field 512; done.
  - unfold f0; buf_field 512; done.
  - unfold f0; buf_field 512; done.
  - rewrite Eg. unfold f0. buf_field 512. done.
  - unfold f0, VHD_TYPE_FIXED; buf_field 512; done.
  - rewrite footer_checksum_splice by done. rewrite be32_splice_in; auto; lia.
Qed.
#[global] Arguments build_footer : simpl never.
#[global] Arguments footer_checksum : simpl never.

Lemma footer_of_valid now size f :
  0 < size < 2 ^ 63 -> size mod 512 = 0 -> footer_of now size f ->
  fixed_footer_valid f (size + 512) = Some size.
Proof.
  intros Hs Hm [F1 F2 F3 F4 F5 F6 F7 F8 F9 F10 F11]. unfold fixed_footer_valid.
  rewrite F3, F5, F6, F8, F10, F11, !Z.eqb_refl. cbn [negb]. unfold VHD_SECTOR_SIZE, VHD_FOOTER_SIZE.
  rewrite Hm, u64_id by lia. rewrite (proj2 (Z.eqb_neq size 0)) by lia. cbn. by rewrite Z.eqb_refl.
Qed.

(** An open fixed VHD: the guest disk, then a footer that is valid for it. *)
Record vhd_ok (s : vdst) : Prop := VhdOk {
  vk_offset : vd_data_offset (vs_disk s) = 0;
  vk_size : 0 < vd_size_bytes (vs_disk s);
  vk_len : hf_len (vs_fp s) = vd_size_bytes (vs_disk s) + 512;
  vk_wf : hf_wf (vs_fp s);
  vk_footer : fixed_footer_valid (bytes_at (hf_at (vs_fp s)) (vd_size_bytes (vs_disk s)) 512)
                (hf_len (vs_fp s)) = Some (vd_size_bytes (vs_disk s));
}.

Lemma vhd_ok_linear s : vhd_ok s -> linear_ok s.
Proof. intros [H1 H2 H3 H4 H5]. split; auto; lia. Qed.

Lemma read_footer_ok f :
  hf_wf f -> 512 <= hf_len f -> read_footer f = (Done (bytes_at (hf_at f) (hf_len f - 512) 512, hf_len f), f).
Proof.
  intros [? ? ?] Hl. unfold read_footer, VHD_FOOTER_SIZE. change (vdisk_host_get_size f) with (Done (hf_len f), f).
  erewrite bind_done by reflexivity. rewrite require_true by lia. rewrite u64_id by ulia.
  erewrite bind_done by (unfold fail_as; rewrite host_read_ok by ulia; reflexivity). done.
Qed.

Lemma fixed_footer_valid_inv f n size :
  Forall is_byte f -> fixed_footer_valid f n = Some size -> 0 < size /\ size mod 512 = 0 /\ n = u64 (size + 512) /\
  (512 <= n -> n = size + 512).
Proof.
  intros HB. unfold fixed_footer_valid, VHD_SECTOR_SIZE, VHD_FOOTER_SIZE.
  pose proof (be64_sum f HB 48). pose proof (be32_range f HB 48). pose proof (be32_range f HB (48 + 4)).
  repeat (case_match; [done|]). intros [= <-]. split_and!; try lia.
  intros Hn. destruct (decide (be64 f 48 + 512 < 2 ^ 64)); [rewrite u64_id in * by lia; lia|].
  assert (u64 (be64 f 48 + 512) = be64 f 48 + 512 - 2 ^ 64) by (symmetry; apply Z.mod_unique with 1; lia). lia.
Qed.

(** [vhd_open] accepts a file exactly when its last 512 bytes are a valid footer
    for its length, and the open disk is in front of it. *)
Lemma vhd_open_spec d f :
  hf_wf f ->
  (exists size, vhd_open (Vdst d f) = (Done tt, Vdst (vhd_layout size (hf_len f) d) f) /\
     vhd_ok (Vdst (vhd_layout size (hf_len f) d) f)) \/
  (vhd_open (Vdst d f) = (Fail (-1), Vdst d f) /\
     (512 <= hf_len f -> fixed_footer_valid (bytes_at (hf_at f) (hf_len f - 512) 512) (hf_len f) = None)).
Proof.
  intros W. pose proof W as [Wl Wc Wb]. unfold vhd_open. destruct (decide (512 <= hf_len f)) as [Hl|Hl].
  - erewrite bind_on_fp by (unfold fail_as; rewrite read_footer_ok by done; reflexivity).
    set (ft := bytes_at _ _ _). assert (Forall is_byte ft) as HB by (apply Forall_bytes_at; auto).
    destruct (fixed_footer_valid ft (hf_len f)) as [size|] eqn:E; [left|right; split; [by rewrite E|done]].
    exists size. split; [by rewrite E|]. destruct (fixed_footer_valid_inv _ _ _ HB E) as (Hs & Hm & Hn & Hlen).
    specialize (Hlen Hl).
    split; simpl; auto. unfold ft in E. by replace size with (hf_len f - 512) at 1 by lia.
  - right. split; [|lia]. apply bind_fail, on_fp_eq. unfold fail_as, read_footer, VHD_FOOTER_SIZE.
    change (vdisk_host_get_size f) with (Done (hf_len f), f). erewrite bind_done by reflexivity.
    by rewrite require_false by lia.
Qed.

Lemma build_footer_total now size : 0 < size -> size mod 512 = 0 -> exists f, build_footer now size = Some f.
Proof.
  intros Hs Hm. unfold build_footer, VHD_SECTOR_SIZE. rewrite Hm, (proj2 (Z.eqb_neq size 0)) by lia. simpl.
  destruct (geometry_for size) as [[c h] s]. eauto.
Qed.

(** Creation on an empty host file: a disk of zeros and its footer. *)
Lemma vhd_create_fixed_ok now size d cap :
  0 < size -> size mod 512 = 0 -> size + 512 <= cap -> cap <= LONG_MAX ->
  exists f ft, build_footer now size = Some ft /\
    vhd_create_fixed now size (Vdst d (hf_empty cap)) = (Done tt, Vdst (vhd_layout size (size + 512) d) f) /\
    hf_wf f /\ hf_len f = size + 512 /\ bytes_at (hf_at f) size 512 = ft /\
    (forall i, 0 <= i < size -> hf_at f i = 0).
Proof.
  intros Hs Hm Hc Hcap. destruct (build_footer_total now size Hs Hm) as [ft Eft].
  destruct (build_footer_spec now size ft ltac:(ulia) Eft) as (_ & _ & F).
  destruct (put_zero_at_ok cap size) as (f1 & E1 & W1 & Hl1 & Hc1 & Hy1 & Hz1); [lia|done|].
  pose proof (frame_store f1 size ft W1 (ft_bytes _ _ _ F)) as F2. rewrite (ft_len _ _ _ F) in F2.
  specialize (F2 ltac:(right; lia)).
  exists (hf_store f1 size ft), ft. split; [done|]. unfold vhd_create_fixed. rewrite Eft. cbn [of_option].
  rewrite bind_ret, u64_id by ulia. erewrite bind_on_fp by exact E1.
  erewrite bind_on_fp by (apply host_write_ok; rewrite ?(ft_len _ _ _ F); ulia).
  erewrite bind_on_fp by (unfold host_flush; rewrite (fr_sync _ _ _ _ F2), Hy1; reflexivity).
  unfold VHD_FOOTER_SIZE. rewrite u64_id by ulia. split_and!; [done|apply F2| | |].
  - rewrite hf_len_store, (ft_len _ _ _ F); lia || (rewrite (ft_len _ _ _ F); lia).
  - apply bytes_at_eq; [apply F|]. intros i Hi. pose proof (ft_len _ _ _ F).
    rewrite hf_at_store, patch_in by lia. f_equal; lia.
  - intros i Hi. rewrite (fr_out _ _ _ _ F2) by lia. apply Hz1. lia.
Qed.

Lemma vhd_created_ok now size d f ft :
  0 < size < 2 ^ 62 -> size mod 512 = 0 -> build_footer now size = Some ft ->
  hf_wf f -> hf_len f = size + 512 -> bytes_at (hf_at f) size 512 = ft ->
  vhd_ok (Vdst (vhd_layout size (size + 512) d) f).
Proof.
  intros Hs Hm Eft W Hl Hb. destruct (build_footer_spec now size ft ltac:(ulia) Eft) as (_ & _ & F).
  split; simpl; auto; [lia|]. rewrite Hb, Hl. apply footer_of_valid with now; auto; lia.
Qed.

(** Guest writes never reach the footer. *)
Lemma vhd_write_spec s off buf :
  vhd_ok s -> Forall is_byte buf -> 0 <= off ->
  (vd_writable (vs_disk s) = true /\ off + zlen buf <= vd_size_bytes (vs_disk s) /\
   exists f', vhd_write off buf s = (Done tt, Vdst (vs_disk s) f') /\ vhd_ok (Vdst (vs_disk s) f') /\
     forall i, 0 <= i -> lin_at (Vdst (vs_disk s) f') i = patch (lin_at s) off buf i) \/
  (vd_writable (vs_disk s) = false \/ vd_size_bytes (vs_disk s) < off + zlen buf) /\
   vhd_write off buf s = (Fail (-1), s).
Proof.
  intros Hs HF Ho. pose proof (zlen_nonneg buf). pose proof (vhd_ok_linear s Hs) as L. unfold vhd_write.
  destruct s as [d f]. rewrite bind_disk. simpl in *.
  destruct (vd_writable d) eqn:Ew; cbn [andb]; [|right; rewrite require_false by done; auto].
  destruct (decide (off + zlen buf <= vd_size_bytes d)).
  - left. split; [done|]. split; [done|]. rewrite require_true by (by apply bounds_ok_true).
    destruct (linear_write_ok _ L off buf) as (f' & E & L' & F & Hl & Ha); auto. simpl in *.
    destruct Hs as [H1 H2 H3 H4 H5]. simpl in *. rewrite H1, Z.add_0_l in *.
    exists f'. split; [done|]. split; [|done]. split; simpl; auto; [lia|apply F|].
    rewrite Hl, <- H5. f_equal. apply bytes_at_ext. intros i Hi. apply (fr_out _ _ _ _ F); lia.
  - right. rewrite require_false by (apply bounds_ok_false; lia). split; [right; lia|done].
Qed.

(** A new image of at least 68 sectors passes its own inspection. *)
Lemma vhd_inspect_created now size f ft :
  34816 <= size < 2 ^ 62 -> size mod 512 = 0 -> build_footer now size = Some ft ->
  hf_wf f -> hf_len f = size + 512 -> bytes_at (hf_at f) size 512 = ft ->
  exists info, vdisk_vhd_inspect f = (Done info, f) /\ vi_structurally_valid info = true /\
    vi_supported info = true /\ vi_logical_size_bytes info = size /\ vi_checks_failed info = 0.
Proof.
  intros Hs Hm Eft W Hl Hb. destruct (build_footer_spec now size ft ltac:(ulia) Eft) as (_ & _ & F).
  unfold vdisk_vhd_inspect. erewrite bind_done by (unfold fail_as; rewrite read_footer_ok by (auto; lia); reflexivity).
  replace (hf_len f - 512) with size by lia. rewrite Hb, Hl.
  destruct F as [F1 F2 F3 F4 F5 F6 F7 F8 F9 F10 F11].
  destruct (geometry_for_bounds size _ _ _ ltac:(lia) F9) as (G1 & G2 & G3 & _ & G4).
  assert (bget ft 59 <> 0).
  { clear -G3. intros E. rewrite E in G3. repeat (apply elem_of_cons in G3 as [?|G3]; [lia|]). by apply elem_of_nil in G3. }
  assert (vhd_checks ft (size + 512) = (9, 0)) as Ek.
  { unfold vhd_checks. rewrite F3, F4, F5, F6, F7, F8, F10, F11, !Z.eqb_refl. unfold VHD_SECTOR_SIZE, VHD_FOOTER_SIZE.
    rewrite check_all_true; [rewrite u64_id by lia; by rewrite Z.eqb_refl|].
    rewrite Hm. specialize (G4 ltac:(lia)). repeat constructor; lia. }
  eexists. split; [reflexivity|]. cbn [vi_structurally_valid vi_supported vi_logical_size_bytes vi_checks_failed].
  rewrite Ek, F8, F10. split_and!; reflexivity.
Qed.

(** ** Create, reopen, write, inspect *)

(** C12: a fixed VHD of any positive whole number of sectors, created in an
    empty host file with room for it, reopens as a disk of that size reading as
    zeros with a valid footer; and if it has at least 68 sectors its own
    inspection reports it structurally valid. *)
Theorem vhd_create_open (now size : Z) (d d2 : vdisk) (cap : Z) :
  0 < size < 2 ^ 62 -> size mod 512 = 0 -> size + 512 <= cap -> cap <= LONG_MAX ->
  exists f d', vhd_create_fixed now size (Vdst d (hf_empty cap)) = (Done tt, Vdst (vhd_layout size (size + 512) d) f) /\
    vhd_open (Vdst d2 f) = (Done tt, Vdst d' f) /\ vhd_ok (Vdst d' f) /\ vd_size_bytes d' = size /\
    (forall o, 0 <= o < size -> lin_at (Vdst d' f) o = 0) /\
    (34816 <= size -> exists info, vdisk_vhd_inspect f = (Done info, f) /\
       vi_structurally_valid info = true /\ vi_logical_size_bytes info = size).
Proof.
  intros Hs Hm Hc Hcap.
  destruct (vhd_create_fixed_ok now size d cap ltac:(lia) Hm Hc Hcap) as (f & ft & Eft & E & W & Hl & Hb & Hz).
  exists f, (vhd_layout size (size + 512) d2). split; [done|].
  pose proof (vhd_created_ok now size d2 f ft Hs Hm Eft W Hl Hb) as Hok.
  split.
  { destruct (vhd_open_spec d2 f W) as [(size' & E' & Hok')|[_ Hno]].
    - pose proof (vk_len _ Hok') as Hl'. simpl in Hl'. assert (size' = size) as -> by lia. by rewrite Hl in E'.
    - exfalso. specialize (Hno ltac:(lia)). pose proof (vk_footer _ Hok) as Hf. simpl in Hf. rewrite Hl in *.
      replace (size + 512 - 512) with size in Hno by lia. congruence. }
  split; [done|]. split; [done|]. split; [intros o Ho; unfold lin_at; simpl; apply Hz; lia|]. intros Hg.
  destruct (vhd_inspect_created now size f ft ltac:(lia) Hm Eft W Hl Hb) as (info & ? & ? & _ & ? & _). eauto.
Qed.
Lemma vhd_create_open_witness :
  exists f info, vdisk_vhd_inspect f = (Done info, f) /\ vi_structurally_valid info = true /\
    vi_logical_size_bytes info = 40960.
Proof.
  destruct (vhd_create_open 1700000000 40960 (Vdisk 0 0 0 0 0 0 0 0 0 true VDISK_FMT_VHD 0 None)
              (Vdisk 0 0 0 0 0 0 0 0 0 true VDISK_FMT_VHD 0 None) 50000 ltac:(lia) ltac:(done) ltac:(lia) ltac:(ulia))
    as (f & d' & _ & _ & _ & _ & _ & H).
  destruct (H ltac:(lia)) as (info & ? & ? & ?). exists f, info. auto.
Defined.

(** The CHS geometry written to a VHD footer fits its fields (16-bit
    cylinders, 4-bit heads, 8-bit sectors: nothing is truncated) and never
    describes more than the disk; it is non-degenerate from 68 sectors on. *)
Theorem vhd_geometry_bounds (size c h s : Z) :
  0 <= size < 2 ^ 64 -> geometry_for size = (c, h, s) ->
  0 <= c <= 65535 /\ 1 <= h <= 16 /\ s ∈ [17; 31; 63; 255] /\ c * h * s * 512 <= size /\ (34816 <= size -> c <> 0).
Proof. apply geometry_for_bounds. Qed.
Lemma vhd_geometry_bounds_witness : exists c h s, geometry_for 1073741824 = (c, h, s) /\ c * h * s * 512 <= 1073741824 /\ c <> 0.
Proof.
  destruct (geometry_for 1073741824) as [[c h] s] eqn:E. exists c, h, s.
  destruct (vhd_geometry_bounds 1073741824 c h s ltac:(lia) E) as (_ & _ & _ & H1 & H2). split_and!; auto. apply H2. lia.
Defined.
