(* ===== verification/Vmdk.v ===== *)
(** * Vmdk: the flat VMDK backend ([lib/vdisk/src/backend_vmdk.c])

    A text descriptor names an extent file that holds the guest disk: parsing
    the descriptor, locating the extent next to it, creating the pair, guest
    I/O on the extent and inspection. *)
From S2P Require Import Prelude Text HostFile Store Vdisk Raw.
From stdpp Require Import gmap.
#[local] Open Scope Z_scope.

(** (directory with its separator, stem) of a path. *)
Definition path_parts (path : list Z) (dsz ssz : Z) : option (list Z * list Z) :=
  let slash1 := strrchr path 47 in
  let slash2 := strrchr path 92 in
  let slash := match slash1, slash2 with
               | Some (a, _), Some (b, _) => Some (if zlen a <? zlen b then b else a)
               | Some (a, _), None => Some a
               | None, Some (b, _) => Some b
               | None, None => None
               end in
  match (match slash with
         | Some a =>
             let dn := zlen a + 1 in
             if dsz <=? dn then None else Some (take (Z.to_nat dn) path, drop (Z.to_nat dn) path)
         | None => if dsz <? 1 then None else Some ([], path)
         end) with
  | None => None
  | Some (dir, base) =>
      let stem := match strrchr base 46 with
                  | Some (s, dot) => if streq dot (str_bytes ".vmdk") then s else base
                  | None => base
                  end in
      if ssz <? zlen stem + 1 then None else Some (dir, stem)
  end.

(** [snprintf(out, outsz, ...)] that treats truncation as failure. *)
Definition snprintf_fit (out : list Z) (outsz : Z) : option (list Z) :=
  if outsz <=? zlen out then None else Some out.

Definition extent_path_for (descriptor extent_name : list Z) (outsz : Z) : option (list Z) :=
  match path_parts descriptor 1024 512 with
  | None => None
  | Some (dir, _) => snprintf_fit (dir ++ extent_name) outsz
  end.

(** (extent name, extent path) *)
Definition make_flat_name (descriptor : list Z) (nsz psz : Z) : option (list Z * list Z) :=
  match path_parts descriptor 1024 512 with
  | None => None
  | Some (dir, stem) =>
      match snprintf_fit (stem ++ str_bytes "-flat.vmdk") nsz with
      | None => None
      | Some name =>
          match snprintf_fit (dir ++ name) psz with
          | None => None
          | Some path => Some (name, path)
          end
      end
  end.

(** ** The [sscanf] of an extent line: sectors, mode, quoted file name *)

(** [%llu]: leading space, a sign, digits; the value saturates as [strtoull]'s. *)
Definition scan_llu (s : list Z) : option (Z * list Z) :=
  let s := skip_while isspace s in
  let '(neg, s) := match s with
                   | c :: r => if c =? 45 then (true, r) else if c =? 43 then (false, r) else (false, s)
                   | [] => (false, s)
                   end in
  let ds := take_while isdigit s in
  match ds with
  | [] => None
  | _ =>
      let v := digits_value 10 ((fun c => c - 48) <$> ds) 0 in
      let v := if UINT64_MAX <? v then UINT64_MAX else if neg then u64 (- v) else v in
      Some (v, skip_while isdigit s)
  end.

(** Up to [n] characters satisfying [f]. *)
Fixpoint scan_run (n : nat) (f : Z -> bool) (s : list Z) : list Z * list Z :=
  match n, s with
  | S n, c :: s' => if f c then let '(a, b) := scan_run n f s' in (c :: a, b) else ([], s)
  | _, _ => ([], s)
  end.

(** (sectors, mode, file) when all three conversions succeed. *)
Definition scan_extent (p : list Z) : option (Z * list Z * list Z) :=
  match after_prefix (str_bytes "RW") p with
  | None => None
  | Some s =>
      match scan_llu (skip_while isspace s) with
      | None => None
      | Some (sec, s) =>
          let '(mode, s) := scan_run 31 (fun c => negb (isspace c)) (skip_while isspace s) in
          match mode with
          | [] => None
          | _ =>
              match skip_while isspace s with
              | q :: s =>
                  if negb (q =? 34) then None else
                  let '(file, _) := scan_run 511 (fun c => negb (c =? 34)) s in
                  match file with [] => None | _ => Some (sec, mode, file) end
              | [] => None
              end
          end
      end
  end.

Definition parse_extent_line (line : list Z) (esz : Z) : option (Z * list Z) :=
  let p := skip_while isspace line in
  if negb (starts_with (str_bytes "RW ") p) then None else
  match scan_extent p with
  | None => None
  | Some (sec, mode, file) =>
      if negb (streq mode (str_bytes "VMFS")) && negb (streq mode (str_bytes "FLAT")) then None
      else if (sec =? 0) || (esz <? zlen file + 1) then None
      else Some (sec, file)
  end.

(** [fgets(line, n + 1, fp)]: the line with its newline, and what follows. *)
Fixpoint fgets (n : nat) (b : list Z) : list Z * list Z :=
  match n, b with
  | S n, c :: b' => if c =? 10 then ([c], b') else let '(l, r) := fgets n b' in (c :: l, r)
  | _, _ => ([], b)
  end.

(** What [read_descriptor] collects: the extent and [createType]. *)
Record descriptor : Type := Descriptor { ds_extent : option (Z * list Z); ds_type : list Z }.

Definition read_line (esz csz : Z) (line : list Z) (d : descriptor) : descriptor :=
  let p := skip_while isspace line in
  let ext := match ds_extent d with
             | Some e => Some e
             | None => if starts_with (str_bytes "RW ") p then parse_extent_line p esz else None
             end in
  let ctype :=
    if starts_with (str_bytes "createType=") p then
      match strchr p 34 with
      | Some (_, q) =>
          match strchr (drop 1 q) 34 with
          | Some (t, _) =>
              if 0 <? zlen t then take (Z.to_nat (if csz <=? zlen t then csz - 1 else zlen t)) t else ds_type d
          | None => ds_type d
          end
      | None => ds_type d
      end
    else ds_type d in
  Descriptor ext ctype.

(** The [while (fgets(...))] loop; each line consumes at least one byte. *)
Fixpoint read_lines (fuel : nat) (esz csz : Z) (b : list Z) (d : descriptor) : option descriptor :=
  match b with
  | [] => Some d
  | _ =>
      match fuel with
      | O => None
      | S fuel => let '(l, r) := fgets 1023 b in read_lines fuel esz csz r (read_line esz csz (cstr l) d)
      end
  end.

(** (sectors, extent name, createType) *)
Definition read_descriptor (esz csz : Z) : comp hostfile (Z * list Z * list Z) := fun f =>
  let b := bytes_at (hf_at f) 0 (hf_len f) in
  match read_lines (length b) esz csz b (Descriptor None []) with
  | None => (NoFuel, f)
  | Some d =>
      match ds_extent d with
      | Some (sectors, extent) => (Done (sectors, extent, ds_type d), f)
      | None => (Fail (-1), f)
      end
  end.

Definition vmdk_magic : list Z := take 20 (str_bytes "# Disk DescriptorFile").

Definition vmdk_probe : comp hostfile bool :=
  let* h := try (vdisk_host_read 0 20) in
  ret (match h with Some h => streq h vmdk_magic | None => false end).

Definition vmdk_type_ok (ctype : list Z) : bool :=
  streq ctype (str_bytes "vmfs") || streq ctype (str_bytes "monolithicFlat").

(** The assignments [vmdk_open] and [vmdk_create] end with. *)
Definition vmdk_layout (size host : Z) (d : vdisk) : vdisk :=
  set_layout size 0 host (vd_block_size d) (vd_block_extra d) (vd_blocks_offset d)
    (vd_blocks_count d) (vd_blocks_allocated d) 1 d.
Definition set_writable (w : bool) (d : vdisk) : vdisk :=
  Vdisk (vd_size_bytes d) (vd_data_offset d) (vd_host_size_bytes d) (vd_block_size d) (vd_block_extra d)
    (vd_blocks_offset d) (vd_blocks_count d) (vd_blocks_allocated d) (vd_image_type d)
    w (vd_format d) (vd_create_flags d) (vd_create_uuid d).

Definition vmdk_open : comp handle unit :=
  let* (sectors, extent_name, ctype) := on_disk (on_fp (read_descriptor 512 64)) in
  require (vmdk_type_ok ctype) (-1) ;;;
  let* h := get in
  let* extent_path := of_option (-1) (extent_path_for (hd_path h) extent_name 1536) in
  let writable := vd_writable (hd_disk h) in
  let opened := if writable then fopen_rbp extent_path (hd_fs h) else fopen_rb extent_path (hd_fs h) in
  let opened_ro := negb opened && writable && fopen_rb extent_path (hd_fs h) in
  set_handle_disk (set_writable (writable && opened)) ;;;
  require (opened || opened_ro) (-1) ;;;
  let host := hf_len (hs_file extent_path (hd_fs h)) in
  require (negb (host <? u64 (sectors * 512))) (-1) ;;;
  set_fp extent_path ;;;
  set_handle_disk (vmdk_layout (u64 (sectors * 512)) host).

Definition size_host_file (size_bytes : Z) : comp hostfile unit :=
  require (negb (size_bytes =? 0)) (-1) ;;;
  vdisk_host_write (u64 (size_bytes - 1)) [0] ;;;
  host_flush.

(** ** Creation *)

Definition VDISK_CREATE_VMDK_FLAT : Z := 0x0100.
Definition VDISK_CREATE_VMDK_LAYOUT_MASK : Z := 0x0f00.

(** The linear congruential generator of the modification UUID. *)
Fixpoint lcg_bytes (n : nat) (seed : Z) : list Z :=
  match n with
  | O => []
  | S n =>
      let seed := u64 (seed * 6364136223846793005 + 1442695040888963407) in
      u8 (Z.shiftr seed 56) :: lcg_bytes n seed
  end.
Definition hex_digit (d : Z) : Z := if d <? 10 then 48 + d else 87 + d.
Definition hex2 (b : Z) : list Z := [hex_digit (b / 16); hex_digit (b mod 16)].
(** Hexadecimal, grouped 4-2-2-2-6. *)
Definition uuid_text (u : list Z) : list Z :=
  let h a n := mjoin (hex2 <$> sub u a n) in
  h 0 4 ++ [45] ++ h 4 2 ++ [45] ++ h 6 2 ++ [45] ++ h 8 2 ++ [45] ++ h 10 6.

Definition nl : list Z := [10].
Definition quoted (s : list Z) : list Z := [34] ++ s ++ [34].
Definition zero_uuid : list Z := str_bytes "00000000-0000-0000-0000-000000000000".
Definition uuid_lines (uuid : option (list Z)) (seed : Z) : list Z :=
  match uuid with
  | None => []
  | Some u =>
      str_bytes "ddb.uuid.image=" ++ quoted (uuid_text u) ++ nl ++
      str_bytes "ddb.uuid.modification=" ++ quoted (uuid_text (uuid_bits (lcg_bytes 16 seed))) ++ nl ++
      str_bytes "ddb.uuid.parent=" ++ quoted zero_uuid ++ nl ++
      str_bytes "ddb.uuid.parentmodification=" ++ quoted zero_uuid ++ nl
  end.

Definition descriptor_text (sectors cyl : Z) (extent_name uuids : list Z) : list Z :=
  str_bytes "# Disk DescriptorFile" ++ nl ++
  str_bytes "version=1" ++ nl ++
  str_bytes "encoding=" ++ quoted (str_bytes "UTF-8") ++ nl ++
  str_bytes "CID=fffffffe" ++ nl ++
  str_bytes "parentCID=ffffffff" ++ nl ++
  str_bytes "createType=" ++ quoted (str_bytes "vmfs") ++ nl ++ nl ++
  str_bytes "# Extent description" ++ nl ++
  str_bytes "RW " ++ print_dec sectors ++ str_bytes " VMFS " ++ quoted extent_name ++ nl ++ nl ++
  str_bytes "# The Disk Data Base" ++ nl ++
  str_bytes "#DDB" ++ nl ++
  str_bytes "ddb.adapterType = " ++ quoted (str_bytes "lsilogic") ++ nl ++
  str_bytes "ddb.geometry.cylinders = " ++ quoted (print_dec cyl) ++ nl ++
  str_bytes "ddb.geometry.heads = " ++ quoted (str_bytes "255") ++ nl ++
  str_bytes "ddb.geometry.sectors = " ++ quoted (str_bytes "63") ++ nl ++
  uuids.

Definition vmdk_create (seed size_bytes : Z) : comp handle unit :=
  let* h := get in
  let d := hd_disk h in
  require (Z.land (vd_create_flags d) VDISK_CREATE_VMDK_LAYOUT_MASK =? VDISK_CREATE_VMDK_FLAT) (-1) ;;;
  let size_bytes := if negb (size_bytes mod 512 =? 0)
                    then u64 (size_bytes + 511) / 512 * 512 else size_bytes in
  let sectors := size_bytes / 512 in
  let* (extent_name, extent_path) := of_option (-1) (make_flat_name (hd_path h) 512 1536) in
  let cyl := u32 (sectors / (255 * 63)) in
  let cyl := if cyl =? 0 then 1 else cyl in
  let uuids := uuid_lines (vd_create_uuid d) seed in
  require (zlen uuids <? 320) (-1) ;;;
  on_disk (on_fp (vdisk_host_write 0 (descriptor_text sectors cyl extent_name uuids))) ;;;
  on_disk (on_fp host_flush) ;;;
  let* h := get in
  let* fs := of_option (-1) (fopen_wbp extent_path (hd_fs h)) in
  let '(o, ef) := size_host_file size_bytes (hs_file extent_path fs) in
  set_fs (hs_set extent_path ef fs) ;;;
  match o with
  | Done _ =>
      set_fp extent_path ;;;
      set_handle_disk (vmdk_layout size_bytes size_bytes)
  | _ =>
      set_fs (host_remove extent_path (hs_set extent_path ef fs)) ;;; fail (-1)
  end.

Definition vmdk_read (off n : Z) : comp vdst (list Z) :=
  let* d := disk in
  require (bounds_ok d off n) (-1) ;;;
  on_fp (vdisk_host_read off n).

Definition vmdk_write (off : Z) (b : list Z) : comp vdst unit :=
  let* d := disk in
  require (vd_writable d && bounds_ok d off (zlen b)) (-1) ;;;
  on_fp (vdisk_host_write off b).

Definition vmdk_flush : comp vdst unit := on_fp host_flush.

(** The report: [passed] and [failed] checks, [valid], on the extent found. *)
Definition vmdk_report (host size : Z) (passed failed : Z) (supported valid : bool) (variant : string) (type : Z) : vdisk_info :=
  VdiskInfo VDISK_FMT_VMDK host size 0 0 type 512 0 0 0 0 0 0 0 passed failed supported valid variant.

Definition vdisk_vmdk_inspect (path : list Z) (host_size : Z) (fs : hostfs) (f : hostfile) : outcome vdisk_info :=
  match read_descriptor 512 64 f with
  | (Done (sectors, extent_name, ctype), _) =>
      let size := u64 (sectors * 512) in
      if negb (vmdk_type_ok ctype) then
        Done (vmdk_report host_size size 1 0 false false
                (String.string_of_list_ascii ((fun c => ascii_of_N (Z.to_N c)) <$>
                   match ctype with [] => str_bytes "descriptor" | _ => take 31 ctype end)) 1)
      else
        match extent_path_for path extent_name 1536 with
        | None => Fail (-1)
        | Some extent_path =>
            if negb (fopen_rb extent_path fs)
            then Done (vmdk_report host_size size 0 1 true false "flat/external" 1)
            else
              let esz := hf_len (hs_file extent_path fs) in
              if size <=? esz then Done (vmdk_report host_size size 3 0 true true "flat/external" 1)
              else Done (vmdk_report host_size size 0 1 true false "flat/external" 1)
        end
  | (Fail rc, _) => Fail (-1)
  | (NoFuel, _) => NoFuel
  end.

(** ** Reading lines *)

(** [d'] is what the loop collects from the lines of [b], starting with [d]. *)
Inductive lines_read (esz csz : Z) : list Z -> descriptor -> descriptor -> Prop :=
| lines_nil d : lines_read esz csz [] d d
| lines_cons l r d d' :
    10 ∉ l -> (length l < 1023)%nat ->
    lines_read esz csz r (read_line esz csz (cstr (l ++ [10])) d) d' ->
    lines_read esz csz (l ++ 10 :: r) d d'.

Lemma fgets_line n l r : 10 ∉ l -> (length l < n)%nat -> fgets n (l ++ 10 :: r) = (l ++ [10], r).
Proof.
  revert n. induction l as [|c l IH]; intros n Hl Hn; (destruct n as [|n]; [simpl in Hn; lia|]); simpl.
  - done.
  - apply not_elem_of_cons in Hl as [Hc Hl]. rewrite (proj2 (Z.eqb_neq c 10)) by done.
    rewrite IH; auto. simpl in Hn. lia.
Qed.

Lemma lines_read_ok esz csz b d d' fuel :
  lines_read esz csz b d d' -> (length b <= fuel)%nat -> read_lines fuel esz csz b d = Some d'.
Proof.
  intros H. revert fuel. induction H as [d|l r d d' Hl Hn H IH]; intros fuel Hf; [by destruct fuel|].
  rewrite length_app in Hf. simpl in Hf. destruct fuel as [|fuel]; [lia|].
  cbn [read_lines]. destruct (l ++ 10 :: r) as [|c t] eqn:E; [by destruct l|]. rewrite <- E.
  rewrite fgets_line by done. apply IH. lia.
Qed.

(** Each line is read in full, so the loop always terminates within its fuel. *)
Lemma fgets_le n b l r : fgets n b = (l, r) -> (length r <= length b)%nat.
Proof.
  revert b l r. induction n as [|n IH]; intros [|c b] l r; simpl; try (intros [= <- <-]; simpl; lia).
  case_match; [intros [= <- <-]; simpl; lia|]. destruct (fgets n b) as [l' r'] eqn:E. intros [= <- <-].
  apply IH in E. lia.
Qed.
Lemma fgets_shorter n b l r : b <> [] -> fgets (S n) b = (l, r) -> (length r < length b)%nat.
Proof.
  destruct b as [|c b]; [done|]. intros _. simpl. case_match; [intros [= <- <-]; simpl; lia|].
  destruct (fgets n b) as [l' r'] eqn:E. intros [= <- <-]. apply fgets_le in E. lia.
Qed.
Lemma read_lines_total esz csz fuel b d : (length b <= fuel)%nat -> exists d', read_lines fuel esz csz b d = Some d'.
Proof.
  revert b d. induction fuel as [|fuel IH]; intros b d Hf; destruct b as [|c b]; try (by eexists).
  - simpl in Hf. lia.
  - cbn [read_lines]. change 1023%nat with (S 1022). destruct (fgets (S 1022) (c :: b)) as [l r] eqn:E.
    apply fgets_shorter in E; [|done]. apply IH. simpl in *. lia.
Qed.


Lemma skip_while_stop f c s : f c = false -> skip_while f (c :: s) = c :: s.
Proof. intros H. simpl. by rewrite H. Qed.
Lemma starts_with_ne x t c u : c <> x -> starts_with (x :: t) (c :: u) = false.
Proof.
  intros H. unfold starts_with. simpl. rewrite (proj2 (Z.eqb_neq c x)) by done.
  by rewrite bool_decide_eq_false_2 by (by intros [? ?]).
Qed.
(** A line that starts with neither white space, ['R'] nor ['c'] adds nothing. *)
Lemma read_line_skip esz csz c l d :
  isspace c = false -> c <> 82 -> c <> 99 -> c <> 0 -> read_line esz csz (cstr (c :: l)) d = d.
Proof.
  intros Hs HR Hc H0. change (cstr (c :: l)) with (if c =? 0 then [] else c :: cstr l).
  rewrite (proj2 (Z.eqb_neq c 0)) by done. unfold read_line. rewrite skip_while_stop by done.
  change (str_bytes "RW ") with (82 :: str_bytes "W ").
  change (str_bytes "createType=") with (99 :: str_bytes "reateType=").
  rewrite !starts_with_ne by done. by destruct d as [[e|] t].
Qed.
Lemma lines_skip esz csz c l r d d' :
  isspace c = false -> c <> 82 -> c <> 99 -> c <> 0 -> 10 ∉ (c :: l) -> (length l < 1022)%nat ->
  lines_read esz csz r d d' -> lines_read esz csz ((c :: l) ++ 10 :: r) d d'.
Proof.
  intros. apply lines_cons; [done|simpl; lia|]. change ((c :: l) ++ [10]) with (c :: l ++ [10]).
  by rewrite read_line_skip.
Qed.
Lemma lines_empty esz csz r d d' : lines_read esz csz r d d' -> lines_read esz csz (10 :: r) d d'.
Proof.
  intros. apply (lines_cons esz csz []); [apply not_elem_of_nil|simpl; lia|]. simpl.
  by destruct d as [[e|] t].
Qed.

(** ** The extent line *)

Lemma scan_run_all n f l s :
  Forall (fun c => f c = true) l -> (length l <= n)%nat ->
  match s with [] => True | c :: _ => f c = false end -> scan_run n f (l ++ s) = (l, s).
Proof.
  intros HF. revert n. induction HF as [|c l Hc _ IH]; intros n Hn Hs; simpl.
  - destruct n, s as [|c s]; simpl; try done. by rewrite Hs.
  - destruct n as [|n]; [simpl in Hn; lia|]. simpl. rewrite Hc, IH; auto. simpl in Hn. lia.
Qed.

Lemma scan_llu_print n s :
  0 <= n <= UINT64_MAX -> match s with [] => True | c :: _ => isdigit c = false end ->
  scan_llu (print_dec n ++ s) = Some (n, s).
Proof.
  intros Hn Hs. destruct (print_dec_digits n) as [HF Hne]; [lia|]. unfold scan_llu.
  destruct (print_dec n) as [|c t] eqn:E; [done|].
  assert (isdigit c = true) as Hc by (by inversion HF). unfold isdigit in Hc.
  change ((c :: t) ++ s) with (c :: t ++ s). rewrite skip_while_stop by (unfold isspace; lia).
  rewrite (proj2 (Z.eqb_neq c 45)), (proj2 (Z.eqb_neq c 43)) by lia.
  change (c :: t ++ s) with ((c :: t) ++ s). rewrite take_while_app, skip_while_app by done.
  rewrite <- E. unfold print_dec. rewrite <- list_fmap_compose.
  rewrite (list_fmap_ext (_ ∘ _) id) by (intros ? ? _; unfold compose; simpl; lia). rewrite list_fmap_id.
  destruct (digits_spec 10 n) as (_ & _ & ->); [lia..|]. by rewrite (proj2 (Z.ltb_ge _ _)) by lia.
Qed.

Definition name_ok (name : list Z) : Prop :=
  name <> [] /\ zlen name <= 511 /\ Forall (fun c => c <> 0 /\ c <> 10 /\ c <> 34) name.

Lemma scan_extent_ok sectors name :
  0 <= sectors <= UINT64_MAX -> name_ok name ->
  scan_extent (str_bytes "RW " ++ print_dec sectors ++ str_bytes " VMFS " ++ quoted name ++ [10]) =
    Some (sectors, str_bytes "VMFS", name).
Proof.
  intros Hs (Hne & Hl & HF). unfold scan_extent.
  change (str_bytes "RW " ++ ?x) with (str_bytes "RW" ++ 32 :: x). rewrite after_prefix_app.
  destruct (print_dec_digits sectors) as [HD HDne]; [lia|].
  assert (skip_while isspace (32 :: print_dec sectors ++ str_bytes " VMFS " ++ quoted name ++ [10]) =
          print_dec sectors ++ str_bytes " VMFS " ++ quoted name ++ [10]) as ->.
  { simpl. destruct (print_dec sectors) as [|c t]; [done|]. apply skip_while_stop.
    assert (isdigit c = true) as Hc by (by inversion HD). unfold isdigit in Hc. unfold isspace. lia. }
  rewrite scan_llu_print by done.
  change (str_bytes " VMFS " ++ ?x) with (32 :: str_bytes "VMFS" ++ 32 :: x).
  change (skip_while isspace (32 :: str_bytes "VMFS" ++ ?x)) with (str_bytes "VMFS" ++ x).
  rewrite scan_run_all by (repeat constructor; done || (simpl; lia)).
  change (skip_while isspace (32 :: quoted name ++ [10])) with (34 :: (name ++ [34]) ++ [10]).
  cbn [str_bytes String.list_ascii_of_string fmap list_fmap]. rewrite <- app_assoc. cbn [Z.eqb Pos.eqb negb app].
  rewrite scan_run_all; [by destruct name| | |done].
  - eapply Forall_impl; [exact HF|]. intros c (? & ? & ?). cbn beta. lia.
  - unfold zlen in Hl. lia.
Qed.

Lemma parse_extent_line_ok sectors name :
  0 < sectors <= UINT64_MAX -> name_ok name ->
  parse_extent_line (str_bytes "RW " ++ print_dec sectors ++ str_bytes " VMFS " ++ quoted name ++ [10]) 512 =
    Some (sectors, name).
Proof.
  intros Hs Hn. unfold parse_extent_line.
  assert (forall x, skip_while isspace (str_bytes "RW " ++ x) = str_bytes "RW " ++ x) as -> by done.
  cbv zeta. unfold starts_with. rewrite after_prefix_app, bool_decide_eq_true_2 by eauto. cbn [negb].
  rewrite scan_extent_ok by (auto; lia). destruct Hn as (_ & Hl & _).
  rewrite (proj2 (Z.eqb_neq sectors 0)), (proj2 (Z.ltb_ge _ _)) by lia. done.
Qed.

(** Lines of the descriptor that carry no information for the parser. *)
Definition plain_line (l : list Z) : bool :=
  match l with
  | [] => false
  | c :: t => negb (isspace c) && negb (c =? 82) && negb (c =? 99) && negb (c =? 0) &&
              forallb (fun x => negb (x =? 10)) l && (Nat.ltb (length l) 1023)
  end.
Lemma lines_plain esz csz l r d d' :
  plain_line l = true -> lines_read esz csz r d d' -> lines_read esz csz (l ++ nl ++ r) d d'.
Proof.
  destruct l as [|c t]; [done|]. unfold plain_line. intros H Hr.
  apply andb_true_iff in H as [H Hlen]. apply andb_true_iff in H as [H Hnl].
  apply lines_skip; auto; try lia.
  - destruct (isspace c); [simpl in H; discriminate|done].
  - intros Hin. rewrite forallb_forall in Hnl. apply list_elem_of_In in Hin. specialize (Hnl _ Hin). done.
  - apply Nat.ltb_lt in Hlen. simpl in Hlen. lia.
Qed.
Lemma plain_line_app l k :
  plain_line l = true -> Forall (fun x => x <> 10) k -> (length l + length k < 1023)%nat -> plain_line (l ++ k) = true.
Proof.
  destruct l as [|c t]; [done|]. unfold plain_line. intros H HF Hlen.
  apply andb_true_iff in H as [H _]. apply andb_true_iff in H as [H Hnl].
  change ((c :: t) ++ k) with (c :: t ++ k). cbv iota. rewrite H. cbn [andb].
  apply andb_true_iff. split; [|apply Nat.ltb_lt; simpl in *; rewrite length_app; lia].
  change (c :: t ++ k) with ((c :: t) ++ k). rewrite forallb_app, Hnl. simpl. apply forallb_forall.
  intros x Hx. apply list_elem_of_In in Hx. rewrite Forall_forall in HF. specialize (HF x Hx). lia.
Qed.

Lemma Forall_ne_not_in (x : Z) l : Forall (fun y => y <> x) l -> x ∉ l.
Proof. intros H Hin. rewrite Forall_forall in H. by apply (H x). Qed.
Lemma print_dec_ne n x : 0 <= n -> x < 48 \/ 57 < x -> Forall (fun y => y <> x) (print_dec n).
Proof.
  intros Hn Hx. destruct (print_dec_digits n Hn) as [HF _]. eapply Forall_impl; [exact HF|].
  intros c Hc. unfold isdigit in Hc. cbn beta. lia.
Qed.
Lemma length_digits_fuel fuel b n acc : (length (digits_aux fuel b n acc) <= fuel + length acc)%nat.
Proof.
  revert n acc. induction fuel as [|fuel IH]; intros n acc; cbn [digits_aux]; [lia|].
  case_match; [simpl; lia|]. etransitivity; [apply IH|]. simpl. lia.
Qed.
Lemma length_print_dec n : 0 <= n < 2 ^ 64 -> (length (print_dec n) <= 64)%nat.
Proof.
  intros Hn. unfold print_dec, digits. rewrite length_fmap. etransitivity; [apply length_digits_fuel|].
  simpl. assert (Z.log2 n < 64); [|lia]. destruct (decide (n = 0)) as [->|]; [done|]. apply Z.log2_lt_pow2; lia.
Qed.

Definition extent_line (sectors : Z) (name : list Z) : list Z :=
  str_bytes "RW " ++ print_dec sectors ++ str_bytes " VMFS " ++ quoted name.
Lemma extent_line_ne x sectors name :
  x = 0 \/ x = 10 -> 0 <= sectors -> name_ok name -> x ∉ extent_line sectors name.
Proof.
  intros Hx Hs (_ & _ & HF). apply Forall_ne_not_in. unfold extent_line, quoted.
  repeat apply Forall_app_2; try (by apply print_dec_ne; lia); try (destruct Hx as [-> | ->]; decide_now).
  eapply Forall_impl; [exact HF|]. intros c Hc. cbn beta in *. lia.
Qed.

(** The extent line of a descriptor without an extent so far. *)
Lemma lines_extent sectors name r d' :
  0 < sectors <= UINT64_MAX -> name_ok name ->
  lines_read 512 64 r (Descriptor (Some (sectors, name)) (str_bytes "vmfs")) d' ->
  lines_read 512 64 (extent_line sectors name ++ 10 :: r) (Descriptor None (str_bytes "vmfs")) d'.
Proof.
  intros Hs Hn Hr. pose proof Hn as (_ & Hl & HF). apply lines_cons.
  - apply extent_line_ne; auto; lia.
  - pose proof (length_print_dec sectors ltac:(ulia)). unfold extent_line, quoted, zlen in *.
    rewrite !length_app. simpl. lia.
  - rewrite cstr_id by (intros [Hin|Hin%list_elem_of_singleton]%elem_of_app; [revert Hin; apply extent_line_ne; auto; lia|done]).
    unfold extent_line. rewrite <- !app_assoc.
    unfold read_line. cbn [ds_extent ds_type].
    assert (forall x, skip_while isspace (str_bytes "RW " ++ x) = str_bytes "RW " ++ x) as -> by done.
    rewrite parse_extent_line_ok by done.
    assert (forall x, starts_with (str_bytes "RW ") (str_bytes "RW " ++ x) = true) as ->.
    { intros. unfold starts_with. rewrite after_prefix_app. by apply bool_decide_eq_true_2. }
    change (str_bytes "RW " ++ ?x) with (82 :: 87 :: 32 :: x).
    change (str_bytes "createType=") with (99 :: str_bytes "reateType=").
    rewrite starts_with_ne by done. done.
Qed.

(** What the descriptor writer emits, the descriptor reader recovers. *)
Lemma descriptor_text_read sectors cyl name uuids :
  0 < sectors <= UINT64_MAX -> 0 <= cyl < 2 ^ 32 -> name_ok name ->
  (forall d, lines_read 512 64 uuids d d) ->
  lines_read 512 64 (descriptor_text sectors cyl name uuids) (Descriptor None [])
    (Descriptor (Some (sectors, name)) (str_bytes "vmfs")).
Proof.
  intros Hs Hc Hn Hu. unfold descriptor_text.
  apply lines_plain; [done|]. apply lines_plain; [done|].
  rewrite (app_assoc _ (quoted _)). apply lines_plain; [done|]. apply lines_plain; [done|]. apply lines_plain; [done|].
  rewrite (app_assoc (str_bytes "createType=")). apply (lines_cons 512 64 (str_bytes "createType=" ++ quoted (str_bytes "vmfs"))).
  { apply Forall_ne_not_in. decide_now. } { simpl. lia. }
  change (read_line 512 64 _ _) with (Descriptor None (str_bytes "vmfs")).
  apply lines_empty. apply lines_plain; [done|].
  replace (str_bytes "RW " ++ _) with (extent_line sectors name ++ nl ++ nl ++
    str_bytes "# The Disk Data Base" ++ nl ++ str_bytes "#DDB" ++ nl ++
    str_bytes "ddb.adapterType = " ++ quoted (str_bytes "lsilogic") ++ nl ++
    (str_bytes "ddb.geometry.cylinders = " ++ quoted (print_dec cyl)) ++ nl ++
    (str_bytes "ddb.geometry.heads = " ++ quoted (str_bytes "255")) ++ nl ++
    (str_bytes "ddb.geometry.sectors = " ++ quoted (str_bytes "63")) ++ nl ++ uuids).
  2: { unfold extent_line. by rewrite <- !app_assoc. }
  apply lines_extent; [done|done|]. apply lines_empty.
  apply lines_plain; [done|]. apply lines_plain; [done|].
  rewrite (app_assoc _ (quoted (str_bytes "lsilogic"))). apply lines_plain; [done|].
  apply lines_plain.
  { apply plain_line_app; [done| |].
    - unfold quoted. repeat apply Forall_app_2; [decide_now|apply print_dec_ne; lia|decide_now].
    - pose proof (length_print_dec cyl ltac:(lia)). unfold quoted. rewrite !length_app. simpl. lia. }
  apply lines_plain; [done|]. apply lines_plain; [done|]. apply Hu.
Qed.

(** ** Names *)

Lemma path_parts_spec path dsz ssz dir stem :
  path_parts path dsz ssz = Some (dir, stem) ->
  exists ext, path = dir ++ stem ++ ext /\ (ext = [] \/ ext = str_bytes ".vmdk") /\ zlen stem + 1 <= ssz.
Proof.
  unfold path_parts. set (slash := match strrchr path 47 with Some _ => _ | None => _ end).
  assert (forall base d, path = d ++ base ->
    (let stem := match strrchr base 46 with
                 | Some (s, dot) => if streq dot (str_bytes ".vmdk") then s else base | None => base end in
     if ssz <? zlen stem + 1 then None else Some (d, stem)) = Some (dir, stem) ->
    exists ext, path = dir ++ stem ++ ext /\ (ext = [] \/ ext = str_bytes ".vmdk") /\ zlen stem + 1 <= ssz) as H.
  { intros base d Hp. cbv zeta. destruct (strrchr base 46) as [[s dot]|] eqn:E.
    - unfold streq. case_bool_decide as Hd; case_match; try done; intros [= <- <-].
      + apply strrchr_inv in E as (r & _ & Hb & _). exists (str_bytes ".vmdk"). subst. split_and!; auto; lia.
      + exists []. rewrite app_nil_r. split_and!; auto; lia.
    - case_match; [done|]. intros [= <- <-]. exists []. rewrite app_nil_r. split_and!; auto; lia. }
  destruct slash as [a|].
  - destruct (dsz <=? zlen a + 1); [done|]. apply H. symmetry. apply take_drop.
  - destruct (dsz <? 1); [done|]. by apply H.
Qed.

Lemma make_flat_name_spec path name ep :
  make_flat_name path 512 1536 = Some (name, ep) ->
  extent_path_for path name 1536 = Some ep /\ ep <> path /\ zlen name <= 511 /\
  exists stem ext dir, name = stem ++ str_bytes "-flat.vmdk" /\ path = dir ++ stem ++ ext.
Proof.
  unfold make_flat_name, extent_path_for, snprintf_fit.
  destruct (path_parts path 1024 512) as [[dir stem]|] eqn:E; [|done].
  destruct (512 <=? _) eqn:E1; [done|]. destruct (1536 <=? _) eqn:E2; [done|]. intros [= <- <-].
  rewrite E2. split; [done|].
  apply path_parts_spec in E as (ext & Hp & He & Hl). split_and!; [|lia|eauto 6].
  intros Heq. apply (f_equal (length (A := Z))) in Heq. rewrite Hp, !length_app in Heq.
  destruct He as [-> | ->]; simpl in Heq; lia.
Qed.

Definition path_ok (path : list Z) : Prop := Forall (fun c => c <> 0 /\ c <> 10 /\ c <> 34) path.
Lemma make_flat_name_ok path name ep :
  path_ok path -> make_flat_name path 512 1536 = Some (name, ep) -> name_ok name.
Proof.
  intros Hp H. apply make_flat_name_spec in H as (_ & _ & Hl & stem & ext & dir & -> & ->).
  unfold path_ok in Hp. rewrite !Forall_app in Hp. destruct Hp as (_ & Hs & _). split_and!.
  - intros [_ E]%app_nil. discriminate E.
  - done.
  - apply Forall_app_2; [done|decide_now].
Qed.

(** ** The UUID lines *)
Lemma hex2_ne b : 0 <= b < 256 -> Forall (fun y => y <> 10) (hex2 b).
Proof.
  intros Hb. unfold hex2, hex_digit.
  assert (0 <= b / 16 < 16) by dlia. assert (0 <= b mod 16 < 16) by dlia.
  repeat constructor; case_match; lia.
Qed.
Lemma hex_run_ne u : Forall is_byte u ->
  Forall (fun y => y <> 10) (mjoin (hex2 <$> u)) /\ length (mjoin (hex2 <$> u)) = (2 * length u)%nat.
Proof.
  induction 1 as [|b u Hb _ [IH1 IH2]]; [done|].
  change (mjoin (hex2 <$> b :: u)) with (hex2 b ++ mjoin (hex2 <$> u)). split.
  - apply Forall_app_2; [by apply hex2_ne|done].
  - rewrite length_app, IH2. simpl. lia.
Qed.
Lemma uuid_text_ne u : Forall is_byte u -> Forall (fun y => y <> 10) (uuid_text u) /\ (length (uuid_text u) <= 36)%nat.
Proof.
  intros Hu. unfold uuid_text.
  assert (forall a n, Forall (fun y => y <> 10) (mjoin (hex2 <$> sub u a n)) /\
            (length (mjoin (hex2 <$> sub u a n)) <= 2 * Z.to_nat n)%nat) as H.
  { intros a n. destruct (hex_run_ne (sub u a n)) as [H1 H2].
    - unfold sub. by apply Forall_take, Forall_drop.
    - split; [done|]. rewrite H2. unfold sub. rewrite length_take. lia. }
  destruct (H 0 4), (H 4 2), (H 6 2), (H 8 2), (H 10 6).
  split; [repeat apply Forall_app_2; try done; decide_now|]. rewrite !length_app. simpl in *. lia.
Qed.
Lemma lcg_bytes_bytes n s : Forall is_byte (lcg_bytes n s).
Proof. revert s. induction n as [|n IH]; intros; simpl; constructor; auto. apply u8_range. Qed.

Lemma uuid_lines_read uuid seed d :
  match uuid with Some u => Forall is_byte u | None => True end -> lines_read 512 64 (uuid_lines uuid seed) d d.
Proof.
  intros Hu. destruct uuid as [u|]; [|constructor]. unfold uuid_lines.
  assert (forall t v r, plain_line (str_bytes t) = true -> (String.length t < 100)%nat ->
            (length (str_bytes t) = String.length t)%nat -> Forall is_byte v ->
            lines_read 512 64 r d d -> lines_read 512 64 (str_bytes t ++ quoted (uuid_text v) ++ nl ++ r) d d) as H.
  { intros t v r Ht Hlt Hlen Hv Hr. rewrite (app_assoc _ (quoted _)). apply lines_plain; [|done].
    destruct (uuid_text_ne v Hv). apply plain_line_app; [done| |].
    - unfold quoted. apply Forall_app_2; [decide_now|]. apply Forall_app_2; [done|decide_now].
    - unfold quoted. rewrite !length_app, Hlen. simpl. lia. }
  apply H; [done|simpl; lia|done|done|].
  apply H; [done|simpl; lia|done|apply uuid_bits_bytes, lcg_bytes_bytes|].
  rewrite (app_assoc (str_bytes "ddb.uuid.parent=")). apply lines_plain; [done|].
  rewrite <- (app_nil_r nl). rewrite (app_assoc (str_bytes "ddb.uuid.parentmodification=")).
  apply lines_plain; [done|]. constructor.
Qed.

(** ** Creating and reopening *)

Lemma Forall_byte_print_dec n : 0 <= n -> Forall is_byte (print_dec n).
Proof.
  intros Hn. destruct (print_dec_digits n Hn) as [HF _]. eapply Forall_impl; [exact HF|].
  intros c Hc. unfold isdigit in Hc. unfold is_byte. lia.
Qed.
Lemma hex_bytes u : Forall is_byte u -> Forall is_byte (mjoin (hex2 <$> u)).
Proof.
  induction 1 as [|b u Hb _ IH]; [constructor|].
  change (mjoin (hex2 <$> b :: u)) with (hex2 b ++ mjoin (hex2 <$> u)). apply Forall_app_2; [|done].
  unfold is_byte in Hb. assert (0 <= b / 16 < 16) by dlia. assert (0 <= b mod 16 < 16) by dlia.
  unfold hex2, hex_digit. repeat constructor; case_match; lia.
Qed.
Lemma uuid_text_bytes u : Forall is_byte u -> Forall is_byte (uuid_text u).
Proof.
  intros Hu. unfold uuid_text.
  assert (forall a n, Forall is_byte (mjoin (hex2 <$> sub u a n))) as H.
  { intros. apply hex_bytes. unfold sub. by apply Forall_take, Forall_drop. }
  repeat (apply Forall_app_2; [first [apply H|decide_now]|]). apply H.
Qed.
Ltac text_bytes :=
  rewrite ?Forall_app; split_and?;
  try match goal with
  | |- Forall _ (str_bytes _) => apply str_bytes_is_byte
  | |- Forall _ zero_uuid => apply str_bytes_is_byte
  | |- Forall _ nl => decide_now
  | |- Forall _ [34] => decide_now
  | |- Forall _ (print_dec _) => by apply Forall_byte_print_dec
  end.
Lemma uuid_lines_bytes uuid seed :
  match uuid with Some u => Forall is_byte u | None => True end -> Forall is_byte (uuid_lines uuid seed).
Proof.
  intros Hu. destruct uuid as [u|]; [|constructor]. unfold uuid_lines, quoted.
  text_bytes.
  - by apply uuid_text_bytes.
  - apply uuid_text_bytes, uuid_bits_bytes, lcg_bytes_bytes.
Qed.
Lemma descriptor_text_bytes sectors cyl name uuids :
  0 <= sectors -> 0 <= cyl -> Forall is_byte name -> Forall is_byte uuids ->
  Forall is_byte (descriptor_text sectors cyl name uuids).
Proof.
  intros. unfold descriptor_text, quoted.
  text_bytes; assumption.
Qed.

(** A file that holds exactly [b]. *)
Lemma read_descriptor_ok f b sectors name ctype :
  bytes_at (hf_at f) 0 (hf_len f) = b ->
  lines_read 512 64 b (Descriptor None []) (Descriptor (Some (sectors, name)) ctype) ->
  read_descriptor 512 64 f = (Done (sectors, name, ctype), f).
Proof.
  intros Hb Hr. unfold read_descriptor. rewrite Hb. by erewrite lines_read_ok by (eauto; lia).
Qed.

Lemma on_disk_fp {A} (c : comp hostfile A) h n o f' :
  hs_nodes (hd_fs h) !! hd_fp h = Some n -> c (hn_file n) = (o, f') ->
  on_disk (on_fp c) h = (o, Handle (hs_set (hd_fp h) f' (hd_fs h)) (hd_disk h) (hd_path h) (hd_fp h)).
Proof.
  intros Hn E. unfold on_disk, on_fp, zoom. simpl. unfold hs_file. rewrite Hn. simpl. by rewrite E.
Qed.

Lemma size_host_file_ok cap size :
  0 < size <= cap -> cap <= LONG_MAX ->
  exists f, size_host_file size (hf_empty cap) = (Done tt, f) /\ hf_wf f /\ hf_len f = size /\
    (forall i, 0 <= i -> hf_at f i = 0).
Proof.
  intros Hs Hc. destruct (put_zero_at_ok cap size Hs Hc) as (f & E & W & Hl & _ & Hy & Hz).
  exists f. unfold size_host_file. rewrite require_true by lia. rewrite u64_id by ulia.
  unfold put_zero_at in E. erewrite bind_done by exact E. unfold host_flush. rewrite Hy. auto.
Qed.

(** Rounding up to whole sectors. *)
Definition vmdk_round (size : Z) : Z := if negb (size mod 512 =? 0) then u64 (size + 511) / 512 * 512 else size.
Lemma vmdk_round_spec size : 0 < size <= LONG_MAX - 511 ->
  size <= vmdk_round size < size + 512 /\ vmdk_round size mod 512 = 0 /\ vmdk_round size / 512 * 512 = vmdk_round size.
Proof.
  intros Hs. unfold vmdk_round. destruct (Z.eqb_spec (size mod 512) 0); cbn [negb].
  - split_and!; try lia; dlia.
  - rewrite u64_id by ulia. split_and!; try (rewrite Z_mod_mult; lia); dlia.
Qed.

Lemma length_descriptor_text sectors cyl name uuids :
  0 <= sectors < 2 ^ 64 -> 0 <= cyl < 2 ^ 64 -> zlen name <= 511 -> zlen uuids < 320 ->
  zlen (descriptor_text sectors cyl name uuids) <= 4096.
Proof.
  intros Hs Hc Hn Hu. pose proof (length_print_dec _ Hs). pose proof (length_print_dec _ Hc).
  unfold descriptor_text, quoted. rewrite !zlen_app. unfold zlen in *. simpl. lia.
Qed.

(** The descriptor written to an empty file reads back. *)
Lemma write_descriptor_ok cap sectors cyl name uuids :
  0 < sectors <= UINT64_MAX -> 0 <= cyl < 2 ^ 32 -> name_ok name -> Forall is_byte name ->
  (forall d, lines_read 512 64 uuids d d) -> Forall is_byte uuids -> zlen uuids < 320 -> 4096 <= cap <= LONG_MAX ->
  exists f, vdisk_host_write 0 (descriptor_text sectors cyl name uuids) (hf_empty cap) = (Done tt, f) /\
    hf_sync f = true /\ read_descriptor 512 64 f = (Done (sectors, name, str_bytes "vmfs"), f).
Proof.
  intros Hs Hc Hn Hnb Hu Hub Hul Hcap.
  pose proof (descriptor_text_read sectors cyl name uuids Hs Hc Hn Hu) as Hr. destruct Hn as (Hne & Hnl & _).
  pose proof (length_descriptor_text sectors cyl name uuids ltac:(ulia) ltac:(lia) Hnl Hul) as Ht.
  set (t := descriptor_text _ _ _ _) in *. clearbody t.
  assert (t <> []) as Htn by (intros ->; inversion Hr; by eapply app_cons_not_nil).
  pose proof (zlen_nonneg t). assert (zlen t <> 0) by (destruct t; [done|unfold zlen; simpl; lia]).
  exists (hf_store (hf_empty cap) 0 t). split; [apply host_write_ok; slia|]. split; [by rewrite hf_sync_store|].
  apply read_descriptor_ok with t; [|done]. rewrite hf_len_store by done. simpl. rewrite Z.max_r by lia.
  apply bytes_at_eq; [done|]. intros i Hi. rewrite hf_at_store, patch_in by lia. f_equal; lia.
Qed.

(** The host tree after a creation: descriptor and extent, nothing else touched. *)
Lemma vmdk_create_ok seed size0 fs d path name ep cap cap2 :
  Z.land (vd_create_flags d) VDISK_CREATE_VMDK_LAYOUT_MASK = VDISK_CREATE_VMDK_FLAT ->
  match vd_create_uuid d with Some u => Forall is_byte u | None => True end ->
  zlen (uuid_lines (vd_create_uuid d) seed) < 320 ->
  0 < size0 <= LONG_MAX - 511 -> path_ok path -> Forall is_byte path ->
  make_flat_name path 512 1536 = Some (name, ep) ->
  hs_nodes fs !! path = Some (HNode (hf_empty cap) true) -> 4096 <= cap <= LONG_MAX ->
  hs_nodes fs !! ep = None -> hs_new fs ep = Some cap2 -> vmdk_round size0 <= cap2 <= LONG_MAX ->
  let size := vmdk_round size0 in
  exists df ef, let fs' := HostFs (<[ep := HNode ef true]> (<[path := HNode df true]> (hs_nodes fs))) (hs_new fs) in
    vmdk_create seed size0 (Handle fs d path path) =
      (Done tt, Handle fs' (vmdk_layout size size d) path ep) /\
    read_descriptor 512 64 df = (Done (size / 512, name, str_bytes "vmfs"), df) /\
    hf_wf ef /\ hf_len ef = size /\ (forall i, 0 <= i -> hf_at ef i = 0).
Proof.
  intros Hfl Hu Hul Hs Hpath Hpb Hname Hf Hcap Hep Hnew Hcap2 size.
  destruct (vmdk_round_spec size0 Hs) as (R1 & R2 & R3). fold size in R1, R2, R3, Hcap2.
  pose proof (make_flat_name_spec _ _ _ Hname) as (_ & Hne & Hnl & stem & ext & dir & En & Ep).
  pose proof (make_flat_name_ok _ _ _ Hpath Hname) as Hnok.
  assert (Forall is_byte name) as Hnb.
  { rewrite En. rewrite Ep, !Forall_app in Hpb. destruct Hpb as (_ & ? & _).
    apply Forall_app_2; [done|apply str_bytes_is_byte]. }
  unfold vmdk_create. unfold get at 1. erewrite bind_done by reflexivity. cbn [hd_disk hd_path].
  rewrite require_true by lia. fold (vmdk_round size0). fold size. rewrite Hname. cbn [of_option].
  rewrite bind_ret. rewrite require_true by lia.
  set (cyl := if u32 (size / 512 / (255 * 63)) =? 0 then 1 else _).
  assert (0 <= cyl < 2 ^ 32) as Hcyl.
  { unfold cyl. pose proof (u32_range (size / 512 / (255 * 63))). destruct (_ =? 0); lia. }
  assert (0 < size / 512 <= UINT64_MAX) as Hsec by (assert (size / 512 <= size) by dlia; split; [dlia|ulia]).
  destruct (write_descriptor_ok cap (size / 512) cyl name (uuid_lines (vd_create_uuid d) seed))
    as (df & Ew & Hsy & Er); auto using uuid_lines_bytes. { intros. by apply uuid_lines_read. }
  erewrite bind_done by (eapply on_disk_fp; [exact Hf|exact Ew]). cbn [hd_fp hd_fs hd_disk hd_path].
  erewrite bind_done.
  2: { eapply on_disk_fp; [cbn; rewrite lookup_alter_eq, Hf; reflexivity|]. cbn. unfold host_flush. rewrite Hsy. reflexivity. }
  cbn [hd_fp hd_fs hd_disk hd_path]. unfold get at 1. erewrite bind_done by reflexivity. cbn [hd_fs].
  unfold fopen_wbp. cbn [hs_set hs_nodes hs_new]. rewrite !lookup_alter_ne, Hep, Hnew by done.
  cbn [of_option]. rewrite bind_ret.
  destruct (size_host_file_ok cap2 size) as (ef & Ee & W & Hl & Hz); [lia|lia|].
  unfold hs_file at 1. cbn [hs_nodes]. rewrite lookup_insert_eq. cbn [hn_file]. rewrite Ee.
  exists df, ef. cbv zeta. split_and!; auto.
  unfold set_fs, set_fp, set_handle_disk, modify, bind, hs_set. cbn.
  match goal with |- (_, Handle (HostFs ?a _) _ _ _) = (_, Handle (HostFs ?b _) _ _ _) => assert (a = b) as ->; [|done] end.
  apply map_eq. intros k. destruct (decide (k = ep)) as [->|Hk].
  { by rewrite lookup_alter_eq, !lookup_insert_eq. }
  rewrite lookup_alter_ne, !(lookup_insert_ne _ ep) by done. destruct (decide (k = path)) as [->|Hk'].
  { by rewrite !lookup_alter_eq, lookup_insert_eq, Hf. }
  by rewrite !lookup_alter_ne, lookup_insert_ne by done.
Qed.

(** Opening a descriptor whose extent is present. *)
Lemma vmdk_open_ok fs d path name ep sectors ctype df ef :
  vd_writable d = true -> vmdk_type_ok ctype = true -> 0 <= sectors -> sectors * 512 <= LONG_MAX ->
  hs_nodes fs !! path = Some (HNode df true) -> hs_nodes fs !! ep = Some (HNode ef true) ->
  read_descriptor 512 64 df = (Done (sectors, name, ctype), df) ->
  extent_path_for path name 1536 = Some ep -> sectors * 512 <= hf_len ef -> hf_wf ef ->
  exists h, vmdk_open (Handle fs d path path) = (Done tt, h) /\
    opened h = Vdst (vmdk_layout (sectors * 512) (hf_len ef) (set_writable true d)) ef /\
    hd_fp h = ep /\ linear_ok (opened h).
Proof.
  intros Hw Ht Hs0 Hs Hp He Hr Hx Hl W. pose proof (hf_wf_len _ W). pose proof (hf_wf_cap _ W).
  unfold vmdk_open. erewrite bind_done by (eapply on_disk_fp; [exact Hp|exact Hr]). cbn [hd_fp hd_fs hd_disk hd_path].
  rewrite require_true by done. unfold get. erewrite bind_done by reflexivity. cbn [hd_path hd_disk hd_fs].
  rewrite Hx. cbn [of_option]. rewrite bind_ret, Hw. cbn [andb].
  assert (hs_nodes (hs_set path df fs) !! ep = Some (HNode ef true)) as He'.
  { cbn. destruct (decide (path = ep)) as [->|]; [rewrite lookup_alter_eq, He; simpl; congruence|by rewrite lookup_alter_ne]. }
  unfold fopen_rbp, fopen_rb. rewrite He'. cbn [hn_write andb orb negb].
  erewrite bind_done by reflexivity. rewrite require_true by done.
  assert (hs_file ep (hs_set path df fs) = ef) as Hfile by (unfold hs_file; by rewrite He').
  cbn [hd_fs]. rewrite Hfile, u64_id by ulia. rewrite require_true by lia.
  eexists. split; [reflexivity|]. unfold opened. cbn [hd_disk hd_fp hd_fs]. rewrite Hfile. split_and!; auto.
  split; cbn; auto; lia.
Qed.

(** ** Create and reopen *)

(** C13: creating a flat VMDK writes a descriptor that the parser reads back to
    the same extent, next to an extent file of zeros: reopening the descriptor
    gives a disk of the created size (rounded up to a sector) on that extent.
    No other file of the host is touched. *)
Theorem vmdk_create_open (seed size0 : Z) (fs : hostfs) (d d2 : vdisk) (path name ep : list Z) (cap cap2 : Z) :
  Z.land (vd_create_flags d) VDISK_CREATE_VMDK_LAYOUT_MASK = VDISK_CREATE_VMDK_FLAT ->
  match vd_create_uuid d with Some u => Forall is_byte u | None => True end ->
  zlen (uuid_lines (vd_create_uuid d) seed) < 320 ->
  0 < size0 <= LONG_MAX - 511 -> path_ok path -> Forall is_byte path ->
  make_flat_name path 512 1536 = Some (name, ep) ->
  hs_nodes fs !! path = Some (HNode (hf_empty cap) true) -> 4096 <= cap <= LONG_MAX ->
  hs_nodes fs !! ep = None -> hs_new fs ep = Some cap2 -> vmdk_round size0 <= cap2 <= LONG_MAX ->
  vd_writable d2 = true ->
  exists h h', vmdk_create seed size0 (Handle fs d path path) = (Done tt, h) /\
    vmdk_open (Handle (hd_fs h) d2 path path) = (Done tt, h') /\
    vd_size_bytes (hd_disk h') = vmdk_round size0 /\ hd_fp h' = ep /\ linear_ok (opened h') /\
    (forall i, 0 <= i -> lin_at (opened h') i = 0) /\
    (forall k, k <> path -> k <> ep -> hs_nodes (hd_fs h) !! k = hs_nodes fs !! k).
Proof.
  intros Hfl Hu Hul Hs Hp Hpb Hn Hf Hc He Hnew Hc2 Hw.
  destruct (vmdk_create_ok seed size0 fs d path name ep cap cap2) as (df & ef & E & Er & W & Hl & Hz); auto.
  destruct (vmdk_round_spec size0 Hs) as (R1 & R2 & R3). destruct (make_flat_name_spec _ _ _ Hn) as (Hx & Hne & _).
  set (fs' := HostFs _ _) in E.
  destruct (vmdk_open_ok fs' d2 path name ep (vmdk_round size0 / 512) (str_bytes "vmfs") df ef)
    as (h' & Eo & Eh & Efp & L); auto; try (rewrite ?R3; ulia).
  - cbn. by rewrite lookup_insert_ne, lookup_insert_eq.
  - cbn. by rewrite lookup_insert_eq.
  - eexists _, h'. split; [exact E|]. cbn [hd_fs]. split; [exact Eo|]. rewrite R3 in Eh.
    assert (hd_disk h' = vs_disk (opened h')) as -> by done. rewrite Eh. split_and!; auto.
    + by rewrite Eh in L.
    + intros k Hk1 Hk2. cbn. by rewrite !lookup_insert_ne.
Qed.
Lemma vmdk_create_open_witness :
  exists h h', vmdk_create 7 1000 (Handle (HostFs {[str_bytes "d/x.vmdk" := HNode (hf_empty 4096) true]} (fun _ => Some 5000))
      (Vdisk 0 0 0 0 0 0 0 0 0 true VDISK_FMT_VMDK 256 None) (str_bytes "d/x.vmdk") (str_bytes "d/x.vmdk")) = (Done tt, h) /\
    vmdk_open (Handle (hd_fs h) (Vdisk 0 0 0 0 0 0 0 0 0 true VDISK_FMT_VMDK 0 None) (str_bytes "d/x.vmdk") (str_bytes "d/x.vmdk"))
      = (Done tt, h') /\
    vd_size_bytes (hd_disk h') = 1024 /\ hd_fp h' = str_bytes "d/x-flat.vmdk".
Proof.
  destruct (vmdk_create_open 7 1000 (HostFs {[str_bytes "d/x.vmdk" := HNode (hf_empty 4096) true]} (fun _ => Some 5000))
      (Vdisk 0 0 0 0 0 0 0 0 0 true VDISK_FMT_VMDK 256 None) (Vdisk 0 0 0 0 0 0 0 0 0 true VDISK_FMT_VMDK 0 None)
      (str_bytes "d/x.vmdk") (str_bytes "x-flat.vmdk") (str_bytes "d/x-flat.vmdk") 4096 5000)
    as (h & h' & E1 & E2 & E3 & E4 & _);
    [reflexivity|exact I|reflexivity|ulia|unfold path_ok; decide_now|apply str_bytes_is_byte|vm_compute; reflexivity
    |vm_compute; reflexivity|ulia|vm_compute; reflexivity|reflexivity|vm_compute; split; congruence|reflexivity|].
  exists h, h'. split; [exact E1|]. split; [exact E2|]. split; [rewrite E3; vm_compute; reflexivity|exact E4].
Defined.
