(* ===== verification/Vdi.v ===== *)
(** * Vdi: the VDI 1.1 backend ([lib/vdisk/src/backend_vdi.c])

    Fixed and dynamic (sparse) images: header, block map, allocation on write,
    creation, opening and inspection.  The operations run on [vdst]: the
    [struct vdisk] and the host file behind it. *)
From S2P Require Import Prelude HostFile Store Vdisk.
From stdpp Require Import gmap.
#[local] Open Scope Z_scope.

Definition VDI_SIGNATURE : Z := 0xBEDA107F.
Definition VDI_VERSION_1_1 : Z := 0x00010001.
Definition VDI_IMAGE_TYPE_DYNAMIC : Z := 1.
Definition VDI_IMAGE_TYPE_FIXED : Z := 2.
Definition VDI_SECTOR_SIZE : Z := 512.
Definition VDI_BLOCK_SIZE : Z := 1048576.
Definition VDI_HEADER_BYTES : Z := 512.
Definition VDI_BLOCK_UNALLOCATED : Z := 0xFFFFFFFF.

Definition round_up_u64 (n a : Z) : Z := u64 (u64 (u64 (n + a) - 1) / a * a).

Definition read_header : comp hostfile (list Z) := vdisk_host_read 0 VDI_HEADER_BYTES.

(** [make_uuid]; its seed (clock, address of the buffer, call counter) is the
    environment's. *)
Definition make_uuid (seed : Z) : list Z := uuid_bits (xorshift_bytes 16 0 seed).

Definition vdi_probe : comp hostfile bool :=
  let* h := try read_header in
  ret (match h with Some h => le32 h 0x40 =? VDI_SIGNATURE | None => false end).

(** The header fields [vdi_open] and [vdisk_vdi_inspect] read into locals. *)
Record vdi_hdr : Type := VdiHdr {
  vh_sig : Z; vh_version : Z; vh_hdrsz : Z; vh_type : Z; vh_off_blocks : Z; vh_off_data : Z;
  vh_sector_size : Z; vh_disk_size : Z; vh_block_size : Z; vh_block_extra : Z;
  vh_blocks : Z; vh_allocated : Z;
}.
Definition parse_header (h : list Z) : vdi_hdr :=
  VdiHdr (le32 h 0x40) (le32 h 0x44) (le32 h 0x48) (le32 h 0x4c) (le32 h 0x154) (le32 h 0x158)
         (le32 h 0x168) (le64 h 0x170) (le32 h 0x178) (le32 h 0x17c) (le32 h 0x180) (le32 h 0x184).

Definition vdi_open : comp vdst unit :=
  let* h := on_fp (fail_as (-1) read_header) in
  let* host_size := on_fp vdisk_host_get_size in
  let v := parse_header h in
  let type := vh_type v in
  let off_data := vh_off_data v in
  require (negb
    (negb (vh_sig v =? VDI_SIGNATURE) || negb (vh_version v =? VDI_VERSION_1_1) ||
     (vh_hdrsz v <? 0x180) ||
     (negb (type =? VDI_IMAGE_TYPE_FIXED) && negb (type =? VDI_IMAGE_TYPE_DYNAMIC)) ||
     negb (vh_sector_size v =? VDI_SECTOR_SIZE) || (vh_disk_size v =? 0) || (vh_block_size v =? 0) ||
     (vh_blocks v =? 0) || (vh_off_blocks v =? 0) || (off_data =? 0) ||
     (off_data <=? vh_off_blocks v) || negb (vh_block_extra v =? 0) ||
     (vh_blocks v <? vh_allocated v))) (-1) ;;;
  require (negb (u64 (vh_blocks v * vh_block_size v) <? vh_disk_size v)) (-1) ;;;
  let* required :=
    (if type =? VDI_IMAGE_TYPE_FIXED then
       require (negb (negb (vh_allocated v =? vh_blocks v) || (UINT64_MAX - off_data <? vh_disk_size v))) (-1) ;;;
       ret (u64 (off_data + vh_disk_size v))
     else
       require (negb ((UINT64_MAX - off_data) / vh_block_size v <? vh_allocated v)) (-1) ;;;
       ret (u64 (off_data + vh_allocated v * vh_block_size v))) in
  require (negb (host_size <? required)) (-1) ;;;
  set_disk (set_layout (vh_disk_size v) off_data host_size (vh_block_size v) 0
              (vh_off_blocks v) (vh_blocks v) (vh_allocated v) type).

(** [init_header]: [image_uuid] is [d->create_uuid] when set; [seed1] and
    [seed2] are the environment's seeds of the (up to) two generated UUIDs. *)
Definition init_header (size_bytes image_type blocks off_blocks off_data : Z)
    (image_uuid : option (list Z)) (seed1 seed2 : Z) : list Z :=
  let h := zrep VDI_HEADER_BYTES 0 in
  let h := splice h 0 (take 35 (str_bytes "<<< Guppy VirtualBox Disk Image >>>")) in
  let h := splice h 0x40 (put32 VDI_SIGNATURE) in
  let h := splice h 0x44 (put32 VDI_VERSION_1_1) in
  let h := splice h 0x48 (put32 0x180) in
  let h := splice h 0x4c (put32 image_type) in
  let h := splice h 0x54 (take 15 (str_bytes (if image_type =? VDI_IMAGE_TYPE_FIXED
                                              then "Guppy fixed VDI" else "Guppy sparse VDI"))) in
  let h := splice h 0x154 (put32 off_blocks) in
  let h := splice h 0x158 (put32 off_data) in
  let h := splice h 0x168 (put32 VDI_SECTOR_SIZE) in
  let h := splice h 0x170 (put64 size_bytes) in
  let h := splice h 0x178 (put32 VDI_BLOCK_SIZE) in
  let h := splice h 0x17c (put32 0) in
  let h := splice h 0x180 (put32 blocks) in
  let h := splice h 0x184 (put32 (if image_type =? VDI_IMAGE_TYPE_FIXED then blocks else 0)) in
  let h := splice h 0x188 (take 16 (match image_uuid with Some u => u | None => make_uuid seed1 end)) in
  splice h 0x198 (make_uuid seed2).

(** [layout_for]: (rounded size, blocks, off_blocks, off_data). *)
Definition layout_for (size_bytes : Z) : option (Z * Z * Z * Z) :=
  if (size_bytes =? 0) || (UINT64_MAX - (VDI_SECTOR_SIZE - 1) <? size_bytes) then None else
  let size_bytes := round_up_u64 size_bytes VDI_SECTOR_SIZE in
  let quot := u64 (u64 (size_bytes + VDI_BLOCK_SIZE) - 1) / VDI_BLOCK_SIZE in
  if UINT32_MAX <? quot then None else
  let blocks := u32 quot in
  if blocks =? 0 then None else
  let map_bytes := u64 (blocks * 4) in
  let map_padded := round_up_u64 map_bytes VDI_SECTOR_SIZE in
  if UINT32_MAX - VDI_HEADER_BYTES <? map_padded then None else
  Some (size_bytes, blocks, VDI_HEADER_BYTES, u32 (VDI_HEADER_BYTES + map_padded)).

(** The loop of [write_map] over the entries [i], [i+1], ... *)
Fixpoint write_map_entries (n : nat) (i off_blocks : Z) (fixed : bool) : comp hostfile unit :=
  match n with
  | O => ret tt
  | S n =>
      vdisk_host_write (u64 (off_blocks + i * 4)) (put32 (if fixed then i else VDI_BLOCK_UNALLOCATED)) ;;;
      write_map_entries n (i + 1) off_blocks fixed
  end.

(** Zero the bytes from [pos] up to [stop] in pieces of at most [piece] bytes. *)
Fixpoint zero_fill (fuel : nat) (pos stop piece : Z) : comp hostfile unit :=
  if pos <? stop then
    match fuel with
    | O => nofuel
    | S fuel =>
        let n := if piece <? stop - pos then piece else stop - pos in
        vdisk_host_write pos (zrep n 0) ;;;
        zero_fill fuel (u64 (pos + n)) stop piece
    end
  else ret tt.

Definition write_map (blocks off_blocks off_data : Z) (fixed : bool) : comp hostfile unit :=
  write_map_entries (Z.to_nat blocks) 0 off_blocks fixed ;;;
  let pos := u64 (off_blocks + u64 (blocks * 4)) in
  zero_fill (Z.to_nat (off_data - pos)) pos off_data 4096.

Definition vdi_create_fixed (seed1 seed2 size_bytes : Z) : comp vdst unit :=
  let* (size_bytes, blocks, off_blocks, off_data) := of_option (-1) (layout_for size_bytes) in
  require (negb (UINT64_MAX - off_data <? size_bytes)) (-1) ;;;
  let host_size := u64 (off_data + size_bytes) in
  let* d := disk in
  let h := init_header size_bytes VDI_IMAGE_TYPE_FIXED blocks off_blocks off_data
             (vd_create_uuid d) seed1 seed2 in
  on_fp (vdisk_host_write 0 h) ;;;
  on_fp (write_map blocks off_blocks off_data true) ;;;
  on_fp (vdisk_host_write (u64 (host_size - 1)) [0]) ;;;
  on_fp host_flush ;;;
  set_disk (set_layout size_bytes off_data host_size VDI_BLOCK_SIZE 0 off_blocks blocks blocks
              VDI_IMAGE_TYPE_FIXED).

Definition vdi_create_sparse (seed1 seed2 size_bytes : Z) : comp vdst unit :=
  let* (size_bytes, blocks, off_blocks, off_data) := of_option (-1) (layout_for size_bytes) in
  let* d := disk in
  let h := init_header size_bytes VDI_IMAGE_TYPE_DYNAMIC blocks off_blocks off_data
             (vd_create_uuid d) seed1 seed2 in
  on_fp (vdisk_host_write 0 h) ;;;
  on_fp (write_map blocks off_blocks off_data false) ;;;
  on_fp host_flush ;;;
  set_disk (set_layout size_bytes off_data off_data VDI_BLOCK_SIZE 0 off_blocks blocks 0
              VDI_IMAGE_TYPE_DYNAMIC).

(** ** The block map *)

Definition map_get (guest_block : Z) : comp vdst Z :=
  let* d := disk in
  require (guest_block <? vd_blocks_count d) (-1) ;;;
  let* e := on_fp (vdisk_host_read (u64 (vd_blocks_offset d + guest_block * 4)) 4) in
  ret (le32 e 0).

Definition map_set (guest_block entry : Z) : comp vdst unit :=
  let* d := disk in
  require (guest_block <? vd_blocks_count d) (-1) ;;;
  on_fp (vdisk_host_write (u64 (vd_blocks_offset d + guest_block * 4)) (put32 entry)).

Definition update_allocated : comp vdst unit :=
  let* d := disk in
  on_fp (vdisk_host_write 0x184 (put32 (vd_blocks_allocated d))).

(** The zeroing loop of [allocate_block], in 64 KiB pieces. *)
Fixpoint zero_block (fuel : nat) (host_off done block_size : Z) : comp hostfile unit :=
  if done <? block_size then
    match fuel with
    | O => nofuel
    | S fuel =>
        let n := if 65536 <? block_size - done then 65536 else block_size - done in
        vdisk_host_write (u64 (host_off + done)) (zrep n 0) ;;;
        zero_block fuel host_off (u64 (done + n)) block_size
    end
  else ret tt.

Definition allocate_block (guest_block : Z) : comp vdst Z :=
  let* d := disk in
  let entry := vd_blocks_allocated d in
  require (negb (vd_blocks_count d <=? entry)) (-1) ;;;
  require (negb ((UINT64_MAX - vd_data_offset d) / vd_block_size d <? entry)) (-1) ;;;
  let host_off := u64 (vd_data_offset d + entry * vd_block_size d) in
  on_fp (zero_block (Z.to_nat (vd_block_size d)) host_off 0 (vd_block_size d)) ;;;
  map_set guest_block entry ;;;
  set_disk (fun d => set_allocated (u32 (vd_blocks_allocated d + 1)) (vd_host_size_bytes d) d) ;;;
  update_allocated ;;;
  set_disk (fun d => set_allocated (vd_blocks_allocated d)
                       (u64 (vd_data_offset d + vd_blocks_allocated d * vd_block_size d)) d) ;;;
  ret entry.

(** ** Guest reads and writes *)

Fixpoint vdi_read_loop (fuel : nat) (off len : Z) : comp vdst (list Z) :=
  if len =? 0 then ret [] else
  match fuel with
  | O => nofuel
  | S fuel =>
      let* d := disk in
      let guest_block := u32 (off / vd_block_size d) in
      let in_block := u32 (off mod vd_block_size d) in
      let n := vd_block_size d - in_block in
      let n := if len <? n then len else n in
      let* entry := map_get guest_block in
      let* out :=
        (if entry =? VDI_BLOCK_UNALLOCATED then ret (zrep n 0)
         else
           require (negb (vd_blocks_allocated d <=? entry)) (-1) ;;;
           on_fp (vdisk_host_read (u64 (vd_data_offset d + entry * vd_block_size d + in_block)) n)) in
      let* rest := vdi_read_loop fuel (u64 (off + n)) (len - n) in
      ret (out ++ rest)
  end.

Definition vdi_read (off len : Z) : comp vdst (list Z) :=
  let* d := disk in
  require (bounds_ok d off len) (-1) ;;;
  if vd_image_type d =? VDI_IMAGE_TYPE_FIXED
  then on_fp (vdisk_host_read (u64 (vd_data_offset d + off)) len)
  else vdi_read_loop (Z.to_nat len) off len.

Fixpoint vdi_write_loop (fuel : nat) (off : Z) (buf : list Z) : comp vdst unit :=
  if zlen buf =? 0 then ret tt else
  match fuel with
  | O => nofuel
  | S fuel =>
      let* d := disk in
      let guest_block := u32 (off / vd_block_size d) in
      let in_block := u32 (off mod vd_block_size d) in
      let n := vd_block_size d - in_block in
      let n := if zlen buf <? n then zlen buf else n in
      let* entry := map_get guest_block in
      let* entry :=
        (if entry =? VDI_BLOCK_UNALLOCATED then allocate_block guest_block
         else require (negb (vd_blocks_allocated d <=? entry)) (-1) ;;; ret entry) in
      let* d := disk in
      on_fp (vdisk_host_write (u64 (vd_data_offset d + entry * vd_block_size d + in_block))
               (take (Z.to_nat n) buf)) ;;;
      vdi_write_loop fuel (u64 (off + n)) (drop (Z.to_nat n) buf)
  end.

Definition vdi_write (off : Z) (buf : list Z) : comp vdst unit :=
  let* d := disk in
  require (vd_writable d && bounds_ok d off (zlen buf)) (-1) ;;;
  if vd_image_type d =? VDI_IMAGE_TYPE_FIXED
  then on_fp (vdisk_host_write (u64 (vd_data_offset d + off)) buf)
  else vdi_write_loop (length buf) off buf.

Definition vdi_flush : comp vdst unit := on_fp host_flush.

(** ** Inspection *)

(** The map scan of [vdisk_vdi_inspect]: the four entry counters and the [seen]
    array ([None] when the code does not allocate one). *)
Record map_scan : Type := MapScan {
  ms_allocated : Z; ms_unallocated : Z; ms_invalid : Z; ms_duplicate : Z;
  ms_seen : option (gset Z);
}.

Definition scan_entry (type blocks allocated : Z) (v : option Z) (m : map_scan) : map_scan :=
  match v with
  | None => MapScan (ms_allocated m) (ms_unallocated m) (ms_invalid m + 1) (ms_duplicate m) (ms_seen m)
  | Some v =>
      if v =? VDI_BLOCK_UNALLOCATED then
        MapScan (ms_allocated m) (ms_unallocated m + 1)
          (if type =? VDI_IMAGE_TYPE_FIXED then ms_invalid m + 1 else ms_invalid m)
          (ms_duplicate m) (ms_seen m)
      else if (allocated <=? v) || (blocks <=? v) then
        MapScan (ms_allocated m + 1) (ms_unallocated m) (ms_invalid m + 1) (ms_duplicate m) (ms_seen m)
      else
        MapScan (ms_allocated m + 1) (ms_unallocated m) (ms_invalid m)
          (match ms_seen m with
           | Some seen => if decide (v ∈ seen) then ms_duplicate m + 1 else ms_duplicate m
           | None => ms_duplicate m
           end)
          ((fun seen => {[v]} ∪ seen) <$> ms_seen m)
  end.

Fixpoint scan_map (n : nat) (i off_blocks type blocks allocated : Z) (m : map_scan) : comp hostfile map_scan :=
  match n with
  | O => ret m
  | S n =>
      let* e := try (vdisk_host_read (u64 (off_blocks + i * 4)) 4) in
      scan_map n (i + 1) off_blocks type blocks allocated
        (scan_entry type blocks allocated ((fun e => le32 e 0) <$> e) m)
  end.

(** The checks before the map is read. *)
Definition vdi_header_checks (v : vdi_hdr) (host_size : Z) : checks :=
  let type := vh_type v in
  let k := check_all
    [vh_sig v =? VDI_SIGNATURE;
     vh_version v =? VDI_VERSION_1_1;
     (0x180 <=? vh_hdrsz v) && (vh_hdrsz v <=? VDI_HEADER_BYTES);
     (type =? VDI_IMAGE_TYPE_FIXED) || (type =? VDI_IMAGE_TYPE_DYNAMIC);
     vh_sector_size v =? VDI_SECTOR_SIZE;
     negb (vh_disk_size v =? 0);
     negb (vh_block_size v =? 0);
     vh_block_extra v =? 0;
     negb (vh_blocks v =? 0);
     vh_allocated v <=? vh_blocks v;
     VDI_HEADER_BYTES <=? vh_off_blocks v;
     vh_off_blocks v <? vh_off_data v;
     u64 (vh_off_blocks v + vh_blocks v * 4) <=? vh_off_data v;
     vh_off_data v <=? host_size;
     if negb (vh_block_size v =? 0) && negb (vh_blocks v =? 0)
     then vh_disk_size v <=? u64 (vh_blocks v * vh_block_size v) else false] (0, 0) in
  if (type =? VDI_IMAGE_TYPE_FIXED) && negb (vh_block_size v =? 0) then
    let required := u64 (vh_off_data v + vh_disk_size v) in
    check_all [vh_allocated v =? vh_blocks v;
               (vh_off_data v <=? required) && (required <=? host_size)] k
  else if (type =? VDI_IMAGE_TYPE_DYNAMIC) && negb (vh_block_size v =? 0) then
    let required := u64 (vh_off_data v + vh_allocated v * vh_block_size v) in
    CHECK ((vh_off_data v <=? required) && (required <=? host_size)) k
  else k.

(** The checks on the counters of the map scan. *)
Definition vdi_map_checks (v : vdi_hdr) (m : map_scan) (k : checks) : checks :=
  check_all
    [ms_invalid m =? 0; ms_duplicate m =? 0; ms_allocated m =? vh_allocated v;
     if vh_type v =? VDI_IMAGE_TYPE_DYNAMIC
     then ms_unallocated m =? u32 (vh_blocks v - vh_allocated v)
     else ms_unallocated m =? 0] k.

Definition vdi_report (v : vdi_hdr) (host_size : Z) (m : map_scan) (k : checks) : vdisk_info :=
  VdiskInfo VDISK_FMT_VDI host_size (vh_disk_size v) (vh_off_data v) (vh_off_blocks v) (vh_type v)
    (vh_sector_size v) (vh_block_size v) (vh_blocks v) (vh_allocated v)
    (ms_allocated m) (ms_unallocated m) (ms_invalid m) (ms_duplicate m)
    k.1 k.2 true (k.2 =? 0)
    (if vh_type v =? VDI_IMAGE_TYPE_DYNAMIC then "dynamic/sparse"
     else if vh_type v =? VDI_IMAGE_TYPE_FIXED then "fixed/full" else "unknown").

(** The counters before the scan; [seen] is allocated for up to 16 Mi blocks. *)
Definition scan_start (v : vdi_hdr) : map_scan :=
  MapScan 0 0 0 0 (if vh_blocks v <=? 16 * 1024 * 1024 then Some (∅ : gset Z) else None).

Definition vdisk_vdi_inspect : comp hostfile vdisk_info :=
  let* h := fail_as (-1) read_header in
  let* host_size := vdisk_host_get_size in
  let v := parse_header h in
  let k := vdi_header_checks v host_size in
  if negb (vh_blocks v =? 0) && (u64 (vh_off_blocks v + vh_blocks v * 4) <=? host_size) then
    let* m := scan_map (Z.to_nat (vh_blocks v)) 0 (vh_off_blocks v) (vh_type v) (vh_blocks v)
                (vh_allocated v) (scan_start v) in
    ret (vdi_report v host_size m (vdi_map_checks v m k))
  else ret (vdi_report v host_size (scan_start v) (k.1, k.2 + 4)).
