(* ===== verification/VdiSparse.v ===== *)
(** * VdiSparse: a dynamic VDI image implements a flat disk

    The invariant of an open dynamic image ([dyn_ok]: the block map is a
    bijection between the allocated physical blocks and the guest blocks that
    own them), its preservation by every operation, and the refinement: reads
    and writes through the map behave as on one contiguous disk.  The
    invariant also survives a host that runs out of space in mid-write. *)
From S2P Require Import Prelude HostFile Store Vdisk Vdi.
#[local] Open Scope Z_scope.

(** The map entry of guest block [g]. *)
Definition entry (s : vdst) (g : Z) : Z :=
  le32 (bytes_at (hf_at (vs_fp s)) (vd_blocks_offset (vs_disk s) + g * 4) 4) 0.

(** The guest byte at [o]. *)
Definition dyn_at (s : vdst) (o : Z) : Z :=
  let d := vs_disk s in
  let e := entry s (o / vd_block_size d) in
  if e =? VDI_BLOCK_UNALLOCATED then 0
  else hf_at (vs_fp s) (vd_data_offset d + e * vd_block_size d + o mod vd_block_size d).

(** [owner] sends each allocated physical block to the guest block mapped to it. *)
Definition map_owned (s : vdst) (owner : Z -> Z) : Prop :=
  let d := vs_disk s in
  (forall g, 0 <= g < vd_blocks_count d ->
     entry s g = VDI_BLOCK_UNALLOCATED \/
     0 <= entry s g < vd_blocks_allocated d /\ owner (entry s g) = g) /\
  (forall e, 0 <= e < vd_blocks_allocated d ->
     0 <= owner e < vd_blocks_count d /\ entry s (owner e) = e).

(** The layout of an open dynamic image: what [vdi_open] stored in [d]. *)
Record dyn_layout (d : vdisk) : Prop := DynLayout {
  dl_type : vd_image_type d = VDI_IMAGE_TYPE_DYNAMIC;
  dl_bsize : 0 < vd_block_size d < 2 ^ 32;
  dl_count : 0 < vd_blocks_count d <= UINT32_MAX;
  dl_size : 0 <= vd_size_bytes d <= vd_blocks_count d * vd_block_size d;
  dl_header : 0x188 <= vd_blocks_offset d;
  dl_map : vd_blocks_offset d + vd_blocks_count d * 4 <= vd_data_offset d;
  dl_limit : vd_data_offset d + vd_blocks_count d * vd_block_size d <= LONG_MAX;
}.

Record dyn_ok (s : vdst) : Prop := DynOk {
  dk_layout : dyn_layout (vs_disk s);
  dk_alloc : 0 <= vd_blocks_allocated (vs_disk s) <= vd_blocks_count (vs_disk s);
  dk_len : vd_data_offset (vs_disk s) + vd_blocks_allocated (vs_disk s) * vd_block_size (vs_disk s)
             <= hf_len (vs_fp s);
  dk_wf : hf_wf (vs_fp s);
  dk_map : exists owner, map_owned s owner;
}.

(** The host has room for the image fully allocated. *)
Definition dyn_room (s : vdst) : Prop :=
  vd_data_offset (vs_disk s) + vd_blocks_count (vs_disk s) * vd_block_size (vs_disk s)
    <= hf_cap (vs_fp s).

(** What guest I/O leaves alone in [d]: all but the allocation counter and the
    host size it determines. *)
Definition same_disk (d d' : vdisk) : Prop :=
  d' = set_allocated (vd_blocks_allocated d') (vd_host_size_bytes d') d.

Lemma same_disk_refl d : same_disk d d.
Proof. by destruct d. Qed.
Lemma same_disk_trans d1 d2 d3 : same_disk d1 d2 -> same_disk d2 d3 -> same_disk d1 d3.
Proof. unfold same_disk. intros E1 E2. etransitivity; [exact E2|]. by rewrite E1. Qed.

(** ** The map entries and the host file *)

Lemma entry_frame d d' f f' lo hi g :
  frame f f' lo hi -> vd_blocks_offset d' = vd_blocks_offset d -> 0 <= vd_blocks_offset d + g * 4 ->
  vd_blocks_offset d + g * 4 + 4 <= lo \/ hi <= vd_blocks_offset d + g * 4 ->
  entry (Vdst d' f') g = entry (Vdst d f) g.
Proof.
  intros F E ? Hd. unfold entry. simpl. rewrite E. f_equal. apply bytes_at_ext.
  intros i Hi. apply (fr_out _ _ _ _ F); lia.
Qed.
Lemma entry_range s g : hf_wf (vs_fp s) -> 0 <= entry s g < 2 ^ 32.
Proof. intros W. apply le32_range. apply Forall_bytes_at. intros. apply W. Qed.

Section layout.
  Context (d : vdisk) (L : dyn_layout d).

Lemma block_in_range g : 0 <= g < vd_blocks_count d ->
    0 <= vd_blocks_offset d + g * 4 /\ vd_blocks_offset d + g * 4 + 4 <= vd_data_offset d.
  Proof using L. destruct L. intros. nia. Qed.
Lemma data_in_range e : 0 <= e < vd_blocks_count d ->
    0 <= vd_data_offset d + e * vd_block_size d /\
    vd_data_offset d + e * vd_block_size d + vd_block_size d <= LONG_MAX /\
    vd_data_offset d + (e + 1) * vd_block_size d = vd_data_offset d + e * vd_block_size d + vd_block_size d.
  Proof using L. destruct L. intros. nia. Qed.
Lemma data_limit : 0x188 <= vd_data_offset d <= LONG_MAX.
  Proof using L. destruct L. nia. Qed.
Lemma size_limit : 0 <= vd_size_bytes d <= LONG_MAX.
  Proof using L. pose proof data_limit as D. destruct L. lia. Qed.
Lemma guest_block_ok o : 0 <= o < vd_size_bytes d ->
    0 <= o / vd_block_size d < vd_blocks_count d /\ u32 (o / vd_block_size d) = o / vd_block_size d /\
    0 <= o mod vd_block_size d < vd_block_size d /\ u32 (o mod vd_block_size d) = o mod vd_block_size d.
  Proof using L.
    destruct L. intros. pose proof (Z.mod_pos_bound o (vd_block_size d)).
    assert (0 <= o / vd_block_size d < vd_blocks_count d).
    { split; [apply Z.div_pos; lia|apply Z.div_lt_upper_bound; lia]. }
    unfold UINT32_MAX in *. rewrite !u32_id by lia. lia.
  Qed.
End layout.

(** The allocated blocks, and all the metadata, lie inside the host file. *)
Lemma dyn_len_ge s n :
  dyn_ok s -> 0 <= n <= vd_blocks_allocated (vs_disk s) ->
  vd_data_offset (vs_disk s) + n * vd_block_size (vs_disk s) <= hf_len (vs_fp s).
Proof. intros [L _ Hl _ _] Hn. destruct L. nia. Qed.

(** A distinct owner for each of [n] physical blocks, none of them [g], leaves
    room among the guest blocks. *)
Lemma owner_pigeonhole (owner : Z -> Z) (n count g : Z) :
  0 <= n -> 0 <= g < count ->
  (forall e, 0 <= e < n -> 0 <= owner e < count /\ owner e <> g) ->
  (forall e e', 0 <= e < n -> 0 <= e' < n -> owner e = owner e' -> e = e') -> n < count.
Proof.
  intros Hn Hg Ho Hinj.
  assert (length (g :: (owner <$> seqZ 0 n)) <= length (seqZ 0 count))%nat as H.
  { apply submseteq_length, NoDup_submseteq.
    - apply NoDup_cons. split.
      + intros (e & -> & He%elem_of_seqZ)%list_elem_of_fmap. destruct (Ho e); lia.
      + apply NoDup_fmap_2_strong; [|apply NoDup_seqZ].
        intros e e' He%elem_of_seqZ He'%elem_of_seqZ. apply Hinj; lia.
    - intros x [-> | (e & -> & He%elem_of_seqZ)%list_elem_of_fmap]%elem_of_cons; apply elem_of_seqZ; [lia|].
      destruct (Ho e); lia. }
  simpl in H. rewrite length_fmap, !length_seqZ in H. lia.
Qed.

Lemma free_block s g :
  dyn_ok s -> 0 <= g < vd_blocks_count (vs_disk s) -> entry s g = VDI_BLOCK_UNALLOCATED ->
  vd_blocks_allocated (vs_disk s) < vd_blocks_count (vs_disk s).
Proof.
  intros [L A _ _ [owner [M1 M2]]] Hg He.
  apply (owner_pigeonhole owner _ _ g); [lia|done| |].
  - intros e Hle. destruct (M2 e Hle) as [Hr Heo]. split; [done|]. intros <-.
    rewrite Heo in He. destruct L. unfold UINT32_MAX, VDI_BLOCK_UNALLOCATED in *. lia.
  - intros e e' H1 H2 Heq. destruct (M2 e H1) as [_ <-], (M2 e' H2) as [_ <-]. congruence.
Qed.

(** ** Single-entry operations *)

Lemma map_get_ok s g :
  dyn_ok s -> 0 <= g < vd_blocks_count (vs_disk s) -> map_get g s = (Done (entry s g), s).
Proof.
  destruct s as [d f]. intros [L A Hl W _] Hg; simpl in *. unfold map_get, disk.
  rewrite bind_gets, require_true by (simpl in *; lia). simpl.
  destruct (block_in_range d L g Hg). pose proof (data_limit d L) as D. unfold LONG_MAX in D.
  rewrite u64_id by lia.
  assert (vd_data_offset d <= hf_len f) by (destruct L; nia).
  erewrite bind_done; [done|]. apply on_fp_eq, host_read_ok; slia.
Qed.

(** Reading the piece of a block that starts at guest offset [off]. *)
Lemma block_piece_read s off n e :
  dyn_ok s -> 0 <= n -> off mod vd_block_size (vs_disk s) + n <= vd_block_size (vs_disk s) ->
  e = entry s (off / vd_block_size (vs_disk s)) -> e <> VDI_BLOCK_UNALLOCATED ->
  bytes_at (hf_at (vs_fp s))
    (vd_data_offset (vs_disk s) + e * vd_block_size (vs_disk s) + off mod vd_block_size (vs_disk s)) n
  = bytes_at (dyn_at s) off n.
Proof.
  intros [L _ _ _ _] Hn Hp -> He. destruct L. set (bs := vd_block_size _) in *.
  apply bytes_at_eq; [by apply zlen_bytes_at|]. intros i Hi. rewrite bget_bytes_at by lia.
  unfold dyn_at. fold bs.
  pose proof (Z.mod_pos_bound off bs ltac:(lia)).
  destruct (div_mod_within off i bs) as [-> ->]; [lia..|].
  rewrite (proj2 (Z.eqb_neq _ _)) by done. f_equal; lia.
Qed.
Lemma block_piece_hole s off n :
  dyn_ok s -> 0 <= n -> off mod vd_block_size (vs_disk s) + n <= vd_block_size (vs_disk s) ->
  entry s (off / vd_block_size (vs_disk s)) = VDI_BLOCK_UNALLOCATED ->
  zrep n 0 = bytes_at (dyn_at s) off n.
Proof.
  intros [L _ _ _ _] Hn Hp He. destruct L. set (bs := vd_block_size _) in *.
  rewrite <- bytes_at_const with (off := off). apply bytes_at_ext. intros i Hi.
  unfold dyn_at. fold bs.
  pose proof (Z.mod_pos_bound off bs ltac:(lia)).
  replace i with (off + (i - off)) by lia. destruct (div_mod_within off (i - off) bs) as [-> _]; [lia..|].
  by rewrite He.
Qed.

Lemma vdi_read_loop_ok fuel s off len :
  dyn_ok s -> 0 <= off -> 0 <= len -> off + len <= vd_size_bytes (vs_disk s) ->
  len <= Z.of_nat fuel ->
  vdi_read_loop fuel off len s = (Done (bytes_at (dyn_at s) off len), s).
Proof.
  revert off len. induction fuel as [|fuel IH]; intros off len Hs Ho Hl Hsz Hf; simpl.
  { assert (len = 0) as -> by lia. done. }
  destruct (Z.eqb_spec len 0) as [->|Hne]; [done|].
  destruct s as [d f]. unfold disk. rewrite bind_gets.
  pose proof Hs as [L A Hlen W [owner [M1 M2]]]. simpl in *.
  destruct (guest_block_ok _ L off) as (Hg & -> & Hm & ->); [lia|].
  set (bs := vd_block_size d) in *. set (n := if len <? _ then _ else _).
  assert (0 < n <= len /\ off mod bs + n <= bs) as [Hn Hnb] by (unfold n; btests).
  erewrite bind_done by (apply map_get_ok; auto).
  erewrite (bind_done _ _ _ (bytes_at (dyn_at (Vdst d f)) off n) (Vdst d f)).
  2: { destruct (Z.eqb_spec (entry (Vdst d f) (off / bs)) VDI_BLOCK_UNALLOCATED) as [E|E].
       - unfold ret. by erewrite block_piece_hole by (eauto; slia).
       - destruct (M1 _ Hg) as [?|[He _]]; [done|]. rewrite require_true by lia.
         destruct (data_in_range d L (entry (Vdst d f) (off / bs))) as (D1 & D2 & D3); [lia|].
         pose proof (dyn_len_ge _ (entry (Vdst d f) (off / bs) + 1) Hs). fold bs in D1, D2, D3.
         rewrite u64_id by slia. apply on_fp_eq. rewrite host_read_ok by slia.
         do 2 f_equal. apply (block_piece_read (Vdst d f)); auto; slia. }
  rewrite u64_id by (pose proof (size_limit d L); slia). erewrite bind_done by (apply IH; auto; slia).
  unfold ret. do 2 f_equal. rewrite <- bytes_at_app by lia. f_equal; lia.
Qed.

(** ** Writes *)

Lemma dyn_ok_same_map d f f' :
  dyn_ok (Vdst d f) ->
  (forall g, 0 <= g < vd_blocks_count d -> entry (Vdst d f') g = entry (Vdst d f) g) ->
  hf_len f <= hf_len f' -> hf_wf f' -> dyn_ok (Vdst d f').
Proof.
  intros [L A Hl W [owner [M1 M2]]] E Hlen W'. split; auto; [slia|]. exists owner. split.
  - intros g Hg. rewrite E by done. by apply M1.
  - intros e He. destruct (M2 e He) as [Hr Ho]. rewrite E by done. auto.
Qed.

(** Two bytes at different guest blocks never share a host byte. *)
Lemma dyn_disjoint s g g' :
  dyn_ok s -> 0 <= g < vd_blocks_count (vs_disk s) -> 0 <= g' < vd_blocks_count (vs_disk s) -> g <> g' ->
  entry s g <> VDI_BLOCK_UNALLOCATED -> entry s g' <> VDI_BLOCK_UNALLOCATED -> entry s g <> entry s g'.
Proof.
  intros [_ _ _ _ [owner [M1 _]]] Hg Hg' Hne U U' E.
  destruct (M1 g Hg) as [?|[_ O]]; [done|]. destruct (M1 g' Hg') as [?|[_ O']]; [done|]. congruence.
Qed.

Lemma block_apart e e' bs r lo n :
  0 < bs -> e <> e' -> 0 <= r < bs -> 0 <= lo -> 0 <= n -> lo + n <= bs ->
  ~ (e * bs + lo <= e' * bs + r < e * bs + lo + n).
Proof.
  intros Hb Hne Hr Hlo Hn Hb' [H1 H2].
  assert (e < e' \/ e' < e) as [?|?] by lia; nia.
Qed.

(** Storing a piece into an allocated block is the guest-level patch. *)
Lemma write_piece d f off b :
  dyn_ok (Vdst d f) -> Forall is_byte b -> 0 <= off < vd_size_bytes d ->
  off mod vd_block_size d + zlen b <= vd_block_size d ->
  let e := entry (Vdst d f) (off / vd_block_size d) in
  let at_ := vd_data_offset d + e * vd_block_size d + off mod vd_block_size d in
  e <> VDI_BLOCK_UNALLOCATED ->
  exists f', vdisk_host_write at_ b f = (Done tt, f') /\ dyn_ok (Vdst d f') /\ frame f f' at_ (at_ + zlen b) /\
    (forall o, 0 <= o < vd_blocks_count d * vd_block_size d ->
       dyn_at (Vdst d f') o = patch (dyn_at (Vdst d f)) off b o).
Proof.
  intros Hs HF Ho Hp e at_ U. pose proof Hs as [L A Hlen W [owner [M1 M2]]]. simpl in *.
  destruct (guest_block_ok _ L off Ho) as (Hg & _ & Hm & _). pose proof (zlen_nonneg b).
  destruct (M1 _ Hg) as [?|[He Howner]]; [done|]. fold e in He, Howner.
  destruct (data_in_range d L e) as (D1 & D2 & D3); [lia|].
  pose proof (dyn_len_ge _ (e + 1) Hs). pose proof L as [].
  destruct (host_write_in f at_ b) as [-> F]; [done|unfold at_; slia..|done|].
  eexists; split; [done|]. pose proof F as [Fo Fl Fc Fsy Fw].
  assert (forall g, 0 <= g < vd_blocks_count d ->
            entry (Vdst d (hf_store f at_ b)) g = entry (Vdst d f) g) as E.
  { intros g Hg'. destruct (block_in_range d L g Hg'). apply (entry_frame _ _ _ _ _ _ _ F); auto. left. unfold at_. nia. }
  split; [by apply (dyn_ok_same_map d f)|]. split; [done|].
  intros o Ho'. unfold dyn_at. simpl. set (bs := vd_block_size d) in *.
  assert (0 <= o / bs < vd_blocks_count d) as Hgo.
  { split; [apply Z.div_pos; lia|apply Z.div_lt_upper_bound; lia]. }
  rewrite E by done. pose proof (Z.mod_pos_bound o bs ltac:(lia)).
  pose proof (Z.div_mod o bs ltac:(lia)) as Do. pose proof (Z.div_mod off bs ltac:(lia)) as Doff.
  destruct (decide (o / bs = off / bs)) as [Eq|Ne].
  - rewrite Eq. fold e. rewrite (proj2 (Z.eqb_neq _ _)) by done. rewrite hf_at_store by lia.
    unfold patch, at_. rewrite Eq in Do. unfold dyn_at. simpl. fold bs. rewrite Eq. fold e.
    rewrite (proj2 (Z.eqb_neq _ _)) by done.
    btests; f_equal; lia.
  - rewrite patch_out. 2: { intros Hin. apply Ne. symmetry. apply Z.div_unique with (o - bs * (off / bs)); lia. }
    unfold dyn_at. simpl. fold bs.
    destruct (Z.eqb_spec (entry (Vdst d f) (o / bs)) VDI_BLOCK_UNALLOCATED) as [|U']; [done|].
    pose proof (dyn_disjoint _ (off / bs) (o / bs) Hs Hg Hgo ltac:(auto) U U') as Hdis.
    pose proof (block_apart e (entry (Vdst d f) (o / bs)) bs (o mod bs) (off mod bs) (zlen b)) as Hap.
    destruct (M1 _ Hgo) as [?|[He' _]]; [done|].
    apply Fo; [nia|]. unfold at_. lia.
Qed.

(** ** Allocation *)

Lemma zrep_bytes n : Forall is_byte (zrep n 0).
Proof. apply Forall_replicate. unfold is_byte; lia. Qed.

(** Whatever its outcome, the zeroing loop stays inside the block; when it
    reports success the block is zero and inside the file. *)
Lemma zero_block_spec fuel ho done_ bs f :
  hf_wf f -> 0 <= done_ <= bs -> bs < 2 ^ 32 -> 0 <= ho -> ho + bs <= LONG_MAX ->
  bs - done_ <= Z.of_nat fuel ->
  exists o f', zero_block fuel ho done_ bs f = (o, f') /\ frame f f' (ho + done_) (ho + bs) /\
    (o = Done tt /\ (done_ < bs -> ho + bs <= hf_len f') /\
       (forall i, 0 <= i -> ho + done_ <= i < ho + bs -> hf_at f' i = 0) \/
     o = Fail (-1) /\ hf_cap f < ho + bs).
Proof.
  revert done_ f. induction fuel as [|fuel IH]; intros dn f W Hd Hbs Hho Hlim Hf; simpl.
  { rewrite (proj2 (Z.ltb_ge _ _)) by lia. eexists _, f. split; [reflexivity|].
    split; [by apply frame_refl|]. left. split; [done|]. split; lia. }
  destruct (Z.ltb_spec dn bs) as [Hlt|].
  2: { eexists _, f. split; [reflexivity|]. split; [by apply frame_refl|]. left. split; [done|]. split; lia. }
  set (n := if 65536 <? bs - dn then 65536 else bs - dn).
  assert (0 < n <= bs - dn) as Hn by (unfold n; btests). unfold LONG_MAX in Hlim.
  rewrite (u64_id (ho + dn)), (u64_id (dn + n)) by lia.
  destruct (host_write_spec f (ho + dn) (zrep n 0)) as (o & k & E & Hk & F & Ho);
    [done|unfold LONG_MAX; lia|apply zrep_bytes|].
  rewrite zlen_zrep in * by lia.
  destruct Ho as [[-> ->]|[-> Hcap]].
  2: { erewrite bind_fail by exact E. eexists _, _. split; [reflexivity|]. split.
       - eapply frame_weaken; [exact F|lia..].
       - right. split; [done|lia]. }
  rewrite (take_ge (zrep n 0)) in * by (unfold zrep; rewrite length_replicate; lia).
  set (f1 := hf_store f (ho + dn) (zrep n 0)) in *. erewrite bind_done by exact E.
  pose proof F as [F1 F2 F3 F4 F5].
  destruct (IH (dn + n) f1) as (o2 & f2 & -> & G & Ho2); [auto; lia..|].
  pose proof G as [G1 G2 G3 G4 G5]. eexists _, f2. split; [reflexivity|]. split.
  { apply frame_trans with f1; [eapply frame_weaken; [exact F|lia..]|eapply frame_weaken; [exact G|lia..]]. }
  destruct Ho2 as [(-> & Hl & Hz)|[-> Hc]]; [left|right; split; [done|lia]].
  assert (ho + (dn + n) <= hf_len f1).
  { unfold f1. rewrite hf_len_store; rewrite zlen_zrep by lia; lia. }
  split; [done|]. split; [intros _; destruct (decide (dn + n < bs)); lia|].
  intros i Hi Hr. destruct (decide (ho + (dn + n) <= i)); [apply Hz; lia|].
  rewrite G1 by lia. unfold f1. rewrite hf_at_store by lia.
  rewrite patch_in by (rewrite zlen_zrep by lia; lia). apply bget_zrep0.
Qed.

Lemma map_set_ok d f g e :
  dyn_layout d -> hf_wf f -> 0 <= g < vd_blocks_count d -> vd_data_offset d <= hf_len f ->
  0 <= e < 2 ^ 32 ->
  exists f', map_set g e (Vdst d f) = (Done tt, Vdst d f') /\
    frame f f' (vd_blocks_offset d + g * 4) (vd_blocks_offset d + g * 4 + 4) /\
    hf_len f' = hf_len f /\ entry (Vdst d f') g = e.
Proof.
  intros L W Hg Hlen He. destruct (block_in_range d L g Hg). pose proof (data_limit d L) as D.
  unfold map_set, disk. rewrite bind_gets, require_true by slia. simpl. rewrite u64_id by slia.
  destruct (host_write_in f (vd_blocks_offset d + g * 4) (put32 e)) as [E F];
    [done|lia|rewrite zlen_put32; lia|apply put32_bytes|].
  eexists. split; [by apply on_fp_eq|]. split; [exact F|]. split.
  - apply hf_len_store_in. rewrite zlen_put32; lia.
  - unfold entry. simpl.
    rewrite (bytes_at_ext _ (patch (hf_at f) (vd_blocks_offset d + g * 4) (put32 e)))
      by (intros; apply hf_at_store; lia).
    change 4 with (zlen (put32 e)) at 3. rewrite bytes_at_patch. apply le32_put32; lia.
Qed.

Lemma update_allocated_ok d f :
  dyn_layout d -> hf_wf f -> vd_data_offset d <= hf_len f ->
  exists f', update_allocated (Vdst d f) = (Done tt, Vdst d f') /\ frame f f' 0x184 0x188 /\ hf_len f' = hf_len f.
Proof.
  intros L W Hlen. pose proof (data_limit d L) as D. unfold update_allocated, disk. rewrite bind_gets. simpl.
  destruct (host_write_in f 0x184 (put32 (vd_blocks_allocated d))) as [E F];
    [done|lia|rewrite zlen_put32; lia|apply put32_bytes|].
  eexists. split; [by apply on_fp_eq|]. split; [exact F|]. apply hf_len_store_in. rewrite zlen_put32; lia.
Qed.

(** The state after a successful allocation: block [alloc] zeroed, entry [g]
    pointing at it, the counter advanced. *)
Lemma alloc_result d f f1 f2 f3 g host' :
  dyn_ok (Vdst d f) -> 0 <= g < vd_blocks_count d -> entry (Vdst d f) g = VDI_BLOCK_UNALLOCATED ->
  let a := vd_blocks_allocated d in
  let ho := vd_data_offset d + a * vd_block_size d in
  frame f f1 ho (ho + vd_block_size d) -> ho + vd_block_size d <= hf_len f1 ->
  (forall i, 0 <= i -> ho <= i < ho + vd_block_size d -> hf_at f1 i = 0) ->
  frame f1 f2 (vd_blocks_offset d + g * 4) (vd_blocks_offset d + g * 4 + 4) -> entry (Vdst d f2) g = a ->
  frame f2 f3 0x184 0x188 ->
  let s' := Vdst (set_allocated (a + 1) host' d) f3 in
  dyn_ok s' /\ entry s' g = a /\
  (forall o, 0 <= o < vd_blocks_count d * vd_block_size d -> dyn_at s' o = dyn_at (Vdst d f) o).
Proof.
  intros Hs Hg U a ho F1 Hl1 Z1 F2 E2 F3 s'. pose proof (free_block _ g Hs Hg U) as Hfree.
  pose proof Hs as [L A Hlen W [owner [M1 M2]]]. simpl in *. fold a in A, Hfree, M1, M2.
  destruct (data_in_range d L a) as (D1 & D2 & D3); [lia|]. pose proof (data_limit d L) as D. pose proof L as [].
  assert (forall g', 0 <= g' < vd_blocks_count d -> g' <> g -> entry s' g' = entry (Vdst d f) g') as Eo.
  { intros g' Hg' Hne. destruct (block_in_range d L g' Hg').
    transitivity (entry (Vdst d f2) g'); [apply (entry_frame _ _ _ _ _ _ _ F3); auto; lia|].
    transitivity (entry (Vdst d f1) g'); [apply (entry_frame _ _ _ _ _ _ _ F2); auto; lia|].
    apply (entry_frame _ _ _ _ _ _ _ F1); auto. unfold ho. nia. }
  assert (entry s' g = a) as Eg.
  { destruct (block_in_range d L g Hg). rewrite <- E2. apply (entry_frame _ _ _ _ _ _ _ F3); auto; lia. }
  assert (forall o, vd_data_offset d <= o -> hf_at f3 o = hf_at f1 o) as H31.
  { intros o Ho. destruct (block_in_range d L g Hg). rewrite (fr_out _ _ _ _ F3), (fr_out _ _ _ _ F2); lia. }
  split; [|split; [done|]].
  - split; simpl; [by destruct L|lia| |apply F3|].
    + pose proof (fr_len _ _ _ _ F2). pose proof (fr_len _ _ _ _ F3). unfold ho in *. lia.
    + exists (fun e => if e =? a then g else owner e). split; simpl.
      * intros g' Hg'. destruct (decide (g' = g)) as [->|Hne].
        { right. rewrite Eg, Z.eqb_refl. lia. }
        rewrite Eo by done. destruct (M1 g' Hg') as [?|[? Ho]]; [by left|right].
        rewrite (proj2 (Z.eqb_neq _ _)) by lia. split; [lia|done].
      * intros e He. destruct (Z.eqb_spec e a) as [->|Hne]; [done|].
        destruct (M2 e) as [Hr Ho]; [lia|]. split; [done|]. rewrite Eo; [done..|].
        intros Heq. rewrite Heq, U in Ho. unfold VDI_BLOCK_UNALLOCATED, UINT32_MAX in *. lia.
  - intros o Ho. unfold dyn_at. simpl. set (bs := vd_block_size d) in *.
    assert (0 <= o / bs < vd_blocks_count d) as Hgo.
    { split; [apply Z.div_pos; lia|apply Z.div_lt_upper_bound; lia]. }
    pose proof (Z.mod_pos_bound o bs ltac:(lia)).
    destruct (decide (o / bs = g)) as [->|Hne].
    + rewrite Eg, U, Z.eqb_refl. case_match; [done|]. rewrite H31 by nia. apply Z1; unfold ho; nia.
    + rewrite Eo by done. destruct (M1 _ Hgo) as [->|[He _]]; [by rewrite Z.eqb_refl|].
      case_match; [done|]. rewrite H31 by nia. apply (fr_out _ _ _ _ F1); unfold ho; nia.
Qed.

Lemma allocate_block_spec s g :
  dyn_ok s -> 0 <= g < vd_blocks_count (vs_disk s) -> entry s g = VDI_BLOCK_UNALLOCATED ->
  exists o s', allocate_block g s = (o, s') /\ dyn_ok s' /\ same_disk (vs_disk s) (vs_disk s') /\
    hf_cap (vs_fp s') = hf_cap (vs_fp s) /\
    (forall x, 0 <= x < vd_blocks_count (vs_disk s) * vd_block_size (vs_disk s) -> dyn_at s' x = dyn_at s x) /\
    (o = Done (entry s' g) /\ entry s' g <> VDI_BLOCK_UNALLOCATED \/ o = Fail (-1) /\ ~ dyn_room s).
Proof.
  intros Hs Hg U. pose proof (free_block _ g Hs Hg U) as Hfree. destruct s as [d f].
  pose proof Hs as [L A Hlen W _]. simpl in *. set (a := vd_blocks_allocated d) in *.
  destruct (data_in_range d L a) as (D1 & D2 & D3); [lia|]. pose proof (data_limit d L) as D. pose proof L as [].
  unfold allocate_block, disk. rewrite bind_gets. simpl. fold a.
  rewrite require_true by lia. rewrite require_true.
  2: { rewrite negb_true_iff. apply Z.ltb_ge, Z.div_le_lower_bound; slia. }
  rewrite u64_id by slia.
  destruct (zero_block_spec (Z.to_nat (vd_block_size d)) (vd_data_offset d + a * vd_block_size d) 0 (vd_block_size d) f)
    as (o & f1 & E1 & F1 & Ho); [auto; slia..|]. rewrite Z.add_0_r in F1.
  destruct Ho as [(-> & Hl1 & Z1)|[-> Hcap]].
  2: { erewrite bind_fail by (apply on_fp_eq; exact E1). eexists _, (Vdst d f1). split; [reflexivity|]. simpl.
       assert (forall g', 0 <= g' < vd_blocks_count d -> entry (Vdst d f1) g' = entry (Vdst d f) g') as Ee.
       { intros g' Hg'. destruct (block_in_range d L g' Hg'). apply (entry_frame _ _ _ _ _ _ _ F1); auto. nia. }
       split; [apply (dyn_ok_same_map d f); auto; apply F1|]. split; [apply same_disk_refl|].
       split; [apply F1|]. split; [|right; split; [done|unfold dyn_room; simpl; nia]].
       intros x Hx. unfold dyn_at. simpl.
       assert (0 <= x / vd_block_size d < vd_blocks_count d) as Hgx.
       { split; [apply Z.div_pos; lia|apply Z.div_lt_upper_bound; lia]. }
       pose proof (Z.mod_pos_bound x (vd_block_size d) ltac:(lia)).
       rewrite Ee by done. case_match; [done|]. destruct Hs as [_ _ _ _ [owner [M1 _]]]. simpl in *.
       destruct (M1 _ Hgx) as [Hx'|[He _]]; [rewrite Hx' in *; done|].
       apply (fr_out _ _ _ _ F1); fold a in He; nia. }
  erewrite bind_done by (apply on_fp_eq; exact E1). rewrite Z.add_0_r in Z1.
  destruct (map_set_ok d f1 g a) as (f2 & E2 & F2 & Hl2 & Eg2); [done|apply F1|done|nia|slia|].
  erewrite bind_done by exact E2. rewrite bind_set_disk. fold a. rewrite (u32_id (a + 1)) by slia.
  set (d2 := set_allocated (a + 1) (vd_host_size_bytes d) d).
  destruct (update_allocated_ok d2 f2) as (f3 & E3 & F3 & Hl3); [by destruct L|apply F2|simpl; nia|].
  destruct (alloc_result d f f1 f2 f3 g
              (u64 (vd_data_offset d + (a + 1) * vd_block_size d)) Hs Hg U F1 (Hl1 ltac:(lia)) Z1 F2 Eg2 F3)
    as (Hok & Heg & Hat).
  eexists _, _. split.
  { erewrite bind_done by exact E3. rewrite bind_set_disk. unfold ret. reflexivity. }
  simpl. split; [exact Hok|]. split; [done|].
  split; [rewrite (fr_cap _ _ _ _ F3), (fr_cap _ _ _ _ F2); apply F1|]. split; [exact Hat|]. left.
  split; [f_equal; symmetry; exact Heg|]. intros Hc.
  assert (a = VDI_BLOCK_UNALLOCATED) as Ha by (rewrite <- Hc; symmetry; exact Heg). unfold VDI_BLOCK_UNALLOCATED, UINT32_MAX in *. lia.
Qed.

(** ** The write loop: a prefix of the buffer lands, all of it if the host has room *)
Lemma vdi_write_loop_spec fuel s off buf :
  dyn_ok s -> Forall is_byte buf -> 0 <= off -> off + zlen buf <= vd_size_bytes (vs_disk s) ->
  (length buf <= fuel)%nat ->
  exists o s' k, vdi_write_loop fuel off buf s = (o, s') /\ dyn_ok s' /\
    same_disk (vs_disk s) (vs_disk s') /\ hf_cap (vs_fp s') = hf_cap (vs_fp s) /\
    (forall x, 0 <= x < vd_blocks_count (vs_disk s) * vd_block_size (vs_disk s) ->
       dyn_at s' x = patch (dyn_at s) off (take k buf) x) /\
    (o = Done tt /\ k = length buf \/ o = Fail (-1) /\ ~ dyn_room s).
Proof.
  revert s off buf. induction fuel as [|fuel IH]; intros s off buf Hs HF Ho Hsz Hf.
  { assert (buf = []) as -> by (destruct buf; [done|simpl in *; lia]). exists (Done tt), s, O.
    split; [done|]. split_and!; auto using same_disk_refl. intros. simpl. by rewrite patch_nil. }
  simpl. destruct (Z.eqb_spec (zlen buf) 0) as [Hz|Hz].
  { assert (buf = []) as -> by (destruct buf; [done|rewrite zlen_cons in Hz; pose proof (zlen_nonneg buf); lia]).
    exists (Done tt), s, O. split; [done|]. split_and!; auto using same_disk_refl. intros. simpl. by rewrite patch_nil. }
  pose proof (zlen_nonneg buf). destruct s as [d f]. rewrite bind_disk. simpl in Hsz.
  pose proof Hs as [L A Hlen W [owner [M1 M2]]]. simpl in *.
  destruct (guest_block_ok _ L off) as (Hg & -> & Hm & ->); [lia|].
  set (bs := vd_block_size d) in *. set (n := if zlen buf <? _ then _ else _).
  assert (0 < n <= zlen buf /\ off mod bs + n <= bs) as [Hn Hnb] by (unfold n; btests).
  erewrite bind_done by (apply map_get_ok; auto).
  set (step := if entry (Vdst d f) (off / bs) =? VDI_BLOCK_UNALLOCATED then _ else _).
  assert (exists o s1, step (Vdst d f) = (o, s1) /\ dyn_ok s1 /\ same_disk d (vs_disk s1) /\
            hf_cap (vs_fp s1) = hf_cap f /\
            (forall x, 0 <= x < vd_blocks_count d * bs -> dyn_at s1 x = dyn_at (Vdst d f) x) /\
            (o = Done (entry s1 (off / bs)) /\ entry s1 (off / bs) <> VDI_BLOCK_UNALLOCATED \/
             o = Fail (-1) /\ ~ dyn_room (Vdst d f))) as (o1 & [d1 f1] & E1 & Hs1 & Sd1 & Hc1 & Ha1 & Ho1).
  { unfold step. destruct (Z.eqb_spec (entry (Vdst d f) (off / bs)) VDI_BLOCK_UNALLOCATED) as [U|U].
    - by apply allocate_block_spec.
    - destruct (M1 _ Hg) as [?|[He _]]; [done|]. rewrite require_true by lia.
      eexists _, (Vdst d f). split_and!; auto using same_disk_refl. }
  destruct Ho1 as [[-> U1]|[-> Hroom]].
  2: { erewrite bind_fail by exact E1. exists (Fail (-1)), (Vdst d1 f1), O. simpl.
       split_and!; auto; try apply Hs1. intros x Hx. rewrite patch_nil. by apply Ha1. }
  erewrite bind_done by exact E1. rewrite bind_disk. simpl in Sd1, Hc1.
  rewrite Sd1 in U1, Hs1, Ha1 |- *. clear Sd1 E1 step.
  set (d2 := set_allocated (vd_blocks_allocated d1) (vd_host_size_bytes d1) d) in *.
  pose proof (zlen_take n buf ltac:(lia)) as Hzt.
  destruct (write_piece d2 f1 off (take (Z.to_nat n) buf)) as (f2 & E2 & Hs2 & F2 & Ha2);
    [done|by apply Forall_take|slia|simpl; fold bs; lia|exact U1|].
  simpl in E2, Ha2. fold bs in E2, Ha2. pose proof Hs1 as [_ A1 Hlen1 W1 _]. simpl in *.
  destruct (data_in_range d L (entry (Vdst d2 f1) (off / bs))) as (D1 & D2 & _).
  { destruct Hs1 as [_ _ _ _ [ow [M _]]]. destruct (M (off / bs) Hg) as [?|[? _]]; [done|]. simpl in *. lia. }
  fold bs in D1, D2. rewrite (u64_id (_ + _ + _)) by slia. erewrite bind_on_fp by exact E2.
  rewrite (u64_id (off + n)) by (pose proof (size_limit d L); slia).
  destruct (IH (Vdst d2 f2) (off + n) (drop (Z.to_nat n) buf)) as (o & s' & k & E & Hs' & Sd & Hc & Ha & Hout).
  { done. } { by apply Forall_drop. } { lia. } { rewrite zlen_drop by lia. slia. }
  { rewrite length_drop. unfold zlen in *. lia. }
  exists o, s', (Z.to_nat n + k)%nat. rewrite E. split; [done|]. split; [done|].
  split; [apply (same_disk_trans _ d2); [done|exact Sd]|].
  split; [rewrite Hc; simpl; rewrite (fr_cap _ _ _ _ F2); exact Hc1|]. split.
  - intros x Hx. rewrite Ha by done.
    rewrite <- (take_drop (Z.to_nat n) (take _ buf)), take_take, Nat.min_l, <- patch_app by lia.
    rewrite Hzt, take_drop_commute. apply patch_ext. intros _. rewrite Ha2 by done.
    apply patch_ext. intros _. by apply Ha1.
  - destruct Hout as [[-> ->]|[-> Hr]]; [left|right]; (split; [done|]).
    + rewrite length_drop. unfold zlen in *. lia.
    + intros Hr0. apply Hr. unfold dyn_room in *. simpl in *. rewrite (fr_cap _ _ _ _ F2), Hc1. exact Hr0.
Qed.

(** ** The two entry points on a dynamic image *)

Lemma vdi_read_dyn s off len :
  dyn_ok s -> 0 <= off -> 0 <= len ->
  vdi_read off len s =
    (if off + len <=? vd_size_bytes (vs_disk s) then Done (bytes_at (dyn_at s) off len) else Fail (-1), s).
Proof.
  intros Hs Ho Hl. destruct s as [d f]. unfold vdi_read. rewrite bind_disk. simpl.
  destruct (Z.leb_spec (off + len) (vd_size_bytes d)).
  - rewrite require_true by (by apply bounds_ok_true). pose proof (dl_type _ (dk_layout _ Hs)) as Ht. simpl in Ht. rewrite Ht.
    apply vdi_read_loop_ok; auto; lia.
  - by rewrite require_false by (apply bounds_ok_false; lia).
Qed.

(** Whatever happens, a prefix of the buffer is stored and the image stays
    consistent; an in-bounds write of a writable image fails only for lack of
    host space. *)
Lemma vdi_write_dyn s off buf :
  dyn_ok s -> Forall is_byte buf -> 0 <= off ->
  exists o s' k, vdi_write off buf s = (o, s') /\ dyn_ok s' /\
    same_disk (vs_disk s) (vs_disk s') /\ hf_cap (vs_fp s') = hf_cap (vs_fp s) /\
    (forall x, 0 <= x < vd_blocks_count (vs_disk s) * vd_block_size (vs_disk s) ->
       dyn_at s' x = patch (dyn_at s) off (take k buf) x) /\
    (o = Done tt /\ k = length buf /\ vd_writable (vs_disk s) = true /\
       off + zlen buf <= vd_size_bytes (vs_disk s) \/
     o = Fail (-1) /\ (~ dyn_room s \/ s' = s /\
       (vd_writable (vs_disk s) = false \/ vd_size_bytes (vs_disk s) < off + zlen buf))).
Proof.
  intros Hs HF Ho. pose proof (zlen_nonneg buf). unfold vdi_write. destruct s as [d f]. rewrite bind_disk.
  destruct (vd_writable d && bounds_ok d off (zlen buf)) eqn:E.
  - apply andb_prop in E as [Ew Eb]. apply bounds_ok_true in Eb; [|done].
    rewrite require_true by done.
    pose proof (dl_type _ (dk_layout _ Hs)) as Ht. simpl in Ht. rewrite Ht.
    change (VDI_IMAGE_TYPE_DYNAMIC =? VDI_IMAGE_TYPE_FIXED) with false. cbv iota.
    destruct (vdi_write_loop_spec (length buf) (Vdst d f) off buf)
      as (o & s' & k & E & Hs' & Sd & Hc & Ha & Hout); auto.
    exists o, s', k. split_and!; auto. destruct Hout as [[-> ->]|[-> Hr]]; [left|right]; auto.
  - exists (Fail (-1)), (Vdst d f), O. split_and!; auto using same_disk_refl.
    + intros. simpl. by rewrite patch_nil.
    + right. split; [done|]. right. split; [done|]. apply andb_false_iff in E as [E|E]; [by left|right].
      apply Z.nle_gt. intros Hle. simpl in *. apply (bounds_ok_true d off (zlen buf)) in Hle; [congruence|done].
Qed.

(** ** A small image on a host with room for one block only *)
Definition tight_file : hostfile :=
  HostFile 400 404 true (fun i => if i <? 392 then 0 else 255).
Definition tight_vdi : vdst :=
  Vdst (Vdisk 8 400 400 4 0 392 2 0 VDI_IMAGE_TYPE_DYNAMIC true VDISK_FMT_VDI 1 None) tight_file.

Lemma tight_vdi_ok : dyn_ok tight_vdi.
Proof.
  assert (hf_wf tight_file) as W.
  { split; simpl; [lia|ulia|]. intros i. unfold hf_at, is_byte; simpl. btests. }
  split; simpl; [|lia|lia|exact W|].
  - split; simpl; try done; ulia.
  - exists (fun _ => 0). split; simpl; [|lia]. intros g Hg.
    assert (g = 0 \/ g = 1) as [-> | ->] by lia; left; reflexivity.
Qed.

(** C9: a guest write on a sparse image is all or nothing per block and never
    corrupts the image.  Whatever happens (a block allocated or not, the host
    running out of space in the middle), the image stays consistent and some
    prefix of the buffer is what changed in the guest disk; the write succeeds
    entirely exactly when it is reported as successful, and it fails only
    because the image is read-only, the range is out of bounds (and then
    nothing changed), or the host has no room for the full image. *)
Theorem vdi_write_safe (s : vdst) (off : Z) (buf : list Z) :
  dyn_ok s -> Forall is_byte buf -> 0 <= off ->
  exists o s' k, vdi_write off buf s = (o, s') /\ dyn_ok s' /\ same_disk (vs_disk s) (vs_disk s') /\
    (forall x, 0 <= x < vd_blocks_count (vs_disk s) * vd_block_size (vs_disk s) ->
       dyn_at s' x = patch (dyn_at s) off (take k buf) x) /\
    (o = Done tt /\ k = length buf /\ vd_writable (vs_disk s) = true /\
       off + zlen buf <= vd_size_bytes (vs_disk s) \/
     o = Fail (-1) /\ (~ dyn_room s \/ s' = s /\
       (vd_writable (vs_disk s) = false \/ vd_size_bytes (vs_disk s) < off + zlen buf))).
Proof.
  intros Hs HF Ho. destruct (vdi_write_dyn s off buf Hs HF Ho) as (o & s' & k & E & Hs' & Sd & _ & Ha & Hout).
  exists o, s', k. auto 6.
Qed.
Lemma vdi_write_safe_witness :
  exists s' k, vdi_write 2 [7; 8; 9] tight_vdi = (Fail (-1), s') /\ dyn_ok s' /\
    (forall x, 0 <= x < 8 -> dyn_at s' x = patch (dyn_at tight_vdi) 2 (take k [7; 8; 9]) x).
Proof.
  destruct (vdi_write_safe tight_vdi 2 [7; 8; 9] tight_vdi_ok ltac:(decide_now) ltac:(lia))
    as (o & s' & k & E & Hs' & _ & Ha & _).
  exists s', k. assert (o = Fail (-1)) as ->.
  { transitivity ((vdi_write 2 [7; 8; 9] tight_vdi).1); [by rewrite E|vm_compute; reflexivity]. }
  split_and!; [done|done|exact Ha].
Defined.
