(* ===== verification/VdiCreate.v ===== *)
(** * VdiCreate: what [vdi_create_fixed] and [vdi_create_sparse] leave behind

    The layout arithmetic never wraps, the header and the map read back as
    written, and an image just created opens again as the same, all-zero
    disk. *)
From S2P Require Import Prelude HostFile Store Vdisk Raw Vdi VdiSparse.
#[local] Open Scope Z_scope.

(** ** The layout *)

(** [n + a - 1] is computed right even when [n + a] itself wraps to zero. *)
Lemma u64_add_pred n a : 0 < n + a <= 2 ^ 64 -> u64 (u64 (n + a) - 1) = n + a - 1.
Proof.
  intros H. destruct (decide (n + a = 2 ^ 64)) as [->|]; [reflexivity|].
  rewrite (u64_id (n + a)) by lia. rewrite u64_id; lia.
Qed.
Lemma round_up_u64_spec n a :
  0 < a -> 0 <= n -> n + a <= 2 ^ 64 ->
  n <= round_up_u64 n a < n + a /\ round_up_u64 n a mod a = 0.
Proof.
  intros Ha Hn Hl. unfold round_up_u64.
  rewrite u64_add_pred by lia.
  pose proof (Z.div_mod (n + a - 1) a ltac:(lia)). pose proof (Z.mod_pos_bound (n + a - 1) a ltac:(lia)).
  rewrite u64_id by nia. split; [nia|]. by rewrite Z_mod_mult.
Qed.

Record layout_ok (size0 size blocks off_blocks off_data : Z) : Prop := LayoutOk {
  lo_size : size0 <= size < size0 + 512;
  lo_sector : size mod 512 = 0;
  lo_blocks : 0 < blocks < 2 ^ 30;
  lo_fit : (blocks - 1) * VDI_BLOCK_SIZE < size <= blocks * VDI_BLOCK_SIZE;
  lo_map : off_blocks = 512;
  lo_data : 512 + blocks * 4 <= off_data < 512 + blocks * 4 + 512;
  lo_data32 : off_data <= UINT32_MAX;
}.

Lemma layout_for_ok size0 size blocks off_blocks off_data :
  0 <= size0 < 2 ^ 64 -> layout_for size0 = Some (size, blocks, off_blocks, off_data) ->
  layout_ok size0 size blocks off_blocks off_data.
Proof.
  intros H0. unfold layout_for, VDI_SECTOR_SIZE, VDI_HEADER_BYTES.
  case_match eqn:E1; [done|]. assert (0 < size0 <= UINT64_MAX - 511) as Hz by lia. clear E1.
  destruct (round_up_u64_spec size0 512) as [R1 R2]; [lia|lia|slia|].
  set (z := round_up_u64 size0 512) in *. set (q := _ / VDI_BLOCK_SIZE).
  case_match eqn:E2; [done|]. case_match eqn:E3; [done|].
  assert (0 <= q) as Hq by (apply Z.div_pos; [apply u64_range|done]).
  assert (0 < u32 q <= UINT32_MAX) as Hb by (pose proof (u32_range q); slia).
  rewrite (u32_id q) in * by slia.
  assert ((q - 1) * VDI_BLOCK_SIZE < z <= q * VDI_BLOCK_SIZE) as Hfit.
  { revert Hb. unfold q, VDI_BLOCK_SIZE. assert (z < 2 ^ 64) by slia.
    destruct (decide (z + 1048576 <= 2 ^ 64)).
    - rewrite u64_add_pred by lia. replace (z + 1048576 - 1) with (z + 1048575) by lia.
      clear -R1 Hz. intros. dlia.
    - assert (u64 (u64 (z + 1048576) - 1) = z + 1048575 - 2 ^ 64) as ->.
      { assert (u64 (z + 1048576) = z + 1048576 - 2 ^ 64) as ->.
        { symmetry. apply Z.mod_unique with 1; lia. } rewrite u64_id; lia. }
      rewrite Z.div_small by lia. lia. }
  rewrite (u64_id (q * 4)) by slia.
  destruct (round_up_u64_spec (q * 4) 512) as [M1 M2]; [lia|lia|slia|].
  case_match eqn:E4; [done|]. intros [= <- <- <- <-]. rewrite u32_id by slia.
  split; auto; slia.
Qed.

(** Every size up to 512 TiB has a layout. *)
Lemma layout_for_total size0 : 0 < size0 <= 2 ^ 49 -> exists l, layout_for size0 = Some l.
Proof.
  intros H. unfold layout_for, VDI_SECTOR_SIZE, VDI_HEADER_BYTES, VDI_BLOCK_SIZE.
  rewrite (proj2 (Z.eqb_neq _ _)) by lia. rewrite (proj2 (Z.ltb_ge _ _)) by slia. cbn [orb].
  destruct (round_up_u64_spec size0 512) as [R1 R2]; [lia..|].
  set (z := round_up_u64 size0 512) in *. rewrite u64_add_pred by lia.
  set (q := _ / _). assert (0 < q <= 2 ^ 29) by (unfold q; dlia).
  rewrite (proj2 (Z.ltb_ge _ _)) by slia. rewrite (u32_id q) by lia. rewrite (proj2 (Z.eqb_neq _ _)) by lia.
  rewrite (u64_id (q * 4)) by lia. destruct (round_up_u64_spec (q * 4) 512) as [M1 M2]; [lia..|].
  rewrite (proj2 (Z.ltb_ge _ _)) by slia. eauto.
Qed.

(** ** The map and its padding *)

Lemma write_map_entries_ok n i ob fixed f :
  hf_wf f -> 0 <= i -> 0 <= ob -> i + Z.of_nat n <= 2 ^ 32 -> ob + (i + Z.of_nat n) * 4 <= hf_cap f ->
  exists f', write_map_entries n i ob fixed f = (Done tt, f') /\
    frame f f' (ob + i * 4) (ob + (i + Z.of_nat n) * 4) /\
    hf_len f' = (match n with O => hf_len f | _ => Z.max (hf_len f) (ob + (i + Z.of_nat n) * 4) end) /\
    (forall g, i <= g < i + Z.of_nat n ->
       le32 (bytes_at (hf_at f') (ob + g * 4) 4) 0 = if fixed then g else VDI_BLOCK_UNALLOCATED).
Proof.
  revert i f. induction n as [|n IH]; intros i f W Hi Hob Hn Hcap; cbn [write_map_entries].
  { exists f. split_and!; auto; [by apply frame_refl|lia]. }
  pose proof (hf_wf_cap f W). rewrite u64_id by slia.
  set (v := if fixed then i else VDI_BLOCK_UNALLOCATED).
  assert (0 <= v < 2 ^ 32) as Hv by (unfold v, VDI_BLOCK_UNALLOCATED; destruct fixed; lia).
  erewrite bind_done by (apply host_write_ok; rewrite ?zlen_put32; lia).
  pose proof (frame_store f (ob + i * 4) (put32 v) W (put32_bytes v)) as F1. rewrite zlen_put32 in F1.
  specialize (F1 ltac:(right; lia)). set (f1 := hf_store f (ob + i * 4) (put32 v)) in *.
  assert (hf_len f1 = Z.max (hf_len f) (ob + i * 4 + 4)) as Hl1.
  { unfold f1. by rewrite hf_len_store, zlen_put32. }
  destruct (IH (i + 1) f1) as (f2 & E & F2 & Hl2 & Hg2);
    [apply F1|lia|lia|lia|rewrite (fr_cap _ _ _ _ F1); lia|].
  exists f2. rewrite E. split_and!; auto.
  - eapply frame_trans; eapply frame_weaken; [exact F1| | |exact F2| |]; lia.
  - rewrite Hl2, Hl1. destruct n; lia.
  - intros g Hg. destruct (decide (g = i)) as [->|]; [|apply Hg2; lia].
    rewrite (bytes_at_ext _ (hf_at f1)) by (intros; apply (fr_out _ _ _ _ F2); lia).
    rewrite (bytes_at_ext _ (patch (hf_at f) (ob + i * 4) (put32 v))).
    2: { intros j Hj. unfold f1. apply hf_at_store. lia. }
    rewrite <- (zlen_put32 v), bytes_at_patch. by apply le32_put32.
Qed.

Lemma zero_fill_ok fuel pos stop piece f :
  hf_wf f -> 0 < piece -> 0 <= pos <= stop -> stop <= hf_cap f -> stop - pos <= Z.of_nat fuel ->
  exists f', zero_fill fuel pos stop piece f = (Done tt, f') /\ frame f f' pos stop /\
    hf_len f' = (if pos <? stop then Z.max (hf_len f) stop else hf_len f) /\
    (forall i, pos <= i < stop -> hf_at f' i = 0).
Proof.
  revert pos f. induction fuel as [|fuel IH]; intros pos f W Hp Hpos Hcap Hf; cbn [zero_fill];
    (destruct (Z.ltb_spec pos stop); [|exists f; split_and!; auto; [by apply frame_refl|lia]]); [lia|].
  set (n := if piece <? _ then _ else _). assert (0 < n <= stop - pos) by (unfold n; btests).
  pose proof (hf_wf_cap f W). assert (zlen (zrep n 0) = n) as Hz by (apply zlen_zrep; lia).
  erewrite bind_done by (apply host_write_ok; rewrite ?Hz; lia). rewrite u64_id by slia.
  assert (Forall is_byte (zrep n 0)) as HB by (apply Forall_replicate; unfold is_byte; lia).
  pose proof (frame_store f pos (zrep n 0) W HB) as F1. rewrite Hz in F1. specialize (F1 ltac:(right; lia)).
  set (f1 := hf_store f pos (zrep n 0)) in *.
  assert (hf_len f1 = Z.max (hf_len f) (pos + n)) as Hl1 by (unfold f1; rewrite hf_len_store, Hz; lia).
  destruct (IH (pos + n) f1) as (f2 & E & F2 & Hl2 & Hg2);
    [apply F1|lia|lia|rewrite (fr_cap _ _ _ _ F1); lia|lia|].
  exists f2. rewrite E. split_and!; auto.
  - eapply frame_trans; eapply frame_weaken; [exact F1| | |exact F2| |]; lia.
  - rewrite Hl2, Hl1. btests.
  - intros i Hi. destruct (decide (pos + n <= i)); [apply Hg2; lia|].
    rewrite (fr_out _ _ _ _ F2) by lia. unfold f1. rewrite hf_at_store by lia.
    rewrite patch_in by lia. apply bget_zrep0.
Qed.

(** The header written, the map and its padding: the metadata of a new image. *)
Lemma write_map_ok blocks ob od fixed f :
  hf_wf f -> 0 < blocks < 2 ^ 30 -> 0 <= ob -> ob + blocks * 4 <= od -> od <= hf_cap f -> hf_len f <= od ->
  exists f', write_map blocks ob od fixed f = (Done tt, f') /\ frame f f' ob od /\ hf_len f' = od /\
    (forall g, 0 <= g < blocks ->
       le32 (bytes_at (hf_at f') (ob + g * 4) 4) 0 = if fixed then g else VDI_BLOCK_UNALLOCATED).
Proof.
  intros W Hb Hob Hod Hcap Hlen. pose proof (hf_wf_cap f W). unfold write_map.
  destruct (write_map_entries_ok (Z.to_nat blocks) 0 ob fixed f) as (f1 & E1 & F1 & Hl1 & Hg1); auto; try lia.
  rewrite Z2Nat.id, Z.add_0_l in * by lia. erewrite bind_done by exact E1.
  rewrite (u64_id (blocks * 4)), u64_id by slia.
  destruct (zero_fill_ok (Z.to_nat (od - (ob + blocks * 4))) (ob + blocks * 4) od 4096 f1)
    as (f2 & E2 & F2 & Hl2 & _); [apply F1|lia|lia|rewrite (fr_cap _ _ _ _ F1); lia|lia|].
  exists f2. rewrite E2. split_and!; auto.
  - eapply frame_trans; eapply frame_weaken; [exact F1| | |exact F2| |]; lia.
  - destruct (Z.to_nat blocks) eqn:?; [lia|]. rewrite Hl2, Hl1. btests.
  - intros g Hg. rewrite <- Hg1 by lia. f_equal. apply bytes_at_ext. intros i Hi.
    apply (fr_out _ _ _ _ F2); lia.
Qed.

(** ** The header *)

Lemma zlen_make_uuid s : zlen (make_uuid s) = 16.
Proof. apply zlen_uuid_bits, (zlen_xorshift_bytes 16). Qed.
Lemma make_uuid_bytes s : Forall is_byte (make_uuid s).
Proof. apply uuid_bits_bytes, xorshift_bytes_bytes. Qed.
#[global] Arguments make_uuid : simpl never.

Definition uuid_ok (u : option (list Z)) : Prop :=
  match u with Some u => zlen u = 16 /\ Forall is_byte u | None => True end.

Lemma header_uuid uuid s1 :
  uuid_ok uuid -> let u := take 16 (match uuid with Some u => u | None => make_uuid s1 end) in
  zlen u = 16 /\ Forall is_byte u.
Proof.
  intros Hu. destruct uuid as [u|].
  - destruct Hu. split; [|by apply Forall_take]. apply (zlen_take 16). lia.
  - split; [|apply Forall_take, make_uuid_bytes]. apply (zlen_take 16). rewrite zlen_make_uuid. lia.
Qed.

Lemma init_header_spec size type blocks ob od uuid s1 s2 :
  uuid_ok uuid -> 0 <= size < 2 ^ 64 -> 0 <= type < 2 ^ 32 ->
  0 <= blocks < 2 ^ 32 -> 0 <= ob < 2 ^ 32 -> 0 <= od < 2 ^ 32 ->
  let h := init_header size type blocks ob od uuid s1 s2 in
  zlen h = 512 /\ Forall is_byte h /\
  parse_header h = VdiHdr VDI_SIGNATURE VDI_VERSION_1_1 0x180 type ob od VDI_SECTOR_SIZE size VDI_BLOCK_SIZE 0
                     blocks (if type =? VDI_IMAGE_TYPE_FIXED then blocks else 0).
Proof.
  intros Hu Hs Ht Hb Hob Hod. unfold init_header.
  destruct (header_uuid uuid s1 Hu) as [Hu1 Hu2].
  set (uu := take 16 _) in *. clearbody uu.
  pose proof (zlen_make_uuid s2) as Hm1. pose proof (make_uuid_bytes s2) as Hm2.
  set (mu := make_uuid s2) in *. clearbody mu.
  assert (exists title, take 35 (str_bytes "<<< Guppy VirtualBox Disk Image >>>") = title /\
            zlen title = 35 /\ Forall is_byte title) as (title & -> & Ht1 & Ht2).
  { eexists. split_and!; [reflexivity|reflexivity|apply Forall_take, str_bytes_is_byte]. }
  set (ds := if type =? VDI_IMAGE_TYPE_FIXED then "Guppy fixed VDI" else _).
  assert (exists descr, take 15 (str_bytes ds) = descr /\ zlen descr = 15 /\ Forall is_byte descr)
    as (descr & -> & Hd1 & Hd2).
  { eexists. split_and!; [reflexivity|unfold ds; by destruct (type =? _)|apply Forall_take, str_bytes_is_byte]. }
  set (al := if type =? VDI_IMAGE_TYPE_FIXED then blocks else 0).
  assert (0 <= al < 2 ^ 32) by (unfold al; case_match; lia).
  cbv zeta. unfold VDI_HEADER_BYTES. split; [buf_len 512|]. split.
  { repeat apply splice_bytes; auto using put32_bytes, put64_bytes.
    apply Forall_replicate. unfold is_byte; lia. }
  unfold parse_header. unfold VDI_SIGNATURE, VDI_VERSION_1_1, VDI_SECTOR_SIZE, VDI_BLOCK_SIZE.
  f_equal; buf_field 512; reflexivity.
Qed.
#[global] Arguments init_header : simpl never.

(** ** A new image *)

Lemma hf_empty_wf cap : 0 <= cap <= LONG_MAX -> hf_wf (hf_empty cap).
Proof. intros. split; simpl; [lia|lia|]. intros i. unfold hf_at; simpl. case_match; unfold is_byte; lia. Qed.

(** Header and map written to an empty file: what both creators do first. *)
Lemma write_metadata_ok cap h blocks od fixed :
  zlen h = 512 -> Forall is_byte h -> 0 < blocks < 2 ^ 30 -> 512 + blocks * 4 <= od -> od <= cap <= LONG_MAX ->
  exists f1 f2, vdisk_host_write 0 h (hf_empty cap) = (Done tt, f1) /\
    write_map blocks 512 od fixed f1 = (Done tt, f2) /\
    hf_wf f2 /\ hf_len f2 = od /\ hf_cap f2 = cap /\ hf_sync f2 = true /\
    bytes_at (hf_at f2) 0 512 = h /\
    (forall g, 0 <= g < blocks ->
       le32 (bytes_at (hf_at f2) (512 + g * 4) 4) 0 = if fixed then g else VDI_BLOCK_UNALLOCATED).
Proof.
  intros Hh HB Hb Hod Hcap. pose proof (hf_empty_wf cap ltac:(lia)) as W.
  pose proof (frame_store (hf_empty cap) 0 h W HB) as F1. rewrite Hh in F1. specialize (F1 ltac:(right; slia)).
  set (f1 := hf_store (hf_empty cap) 0 h) in *.
  assert (hf_len f1 = 512) as Hl1 by (unfold f1; rewrite hf_len_store, Hh; simpl; lia).
  destruct (write_map_ok blocks 512 od fixed f1) as (f2 & E2 & F2 & Hl2 & Hg);
    [apply F1|done|lia|lia|rewrite (fr_cap _ _ _ _ F1); slia|lia|].
  exists f1, f2. split_and!; auto.
  - apply host_write_ok; slia.
  - apply F2.
  - rewrite (fr_cap _ _ _ _ F2). apply F1.
  - rewrite (fr_sync _ _ _ _ F2). apply F1.
  - apply bytes_at_eq; [done|]. intros i Hi. rewrite (fr_out _ _ _ _ F2) by lia.
    unfold f1. rewrite hf_at_store, patch_in by lia. f_equal; lia.
Qed.

(** The layout a created or reopened sparse (fixed) image has. *)
Definition created (type size blocks od host : Z) (d : vdisk) : vdisk :=
  set_layout size od host VDI_BLOCK_SIZE 0 512 blocks (if type =? VDI_IMAGE_TYPE_FIXED then blocks else 0) type d.

Lemma created_dyn_layout s0 size blocks od host d :
  layout_ok s0 size blocks 512 od -> dyn_layout (created VDI_IMAGE_TYPE_DYNAMIC size blocks od host d).
Proof. intros [H1 H2 H3 H4 _ H6 H7]. split; simpl; auto; unfold VDI_BLOCK_SIZE in *; slia. Qed.

(** An image whose map is all unallocated is empty and consistent. *)
Lemma blank_dyn_ok d f :
  dyn_layout d -> vd_blocks_allocated d = 0 -> hf_wf f -> vd_data_offset d <= hf_len f ->
  (forall g, 0 <= g < vd_blocks_count d -> entry (Vdst d f) g = VDI_BLOCK_UNALLOCATED) ->
  dyn_ok (Vdst d f) /\
  forall o, 0 <= o < vd_blocks_count d * vd_block_size d -> dyn_at (Vdst d f) o = 0.
Proof.
  intros L Ha W Hlen Hg. split.
  - pose proof (dl_count d L). split; simpl; auto; [lia|lia|]. exists (fun _ => 0). split; simpl; [|lia].
    intros g ?. left. auto.
  - intros o Ho. unfold dyn_at. simpl. pose proof (dl_bsize d L).
    rewrite Hg; [done|]. split; [apply Z.div_pos; lia|apply Z.div_lt_upper_bound; lia].
Qed.

Lemma vdi_create_sparse_ok s1 s2 size0 d cap size blocks ob od :
  uuid_ok (vd_create_uuid d) -> 0 <= size0 < 2 ^ 64 ->
  layout_for size0 = Some (size, blocks, ob, od) -> od <= cap <= LONG_MAX ->
  exists f, let d' := created VDI_IMAGE_TYPE_DYNAMIC size blocks od od d in
    vdi_create_sparse s1 s2 size0 (Vdst d (hf_empty cap)) = (Done tt, Vdst d' f) /\
    dyn_ok (Vdst d' f) /\ hf_cap f = cap /\ hf_len f = od /\
    (forall o, 0 <= o < blocks * VDI_BLOCK_SIZE -> dyn_at (Vdst d' f) o = 0) /\
    bytes_at (hf_at f) 0 512 = init_header size VDI_IMAGE_TYPE_DYNAMIC blocks ob od (vd_create_uuid d) s1 s2.
Proof.
  intros Hu H0 El Hcap. destruct (layout_for_ok _ _ _ _ _ H0 El) as [L1 L2 L3 L4 -> L6 L7] eqn:EL. clear EL.
  unfold vdi_create_sparse. rewrite El. cbn [of_option]. rewrite bind_ret, bind_disk.
  unfold VDI_BLOCK_SIZE in L4.
  destruct (init_header_spec size VDI_IMAGE_TYPE_DYNAMIC blocks 512 od (vd_create_uuid d) s1 s2)
    as (Hh & HB & _); [done|slia|unfold VDI_IMAGE_TYPE_DYNAMIC; lia|lia|lia|slia|].
  destruct (write_metadata_ok cap _ blocks od false Hh HB) as (f1 & f2 & E1 & E2 & W & Hl & Hc & Hsy & Hb & Hg);
    [lia..|].
  erewrite bind_on_fp by exact E1. erewrite bind_on_fp by exact E2.
  erewrite bind_on_fp by (unfold host_flush; rewrite Hsy; reflexivity).
  exists f2. cbv zeta. split; [reflexivity|].
  destruct (blank_dyn_ok (created VDI_IMAGE_TYPE_DYNAMIC size blocks od od d) f2) as [Hok Hz]; auto.
  { eapply created_dyn_layout. split; eauto. }
  { simpl. lia. }
Qed.

(** Reopening: the file just written describes the same disk. *)
Lemma read_header_ok f h : bytes_at (hf_at f) 0 512 = h -> 512 <= hf_len f -> read_header f = (Done h, f).
Proof. intros <- Hl. apply host_read_ok; unfold VDI_HEADER_BYTES; slia. Qed.

Lemma vdi_open_sparse_created f d size0 size blocks ob od uuid s1 s2 :
  uuid_ok uuid -> 0 <= size0 < 2 ^ 64 -> layout_for size0 = Some (size, blocks, ob, od) -> 0 < size0 ->
  bytes_at (hf_at f) 0 512 = init_header size VDI_IMAGE_TYPE_DYNAMIC blocks ob od uuid s1 s2 ->
  hf_len f = od ->
  vdi_open (Vdst d f) = (Done tt, Vdst (created VDI_IMAGE_TYPE_DYNAMIC size blocks od od d) f).
Proof.
  intros Hu H0 El Hpos Hh Hl. destruct (layout_for_ok _ _ _ _ _ H0 El) as [L1 L2 L3 L4 -> L6 L7].
  unfold VDI_BLOCK_SIZE in L4.
  destruct (init_header_spec size VDI_IMAGE_TYPE_DYNAMIC blocks 512 od uuid s1 s2)
    as (_ & _ & Hp); [done|slia|unfold VDI_IMAGE_TYPE_DYNAMIC; lia|lia|lia|slia|].
  unfold vdi_open. erewrite bind_on_fp by (unfold fail_as; erewrite read_header_ok by (eauto; lia); reflexivity).
  erewrite bind_on_fp by reflexivity. rewrite Hp. simpl.
  unfold VDI_IMAGE_TYPE_DYNAMIC, VDI_IMAGE_TYPE_FIXED, VDI_SIGNATURE, VDI_VERSION_1_1, VDI_SECTOR_SIZE, VDI_BLOCK_SIZE in *.
  rewrite require_true by lia. rewrite (u64_id (blocks * _)) by slia. rewrite require_true by lia.
  cbn [Z.eqb Pos.eqb]. rewrite bind_assoc, require_true.
  2: { assert (0 <= (UINT64_MAX - od) / 1048576) by (apply Z.div_pos; slia). lia. }
  rewrite bind_ret, u64_id by slia. rewrite require_true by lia. rewrite Hl.
  reflexivity.
Qed.

(** ** Fixed images *)

Lemma vdi_create_fixed_ok s1 s2 size0 d cap size blocks ob od :
  uuid_ok (vd_create_uuid d) -> 0 < size0 < 2 ^ 64 ->
  layout_for size0 = Some (size, blocks, ob, od) -> od + size <= cap <= LONG_MAX ->
  exists f, let d' := created VDI_IMAGE_TYPE_FIXED size blocks od (od + size) d in
    vdi_create_fixed s1 s2 size0 (Vdst d (hf_empty cap)) = (Done tt, Vdst d' f) /\
    linear_ok (Vdst d' f) /\ hf_cap f = cap /\ hf_len f = od + size /\
    (forall o, 0 <= o < size -> lin_at (Vdst d' f) o = 0) /\
    bytes_at (hf_at f) 0 512 = init_header size VDI_IMAGE_TYPE_FIXED blocks ob od (vd_create_uuid d) s1 s2.
Proof.
  intros Hu H0 El Hcap. destruct (layout_for_ok size0 _ _ _ _ ltac:(lia) El) as [L1 L2 L3 L4 -> L6 L7].
  unfold vdi_create_fixed. rewrite El. cbn [of_option]. rewrite bind_ret.
  unfold VDI_BLOCK_SIZE in L4. rewrite require_true by slia. rewrite bind_disk, (u64_id (od + size)) by slia.
  destruct (init_header_spec size VDI_IMAGE_TYPE_FIXED blocks 512 od (vd_create_uuid d) s1 s2)
    as (Hh & HB & _); [done|slia|unfold VDI_IMAGE_TYPE_FIXED; lia|lia|lia|slia|].
  destruct (write_metadata_ok cap _ blocks od true Hh HB) as (f1 & f2 & E1 & E2 & W & Hl & Hc & Hsy & Hb & Hg);
    [lia..|].
  erewrite bind_on_fp by exact E1. erewrite bind_on_fp by exact E2. rewrite u64_id by slia.
  erewrite bind_on_fp by (apply host_write_ok; change (zlen [0]) with 1; lia).
  pose proof (frame_store f2 (od + size - 1) [0] W) as F3. change (zlen [0]) with 1 in F3.
  specialize (F3 ltac:(repeat constructor; unfold is_byte; lia) ltac:(right; lia)).
  assert (hf_len (hf_store f2 (od + size - 1) [0]) = od + size) as Hl3.
  { rewrite hf_len_store by done. change (zlen [0]) with 1. lia. }
  set (f3 := hf_store f2 (od + size - 1) [0]) in *.
  erewrite bind_on_fp by (unfold host_flush; rewrite (fr_sync _ _ _ _ F3), Hsy; reflexivity).
  exists f3. cbv zeta. split; [reflexivity|]. split_and!.
  - split; cbn [vs_disk vs_fp created set_layout vd_data_offset vd_size_bytes]; [lia|lia|lia|apply F3].
  - rewrite (fr_cap _ _ _ _ F3). done.
  - done.
  - intros o Ho. unfold lin_at. simpl. unfold f3. rewrite hf_at_store by lia. unfold patch. case_match eqn:E.
    + change (zlen [0]) with 1 in E. replace (od + o - (od + size - 1)) with 0 by lia. done.
    + unfold hf_at. by rewrite (proj2 (Z.ltb_ge _ _)) by lia.
  - rewrite <- Hb. apply bytes_at_ext. intros i Hi. apply (fr_out _ _ _ _ F3); lia.
Qed.

Lemma vdi_open_fixed_created f d size0 size blocks ob od uuid s1 s2 :
  uuid_ok uuid -> 0 < size0 < 2 ^ 64 -> layout_for size0 = Some (size, blocks, ob, od) ->
  bytes_at (hf_at f) 0 512 = init_header size VDI_IMAGE_TYPE_FIXED blocks ob od uuid s1 s2 ->
  hf_len f = od + size ->
  vdi_open (Vdst d f) = (Done tt, Vdst (created VDI_IMAGE_TYPE_FIXED size blocks od (od + size) d) f).
Proof.
  intros Hu H0 El Hh Hl. destruct (layout_for_ok size0 _ _ _ _ ltac:(lia) El) as [L1 L2 L3 L4 -> L6 L7].
  unfold VDI_BLOCK_SIZE in L4.
  destruct (init_header_spec size VDI_IMAGE_TYPE_FIXED blocks 512 od uuid s1 s2)
    as (_ & _ & Hp); [done|slia|unfold VDI_IMAGE_TYPE_FIXED; lia|lia|lia|slia|].
  unfold vdi_open. erewrite bind_on_fp by (unfold fail_as; erewrite read_header_ok by (eauto; lia); reflexivity).
  erewrite bind_on_fp by reflexivity. rewrite Hp. simpl.
  unfold VDI_IMAGE_TYPE_DYNAMIC, VDI_IMAGE_TYPE_FIXED, VDI_SIGNATURE, VDI_VERSION_1_1, VDI_SECTOR_SIZE, VDI_BLOCK_SIZE in *.
  rewrite require_true by lia. rewrite (u64_id (blocks * _)) by slia. rewrite require_true by lia.
  cbn [Z.eqb Pos.eqb]. rewrite bind_assoc, require_true by slia.
  rewrite bind_ret, u64_id by slia. rewrite require_true by lia. rewrite Hl.
  reflexivity.
Qed.

(** ** Create and reopen *)

(** C11: creating an image of any size up to 512 TiB in an empty host file with
    room for it succeeds, and reopening the file gives the disk that was
    created: the size rounded up to a sector, consistent, and reading as zeros
    everywhere; a sparse image has no block allocated, a fixed one is a
    contiguous run behind its map. *)
Theorem vdi_create_open (sparse : bool) (s1 s2 size0 : Z) (d d2 : vdisk) (cap : Z) :
  uuid_ok (vd_create_uuid d) -> 0 < size0 <= 2 ^ 49 -> 2 ^ 32 + size0 + 512 <= cap <= LONG_MAX ->
  exists size f d',
    size0 <= size < size0 + 512 /\ size mod 512 = 0 /\
    (if sparse then vdi_create_sparse s1 s2 size0 else vdi_create_fixed s1 s2 size0) (Vdst d (hf_empty cap)) =
      (Done tt, Vdst (set_layout size (vd_data_offset d') (vd_host_size_bytes d') VDI_BLOCK_SIZE 0 512
                        (vd_blocks_count d') (vd_blocks_allocated d') (vd_image_type d') d) f) /\
    vdi_open (Vdst d2 f) = (Done tt, Vdst d' f) /\ vd_size_bytes d' = size /\
    if sparse then dyn_ok (Vdst d' f) /\ vd_blocks_allocated d' = 0 /\
                   forall o, 0 <= o < size -> dyn_at (Vdst d' f) o = 0
    else linear_ok (Vdst d' f) /\ forall o, 0 <= o < size -> lin_at (Vdst d' f) o = 0.
Proof.
  intros Hu Hz Hcap. destruct (layout_for_total size0 Hz) as [[[[size blocks] ob] od] El].
  assert (0 <= size0 < 2 ^ 64) as H0 by lia.
  pose proof (layout_for_ok _ _ _ _ _ H0 El) as [L1 L2 L3 L4 -> L6 L7].
  destruct sparse.
  - destruct (vdi_create_sparse_ok s1 s2 size0 d cap size blocks 512 od Hu H0 El) as (f & E & Hok & _ & Hl & _ & Hh); [ulia|].
    exists size, f, (created VDI_IMAGE_TYPE_DYNAMIC size blocks od od d2). split; [done|]. split; [done|].
    split; [exact E|]. split; [by eapply vdi_open_sparse_created; eauto; lia|]. split; [done|].
    destruct (blank_dyn_ok (created VDI_IMAGE_TYPE_DYNAMIC size blocks od od d2) f) as [Hok2 Hz2]; auto.
    + eapply (created_dyn_layout size0). split; eauto.
    + apply Hok.
    + simpl. lia.
    + intros g Hg. destruct (dk_map _ Hok) as [owner [M _]]. destruct (M g Hg) as [U|[He _]]; [exact U|simpl in He; lia].
    + split; [done|]. split; [done|]. intros o Ho. apply Hz2. simpl. unfold VDI_BLOCK_SIZE in *. lia.
  - destruct (vdi_create_fixed_ok s1 s2 size0 d cap size blocks 512 od Hu ltac:(lia) El) as (f & E & Hok & _ & Hl & Hz2 & Hh); [ulia|].
    exists size, f, (created VDI_IMAGE_TYPE_FIXED size blocks od (od + size) d2). split; [done|]. split; [done|].
    split; [exact E|]. split; [by eapply vdi_open_fixed_created; eauto; lia|]. split; [done|].
    split; [|exact Hz2]. destruct Hok as [K1 K2 K3 K4]. by split.
Qed.
Lemma vdi_create_open_witness :
  exists size f d', 1000 <= size < 1512 /\
    vdi_open (Vdst (Vdisk 0 0 0 0 0 0 0 0 0 true VDISK_FMT_VDI 0 None) f) = (Done tt, Vdst d' f) /\
    dyn_ok (Vdst d' f) /\ forall o, 0 <= o < size -> dyn_at (Vdst d' f) o = 0.
Proof.
  destruct (vdi_create_open true 1 2 1000 (Vdisk 0 0 0 0 0 0 0 0 0 true VDISK_FMT_VDI 1 None)
              (Vdisk 0 0 0 0 0 0 0 0 0 true VDISK_FMT_VDI 0 None) (2 ^ 40) I ltac:(lia) ltac:(ulia))
    as (size & f & d' & H1 & _ & _ & H2 & _ & H3 & _ & H4).
  exists size, f, d'. auto.
Defined.
