(* ===== verification/VdiInspect.v ===== *)
(** * VdiInspect: what a clean inspection report guarantees

    [vdisk_vdi_inspect] reports a dynamic image structurally valid only if its
    block map is a bijection onto the allocated blocks: [vdi_open] then accepts
    the image and the opened disk satisfies [dyn_ok], the invariant under which
    guest reads and writes are those of a flat disk. *)
From S2P Require Import Prelude HostFile Store Vdisk Vdi VdiSparse.
From stdpp Require Import gmap.
#[local] Open Scope Z_scope.

(** ** The scan as a fold over the entries *)

Definition file_entry (f : hostfile) (ob g : Z) : Z := le32 (bytes_at (hf_at f) (ob + g * 4) 4) 0.

Definition scan_list (type blocks allocated : Z) (es : list Z) (m : map_scan) : map_scan :=
  foldl (fun m v => scan_entry type blocks allocated (Some v) m) m es.

Lemma scan_map_ok n i ob type blocks allocated m f :
  hf_wf f -> 0 <= i -> 0 <= ob -> ob + (i + Z.of_nat n) * 4 <= hf_len f ->
  scan_map n i ob type blocks allocated m f =
    (Done (scan_list type blocks allocated (file_entry f ob <$> seqZ i (Z.of_nat n)) m), f).
Proof.
  intros W Hi Hob. pose proof (hf_wf_len f W). pose proof (hf_wf_cap f W).
  revert i m Hi. induction n as [|n IH]; intros i m Hi Hl; cbn [scan_map]; [done|].
  rewrite u64_id by ulia.
  erewrite bind_done by (unfold try; rewrite host_read_ok by ulia; reflexivity).
  rewrite IH by lia. rewrite (seqZ_cons i) by lia. rewrite fmap_cons.
  replace (Z.succ i) with (i + 1) by lia. by replace (Z.pred (Z.of_nat (S n))) with (Z.of_nat n) by lia.
Qed.

(** ** What the counters say *)

Definition allocated_of (es : list Z) : list Z := filter (fun v => v <> VDI_BLOCK_UNALLOCATED) es.

Record scan_inv (allocated : Z) (es : list Z) (m : map_scan) : Prop := ScanInv {
  si_invalid : 0 <= ms_invalid m;
  si_duplicate : 0 <= ms_duplicate m;
  si_clean : exists seen, ms_seen m = Some seen /\
    (ms_invalid m = 0 -> ms_duplicate m = 0 ->
     NoDup (allocated_of es) /\ Forall (fun v => v < allocated) (allocated_of es) /\
     (forall v, v ∈ seen <-> v ∈ allocated_of es) /\ ms_allocated m = zlen (allocated_of es));
}.

Lemma scan_inv_step type blocks allocated es m v :
  scan_inv allocated es m -> scan_inv allocated (es ++ [v]) (scan_entry type blocks allocated (Some v) m).
Proof.
  intros [H1 H2 (seen & Es & H3)]. unfold scan_entry.
  assert (allocated_of (es ++ [v]) =
            allocated_of es ++ (if decide (v <> VDI_BLOCK_UNALLOCATED) then [v] else [])) as Ea.
  { unfold allocated_of. rewrite filter_app. f_equal. }
  destruct (Z.eqb_spec v VDI_BLOCK_UNALLOCATED) as [->|Hv].
  { rewrite decide_False, app_nil_r in Ea by (intros Hu; by apply Hu). split; simpl; [case_match; lia|done|].
    exists seen. split; [done|]. rewrite Ea. intros Hi. apply H3. case_match; lia. }
  rewrite decide_True in Ea by done.
  destruct ((allocated <=? v) || (blocks <=? v)) eqn:Eb.
  { split; simpl; [lia|done|]. exists seen. split; [done|]. intros; lia. }
  rewrite Es. simpl. split; simpl; [done|case_match; lia|].
  exists ({[v]} ∪ seen). split; [done|]. intros Hi Hd. case_match eqn:Em; [lia|].
  destruct (H3 Hi Hd) as (A1 & A2 & A3 & A4). rewrite Ea. split_and!.
  - apply NoDup_app. split; [done|]. split; [|apply NoDup_singleton].
    intros x Hx Hx'. apply list_elem_of_singleton in Hx' as ->. apply A3 in Hx. done.
  - apply Forall_app_2; [done|]. repeat constructor. lia.
  - intros x. rewrite elem_of_app, list_elem_of_singleton, <- A3, elem_of_union, elem_of_singleton. tauto.
  - rewrite A4, zlen_app. done.
Qed.

Lemma scan_inv_list type blocks allocated es es0 m :
  scan_inv allocated es0 m -> scan_inv allocated (es0 ++ es) (scan_list type blocks allocated es m).
Proof.
  revert es0 m. induction es as [|v es IH]; intros es0 m H; simpl; [by rewrite app_nil_r|].
  rewrite cons_middle, app_assoc. apply IH. by apply scan_inv_step.
Qed.

(** ** From a duplicate-free map to its owner function *)

Lemma allocated_inj (ent : Z -> Z) l x y :
  NoDup (allocated_of (ent <$> l)) -> x ∈ l -> y ∈ l -> ent x = ent y ->
  ent x <> VDI_BLOCK_UNALLOCATED -> NoDup l -> x = y.
Proof.
  unfold allocated_of. induction l as [|z l IH]; simpl; [by intros _ ?%elem_of_nil|].
  intros Hn Hx Hy E Hu [Hz Hl]%NoDup_cons. rewrite filter_cons in Hn.
  assert (forall w, w ∈ l -> ent w = ent z -> ent z <> VDI_BLOCK_UNALLOCATED -> False) as Hdup.
  { intros w Hw Ew Hne. rewrite decide_True in Hn by done. apply NoDup_cons in Hn as [Hn _]. apply Hn.
    apply list_elem_of_filter. split; [done|]. rewrite <- Ew. by apply list_elem_of_fmap_2. }
  assert (NoDup (filter (fun v => v <> VDI_BLOCK_UNALLOCATED) (ent <$> l))) as Hn'.
  { case_decide; [by apply NoDup_cons in Hn as [_ ?]|done]. }
  apply elem_of_cons in Hx as [->|Hx], Hy as [->|Hy]; auto.
  - exfalso. apply (Hdup y); auto.
  - exfalso. apply (Hdup x); auto. congruence.
Qed.

Lemma allocated_onto l n :
  NoDup l -> Forall (fun v => 0 <= v < n) l -> zlen l = n -> forall e, 0 <= e < n -> e ∈ l.
Proof.
  intros Hn HF Hl e He. assert (l ⊆+ seqZ 0 n) as Hs.
  { apply NoDup_submseteq; [done|]. intros x Hx. apply elem_of_seqZ. rewrite Forall_forall in HF.
    apply HF in Hx. lia. }
  apply submseteq_length_Permutation in Hs.
  - rewrite Hs. apply elem_of_seqZ. lia.
  - rewrite length_seqZ. unfold zlen in Hl. lia.
Qed.

Definition find_owner (ent : Z -> Z) (count e : Z) : Z :=
  match list_find (fun g => ent g = e) (seqZ 0 count) with Some (_, g) => g | None => 0 end.

Lemma find_owner_ok (ent : Z -> Z) count allocated :
  0 <= count -> (forall g, 0 <= ent g) ->
  NoDup (allocated_of (ent <$> seqZ 0 count)) ->
  Forall (fun v => v < allocated) (allocated_of (ent <$> seqZ 0 count)) ->
  allocated = zlen (allocated_of (ent <$> seqZ 0 count)) ->
  (forall g, 0 <= g < count -> ent g = VDI_BLOCK_UNALLOCATED \/
     0 <= ent g < allocated /\ find_owner ent count (ent g) = g) /\
  (forall e, 0 <= e < allocated -> 0 <= find_owner ent count e < count /\ ent (find_owner ent count e) = e).
Proof.
  intros Hc Hpos Hn HF Hl.
  assert (forall g, 0 <= g < count -> ent g <> VDI_BLOCK_UNALLOCATED -> ent g ∈ allocated_of (ent <$> seqZ 0 count)) as Hin.
  { intros g Hg Hu. apply list_elem_of_filter. split; [done|]. apply list_elem_of_fmap_2, elem_of_seqZ. lia. }
  assert (forall g, 0 <= g < count -> exists g', find_owner ent count (ent g) = g' /\ 0 <= g' < count /\ ent g' = ent g) as Hfo.
  { intros g Hg. unfold find_owner. destruct (list_find_elem_of (fun x => ent x = ent g) (seqZ 0 count) g) as [[i g'] E];
      [apply elem_of_seqZ; lia|done|]. rewrite E. apply list_find_Some in E as (El & Ee & _).
    apply list_elem_of_lookup_2, elem_of_seqZ in El. exists g'. split_and!; auto; lia. }
  split.
  - intros g Hg. destruct (decide (ent g = VDI_BLOCK_UNALLOCATED)); [by left|right].
    rewrite Forall_forall in HF. specialize (HF _ (Hin g Hg n)). split; [split; auto|].
    destruct (Hfo g Hg) as (g' & E & Hg' & Ee). rewrite E.
    apply (allocated_inj ent (seqZ 0 count)); auto using NoDup_seqZ; rewrite ?elem_of_seqZ; try lia; congruence.
  - intros e He. assert (e ∈ allocated_of (ent <$> seqZ 0 count)) as He'.
    { apply allocated_onto with allocated; auto. apply Forall_forall. intros x Hx. split.
      - apply list_elem_of_filter in Hx as [_ (g & -> & _)%list_elem_of_fmap]. auto.
      - rewrite Forall_forall in HF. auto. }
    apply list_elem_of_filter in He' as [_ (g & -> & Hg%elem_of_seqZ)%list_elem_of_fmap].
    destruct (Hfo g ltac:(lia)) as (g' & E & Hg' & Ee). rewrite E. auto.
Qed.

(** ** The report *)

Lemma CHECK_clean c k : 0 <= k.2 -> (CHECK c k).2 = 0 -> c = true /\ k.2 = 0.
Proof. destruct c; simpl; [auto|lia]. Qed.
Lemma CHECK_nonneg c k : 0 <= k.2 -> 0 <= (CHECK c k).2.
Proof. destruct c; simpl; lia. Qed.
Lemma check_all_clean cs k : 0 <= k.2 -> (check_all cs k).2 = 0 -> Forall (fun c => c = true) cs /\ k.2 = 0.
Proof.
  intros H0 H. pose proof (check_all_failed_le cs k).
  assert (k.2 = 0) by lia. split; [|done]. apply check_all_failed0 with k. lia.
Qed.

(** Everything a valid report of a dynamic image has checked. *)
Record vdi_checked (f : hostfile) (v : vdi_hdr) : Prop := VdiChecked {
  vc_sig : vh_sig v = VDI_SIGNATURE;
  vc_version : vh_version v = VDI_VERSION_1_1;
  vc_hdrsz : 0x180 <= vh_hdrsz v;
  vc_sector : vh_sector_size v = VDI_SECTOR_SIZE;
  vc_disk : vh_disk_size v <> 0;
  vc_bsize : vh_block_size v <> 0;
  vc_extra : vh_block_extra v = 0;
  vc_blocks : vh_blocks v <> 0;
  vc_allocated : vh_allocated v <= vh_blocks v;
  vc_map : VDI_HEADER_BYTES <= vh_off_blocks v;
  vc_map_end : vh_off_blocks v + vh_blocks v * 4 <= vh_off_data v;
  vc_room : vh_disk_size v <= u64 (vh_blocks v * vh_block_size v);
  vc_host : u64 (vh_off_data v + vh_allocated v * vh_block_size v) <= hf_len f;
  vc_scan : vh_blocks v <= 16 * 1024 * 1024 ->
    let es := file_entry f (vh_off_blocks v) <$> seqZ 0 (vh_blocks v) in
    NoDup (allocated_of es) /\ Forall (fun e => e < vh_allocated v) (allocated_of es) /\
    vh_allocated v = zlen (allocated_of es);
}.

(** The header fields are unsigned words. *)
Lemma parse_header_range h :
  Forall is_byte h -> let v := parse_header h in
  0 <= vh_off_blocks v < 2 ^ 32 /\ 0 <= vh_off_data v < 2 ^ 32 /\ 0 <= vh_block_size v < 2 ^ 32 /\
  0 <= vh_blocks v < 2 ^ 32 /\ 0 <= vh_allocated v < 2 ^ 32 /\ 0 <= vh_disk_size v.
Proof.
  intros HB. simpl. pose proof (le64_sum h HB 0x170). pose proof (le32_range h HB 0x170).
  pose proof (le32_range h HB (0x170 + 4)). split_and!; try apply le32_range; auto. lia.
Qed.

Lemma vdi_header_checks_nonneg v n : 0 <= (vdi_header_checks v n).2.
Proof.
  unfold vdi_header_checks. set (k := check_all _ (0, 0)). assert (0 <= k.2) by apply (check_all_failed_le _ (0, 0)).
  repeat case_match; auto using CHECK_nonneg. etransitivity; [exact H|apply check_all_failed_le].
Qed.

Lemma vdi_header_checks_dynamic v n :
  vh_type v = VDI_IMAGE_TYPE_DYNAMIC -> (vdi_header_checks v n).2 = 0 ->
  vh_sig v = VDI_SIGNATURE /\ vh_version v = VDI_VERSION_1_1 /\ 0x180 <= vh_hdrsz v /\
  vh_sector_size v = VDI_SECTOR_SIZE /\ vh_disk_size v <> 0 /\ vh_block_size v <> 0 /\
  vh_block_extra v = 0 /\ vh_blocks v <> 0 /\ vh_allocated v <= vh_blocks v /\
  VDI_HEADER_BYTES <= vh_off_blocks v /\ u64 (vh_off_blocks v + vh_blocks v * 4) <= vh_off_data v /\
  vh_disk_size v <= u64 (vh_blocks v * vh_block_size v) /\
  u64 (vh_off_data v + vh_allocated v * vh_block_size v) <= n.
Proof.
  intros Ht. unfold vdi_header_checks. rewrite Ht. set (k := check_all _ (0, 0)).
  assert (0 <= k.2) as Hk by apply (check_all_failed_le _ (0, 0)).
  change (VDI_IMAGE_TYPE_DYNAMIC =? VDI_IMAGE_TYPE_FIXED) with false.
  change (VDI_IMAGE_TYPE_DYNAMIC =? VDI_IMAGE_TYPE_DYNAMIC) with true. cbn [andb orb]. intros H.
  assert (k.2 = 0 /\ (vh_block_size v <> 0 -> u64 (vh_off_data v + vh_allocated v * vh_block_size v) <= n)) as [H0 Hr].
  { destruct (Z.eqb_spec (vh_block_size v) 0) as [|Hb]; cbn [negb] in H; [done|].
    apply CHECK_clean in H as [H H0]; [|done]. split; [done|]. lia. }
  apply check_all_clean in H0 as [H0 _]; [|done].
  repeat apply Forall_cons in H0 as [? H0]. split_and!; try lia.
  destruct (negb (vh_block_size v =? 0) && negb (vh_blocks v =? 0)); [lia|done].
Qed.

Lemma scan_clean f v type :
  let es := file_entry f (vh_off_blocks v) <$> seqZ 0 (vh_blocks v) in
  let m := scan_list type (vh_blocks v) (vh_allocated v) es (scan_start v) in
  ms_invalid m = 0 -> ms_duplicate m = 0 -> ms_allocated m = vh_allocated v ->
  vh_blocks v <= 16 * 1024 * 1024 ->
  NoDup (allocated_of es) /\ Forall (fun e => e < vh_allocated v) (allocated_of es) /\
  vh_allocated v = zlen (allocated_of es).
Proof.
  intros es m Hi Hd Ha Hsm.
  assert (scan_inv (vh_allocated v) [] (scan_start v)) as H0.
  { split; simpl; [lia|lia|]. exists ∅. rewrite (proj2 (Z.leb_le _ _)) by lia. split; [done|].
    intros _ _. split_and!; [constructor|constructor| |done]. intros x. unfold allocated_of.
    by rewrite filter_nil, elem_of_empty, elem_of_nil. }
  apply (scan_inv_list type (vh_blocks v) (vh_allocated v) es) in H0 as [_ _ (seen & _ & H)].
  simpl in H. destruct (H Hi Hd) as (A1 & A2 & _ & A4). split_and!; auto. by rewrite <- Ha.
Qed.

Lemma read_header_bytes f h f' : hf_wf f -> read_header f = (Done h, f') -> f' = f /\ Forall is_byte h.
Proof.
  intros W E. unfold read_header, VDI_HEADER_BYTES in E. pose proof W as [Wl Wc Wb].
  destruct (decide (512 <= hf_len f)).
  - rewrite host_read_ok in E by ulia. injection E as <- <-. split; [done|]. apply Forall_bytes_at. auto.
  - rewrite host_read_short in E by lia. discriminate.
Qed.

Lemma vdi_inspect_checked f info f' :
  hf_wf f -> vdisk_vdi_inspect f = (Done info, f') -> vi_structurally_valid info = true ->
  vi_image_type info = VDI_IMAGE_TYPE_DYNAMIC ->
  exists h, read_header f = (Done h, f) /\ vh_type (parse_header h) = VDI_IMAGE_TYPE_DYNAMIC /\
    Forall is_byte h /\ vdi_checked f (parse_header h) /\
    vi_blocks_count info = vh_blocks (parse_header h) /\ vi_data_offset info = vh_off_data (parse_header h) /\
    vi_block_size info = vh_block_size (parse_header h) /\
    vi_logical_size_bytes info = vh_disk_size (parse_header h).
Proof.
  intros W E Hv Ht. unfold vdisk_vdi_inspect in E. apply bind_inv in E as (h & f1 & E1 & E).
  unfold fail_as in E1. destruct (read_header f) as [[h'|rc|] f2] eqn:Eh; [|done|done].
  injection E1 as -> ->. destruct (read_header_bytes _ _ _ W Eh) as [-> HB].
  change (vdisk_host_get_size f) with (Done (hf_len f), f) in E. erewrite bind_done in E by reflexivity.
  cbv beta zeta in E. pose proof (parse_header_range h HB) as R. cbv zeta in R.
  exists h. revert E R. generalize (parse_header h). intros v E (R1 & R2 & R3 & R4 & R5 & R6).
  pose proof (vdi_header_checks_nonneg v (hf_len f)) as Hk.
  rewrite (u64_id (vh_off_blocks v + _)) in E by lia.
  case_match eqn:Esc; [|injection E as <- <-; simpl in Hv; lia].
  erewrite bind_done in E by (apply scan_map_ok; [done|lia..]). rewrite Z2Nat.id in E by lia.
  injection E as <- <-. simpl in Hv, Ht. apply Z.eqb_eq in Hv.
  apply check_all_clean in Hv as [Hm Hv]; [|done]. rewrite Ht in *.
  apply Forall_cons in Hm as [Hm1 Hm]. apply Forall_cons in Hm as [Hm2 Hm]. apply Forall_cons in Hm as [Hm3 Hm].
  destruct (vdi_header_checks_dynamic _ _ Ht Hv) as (?&?&?&?&?&?&?&?&?&?&Hme&?&?). rewrite u64_id in Hme by lia.
  split_and!; auto. split; auto. intros Hsm.
  apply (scan_clean f v VDI_IMAGE_TYPE_DYNAMIC); auto; lia.
Qed.

(** A dynamic image reported valid opens, and the opened disk is consistent. *)
Lemma vdi_inspect_open d f info f' :
  hf_wf f -> vdisk_vdi_inspect f = (Done info, f') -> vi_structurally_valid info = true ->
  vi_image_type info = VDI_IMAGE_TYPE_DYNAMIC -> vi_blocks_count info <= 16 * 1024 * 1024 ->
  vi_data_offset info + vi_blocks_count info * vi_block_size info <= LONG_MAX ->
  exists d', vdi_open (Vdst d f) = (Done tt, Vdst d' f) /\ dyn_ok (Vdst d' f) /\
    vd_size_bytes d' = vi_logical_size_bytes info /\ vd_writable d' = vd_writable d /\ vd_format d' = vd_format d.
Proof.
  intros W E Hv Ht Hsm Hlim.
  destruct (vdi_inspect_checked f info f' W E Hv Ht) as (h & Eh & Hty & HB & C & E1 & E2 & E3 & E4).
  pose proof (parse_header_range h HB) as R. cbv zeta in R. rewrite E1, E2, E3 in *.
  unfold vdi_open. erewrite bind_on_fp by (unfold fail_as; rewrite Eh; reflexivity).
  erewrite bind_on_fp by reflexivity. rewrite E4. clear E4 E1 E2 E3 E Hv Ht Eh HB info.
  revert Hty C Hsm Hlim R. generalize (parse_header h). intros v Hty C Hsm Hlim (R1 & R2 & R3 & R4 & R5 & R6).
  destruct C as [C1 C2 C3 C4 C5 C6 C7 C8 C9 C10 C11 C12 C13 C14]. specialize (C14 Hsm).
  unfold VDI_HEADER_BYTES in C10. rewrite (u64_id (vh_blocks v * _)) in * by nia.
  assert (vh_allocated v * vh_block_size v <= vh_blocks v * vh_block_size v) by nia.
  assert (0 <= vh_allocated v * vh_block_size v) by nia. rewrite u64_id in C13 by ulia.
  rewrite require_true by (rewrite C1, C2, C4, C7, Hty; unfold VDI_SIGNATURE, VDI_VERSION_1_1, VDI_SECTOR_SIZE,
    VDI_IMAGE_TYPE_DYNAMIC, VDI_IMAGE_TYPE_FIXED in *; lia).
  rewrite require_true by lia. rewrite Hty.
  change (VDI_IMAGE_TYPE_DYNAMIC =? VDI_IMAGE_TYPE_FIXED) with false. cbv iota.
  rewrite bind_assoc, require_true.
  2: { assert (vh_allocated v <= (UINT64_MAX - vh_off_data v) / vh_block_size v) by (apply Z.div_le_lower_bound; ulia). lia. }
  rewrite bind_ret, u64_id by ulia. rewrite require_true by lia.
  eexists. split; [reflexivity|]. split_and!; try done.
  destruct C14 as (N1 & N2 & N3).
  destruct (find_owner_ok (file_entry f (vh_off_blocks v)) (vh_blocks v) (vh_allocated v)) as [O1 O2]; auto; try lia.
  { intros g. apply le32_range. apply Forall_bytes_at. intros. apply W. }
  split; simpl; auto; try lia.
  - split; simpl; auto; ulia.
  - exists (find_owner (file_entry f (vh_off_blocks v)) (vh_blocks v)). by split.
Qed.

(** ** A valid image file

    The header of a one-block dynamic image of eight bytes, allocated. *)
Definition ex_header : list Z :=
  let h := zrep 512 0 in
  let h := splice h 0x40 (put32 VDI_SIGNATURE) in
  let h := splice h 0x44 (put32 VDI_VERSION_1_1) in
  let h := splice h 0x48 (put32 0x180) in
  let h := splice h 0x4c (put32 VDI_IMAGE_TYPE_DYNAMIC) in
  let h := splice h 0x154 (put32 512) in
  let h := splice h 0x158 (put32 516) in
  let h := splice h 0x168 (put32 512) in
  let h := splice h 0x170 (put64 8) in
  let h := splice h 0x178 (put32 8) in
  let h := splice h 0x180 (put32 1) in
  splice h 0x184 (put32 1).
Definition ex_image : hostfile :=
  HostFile 524 524 true (fun i => if i <? 512 then bget ex_header i else if i <? 516 then 0 else i - 515).

Lemma ex_image_wf : hf_wf ex_image.
Proof.
  split; simpl; [lia|ulia|]. intros i. unfold hf_at; simpl.
  assert (Forall is_byte ex_header) as H by decide_now. pose proof (is_byte_bget ex_header i H).
  unfold is_byte in *. btests.
Qed.

(** C10: the inspector is sound up to the size it looks for duplicates at.  A
    dynamic image of at most 16 Mi blocks, within the host's file offsets, that
    it reports structurally valid is accepted by [vdi_open], and the opened disk
    satisfies the invariant of sparse images: its block map is a bijection
    between allocated blocks and their guest blocks, all inside the file.  (A
    larger map is not searched for duplicates.) *)
Theorem vdi_inspect_sound (d : vdisk) (f : hostfile) (info : vdisk_info) (f' : hostfile) :
  hf_wf f -> vdisk_vdi_inspect f = (Done info, f') -> vi_structurally_valid info = true ->
  vi_image_type info = VDI_IMAGE_TYPE_DYNAMIC -> vi_blocks_count info <= 16 * 1024 * 1024 ->
  vi_data_offset info + vi_blocks_count info * vi_block_size info <= LONG_MAX ->
  exists d', vdi_open (Vdst d f) = (Done tt, Vdst d' f) /\ dyn_ok (Vdst d' f) /\
    vd_size_bytes d' = vi_logical_size_bytes info.
Proof.
  intros W E Hv Ht Hsm Hlim. destruct (vdi_inspect_open d f info f' W E Hv Ht Hsm Hlim) as (d' & ? & ? & ? & _).
  by exists d'.
Qed.
Lemma vdi_inspect_sound_witness :
  exists d', vdi_open (Vdst (Vdisk 0 0 0 0 0 0 0 0 0 true VDISK_FMT_VDI 0 None) ex_image) = (Done tt, Vdst d' ex_image) /\
    dyn_ok (Vdst d' ex_image) /\ vd_size_bytes d' = 8.
Proof.
  destruct (vdisk_vdi_inspect ex_image) as [o f'] eqn:E.
  assert (exists info, o = Done info /\ vi_structurally_valid info = true /\ vi_image_type info = 1 /\
    vi_blocks_count info = 1 /\ vi_data_offset info = 516 /\ vi_block_size info = 8 /\ vi_logical_size_bytes info = 8)
    as (info & -> & H1 & H2 & H3 & H4 & H5 & H6).
  { assert (o = (vdisk_vdi_inspect ex_image).1) as -> by (by rewrite E). vm_compute. eexists. split; [reflexivity|].
    repeat split. }
  rewrite <- H6. apply (vdi_inspect_sound _ _ info f' ex_image_wf E H1 H2); rewrite ?H3, ?H4, ?H5; ulia.
Defined.
