(* ===== verification/Libvdisk.v ===== *)
(** * Libvdisk: the public interface of libvdisk ([lib/vdisk/src/vdisk.c])

    Driver dispatch, opening with probing, creation, inspection by content, and
    the store every client sees: whatever its container format, an open disk
    implements the [ByteStore] interface and is indistinguishable from a flat
    disk of the same size. *)
From S2P Require Import Prelude Text HostFile Store Vdisk Raw Vhd Vmdk Vdi VdiSparse.
From stdpp Require Import gmap.
#[local] Open Scope Z_scope.

(** ** Dispatch *)

(** [driver_for]: the formats that have a driver. *)
Definition driver_for (f : vdisk_format) : bool :=
  match f with
  | VDISK_FMT_RAW | VDISK_FMT_VDI | VDISK_FMT_VMDK | VDISK_FMT_VHD => true
  | _ => false
  end.
(** A driver's [probe], [open], and the presence of [create_sparse]. *)
Definition driver_probe (f : vdisk_format) : comp hostfile bool :=
  match f with
  | VDISK_FMT_RAW => raw_probe
  | VDISK_FMT_VDI => vdi_probe
  | VDISK_FMT_VMDK => vmdk_probe
  | VDISK_FMT_VHD => vhd_probe
  | _ => ret false
  end.
Definition driver_open (f : vdisk_format) : comp handle unit :=
  match f with
  | VDISK_FMT_RAW => on_disk raw_open
  | VDISK_FMT_VDI => on_disk vdi_open
  | VDISK_FMT_VMDK => vmdk_open
  | VDISK_FMT_VHD => on_disk vhd_open
  | _ => fail (-1)
  end.
Definition driver_has_sparse (f : vdisk_format) : bool :=
  match f with VDISK_FMT_VDI => true | _ => false end.

(** What the environment supplies to a creation: the two VDI seeds, the VMDK
    seed and the clock. *)
Record host_env : Type := HostEnv { he_seed1 : Z; he_seed2 : Z; he_now : Z }.

Definition driver_create (e : host_env) (f : vdisk_format) (sparse : bool) (n : Z) : comp handle unit :=
  match f with
  | VDISK_FMT_RAW => on_disk (raw_create n)
  | VDISK_FMT_VDI => on_disk (if sparse then vdi_create_sparse (he_seed1 e) (he_seed2 e) n
                              else vdi_create_fixed (he_seed1 e) (he_seed2 e) n)
  | VDISK_FMT_VMDK => vmdk_create (he_seed1 e) n
  | VDISK_FMT_VHD => on_disk (vhd_create_fixed (he_now e) n)
  | _ => fail (-1)
  end.

(** [calloc] and the assignments before a driver runs. *)
Definition new_vdisk (format : vdisk_format) (writable : bool) (flags : Z) (uuid : option (list Z)) : vdisk :=
  Vdisk 0 0 0 0 0 0 0 0 0 writable format flags uuid.

Definition resolve_format (format : vdisk_format) (path : list Z) : vdisk_format :=
  if decide (format = VDISK_FMT_AUTO) then
    let hint := vdisk_format_from_extension path in
    if decide (hint = VDISK_FMT_AUTO) then VDISK_FMT_RAW else hint
  else format.

(** [vdisk_open]: the handle, or failure (the handle is then freed). *)
Definition vdisk_open (path : list Z) (format : vdisk_format) (fs : hostfs) : outcome handle :=
  if negb (fopen_rb path fs) then Fail (-1) else
  let writable := fopen_rbp path fs in
  let format := resolve_format format path in
  if negb (driver_for format) then Fail (-1) else
  let h := Handle fs (new_vdisk format writable 0 None) path path in
  match driver_probe format (hs_file path fs) with
  | (Done true, _) =>
      match driver_open format h with
      | (Done _, h) => Done h
      | (Fail _, _) => Fail (-1)
      | (NoFuel, _) => NoFuel
      end
  | (NoFuel, _) => NoFuel
  | _ => Fail (-1)
  end.

Definition VDISK_CREATE_SPARSE : Z := 0x00000001.

(** [vdisk_create_ex_uuid]: the outcome and the host tree left behind. *)
Definition vdisk_create_ex_uuid (e : host_env) (path : list Z) (format : vdisk_format) (n flags : Z)
    (uuid : option (list Z)) (fs : hostfs) : outcome handle * hostfs :=
  if n =? 0 then (Fail (-1), fs) else
  if negb (Z.land flags (UINT32_MAX - Z.lor VDISK_CREATE_SPARSE VDISK_CREATE_VMDK_LAYOUT_MASK) =? 0)
  then (Fail (-1), fs) else
  let format := resolve_format format path in
  let sparse := negb (Z.land flags VDISK_CREATE_SPARSE =? 0) in
  if negb (driver_for format) then (Fail (-1), fs) else
  if sparse && negb (driver_has_sparse format) then (Fail (-1), fs) else
  match fopen_wbp path fs with
  | None => (Fail (-1), fs)
  | Some fs =>
      match driver_create e format sparse n (Handle fs (new_vdisk format true flags uuid) path path) with
      | (Done _, h) => (Done h, hd_fs h)
      | (Fail _, h) => (Fail (-1), hd_fs h)
      | (NoFuel, h) => (NoFuel, hd_fs h)
      end
  end.
Definition vdisk_create_ex e path format n flags fs := vdisk_create_ex_uuid e path format n flags None fs.
Definition vdisk_create e path format n fs := vdisk_create_ex e path format n 0 fs.

Definition vdisk_read (off n : Z) : comp vdst (list Z) :=
  let* d := disk in
  match vd_format d with
  | VDISK_FMT_RAW => raw_read off n
  | VDISK_FMT_VDI => vdi_read off n
  | VDISK_FMT_VMDK => vmdk_read off n
  | VDISK_FMT_VHD => vhd_read off n
  | _ => fail (-1)
  end.
Definition vdisk_write (off : Z) (b : list Z) : comp vdst unit :=
  let* d := disk in
  match vd_format d with
  | VDISK_FMT_RAW => raw_write off b
  | VDISK_FMT_VDI => vdi_write off b
  | VDISK_FMT_VMDK => vmdk_write off b
  | VDISK_FMT_VHD => vhd_write off b
  | _ => fail (-1)
  end.
Definition vdisk_flush : comp vdst unit :=
  let* d := disk in
  match vd_format d with
  | VDISK_FMT_RAW => raw_flush
  | VDISK_FMT_VDI => vdi_flush
  | VDISK_FMT_VMDK => vmdk_flush
  | VDISK_FMT_VHD => vhd_flush
  | _ => fail (-1)
  end.

(** ** Inspection by content *)

Definition plain_info (format : vdisk_format) (host : Z) (supported valid : bool) (variant : string)
    (logical sector : Z) : vdisk_info :=
  VdiskInfo format host logical 0 0 0 sector 0 0 0 0 0 0 0 1 0 supported valid variant.

Definition vdisk_inspect (path : list Z) (fs : hostfs) : outcome vdisk_info :=
  if negb (fopen_rb path fs) then Fail (-1) else
  let f := hs_file path fs in
  let host_size := hf_len f in
  let got := host_fread f 0 512 in
  let head := got ++ zrep (512 - zlen got) 0 in
  let sig := le32 head 0x40 in
  if (0x44 <=? zlen got) && (sig =? VDI_SIGNATURE) then (vdisk_vdi_inspect f).1
  else if (4 <=? zlen got) && bool_decide (sub head 0 4 = [81; 70; 73; 0xfb])
  then Done (plain_info VDISK_FMT_QCOW2 host_size false false "recognized" 0 0)
  else if (4 <=? zlen got) && bool_decide (sub head 0 4 = str_bytes "KDMV")
  then Done (plain_info VDISK_FMT_VMDK host_size false false "sparse" 0 0)
  else if (20 <=? zlen got) && bool_decide (sub head 0 20 = vmdk_magic)
  then vdisk_vmdk_inspect path host_size fs f
  else
    let tail := if 512 <=? host_size then (vdisk_host_read (u64 (host_size - 512)) 512 f).1 else Fail (-1) in
    match tail with
    | Done t =>
        if bool_decide (sub t 0 8 = str_bytes "conectix") then (vdisk_vhd_inspect f).1
        else Done (plain_info VDISK_FMT_RAW host_size true true "plain/raw candidate" host_size 512)
    | _ => Done (plain_info VDISK_FMT_RAW host_size true true "plain/raw candidate" host_size 512)
    end.

(** ** The store *)

Definition is_sparse (d : vdisk) : bool :=
  bool_decide (vd_format d = VDISK_FMT_VDI) && negb (vd_image_type d =? VDI_IMAGE_TYPE_FIXED).

(** An open disk whose requests the host can serve: a consistent sparse image
    with room to be filled, or a contiguous image. *)
Definition vdisk_ok (s : vdst) : Prop :=
  match vd_format (vs_disk s) with
  | VDISK_FMT_RAW | VDISK_FMT_VMDK => linear_ok s /\ vd_data_offset (vs_disk s) = 0
  | VDISK_FMT_VHD => vhd_ok s
  | VDISK_FMT_VDI => if is_sparse (vs_disk s) then dyn_ok s /\ dyn_room s else linear_ok s
  | _ => False
  end.

#[export] Instance vdisk_store : ByteStore vdst := {|
  store_ok := vdisk_ok;
  store_size s := vd_size_bytes (vs_disk s);
  store_writable s := vd_writable (vs_disk s);
  store_at s := if is_sparse (vs_disk s) then dyn_at s else lin_at s;
  store_read := vdisk_read;
  store_write := vdisk_write;
|}.

Lemma is_sparse_format d : is_sparse d = true -> vd_format d = VDISK_FMT_VDI.
Proof. unfold is_sparse. intros [H _]%andb_true_iff. by apply bool_decide_eq_true in H. Qed.
Lemma vdisk_ok_sparse s : vdisk_ok s -> is_sparse (vs_disk s) = true -> dyn_ok s /\ dyn_room s.
Proof. intros H Hs. unfold vdisk_ok in H. by rewrite (is_sparse_format _ Hs), Hs in H. Qed.

(** A contiguous image is read and written at [data_offset + off]. *)
Lemma vdisk_ok_linear s : vdisk_ok s -> is_sparse (vs_disk s) = false ->
  linear_ok s /\
  (forall off n, 0 <= off -> 0 <= n ->
     vdisk_read off n s =
       if bounds_ok (vs_disk s) off n then on_fp (vdisk_host_read (vd_data_offset (vs_disk s) + off) n) s
       else (Fail (-1), s)) /\
  (forall off b, 0 <= off ->
     vdisk_write off b s =
       if vd_writable (vs_disk s) && bounds_ok (vs_disk s) off (zlen b)
       then on_fp (vdisk_host_write (vd_data_offset (vs_disk s) + off) b) s else (Fail (-1), s)).
Proof.
  intros H Hs. unfold vdisk_ok in H. rewrite Hs in H. destruct s as [d f]. simpl in *.
  unfold vdisk_read, vdisk_write, is_sparse in *.
  assert (linear_ok (Vdst d f) /\ (vd_format d <> VDISK_FMT_VDI -> vd_data_offset d = 0)) as [L H0].
  { destruct (vd_format d); try done; try tauto. split; [by apply vhd_ok_linear|]. intros _. by apply H. }
  split; [done|]. pose proof (linear_limit _ L) as Hlim. pose proof (lk_off _ L). simpl in *.
  assert (forall off n, 0 <= off -> 0 <= n -> bounds_ok d off n = true -> u64 (vd_data_offset d + off) = vd_data_offset d + off)
    as Hu.
  { intros off n Ho Hn Hb. apply bounds_ok_true in Hb; [|done]. apply u64_id. ulia. }
  split; intros; rewrite bind_disk; destruct (vd_format d) eqn:E; try done; try (specialize (H0 ltac:(done)); rewrite H0, Z.add_0_l).
  - unfold raw_read. rewrite bind_disk. destruct (bounds_ok d off n); by rewrite ?require_true, ?require_false by done.
  - unfold vdi_read. rewrite bind_disk. rewrite bool_decide_eq_true_2 in Hs by done.
    cbn [andb] in Hs. apply negb_false_iff in Hs. rewrite Hs.
    destruct (bounds_ok d off n) eqn:Eb; rewrite ?require_true, ?require_false by done; [|done]. by rewrite (Hu off n).
  - unfold vmdk_read. rewrite bind_disk. destruct (bounds_ok d off n); by rewrite ?require_true, ?require_false by done.
  - unfold vhd_read. rewrite bind_disk. destruct (bounds_ok d off n); by rewrite ?require_true, ?require_false by done.
  - unfold raw_write. rewrite bind_disk. by destruct (vd_writable d && bounds_ok d off (zlen b)).
  - unfold vdi_write. rewrite bind_disk. rewrite bool_decide_eq_true_2 in Hs by done.
    cbn [andb] in Hs. apply negb_false_iff in Hs. rewrite Hs.
    destruct (vd_writable d && bounds_ok d off (zlen b)) eqn:Eb; rewrite ?require_true, ?require_false by done; [|done].
    apply andb_true_iff in Eb as [_ Eb]. by rewrite (Hu off (zlen b)) by (auto using zlen_nonneg).
  - unfold vmdk_write. rewrite bind_disk. by destruct (vd_writable d && bounds_ok d off (zlen b)).
  - unfold vhd_write. rewrite bind_disk. by destruct (vd_writable d && bounds_ok d off (zlen b)).
Qed.

(** ** The store laws, and the refinement *)

#[export] Instance vdisk_laws : ByteStoreLaws vdst.
Proof.
  split; cbn [store_ok store_size store_writable store_at store_read store_write vdisk_store].
  - intros s off n Hs Ho [Hn _] Hl. destruct (is_sparse (vs_disk s)) eqn:E.
    + destruct (vdisk_ok_sparse s Hs E) as [D _]. unfold vdisk_read. destruct s as [d f]. rewrite bind_disk.
      rewrite (is_sparse_format d E), vdi_read_dyn by done. by rewrite (proj2 (Z.leb_le _ _)).
    + destruct (vdisk_ok_linear s Hs E) as (L & R & _). rewrite R by done.
      rewrite (proj2 (bounds_ok_true _ _ _ Hn) Hl). by apply linear_read_ok.
  - intros s off n Hs Ho [Hn _] Hl. destruct (is_sparse (vs_disk s)) eqn:E.
    + destruct (vdisk_ok_sparse s Hs E) as [D _]. unfold vdisk_read. destruct s as [d f]. rewrite bind_disk.
      rewrite (is_sparse_format d E), vdi_read_dyn by done. by rewrite (proj2 (Z.leb_gt _ _)).
    + destruct (vdisk_ok_linear s Hs E) as (L & R & _). rewrite R by done. by rewrite bounds_ok_false.
  - intros s off b Hs Hw HF Ho _ Hl. destruct (is_sparse (vs_disk s)) eqn:E.
    + destruct (vdisk_ok_sparse s Hs E) as [D Room]. unfold vdisk_write.
      destruct (vdi_write_dyn s off b D HF Ho) as (o & s' & k & Ew & D' & Sd & Hc & Ha & Hout).
      destruct Hout as [(-> & -> & _ & _)|(-> & [Hr|(_ & [?|?])])]; [|by destruct Hr|congruence|lia].
      exists s'. destruct s as [d f], s' as [d' f']. rewrite bind_disk, (is_sparse_format d E).
      simpl in Sd. assert (is_sparse d' = true) as E' by (rewrite Sd; done). simpl in *.
      split; [done|]. split; [|split_and!].
      * unfold vdisk_ok. simpl. rewrite (is_sparse_format _ E'), E'. split; [done|].
        unfold dyn_room in *. simpl in *. rewrite Hc, Sd. done.
      * by rewrite Sd.
      * by rewrite Sd.
      * intros i Hi. rewrite E'. rewrite Ha by (pose proof (dl_size _ (dk_layout _ D)); slia).
        by rewrite firstn_all.
    + destruct (vdisk_ok_linear s Hs E) as (L & _ & R). rewrite R by done.
      rewrite Hw, (proj2 (bounds_ok_true _ _ _ (zlen_nonneg b)) Hl). cbn [andb].
      destruct (linear_write_ok s L off b) as (f' & Ew & L' & F & Hlen & Ha); auto.
      exists (Vdst (vs_disk s) f'). rewrite Ew. cbn [vs_disk]. split; [done|]. split; [|split_and!; auto].
      * unfold vdisk_ok in *. cbn [vs_disk]. rewrite E in *. destruct (vd_format (vs_disk s)) eqn:Ef; try done; try tauto.
        destruct Hs as [V1 V2 V3 V4 V5]. split; cbn; auto; [lia|apply L'|].
        rewrite Hlen, <- V5. f_equal. apply bytes_at_ext. intros i Hi. apply (fr_out _ _ _ _ F); lia.
      * intros i Hi. rewrite E. apply Ha. lia.
  - intros s off b Hs Ho _ Hbad. destruct (is_sparse (vs_disk s)) eqn:E.
    + destruct s as [d f]. unfold vdisk_write. rewrite bind_disk, (is_sparse_format d E). unfold vdi_write. rewrite bind_disk.
      rewrite require_false; [done|]. destruct Hbad as [Hw|Hl]; simpl in *; [by rewrite Hw|].
      rewrite (bounds_ok_false d off (zlen b)) by (auto using zlen_nonneg). apply andb_false_r.
    + destruct (vdisk_ok_linear s Hs E) as (_ & _ & R). rewrite R by done. destruct Hbad as [-> | Hl]; [done|].
      rewrite (bounds_ok_false _ off (zlen b)) by (auto using zlen_nonneg). by rewrite andb_false_r.
Qed.

(** ** A small sparse image, to evaluate on

    Two blocks of four bytes; the second guest block is allocated. *)
Definition ex_file : hostfile :=
  HostFile 404 408 true
    (fun i => if i <? 392 then 0 else if i <? 396 then 255 else if i <? 400 then 0 else if i <? 404 then i - 399 else 0).
Definition ex_vdisk : vdisk :=
  Vdisk 8 400 404 4 0 392 2 1 VDI_IMAGE_TYPE_DYNAMIC true VDISK_FMT_VDI 1 None.
Definition ex_vdi : vdst := Vdst ex_vdisk ex_file.

Lemma ex_file_wf : hf_wf ex_file.
Proof. split; simpl; [lia|ulia|]. intros i. unfold hf_at, is_byte; simpl. btests. Qed.
Lemma ex_vdi_dyn_ok : dyn_ok ex_vdi /\ dyn_room ex_vdi.
Proof.
  split; [|unfold dyn_room; simpl; lia]. split; simpl; [|lia|lia|apply ex_file_wf|].
  - split; simpl; try done; ulia.
  - exists (fun _ => 1). split; simpl.
    + intros g Hg. assert (g = 0 \/ g = 1) as [-> | ->] by lia; [left; reflexivity|right].
      change (entry ex_vdi 1) with 0. lia.
    + intros e He. assert (e = 0) as -> by lia. split; [lia|reflexivity].
Qed.
Lemma ex_vdi_ok : store_ok ex_vdi.
Proof. apply ex_vdi_dyn_ok. Qed.

(** ** The theorems of libvdisk's interface *)

(** C1: whatever the container format, an open disk answers every sequence of
    reads and writes exactly as a flat disk with its size and content would:
    block maps, allocation on write, headers and footers are invisible. *)
Theorem vdisk_refines_flat (s : vdst) (rs : list request) :
  vdisk_ok s -> Forall request_ok rs ->
  serve_all rs s = serve_all rs (Flat (vd_size_bytes (vs_disk s)) (vd_writable (vs_disk s))
                                   (if is_sparse (vs_disk s) then dyn_at s else lin_at s)).
Proof. intros Hs Hrs. exact (store_simulates rs s Hs Hrs). Qed.
Lemma vdisk_refines_flat_witness :
  serve_all [Read 3 3; Write 2 [7; 8]; Read 0 8; Read 5 4] ex_vdi =
    [Some [0; 1; 2]; Some []; Some [0; 0; 7; 8; 1; 2; 3; 4]; None].
Proof.
  etransitivity; [apply vdisk_refines_flat; [apply ex_vdi_ok|]|].
  - decide_now.
  - vm_compute. reflexivity.
Defined.
