(* ===== verification/Diskio.v ===== *)
(** * Diskio: device keys and the images behind them ([src/diskio.c])

    The attachment registry: at most 64 open disks, each under a key, over one
    host tree; requests on an attached key go to libvdisk, requests on any
    other path to the host file of that name. *)
From S2P Require Import Prelude Text HostFile Store Vdisk Raw Vhd Vmdk Vdi VdiSparse Libvdisk.
From stdpp Require Import gmap.
#[local] Open Scope Z_scope.

(** ** Host files by path *)

Definition file_pread (n off : Z) (path : list Z) : comp hostfs (list Z) := fun fs =>
  if negb (fopen_rb path fs) then (Fail (-1), fs) else
  let '(o, _) := vdisk_host_read off n (hs_file path fs) in (o, fs).

Definition file_pwrite (buf : list Z) (off : Z) (path : list Z) : comp hostfs unit := fun fs =>
  if negb (fopen_rbp path fs) then (Fail (-1), fs) else
  let '(o, f) := (vdisk_host_write off buf ;;; host_flush) (hs_file path fs) in (o, hs_set path f fs).

Definition filesize_bytes (path : list Z) (fs : hostfs) : Z :=
  if fopen_rb path fs then hf_len (hs_file path fs) else 0.

(** ** The registry *)

(** [diskio_map_entry_t]; [de_fp] is the file the open disk is on. *)
Record dentry : Type := DEntry { de_key : list Z; de_path : list Z; de_disk : vdisk; de_fp : list Z }.
Record dio : Type := Dio { dio_map : list dentry; dio_fs : hostfs }.

Definition DISKIO_MAX_MAP : Z := 64.
Definition DISKIO_PATH_MAX : Z := 512.

Fixpoint map_find_from (i : nat) (devkey : list Z) (m : list dentry) : option nat :=
  match m with
  | [] => None
  | e :: m => if streq (de_key e) devkey then Some i else map_find_from (S i) devkey m
  end.
Definition map_find_index (devkey : list Z) (m : list dentry) : option nat := map_find_from 0 devkey m.

Definition is_devkey (s : list Z) : bool := starts_with (str_bytes "/dev/") s.

(** The host tree is visible to the whole registry. *)
Definition dio_set_fs (fs : hostfs) (s : dio) : dio := Dio (dio_map s) fs.

(** Run a backend operation on the disk of entry [i]. *)
Definition on_entry {A} (i : nat) (c : comp vdst A) : comp dio A := fun s =>
  match dio_map s !! i with
  | None => (Fail (-1), s)
  | Some e =>
      let '(o, h) := on_disk c (Handle (dio_fs s) (de_disk e) (de_path e) (de_fp e)) in
      (o, Dio (<[i := DEntry (de_key e) (de_path e) (hd_disk h) (de_fp e)]> (dio_map s)) (hd_fs h))
  end.

(** [diskio_attach_image]: the size of the image. *)
Definition diskio_attach_image (devkey path : list Z) : comp dio Z := fun s =>
  match devkey, path with
  | [], _ | _, [] => (Fail (-1), s)
  | _, _ =>
      match vdisk_open path VDISK_FMT_AUTO (dio_fs s) with
      | Done h =>
          let sz := vd_size_bytes (hd_disk h) in
          let s := dio_set_fs (hd_fs h) s in
          if sz =? 0 then (Fail (-1), s) else
          let e := DEntry (take 31 devkey) (take 511 path) (hd_disk h) (hd_fp h) in
          match map_find_index devkey (dio_map s) with
          | None =>
              if DISKIO_MAX_MAP <=? zlen (dio_map s) then (Fail (-1), s)
              else (Done sz, Dio (dio_map s ++ [e]) (dio_fs s))
          | Some idx => (Done sz, Dio (<[idx := e]> (dio_map s)) (dio_fs s))
          end
      | Fail _ => (Fail (-1), s)
      | NoFuel => (NoFuel, s)
      end
  end.

Definition diskio_detach (devkey : list Z) : comp dio unit := fun s =>
  match map_find_index devkey (dio_map s) with
  | None => (Fail (-1), s)
  | Some idx => (Done tt, Dio (delete idx (dio_map s)) (dio_fs s))
  end.

Definition diskio_resolve (devkey : list Z) (s : dio) : option (list Z) :=
  match map_find_index devkey (dio_map s) with
  | Some idx => de_path <$> dio_map s !! idx
  | None => if is_devkey devkey then None else match devkey with [] => None | _ => Some devkey end
  end.

Definition on_fs {A} (c : comp hostfs A) : comp dio A := zoom dio_fs dio_set_fs c.

Definition diskio_pread (devkey : list Z) (off len : Z) : comp dio (list Z) := fun s =>
  match map_find_index devkey (dio_map s) with
  | Some idx => fail_as (-1) (on_entry idx (vdisk_read off len)) s
  | None =>
      match diskio_resolve devkey s with
      | None => (Fail (-1), s)
      | Some path => fail_as (-1) (on_fs (file_pread len off path)) s
      end
  end.

Definition diskio_pwrite (devkey : list Z) (off : Z) (src : list Z) : comp dio unit := fun s =>
  match map_find_index devkey (dio_map s) with
  | Some idx => fail_as (-1) (on_entry idx (vdisk_write off src)) s
  | None =>
      match diskio_resolve devkey s with
      | None => (Fail (-1), s)
      | Some path => fail_as (-1) (on_fs (file_pwrite src off path)) s
      end
  end.

Definition diskio_flush (devkey : list Z) : comp dio unit := fun s =>
  match map_find_index devkey (dio_map s) with
  | Some idx => fail_as (-1) (on_entry idx vdisk_flush) s
  | None => require (negb (is_devkey devkey)) (-1) s
  end.

Definition diskio_size_bytes (devkey : list Z) (s : dio) : Z :=
  match map_find_index devkey (dio_map s) with
  | Some idx => match dio_map s !! idx with Some e => vd_size_bytes (de_disk e) | None => 0 end
  | None => match diskio_resolve devkey s with Some path => filesize_bytes path (dio_fs s) | None => 0 end
  end.

(** ** The registry as a map from keys *)

Lemma map_find_from_spec i devkey m :
  match map_find_from i devkey m with
  | Some j => exists k e, j = (i + k)%nat /\ m !! k = Some e /\ de_key e = devkey /\
      forall k' e', (k' < k)%nat -> m !! k' = Some e' -> de_key e' <> devkey
  | None => forall k e, m !! k = Some e -> de_key e <> devkey
  end.
Proof.
  revert i. induction m as [|e m IH]; intros i; simpl; [intros k e; by rewrite lookup_nil|].
  unfold streq. case_bool_decide as E.
  - exists O, e. split_and!; auto; intros; lia.
  - specialize (IH (S i)). destruct (map_find_from (S i) devkey m).
    + destruct IH as (k & e1 & -> & H1 & H2 & H3). exists (S k), e1. split_and!; auto; try lia.
      intros [|k'] e' Hk He'; simpl in He'; [congruence|]. apply (H3 k'); [lia|done].
    + intros [|k] e' He'; simpl in He'; [congruence|]. by apply (IH k).
Qed.
Lemma map_find_index_some devkey m i :
  map_find_index devkey m = Some i -> exists e, m !! i = Some e /\ de_key e = devkey.
Proof.
  intros H. pose proof (map_find_from_spec 0 devkey m) as S. unfold map_find_index in H. rewrite H in S.
  destruct S as (k & e & -> & ? & ? & _). eauto.
Qed.

(** Keys fit their field and are distinct; there are at most 64 of them. *)
Record dio_wf (s : dio) : Prop := DioWf {
  dw_nodup : NoDup (de_key <$> dio_map s);
  dw_count : zlen (dio_map s) <= DISKIO_MAX_MAP;
}.

Lemma dw_find s i e : dio_wf s -> dio_map s !! i = Some e -> map_find_index (de_key e) (dio_map s) = Some i.
Proof.
  intros [Hn _] He. pose proof (map_find_from_spec 0 (de_key e) (dio_map s)) as S. unfold map_find_index.
  destruct (map_find_from 0 (de_key e) (dio_map s)) as [j|].
  - destruct S as (k & e' & -> & Hk & Ek & _). f_equal. apply (NoDup_lookup (de_key <$> dio_map s) k i (de_key e)); auto.
    + by rewrite list_lookup_fmap, Hk; simpl; rewrite Ek.
    + by rewrite list_lookup_fmap, He.
  - by destruct (S i e).
Qed.

Lemma diskio_attach_wf devkey path s o s' :
  dio_wf s -> zlen devkey <= 31 -> diskio_attach_image devkey path s = (o, s') -> dio_wf s'.
Proof.
  intros Hs Hl. pose proof Hs as [Hn Hc]. unfold diskio_attach_image.
  destruct devkey as [|c k] eqn:Ek; [by intros [= <- <-]|]. destruct path as [|p pt] eqn:Ep; [by intros [= <- <-]|].
  rewrite <- Ek, <- Ep in *. destruct (vdisk_open path VDISK_FMT_AUTO (dio_fs s)) as [h|rc|]; try by intros [= <- <-].
  cbn [dio_map dio_fs dio_set_fs]. case_match; [by intros [= <- <-]|].
  assert (take 31 devkey = devkey) as -> by (apply take_ge; unfold zlen in Hl; lia).
  pose proof (map_find_from_spec 0 devkey (dio_map s)) as S. fold (map_find_index devkey (dio_map s)) in S.
  destruct (map_find_index devkey (dio_map s)) as [i|] eqn:Ei.
  - intros [= <- <-]. destruct S as (k' & e & -> & He & Hek & _). split; cbn [dio_map].
    + rewrite list_fmap_insert. cbn [de_key]. rewrite list_insert_id; [done|]. rewrite list_lookup_fmap. simpl. rewrite He. simpl. by rewrite Hek.
    + unfold zlen. by rewrite length_insert.
  - destruct (DISKIO_MAX_MAP <=? zlen (dio_map s)) eqn:E; intros [= <- <-]; [done|]. split; cbn [dio_map].
    + rewrite fmap_app. apply NoDup_app. split; [done|]. split; [|apply NoDup_singleton].
      intros x (e & -> & He)%list_elem_of_fmap Hx. apply list_elem_of_singleton in Hx.
      apply list_elem_of_lookup_1 in He as [j Hj]. by apply (S j e).
    + rewrite zlen_app. unfold DISKIO_MAX_MAP in *. change (zlen [_]) with 1. lia.
Qed.

Lemma diskio_detach_wf devkey s o s' :
  dio_wf s -> diskio_detach devkey s = (o, s') -> dio_wf s' /\ (o = Done tt -> map_find_index devkey (dio_map s') = None).
Proof.
  intros Hs. pose proof Hs as [Hn Hc]. unfold diskio_detach.
  destruct (map_find_index devkey (dio_map s)) as [i|] eqn:Ei; intros [= <- <-]; [|done].
  destruct (map_find_index_some _ _ _ Ei) as (e & He & Hk).
  assert (de_key <$> delete i (dio_map s) = delete i (de_key <$> dio_map s)) as Ed by apply list_fmap_delete.
  split.
  - split; cbn [dio_map].
    + rewrite Ed. eapply sublist_NoDup; [exact Hn|apply sublist_delete].
    + unfold zlen in *. rewrite length_delete by eauto. lia.
  - intros _. cbn [dio_map]. pose proof (map_find_from_spec 0 devkey (delete i (dio_map s))) as S.
    fold (map_find_index devkey (delete i (dio_map s))) in S.
    destruct (map_find_index devkey (delete i (dio_map s))) as [j|]; [|done]. exfalso.
    destruct S as (k & e' & -> & Hk' & Ek' & _).
    assert (exists k0, k0 <> i /\ dio_map s !! k0 = Some e') as (k0 & Hne & Hk0).
    { destruct (decide (k < i)%nat).
      - exists k. split; [lia|]. by rewrite list_lookup_delete_lt in Hk'.
      - exists (S k). split; [lia|]. by rewrite list_lookup_delete_ge in Hk' by lia. }
    apply Hne, (NoDup_lookup (de_key <$> dio_map s) k0 i devkey); auto.
    + by rewrite list_lookup_fmap, Hk0; simpl; rewrite Ek'.
    + by rewrite list_lookup_fmap, He; simpl; rewrite Hk.
Qed.
