(* ===== verification/Vblk.v ===== *)
(** * Vblk: block devices and partitions ([src/vblk.c])

    The device registry with its reusable slots, and the translation of
    device-relative requests into requests on the attached disk.  A device with
    a size is a slice of its disk; a slice inside the disk is a lawful
    [ByteStore], so everything proved about stores holds of partitions. *)
From S2P Require Import Prelude Text HostFile Store Vdisk Raw Vhd Vmdk Vdi VdiSparse Libvdisk Diskio.
From stdpp Require Import gmap.
#[local] Open Scope Z_scope.

Definition VBLK_MAX : Z := 256.
Definition LSEC : Z := 512.

(** [vblk_t]; a slot whose [vb_name] is empty is free. *)
Record vblk : Type := Vblk {
  vb_name : list Z;
  vb_dev : list Z;
  vb_part_index : Z;
  vb_fstype : list Z;
  vb_lba_start : Z;
  vb_lba_size : Z;
  vb_block_bytes : Z;
  vb_ro : bool;
}.
Definition vblk_zero : vblk := Vblk [] [] 0 [] 0 0 0 false.

(** ** The registry: [g_vblk[0 .. g_vblk_count)] *)

Definition is_free (e : vblk) : bool := match vb_name e with [] => true | _ => false end.

Fixpoint find_from (i : nat) (p : vblk -> bool) (g : list vblk) : option nat :=
  match g with
  | [] => None
  | e :: g => if p e then Some i else find_from (S i) p g
  end.

Definition find_by_name (name : list Z) (g : list vblk) : option nat :=
  find_from 0 (fun e => negb (is_free e) && streq (vb_name e) name) g.

Definition vblk_by_name (name : list Z) (g : list vblk) : option vblk :=
  match find_by_name name g with Some i => g !! i | None => None end.

Definition vblk_register (entry : vblk) : comp (list vblk) Z := fun g =>
  if is_free entry then (Fail (-1), g) else
  match find_by_name (vb_name entry) g with
  | Some idx => (Done (Z.of_nat idx), <[idx := entry]> g)
  | None =>
      match find_from 0 is_free g with
      | Some i => (Done (Z.of_nat i), <[i := entry]> g)
      | None => if VBLK_MAX <=? zlen g then (Fail (-1), g) else (Done (zlen g), g ++ [entry])
      end
  end.

(** Is [name] the parent's name followed by digits (and not the parent)? *)
Definition is_child (parent_name name : list Z) : bool :=
  match name with
  | [] => false
  | _ =>
      match after_prefix parent_name name with
      | None | Some [] => false
      | Some suffix => forallb isdigit suffix
      end
  end.

Definition vblk_remove_children (parent_name : list Z) (g : list vblk) : Z * list vblk :=
  match parent_name with
  | [] => (0, g)
  | _ =>
      (zlen (filter (fun e => is_child parent_name (vb_name e) = true) g),
       (fun e => if is_child parent_name (vb_name e) then vblk_zero else e) <$> g)
  end.

Definition vblk_clear (g : list vblk) : list vblk := [].

Definition base_of (s : list Z) : list Z :=
  match after_prefix (str_bytes "/dev/") s with Some r => r | None => s end.

(** The index of the device a key names. *)
Definition vblk_open (key : list Z) (g : list vblk) : option nat :=
  match key with
  | [] => None
  | _ =>
      let sized i := match g !! i with
                     | Some e => if vb_lba_size e =? 0 then None else Some i
                     | None => None
                     end in
      match find_from 0 (fun e => negb (is_free e) &&
                           (streq (vb_name e) key ||
                            (match vb_dev e with [] => false | _ => streq (vb_dev e) key end))) g with
      | Some i => sized i
      | None =>
          let base := base_of key in
          if bool_decide (is_Some (after_prefix (str_bytes "/dev/") key)) then
            match find_from 0 (fun e => streq (vb_name e) base) g with
            | Some i => sized i
            | None => None
            end
          else None
      end
  end.

(** ** Requests *)

Definition vblk_limit_bytes (dev : vblk) : Z :=
  if vb_lba_size dev =? 0 then UINT64_MAX else u64 (vb_lba_size dev * LSEC).

Definition vblk_backing_key (dev : vblk) : list Z :=
  match vb_dev dev with [] => vb_name dev | k => k end.

Definition vblk_read_bytes (dev : vblk) (off len : Z) : comp dio (list Z) :=
  let limit := vblk_limit_bytes dev in
  require (negb ((limit <? off) || (limit - off <? len))) (-1) ;;;
  let abs_off := u64 (u64 (vb_lba_start dev * LSEC) + off) in
  diskio_pread (vblk_backing_key dev) abs_off len.

Definition vblk_write_bytes (dev : vblk) (off : Z) (src : list Z) : comp dio unit :=
  require (negb (vb_ro dev)) (-1) ;;;
  let limit := vblk_limit_bytes dev in
  require (negb ((limit <? off) || (limit - off <? zlen src))) (-1) ;;;
  let abs_off := u64 (u64 (vb_lba_start dev * LSEC) + off) in
  diskio_pwrite (vblk_backing_key dev) abs_off src.

Definition vblk_bsz (dev : vblk) : Z := if vb_block_bytes dev =? 0 then LSEC else vb_block_bytes dev.

Fixpoint read_blocks_loop (fuel : nat) (dev : vblk) (off len : Z) : comp dio (list Z) :=
  if len =? 0 then ret [] else
  match fuel with
  | O => nofuel
  | S fuel =>
      let step := if UINT32_MAX <? len then UINT32_MAX else len in
      let* p := vblk_read_bytes dev off step in
      let* rest := read_blocks_loop fuel dev (u64 (off + step)) (len - step) in
      ret (p ++ rest)
  end.
(** Iterations of the block loops: [UINT32_MAX] bytes each, and a last one. *)
Definition blocks_fuel (len : Z) : nat := S (Z.to_nat (len / UINT32_MAX)).

Definition vblk_read_blocks (dev : vblk) (lba count : Z) : comp dio (list Z) :=
  require (negb (count =? 0)) (-1) ;;;
  let bsz := vblk_bsz dev in
  require (negb (UINT64_MAX / bsz <? lba)) (-1) ;;;
  let off := u64 (lba * bsz) in
  let len := u64 (count * bsz) in
  read_blocks_loop (blocks_fuel len) dev off len.

Fixpoint write_blocks_loop (fuel : nat) (dev : vblk) (off : Z) (src : list Z) : comp dio unit :=
  if zlen src =? 0 then ret tt else
  match fuel with
  | O => nofuel
  | S fuel =>
      let step := if UINT32_MAX <? zlen src then UINT32_MAX else zlen src in
      vblk_write_bytes dev off (take (Z.to_nat step) src) ;;;
      write_blocks_loop fuel dev (u64 (off + step)) (drop (Z.to_nat step) src)
  end.

(** [src] is the [count * bsz] bytes the caller passes. *)
Definition vblk_write_blocks (dev : vblk) (lba count : Z) (src : list Z) : comp dio unit :=
  require (negb ((count =? 0) || vb_ro dev)) (-1) ;;;
  let bsz := vblk_bsz dev in
  require (negb (UINT64_MAX / bsz <? lba)) (-1) ;;;
  let off := u64 (lba * bsz) in
  write_blocks_loop (blocks_fuel (zlen src)) dev off src.

Definition vblk_size_bytes (dev : vblk) (s : dio) : Z :=
  if negb (vb_lba_size dev =? 0) then u64 (vb_lba_size dev * LSEC) else
  let total := diskio_size_bytes (vblk_backing_key dev) s in
  let base := u64 (vb_lba_start dev * LSEC) in
  if base <? total then total - base else 0.

Definition vblk_flush (dev : vblk) : comp dio unit := diskio_flush (vblk_backing_key dev).

(** (resolved path, base offset, length) *)
Definition vblk_resolve_to_base (name : list Z) (key_sz : Z) (g : list vblk) (s : dio) : option (list Z * Z * Z) :=
  if key_sz =? 0 then None else
  match vblk_by_name name g with
  | None => None
  | Some vb =>
      match diskio_resolve (vblk_backing_key vb) s with
      | None => None
      | Some resolved =>
          Some (take (Z.to_nat (key_sz - 1)) resolved, u64 (vb_lba_start vb * LSEC),
                if negb (vb_lba_size vb =? 0) then u64 (vb_lba_size vb * LSEC) else vblk_size_bytes vb s)
      end
  end.

(** ** Registry properties *)

Lemma find_from_spec i p g :
  match find_from i p g with
  | Some j => exists k e, j = (i + k)%nat /\ g !! k = Some e /\ p e = true /\
      forall k' e', (k' < k)%nat -> g !! k' = Some e' -> p e' = false
  | None => forall k e, g !! k = Some e -> p e = false
  end.
Proof.
  revert i. induction g as [|e g IH]; intros i; simpl; [intros k e; by rewrite lookup_nil|].
  destruct (p e) eqn:E.
  - exists O, e. split_and!; auto; intros; lia.
  - specialize (IH (S i)). destruct (find_from (S i) p g).
    + destruct IH as (k & e1 & -> & H1 & H2 & H3). exists (S k), e1. split_and!; auto; try lia.
      intros [|k'] e' Hk He'; simpl in He'; [congruence|]. apply (H3 k'); [lia|done].
    + intros [|k] e' He'; simpl in He'; [congruence|]. by apply (IH k).
Qed.

(** Live names are distinct, and the table has at most [VBLK_MAX] slots. *)
Record registry_ok (g : list vblk) : Prop := RegistryOk {
  rg_inj : forall i j a b, g !! i = Some a -> g !! j = Some b -> vb_name a <> [] -> vb_name a = vb_name b -> i = j;
  rg_len : zlen g <= VBLK_MAX;
}.

Lemma is_free_name e : is_free e = true <-> vb_name e = [].
Proof. unfold is_free. by destruct (vb_name e). Qed.
Lemma not_free_name e : is_free e = false <-> vb_name e <> [].
Proof. unfold is_free. by destruct (vb_name e). Qed.

(** A lookup by name finds the entry with that name, and only fails when there is none. *)
Lemma find_by_name_spec g name :
  name <> [] ->
  match find_by_name name g with
  | Some i => exists e, g !! i = Some e /\ vb_name e = name
  | None => forall i e, g !! i = Some e -> vb_name e <> name
  end.
Proof.
  intros Hn. unfold find_by_name. pose proof (find_from_spec 0 (fun e => negb (is_free e) && streq (vb_name e) name) g) as S.
  destruct (find_from 0 _ g) as [i|].
  - destruct S as (k & e & -> & He & Hp & _). exists e. split; [done|].
    apply andb_true_iff in Hp as [_ Hp]. unfold streq in Hp. by apply bool_decide_eq_true in Hp.
  - intros i e He Hne. specialize (S i e He). unfold streq in S. rewrite bool_decide_eq_true_2, andb_true_r in S by done.
    apply negb_false_iff, is_free_name in S. congruence.
Qed.

Lemma registry_insert g i e :
  registry_ok g -> vb_name e <> [] -> (forall j a, g !! j = Some a -> vb_name a = vb_name e -> j = i) ->
  registry_ok (<[i := e]> g).
Proof.
  intros [Hi Hl] He Hu. split; [|unfold zlen; by rewrite length_insert].
  intros j k a b Hj Hk Hna Hab.
  apply list_lookup_insert_Some in Hj as [(-> & -> & Hlt)|(Hne & Hj)], Hk as [(-> & -> & Hlt')|(Hne' & Hk)]; auto.
  - symmetry. by apply (Hu k b).
  - by apply (Hu j a).
  - by apply (Hi j k a b).
Qed.

Lemma by_name_self g i e :
  registry_ok g -> vb_name e <> [] -> g !! i = Some e -> vblk_by_name (vb_name e) g = Some e.
Proof.
  intros Hg Hn Hi. unfold vblk_by_name. pose proof (find_by_name_spec g (vb_name e) Hn) as S.
  destruct (find_by_name (vb_name e) g) as [j|]; [|by destruct (S i e)].
  destruct S as (e' & Hj & En). rewrite Hj.
  assert (j = i) as -> by (apply (rg_inj _ Hg j i e' e); congruence). congruence.
Qed.
(** A lookup depends only on which entries carry the name. *)
Lemma by_name_same g g' name :
  registry_ok g -> registry_ok g' -> name <> [] ->
  (forall a, vb_name a = name -> (exists i, g !! i = Some a) <-> exists i, g' !! i = Some a) ->
  vblk_by_name name g' = vblk_by_name name g.
Proof.
  intros H0 H1 Hn Hiff. unfold vblk_by_name.
  pose proof (find_by_name_spec g name Hn) as S0. pose proof (find_by_name_spec g' name Hn) as S1.
  destruct (find_by_name name g) as [i|], (find_by_name name g') as [j|].
  - destruct S0 as (a & Ha & Ea), S1 as (b & Hb & Eb). rewrite Ha, Hb.
    destruct (proj1 (Hiff a Ea) (ex_intro _ i Ha)) as [k Hk].
    assert (k = j) as -> by (apply (rg_inj _ H1 k j a b); congruence). congruence.
  - destruct S0 as (a & Ha & Ea). destruct (proj1 (Hiff a Ea) (ex_intro _ i Ha)) as [k Hk]. by destruct (S1 k a).
  - destruct S1 as (b & Hb & Eb). destruct (proj2 (Hiff b Eb) (ex_intro _ j Hb)) as [k Hk]. by destruct (S0 k b).
  - done.
Qed.

(** Registration: the table stays well formed and the entry is found under its
    name; no other name is disturbed. *)
Lemma vblk_register_ok g e :
  registry_ok g ->
  match vblk_register e g with
  | (Done i, g') => vb_name e <> [] /\ registry_ok g' /\ g' !! Z.to_nat i = Some e /\ vblk_by_name (vb_name e) g' = Some e /\
      (forall name, name <> [] -> name <> vb_name e -> vblk_by_name name g' = vblk_by_name name g)
  | (Fail _, g') => g' = g /\
      (vb_name e = [] \/ zlen g = VBLK_MAX /\ forall i a, g !! i = Some a -> vb_name a <> [] /\ vb_name a <> vb_name e)
  | (NoFuel, _) => False
  end.
Proof.
  intros Hg. unfold vblk_register. destruct (is_free e) eqn:Ef; [apply is_free_name in Ef; auto|].
  apply not_free_name in Ef.
  pose proof (find_by_name_spec g (vb_name e) Ef) as S. destruct (find_by_name (vb_name e) g) as [i|].
  - destruct S as (a & Ha & Ea). pose proof (lookup_lt_Some _ _ _ Ha) as Hlt.
    assert (registry_ok (<[i := e]> g)) as Hg'.
    { apply registry_insert; auto. intros j b Hj Eb. apply (rg_inj _ Hg j i b a); congruence. }
    rewrite Nat2Z.id, list_lookup_insert_eq by done. split_and!; auto.
    { apply (by_name_self _ i); [done|done|]. by apply list_lookup_insert_eq. }
    intros name Hn Hne. apply by_name_same; auto. intros b Hb. split; intros [k Hk].
    + exists k. rewrite list_lookup_insert_ne; [done|]. intros <-. congruence.
    + apply list_lookup_insert_Some in Hk as [(-> & -> & _)|(_ & Hk)]; [congruence|eauto].
  - pose proof (find_from_spec 0 is_free g) as F. destruct (find_from 0 is_free g) as [i|].
    + destruct F as (k & a & -> & Ha & Fa & _). simpl in *. pose proof (lookup_lt_Some _ _ _ Ha) as Hlt.
      assert (registry_ok (<[k := e]> g)) as Hg'.
      { apply registry_insert; auto. intros j b Hj Eb. by destruct (S j b). }
      rewrite Nat2Z.id, list_lookup_insert_eq by done. split_and!; auto.
      { apply (by_name_self _ k); [done|done|]. by apply list_lookup_insert_eq. }
      intros name Hn Hne. apply by_name_same; auto. apply is_free_name in Fa. intros b Hb. split; intros [j Hj].
      * exists j. rewrite list_lookup_insert_ne; [done|]. intros <-. congruence.
      * apply list_lookup_insert_Some in Hj as [(-> & -> & _)|(_ & Hj)]; [congruence|eauto].
    + pose proof (rg_len _ Hg). destruct (Z.leb_spec VBLK_MAX (zlen g)).
      { split; [done|]. right. split; [lia|]. intros i a Ha. split; [|by apply (S i)]. by apply not_free_name, (F i). }
      assert (registry_ok (g ++ [e])) as Hg'.
      { split; [|rewrite zlen_app; change (zlen [e]) with 1; lia]. intros i j a b Hi Hj Hna Hab.
        apply lookup_app_Some in Hi as [Hi|[Hi1 Hi]], Hj as [Hj|[Hj1 Hj]].
        - by apply (rg_inj _ Hg i j a b).
        - apply list_lookup_singleton_Some in Hj as [Hj2 <-]. by destruct (S i a).
        - apply list_lookup_singleton_Some in Hi as [Hi2 <-]. by destruct (S j b).
        - apply list_lookup_singleton_Some in Hi as [Hi2 _], Hj as [Hj2 _]. lia. }
      assert ((g ++ [e]) !! length g = Some e) as Hlast by (rewrite lookup_app_r, Nat.sub_diag by lia; done).
      unfold zlen. rewrite Nat2Z.id. split_and!; auto. { by apply (by_name_self _ (length g)). }
      intros name Hn Hne. apply by_name_same; auto. intros b Hb. split; intros [j Hj].
      * exists j. by apply lookup_app_l_Some.
      * apply lookup_app_Some in Hj as [Hj|[_ Hj]]; [eauto|].
        apply list_lookup_singleton_Some in Hj as [_ <-]. congruence.
Qed.

(** The slot of a device with another name is not touched. *)
Lemma vblk_register_slot g e k d :
  g !! k = Some d -> vb_name d <> [] -> vb_name d <> vb_name e -> (vblk_register e g).2 !! k = Some d.
Proof.
  intros Hk Hn Hne. unfold vblk_register. destruct (is_free e) eqn:Ef; [done|]. apply not_free_name in Ef.
  pose proof (find_by_name_spec g (vb_name e) Ef) as S. destruct (find_by_name (vb_name e) g) as [i|].
  - destruct S as (a & Ha & Ea). simpl. rewrite list_lookup_insert_ne; [done|]. intros ->. congruence.
  - pose proof (find_from_spec 0 is_free g) as F. destruct (find_from 0 is_free g) as [i|].
    + destruct F as (j & a & -> & Ha & Fa & _). apply is_free_name in Fa. simpl.
      rewrite list_lookup_insert_ne; [done|]. intros <-. congruence.
    + destruct (VBLK_MAX <=? zlen g); [done|]. simpl. by apply lookup_app_l_Some.
Qed.

(** A device is not its own child. *)
Lemma is_child_self name : is_child name name = false.
Proof.
  assert (after_prefix name name = Some []) as Ea by (rewrite <- (app_nil_r name) at 2; apply after_prefix_app).
  unfold is_child. rewrite Ea. by destruct name.
Qed.

(** Removing the children of a parent removes exactly those names. *)
Lemma vblk_remove_children_ok parent g :
  registry_ok g -> parent <> [] ->
  let g' := (vblk_remove_children parent g).2 in
  registry_ok g' /\
  (forall name, name <> [] -> vblk_by_name name g' = if is_child parent name then None else vblk_by_name name g) /\
  is_child parent parent = false.
Proof.
  intros Hg Hp. destruct parent as [|c p]; [done|]. set (parent := c :: p) in *. cbv zeta.
  pose proof (is_child_self parent) as Hself.
  set (f := fun e => if is_child parent (vb_name e) then vblk_zero else e).
  change (vblk_remove_children parent g).2 with (f <$> g).
  assert (registry_ok (f <$> g)) as Hg'.
  { split; [|rewrite zlen_fmap; apply Hg]. intros i j a b Hi Hj Hna Hab.
    rewrite list_lookup_fmap in Hi, Hj. destruct (g !! i) as [a0|] eqn:Ei; [|done]. destruct (g !! j) as [b0|] eqn:Ej; [|done].
    simpl in Hi, Hj. injection Hi as <-. injection Hj as <-. unfold f in *.
    destruct (is_child parent (vb_name a0)); [done|]. destruct (is_child parent (vb_name b0)); [done|].
    by apply (rg_inj _ Hg i j a0 b0). }
  split; [done|]. split; [|done]. intros name Hn. unfold vblk_by_name.
  pose proof (find_by_name_spec (f <$> g) name Hn) as S1. pose proof (find_by_name_spec g name Hn) as S0.
  destruct (find_by_name name (f <$> g)) as [j|].
  - destruct S1 as (b & Hb & Eb). rewrite Hb. rewrite list_lookup_fmap in Hb.
    destruct (g !! j) as [b0|] eqn:Ej; [|done]. simpl in Hb. injection Hb as <-. unfold f in *.
    destruct (is_child parent (vb_name b0)) eqn:Ec; [simpl in Eb; congruence|]. rewrite <- Eb, Ec.
    rewrite <- Eb in S0. destruct (find_by_name (vb_name b0) g) as [i|]; [|by destruct (S0 j b0)].
    destruct S0 as (a & Ha & Ea). rewrite Ha. assert (i = j) as -> by (apply (rg_inj _ Hg i j a b0); congruence). congruence.
  - destruct (is_child parent name) eqn:Ec; [done|]. destruct (find_by_name name g) as [i|]; [|done].
    destruct S0 as (a & Ha & Ea). exfalso. apply (S1 i a); [|done]. rewrite list_lookup_fmap, Ha. simpl. unfold f.
    by rewrite Ea, Ec.
Qed.

(** ** Slices of an attached disk *)

(** The open disk behind registry entry [i], with its host file. *)
Definition entry_disk (e : dentry) (fs : hostfs) : vdst := Vdst (de_disk e) (hs_file (de_fp e) fs).

(** [s] after entry [i] moved to disk state [st]. *)
Definition entry_put (i : nat) (e : dentry) (st : vdst) (s : dio) : dio :=
  Dio (<[i := DEntry (de_key e) (de_path e) (vs_disk st) (de_fp e)]> (dio_map s)) (hs_set (de_fp e) (vs_fp st) (dio_fs s)).

Lemma on_entry_eq {A} i (c : comp vdst A) s e o st :
  dio_map s !! i = Some e -> c (entry_disk e (dio_fs s)) = (o, st) -> on_entry i c s = (o, entry_put i e st s).
Proof.
  intros He Ec. unfold on_entry. rewrite He. unfold on_disk, zoom. cbn [hd_disk hd_fp hd_fs].
  unfold entry_disk in Ec. rewrite Ec. done.
Qed.

(** A device over an attached disk. *)
Record slice : Type := Slice { sl_dev : vblk; sl_io : dio }.

Definition slice_entry (s : slice) : option (nat * dentry) :=
  match map_find_index (vblk_backing_key (sl_dev s)) (dio_map (sl_io s)) with
  | Some i => match dio_map (sl_io s) !! i with Some e => Some (i, e) | None => None end
  | None => None
  end.
Definition slice_disk (s : slice) : option vdst :=
  match slice_entry s with Some (_, e) => Some (entry_disk e (dio_fs (sl_io s))) | None => None end.
Definition slice_base (s : slice) : Z := vb_lba_start (sl_dev s) * LSEC.
Definition slice_size (s : slice) : Z := vb_lba_size (sl_dev s) * LSEC.

(** The device has a size, and lies inside a disk that serves its requests. *)
Definition slice_ok (s : slice) : Prop :=
  0 <= vb_lba_start (sl_dev s) /\ 0 < vb_lba_size (sl_dev s) /\
  exists i e, slice_entry s = Some (i, e) /\
    is_Some (hs_nodes (dio_fs (sl_io s)) !! de_fp e) /\
    vdisk_ok (entry_disk e (dio_fs (sl_io s))) /\
    slice_base s + slice_size s <= vd_size_bytes (de_disk e) <= LONG_MAX.

#[export] Instance slice_store : ByteStore slice := {|
  store_ok := slice_ok;
  store_size := slice_size;
  store_writable s := negb (vb_ro (sl_dev s)) &&
    match slice_disk s with Some st => vd_writable (vs_disk st) | None => false end;
  store_at s o := match slice_disk s with Some st => store_at st (slice_base s + o) | None => 0 end;
  store_read off n s := zoom sl_io (fun io s => Slice (sl_dev s) io) (vblk_read_bytes (sl_dev s) off n) s;
  store_write off b s := zoom sl_io (fun io s => Slice (sl_dev s) io) (vblk_write_bytes (sl_dev s) off b) s;
|}.

Lemma slice_entry_some s i e :
  slice_entry s = Some (i, e) ->
  map_find_index (vblk_backing_key (sl_dev s)) (dio_map (sl_io s)) = Some i /\ dio_map (sl_io s) !! i = Some e /\
  de_key e = vblk_backing_key (sl_dev s).
Proof.
  unfold slice_entry. destruct (map_find_index _ _) as [j|] eqn:Ej; [|done].
  destruct (map_find_index_some _ _ _ Ej) as (e' & He & Hk). rewrite He. intros [= -> ->]. auto.
Qed.

(** Moving the disk of the entry keeps the entry where it is. *)
Lemma slice_entry_put dev io i e st :
  slice_entry (Slice dev io) = Some (i, e) ->
  slice_entry (Slice dev (entry_put i e st io)) =
    Some (i, DEntry (de_key e) (de_path e) (vs_disk st) (de_fp e)).
Proof.
  intros H. destruct (slice_entry_some _ _ _ H) as (Hf & He & Hk). simpl in *. unfold slice_entry. simpl.
  set (e2 := DEntry (de_key e) (de_path e) (vs_disk st) (de_fp e)).
  pose proof (lookup_lt_Some _ _ _ He) as Hlt.
  assert (map_find_index (vblk_backing_key dev) (<[i:=e2]> (dio_map io)) = Some i) as ->.
  { unfold map_find_index in *. pose proof (map_find_from_spec 0 (vblk_backing_key dev) (dio_map io)) as S0.
    rewrite Hf in S0. destruct S0 as (k & e0 & -> & Hk0 & Ek0 & Hmin). simpl in *.
    pose proof (map_find_from_spec 0 (vblk_backing_key dev) (<[k:=e2]> (dio_map io))) as S1.
    destruct (map_find_from 0 (vblk_backing_key dev) (<[k:=e2]> (dio_map io))) as [j|].
    - destruct S1 as (k' & e1 & -> & Hk1 & Ek1 & Hmin1). simpl. f_equal.
      destruct (lt_eq_lt_dec k' k) as [[Hlt'|]|Hgt]; [|done|].
      + rewrite list_lookup_insert_ne in Hk1 by lia. by destruct (Hmin k' e1).
      + destruct (Hmin1 k e2 Hgt); [|done]. by apply list_lookup_insert_eq.
    - destruct (S1 k e2); [|done]. by apply list_lookup_insert_eq. }
  rewrite list_lookup_insert_eq; [done|]. by apply lookup_lt_Some in He.
Qed.

Lemma entry_disk_put e st fs :
  is_Some (hs_nodes fs !! de_fp e) ->
  entry_disk (DEntry (de_key e) (de_path e) (vs_disk st) (de_fp e)) (hs_set (de_fp e) (vs_fp st) fs) = st.
Proof. intros H. unfold entry_disk. simpl. rewrite hs_file_set by done. by destruct st. Qed.

Lemma hs_set_id path fs : is_Some (hs_nodes fs !! path) -> hs_set path (hs_file path fs) fs = fs.
Proof.
  intros [nd Hnd]. unfold hs_set, hs_file. destruct fs as [nodes new]. cbn [hs_nodes hs_new] in *. f_equal. rewrite Hnd.
  apply map_eq. intros k. destruct (decide (k = path)) as [->|].
  - rewrite lookup_alter_eq, Hnd. simpl. by destruct nd.
  - by rewrite lookup_alter_ne.
Qed.
Lemma entry_put_id i e io :
  dio_map io !! i = Some e -> is_Some (hs_nodes (dio_fs io) !! de_fp e) -> entry_put i e (entry_disk e (dio_fs io)) io = io.
Proof.
  intros Hm Hfs. unfold entry_put, entry_disk. cbn [vs_disk vs_fp]. rewrite hs_set_id by done.
  destruct io as [m fs]. cbn [dio_map dio_fs] in *. f_equal. apply list_insert_id. rewrite Hm. by destruct e.
Qed.

(** A request inside the slice becomes the request [slice_base] further on. *)
Lemma slice_limits s : slice_ok s ->
  vblk_limit_bytes (sl_dev s) = slice_size s /\ 0 <= slice_base s /\ 0 < slice_size s /\ slice_base s + slice_size s <= LONG_MAX /\ u64 (vb_lba_start (sl_dev s) * LSEC) = slice_base s.
Proof.
  intros (H0 & H1 & i & e & _ & _ & _ & H). unfold slice_base, slice_size, vblk_limit_bytes, LSEC in *.
  rewrite (proj2 (Z.eqb_neq _ _)) by lia. rewrite !u64_id by ulia. split_and!; auto; lia.
Qed.

#[export] Instance slice_laws : ByteStoreLaws slice.
Proof.
  split; cbn [store_ok store_size store_writable store_at store_read store_write slice_store].
  - intros s off n Hs Ho Hn Hl. destruct (slice_limits s Hs) as (L1 & L2 & L3 & L4 & L5).
    destruct Hs as (H0 & H1 & i & e & He & Hfs & Hok & Hb). destruct (slice_entry_some _ _ _ He) as (Hf & Hm & _).
    unfold slice_disk. rewrite He. destruct s as [dev io]. cbn [sl_dev sl_io] in *. unfold zoom, vblk_read_bytes. cbn [sl_dev sl_io].
    rewrite L1, L5, require_true by lia. rewrite u64_id by ulia. unfold diskio_pread. rewrite Hf. unfold fail_as.
    erewrite on_entry_eq; [|exact Hm|exact (store_read_in (S := vdst) _ (slice_base (Slice dev io) + off) n Hok ltac:(lia) Hn ltac:(simpl; lia))].
    rewrite entry_put_id by done.
    do 2 f_equal. apply bytes_at_eq; [apply zlen_bytes_at; lia|]. intros j Hj. rewrite bget_bytes_at by lia. f_equal. lia.
  - intros s off n Hs Ho Hn Hl. destruct (slice_limits s Hs) as (L1 & L2 & L3 & L4 & L5).
    destruct s as [dev io]. unfold zoom, vblk_read_bytes. cbn [sl_dev sl_io] in *.
    rewrite L1. by rewrite require_false by lia.
  - intros s off b Hs Hw HF Ho Hm Hl. destruct (slice_limits s Hs) as (L1 & L2 & L3 & L4 & L5).
    pose proof Hs as (H0 & H1 & i & e & He & Hfs & Hok & Hb). destruct (slice_entry_some _ _ _ He) as (Hf & Hme & _).
    unfold slice_disk in *. rewrite He in Hw |- *. destruct s as [dev io]. cbn [sl_dev sl_io] in *.
    apply andb_true_iff in Hw as [Hro Hwd].
    destruct (store_write_in (entry_disk e (dio_fs io)) (slice_base (Slice dev io) + off) b) as (st & Ew & Hst & Hsz & Hww & Hat);
      auto; [lia|simpl; lia|].
    exists (Slice dev (entry_put i e st io)). unfold zoom, vblk_write_bytes. cbn [sl_dev sl_io].
    rewrite require_true by done. rewrite L1, L5, require_true by (pose proof (zlen_nonneg b); lia). rewrite u64_id by (pose proof (zlen_nonneg b); ulia).
    unfold diskio_pwrite. rewrite Hf. unfold fail_as. erewrite on_entry_eq; [|exact Hme|exact Ew]. split; [done|].
    pose proof (slice_entry_put dev io i e st He) as He'. cbn [dio_fs entry_put].
    split; [|split_and!].
    + split; [done|]. split; [done|]. eexists i, _. split; [exact He'|]. cbn [sl_io dio_fs entry_put de_fp de_disk].
      rewrite entry_disk_put by done. split; [by apply hs_set_lookup|]. split; [done|].
      unfold slice_base, slice_size in *. cbn [sl_dev] in *. simpl in Hsz. rewrite Hsz. done.
    + done.
    + cbn [sl_dev]. rewrite He'. cbn [sl_io dio_fs entry_put]. rewrite entry_disk_put by done. by rewrite Hro.
    + intros o Hoo. rewrite He'. cbn [sl_io dio_fs entry_put]. rewrite entry_disk_put by done.
      rewrite Hat by (simpl; unfold slice_base, slice_size in *; cbn [sl_dev] in *; lia).
      change (slice_base (Slice dev (entry_put i e st io))) with (slice_base (Slice dev io)). apply patch_shift.
  - intros s off b Hs Ho Hm Hbad. destruct (slice_limits s Hs) as (L1 & L2 & L3 & L4 & L5).
    pose proof Hs as (H0 & H1 & i & e & He & Hfs & Hok & Hb). destruct (slice_entry_some _ _ _ He) as (Hf & Hme & _).
    unfold slice_disk in *. rewrite He in Hbad. destruct s as [dev io]. cbn [sl_dev sl_io] in *.
    unfold zoom, vblk_write_bytes. cbn [sl_dev sl_io].
    destruct (vb_ro dev) eqn:Ero; [by rewrite require_false|]. rewrite require_true by done. rewrite L1, L5.
    destruct (decide (off + zlen b <= slice_size (Slice dev io))).
    2: { by rewrite require_false by lia. }
    destruct Hbad as [Hw|?]; [|lia]. simpl in Hw. pose proof (zlen_nonneg b).
    rewrite require_true by lia. rewrite u64_id by ulia. unfold diskio_pwrite. rewrite Hf. unfold fail_as.
    erewrite on_entry_eq; [|exact Hme|exact (store_write_out (S := vdst) _ (slice_base (Slice dev io) + off) b Hok ltac:(lia) Hm ltac:(left; exact Hw))].
    by rewrite entry_put_id.
Qed.

(** ** Block requests *)

Section blocks.
Context (dev : vblk).

Lemma vblk_read_bytes_slice off n io :
  slice_ok (Slice dev io) -> 0 <= off -> 0 <= n <= UINT32_MAX ->
  vblk_read_bytes dev off n io =
    (if off + n <=? slice_size (Slice dev io) then Done (bytes_at (store_at (Slice dev io)) off n) else Fail (-1), io).
Proof using Type.
  intros Hs Ho Hn. assert (forall o, store_read off n (Slice dev io) = (o, Slice dev io) -> vblk_read_bytes dev off n io = (o, io)) as H.
  { intros o. change (store_read off n (Slice dev io)) with (let '(r, t) := vblk_read_bytes dev off n io in (r, Slice dev t)).
    destruct (vblk_read_bytes dev off n io) as [r t]. by intros [= -> ->]. }
  apply H. destruct (Z.leb_spec (off + n) (slice_size (Slice dev io))).
  - by apply (store_read_in (S := slice)).
  - apply (store_read_out (S := slice)); auto.
Qed.

(** A block read is one read of the bytes of the blocks, however large: the
    loop stops at the first step past the end and delivers nothing. *)
Lemma read_blocks_loop_ok fuel off len io :
  slice_ok (Slice dev io) -> 0 <= off -> off + len <= UINT64_MAX -> 0 < len -> (Z.to_nat (len / UINT32_MAX) < fuel)%nat ->
  read_blocks_loop fuel dev off len io =
    (if off + len <=? slice_size (Slice dev io) then Done (bytes_at (store_at (Slice dev io)) off len) else Fail (-1), io).
Proof using Type.
  intros Hs. revert off len. induction fuel as [|fuel IH]; intros off len Ho Hm Hl Hf; [lia|]. cbn [read_blocks_loop].
  rewrite (proj2 (Z.eqb_neq len 0)) by lia. unfold bind. destruct (Z.ltb_spec UINT32_MAX len) as [Hbig|Hsmall].
  - rewrite vblk_read_bytes_slice by (auto; ulia).
    destruct (Z.leb_spec (off + UINT32_MAX) (slice_size (Slice dev io))); [|rewrite (proj2 (Z.leb_gt (off + len) _)) by lia; done].
    rewrite u64_id by ulia. rewrite IH; [|ulia..|].
    + replace (off + UINT32_MAX + (len - UINT32_MAX)) with (off + len) by lia.
      destruct (Z.leb_spec (off + len) (slice_size (Slice dev io))); [|done].
      unfold ret. rewrite <- bytes_at_app by ulia. by replace (UINT32_MAX + (len - UINT32_MAX)) with len by lia.
    + replace (len - UINT32_MAX) with (len + (-1) * UINT32_MAX) by lia. rewrite Z.div_add by done.
      assert (1 <= len / UINT32_MAX) by (apply Z.div_le_lower_bound; ulia). lia.
  - rewrite vblk_read_bytes_slice by (auto; lia).
    destruct (Z.leb_spec (off + len) (slice_size (Slice dev io))); [|done].
    rewrite Z.sub_diag. destruct fuel; unfold ret; cbn; by rewrite app_nil_r.
Qed.

Lemma vblk_read_blocks_ok lba count io :
  slice_ok (Slice dev io) -> vblk_bsz dev = LSEC -> 0 <= lba < 2 ^ 54 -> 0 < count < 2 ^ 53 ->
  vblk_read_blocks dev lba count io =
    (if (lba + count) * LSEC <=? slice_size (Slice dev io)
     then Done (bytes_at (store_at (Slice dev io)) (lba * LSEC) (count * LSEC)) else Fail (-1), io).
Proof using Type.
  intros Hs Hb Hlba Hc. unfold vblk_read_blocks. rewrite Hb. rewrite require_true by (by rewrite (proj2 (Z.eqb_neq _ _)) by lia).
  rewrite require_true by (rewrite (proj2 (Z.ltb_ge _ _)) by (change (UINT64_MAX / LSEC) with (2 ^ 55 - 1); lia); done).
  unfold LSEC. rewrite !u64_id by lia. rewrite read_blocks_loop_ok by (auto; unfold blocks_fuel; ulia).
  by replace (lba * 512 + count * 512) with ((lba + count) * 512) by lia.
Qed.
End blocks.

(** ** Theorems *)

(** A partition at the second sector of an attached 2 KiB raw image with
    content [f]. *)
Definition ex_dio_of (f : Z -> Z) : dio :=
  Dio [DEntry (str_bytes "/dev/a") (str_bytes "a.img")
         (Vdisk 2048 0 2048 0 0 0 0 0 0 true VDISK_FMT_RAW 0 None) (str_bytes "a.img")]
      (HostFs {[str_bytes "a.img" := HNode (HostFile 2048 4096 true f) true]} (fun _ => None)).
Definition ex_dev (n k : Z) : vblk := Vblk (str_bytes "/dev/a1") (str_bytes "/dev/a") n [] n k 512 false.
Definition ex_part (n : Z) : vblk := ex_dev n 1.

Lemma ex_slice_ok_of f n k :
  (forall i, is_byte (f i)) -> 0 <= n -> 0 < k -> n + k <= 4 -> slice_ok (Slice (ex_dev n k) (ex_dio_of f)).
Proof.
  intros Hf Hn Hk Hnk. split; [simpl; lia|]. split; [simpl; lia|].
  exists O, (DEntry (str_bytes "/dev/a") (str_bytes "a.img")
         (Vdisk 2048 0 2048 0 0 0 0 0 0 true VDISK_FMT_RAW 0 None) (str_bytes "a.img")).
  split; [reflexivity|]. split; [eexists; reflexivity|]. split; [|unfold slice_base, slice_size, LSEC; simpl; ulia].
  split; [|reflexivity]. split; cbn -[hs_file]; try lia.
  - vm_compute. discriminate.
  - change (hf_wf (HostFile 2048 4096 true f)). split; simpl; [lia|ulia|].
    intros i. unfold hf_at, is_byte; simpl. case_match; [|lia]. apply Hf.
Qed.

Lemma ex_slice_at f n k i : store_at (Slice (ex_dev n k) (ex_dio_of f)) i = hf_at (HostFile 2048 4096 true f) (n * 512 + i).
Proof. reflexivity. Qed.

Definition ex_dio : dio := ex_dio_of (fun i => i mod 256).
Lemma ex_slice_ok n : 0 <= n <= 3 -> slice_ok (Slice (ex_part n) ex_dio).
Proof. intros Hn. apply ex_slice_ok_of; [|lia..]. intros i. apply (Z.mod_pos_bound i 256). lia. Qed.

(** C14: a partition answers every sequence of requests as a flat disk of its own
    size would, whatever the format of the disk it lies on. *)
Theorem slice_refines_flat (s : slice) (rs : list request) :
  slice_ok s -> Forall request_ok rs ->
  serve_all rs s = serve_all rs (Flat (slice_size s) (store_writable s) (store_at s)).
Proof. intros Hs Hrs. exact (store_simulates rs s Hs Hrs). Qed.
Lemma slice_refines_flat_witness :
  serve_all [Write 510 [7; 8]; Read 508 4; Read 509 4] (Slice (ex_part 1) ex_dio) = [Some []; Some [252; 253; 7; 8]; None].
Proof.
  etransitivity; [apply slice_refines_flat; [apply ex_slice_ok; lia|decide_now]|]. vm_compute. reflexivity.
Defined.

(** Two devices over one registry share no byte: they are on the same disk, in
    disjoint ranges. *)
Definition disjoint_slices (a b : vblk) : Prop :=
  vblk_backing_key a = vblk_backing_key b /\
  (vb_lba_start a + vb_lba_size a <= vb_lba_start b \/ vb_lba_start b + vb_lba_size b <= vb_lba_start a).

(** C5: partitions are isolated.  A write through one partition, whatever its
    offset, length and outcome, leaves every byte of a disjoint partition of
    the same disk as it was, and that partition stays usable. *)
Theorem vblk_write_isolated (a b : vblk) (io : dio) (off : Z) (buf : list Z) (o : outcome unit) (io' : dio) :
  slice_ok (Slice a io) -> slice_ok (Slice b io) -> disjoint_slices a b ->
  Forall is_byte buf -> 0 <= off -> zlen buf <= UINT32_MAX ->
  vblk_write_bytes a off buf io = (o, io') ->
  slice_ok (Slice b io') /\
  forall i, 0 <= i < slice_size (Slice b io) -> store_at (Slice b io') i = store_at (Slice b io) i.
Proof.
  intros Ha Hb [Hk Hdis] HF Ho Hm E.
  assert (store_write off buf (Slice a io) = (o, Slice a io')) as Ew.
  { change (store_write off buf (Slice a io)) with (let '(r, t) := vblk_write_bytes a off buf io in (r, Slice a t)). by rewrite E. }
  destruct (decide (store_writable (Slice a io) = true /\ off + zlen buf <= slice_size (Slice a io))) as [[Hw Hl]|Hno].
  2: { rewrite (store_write_out (Slice a io)) in Ew; auto.
       - injection Ew as <- <-. done.
       - destruct (store_writable (Slice a io)) eqn:Ewr; [|by left]. right.
         destruct (decide (slice_size (Slice a io) < off + zlen buf)); [done|]. destruct Hno. split; [done|lia]. }
  clear Ew. destruct (slice_limits _ Ha) as (A1 & A2 & A3 & A4 & A5). cbn [sl_dev] in A1, A5.
  pose proof Ha as (_ & _ & i & e & He & Hfs & Hok & Hsz). destruct (slice_entry_some _ _ _ He) as (Hf & Hme & _).
  cbn [sl_dev sl_io] in *. pose proof Hb as (B1 & B2 & i' & e' & He' & _ & _ & Hsz').
  assert (i' = i /\ e' = e) as [-> ->].
  { destruct (slice_entry_some _ _ _ He') as (Hf' & Hme' & _). cbn [sl_dev sl_io] in *. rewrite <- Hk, Hf in Hf'. split; congruence. }
  unfold store_writable, slice_store, slice_disk in Hw. rewrite He in Hw. apply andb_true_iff in Hw as [Hro Hwd]. cbn [sl_dev sl_io] in *.
  destruct (store_write_in (entry_disk e (dio_fs io)) (slice_base (Slice a io) + off) buf) as (st & Ew & Hst & Hszt & Hww & Hat);
    auto; [lia|simpl; lia|].
  assert (io' = entry_put i e st io) as ->.
  { pose proof (zlen_nonneg buf). unfold vblk_write_bytes in E. rewrite require_true in E by done. rewrite A1, A5 in E.
    rewrite require_true in E by lia. rewrite u64_id in E by ulia. unfold diskio_pwrite in E. rewrite Hf in E.
    unfold fail_as in E. erewrite on_entry_eq in E by (exact Hme || exact Ew). by injection E as _ <-. }
  pose proof (slice_entry_put b io i e st He') as Hp. split.
  - split; [done|]. split; [done|]. eexists i, _. split; [exact Hp|]. cbn [sl_io dio_fs entry_put de_fp de_disk].
    rewrite entry_disk_put by done. split; [by apply hs_set_lookup|]. split; [done|]. simpl in Hszt. by rewrite Hszt.
  - intros j Hj. cbn [store_at slice_store]. unfold slice_disk. rewrite Hp, He'. cbn [sl_io dio_fs entry_put].
    rewrite entry_disk_put by done. change (slice_base (Slice b (entry_put i e st io))) with (slice_base (Slice b io)).
    rewrite Hat.
    + apply patch_out. unfold slice_base, slice_size in *. cbn [sl_dev] in *. unfold LSEC in *. lia.
    + simpl. unfold slice_base, slice_size in *. cbn [sl_dev] in *. unfold LSEC in *. lia.
Qed.
Lemma vblk_write_isolated_witness :
  exists io', vblk_write_bytes (ex_part 1) 500 (zrep 12 9) ex_dio = (Done tt, io') /\
    slice_ok (Slice (ex_part 2) io') /\
    forall i, 0 <= i < 512 -> store_at (Slice (ex_part 2) io') i = store_at (Slice (ex_part 2) ex_dio) i.
Proof.
  destruct (vblk_write_bytes (ex_part 1) 500 (zrep 12 9) ex_dio) as [o io'] eqn:E. exists io'.
  assert (o = Done tt) as -> by (change o with ((o, io').1); rewrite <- E; reflexivity). split; [done|].
  apply (vblk_write_isolated (ex_part 1) (ex_part 2) ex_dio 500 (zrep 12 9) (Done tt) io'); auto.
  - apply ex_slice_ok. lia.
  - apply ex_slice_ok. lia.
  - split; [reflexivity|left; simpl; lia].
  - decide_now.
  - lia.
  - vm_compute. discriminate.
Defined.

(** Registering a device makes it the one found under its name, in a free
    slot if there is one, and disturbs no other name; it is refused only when
    the device has no name or all 256 slots are taken by other devices. *)
Theorem vblk_register_correct (g : list vblk) (e : vblk) :
  registry_ok g ->
  match vblk_register e g with
  | (Done i, g') => registry_ok g' /\ g' !! Z.to_nat i = Some e /\ vblk_by_name (vb_name e) g' = Some e /\
      (forall name, name <> [] -> name <> vb_name e -> vblk_by_name name g' = vblk_by_name name g)
  | (Fail _, g') => g' = g /\
      (vb_name e = [] \/ zlen g = VBLK_MAX /\ forall i a, g !! i = Some a -> vb_name a <> [] /\ vb_name a <> vb_name e)
  | (NoFuel, _) => False
  end.
Proof.
  intros Hg. pose proof (vblk_register_ok g e Hg) as H. destruct (vblk_register e g) as [[i|rc|] g']; tauto.
Qed.
Definition ex_registry : list vblk := [vblk_zero; Vblk (str_bytes "/dev/b") [] 0 [] 0 1 512 false].
Lemma vblk_register_correct_witness :
  exists g', vblk_register (ex_part 1) ex_registry = (Done 0, g') /\ registry_ok g' /\
    vblk_by_name (str_bytes "/dev/a1") g' = Some (ex_part 1) /\
    vblk_by_name (str_bytes "/dev/b") g' = vblk_by_name (str_bytes "/dev/b") ex_registry.
Proof.
  assert (registry_ok ex_registry) as Hg.
  { split; [|vm_compute; discriminate]. intros i j a b Hi Hj.
    destruct i as [|[|i]], j as [|[|j]]; try done; simpl in *; simplify_eq; done. }
  pose proof (vblk_register_correct ex_registry (ex_part 1) Hg) as H.
  change (vblk_register (ex_part 1) ex_registry) with (@Done Z 0, <[0%nat := ex_part 1]> ex_registry) in H |- *.
  destruct H as (H1 & _ & H2 & H3). eexists. split; [reflexivity|]. split; [exact H1|]. split; [exact H2|].
  apply H3; discriminate.
Defined.
