(* ===== verification/Reads.v ===== *)
(** * Reads: computations that leave their state as it is

    [reads_only] with a rule for each way of composing computations, and the
    reads of the stack down to the host files, from [vdisk_read] to the block
    reads of a device: while every attached image has its host file, none of
    them changes anything. *)
From S2P Require Import Prelude Text HostFile Store Vdisk Raw Vhd Vmdk Vdi Libvdisk Diskio Vblk.
From stdpp Require Import gmap.
#[local] Open Scope Z_scope.

(** From a state in [I], [c] ends where it began, whatever its outcome. *)
Definition reads_only {S A} (I : S -> Prop) (c : comp S A) : Prop := forall s, I s -> (c s).2 = s.

Section rules.
Context {S : Type} (I : S -> Prop).

Lemma reads_ret {A} (a : A) : reads_only I (ret a).
Proof using Type. done. Qed.
Lemma reads_fail {A} rc : reads_only I (@fail S A rc).
Proof using Type. done. Qed.
Lemma reads_nofuel {A} : reads_only I (@nofuel S A).
Proof using Type. done. Qed.
Lemma reads_require b rc : reads_only I (require b rc).
Proof using Type. by destruct b. Qed.
Lemma reads_bind {A B} (c : comp S A) (k : A -> comp S B) : reads_only I c -> (forall a, reads_only I (k a)) -> reads_only I (bind c k).
Proof using Type. intros Hc Hk s Hs. unfold bind. specialize (Hc s Hs). destruct (c s) as [[a|rc|] s']; simpl in Hc; subst s'; [by apply Hk|done..]. Qed.
Lemma reads_try {A} (c : comp S A) : reads_only I c -> reads_only I (try c).
Proof using Type. intros Hc s Hs. unfold try. specialize (Hc s Hs). by destruct (c s) as [[a|rc|] s']. Qed.
Lemma reads_fail_as {A} rc (c : comp S A) : reads_only I c -> reads_only I (fail_as rc c).
Proof using Type. intros Hc s Hs. unfold fail_as. specialize (Hc s Hs). by destruct (c s) as [[a|r|] s']. Qed.
Lemma reads_zoom {T A} (get : S -> T) set (c : comp T A) J :
  (forall s, I s -> J (get s)) -> (forall s, set (get s) s = s) -> reads_only J c -> reads_only I (zoom get set c).
Proof using Type. intros HJ Hset Hc s Hs. unfold zoom. specialize (Hc (get s) (HJ s Hs)). destruct (c (get s)) as [o t]. simpl in *. by rewrite Hc, Hset. Qed.
End rules.

Create HintDb reads.
#[export] Hint Resolve reads_ret reads_fail reads_nofuel reads_require reads_try reads_fail_as : reads.
(** Takes a computation apart down to the reads already known. *)
Ltac reads_step :=
  match goal with
  | |- reads_only _ (bind _ _) => apply reads_bind; [|intros ?]
  | |- reads_only _ (match ?x with _ => _ end) => destruct x
  | |- reads_only _ (try _) => apply reads_try
  | |- reads_only _ (fail_as _ _) => apply reads_fail_as
  | |- _ => solve [auto with reads]
  end.
Ltac reads_tac := repeat (cbv zeta; reads_step).

(** ** A virtual disk *)

(** No condition on the state. *)
#[local] Abbreviation any := (fun _ => True).

Lemma host_read_reads off n : reads_only any (vdisk_host_read off n).
Proof.
  apply reads_bind; [unfold vdisk_host_seek; auto with reads|]. intros _ f _. cbv zeta. by case_match.
Qed.
Lemma disk_reads : reads_only any disk.
Proof. done. Qed.
Lemma on_fp_reads {A} (c : comp hostfile A) : reads_only any c -> reads_only any (on_fp c).
Proof. apply reads_zoom; [done|by intros []]. Qed.
#[export] Hint Resolve host_read_reads disk_reads on_fp_reads : reads.

Lemma map_get_reads b : reads_only any (map_get b).
Proof. unfold map_get. reads_tac. Qed.
#[export] Hint Resolve map_get_reads : reads.
Lemma vdi_read_loop_reads fuel off len : reads_only any (vdi_read_loop fuel off len).
Proof. revert off len. induction fuel as [|fuel IH]; intros; cbn [vdi_read_loop]; reads_tac. Qed.
#[export] Hint Resolve vdi_read_loop_reads : reads.
Lemma vdisk_read_reads off n : reads_only any (vdisk_read off n).
Proof. unfold vdisk_read, raw_read, vdi_read, vmdk_read, vhd_read. reads_tac. Qed.

(** ** A device of the block layer *)

(** Every attached image has its host file. *)
Definition files_there (s : dio) : Prop := forall i e, dio_map s !! i = Some e -> is_Some (hs_nodes (dio_fs s) !! de_fp e).

Lemma on_entry_reads {A} i (c : comp vdst A) : reads_only any c -> reads_only files_there (on_entry i c).
Proof.
  intros Hc s Hs. destruct (dio_map s !! i) as [e|] eqn:He; [|unfold on_entry; by rewrite He].
  specialize (Hc (entry_disk e (dio_fs s)) I). destruct (c (entry_disk e (dio_fs s))) as [o st] eqn:Ec. simpl in Hc. subst st.
  rewrite (on_entry_eq i c s e o _ He Ec). by apply entry_put_id, (Hs i).
Qed.
Lemma file_pread_reads n off path : reads_only any (file_pread n off path).
Proof. intros fs _. unfold file_pread. destruct (negb _); [done|]. by destruct (vdisk_host_read _ _ _). Qed.
Lemma diskio_pread_reads key off len : reads_only files_there (diskio_pread key off len).
Proof.
  intros s Hs. unfold diskio_pread. destruct (map_find_index _ _) as [i|]; [|destruct (diskio_resolve _ _) as [p|]; [|done]].
  - apply (reads_fail_as files_there); [|done]. by apply on_entry_reads, vdisk_read_reads.
  - apply (reads_fail_as files_there); [|done]. apply (reads_zoom _ _ _ _ any); [done|by intros []|apply file_pread_reads].
Qed.
Lemma vblk_read_bytes_reads dev off len : reads_only files_there (vblk_read_bytes dev off len).
Proof. unfold vblk_read_bytes. pose proof (diskio_pread_reads). reads_tac. Qed.
#[export] Hint Resolve vblk_read_bytes_reads : reads.
Lemma read_blocks_loop_reads fuel dev off len : reads_only files_there (read_blocks_loop fuel dev off len).
Proof. revert off len. induction fuel as [|fuel IH]; intros; cbn [read_blocks_loop]; reads_tac. Qed.
#[export] Hint Resolve read_blocks_loop_reads : reads.
Lemma vblk_read_blocks_reads dev lba count : reads_only files_there (vblk_read_blocks dev lba count).
Proof. unfold vblk_read_blocks. reads_tac. Qed.
#[export] Hint Resolve vblk_read_blocks_reads : reads.
