(* ===== verification/Blkdev.v ===== *)
(** * Blkdev: partition discovery ([src/blkdev.c])

    Scanning MBR, extended and GPT partition tables of a device, sorting what
    was found and registering it as child devices. *)
From S2P Require Import Prelude Text Crc32 HostFile Store Vdisk Libvdisk Diskio Vblk Reads.
From stdpp Require Import gmap sorting.
#[local] Open Scope Z_scope.

Definition MAX_PARTS : Z := 128.
Definition ENTRIES_MAX_BYTES : Z := 8 * 1024 * 1024.

Definition read_lba512 (dev : vblk) (lba cnt : Z) : comp dio (list Z) := vblk_read_blocks dev lba cnt.
Definition read_bytes (dev : vblk) (off len : Z) : comp dio (list Z) := vblk_read_bytes dev off len.

(** A partition found: first and last LBA, in the order of discovery. *)
Definition part : Type := (Z * Z)%type.

(** ** MBR and extended partitions *)

Definition is_extended (t : Z) : bool := (t =? 0x05) || (t =? 0x0F) || (t =? 0x85).
Definition has_55aa (sec : list Z) : bool := (bget sec 510 =? 0x55) && (bget sec 511 =? 0xAA).

(** What one EBR says: the partitions so far, and the next EBR if it links one. *)
Definition ebr_step (ext_base_lba ebr_lba : Z) (sec : list Z) (acc : list part) : list part * option Z :=
  let e1 := 446 in
  let e2 := 446 + 16 in
  let t1 := bget sec (e1 + 4) in
  let l1 := le32 sec (e1 + 8) in
  let c1 := le32 sec (e1 + 12) in
  let acc := if negb (t1 =? 0) && negb (c1 =? 0)
             then acc ++ [(u64 (ebr_lba + l1), u64 (u64 (u64 (ebr_lba + l1) + c1) - 1))] else acc in
  let t2 := bget sec (e2 + 4) in
  let l2 := le32 sec (e2 + 8) in
  (acc, if is_extended t2 then Some (u32 (ext_base_lba + l2)) else None).

Fixpoint scan_ebr_chain (fuel : nat) (dev : vblk) (ext_base_lba ebr_lba : Z) (acc : list part) (max : Z)
    : comp dio (list part) :=
  if zlen acc <? max then
    match fuel with
    | O => nofuel
    | S fuel =>
        let* r := try (read_lba512 dev ebr_lba 1) in
        match r with
        | None => ret acc
        | Some sec =>
            if negb (has_55aa sec) then ret acc else
            let '(acc, next) := ebr_step ext_base_lba ebr_lba sec acc in
            match next with
            | Some ebr_lba => scan_ebr_chain fuel dev ext_base_lba ebr_lba acc max
            | None => ret acc
            end
        end
    end
  else ret acc.

(** The loop of [scan_mbr] over the entries [i], [i + 1], ... of the sector;
    [None] is the protective MBR ([-1]). *)
Fixpoint scan_mbr_entries (n : nat) (fuel : nat) (i : Z) (dev : vblk) (mbr : list Z) (acc : list part) (max : Z)
    : comp dio (option (list part)) :=
  match n with
  | O => ret (Some acc)
  | S n =>
      let e := 446 + i * 16 in
      let type := bget mbr (e + 4) in
      let lba := le32 mbr (e + 8) in
      let count := le32 mbr (e + 12) in
      if (type =? 0) || (count =? 0) then scan_mbr_entries n fuel (i + 1) dev mbr acc max
      else if type =? 0xEE then ret None
      else if is_extended type then
        let* acc := scan_ebr_chain fuel dev lba lba acc max in
        scan_mbr_entries n fuel (i + 1) dev mbr acc max
      else
        scan_mbr_entries n fuel (i + 1) dev mbr
          (if zlen acc <? max then acc ++ [(lba, u32 (u32 (lba + count) - 1))] else acc) max
  end.

Definition scan_mbr (fuel : nat) (dev : vblk) (max : Z) : comp dio (option (list part)) :=
  let* r := try (read_lba512 dev 0 1) in
  match r with
  | None => ret (Some [])
  | Some mbr =>
      if negb (has_55aa mbr) then ret (Some []) else
      scan_mbr_entries 4 fuel 0 dev mbr [] max
  end.

(** ** GPT *)

(** [gpt_hdr_t], the fields the scanner uses. *)
Record gpt_hdr : Type := GptHdr {
  gh_header_size : Z; gh_header_crc : Z; gh_current_lba : Z; gh_backup_lba : Z;
  gh_last_usable_lba : Z; gh_entries_lba : Z; gh_num_entries : Z; gh_entry_size : Z; gh_entries_crc : Z;
}.
Definition parse_gpt_hdr (sec : list Z) : gpt_hdr :=
  GptHdr (le32 sec 12) (le32 sec 16) (le64 sec 24) (le64 sec 32) (le64 sec 48) (le64 sec 72)
         (le32 sec 80) (le32 sec 84) (le32 sec 88).
(** [sizeof(gpt_ent_t)] *)
Definition GPT_ENT_SIZE : Z := 128.
Definition gpt_sig (sec : list Z) : bool := bool_decide (sub sec 0 8 = str_bytes "EFI PART").

(** [memset(hdrbuf + 16, 0, 4)] *)
Definition zero_crc_field (hdrbuf : list Z) : list Z :=
  if 20 <=? zlen hdrbuf then splice hdrbuf 16 [0; 0; 0; 0] else hdrbuf.

(** The bounds and size checks that need no further read. *)
Definition gpt_fields_ok (h : gpt_hdr) (total_lbas : Z) : bool :=
  negb ((gh_header_size h <? 92) || (gh_entry_size h <? GPT_ENT_SIZE) ||
        (gh_num_entries h =? 0) || (4096 <? gh_num_entries h)) &&
  ((total_lbas =? 0) ||
   negb ((total_lbas <=? gh_current_lba h) || (total_lbas <=? gh_backup_lba h) ||
         (total_lbas <=? gh_last_usable_lba h) || (total_lbas <=? gh_entries_lba h))).

Definition gpt_bytes (h : gpt_hdr) : Z := u64 (gh_num_entries h * gh_entry_size h).
Definition gpt_table_ok (h : gpt_hdr) (total_lbas : Z) : bool :=
  let bytes := gpt_bytes h in
  negb ((bytes =? 0) || (ENTRIES_MAX_BYTES <? bytes)) &&
  negb (negb (total_lbas =? 0) && (u64 (total_lbas * LSEC) <? u64 (u64 (gh_entries_lba h * LSEC) + bytes))).

(** The header when it is valid ([return 1] with [*out_hdr]), failure otherwise. *)
Definition gpt_validate_at (dev : vblk) (total_lbas hdr_lba : Z) : comp dio gpt_hdr :=
  let* sec := read_lba512 dev hdr_lba 1 in
  require (gpt_sig sec) 0 ;;;
  let h := parse_gpt_hdr sec in
  require (gpt_fields_ok h total_lbas) 0 ;;;
  let* hdrbuf := (if gh_header_size h <=? 512 then ret (take (Z.to_nat (gh_header_size h)) sec)
                  else read_bytes dev (u64 (hdr_lba * LSEC)) (gh_header_size h)) in
  require (crc32_calc (zero_crc_field hdrbuf) =? gh_header_crc h) 0 ;;;
  require (gpt_table_ok h total_lbas) 0 ;;;
  let* buf := read_bytes dev (u64 (gh_entries_lba h * LSEC)) (u32 (gpt_bytes h)) in
  require (crc32_calc buf =? gh_entries_crc h) 0 ;;;
  ret h.

(** The loop over the entries [i], [i + 1], ... of the table. *)
Fixpoint scan_entries (n : nat) (i : Z) (buf : list Z) (esize total_lbas max : Z) (acc : list part) : list part :=
  match n with
  | O => acc
  | S n =>
      if zlen acc <? max then
        let e := i * esize in
        let first := le64 buf (e + 32) in
        let last := le64 buf (e + 40) in
        let empty := forallb (fun b => b =? 0) (sub buf e 16) in
        let skip := empty || (last <? first) || (negb (total_lbas =? 0) && (total_lbas <=? last)) in
        scan_entries n (i + 1) buf esize total_lbas max (if skip then acc else acc ++ [(first, last)])
      else acc
  end.

Definition scan_gpt (dev : vblk) (total_lbas max : Z) : comp dio (list part) :=
  let* r := try (gpt_validate_at dev total_lbas 1) in
  let* h := (match r with
             | Some h => ret h
             | None =>
                 let* sec1 := read_lba512 dev 1 1 in
                 require (gpt_sig sec1) 0 ;;;
                 gpt_validate_at dev total_lbas (le64 sec1 32)
             end) in
  let bytes := gpt_bytes h in
  require (negb ((bytes =? 0) || (ENTRIES_MAX_BYTES <? bytes))) 0 ;;;
  let* buf := read_bytes dev (u64 (gh_entries_lba h * LSEC)) (u32 bytes) in
  ret (scan_entries (Z.to_nat (gh_num_entries h)) 0 buf (gh_entry_size h) total_lbas max []).

(** ** Registration *)

(** The inner loop at [i]: [x] is the pair at [i], exchanged with each later
    pair that starts before it. *)
Fixpoint sort_inner (x : part) (l : list part) : part * list part :=
  match l with
  | [] => (x, [])
  | y :: l =>
      if y.1 <? x.1 then let '(z, l) := sort_inner y l in (z, x :: l)
      else let '(z, l) := sort_inner x l in (z, y :: l)
  end.
Fixpoint sort_outer (n : nat) (l : list part) : list part :=
  match n, l with
  | S n, x :: l => let '(z, l) := sort_inner x l in z :: sort_outer n l
  | _, _ => l
  end.
Definition sort_pairs (l : list part) : list part := sort_outer (length l) l.

(** The name of child [nth]. *)
Definition child_name (parent_name : list Z) (nth : Z) : list Z := take 31 (parent_name ++ print_dec nth).
Definition make_child (parent : vblk) (parent_name : list Z) (nth : Z) (p : part) (ptable_kind : list Z) : vblk :=
  Vblk (child_name parent_name nth) (take 31 (vb_dev parent)) nth (take 15 ptable_kind)
       p.1 (u64 (u64 (p.2 - p.1) + 1)) (vblk_bsz parent) (vb_ro parent).

(** [parent] is the slot of the parent, read again for each child. *)
Definition register_child (parent : nat) (parent_name : list Z) (nth : Z) (p : part) (ptable_kind : list Z)
    : comp (list vblk) Z := fun g =>
  if p.2 <? p.1 then (Fail (-1), g) else
  match g !! parent with
  | None => (Fail (-1), g)
  | Some d => fail_as (-1) (vblk_register (make_child d parent_name nth p ptable_kind)) g
  end.

Fixpoint register_children (parent : nat) (parent_name : list Z) (nth : Z) (ps : list part) (kind : list Z)
    : comp (list vblk) Z :=
  match ps with
  | [] => ret 0
  | p :: ps =>
      let* r := try (register_child parent parent_name nth p kind) in
      let* made := register_children parent parent_name (nth + 1) ps kind in
      ret (match r with Some _ => made + 1 | None => made end)
  end.

(** ** The scan *)

(** The registry and the attached disks. *)
Record blkst : Type := Blkst { bs_reg : list vblk; bs_io : dio }.
Definition on_reg {A} (c : comp (list vblk) A) : comp blkst A := zoom bs_reg (fun g s => Blkst g (bs_io s)) c.
Definition on_io {A} (c : comp dio A) : comp blkst A := zoom bs_io (fun io s => Blkst (bs_reg s) io) c.

Definition kind_mbr : list Z := str_bytes "mbr".
Definition kind_gpt : list Z := str_bytes "gpt".

(** A GPT scan that failed counts no partition. *)
Definition scan_gpt_or_none (dev : vblk) (total_lbas : Z) : comp dio (list part) := fun io =>
  match scan_gpt dev total_lbas MAX_PARTS io with
  | (Fail _, io) => (Done [], io)
  | r => r
  end.

Definition disk_scan_partitions (fuel : nat) (name : list Z) : comp blkst unit :=
  let* s := get in
  match find_by_name name (bs_reg s) with
  | None => fail (-1)
  | Some parent =>
      let dev := match bs_reg s !! parent with Some d => d | None => vblk_zero end in
      on_reg (modify (fun g => (vblk_remove_children name g).2)) ;;;
      let size_bytes := vblk_size_bytes dev (bs_io s) in
      let total_lbas := if size_bytes =? 0 then 0 else size_bytes / LSEC in
      let* n := on_io (scan_mbr fuel dev MAX_PARTS) in
      match n with
      | Some (p :: ps) =>
          let l := sort_pairs (p :: ps) in
          on_reg (register_children parent name 1 l kind_mbr) ;;; ret tt
      | None =>
          let* g := on_io (scan_gpt_or_none dev total_lbas) in
          match g with
          | [] => fail (-1)
          | _ => on_reg (register_children parent name 1 (sort_pairs g) kind_gpt) ;;; ret tt
          end
      | Some [] =>
          let* g := on_io (scan_gpt_or_none dev total_lbas) in
          match g with
          | [] => ret tt
          | _ => on_reg (register_children parent name 1 (sort_pairs g) kind_gpt) ;;; ret tt
          end
      end
  end.

Definition add_disk (fuel : nat) (name : list Z) : comp blkst unit :=
  let* s := get in
  match vblk_by_name name (bs_reg s) with
  | Some _ => disk_scan_partitions fuel name
  | None =>
      let parent := Vblk (take 31 name) (take 31 name) (-1) (str_bytes "-") 0 0 0 false in
      fail_as (-1) (on_reg (vblk_register parent)) ;;;
      disk_scan_partitions fuel name
  end.

Definition del_disk (name : list Z) : comp blkst unit := fail (-1).

Definition block_rescan (fuel : nat) (devname : list Z) : comp blkst unit :=
  disk_scan_partitions fuel (take 31 devname).

(** ** Lemmas *)

Lemma sort_inner_spec x l :
  let '(z, k) := sort_inner x l in z :: k ≡ₚ x :: l /\ Forall (fun y => z.1 <= y.1) (x :: l).
Proof.
  revert x. induction l as [|y l IH]; intros x; simpl.
  - split; [done|]. constructor; [lia|done].
  - destruct (Z.ltb_spec y.1 x.1); [specialize (IH y)|specialize (IH x)]; destruct (sort_inner _ l) as [z k];
      destruct IH as [Hp HF]; inversion HF; subst; split; try (repeat constructor; auto; lia).
    + by rewrite (perm_swap x z k), Hp.
    + rewrite (perm_swap y z k), Hp. apply perm_swap.
Qed.

Lemma sort_outer_spec n l :
  (length l <= n)%nat -> sort_outer n l ≡ₚ l /\ Sorted (fun a b => a.1 <= b.1) (sort_outer n l).
Proof.
  revert l. induction n as [|n IH]; intros [|x l] Hn; simpl in *; try lia; try (split; constructor).
  pose proof (sort_inner_spec x l) as S. destruct (sort_inner x l) as [z k]. destruct S as [Hp HF].
  assert (length k = length l) as Hl by (apply Permutation_length in Hp; simpl in Hp; lia).
  destruct (IH k) as [Hk Hs]; [lia|]. split; [by rewrite Hk|]. constructor; [done|].
  assert (Forall (fun y => z.1 <= y.1) (sort_outer n k)) as HF'.
  { rewrite Hk. rewrite <- Hp in HF. by inversion HF. }
  destruct HF'; by constructor.
Qed.

(** The parts a step of the chain keeps. *)
Lemma ebr_step_grows base lba sec acc :
  exists new, (ebr_step base lba sec acc).1 = acc ++ new /\ zlen new <= 1 /\
    (bget sec 450 <> 0 -> le32 sec 458 <> 0 -> zlen new = 1).
Proof.
  unfold ebr_step. cbn [fst]. change (446 + 4) with 450. change (446 + 12) with 458.
  destruct (Z.eqb_spec (bget sec 450) 0), (Z.eqb_spec (le32 sec 458) 0); simpl;
    try (exists []; rewrite app_nil_r; by split_and!).
  eexists. split; [done|]. rewrite zlen_cons, zlen_nil. split; [lia|done].
Qed.

(** What can be read of the table entries is in range. *)
Definition part_ok (total_lbas : Z) (p : part) : Prop := p.1 <= p.2 /\ (total_lbas <> 0 -> p.2 < total_lbas).

Lemma scan_entries_ok n i buf esize total max acc :
  zlen acc <= max -> Forall (part_ok total) acc ->
  zlen (scan_entries n i buf esize total max acc) <= max /\ Forall (part_ok total) (scan_entries n i buf esize total max acc).
Proof.
  revert i acc. induction n as [|n IH]; intros i acc Hl HF; simpl; [done|].
  destruct (Z.ltb_spec (zlen acc) max); [|done]. apply IH; destruct (_ || _) eqn:E; auto.
  - rewrite zlen_app, zlen_cons, zlen_nil. lia.
  - apply Forall_app. split; [done|]. constructor; [|done].
    apply orb_false_iff in E as [[_ E1]%orb_false_iff E2]. split; simpl; [lia|].
    intros Ht. rewrite (proj2 (Z.eqb_neq _ _)) in E2 by done. simpl in E2. lia.
Qed.

(** ** Registering children *)

Section register.
Context (name : list Z) (slot : nat) (kind : list Z) (dev : vblk).
Context (Hname : name <> []) (Hdev : vb_name dev = name) (Hshort : zlen name <= 30).

(** A child registered for a partition of [ps], the first of which has number [n]. *)
Definition is_registered (ps : list part) (n : Z) (e : vblk) : Prop :=
  exists k p, ps !! k = Some p /\ p.1 <= p.2 /\ e = make_child dev name (n + Z.of_nat k) p kind.

Lemma child_name_is_child nth : 0 <= nth -> is_child name (child_name name nth) = true.
Proof using Hname Hdev Hshort.
  intros Hn. destruct (print_dec_digits nth Hn) as [Hd Hne]. unfold child_name.
  assert (exists d ds, take 31 (name ++ print_dec nth) = name ++ d :: ds /\ Forall (fun c => isdigit c = true) (d :: ds)) as (d & ds & -> & HF).
  { rewrite take_app_ge by (unfold zlen in Hshort; lia). destruct (print_dec nth) as [|d ds]; [done|].
    destruct (31 - length name)%nat as [|m] eqn:E; [unfold zlen in Hshort; lia|]. simpl. exists d, (take m ds). split; [done|].
    inversion Hd; subst. constructor; [done|]. by apply Forall_take. }
  unfold is_child. rewrite after_prefix_app. destruct name as [|c r]; [done|]. simpl app. cbv iota.
  apply forallb_forall. intros x Hx. rewrite Forall_forall in HF. apply HF. by apply list_elem_of_In.
Qed.

Lemma child_name_other nth : 0 <= nth -> child_name name nth <> name.
Proof using Hname Hdev Hshort.
  intros Hn E. pose proof (child_name_is_child nth Hn) as Hc. by rewrite E, is_child_self in Hc.
Qed.

(** The registry while the children are added: every child in it is one of
    those just found, and no other name is disturbed. *)
Definition children_from (g0 : list vblk) (P : vblk -> Prop) (g : list vblk) : Prop :=
  registry_ok g /\ g !! slot = Some dev /\
  (forall q, q <> [] -> is_child name q = false -> vblk_by_name q g = vblk_by_name q g0) /\
  (forall q e, is_child name q = true -> vblk_by_name q g = Some e -> P e).

Lemma register_child_from g0 (P : vblk -> Prop) nth p g :
  children_from g0 P g -> 0 <= nth ->
  let '(o, g') := register_child slot name nth p kind g in
  o <> NoFuel /\ children_from g0 (fun e => P e \/ p.1 <= p.2 /\ e = make_child dev name nth p kind) g'.
Proof using Hname Hdev Hshort.
  intros (Hg & Hs & Hq & Hc) Hn. unfold register_child.
  assert (children_from g0 (fun e => P e \/ p.1 <= p.2 /\ e = make_child dev name nth p kind) g) as Hsame by (split_and!; eauto).
  destruct (Z.ltb_spec p.2 p.1); [done|]. rewrite Hs. set (e := make_child dev name nth p kind).
  pose proof (vblk_register_ok g e Hg) as R. pose proof (child_name_other nth Hn) as Ho.
  pose proof (vblk_register_slot g e slot dev Hs ltac:(congruence) ltac:(simpl; congruence)) as Hslot.
  unfold fail_as. destruct (vblk_register e g) as [[i|rc|] g'].
  - destruct R as (_ & Hg' & _ & Hself & Hoth). split; [done|]. split_and!; [done|done| |].
    + intros q Hqn Hqc. rewrite Hoth; [by apply Hq|done|]. intros ->. simpl in Hqc. by rewrite child_name_is_child in Hqc.
    + intros q a Hqc Ha. destruct (decide (q = vb_name e)) as [->|Hne].
      * right. split; [lia|]. congruence.
      * left. apply (Hc q); [done|]. rewrite <- Hoth; [done| |done]. by intros ->.
  - destruct R as [-> _]. done.
  - done.
Qed.

Lemma register_children_from g0 (P : vblk -> Prop) n ps g :
  children_from g0 P g -> 0 <= n ->
  let '(o, g') := register_children slot name n ps kind g in
  (exists made, o = Done made) /\ children_from g0 (fun e => P e \/ is_registered ps n e) g'.
Proof using Hname Hdev Hshort.
  revert P n g. induction ps as [|p ps IH]; intros P n g Hg Hn; simpl.
  { split; [by eexists|]. destruct Hg as (?&?&?&?). split_and!; eauto. }
  pose proof (register_child_from g0 P n p g Hg Hn) as R. unfold bind, try.
  destruct (register_child slot name n p kind g) as [o g1]. destruct R as [Ho R].
  assert (forall e, (P e \/ p.1 <= p.2 /\ e = make_child dev name n p kind) \/ is_registered ps (n + 1) e -> P e \/ is_registered (p :: ps) n e) as Hw.
  { intros e [[H|[H1 ->]]|(k & p' & H1 & H2 & ->)]; [by left| |]; right.
    - exists O, p. by rewrite Z.add_0_r.
    - exists (S k), p'. split; [done|]. split; [done|]. f_equal. lia. }
  specialize (IH _ (n + 1) g1 R ltac:(lia)).
  destruct o as [?|?|]; [..|done]; destruct (register_children slot name (n + 1) ps kind g1) as [o2 g2]; destruct IH as [[made ->] (H1 & H2 & H3 & H4)];
    (split; [by eexists|split_and!; eauto]).
Qed.
End register.

Lemma removed_children_from name slot dev g :
  registry_ok g -> name <> [] -> vb_name dev = name -> g !! slot = Some dev ->
  children_from name slot dev g (fun _ => False) (vblk_remove_children name g).2.
Proof.
  intros Hg Hn Hd Hs. destruct (vblk_remove_children_ok name g Hg Hn) as (H1 & H2 & H3). split_and!; [done| | |].
  - unfold vblk_remove_children. destruct name; [done|]. cbn [snd]. rewrite list_lookup_fmap, Hs. simpl. by rewrite Hd, H3.
  - intros q Hq Hc. rewrite H2 by done. by rewrite Hc.
  - intros q e Hc. rewrite H2; [by rewrite Hc|]. intros ->. done.
Qed.

(** ** Reading sectors *)

Definition sector (dev : vblk) (io : dio) (lba : Z) : list Z := bytes_at (store_at (Slice dev io)) (lba * LSEC) LSEC.

Lemma read_sector dev io lba :
  slice_ok (Slice dev io) -> vblk_bsz dev = LSEC -> 0 <= lba < 2 ^ 32 ->
  read_lba512 dev lba 1 io = (if (lba + 1) * LSEC <=? slice_size (Slice dev io) then Done (sector dev io lba) else Fail (-1), io).
Proof. intros. unfold read_lba512. by rewrite vblk_read_blocks_ok by (auto; lia). Qed.

(** An EBR: signed, with a partition, or with a link. *)
Definition ebr_linked (sec : list Z) : Prop := has_55aa sec = true /\ is_extended (bget sec 466) = true.
Definition ebr_nonempty (sec : list Z) : Prop := bget sec 450 <> 0 /\ le32 sec 458 <> 0.

Lemma ebr_step_next base lba sec acc :
  (ebr_step base lba sec acc).2 = if is_extended (bget sec 466) then Some (u32 (base + le32 sec 470)) else None.
Proof. done. Qed.

Lemma scan_ebr_chain_ok fuel dev base lba acc max io :
  slice_ok (Slice dev io) -> vblk_bsz dev = LSEC -> 0 <= lba < 2 ^ 32 ->
  (forall k, 0 <= k < 2 ^ 32 -> ebr_linked (sector dev io k) -> ebr_nonempty (sector dev io k)) ->
  zlen acc <= max -> (Z.to_nat (max - zlen acc) <= fuel)%nat ->
  exists new, scan_ebr_chain fuel dev base lba acc max io = (Done (acc ++ new), io) /\ zlen (acc ++ new) <= max.
Proof.
  intros Hs Hb Hlba Hne. revert lba acc Hlba. induction fuel as [|fuel IH]; intros lba acc Hlba Hl Hf; cbn [scan_ebr_chain];
    destruct (Z.ltb_spec (zlen acc) max); try (exists []; by rewrite app_nil_r); [lia|].
  unfold bind, try. rewrite read_sector by done. destruct (_ <=? _); [|exists []; by rewrite app_nil_r].
  set (sec := sector dev io lba). destruct (has_55aa sec) eqn:E55; [|exists []; by rewrite app_nil_r]. cbn [negb].
  pose proof (ebr_step_next base lba sec acc) as En. destruct (ebr_step_grows base lba sec acc) as (new & Hnew & Hle & Hone).
  destruct (ebr_step base lba sec acc) as [acc' next]. cbn [fst snd] in *. subst acc'.
  destruct (is_extended (bget sec 466)) eqn:Ex; subst next.
  - destruct (Hne lba Hlba (conj E55 Ex)) as [N1 N2]. specialize (Hone N1 N2).
    destruct (IH (u32 (base + le32 sec 470)) (acc ++ new) (u32_range _)) as (new' & -> & Hn'); [rewrite zlen_app; lia..|].
    exists (new ++ new'). rewrite app_assoc. done.
  - exists new. split; [done|]. rewrite zlen_app. lia.
Qed.

(** ** Scans only read *)

Lemma scan_ebr_chain_reads fuel dev base lba acc max : reads_only files_there (scan_ebr_chain fuel dev base lba acc max).
Proof.
  revert lba acc. induction fuel as [|fuel IH]; intros; cbn [scan_ebr_chain]; unfold read_lba512; reads_tac.
Qed.
Lemma scan_mbr_entries_reads n fuel i dev mbr acc max : reads_only files_there (scan_mbr_entries n fuel i dev mbr acc max).
Proof. revert i acc. pose proof scan_ebr_chain_reads. induction n as [|n IH]; intros; cbn [scan_mbr_entries]; reads_tac. Qed.
Lemma scan_mbr_reads fuel dev max : reads_only files_there (scan_mbr fuel dev max).
Proof. unfold scan_mbr, read_lba512. pose proof scan_mbr_entries_reads. reads_tac. Qed.
Lemma gpt_validate_at_reads dev total lba : reads_only files_there (gpt_validate_at dev total lba).
Proof. unfold gpt_validate_at, read_lba512, read_bytes. reads_tac. Qed.
Lemma scan_gpt_reads dev total max : reads_only files_there (scan_gpt dev total max).
Proof. unfold scan_gpt, read_lba512, read_bytes. pose proof gpt_validate_at_reads. reads_tac. Qed.

(** No scan finds more than there is room for. *)
Lemma scan_ebr_chain_room fuel dev base lba acc max io l io' :
  zlen acc <= max -> scan_ebr_chain fuel dev base lba acc max io = (Done l, io') -> zlen l <= max.
Proof.
  revert lba acc io. induction fuel as [|fuel IH]; intros lba acc io Ha; cbn [scan_ebr_chain]; destruct (Z.ltb_spec (zlen acc) max); try (by intros [= <- _]).
  intros E. apply bind_inv in E as ([sec|] & io1 & _ & E); [|by injection E as <- _]. destruct (negb _); [by injection E as <- _|].
  destruct (ebr_step_grows base lba sec acc) as (new & Hn & H1 & _). destruct (ebr_step base lba sec acc) as [acc' next]. cbn [fst] in Hn. subst acc'.
  assert (zlen (acc ++ new) <= max) by (rewrite zlen_app; lia). destruct next; [by apply IH in E|by injection E as <- _].
Qed.
Lemma scan_mbr_entries_room n fuel i dev mbr acc max io l io' :
  zlen acc <= max -> scan_mbr_entries n fuel i dev mbr acc max io = (Done (Some l), io') -> zlen l <= max.
Proof.
  revert i acc io. induction n as [|n IH]; intros i acc io Ha; cbn [scan_mbr_entries]; [by intros [= <- _]|]. destruct (_ || _); [by apply IH|]. destruct (_ =? _); [done|].
  destruct (is_extended _).
  - intros E. apply bind_inv in E as (acc' & io1 & E1 & E). apply scan_ebr_chain_room in E1; [|done]. by apply IH in E.
  - apply IH. destruct (Z.ltb_spec (zlen acc) max); [|done]. rewrite zlen_app, zlen_cons, zlen_nil. lia.
Qed.

(** What the disk [dev] is found to hold, and the kind of its table: the
    partitions of the MBR if it names any, else those of the GPT. *)
Definition found (fuel : nat) (dev : vblk) (io : dio) : list Z * list part :=
  match (scan_mbr fuel dev MAX_PARTS io).1 with
  | Done (Some (p :: l)) => (kind_mbr, p :: l)
  | Done _ => (kind_gpt, match (scan_gpt dev (vblk_size_bytes dev io / LSEC) MAX_PARTS io).1 with Done l => l | _ => [] end)
  | _ => (kind_mbr, [])
  end.
Lemma found_room fuel dev io : zlen (found fuel dev io).2 <= MAX_PARTS.
Proof.
  unfold found. destruct (scan_mbr _ _ _ _) as [[r|?|] io1] eqn:Em; cbn [fst snd]; [|done..].
  assert (zlen (match (scan_gpt dev (vblk_size_bytes dev io / LSEC) MAX_PARTS io).1 with Done l => l | _ => [] end) <= MAX_PARTS) as Hg.
  { destruct (scan_gpt _ _ _ _) as [[l|?|] io2] eqn:Eg; [|done..]. unfold scan_gpt in Eg. apply bind_inv in Eg as (r1 & io3 & _ & Eg). apply bind_inv in Eg as (h & io4 & _ & Eg).
    cbv zeta in Eg. apply require_inv in Eg as [_ Eg]. apply bind_inv in Eg as (buf & io5 & _ & Eg). injection Eg as <- _. cbn [fst]. by apply scan_entries_ok. }
  destruct r as [[|p l]|]; [done| |done]. cbn [snd]. unfold scan_mbr in Em. apply bind_inv in Em as ([mbr|] & io2 & _ & Em); [|done].
  destruct (negb _); [done|]. by apply scan_mbr_entries_room in Em.
Qed.

(** ** The children after a scan *)

(** No slot of the registry is left. *)
Definition full (g : list vblk) : Prop := zlen g = VBLK_MAX /\ Forall (fun e => vb_name e <> []) g.

Lemma register_full g e : registry_ok g -> vb_name e <> [] -> full g -> full (vblk_register e g).2.
Proof.
  intros Hg He [Hl Hf]. unfold vblk_register. rewrite (proj2 (not_free_name e) He). pose proof (find_by_name_spec g (vb_name e) He) as S.
  destruct (find_by_name (vb_name e) g) as [i|].
  - cbn [snd]. split; [unfold zlen in *; by rewrite length_insert|by apply Forall_insert].
  - pose proof (find_from_spec 0 is_free g) as F. destruct (find_from 0 is_free g) as [i|].
    + destruct F as (k & a & _ & Ha & Fa & _). apply is_free_name in Fa. rewrite Forall_lookup in Hf. by destruct (Hf k a).
    + rewrite (proj2 (Z.leb_le _ _)) by lia. done.
Qed.
Lemma child_name_inj name i j : zlen name <= 28 -> 0 <= i < 1000 -> 0 <= j < 1000 -> child_name name i = child_name name j -> i = j.
Proof.
  intros Hn Hi Hj. assert (forall k, 0 <= k < 1000 -> child_name name k = name ++ print_dec k) as E.
  { intros k Hk. unfold child_name. apply take_ge. pose proof (zlen_print_dec k 3 Hk ltac:(lia)). pose proof (zlen_app name (print_dec k)). unfold zlen in *. lia. }
  rewrite !E by done. intros H%app_inv_head. pose proof (strtoull_print_dec i ltac:(lia)) as X. rewrite H, strtoull_print_dec in X by lia. congruence.
Qed.

Section complete.
Context (name : list Z) (slot : nat) (kind : list Z) (dev : vblk) (g0 : list vblk).
Context (Hname : name <> []) (Hdev : vb_name dev = name) (Hshort : zlen name <= 28).

(** Every partition of [ps] that is not empty is there, the first as number [n]. *)
Definition all_there (ps : list part) (n : Z) (g : list vblk) : Prop :=
  forall k p, ps !! k = Some p -> p.1 <= p.2 -> vblk_by_name (child_name name (n + Z.of_nat k)) g = Some (make_child dev name (n + Z.of_nat k) p kind).

Lemma child_name_nonnil nth : 0 <= nth -> child_name name nth <> [].
Proof using Hname Hdev Hshort. intros Hn E. pose proof (child_name_is_child name dev Hname Hdev ltac:(lia) nth Hn) as H. by rewrite E in H. Qed.

Lemma register_child_there P nth p g : children_from name slot dev g0 P g -> 0 <= nth ->
  let g' := (register_child slot name nth p kind g).2 in
  (full g -> full g') /\ (forall q, q <> [] -> q <> child_name name nth -> vblk_by_name q g' = vblk_by_name q g) /\
  (p.1 <= p.2 -> full g' \/ vblk_by_name (child_name name nth) g' = Some (make_child dev name nth p kind)).
Proof using Hname Hdev Hshort.
  intros (Hg & Hs & _) Hn. unfold register_child. destruct (Z.ltb_spec p.2 p.1); [cbn; split_and!; [done..|lia]|]. rewrite Hs. set (e := make_child dev name nth p kind).
  pose proof (child_name_nonnil nth Hn) as Hne. pose proof (vblk_register_ok g e Hg) as R. pose proof (register_full g e Hg Hne) as F. unfold fail_as.
  destruct (vblk_register e g) as [[i|rc|] g1]; cbn [snd] in *; [| |done].
  - destruct R as (_ & _ & _ & Hself & Hoth). split_and!; [done|intros q H1 H2; by apply Hoth|by right].
  - destruct R as [-> [R|[R1 R2]]]; [done|]. split_and!; [done..|]. left. split; [done|]. apply Forall_lookup. intros j a Ha. by apply (R2 j).
Qed.
Lemma register_children_there P n ps g : children_from name slot dev g0 P g -> 0 <= n -> n + zlen ps <= 1000 ->
  let g' := (register_children slot name n ps kind g).2 in
  (full g -> full g') /\ (forall q, q <> [] -> (forall k, (k < length ps)%nat -> q <> child_name name (n + Z.of_nat k)) -> vblk_by_name q g' = vblk_by_name q g) /\
  (full g' \/ all_there ps n g').
Proof using Hname Hdev Hshort.
  revert P n g. induction ps as [|p ps IH]; intros P n g Hg Hn Hk; cbn [register_children]; [cbn; split_and!; [done..|]; right; by intros ?? [=]|]. rewrite zlen_cons in Hk.
  pose proof (zlen_nonneg ps). pose proof (register_child_there P n p g Hg Hn) as R. pose proof (register_child_from name slot kind dev Hname Hdev ltac:(lia) g0 P n p g Hg Hn) as C. unfold bind, try.
  destruct (register_child slot name n p kind g) as [o g1]. destruct C as [Ho C]. cbn [snd] in R. destruct R as (R1 & R2 & R3). specialize (IH _ (n + 1) g1 C ltac:(lia) ltac:(lia)).
  set (g2 := (register_children slot name (n + 1) ps kind g1).2) in *. destruct IH as (I1 & I2 & I3).
  assert ((full g -> full g2) /\ (forall q, q <> [] -> (forall k, (k < length (p :: ps))%nat -> q <> child_name name (n + Z.of_nat k)) -> vblk_by_name q g2 = vblk_by_name q g) /\ (full g2 \/ all_there (p :: ps) n g2)) as G.
  { split_and!; [auto| |].
    - intros q Hq Hqk. rewrite I2; [apply R2; [done|]|done|].
      + specialize (Hqk O ltac:(simpl; lia)). by rewrite Z.add_0_r in Hqk.
      + intros k Hlt. specialize (Hqk (S k) ltac:(simpl; lia)). by replace (n + 1 + Z.of_nat k) with (n + Z.of_nat (S k)) by lia.
    - destruct I3 as [?|I3]; [by left|]. destruct (Z.le_gt_cases p.1 p.2) as [Hp|Hp].
      + destruct (R3 Hp) as [?|R]; [by left; apply I1|]. right. intros [|k] q; cbn [lookup list_lookup].
        * intros [= <-] _. rewrite Z.add_0_r. rewrite I2; [done|by apply child_name_nonnil|]. intros k Hlt Ec. apply child_name_inj in Ec; unfold zlen in *; lia.
        * intros Hq Hle. replace (n + Z.of_nat (S k)) with (n + 1 + Z.of_nat k) by lia. by apply I3.
      + right. intros [|k] q; cbn [lookup list_lookup]; [intros [= <-]; lia|]. intros Hq Hle. replace (n + Z.of_nat (S k)) with (n + 1 + Z.of_nat k) by lia. by apply I3. }
  destruct o as [?|?|]; [| |done]; cbn [snd]; unfold ret; destruct (register_children slot name (n + 1) ps kind g1) as [[?|?|] ?]; exact G.
Qed.
End complete.

(** The registry [g] after a scan of [name] that found [l], from [g0]. *)
Record children_of (name : list Z) (dev : vblk) (g0 : list vblk) (kind : list Z) (l : list part) (g : list vblk) : Prop := ChildrenOf {
  co_ok : registry_ok g;
  co_others : forall q, q <> [] -> is_child name q = false -> vblk_by_name q g = vblk_by_name q g0;
  co_found : exists ps, ps ≡ₚ l /\ Sorted (fun a b => a.1 <= b.1) ps /\
    (forall q e, is_child name q = true -> vblk_by_name q g = Some e -> is_registered name kind dev ps 1 e) /\
    (zlen name <= 28 -> full g \/ all_there name kind dev ps 1 g);
}.
(** What a scan does, from [s] to [s']. *)
Definition snapshot (fuel : nat) (name : list Z) (dev : vblk) (s s' : blkst) : Prop :=
  bs_io s' = bs_io s /\ let '(kind, l) := found fuel dev (bs_io s) in children_of name dev (bs_reg s) kind l (bs_reg s').

Section snapshots.
Context (name : list Z) (slot : nat) (dev : vblk) (g0 g : list vblk).
Context (Hn : name <> []) (Hd : vb_name dev = name) (Hl : zlen name <= 30).
Context (Hg : children_from name slot dev g0 (fun _ => False) g).

(** Sorting and registering what a scan found. *)
Lemma register_sorted kind l : zlen l <= MAX_PARTS ->
  let '(o, g') := register_children slot name 1 (sort_pairs l) kind g in (exists made, o = Done made) /\ children_of name dev g0 kind l g'.
Proof using Hn Hd Hl Hg.
  intros Hm. pose proof (register_children_from name slot kind dev Hn Hd Hl g0 _ 1 (sort_pairs l) g Hg ltac:(lia)) as R. destruct (sort_outer_spec (length l) l (le_n _)) as [Hp Hs].
  assert (zlen (sort_pairs l) <= MAX_PARTS) as Hz by (unfold zlen, sort_pairs in *; by rewrite Hp).
  pose proof (fun H28 => register_children_there name slot kind dev g0 Hn Hd H28 _ 1 (sort_pairs l) g Hg ltac:(lia) ltac:(unfold MAX_PARTS in *; lia)) as T.
  destruct (register_children slot name 1 (sort_pairs l) kind g) as [o g']. destruct R as [Ho (H1 & H2 & H3 & H4)].
  split; [done|]. split; [done..|]. exists (sort_pairs l). split_and!; [done..| |].
  - intros q e Hq He. by destruct (H4 q e Hq He).
  - intros H28. apply (T H28).
Qed.
Lemma register_none kind : children_of name dev g0 kind [] g.
Proof using Hn Hd Hl Hg. exact (proj2 (register_sorted kind [] ltac:(done))). Qed.
Lemma register_run io kind l o s' : zlen l <= MAX_PARTS ->
  bind (on_reg (register_children slot name 1 (sort_pairs l) kind)) (fun _ => ret tt) (Blkst g io) = (o, s') ->
  bs_io s' = io /\ children_of name dev g0 kind l (bs_reg s').
Proof using Hn Hd Hl Hg.
  intros Hm E. pose proof (register_sorted kind l Hm) as R. unfold bind, on_reg, zoom in E. cbn [bs_reg bs_io] in E.
  destruct (register_children slot name 1 (sort_pairs l) kind g) as [o1 g1]. destruct R as [[made ->] R]. by injection E as _ <-.
Qed.
(** The scan of a GPT that ends the discovery, [empty] when it finds nothing. *)
Lemma gpt_run io total (empty : comp blkst unit) o s' : files_there io -> (forall t, (empty t).2 = t) ->
  zlen (match (scan_gpt dev total MAX_PARTS io).1 with Done l => l | _ => [] end) <= MAX_PARTS ->
  bind (on_io (scan_gpt_or_none dev total))
    (fun l => match l with [] => empty | _ => on_reg (register_children slot name 1 (sort_pairs l) kind_gpt) ;;; ret tt end) (Blkst g io) = (o, s') ->
  bs_io s' = io /\ children_of name dev g0 kind_gpt (match (scan_gpt dev total MAX_PARTS io).1 with Done l => l | _ => [] end) (bs_reg s').
Proof using Hn Hd Hl Hg.
  intros Hf He Hm E. pose proof (scan_gpt_reads dev total MAX_PARTS io Hf) as Hr. unfold bind at 1, on_io, zoom, scan_gpt_or_none in E. cbn [bs_io bs_reg] in E.
  destruct (scan_gpt dev total MAX_PARTS io) as [[l|rc|] io1]; cbn [fst snd] in *; subst io1.
  - destruct l as [|p l]; [|by eapply register_run]. specialize (He (Blkst g io)). rewrite E in He. cbn in He. subst s'. split; [done|apply register_none].
  - specialize (He (Blkst g io)). rewrite E in He. cbn in He. subst s'. split; [done|apply register_none].
  - injection E as _ <-. split; [done|apply register_none].
Qed.
End snapshots.

(** ** Theorems *)

(** The partitions found are numbered in the order of their first sector:
    sorting keeps exactly the partitions found and puts them in that order. *)
Theorem sort_pairs_correct (l : list part) :
  sort_pairs l ≡ₚ l /\ Sorted (fun a b => a.1 <= b.1) (sort_pairs l).
Proof. by apply sort_outer_spec. Qed.

(** An image whose second and third sectors are [s1] and [s2], the others blank. *)
Definition ex_disk (s1 s2 : list Z) : dio := ex_dio_of (patch (patch (fun _ => 0) 512 s1) 1024 s2).
(** A signed sector with the entry [(type, first, count)] and a link of type [t2] to [l2]. *)
Definition ex_table (t1 l1 c1 t2 l2 : Z) : list Z :=
  zrep 446 0 ++ [0; 0; 0; 0; t1; 0; 0; 0] ++ put32 l1 ++ put32 c1 ++
  [0; 0; 0; 0; t2; 0; 0; 0] ++ put32 l2 ++ put32 1 ++ zrep 32 0 ++ [0x55; 0xAA].

Definition ex_ebrs : dio := ex_disk (ex_table 0x83 1 1 5 1) (ex_table 0x83 1 1 0 0).

Lemma ex_content_bytes s1 s2 i :
  Forall is_byte s1 -> Forall is_byte s2 -> is_byte (patch (patch (fun _ => 0) 512 s1) 1024 s2 i).
Proof.
  intros H1 H2. unfold patch. destruct (_ && _); [by apply is_byte_bget|]. destruct (_ && _); [by apply is_byte_bget|]. done.
Qed.
Lemma ex_sector_blank s1 s2 k n :
  zlen s1 <= 512 -> zlen s2 <= 512 -> 1 < k -> 0 <= n < 512 -> bget (sector (ex_dev 1 3) (ex_disk s1 s2) k) n = 0.
Proof.
  intros H1 H2 Hk Hn. unfold sector, LSEC. rewrite bget_bytes_at by lia. unfold ex_disk. rewrite ex_slice_at.
  unfold hf_at. simpl hf_len. destruct (_ <? _); [|done]. simpl hf_get. by rewrite !patch_out by lia.
Qed.

(** C18: the walk over an extended partition ends: if every EBR that links another
    describes a partition itself, as many steps as there are free places
    deliver a result, which extends the partitions found so far and stays
    within the table. *)
Theorem ebr_chain_terminates (dev : vblk) (io : dio) (base lba max : Z) (acc : list part) :
  slice_ok (Slice dev io) -> vblk_bsz dev = LSEC -> 0 <= lba < 2 ^ 32 ->
  (forall k, 0 <= k < 2 ^ 32 -> ebr_linked (sector dev io k) -> ebr_nonempty (sector dev io k)) ->
  zlen acc <= max ->
  exists new, scan_ebr_chain (Z.to_nat (max - zlen acc)) dev base lba acc max io = (Done (acc ++ new), io) /\
    zlen (acc ++ new) <= max.
Proof. intros. by apply scan_ebr_chain_ok. Qed.
Lemma ebr_chain_terminates_witness :
  exists new, scan_ebr_chain 3 (ex_dev 1 3) 0 0 [] 3 ex_ebrs = (Done new, ex_ebrs) /\ zlen new <= 3.
Proof.
  apply (ebr_chain_terminates (ex_dev 1 3) ex_ebrs 0 0 3 []).
  - apply ex_slice_ok_of; [|lia..]. intros i. apply ex_content_bytes; decide_now.
  - reflexivity.
  - lia.
  - intros k Hk [H _]. destruct (decide (k = 0)) as [->|]; [decide_now|]. destruct (decide (k = 1)) as [->|]; [decide_now|].
    exfalso. unfold has_55aa in H. unfold ex_ebrs in H. rewrite ex_sector_blank in H by first [lia|vm_compute; discriminate]. done.
  - vm_compute. discriminate.
Defined.

(** C19: an EBR that holds no partition and links to itself makes the walk run
    for ever: no number of steps delivers a result. *)
Theorem ebr_self_link_diverges (dev : vblk) (io : dio) (base max : Z) (acc : list part) (sec : list Z) :
  read_lba512 dev base 1 io = (Done sec, io) -> ebr_linked sec -> bget sec 450 = 0 -> le32 sec 470 = 0 ->
  0 <= base < 2 ^ 32 -> zlen acc < max ->
  forall fuel, (scan_ebr_chain fuel dev base base acc max io).1 = NoFuel.
Proof.
  intros Hr [H55 Hx] He Hl Hb Hm fuel. induction fuel as [|fuel IH]; cbn [scan_ebr_chain];
    rewrite (proj2 (Z.ltb_lt _ _)) by done; [done|].
  unfold bind, try. rewrite Hr, H55. cbn [negb].
  assert (ebr_step base base sec acc = (acc, Some base)) as ->; [|done].
  unfold ebr_step. change (446 + 4) with 450. change (446 + 16 + 4) with 466. change (446 + 16 + 8) with 470.
  rewrite He, Hx, Hl, Z.add_0_r, u32_id by done. done.
Qed.
(** The EBR of a partition at its first sector, without a partition and with a link to offset 0. *)
Definition ex_loop : dio := ex_disk (ex_table 0 0 0 5 0) [].
Lemma ebr_self_link_diverges_witness : (scan_ebr_chain 1000 (ex_dev 1 3) 0 0 [] 128 ex_loop).1 = NoFuel.
Proof.
  apply (ebr_self_link_diverges (ex_dev 1 3) ex_loop 0 128 [] (sector (ex_dev 1 3) ex_loop 0)).
  - rewrite read_sector; [reflexivity| |reflexivity|lia]. apply ex_slice_ok_of; [|lia..]. intros i. apply ex_content_bytes; decide_now.
  - decide_now.
  - reflexivity.
  - reflexivity.
  - lia.
  - reflexivity.
Defined.

(** C16: a GPT header is used only when it is consistent: its sizes are within
    the scanner's limits, its table lies on a disk of known size, and both
    checksums are right: that of the header over all the bytes it says it has,
    its own field taken as zero, and that of the table over the table. *)
Theorem gpt_validate_sound (dev : vblk) (io io' : dio) (total_lbas hdr_lba : Z) (h : gpt_hdr) :
  0 <= total_lbas < 2 ^ 54 -> gpt_validate_at dev total_lbas hdr_lba io = (Done h, io') ->
  (92 <= gh_header_size h /\ GPT_ENT_SIZE <= gh_entry_size h /\ gh_num_entries h <> 0 /\ gh_num_entries h <= 4096) /\
  0 < gpt_bytes h <= ENTRIES_MAX_BYTES /\
  (total_lbas <> 0 -> 0 <= gh_entries_lba h -> gh_entries_lba h * LSEC + gpt_bytes h <= total_lbas * LSEC) /\
  exists sec io1 hdrbuf io2 buf,
    read_lba512 dev hdr_lba 1 io = (Done sec, io1) /\ gpt_sig sec = true /\ h = parse_gpt_hdr sec /\
    (if gh_header_size h <=? 512 then hdrbuf = take (Z.to_nat (gh_header_size h)) sec /\ io2 = io1
     else read_bytes dev (u64 (hdr_lba * LSEC)) (gh_header_size h) io1 = (Done hdrbuf, io2)) /\
    crc32_calc (zero_crc_field hdrbuf) = gh_header_crc h /\
    read_bytes dev (u64 (gh_entries_lba h * LSEC)) (gpt_bytes h) io2 = (Done buf, io') /\ crc32_calc buf = gh_entries_crc h.
Proof.
  intros Ht E. unfold gpt_validate_at in E. apply bind_inv in E as (sec & io1 & Es & E).
  apply require_inv in E as [Esig E]. set (h0 := parse_gpt_hdr sec) in *. cbv zeta in E.
  apply require_inv in E as [Ef E]. apply bind_inv in E as (hdrbuf & io2 & Eh & E).
  apply require_inv in E as [Ec E]. apply require_inv in E as [Eb E].
  apply bind_inv in E as (buf & io3 & Er & E). apply require_inv in E as [Ee E].
  injection E as <- <-. apply andb_true_iff in Ef as [Ef Ed]. apply andb_true_iff in Eb as [Eb Et].
  pose proof (u64_range (gh_num_entries h0 * gh_entry_size h0)) as Hg. fold (gpt_bytes h0) in Hg.
  rewrite u32_id in Er by (unfold ENTRIES_MAX_BYTES in *; lia).
  split; [lia|]. split; [lia|]. split.
  - intros H0 Hpos. unfold LSEC, ENTRIES_MAX_BYTES in *.
    rewrite (u64_id (total_lbas * 512)), (u64_id (gh_entries_lba h0 * 512)) in Et by lia. rewrite u64_id in Et by lia. lia.
  - exists sec, io1, hdrbuf, io2, buf. split_and!; [done..| |by apply Z.eqb_eq|done|by apply Z.eqb_eq].
    destruct (gh_header_size h0 <=? 512); [by injection Eh as <- <-|done].
Qed.
(** A disk of four sectors with a GPT of four entries, the first in use. *)
Definition ex_gpt_entries : list Z := zrep 16 7 ++ zrep 16 9 ++ put64 3 ++ put64 3 ++ zrep 464 0.
Definition ex_gpt_fields (crc : Z) : list Z :=
  str_bytes "EFI PART" ++ put32 0x10000 ++ put32 92 ++ put32 crc ++ put32 0 ++
  put64 1 ++ put64 1 ++ put64 3 ++ put64 3 ++ zrep 16 5 ++ put64 2 ++ put32 4 ++ put32 128 ++ put32 (crc32_calc ex_gpt_entries).
Definition ex_gpt : dio := ex_disk (ex_gpt_fields (crc32_calc (ex_gpt_fields 0))) ex_gpt_entries.
Lemma gpt_validate_sound_witness :
  exists h, (gpt_validate_at (ex_dev 0 4) 4 1 ex_gpt).1 = Done h /\ gh_entries_lba h * LSEC + gpt_bytes h <= 4 * LSEC.
Proof.
  assert (exists h, (gpt_validate_at (ex_dev 0 4) 4 1 ex_gpt).1 = Done h /\ gh_entries_lba h = 2) as (h & E & El)
    by (eexists; split; vm_compute; reflexivity).
  exists h. split; [done|].
  refine (proj1 (proj2 (proj2 (gpt_validate_sound (ex_dev 0 4) ex_gpt (gpt_validate_at (ex_dev 0 4) 4 1 ex_gpt).2 4 1 h _ _))) _ _); [lia| |lia|lia].
  rewrite <- E. apply surjective_pairing.
Defined.

(** C17: every partition a GPT scan delivers is nonempty and ends on the disk,
    and there are no more of them than the caller has room for. *)
Theorem scan_gpt_sound (dev : vblk) (io io' : dio) (total_lbas max : Z) (ps : list part) :
  0 <= max -> scan_gpt dev total_lbas max io = (Done ps, io') -> zlen ps <= max /\ Forall (part_ok total_lbas) ps.
Proof.
  intros Hm E. unfold scan_gpt in E. apply bind_inv in E as (r & io1 & _ & E). apply bind_inv in E as (h & io2 & _ & E).
  cbv zeta in E. apply require_inv in E as [_ E]. apply bind_inv in E as (buf & io3 & _ & E). injection E as <- _.
  by apply scan_entries_ok.
Qed.
Lemma scan_gpt_sound_witness :
  (scan_gpt (ex_dev 0 4) 4 MAX_PARTS ex_gpt).1 = Done [(3, 3)] /\ zlen [(3, 3)] <= MAX_PARTS /\ Forall (part_ok 4) [(3, 3)].
Proof.
  assert ((scan_gpt (ex_dev 0 4) 4 MAX_PARTS ex_gpt).1 = Done [(3, 3)]) as E by (vm_compute; reflexivity). split; [done|].
  apply (scan_gpt_sound (ex_dev 0 4) ex_gpt (scan_gpt (ex_dev 0 4) 4 MAX_PARTS ex_gpt).2 4 MAX_PARTS); [done|].
  apply injective_projections; [exact E|reflexivity].
Defined.

(** C15: a scan is a snapshot: the disk is only read, whatever was registered as
    a child before is gone, and every child in the registry is one of the
    partitions found on the disk, numbered by their order on it and of their
    size there; unless the registry is full or the disk's name is longer than
    28 characters, every partition that is not empty is among them.  No device
    that is not a child of this disk is disturbed, however the scan ends. *)
Theorem disk_scan_snapshot (fuel : nat) (name : list Z) (dev : vblk) (s s' : blkst) (o : outcome unit) :
  registry_ok (bs_reg s) -> files_there (bs_io s) -> name <> [] -> zlen name <= 30 -> vblk_by_name name (bs_reg s) = Some dev ->
  disk_scan_partitions fuel name s = (o, s') -> snapshot fuel name dev s s'.
Proof.
  intros Hg Hfs Hn Hl Hf E. unfold disk_scan_partitions in E. unfold bind at 1 in E. cbn [get] in E.
  unfold vblk_by_name in Hf. pose proof (find_by_name_spec (bs_reg s) name Hn) as F.
  destruct (find_by_name name (bs_reg s)) as [slot|]; [|done]. destruct F as (e & Hs & Hd). rewrite Hf in Hs. injection Hs as <-.
  pose proof (removed_children_from name slot dev (bs_reg s) Hg Hn Hd Hf) as Hc. rewrite Hf in E. cbv zeta in E.
  unfold bind at 1, on_reg at 1, zoom, modify in E. cbn [bs_io bs_reg] in E.
  set (g := (vblk_remove_children name (bs_reg s)).2) in *.
  replace (if vblk_size_bytes dev (bs_io s) =? 0 then 0 else vblk_size_bytes dev (bs_io s) / LSEC) with (vblk_size_bytes dev (bs_io s) / LSEC) in E.
  2: { destruct (Z.eqb_spec (vblk_size_bytes dev (bs_io s)) 0) as [->|]; done. }
  unfold bind at 1, on_io at 1, zoom in E. cbn [bs_io bs_reg] in E.
  pose proof (scan_mbr_reads fuel dev MAX_PARTS (bs_io s) Hfs) as Hr. pose proof (found_room fuel dev (bs_io s)) as Hm. unfold snapshot, found in *.
  destruct (scan_mbr fuel dev MAX_PARTS (bs_io s)) as [[r|rc|] io1]; cbn [fst snd] in *; subst io1.
  - destruct r as [[|p l]|].
    + apply (gpt_run name slot dev (bs_reg s) g Hn Hd Hl Hc (bs_io s) _ (ret tt) o s'); done.
    + by apply (register_run name slot dev (bs_reg s) g Hn Hd Hl Hc (bs_io s) kind_mbr (p :: l) o s').
    + apply (gpt_run name slot dev (bs_reg s) g Hn Hd Hl Hc (bs_io s) _ (fail (-1)) o s'); done.
  - injection E as _ <-. split; [done|]. by apply (register_none name slot dev (bs_reg s) g).
  - injection E as _ <-. split; [done|]. by apply (register_none name slot dev (bs_reg s) g).
Qed.
(** A disk of three sectors with two partitions in its table, and a stale
    child from an earlier scan. *)
Definition ex_scan : blkst :=
  Blkst [ex_dev 1 3; Vblk (str_bytes "/dev/a19") (str_bytes "/dev/a") 9 kind_mbr 7 1 512 false]
        (ex_disk (splice (ex_table 0x83 2 1 0 0) 462 [0; 0; 0; 0; 0x83; 0; 0; 0; 1; 0; 0; 0; 1; 0; 0; 0]) []).
Lemma disk_scan_snapshot_witness :
  let r := disk_scan_partitions 1 (str_bytes "/dev/a1") ex_scan in
  r.1 = Done tt /\ map (fun e => (vb_name e, vb_lba_start e)) (bs_reg r.2) =
    [(str_bytes "/dev/a1", 1); (str_bytes "/dev/a11", 1); (str_bytes "/dev/a12", 2)] /\
  snapshot 1 (str_bytes "/dev/a1") (ex_dev 1 3) ex_scan r.2.
Proof.
  cbv zeta. split; [vm_compute; reflexivity|]. split; [vm_compute; reflexivity|].
  apply (disk_scan_snapshot 1 (str_bytes "/dev/a1") (ex_dev 1 3) ex_scan _ (disk_scan_partitions 1 (str_bytes "/dev/a1") ex_scan).1).
  - split; [|vm_compute; discriminate]. intros i j a b Hi Hj.
    destruct i as [|[|i]], j as [|[|j]]; try done; simpl in *; simplify_eq; done.
  - intros [|i] e; [|done]. intros [= <-]. by eexists.
  - discriminate.
  - vm_compute. discriminate.
  - reflexivity.
  - apply surjective_pairing.
Defined.
