(* ===== verification/HostPath.v ===== *)
(** * HostPath: whole transfers at an offset of the file at a path

    [file_read_at_path] and [file_write_at_path] of [src/fileutil.c], which
    open the file, transfer, and close it again. *)
From S2P Require Import Prelude HostFile.
From stdpp Require Import gmap.
#[local] Open Scope Z_scope.

(** A transfer on the open file of [path]. *)
Definition on_file {A} (path : list Z) (c : comp hostfile A) : comp hostfs A := fun fs =>
  let '(o, f) := c (hs_file path fs) in (o, hs_set path f fs).

Definition file_read_at_path (path : list Z) (off n : Z) : comp hostfs (list Z) := fun fs =>
  if fopen_rb path fs then on_file path (vdisk_host_read off n) fs else (Fail (-1), fs).

(** A file that cannot be opened for update is created. *)
Definition file_write_at_path (path : list Z) (off : Z) (b : list Z) : comp hostfs unit := fun fs =>
  if fopen_rbp path fs then on_file path (vdisk_host_write off b) fs
  else match fopen_wbp path fs with
       | None => (Fail (-1), fs)
       | Some fs => on_file path (vdisk_host_write off b) fs
       end.

Definition file_ensure_size (path : list Z) (size_bytes : Z) : comp hostfs unit := fun fs =>
  let extend := vdisk_host_seek (if size_bytes =? 0 then 0 else size_bytes - 1) ;;;
                if size_bytes =? 0 then ret tt else vdisk_host_write (size_bytes - 1) [0] in
  if fopen_rbp path fs then on_file path extend fs
  else match fopen_wbp path fs with
       | None => (Fail (-1), fs)
       | Some fs => on_file path extend fs
       end.

(** ** Lemmas *)

(** [path] is the file [f], open to update. *)
Definition at_path (fs : hostfs) (path : list Z) (f : hostfile) : Prop := hs_nodes fs !! path = Some (HNode f true).

Lemma at_path_file fs path f : at_path fs path f -> hs_file path fs = f.
Proof. intros H. unfold hs_file. by rewrite H. Qed.
Lemma at_path_set fs path f g : at_path fs path f -> at_path (hs_set path g fs) path g.
Proof. intros H. unfold at_path, hs_set. cbn [hs_nodes]. by rewrite lookup_alter_eq, H. Qed.
Lemma hs_set_same fs path f : at_path fs path f -> hs_set path f fs = fs.
Proof.
  intros H. destruct fs as [nodes new]. unfold hs_set. cbn [hs_nodes hs_new] in *. f_equal. apply map_eq. intros p.
  destruct (decide (p = path)) as [->|Hne]; [|by rewrite lookup_alter_ne].
  rewrite lookup_alter_eq. unfold at_path in H. cbn in H. by rewrite H.
Qed.
Lemma hs_set_set fs path f g : hs_set path g (hs_set path f fs) = hs_set path g fs.
Proof.
  unfold hs_set. cbn [hs_nodes hs_new]. f_equal. apply map_eq. intros p.
  destruct (decide (p = path)) as [->|Hne]; [|by rewrite !lookup_alter_ne].
  rewrite !lookup_alter_eq. by destruct (hs_nodes fs !! path).
Qed.

Lemma read_at_path_ok fs path f off n :
  at_path fs path f -> 0 <= off -> 0 <= n -> off + n <= hf_len f -> off <= LONG_MAX ->
  file_read_at_path path off n fs = (Done (bytes_at (hf_at f) off n), fs).
Proof.
  intros H ????. unfold file_read_at_path, fopen_rb. rewrite bool_decide_eq_true_2 by (by rewrite H; eauto).
  unfold on_file. rewrite (at_path_file _ _ _ H), host_read_ok by done. by rewrite hs_set_same.
Qed.
Lemma read_at_path_short fs path f off n :
  at_path fs path f -> 0 <= off -> 0 < n -> hf_len f < off + n -> file_read_at_path path off n fs = (Fail (-1), fs).
Proof.
  intros H ???. unfold file_read_at_path, fopen_rb. rewrite bool_decide_eq_true_2 by (by rewrite H; eauto).
  unfold on_file. rewrite (at_path_file _ _ _ H), host_read_short by done. by rewrite hs_set_same.
Qed.
Lemma write_at_path_ok fs path f off b :
  at_path fs path f -> 0 <= off -> off + zlen b <= hf_cap f -> off <= LONG_MAX ->
  file_write_at_path path off b fs = (Done tt, hs_set path (hf_store f off b) fs).
Proof.
  intros H ???. unfold file_write_at_path, fopen_rbp. rewrite H. cbn [hn_write]. unfold on_file.
  by rewrite (at_path_file _ _ _ H), host_write_ok by done.
Qed.
