(* ===== verification/Mbr.v ===== *)
(** * Mbr: the MBR partition table writer ([src/mbr.c])

    The 512 bytes of the boot sector as a buffer: the table is four entries of
    16 bytes at 446, the signature is at 510. *)
From S2P Require Import Prelude HostFile Vdisk Diskio Vblk Blkdev HostPath.
#[local] Open Scope Z_scope.

Definition MBR_SIZE : Z := 512.
Definition MBR_PART_OFFSET : Z := 446.
Definition MBR_SIG_OFFSET : Z := 510.

Definition set_chs (lba : Z) : list Z :=
  let cyl := lba / (63 * 255) in
  let tmp := lba mod (63 * 255) in
  let head := tmp / 63 in
  let sect := tmp mod 63 + 1 in
  [u8 (Z.land head 0xff); u8 (Z.lor (Z.land sect 0x3f) (Z.land (Z.shiftr cyl 2) 0xc0)); u8 (Z.land cyl 0xff)].

(** [buf[510] = 0x55; buf[511] = 0xAA;] *)
Definition set_sig (buf : list Z) : list Z := splice (splice buf MBR_SIG_OFFSET [0x55]) (MBR_SIG_OFFSET + 1) [0xAA].

Definition mbr_read (path : list Z) : comp hostfs (list Z) := file_read_at_path path 0 MBR_SIZE.
Definition mbr_write (mbr : list Z) (path : list Z) : comp hostfs unit := file_write_at_path path 0 mbr.
Definition mbr_init_empty (path : list Z) : comp hostfs unit := file_write_at_path path 0 (set_sig (zrep MBR_SIZE 0)).

(** The 16 bytes of an entry. *)
Definition part_entry (type lba_start sectors : Z) : list Z :=
  [0] ++ set_chs lba_start ++ [u8 type] ++ set_chs (u32 (u32 (lba_start + sectors) - 1)) ++ put32 lba_start ++ put32 sectors.

Definition mbr_add_partition (path : list Z) (index type start_bytes size_bytes : Z) : comp hostfs unit :=
  require (negb ((index <? 1) || (4 <? index))) (-1) ;;;
  let* buf := fail_as (-1) (mbr_read path) in
  let lba_start := u32 (start_bytes / 512) in
  let sectors := u32 (size_bytes / 512) in
  let buf := splice buf (MBR_PART_OFFSET + (index - 1) * 16) (part_entry type lba_start sectors) in
  mbr_write (set_sig buf) path.

(** [mbr_print]: the entries shown, with their number. *)
Definition mbr_listed (buf : list Z) : list (Z * (Z * Z * Z)) :=
  filter (fun e => e.2.1.1 <> 0)
    ((fun i => (i + 1, (bget buf (MBR_PART_OFFSET + i * 16 + 4), le32 buf (MBR_PART_OFFSET + i * 16 + 8), le32 buf (MBR_PART_OFFSET + i * 16 + 12)))) <$> [0; 1; 2; 3]).
Definition mbr_print (path : list Z) : comp hostfs (list (Z * (Z * Z * Z))) :=
  let* buf := fail_as (-1) (mbr_read path) in
  ret (mbr_listed buf).

(** ** The table *)

(** Type, first sector and sector count of entry [i]. *)
Definition entry (buf : list Z) (i : Z) : Z * Z * Z :=
  (bget buf (446 + i * 16 + 4), le32 buf (446 + i * 16 + 8), le32 buf (446 + i * 16 + 12)).

Lemma zlen_part_entry t l s : zlen (part_entry t l s) = 16.
Proof. done. Qed.

Section added.
Context (buf : list Z) (k t l s : Z) (Hbuf : zlen buf = 512) (Hk : 0 <= k < 4) (Ht : 0 <= t < 256) (Hl : 0 <= l < 2 ^ 32) (Hs : 0 <= s < 2 ^ 32).
Definition added : list Z := set_sig (splice buf (446 + k * 16) (part_entry t l s)).

Lemma zlen_added : zlen added = 512.
Proof using Hbuf Hk.
  unfold added, set_sig. repeat (apply zlen_splice_n; [|unfold MBR_SIG_OFFSET; lia|unfold MBR_SIG_OFFSET; change (zlen [85]) with 1; change (zlen [170]) with 1; lia]).
  apply zlen_splice_n; [done|lia|rewrite zlen_part_entry; lia].
Qed.

Lemma part_entry_fields : bget (part_entry t l s) 4 = t /\ le32 (part_entry t l s) 8 = l /\ le32 (part_entry t l s) 12 = s.
Proof using Ht Hl Hs.
  split_and!; [by apply u8_id|transitivity (le32 (put32 l) 0); [|by apply le32_put32]|transitivity (le32 (put32 s) 0); [|by apply le32_put32]];
    apply le32_ext; intros i Hi; assert (i = 0 \/ i = 1 \/ i = 2 \/ i = 3) as [->|[->|[->| ->]]] by lia; done.
Qed.
Lemma bget_added i : 0 <= i < 510 ->
  bget added i = if (446 + k * 16 <=? i) && (i <? 446 + k * 16 + 16) then bget (part_entry t l s) (i - (446 + k * 16)) else bget buf i.
Proof using Hbuf Hk.
  intros Hi. unfold added, set_sig, MBR_SIG_OFFSET. assert (zlen (splice buf (446 + k * 16) (part_entry t l s)) = 512) as Hz by (apply zlen_splice_n; rewrite ?zlen_part_entry; lia).
  rewrite !bget_splice_skip by (rewrite ?(zlen_splice_n _ _ _ 512 Hz); change (zlen [85]) with 1; change (zlen [170]) with 1; lia).
  btests.
  - by rewrite bget_splice_in by (rewrite ?zlen_part_entry; lia).
  - by rewrite bget_splice_skip by (rewrite ?zlen_part_entry; lia).
  - by rewrite bget_splice_skip by (rewrite ?zlen_part_entry; lia).
Qed.
Lemma entry_added i : 0 <= i < 4 -> entry added i = if i =? k then (t, l, s) else entry buf i.
Proof using Hbuf Hk Ht Hl Hs.
  intros Hi. unfold entry. destruct part_entry_fields as (E1 & E2 & E3). destruct (Z.eqb_spec i k) as [->|Hne].
  - f_equal; [f_equal|].
    + rewrite bget_added by lia. btests. by replace (446 + k * 16 + 4 - (446 + k * 16)) with 4 by lia.
    + transitivity (le32 (part_entry t l s) 8); [|done]. apply le32_ext. intros j Hj. rewrite bget_added by lia. btests. f_equal. lia.
    + transitivity (le32 (part_entry t l s) 12); [|done]. apply le32_ext. intros j Hj. rewrite bget_added by lia. btests. f_equal. lia.
  - assert (forall j, 0 <= j < 16 -> bget added (446 + i * 16 + j) = bget buf (446 + i * 16 + j)) as H by (intros j Hj; rewrite bget_added by lia; btests).
    f_equal; [f_equal|]; [by apply H|apply le32_ext..]; intros j Hj; rewrite <- !Z.add_assoc; rewrite !Z.add_assoc; rewrite <- (Z.add_assoc (446 + i * 16)); apply H; lia.
Qed.
Lemma has_sig_added : has_55aa added = true.
Proof using Hbuf Hk.
  assert (zlen (splice buf (446 + k * 16) (part_entry t l s)) = 512) as Hz by (apply zlen_splice_n; rewrite ?zlen_part_entry; lia).
  unfold has_55aa, added, set_sig, MBR_SIG_OFFSET. rewrite bget_splice_skip by (rewrite ?(zlen_splice_n _ _ _ 512 Hz); change (zlen [85]) with 1; change (zlen [170]) with 1; lia).
  change (510 + 1) with 511. rewrite !bget_splice_hit by (rewrite ?(zlen_splice_n _ _ _ 512 Hz); change (zlen [85]) with 1; lia). done.
Qed.
End added.

(** ** The scan of the table *)

(** What the scan of [blkdev.c] makes of entries without logical partitions. *)
Definition primary (e : Z * Z * Z) : list part :=
  let '(t, l, c) := e in if (t =? 0) || (c =? 0) then [] else [(l, u32 (u32 (l + c) - 1))].
Definition plain_entry (e : Z * Z * Z) : Prop :=
  let '(t, l, c) := e in t = 0 \/ c = 0 \/ (t <> 0xEE /\ is_extended t = false).
Definition entry_parts (buf : list Z) (idx : list Z) : list part := idx ≫= fun i => primary (entry buf i).

Lemma zlen_primary e : zlen (primary e) <= 1.
Proof. destruct e as [[t l] c]. simpl. by destruct (_ || _). Qed.
Lemma scan_mbr_entries_plain n fuel i dev buf acc max io :
  (forall j, i <= j < i + Z.of_nat n -> plain_entry (entry buf j)) -> zlen acc + Z.of_nat n <= max ->
  scan_mbr_entries n fuel i dev buf acc max io = (Done (Some (acc ++ entry_parts buf (seqZ i (Z.of_nat n)))), io).
Proof.
  revert i acc. induction n as [|n IH]; intros i acc Hp Hm; [simpl; by rewrite app_nil_r|].
  rewrite seqZ_cons by lia. replace (Z.pred (Z.of_nat (S n))) with (Z.of_nat n) by lia. replace (Z.succ i) with (i + 1) by lia.
  unfold entry_parts. rewrite bind_cons. fold (entry_parts buf (seqZ (i + 1) (Z.of_nat n))). rewrite app_assoc. cbn [scan_mbr_entries].
  pose proof (Hp i ltac:(lia)) as Hi. unfold plain_entry, primary, entry in *.
  assert (forall j, i + 1 <= j < i + 1 + Z.of_nat n -> plain_entry (entry buf j)) as Hp' by (intros j Hj; apply Hp; lia).
  destruct ((bget buf (446 + i * 16 + 4) =? 0) || (le32 buf (446 + i * 16 + 12) =? 0)) eqn:E.
  - rewrite app_nil_r. apply IH; [done|lia].
  - apply orb_false_iff in E as [E1 E2]. apply Z.eqb_neq in E1, E2. destruct Hi as [|[|[H1 H2]]]; [done..|].
    rewrite (proj2 (Z.eqb_neq _ _) H1), H2. rewrite (proj2 (Z.ltb_lt (zlen acc) max)) by lia.
    apply IH; [done|rewrite zlen_app, zlen_cons, zlen_nil; lia].
Qed.

(** C38: Adding a partition to the boot sector of an image sets exactly the
    entry asked for, to the type, first sector and count asked for, leaves the
    other three entries, the boot code and the rest of the image as they were,
    and signs the sector; when the table holds only primary partitions, the
    scan of the block layer then finds just these, in order. *)
Theorem mbr_add_partition_scanned (fs : hostfs) (path : list Z) (f : hostfile) (index type start size : Z) :
  at_path fs path f -> hf_wf f -> 512 <= hf_len f -> 1 <= index <= 4 -> 0 <= type < 256 ->
  0 <= start < 2 ^ 41 -> 0 <= size < 2 ^ 41 ->
  exists f', mbr_add_partition path index type start size fs = (Done tt, hs_set path f' fs) /\
    hf_len f' = hf_len f /\ (forall i, 0 <= i < 446 \/ 512 <= i -> hf_at f' i = hf_at f i) /\
    let new := bytes_at (hf_at f') 0 512 in
    has_55aa new = true /\
    (forall i, 0 <= i < 4 -> entry new i = if i =? index - 1 then (type, start / 512, size / 512) else entry (bytes_at (hf_at f) 0 512) i) /\
    ((forall i, 0 <= i < 4 -> plain_entry (entry new i)) -> forall fuel dev io,
       scan_mbr_entries 4 fuel 0 dev new [] MAX_PARTS io = (Done (Some (entry_parts new [0; 1; 2; 3])), io)).
Proof.
  intros Hp Hwf Hl Hi Ht Hst Hsz. destruct Hwf as [Hlen Hcap Hb]. set (old := bytes_at (hf_at f) 0 512).
  assert (zlen old = 512) as Ho by (by apply zlen_bytes_at). assert (0 <= start / 512 < 2 ^ 32 /\ 0 <= size / 512 < 2 ^ 32) as [Hs1 Hs2] by dlia.
  set (new := added old (index - 1) type (start / 512) (size / 512)). assert (zlen new = 512) as Hn by (apply zlen_added; [done|lia]).
  exists (hf_store f 0 new). assert (forall i, 0 <= i -> hf_at (hf_store f 0 new) i = patch (hf_at f) 0 new i) as Hat by (intros; by apply hf_at_store).
  assert (bytes_at (hf_at (hf_store f 0 new)) 0 512 = new) as Hnew.
  { rewrite (bytes_at_ext _ (patch (hf_at f) 0 new)) by (intros; apply Hat; lia). pose proof (bytes_at_patch (hf_at f) 0 new) as H. by rewrite Hn in H. }
  split_and!.
  - unfold mbr_add_partition. rewrite require_true by btests. unfold mbr_read.
    rewrite (bind_done _ _ _ old fs) by (unfold fail_as; rewrite (read_at_path_ok fs path f) by (unfold MBR_SIZE, LONG_MAX; done || lia); done).
    rewrite !u32_id by lia. change (set_sig _) with new. unfold mbr_write. apply write_at_path_ok; [done|lia|lia|unfold LONG_MAX; lia].
  - apply hf_len_store_in. lia.
  - intros i [H|H].
    + rewrite Hat, patch_in by lia. rewrite Z.sub_0_r. unfold new. rewrite bget_added by lia. btests. unfold old. rewrite bget_bytes_at by lia. done.
    + rewrite Hat by lia. apply patch_out. lia.
  - cbv zeta. rewrite Hnew. split_and!; [apply has_sig_added; [done|lia]|intros i Hi4; apply entry_added; try done; lia|].
    intros Hplain fuel dev io. rewrite scan_mbr_entries_plain; [done|intros j Hj; apply Hplain; lia|rewrite zlen_nil; unfold MAX_PARTS; lia].
Qed.

Definition ex_disk : hostfile := HostFile (2 ^ 20) (2 ^ 20) true (fun i => if i <? 446 then 0x90 else 0).
Definition ex_fs : hostfs := HostFs {[ str_bytes "disk.img" := HNode ex_disk true ]} (fun _ => None).
Lemma mbr_add_partition_scanned_witness :
  exists f', mbr_add_partition (str_bytes "disk.img") 2 0x83 (2 ^ 16) (2 ^ 18) ex_fs = (Done tt, hs_set (str_bytes "disk.img") f' ex_fs) /\
    entry (bytes_at (hf_at f') 0 512) 1 = (0x83, 128, 512) /\
    forall fuel dev io, scan_mbr_entries 4 fuel 0 dev (bytes_at (hf_at f') 0 512) [] MAX_PARTS io = (Done (Some [(128, 639)]), io).
Proof.
  destruct (mbr_add_partition_scanned ex_fs (str_bytes "disk.img") ex_disk 2 0x83 (2 ^ 16) (2 ^ 18)) as (f' & E & _ & _ & _ & He & Hscan);
    [by vm_compute| |done..|].
  - split; [split; by vm_compute|by vm_compute|]. intros i. unfold hf_at, ex_disk. cbn [hf_len hf_get]. repeat case_match; unfold is_byte; lia.
  - exists f'. split; [exact E|]. split; [exact (He 1 ltac:(lia))|].
    assert (forall i, 0 <= i < 4 -> i <> 1 -> entry (bytes_at (hf_at f') 0 512) i = (0, 0, 0)) as H0.
    { intros i Hi Hne. rewrite He by done. rewrite (proj2 (Z.eqb_neq i (2 - 1))) by lia.
      assert (i = 0 \/ i = 2 \/ i = 3) as [->|[-> | ->]] by lia; by vm_compute. }
    intros fuel dev io. rewrite Hscan.
    + unfold entry_parts. cbn [mbind list_bind]. rewrite (H0 0), (H0 2), (H0 3), (He 1) by lia. reflexivity.
    + intros i Hi. destruct (decide (i = 1)) as [->|]; [rewrite He by lia; right; right; by vm_compute|rewrite H0 by done; by left].
Defined.
