(* ===== verification/Gpt.v ===== *)
(** * Gpt: the GUID partition table writer and reader ([src/gpt.c])

    Creating an empty table on an image, adding partitions to it, reading its
    headers and entries back, and the text forms of GUIDs and names. *)
From S2P Require Import Prelude Text Crc32 HostFile HostPath Stream Vdisk Diskio Vblk Blkdev.
#[local] Open Scope Z_scope.

Definition SECTOR_BYTES_DEFAULT : Z := 512.

Definition read_at_path (path : list Z) (off n : Z) : comp hostfs (list Z) := file_read_at_path path off n.
Definition write_at_path (path : list Z) (off : Z) (b : list Z) : comp hostfs unit := file_write_at_path path off b.
Definition file_size_bytes (path : list Z) : comp hostfs Z := fun fs =>
  if fopen_rb path fs then (Done (hf_len (hs_file path fs)), fs) else (Fail (-1), fs).

(** ** Headers and entries *)

Record gpt_header : Type := GptHeader {
  g_signature : list Z; g_revision : Z; g_header_size : Z; g_header_crc32 : Z; g_reserved : Z;
  g_current_lba : Z; g_backup_lba : Z; g_first_usable_lba : Z; g_last_usable_lba : Z; g_disk_guid : list Z;
  g_part_entry_lba : Z; g_num_part_entries : Z; g_part_entry_size : Z; g_part_array_crc32 : Z;
}.
(** [sizeof(GptHeader)] *)
Definition GPT_HEADER_SIZE : Z := 92.
(** The packed structure in memory. *)
Definition header_bytes (h : gpt_header) : list Z :=
  g_signature h ++ put32 (g_revision h) ++ put32 (g_header_size h) ++ put32 (g_header_crc32 h) ++ put32 (g_reserved h) ++
  put64 (g_current_lba h) ++ put64 (g_backup_lba h) ++ put64 (g_first_usable_lba h) ++ put64 (g_last_usable_lba h) ++ g_disk_guid h ++
  put64 (g_part_entry_lba h) ++ put32 (g_num_part_entries h) ++ put32 (g_part_entry_size h) ++ put32 (g_part_array_crc32 h).
Definition parse_header (b : list Z) : gpt_header :=
  GptHeader (sub b 0 8) (le32 b 8) (le32 b 12) (le32 b 16) (le32 b 20) (le64 b 24) (le64 b 32) (le64 b 40) (le64 b 48)
    (sub b 56 16) (le64 b 72) (le32 b 80) (le32 b 84) (le32 b 88).

(** [sizeof(GptEntry)] *)
Definition GPT_ENTRY_SIZE : Z := 128.
Definition entry_bytes (type_guid uniq_guid : list Z) (first_lba last_lba : Z) (name_utf16 : list Z) : list Z :=
  type_guid ++ uniq_guid ++ put64 first_lba ++ put64 last_lba ++ put64 0 ++ (name_utf16 ≫= put16).

(** ** Text *)

Definition hex_upper (d : Z) : Z := if d <? 10 then 48 + d else 55 + d.
(** ["%0<n>X"] *)
Fixpoint print_hex (n : nat) (v : Z) : list Z :=
  match n with O => [] | S n => print_hex n (v / 16) ++ [hex_upper (v mod 16)] end.

Definition gpt_guid_to_str (g : list Z) : list Z :=
  print_hex 8 (le32 g 0) ++ [45] ++ print_hex 4 (le16 g 4) ++ [45] ++ print_hex 4 (le16 g 6) ++ [45] ++
  (sub g 8 2 ≫= print_hex 2) ++ [45] ++ (sub g 10 6 ≫= print_hex 2).

Definition type_aliases : list (list Z * list Z) :=
  [([0xAF;0x3D;0xC6;0x0F; 0x83;0x84; 0x72;0x47; 0x8E;0x79; 0x3D;0x69;0xD8;0x47;0x7D;0xE4], str_bytes "linuxfs");
   ([0x48;0x61;0x68;0x21; 0x49;0x64; 0x6F;0x6E; 0x74;0x4E; 0x65;0x65;0x64;0x45;0x46;0x49], str_bytes "biosboot");
   ([0x28;0x73;0x2A;0xC1; 0x1F;0xF8; 0xD2;0x11; 0xBA;0x4B; 0x00;0xA0;0xC9;0x3E;0xC9;0x3B], str_bytes "efi");
   ([0xA2;0xA0;0xD0;0xEB; 0xE5;0xB9; 0x33;0x44; 0x87;0xC0; 0x68;0xB6;0xB7;0x26;0x99;0xC7], str_bytes "msbasic");
   ([0x6D;0xFD;0x57;0x06; 0xAB;0xA4; 0xC4;0x43; 0x84;0xE5; 0x09;0x33;0xC8;0x4B;0x4F;0x4F], str_bytes "linuxswap")].
Definition gpt_alias_for_type (type_guid : list Z) : option (list Z) :=
  snd <$> find (fun a => bool_decide (type_guid = a.1)) type_aliases.

(** The loop from unit [u16], [out] the bytes so far. *)
Fixpoint utf16_loop (u16 : list Z) (max_units : nat) (out : list Z) (outsz : Z) : list Z :=
  match max_units, u16 with
  | S n, c :: u16 =>
      if c =? 0 then out else
      let oi := zlen out in
      if c <? 0x80 then
        if outsz <=? oi + 1 then out else utf16_loop u16 n (out ++ [c]) outsz
      else if c <? 0x800 then
        if outsz <=? oi + 2 then out
        else utf16_loop u16 n (out ++ [Z.lor 0xC0 (Z.shiftr c 6); Z.lor 0x80 (Z.land c 0x3F)]) outsz
      else
        if outsz <=? oi + 3 then out
        else utf16_loop u16 n (out ++ [Z.lor 0xE0 (Z.shiftr c 12); Z.lor 0x80 (Z.land (Z.shiftr c 6) 0x3F); Z.lor 0x80 (Z.land c 0x3F)]) outsz
  | _, _ => out
  end.
Definition gpt_utf16le_to_utf8 (u16 : list Z) (max_units : Z) (outsz : Z) : list Z := utf16_loop u16 (Z.to_nat max_units) [] outsz.

Definition is_cont (c : Z) : bool := Z.land c 0xC0 =? 0x80.
(** [fuel]: the text is consumed. *)
Fixpoint utf8_loop (fuel : nat) (s : list Z) (max_chars : nat) : list Z :=
  match fuel, max_chars, s with
  | S fuel, S n, c :: s =>
      if c <? 0x80 then c :: utf8_loop fuel s n
      else 63 :: utf8_loop fuel (skip_while is_cont s) n
  | _, _, _ => []
  end.
Definition utf8_to_utf16le (s : list Z) (max_chars : nat) : list Z := utf8_loop (length s) s max_chars.

(** ** Reading *)

Definition gpt_read_header (path : list Z) (use_primary : bool) : comp hostfs gpt_header :=
  let* bytes := fail_as 0 (file_size_bytes path) in
  require (negb (bytes <? 2 * SECTOR_BYTES_DEFAULT)) 0 ;;;
  let lba := if use_primary then 1 else bytes / SECTOR_BYTES_DEFAULT - 1 in
  let* b := fail_as 0 (read_at_path path (lba * SECTOR_BYTES_DEFAULT) GPT_HEADER_SIZE) in
  let h := parse_header b in
  require (bool_decide (g_signature h = str_bytes "EFI PART")) 0 ;;;
  require (negb (g_header_size h <? 92)) 0 ;;;
  ret h.

Definition gpt_read_entries (path : list Z) (h : gpt_header) : comp hostfs (list Z) :=
  let total_bytes := u64 (g_num_part_entries h * g_part_entry_size h) in
  require (negb (total_bytes =? 0)) 0 ;;;
  fail_as 0 (read_at_path path (u64 (g_part_entry_lba h * SECTOR_BYTES_DEFAULT)) total_bytes).

(** The loop from entry [i]; the entries are taken to be [sizeof(GptEntry)] apart. *)
Fixpoint single_loop (n : nat) (i : Z) (ents : list Z) (found : Z) : Z :=
  match n with
  | O => found
  | S n =>
      let first := le64 ents (i * GPT_ENTRY_SIZE + 32) in
      let last := le64 ents (i * GPT_ENTRY_SIZE + 40) in
      if (negb (first =? 0) || negb (last =? 0)) && (first <=? last) then
        if negb (found =? 0) then 0 else single_loop n (i + 1) ents (i + 1)
      else single_loop n (i + 1) ents found
  end.
Definition gpt_find_single_partition (path : list Z) : comp hostfs Z :=
  let* hdr := try (gpt_read_header path true) in
  match hdr with
  | None => ret 0
  | Some h =>
      let* ents := try (gpt_read_entries path h) in
      match ents with
      | None => ret 0
      | Some ents => ret (single_loop (Z.to_nat (g_num_part_entries h)) 0 ents 0)
      end
  end.

(** ** Writing *)

(** A GUID from sixteen results of [rand()]. *)
Definition rand_guid (rnd : list Z) : list Z := uuid_bits ((fun r => u8 (Z.land r 0xFF)) <$> rnd).
Definition align_up (v a : Z) : Z := u64 (u64 (v + a - 1) / a * a).

Fixpoint clear_loop (n : nat) (i : Z) (path : list Z) (primary backup sector : Z) : comp hostfs unit :=
  match n with
  | O => ret tt
  | S n =>
      fail_as (-9) (write_at_path path (u64 (u64 (primary + i) * sector)) (zrep sector 0)) ;;;
      fail_as (-10) (write_at_path path (u64 (u64 (backup + i) * sector)) (zrep sector 0)) ;;;
      clear_loop n (i + 1) path primary backup sector
  end.

Definition protective_mbr (total_lba : Z) : list Z :=
  let mbr := splice (splice (zrep 512 0) 510 [0x55]) 511 [0xAA] in
  let lba_count := if UINT32_MAX <? total_lba then UINT32_MAX else u32 (total_lba - 1) in
  let mbr := splice mbr (446 + 4) [0xEE] in
  let mbr := splice mbr (446 + 8) (put32 1) in
  splice mbr (446 + 12) (put32 lba_count).

Definition gpt_init_fresh (path : list Z) (sector entries entry_size : Z) (rnd : list Z) : comp hostfs unit :=
  require ((sector =? 512) || (sector =? 4096)) (-2) ;;;
  require (entry_size =? 128) (-3) ;;;
  let entries := if entries =? 0 then 128 else entries in
  let* bytes := fail_as (-4) (file_size_bytes path) in
  require (negb (bytes <? sector * 128)) (-5) ;;;
  require (bytes mod sector =? 0) (-6) ;;;
  let total_lba := bytes / sector in
  let last_lba := total_lba - 1 in
  let ents_bytes := entries * entry_size in
  let ents_lba := (ents_bytes + sector - 1) / sector in
  let align_lba := 1024 * 1024 / sector in
  let first_usable := align_up (2 + ents_lba) align_lba in
  let backup_ents_lba := u64 (last_lba - ents_lba) in
  require (negb (backup_ents_lba <=? first_usable)) (-7) ;;;
  let last_usable := backup_ents_lba - 1 in
  clear_loop (Z.to_nat ents_lba) 0 path 2 backup_ents_lba sector ;;;
  let ph := GptHeader (str_bytes "EFI PART") 0x10000 92 0 0 1 last_lba first_usable last_usable (rand_guid rnd) 2 entries entry_size 0 in
  let bh := GptHeader (str_bytes "EFI PART") 0x10000 92 0 0 last_lba 1 first_usable last_usable (rand_guid rnd) backup_ents_lba entries entry_size 0 in
  fail_as (-11) (write_at_path path (1 * sector) (header_bytes ph)) ;;;
  fail_as (-12) (write_at_path path (u64 (last_lba * sector)) (header_bytes bh)) ;;;
  if sector =? 512 then fail_as (-13) (write_at_path path 0 (protective_mbr total_lba)) else ret tt.

(** The first entry from [i] whose type is zero. *)
Fixpoint free_slot (n : nat) (i : Z) (ents : list Z) (esize : Z) : option Z :=
  match n with
  | O => None
  | S n => if forallb (fun b => b =? 0) (sub ents (i * esize) 16) then Some i else free_slot n (i + 1) ents esize
  end.

(** The name in its 36 units. *)
Definition name_units (name : list Z) : list Z :=
  let u := utf8_to_utf16le name 36 in u ++ zrep (36 - zlen u) 0.

Definition gpt_add_partition_lba (path type_guid name : list Z) (first_lba last_lba : Z) (rnd : list Z) : comp hostfs unit :=
  let* h := fail_as (-1) (gpt_read_header path true) in
  let entry_count := u64 (g_num_part_entries h * g_part_entry_size h) in
  let* ents := fail_as (-3) (read_at_path path (u64 (g_part_entry_lba h * SECTOR_BYTES_DEFAULT)) entry_count) in
  match free_slot (Z.to_nat (g_num_part_entries h)) 0 ents (g_part_entry_size h) with
  | None => fail (-4)
  | Some slot =>
      let ne := entry_bytes type_guid (rand_guid rnd) first_lba last_lba (name_units name) in
      let ents := take (Z.to_nat entry_count) (splice ents (slot * g_part_entry_size h) ne) in
      fail_as (-5) (write_at_path path (u64 (g_part_entry_lba h * SECTOR_BYTES_DEFAULT)) ents) ;;;
      let* b := fail_as (-6) (read_at_path path (u64 (g_backup_lba h * SECTOR_BYTES_DEFAULT)) GPT_HEADER_SIZE) in
      let bh := parse_header b in
      fail_as (-7) (write_at_path path (u64 (g_part_entry_lba bh * SECTOR_BYTES_DEFAULT)) ents) ;;;
      fail_as (-8) (write_at_path path (u64 (g_current_lba h * SECTOR_BYTES_DEFAULT)) (header_bytes h)) ;;;
      fail_as (-9) (write_at_path path (u64 (g_current_lba bh * SECTOR_BYTES_DEFAULT)) (header_bytes bh))
  end.

(** ** Headers read back *)

Record header_ok (h : gpt_header) : Prop := HeaderOk {
  ho_sig : g_signature h = str_bytes "EFI PART"; ho_guid : zlen (g_disk_guid h) = 16;
  ho_rev : 0 <= g_revision h < 2 ^ 32; ho_size : 92 <= g_header_size h < 2 ^ 32; ho_crc : 0 <= g_header_crc32 h < 2 ^ 32;
  ho_res : 0 <= g_reserved h < 2 ^ 32; ho_cur : 0 <= g_current_lba h < 2 ^ 64; ho_bak : 0 <= g_backup_lba h < 2 ^ 64;
  ho_first : 0 <= g_first_usable_lba h < 2 ^ 64; ho_last : 0 <= g_last_usable_lba h < 2 ^ 64; ho_lba : 0 <= g_part_entry_lba h < 2 ^ 64;
  ho_num : 0 <= g_num_part_entries h < 2 ^ 32; ho_esize : 0 <= g_part_entry_size h < 2 ^ 32; ho_acrc : 0 <= g_part_array_crc32 h < 2 ^ 32;
}.
Lemma zlen_header_bytes h : header_ok h -> zlen (header_bytes h) = 92.
Proof. intros []. unfold header_bytes. rewrite ho_sig0. autorewrite with zlen. rewrite ho_guid0. done. Qed.
Lemma parse_header_bytes h : header_ok h -> parse_header (header_bytes h) = h.
Proof.
  intros []. destruct h as [sg rev size crc res cur bak first last guid lba num esize acrc]. simpl in *. subst sg.
  do 16 (destruct guid as [|? guid]; [done|]). destruct guid; [|unfold zlen in *; simpl in *; lia].
  unfold parse_header. f_equal.
  - change (le32 (put32 rev) 0 = rev). by apply le32_put32.
  - change (le32 (put32 size) 0 = size). apply le32_put32. lia.
  - change (le32 (put32 crc) 0 = crc). by apply le32_put32.
  - change (le32 (put32 res) 0 = res). by apply le32_put32.
  - change (le64 (put64 cur) 0 = cur). by apply le64_put64.
  - change (le64 (put64 bak) 0 = bak). by apply le64_put64.
  - change (le64 (put64 first) 0 = first). by apply le64_put64.
  - change (le64 (put64 last) 0 = last). by apply le64_put64.
  - change (le64 (put64 lba) 0 = lba). by apply le64_put64.
  - change (le32 (put32 num) 0 = num). by apply le32_put32.
  - change (le32 (put32 esize) 0 = esize). by apply le32_put32.
  - change (le32 (put32 acrc) 0 = acrc). by apply le32_put32.
Qed.

(** ** Lengths *)

Lemma length_utf8_loop fuel s n : (length (utf8_loop fuel s n) <= n)%nat.
Proof.
  revert s n. induction fuel as [|fuel IH]; intros s n; simpl; [lia|]. destruct n as [|n]; [simpl; lia|]. destruct s as [|c s]; [simpl; lia|].
  case_match; simpl; [specialize (IH s n)|specialize (IH (skip_while is_cont s) n)]; lia.
Qed.
Lemma zlen_bind16 l : zlen (l ≫= put16) = 2 * zlen l.
Proof. induction l as [|x l IH]; [done|]. rewrite bind_cons, zlen_app, IH, zlen_put16, zlen_cons. lia. Qed.
Lemma zlen_name_units name : zlen (name_units name) = 36.
Proof.
  unfold name_units, utf8_to_utf16le. pose proof (length_utf8_loop (length name) name 36). pose proof (zlen_nonneg (utf8_loop (length name) name 36)).
  rewrite zlen_app, zlen_zrep; unfold zlen in *; lia.
Qed.
Lemma zlen_rand_guid rnd : zlen rnd = 16 -> zlen (rand_guid rnd) = 16.
Proof. intros H. apply zlen_uuid_bits. by rewrite zlen_fmap. Qed.
Lemma zlen_entry_bytes tg rnd first last name : zlen tg = 16 -> zlen rnd = 16 ->
  zlen (entry_bytes tg (rand_guid rnd) first last (name_units name)) = 128.
Proof.
  intros H1 H2. unfold entry_bytes. rewrite !zlen_app, zlen_bind16, zlen_name_units, H1, (zlen_rand_guid _ H2), !zlen_put64. done.
Qed.

Lemma zrep_app {A} a b (c : A) : 0 <= a -> 0 <= b -> zrep (a + b) c = zrep a c ++ zrep b c.
Proof. intros. unfold zrep. by rewrite Z2Nat.inj_add, replicate_add by lia. Qed.

Lemma zlen_protective total : zlen (protective_mbr total) = 512.
Proof.
  unfold protective_mbr. cbv zeta. assert (zlen [0x55] = 1) as H1 by done. assert (zlen [0xAA] = 1) as H2 by done. assert (zlen [0xEE] = 1) as H3 by done.
  repeat (apply zlen_splice_n; [|lia|rewrite ?zlen_put32; lia]). done.
Qed.

(** ** The image of a table *)

Section image.
Context (path : list Z) (L E fu : Z) (guid : list Z).
Context (HE : 0 < E < 2 ^ 32) (Hguid : zlen guid = 16) (Hfu : 0 <= fu < 2 ^ 64).

Definition tbl_lbas : Z := (E * 128 + 511) / 512.
Definition backup_lba : Z := L - tbl_lbas.
Definition hdr (cur bak lba : Z) : gpt_header := GptHeader (str_bytes "EFI PART") 0x10000 92 0 0 cur bak fu (backup_lba - 1) guid lba E 128 0.
Definition primary_hdr : gpt_header := hdr 1 L 2.
Definition backup_hdr : gpt_header := hdr L 1 backup_lba.

(** The tables do not meet, and the file offsets fit. *)
Definition layout_ok : Prop := 2 + tbl_lbas <= backup_lba /\ (L + 1) * 512 <= LONG_MAX.
Context (Hlay : layout_ok).

Record gpt_image (f : hostfile) (ents : list Z) : Prop := GptImage {
  gi_len : hf_len f = (L + 1) * 512;
  gi_cap : hf_len f <= hf_cap f;
  gi_size : zlen ents = E * 128;
  gi_hdr : holds_at f 512 (header_bytes primary_hdr);
  gi_bak : holds_at f (L * 512) (header_bytes backup_hdr);
  gi_ents : holds_at f 1024 ents;
  gi_bents : holds_at f (backup_lba * 512) ents;
}.

Lemma tbl_range : E * 128 <= tbl_lbas * 512 /\ 0 < tbl_lbas /\ 2 + tbl_lbas <= backup_lba /\ backup_lba + tbl_lbas = L /\ (L + 1) * 512 <= LONG_MAX.
Proof using HE Hlay. clear Hfu Hguid. destruct Hlay. unfold backup_lba, tbl_lbas in *. split_and!; dlia. Qed.
Lemma hdr_ok cur bak lba : 0 <= cur <= L -> 0 <= bak <= L -> 0 <= lba <= L -> header_ok (hdr cur bak lba).
Proof using HE Hguid Hfu Hlay.
  intros. destruct tbl_range as (? & ? & ? & ? & ?). unfold LONG_MAX in *. split; simpl; try done; try lia.
Qed.
Lemma primary_ok : header_ok primary_hdr.
Proof using HE Hguid Hfu Hlay. destruct tbl_range as (? & ? & ? & ? & ?). apply hdr_ok; lia. Qed.
Lemma backup_ok : header_ok backup_hdr.
Proof using HE Hguid Hfu Hlay. destruct tbl_range as (? & ? & ? & ? & ?). apply hdr_ok; lia. Qed.

Lemma at_path_size fs f : at_path fs path f -> file_size_bytes path fs = (Done (hf_len f), fs).
Proof. intros H. unfold file_size_bytes, fopen_rb. rewrite bool_decide_eq_true_2 by (by rewrite H; eauto). by rewrite (at_path_file _ _ _ H). Qed.
Lemma read_holds fs f off b n : at_path fs path f -> holds_at f off b -> zlen b = n -> off <= LONG_MAX ->
  read_at_path path off n fs = (Done b, fs).
Proof.
  intros Hp (H1 & H2 & H3) <- Ho. unfold read_at_path. pose proof (zlen_nonneg b). rewrite (read_at_path_ok fs path f) by done. by rewrite H3.
Qed.

Lemma read_header_at fs f (use : bool) lba h :
  at_path fs path f -> hf_len f = (L + 1) * 512 -> lba = (if use then 1 else L) -> header_ok h -> holds_at f (lba * 512) (header_bytes h) ->
  gpt_read_header path use fs = (Done h, fs).
Proof using HE Hguid Hfu Hlay.
  intros Hp Hl Hlba Hh Hf. destruct tbl_range as (? & ? & ? & ? & ?). unfold LONG_MAX in *. unfold gpt_read_header, SECTOR_BYTES_DEFAULT.
  rewrite (bind_done _ _ _ _ _ (fail_as_done 0 _ _ _ _ (at_path_size _ _ Hp))), Hl. rewrite require_true by btests.
  replace (if use then 1 else (L + 1) * 512 / 512 - 1) with lba by (rewrite Z.div_mul by lia; destruct use; lia). cbv zeta.
  assert (lba * 512 <= L * 512) by (destruct use; lia).
  rewrite (bind_done _ _ _ _ _ (fail_as_done 0 _ _ _ _ (read_holds _ _ _ _ GPT_HEADER_SIZE Hp Hf (zlen_header_bytes _ Hh) ltac:(unfold LONG_MAX; lia)))).
  rewrite parse_header_bytes by done. destruct Hh as [Hs _ _ Hsz _ _ _ _ _ _ _ _ _ _]. rewrite Hs.
  rewrite require_true by done. by rewrite require_true by btests.
Qed.
Lemma image_read_header fs f ents : at_path fs path f -> gpt_image f ents ->
  gpt_read_header path true fs = (Done primary_hdr, fs) /\ gpt_read_header path false fs = (Done backup_hdr, fs).
Proof using HE Hguid Hfu Hlay.
  intros Hp []. split; [apply (read_header_at _ f _ 1)|apply (read_header_at _ f _ L)]; auto using primary_ok, backup_ok.
Qed.
Lemma image_read_entries fs f ents : at_path fs path f -> gpt_image f ents ->
  gpt_read_entries path primary_hdr fs = (Done ents, fs) /\ gpt_read_entries path backup_hdr fs = (Done ents, fs).
Proof using HE Hguid Hfu Hlay.
  intros Hp []. destruct tbl_range as (? & ? & ? & ? & ?). unfold LONG_MAX in *. unfold gpt_read_entries, SECTOR_BYTES_DEFAULT.
  cbn [primary_hdr backup_hdr hdr g_num_part_entries g_part_entry_size g_part_entry_lba]. rewrite (u64_id (E * 128)), (u64_id (backup_lba * 512)) by lia.
  rewrite require_true by btests. rewrite require_true by btests. change (u64 (2 * 512)) with 1024.
  split; apply fail_as_done; (eapply read_holds; [done..|unfold LONG_MAX; lia]).
Qed.

Lemma write_ok fs f off b : at_path fs path f -> 0 <= off -> off + zlen b <= hf_len f -> hf_len f <= hf_cap f -> off <= LONG_MAX ->
  write_at_path path off b fs = (Done tt, hs_set path (hf_store f off b) fs).
Proof. intros. unfold write_at_path. apply write_at_path_ok; try done. lia. Qed.

(** The four writes of an update, and what the image is then. *)
Definition updated (f : hostfile) (ents : list Z) : hostfile :=
  hf_store (hf_store (hf_store (hf_store f 1024 ents) (backup_lba * 512) ents) 512 (header_bytes primary_hdr)) (L * 512) (header_bytes backup_hdr).
Lemma image_updated f ents :
  hf_len f = (L + 1) * 512 -> hf_len f <= hf_cap f -> zlen ents = E * 128 -> gpt_image (updated f ents) ents.
Proof using HE Hguid Hfu Hlay.
  intros Hl Hc He. destruct tbl_range as (? & ? & ? & ? & ?). pose proof (zlen_header_bytes _ primary_ok) as Hz1. pose proof (zlen_header_bytes _ backup_ok) as Hz2.
  unfold updated. set (f1 := hf_store f 1024 ents). assert (hf_len f1 = (L + 1) * 512) as L1 by (unfold f1; rewrite hf_len_store_in; lia).
  set (f2 := hf_store f1 (backup_lba * 512) ents). assert (hf_len f2 = (L + 1) * 512) as L2 by (unfold f2; rewrite hf_len_store_in; lia).
  set (f3 := hf_store f2 512 (header_bytes primary_hdr)). assert (hf_len f3 = (L + 1) * 512) as L3 by (unfold f3; rewrite hf_len_store_in; lia).
  split.
  - rewrite hf_len_store_in; lia.
  - rewrite hf_len_store_in by lia. rewrite hf_cap_store. unfold f3, f2, f1. rewrite !hf_cap_store. unfold f3, f2, f1 in L3. lia.
  - done.
  - apply holds_at_store_out; [apply holds_at_store|..]; lia.
  - apply holds_at_store; lia.
  - apply holds_at_store_out; [apply holds_at_store_out; [apply holds_at_store_out; [apply holds_at_store|..]|..]|..]; lia.
  - apply holds_at_store_out; [apply holds_at_store_out; [apply holds_at_store|..]|..]; lia.
Qed.

Lemma image_add fs f ents k tg name first last rnd :
  at_path fs path f -> gpt_image f ents -> free_slot (Z.to_nat E) 0 ents 128 = Some k -> 0 <= k < E -> zlen tg = 16 -> zlen rnd = 16 ->
  let ents' := splice ents (k * 128) (entry_bytes tg (rand_guid rnd) first last (name_units name)) in
  gpt_add_partition_lba path tg name first last rnd fs = (Done tt, hs_set path (updated f ents') fs) /\ gpt_image (updated f ents') ents'.
Proof using HE Hguid Hfu Hlay.
  intros Hp Hi Hk Hkr Htg Hrnd ents'. pose proof Hi as [Hl Hc He Hh Hb He1 He2]. destruct tbl_range as (? & ? & ? & ? & ?).
  pose proof (zlen_entry_bytes tg rnd first last name Htg Hrnd) as Hne.
  assert (zlen ents' = E * 128) as He' by (apply zlen_splice_n; [done|lia|lia]). split; [|by apply image_updated].
  pose proof (zlen_header_bytes _ primary_ok) as Hz1. pose proof (zlen_header_bytes _ backup_ok) as Hz2.
  unfold gpt_add_partition_lba. rewrite (bind_done _ _ _ _ _ (fail_as_done (-1) _ _ _ _ (proj1 (image_read_header _ _ _ Hp Hi)))).
  cbn [primary_hdr hdr g_num_part_entries g_part_entry_size g_part_entry_lba g_backup_lba g_current_lba]. unfold SECTOR_BYTES_DEFAULT.
  unfold LONG_MAX in *. rewrite (u64_id (E * 128)) by lia. change (u64 (2 * 512)) with 1024. change (u64 (1 * 512)) with 512. rewrite (u64_id (L * 512)) by lia. cbv zeta.
  rewrite (bind_done _ _ _ ents fs) by (apply fail_as_done, (read_holds _ f); try done; unfold LONG_MAX; lia). rewrite Hk. fold ents'.
  rewrite (take_ge ents') by (unfold zlen in He'; lia).
  set (f1 := hf_store f 1024 ents'). assert (hf_len f1 = (L + 1) * 512) as L1 by (unfold f1; rewrite hf_len_store_in; lia).
  assert (hf_cap f1 = hf_cap f) as C1 by apply hf_cap_store. pose proof (at_path_set _ _ _ f1 Hp) as P1.
  rewrite (bind_done _ _ _ _ _ (fail_as_done (-5) _ _ _ _ (write_ok _ f 1024 ents' Hp ltac:(lia) ltac:(lia) ltac:(lia) ltac:(unfold LONG_MAX; lia)))). fold f1.
  assert (holds_at f1 (L * 512) (header_bytes backup_hdr)) as Hb1 by (apply holds_at_store_out; [done|lia|lia]).
  rewrite (bind_done _ _ _ _ _ (fail_as_done (-6) _ _ _ _ (read_holds _ _ _ _ GPT_HEADER_SIZE P1 Hb1 Hz2 ltac:(unfold LONG_MAX; lia)))).
  rewrite parse_header_bytes by apply backup_ok. cbn [backup_hdr hdr g_part_entry_lba g_current_lba]. rewrite (u64_id (backup_lba * 512)), (u64_id (L * 512)) by lia.
  set (f2 := hf_store f1 (backup_lba * 512) ents'). assert (hf_len f2 = (L + 1) * 512) as L2 by (unfold f2; rewrite hf_len_store_in; lia).
  assert (hf_cap f2 = hf_cap f) as C2 by (unfold f2; by rewrite hf_cap_store). pose proof (at_path_set _ _ _ f2 P1) as P2.
  rewrite (bind_done _ _ _ _ _ (fail_as_done (-7) _ _ _ _ (write_ok _ f1 (backup_lba * 512) ents' P1 ltac:(lia) ltac:(lia) ltac:(lia) ltac:(unfold LONG_MAX; lia)))). fold f2.
  set (f3 := hf_store f2 512 (header_bytes primary_hdr)). assert (hf_len f3 = (L + 1) * 512) as L3 by (unfold f3; rewrite hf_len_store_in; lia).
  assert (hf_cap f3 = hf_cap f) as C3 by (unfold f3; by rewrite hf_cap_store). pose proof (at_path_set _ _ _ f3 P2) as P3.
  rewrite (bind_done _ _ _ _ _ (fail_as_done (-8) _ _ _ _ (write_ok _ f2 512 (header_bytes primary_hdr) P2 ltac:(lia) ltac:(lia) ltac:(lia) ltac:(unfold LONG_MAX; lia)))). fold f3.
  rewrite (fail_as_done (-9) _ _ _ _ (write_ok _ f3 (L * 512) (header_bytes backup_hdr) P3 ltac:(lia) ltac:(lia) ltac:(lia) ltac:(unfold LONG_MAX; lia))).
  by rewrite !hs_set_set.
Qed.

(** ** Creation *)

Lemma clear_ok n i fs f :
  at_path fs path f -> hf_len f = (L + 1) * 512 -> hf_len f <= hf_cap f -> 0 <= i -> i + Z.of_nat n <= tbl_lbas ->
  holds_at f 1024 (zrep (i * 512) 0) -> holds_at f (backup_lba * 512) (zrep (i * 512) 0) ->
  exists f', clear_loop n i path 2 backup_lba 512 fs = (Done tt, hs_set path f' fs) /\ hf_len f' = hf_len f /\ hf_cap f' = hf_cap f /\
    holds_at f' 1024 (zrep ((i + Z.of_nat n) * 512) 0) /\ holds_at f' (backup_lba * 512) (zrep ((i + Z.of_nat n) * 512) 0).
Proof using HE Hguid Hfu Hlay.
  destruct tbl_range as (? & ? & ? & ? & ?). unfold LONG_MAX in *.
  revert i fs f. induction n as [|n IH]; intros i fs f Hp Hl Hc Hi Hn Ha0 Hb0.
  { exists f. rewrite Z.add_0_r. split_and!; try done. simpl. by rewrite (hs_set_same _ _ _ Hp). }
  cbn [clear_loop]. rewrite (u64_id (2 + i)), (u64_id ((2 + i) * 512)), (u64_id (backup_lba + i)), (u64_id ((backup_lba + i) * 512)) by lia.
  assert (zlen (zrep 512 (0 : Z)) = 512) as Hz by done. assert (zlen (zrep (i * 512) (0 : Z)) = i * 512) as Hzi by (apply zlen_zrep; lia).
  rewrite (bind_done _ _ _ _ _ (fail_as_done (-9) _ _ _ _ (write_ok fs f ((2 + i) * 512) (zrep 512 0) Hp ltac:(lia) ltac:(lia) ltac:(lia) ltac:(unfold LONG_MAX; lia)))).
  set (f1 := hf_store f ((2 + i) * 512) (zrep 512 0)). assert (hf_len f1 = hf_len f) as L1 by (apply hf_len_store_in; lia).
  assert (hf_cap f1 = hf_cap f) as C1 by apply hf_cap_store. pose proof (at_path_set _ _ _ f1 Hp) as P1.
  rewrite (bind_done _ _ _ _ _ (fail_as_done (-10) _ _ _ _ (write_ok _ f1 ((backup_lba + i) * 512) (zrep 512 0) P1 ltac:(lia) ltac:(lia) ltac:(lia) ltac:(unfold LONG_MAX; lia)))).
  set (f2 := hf_store f1 ((backup_lba + i) * 512) (zrep 512 0)). assert (hf_len f2 = hf_len f) as L2 by (unfold f2; rewrite hf_len_store_in; lia).
  assert (hf_cap f2 = hf_cap f) as C2 by (unfold f2; by rewrite hf_cap_store). pose proof (at_path_set _ _ _ f2 P1) as P2.
  rewrite hs_set_set in P2 |- *.
  destruct (IH (i + 1) (hs_set path f2 fs) f2 P2) as (f' & E' & L' & C' & Ha & Hb); [lia|lia|lia|lia| | |].
  - replace ((i + 1) * 512) with (i * 512 + 512) by lia. rewrite zrep_app by lia. apply holds_at_app. rewrite Hzi.
    replace (1024 + i * 512) with ((2 + i) * 512) by lia.
    split; [apply holds_at_store_out; [apply holds_at_store_out|..]|apply holds_at_store_out; [apply holds_at_store|..]]; try done; lia.
  - replace ((i + 1) * 512) with (i * 512 + 512) by lia. rewrite zrep_app by lia. apply holds_at_app. rewrite Hzi.
    replace (backup_lba * 512 + i * 512) with ((backup_lba + i) * 512) by lia.
    split; [apply holds_at_store_out; [apply holds_at_store_out|..]|apply holds_at_store]; try done; lia.
  - exists f'. rewrite E', hs_set_set. replace (i + Z.of_nat (S n)) with (i + 1 + Z.of_nat n) by lia. split_and!; try done; lia.
Qed.

Lemma init_ok fs f entries rnd :
  at_path fs path f -> hf_len f = (L + 1) * 512 -> hf_len f <= hf_cap f -> 127 <= L -> E = (if entries =? 0 then 128 else entries) ->
  fu = align_up (2 + tbl_lbas) 2048 -> fu < backup_lba -> guid = rand_guid rnd ->
  exists f', gpt_init_fresh path 512 entries 128 rnd fs = (Done tt, hs_set path f' fs) /\ gpt_image f' (zrep (E * 128) 0).
Proof using HE Hguid Hfu Hlay.
  intros Hp Hl Hc HL He Hfua Hfub Hg. destruct tbl_range as (? & ? & ? & ? & ?). unfold LONG_MAX in *.
  pose proof (zlen_header_bytes _ primary_ok) as Hz1. pose proof (zlen_header_bytes _ backup_ok) as Hz2.
  unfold gpt_init_fresh. rewrite !require_true by done. rewrite <- He.
  rewrite (bind_done _ _ _ _ _ (fail_as_done (-4) _ _ _ _ (at_path_size _ _ Hp))), Hl.
  rewrite require_true by btests. rewrite require_true by (rewrite Z.mod_mul by lia; done). rewrite Z.div_mul by lia. cbv zeta.
  replace (L + 1 - 1) with L by lia. replace (E * 128 + 512 - 1) with (E * 128 + 511) by lia. fold tbl_lbas. change (1024 * 1024 / 512) with 2048.
  rewrite <- Hfua. fold backup_lba. rewrite (u64_id backup_lba) by lia. rewrite require_true by btests. rewrite <- Hg.
  destruct (clear_ok (Z.to_nat tbl_lbas) 0 fs f Hp Hl Hc ltac:(lia) ltac:(lia)) as (f0 & E0 & L0 & C0 & Ha & Hb);
    [apply holds_at_nil; lia|apply holds_at_nil; lia|]. rewrite (bind_done _ _ _ _ _ E0).
  rewrite Z2Nat.id, Z.add_0_l in Ha, Hb by lia.
  change (GptHeader (str_bytes "EFI PART") 0x10000 92 0 0 1 L fu (backup_lba - 1) guid 2 E 128 0) with primary_hdr.
  change (GptHeader (str_bytes "EFI PART") 0x10000 92 0 0 L 1 fu (backup_lba - 1) guid backup_lba E 128 0) with backup_hdr.
  change (1 * 512) with 512. rewrite (u64_id (L * 512)) by lia. pose proof (at_path_set _ _ _ f0 Hp) as P0.
  rewrite (bind_done _ _ _ _ _ (fail_as_done (-11) _ _ _ _ (write_ok _ f0 512 (header_bytes primary_hdr) P0 ltac:(lia) ltac:(lia) ltac:(lia) ltac:(unfold LONG_MAX; lia)))).
  set (f1 := hf_store f0 512 (header_bytes primary_hdr)). assert (hf_len f1 = hf_len f) as L1 by (unfold f1; rewrite hf_len_store_in; lia).
  assert (hf_cap f1 = hf_cap f) as C1 by (unfold f1; by rewrite hf_cap_store). pose proof (at_path_set _ _ _ f1 P0) as P1.
  rewrite (bind_done _ _ _ _ _ (fail_as_done (-12) _ _ _ _ (write_ok _ f1 (L * 512) (header_bytes backup_hdr) P1 ltac:(lia) ltac:(lia) ltac:(lia) ltac:(unfold LONG_MAX; lia)))).
  set (f2 := hf_store f1 (L * 512) (header_bytes backup_hdr)). assert (hf_len f2 = hf_len f) as L2 by (unfold f2; rewrite hf_len_store_in; lia).
  assert (hf_cap f2 = hf_cap f) as C2 by (unfold f2; by rewrite hf_cap_store). pose proof (at_path_set _ _ _ f2 P1) as P2.
  cbn [Z.eqb Pos.eqb]. set (m := protective_mbr (L + 1)). assert (zlen m = 512) as Hm by apply zlen_protective.
  rewrite (fail_as_done (-13) _ _ _ _ (write_ok _ f2 0 m P2 ltac:(lia) ltac:(lia) ltac:(lia) ltac:(unfold LONG_MAX; lia))).
  rewrite !hs_set_set. eexists. split; [done|]. set (f3 := hf_store f2 0 m).
  assert (zlen (zrep (E * 128) (0 : Z)) = E * 128) as Hze by (apply zlen_zrep; lia).
  replace (tbl_lbas * 512) with (E * 128 + (tbl_lbas * 512 - E * 128)) in Ha, Hb by lia. rewrite zrep_app in Ha, Hb by lia.
  apply holds_at_app in Ha as [Ha _]. apply holds_at_app in Hb as [Hb _].
  split.
  - unfold f3. rewrite hf_len_store_in; lia.
  - unfold f3. rewrite hf_len_store_in, hf_cap_store; lia.
  - done.
  - apply holds_at_store_out; [apply holds_at_store_out; [apply holds_at_store|..]|..]; lia.
  - apply holds_at_store_out; [apply holds_at_store|..]; lia.
  - apply holds_at_store_out; [apply holds_at_store_out; [apply holds_at_store_out|..]|..]; try done; lia.
  - apply holds_at_store_out; [apply holds_at_store_out; [apply holds_at_store_out|..]|..]; try done; lia.
Qed.
End image.

(** ** Tables of partitions *)

(** A partition to add: its type, name, first and last sector, and the random
    bytes of its GUID. *)
Record add : Type := Add { ad_type : list Z; ad_name : list Z; ad_first : Z; ad_last : Z; ad_rnd : list Z }.
Definition add_ok (a : add) : Prop :=
  zlen (ad_type a) = 16 /\ forallb (fun b => b =? 0) (ad_type a) = false /\ zlen (ad_rnd a) = 16.
Definition add_bytes (a : add) : list Z := entry_bytes (ad_type a) (rand_guid (ad_rnd a)) (ad_first a) (ad_last a) (name_units (ad_name a)).
Definition table (l : list add) (E : Z) : list Z := (l ≫= add_bytes) ++ zrep ((E - zlen l) * 128) 0.
Fixpoint run_adds (path : list Z) (l : list add) : comp hostfs unit :=
  match l with
  | [] => ret tt
  | a :: l => gpt_add_partition_lba path (ad_type a) (ad_name a) (ad_first a) (ad_last a) (ad_rnd a) ;;; run_adds path l
  end.

Lemma zlen_adds l : Forall add_ok l -> zlen (l ≫= add_bytes) = zlen l * 128.
Proof.
  induction 1 as [|a l (H1 & _ & H2) _ IH]; [done|]. rewrite bind_cons, zlen_app, IH, zlen_cons. unfold add_bytes. rewrite zlen_entry_bytes by done. lia.
Qed.
Lemma sub_mid {A} (x y z : list A) off n : off = zlen x -> n = zlen y -> sub (x ++ y ++ z) off n = y.
Proof.
  intros -> ->. unfold sub, zlen. rewrite !Nat2Z.id, drop_app_length. by apply take_app_length.
Qed.
Lemma table_used l E j : Forall add_ok l -> 0 <= j < zlen l -> forallb (fun b => b =? 0) (sub (table l E) (j * 128) 16) = false.
Proof.
  intros Hl Hj. destruct (lookup_lt_is_Some_2 l (Z.to_nat j)) as [a Ha]; [unfold zlen in Hj; lia|].
  apply list_elem_of_split_length in Ha as (l1 & l2 & -> & Hlen). apply Forall_app in Hl as [Hl1 [Ha Hl2]%Forall_cons].
  unfold table. rewrite bind_app, bind_cons. unfold add_bytes at 2. unfold entry_bytes. rewrite <- !app_assoc.
  rewrite sub_mid; [apply Ha| |symmetry; apply Ha]. rewrite zlen_adds by done. unfold zlen. lia.
Qed.
Lemma table_free l E : Forall add_ok l -> zlen l < E -> forallb (fun b => b =? 0) (sub (table l E) (zlen l * 128) 16) = true.
Proof.
  intros Hl HE. unfold table. replace ((E - zlen l) * 128) with (16 + ((E - zlen l) * 128 - 16)) by lia. pose proof (zlen_nonneg l).
  rewrite zrep_app by lia. rewrite sub_mid; [done|by rewrite zlen_adds|done].
Qed.
Lemma free_slot_skip k n i ents :
  (forall j, i <= j < i + Z.of_nat k -> forallb (fun b => b =? 0) (sub ents (j * 128) 16) = false) ->
  free_slot (k + n) i ents 128 = free_slot n (i + Z.of_nat k) ents 128.
Proof.
  revert i. induction k as [|k IH]; intros i H; [by rewrite Z.add_0_r|]. cbn [free_slot Nat.add]. rewrite H by lia. rewrite IH; [f_equal; lia|].
  intros j Hj. apply H. lia.
Qed.
Lemma table_slot l E : Forall add_ok l -> zlen l < E -> free_slot (Z.to_nat E) 0 (table l E) 128 = Some (zlen l).
Proof.
  intros Hl HE. replace (Z.to_nat E) with (length l + S (Z.to_nat (E - zlen l - 1)))%nat by (unfold zlen in *; lia).
  rewrite free_slot_skip by (intros j Hj; apply table_used; [done|unfold zlen; lia]). cbn [free_slot]. rewrite Z.add_0_l. fold (zlen l).
  by rewrite table_free.
Qed.
Lemma table_add l a E : Forall add_ok l -> add_ok a -> zlen l < E ->
  splice (table l E) (zlen l * 128) (add_bytes a) = table (l ++ [a]) E.
Proof.
  intros Hl (H1 & _ & H2) HE. assert (zlen (add_bytes a) = 128) as Ha by (by apply zlen_entry_bytes). pose proof (zlen_adds l Hl) as Hz. pose proof (zlen_nonneg l).
  unfold table. rewrite bind_app. change ([a] ≫= add_bytes) with (add_bytes a ++ []). rewrite app_nil_r, zlen_app. change (zlen [a]) with 1.
  unfold splice. replace (Z.to_nat (zlen l * 128)) with (length (l ≫= add_bytes)) by (unfold zlen in *; lia).
  rewrite take_app_length, drop_app_add', <- app_assoc by done. do 2 f_equal. unfold zrep. rewrite drop_replicate. f_equal. unfold zlen in *. lia.
Qed.

Lemma run_adds_ok path L E fu guid fs f l used :
  0 < E < 2 ^ 32 -> zlen guid = 16 -> 0 <= fu < 2 ^ 64 -> layout_ok L E ->
  at_path fs path f -> gpt_image L E fu guid f (table used E) -> Forall add_ok used -> Forall add_ok l -> zlen used + zlen l <= E ->
  exists f', run_adds path l fs = (Done tt, hs_set path f' fs) /\ gpt_image L E fu guid f' (table (used ++ l) E).
Proof.
  intros HE Hg Hfu Hlay Hp Hi Hd Hl. revert fs f used Hp Hi Hd. induction Hl as [|a l Ha _ IH]; intros fs f used Hp Hi Hd Hn.
  - exists f. rewrite app_nil_r. split; [|done]. by rewrite (hs_set_same _ _ _ Hp).
  - rewrite zlen_cons in Hn. pose proof (zlen_nonneg l). pose proof (zlen_nonneg used).
    destruct (image_add path L E fu guid HE Hg Hfu Hlay fs f (table used E) (zlen used) (ad_type a) (ad_name a) (ad_first a) (ad_last a) (ad_rnd a) Hp Hi) as [E1 I1];
      [apply table_slot; [done|lia]|lia|apply Ha|apply Ha|]. fold (add_bytes a) in E1, I1. rewrite table_add in E1, I1 by (done || lia).
    cbn [run_adds]. rewrite (bind_done _ _ _ _ _ E1).
    destruct (IH _ _ (used ++ [a]) (at_path_set _ _ _ _ Hp) I1) as (f' & E2 & I2); [by apply Forall_app; split; [|constructor]|rewrite zlen_app; change (zlen [a]) with 1; lia|].
    exists f'. rewrite E2, hs_set_set. split; [reflexivity|]. by rewrite <- app_assoc in I2.
Qed.

(** The first usable sector of the layout, and the sectors of one table. *)
Definition table_lbas (E : Z) : Z := tbl_lbas E.
Definition first_usable (E : Z) : Z := align_up (2 + tbl_lbas E) 2048.

Lemma align_up_ge v a : 0 <= v -> 0 < a -> v + a < 2 ^ 64 -> v <= align_up v a < v + a.
Proof.
  intros Hv Ha Hs. unfold align_up. pose proof (Z.mod_pos_bound (v + a - 1) a Ha). pose proof (Z.div_mod (v + a - 1) a ltac:(lia)).
  rewrite (u64_id (v + a - 1)) by lia. rewrite u64_id by nia. nia.
Qed.

(** C39: Creating a table on an image of 512-byte sectors and adding partitions
    to it: both headers read back, each naming the other's sector, and both
    entry arrays hold exactly the partitions added, in order, followed by empty
    entries; the usable range lies between the two arrays. *)
Theorem gpt_table_roundtrip (fs : hostfs) (path : list Z) (f : hostfile) (L entries : Z) (rnd : list Z) (l : list add) :
  let E := if entries =? 0 then 128 else entries in
  at_path fs path f -> hf_len f = (L + 1) * 512 -> hf_len f <= hf_cap f -> hf_len f <= LONG_MAX -> 127 <= L ->
  0 < E < 2 ^ 32 -> first_usable E < L - tbl_lbas E -> zlen rnd = 16 -> Forall add_ok l -> zlen l <= E ->
  exists f' h bh, let fs' := hs_set path f' fs in
    (gpt_init_fresh path 512 entries 128 rnd ;;; run_adds path l) fs = (Done tt, fs') /\
    gpt_read_header path true fs' = (Done h, fs') /\ gpt_read_header path false fs' = (Done bh, fs') /\
    gpt_read_entries path h fs' = (Done (table l E), fs') /\ gpt_read_entries path bh fs' = (Done (table l E), fs') /\
    g_backup_lba h = L /\ g_current_lba bh = L /\ g_current_lba h = 1 /\ g_backup_lba bh = 1 /\
    1024 + E * 128 <= g_first_usable_lba h * 512 /\ g_last_usable_lba h < g_part_entry_lba bh.
Proof.
  intros E Hp Hl Hc Hmax HL HE Hfu Hr Hadds Hn.
  assert (0 <= tbl_lbas E < 2 ^ 31 /\ E * 128 <= tbl_lbas E * 512) as [Ht1 Ht2] by (unfold tbl_lbas; clear - HE; split; dlia).
  pose proof (align_up_ge (2 + tbl_lbas E) 2048 ltac:(lia) ltac:(lia) ltac:(lia)) as Hal. fold (first_usable E) in Hal. unfold LONG_MAX in Hmax.
  assert (layout_ok L E) as Hlay by (unfold layout_ok, backup_lba, LONG_MAX; lia). assert (0 <= first_usable E < 2 ^ 64) as Hfur by lia.
  pose proof (zlen_rand_guid rnd Hr) as Hg.
  destruct (init_ok path L E (first_usable E) (rand_guid rnd) HE Hg Hfur Hlay fs f entries rnd Hp Hl Hc HL eq_refl eq_refl Hfu eq_refl) as (f0 & E0 & I0).
  assert (table [] E = zrep (E * 128) 0) as Ht0 by (unfold table; rewrite zlen_nil, Z.sub_0_r; done). rewrite <- Ht0 in I0.
  destruct (run_adds_ok path L E (first_usable E) (rand_guid rnd) (hs_set path f0 fs) f0 l [] HE Hg Hfur Hlay (at_path_set _ _ _ _ Hp) I0) as (f' & E1 & I1); [constructor|done|by rewrite zlen_nil|].
  rewrite hs_set_set in E1. pose proof (at_path_set _ _ _ f' Hp) as Hp'. cbn [app] in I1.
  destruct (image_read_header path L E _ _ HE Hg Hfur Hlay _ _ _ Hp' I1) as [R1 R2]. destruct (image_read_entries path L E _ _ HE Hg Hfur Hlay _ _ _ Hp' I1) as [R3 R4].
  exists f', (primary_hdr L E (first_usable E) (rand_guid rnd)), (backup_hdr L E (first_usable E) (rand_guid rnd)). cbv zeta.
  split_and!; try done; cbn [primary_hdr backup_hdr hdr g_first_usable_lba g_last_usable_lba g_part_entry_lba]; try lia.
  by rewrite (bind_done _ _ _ _ _ E0).
Qed.

Definition ex_image : hostfile := HostFile (4096 * 512) (4096 * 512) true (fun i => if i <? 1000 then 0xAB else 0).
Definition ex_fs : hostfs := HostFs (<[str_bytes "disk.img" := HNode ex_image true]> ∅) (fun _ => None).
Definition ex_rnd : list Z := [1; 2; 3; 4; 5; 6; 7; 8; 9; 10; 11; 12; 13; 14; 15; 16].
Definition ex_add (first last : Z) : add := Add [0xAF;0x3D;0xC6;0x0F; 0x83;0x84; 0x72;0x47; 0x8E;0x79; 0x3D;0x69;0xD8;0x47;0x7D;0xE4] (str_bytes "root") first last ex_rnd.
Lemma gpt_table_roundtrip_witness :
  exists f' h bh, let fs' := hs_set (str_bytes "disk.img") f' ex_fs in
    (gpt_init_fresh (str_bytes "disk.img") 512 0 128 ex_rnd ;;; run_adds (str_bytes "disk.img") [ex_add 2048 3000; ex_add 3001 4000]) ex_fs = (Done tt, fs') /\
    gpt_read_header (str_bytes "disk.img") true fs' = (Done h, fs') /\ gpt_read_header (str_bytes "disk.img") false fs' = (Done bh, fs') /\
    gpt_read_entries (str_bytes "disk.img") h fs' = (Done (table [ex_add 2048 3000; ex_add 3001 4000] 128), fs') /\
    gpt_read_entries (str_bytes "disk.img") bh fs' = (Done (table [ex_add 2048 3000; ex_add 3001 4000] 128), fs') /\
    g_backup_lba h = 4095 /\ g_current_lba bh = 4095 /\ g_current_lba h = 1 /\ g_backup_lba bh = 1 /\
    1024 + 128 * 128 <= g_first_usable_lba h * 512 /\ g_last_usable_lba h < g_part_entry_lba bh.
Proof.
  apply (gpt_table_roundtrip ex_fs (str_bytes "disk.img") ex_image 4095 0 ex_rnd [ex_add 2048 3000; ex_add 3001 4000]);
    try (by vm_compute); try (split; by vm_compute). repeat constructor; by vm_compute.
Defined.

Lemma take_bget b c n i : take n b = c -> 0 <= i < Z.of_nat n -> bget b i = bget c i.
Proof. intros <- Hi. rewrite <- (Nat2Z.id n). symmetry. by apply bget_take. Qed.
Lemma header_crc_field h : header_ok h -> le32 (header_bytes h) 12 = g_header_size h /\ le32 (header_bytes h) 16 = g_header_crc32 h.
Proof.
  intros H. pose proof (parse_header_bytes h H) as E. unfold parse_header in E. split.
  - by rewrite <- E at 2.
  - by rewrite <- E at 2.
Qed.
Lemma zero_crc_header h : header_ok h -> g_header_crc32 h = 0 -> zero_crc_field (header_bytes h) = header_bytes h.
Proof.
  intros H Hc. pose proof (zlen_header_bytes h H) as Hl. unfold zero_crc_field. rewrite Hl. cbn [Z.leb Z.compare Pos.compare Pos.compare_cont].
  destruct H as [Hs _ _ _ _ _ _ _ _ _ _ _ _ _]. unfold header_bytes. rewrite Hs, Hc. reflexivity.
Qed.

(** The checksums the writer leaves at zero ("omitted") are required by the
    scan of the block layer: a header written by [gpt_init_fresh] is refused
    wherever it is read, unless its CRC-32 happens to be zero. *)
Theorem gpt_written_header_refused (dev : vblk) (io io' : dio) (sec guid : list Z) (total lba L E fu : Z) :
  let h := primary_hdr L E fu guid in
  header_ok h -> read_lba512 dev lba 1 io = (Done sec, io') -> take 92 sec = header_bytes h -> crc32_calc (header_bytes h) <> 0 ->
  exists rc, gpt_validate_at dev total lba io = (Fail rc, io').
Proof.
  intros h Hok Hr Ht Hc. destruct (header_crc_field h Hok) as [E1 E2].
  assert (forall p, 0 <= p -> p + 4 <= 92 -> le32 sec p = le32 (header_bytes h) p) as Hle by (intros p H1 H2; apply le32_ext; intros i Hi; apply (take_bget _ _ 92); [done|lia]).
  assert (gh_header_size (parse_gpt_hdr sec) = 92) as Es by (cbn [parse_gpt_hdr gh_header_size]; rewrite Hle by lia; exact E1).
  assert (gh_header_crc (parse_gpt_hdr sec) = 0) as Ec by (cbn [parse_gpt_hdr gh_header_crc]; rewrite Hle by lia; exact E2).
  unfold gpt_validate_at. rewrite (bind_done _ _ _ _ _ Hr). destruct (gpt_sig sec); [rewrite require_true by done|rewrite require_false by done; by eexists].
  cbv zeta. destruct (gpt_fields_ok _ _); [rewrite require_true by done|rewrite require_false by done; by eexists].
  rewrite Es, Ec. cbn [Z.leb Z.compare Pos.compare Pos.compare_cont]. rewrite bind_ret. change (Z.to_nat 92) with 92%nat. rewrite Ht, zero_crc_header by done.
  rewrite require_false by (by apply Z.eqb_neq). by eexists.
Qed.
Lemma gpt_written_header_refused_witness :
  exists rc, gpt_validate_at (ex_dev 0 4) 0 1 (ex_disk (header_bytes (primary_hdr 4095 128 2048 ex_rnd)) []) =
    (Fail rc, ex_disk (header_bytes (primary_hdr 4095 128 2048 ex_rnd)) []).
Proof.
  apply (gpt_written_header_refused (ex_dev 0 4) _ _ (sector (ex_dev 0 4) (ex_disk (header_bytes (primary_hdr 4095 128 2048 ex_rnd)) []) 1) ex_rnd 0 1 4095 128 2048).
  - split; vm_compute; try split; congruence.
  - rewrite read_sector; [reflexivity| |reflexivity|lia]. apply ex_slice_ok_of; [|lia..]. intros i. apply ex_content_bytes; decide_now.
  - by vm_compute.
  - by vm_compute.
Defined.
