(* ===== verification/Ext2.v ===== *)
(** * Ext2: the EXT2 format and its metadata ([src/ext2.c])

    Superblock, group descriptors, inodes and directory entries as the packed
    structures they are in memory and on disk: byte strings with little-endian
    fields.  The device is any byte store (a partition of the block layer is
    one); a read or write of it that fails is the C functions' [false]. *)
From S2P Require Import Prelude Text Store.
#[local] Open Scope Z_scope.

(** ** On-disk structures *)

(** [sizeof(ext2_superblock)] and its fields. *)
Definition SB_SIZE : Z := 204.
Definition s_inodes_count (sb : list Z) : Z := le32 sb 0.
Definition s_blocks_count (sb : list Z) : Z := le32 sb 4.
Definition s_free_blocks_count (sb : list Z) : Z := le32 sb 12.
Definition s_free_inodes_count (sb : list Z) : Z := le32 sb 16.
Definition s_log_block_size (sb : list Z) : Z := le32 sb 24.
Definition s_blocks_per_group (sb : list Z) : Z := le32 sb 32.
Definition s_inodes_per_group (sb : list Z) : Z := le32 sb 40.
Definition s_magic (sb : list Z) : Z := le16 sb 56.
Definition s_first_ino (sb : list Z) : Z := le32 sb 84.
Definition s_inode_size (sb : list Z) : Z := le16 sb 88.
Definition set_s_free_blocks_count (v : Z) (sb : list Z) : list Z := splice sb 12 (put32 (u32 v)).
Definition set_s_free_inodes_count (v : Z) (sb : list Z) : list Z := splice sb 16 (put32 (u32 v)).

(** [sizeof(ext2_group_desc)] and the fields of descriptor [g] of an array. *)
Definition GD_SIZE : Z := 32.
Definition bg_block_bitmap (gd : list Z) (g : Z) : Z := le32 gd (g * GD_SIZE).
Definition bg_inode_bitmap (gd : list Z) (g : Z) : Z := le32 gd (g * GD_SIZE + 4).
Definition bg_inode_table (gd : list Z) (g : Z) : Z := le32 gd (g * GD_SIZE + 8).
Definition bg_free_blocks_count (gd : list Z) (g : Z) : Z := le16 gd (g * GD_SIZE + 12).
Definition bg_free_inodes_count (gd : list Z) (g : Z) : Z := le16 gd (g * GD_SIZE + 14).
Definition bg_used_dirs_count (gd : list Z) (g : Z) : Z := le16 gd (g * GD_SIZE + 16).
(** A 16-bit field of descriptor [g]; descriptors past the array are not stored. *)
Definition set_bg16 (off : Z) (g v : Z) (gd : list Z) : list Z :=
  if (g + 1) * GD_SIZE <=? zlen gd then splice gd (g * GD_SIZE + off) (put16 (u16 v)) else gd.
Definition set_bg_free_blocks_count : Z -> Z -> list Z -> list Z := set_bg16 12.
Definition set_bg_free_inodes_count : Z -> Z -> list Z -> list Z := set_bg16 14.
Definition set_bg_used_dirs_count : Z -> Z -> list Z -> list Z := set_bg16 16.

(** [sizeof(ext2_inode)] and its fields. *)
Definition INODE_SIZE : Z := 128.
Definition i_mode (i : list Z) : Z := le16 i 0.
Definition i_size (i : list Z) : Z := le32 i 4.
Definition i_links_count (i : list Z) : Z := le16 i 26.
Definition i_blocks (i : list Z) : Z := le32 i 28.
Definition i_block (i : list Z) (k : Z) : Z := le32 i (40 + 4 * k).
Definition set_i_mode (v : Z) (i : list Z) : list Z := splice i 0 (put16 (u16 v)).
Definition set_i_size (v : Z) (i : list Z) : list Z := splice i 4 (put32 (u32 v)).
Definition set_i_atime (v : Z) (i : list Z) : list Z := splice i 8 (put32 (u32 v)).
Definition set_i_ctime (v : Z) (i : list Z) : list Z := splice i 12 (put32 (u32 v)).
Definition set_i_mtime (v : Z) (i : list Z) : list Z := splice i 16 (put32 (u32 v)).
Definition set_i_dtime (v : Z) (i : list Z) : list Z := splice i 20 (put32 (u32 v)).
Definition set_i_links_count (v : Z) (i : list Z) : list Z := splice i 26 (put16 (u16 v)).
Definition set_i_blocks (v : Z) (i : list Z) : list Z := splice i 28 (put32 (u32 v)).
Definition set_i_block (k v : Z) (i : list Z) : list Z := splice i (40 + 4 * k) (put32 v).
(** [memset(inode.i_block, 0, sizeof inode.i_block)] *)
Definition clear_i_block (i : list Z) : list Z := splice i 40 (zrep 60 0).
Definition inode_zero : list Z := zrep INODE_SIZE 0.

Definition S_IFMT : Z := 0xF000.
Definition S_IFDIR : Z := 0x4000.
Definition is_dir (i : list Z) : bool := Z.land (i_mode i) S_IFMT =? S_IFDIR.

(** The directory entry at [pos] of a block. *)
Definition de_inode (b : list Z) (pos : Z) : Z := le32 b pos.
Definition de_rec_len (b : list Z) (pos : Z) : Z := le16 b (pos + 4).
Definition de_name_len (b : list Z) (pos : Z) : Z := bget b (pos + 6).
Definition de_file_type (b : list Z) (pos : Z) : Z := bget b (pos + 7).
Definition set_de_rec_len (pos v : Z) (b : list Z) : list Z := splice b (pos + 4) (put16 (u16 v)).
(** An entry of [rec_len] bytes, zeros after its name. *)
Definition dirent_bytes (inode rec_len file_type : Z) (name : list Z) : list Z :=
  put32 inode ++ put16 (u16 rec_len) ++ [u8 (zlen name); u8 file_type] ++ name ++ zrep (rec_len - 8 - zlen name) 0.

Definition dirent_min_rec_len (name_len : Z) : Z := Z.land (u16 (8 + name_len) + 3) (u32 (Z.lnot 3)).

(** ** Bitmaps *)

Definition bit_mask (idx : Z) : Z := u8 (Z.shiftl 1 (Z.land idx 7)).
Definition test_bit (map : list Z) (idx : Z) : bool := negb (Z.land (bget map (Z.shiftr idx 3)) (bit_mask idx) =? 0).
Definition set_bit (map : list Z) (idx : Z) : list Z :=
  splice map (Z.shiftr idx 3) [Z.lor (bget map (Z.shiftr idx 3)) (bit_mask idx)].
Definition clear_bit (map : list Z) (idx : Z) : list Z :=
  splice map (Z.shiftr idx 3) [Z.land (bget map (Z.shiftr idx 3)) (u8 (Z.lnot (bit_mask idx)))].

(** ** Metadata *)

Definition EXT2_MAX_GROUPS : Z := 1024.

(** The descriptors kept are those of the [m_group_count] groups. *)
Record ext2_meta : Type := Meta {
  m_sb : list Z; m_gd : list Z; m_group_count : Z; m_block_size : Z;
  m_sb_blk : Z; m_gdt_blk : Z; m_gdt_blocks : Z; m_inode_tbl_blocks : Z;
}.
Definition with_sb (f : list Z -> list Z) (m : ext2_meta) : ext2_meta :=
  Meta (f (m_sb m)) (m_gd m) (m_group_count m) (m_block_size m) (m_sb_blk m) (m_gdt_blk m) (m_gdt_blocks m) (m_inode_tbl_blocks m).
Definition with_gd (f : list Z -> list Z) (m : ext2_meta) : ext2_meta :=
  Meta (m_sb m) (f (m_gd m)) (m_group_count m) (m_block_size m) (m_sb_blk m) (m_gdt_blk m) (m_gdt_blocks m) (m_inode_tbl_blocks m).

Definition ext2_group_block_count (m : ext2_meta) (g : Z) : Z :=
  let first := g * s_blocks_per_group (m_sb m) in
  if s_blocks_count (m_sb m) <=? first then 0 else
  let left := s_blocks_count (m_sb m) - first in
  if s_blocks_per_group (m_sb m) <? left then s_blocks_per_group (m_sb m) else left.

(** Descriptors per block, and those in block [k] of the table. *)
Definition gd_per (m : ext2_meta) : Z := m_block_size m / GD_SIZE.
Definition gd_count (m : ext2_meta) (k : Z) : Z := Z.min (m_group_count m - k * gd_per m) (gd_per m).

Section device.
Context {S : Type} `{ByteStore S}.

Definition pwrite_bytes_at (abs_off : Z) (src : list Z) : comp S unit := store_write abs_off src.
Definition pwrite_block (block_size block_index : Z) (src : list Z) : comp S unit := pwrite_bytes_at (block_index * block_size) src.
Definition pread_bytes_at (abs_off len : Z) : comp S (list Z) := store_read abs_off len.
Definition pread_block (block_size block_index len : Z) : comp S (list Z) := pread_bytes_at (block_index * block_size) len.

(** The table blocks [k], [k + 1], ... *)
Fixpoint store_gdt (n : nat) (k : Z) (m : ext2_meta) : comp S unit :=
  match n with
  | O => ret tt
  | Datatypes.S n =>
      let b := sub (m_gd m) (k * gd_per m * GD_SIZE) (gd_count m k * GD_SIZE) in
      fail_as (-2) (pwrite_block (m_block_size m) (u32 (m_gdt_blk m + k)) (b ++ zrep (m_block_size m - zlen b) 0)) ;;;
      store_gdt n (k + 1) m
  end.
Definition ext2_store_meta (m : ext2_meta) : comp S unit :=
  fail_as (-1) (pwrite_bytes_at 1024 (m_sb m)) ;;;
  store_gdt (Z.to_nat (m_gdt_blocks m)) 0 m.

Fixpoint load_gdt (n : nat) (k : Z) (m : ext2_meta) : comp S ext2_meta :=
  match n with
  | O => ret m
  | Datatypes.S n =>
      let* buf := fail_as (-7) (pread_block (m_block_size m) (u32 (m_gdt_blk m + k)) (m_block_size m)) in
      load_gdt n (k + 1) (with_gd (fun gd => gd ++ take (Z.to_nat (gd_count m k * GD_SIZE)) buf) m)
  end.

(** [1024u << s_log_block_size]: no bit is left from a shift by 22 on.  A shift by 32 or more,
    which C leaves undefined, is taken to be like them and is refused. *)
Definition block_size_of (sb : list Z) : Z := if 22 <=? s_log_block_size sb then 0 else Z.shiftl 1024 (s_log_block_size sb).

(** What is computed from the superblock, the descriptors not read yet. *)
Definition meta_of (sb : list Z) : ext2_meta :=
  let bs := block_size_of sb in
  let group_count := u32 (u32 (s_blocks_count sb + s_blocks_per_group sb) - 1) / s_blocks_per_group sb in
  let sb_blk := if bs =? 1024 then 1 else 0 in
  let per := bs / GD_SIZE in
  Meta sb [] group_count bs sb_blk (sb_blk + 1) ((group_count + per - 1) / per)
    (u32 (u32 (s_inodes_per_group sb * s_inode_size sb) + bs - 1) / bs).

Definition ext2_load_meta : comp S ext2_meta :=
  let* sb := fail_as (-2) (pread_bytes_at 1024 SB_SIZE) in
  require (s_magic sb =? 0xEF53) (-3) ;;;
  require (negb ((block_size_of sb =? 0) || (4096 <? block_size_of sb))) (-4) ;;;
  require (negb ((s_blocks_per_group sb =? 0) || (s_inodes_per_group sb =? 0))) (-5) ;;;
  let sb := if s_inode_size sb =? 0 then splice sb 88 (put16 128) else sb in
  let m := meta_of sb in
  require (negb ((m_group_count m =? 0) || (EXT2_MAX_GROUPS <? m_group_count m))) (-6) ;;;
  load_gdt (Z.to_nat (m_gdt_blocks m)) 0 m.

(** ** Inodes *)

(** The table block and the offset in it of inode [ino]. *)
Definition inode_block (m : ext2_meta) (ino : Z) : Z :=
  let group := (ino - 1) / s_inodes_per_group (m_sb m) in
  let local := (ino - 1) mod s_inodes_per_group (m_sb m) in
  u32 (bg_inode_table (m_gd m) group + local / (m_block_size m / s_inode_size (m_sb m))).
Definition inode_off (m : ext2_meta) (ino : Z) : Z :=
  let local := (ino - 1) mod s_inodes_per_group (m_sb m) in
  local mod (m_block_size m / s_inode_size (m_sb m)) * s_inode_size (m_sb m).
Definition inode_checks (m : ext2_meta) (ino : Z) : comp S unit :=
  require (negb ((ino =? 0) || (s_inodes_count (m_sb m) <? ino))) (-1) ;;;
  require (negb (m_group_count m <=? (ino - 1) / s_inodes_per_group (m_sb m))) (-2) ;;;
  require (negb (m_block_size m / s_inode_size (m_sb m) =? 0)) (-3).

Definition ext2_read_inode_at (m : ext2_meta) (ino : Z) : comp S (list Z) :=
  inode_checks m ino ;;;
  let* buf := fail_as (-4) (pread_block (m_block_size m) (inode_block m ino) (m_block_size m)) in
  ret (sub buf (inode_off m ino) INODE_SIZE).

Definition ext2_write_inode_at (m : ext2_meta) (ino : Z) (inode : list Z) : comp S unit :=
  inode_checks m ino ;;;
  let* buf := fail_as (-4) (pread_block (m_block_size m) (inode_block m ino) (m_block_size m)) in
  fail_as (-5) (pwrite_block (m_block_size m) (inode_block m ino) (take (Z.to_nat (m_block_size m)) (splice buf (inode_off m ino) inode))).

(** ** Directories *)

(** The entry [name] of a directory block, from [pos]: its inode and type. *)
Fixpoint find_in_block (fuel : nat) (blk : list Z) (bs : Z) (name : list Z) (pos : Z) : option (Z * Z) :=
  match fuel with
  | O => None
  | Datatypes.S fuel =>
      if bs <? pos + 8 then None else
      let rec_len := de_rec_len blk pos in
      if (rec_len <? 8) || (bs <? pos + rec_len) then None else
      if negb (de_inode blk pos =? 0) && (de_name_len blk pos =? zlen name) && bool_decide (sub blk (pos + 8) (zlen name) = name)
      then Some (de_inode blk pos, de_file_type blk pos)
      else find_in_block fuel blk bs name (pos + rec_len)
  end.
(** An entry takes eight bytes at least. *)
Definition dir_fuel (bs : Z) : nat := Z.to_nat (bs / 8 + 1).

Fixpoint find_in_blocks (n : nat) (bi : Z) (m : ext2_meta) (dir name : list Z) : comp S (option (Z * Z)) :=
  match n with
  | O => ret None
  | Datatypes.S n =>
      if i_block dir bi =? 0 then ret None else
      let* blk := fail_as (-6) (pread_block (m_block_size m) (i_block dir bi) (m_block_size m)) in
      match find_in_block (dir_fuel (m_block_size m)) blk (m_block_size m) name 0 with
      | Some e => ret (Some e)
      | None => find_in_blocks n (bi + 1) m dir name
      end
  end.

(** The entry found (1), none (0), or an error. *)
Definition ext2_find_entry_at (m : ext2_meta) (dir_ino : Z) (name : list Z) : comp S (option (Z * Z)) :=
  require (negb (bool_decide (name = []))) (-1) ;;;
  let* dir := fail_as (-2) (ext2_read_inode_at m dir_ino) in
  require (is_dir dir) (-3) ;;;
  require (negb (255 <? zlen name)) (-4) ;;;
  require (negb (4096 <? m_block_size m)) (-5) ;;;
  find_in_blocks 12 0 m dir name.

(** ** Paths *)

Definition is_slash (c : Z) : bool := c =? 47.
Definition not_slash (c : Z) : bool := negb (c =? 47).

(** The walk from the inode [cur] along the text [p]. *)
Fixpoint resolve_loop (fuel : nat) (m : ext2_meta) (cur : Z) (p : list Z) : comp S Z :=
  match fuel with
  | O => nofuel
  | Datatypes.S fuel =>
      match skip_while is_slash p with
      | [] => ret cur
      | p =>
          let* r := fail_as (-3) (ext2_find_entry_at m cur (take_while not_slash p)) in
          match r with
          | None => fail (-3)
          | Some (next, _) =>
              match skip_while not_slash p with
              | [] => ret next
              | _ :: p => resolve_loop fuel m next p
              end
          end
      end
  end.
Definition ext2_resolve_path_at (m : ext2_meta) (path : list Z) : comp S Z :=
  match skip_while is_slash path with
  | [] => ret 2
  | path =>
      require (negb (512 <=? zlen path)) (-2) ;;;
      resolve_loop (Datatypes.S (length path)) m 2 path
  end.
End device.

(** The parent path and the last name. *)
Definition split_parent_name (path : list Z) : Z + (list Z * list Z) :=
  let p := rskip_while is_slash (skip_while is_slash path) in
  if (zlen p =? 0) || (512 <=? zlen p) then inl (-2) else
  let '(parent, base) := match strrchr p 47 with Some (a, b) => (a, drop 1 b) | None => ([], p) end in
  if bool_decide (base = []) || (255 <? zlen base) then inl (-3) else inr (parent, base).
