(* ===== verification/Ext2Mkfs.v ===== *)
(** * Ext2Mkfs: formatting a device with EXT2 ([mkfs_ext2_core] of [src/ext2.c])

    Blocks of 4096 bytes, 1024 inodes of 128 bytes per group, full superblock
    and descriptor copies in every group, and a root directory. *)
From S2P Require Import Prelude Text Store Ext2.
#[local] Open Scope Z_scope.

(** The constants of [mkfs_ext2_core]. *)
Definition mk_block_size : Z := 4096.
Definition mk_blocks_per_group : Z := mk_block_size * 8.
Definition mk_inode_size : Z := 128.
Definition mk_inodes_per_group : Z := 1024.
Definition mk_inode_tbl_blocks : Z := (mk_inodes_per_group * mk_inode_size + mk_block_size - 1) / mk_block_size.
Definition mk_reserved_inodes : Z := 10.

(** The numbers of blocks, groups and table blocks for a device of [bytes] bytes. *)
Definition mk_total (bytes : Z) : Z := u32 (bytes / mk_block_size).
Definition mk_group_count (total : Z) : Z := u32 (total + mk_blocks_per_group - 1) / mk_blocks_per_group.
Definition mk_gdt_blocks (groups : Z) : Z := (groups + mk_block_size / GD_SIZE - 1) / (mk_block_size / GD_SIZE).

(** [snprintf(sb.s_volume_name, sizeof sb.s_volume_name, "%s", label)] *)
Definition volume_name (label : list Z) : list Z := let l := take 15 label in l ++ zrep (16 - zlen l) 0.

(** The superblock, its fields in order. *)
Definition mk_superblock (now : Z) (label : list Z) (total groups free_blocks free_inodes : Z) : list Z :=
  put32 (groups * mk_inodes_per_group) ++ put32 total ++ put32 0 ++ put32 free_blocks ++ put32 free_inodes ++ put32 0 ++ put32 2 ++ put32 2 ++
  put32 mk_blocks_per_group ++ put32 mk_blocks_per_group ++ put32 mk_inodes_per_group ++ put32 now ++ put32 now ++
  put16 0 ++ put16 20 ++ put16 0xEF53 ++ put16 1 ++ put16 1 ++ put16 0 ++ put32 now ++ put32 0 ++ put32 0 ++ put32 1 ++ put16 0 ++ put16 0 ++
  put32 11 ++ put16 mk_inode_size ++ put16 0 ++ put32 0 ++ put32 0 ++ put32 0 ++ zrep 16 0 ++ volume_name label ++ zrep 64 0 ++ put32 0.
(** [s_block_group_nr] *)
Definition set_group_nr (g : Z) (sb : list Z) : list Z := splice sb 90 (put16 g).

(** The bits [i], [i + 1], ... set. *)
Fixpoint set_bits (n : nat) (i : Z) (map : list Z) : list Z :=
  match n with O => map | Datatypes.S n => set_bits n (i + 1) (set_bit map i) end.

Definition mk_group_blocks (total g : Z) : Z :=
  let left := total - g * mk_blocks_per_group in if mk_blocks_per_group <? left then mk_blocks_per_group else left.
Definition mk_bb_rel (gdt_blocks : Z) : Z := 1 + gdt_blocks.
Definition mk_ib_rel (gdt_blocks : Z) : Z := mk_bb_rel gdt_blocks + 1.
Definition mk_it_rel (gdt_blocks : Z) : Z := mk_ib_rel gdt_blocks + 1.
Definition mk_data_rel (gdt_blocks : Z) : Z := mk_it_rel gdt_blocks + mk_inode_tbl_blocks.

(** The bitmaps of group [g]: its metadata, the blocks past its end, and in
    group 0 the root directory and the reserved inodes. *)
Definition mk_block_bitmap (gdt_blocks group_blocks g : Z) : list Z :=
  let data_rel := mk_data_rel gdt_blocks in
  let bb := set_bits (Z.to_nat data_rel) 0 (zrep mk_block_size 0) in
  let bb := set_bits (Z.to_nat (mk_blocks_per_group - group_blocks)) group_blocks bb in
  if g =? 0 then set_bit bb data_rel else bb.
Definition mk_inode_bitmap (g : Z) : list Z :=
  if g =? 0 then set_bits (Z.to_nat mk_reserved_inodes) 0 (zrep mk_block_size 0) else zrep mk_block_size 0.

Definition mk_free_blocks (gdt_blocks group_blocks g : Z) : Z := group_blocks - mk_data_rel gdt_blocks - (if g =? 0 then 1 else 0).
Definition mk_free_inodes (g : Z) : Z := mk_inodes_per_group - (if g =? 0 then mk_reserved_inodes else 0).
Definition mk_desc (gdt_blocks group_blocks g : Z) : list Z :=
  let start := g * mk_blocks_per_group in
  put32 (start + mk_bb_rel gdt_blocks) ++ put32 (start + mk_ib_rel gdt_blocks) ++ put32 (start + mk_it_rel gdt_blocks) ++
  put16 (u16 (mk_free_blocks gdt_blocks group_blocks g)) ++ put16 (u16 (mk_free_inodes g)) ++ put16 (if g =? 0 then 1 else 0) ++ zrep 14 0.

(** The root inode and the block of its directory. *)
Definition root_inode (now root_block : Z) : list Z :=
  let r := set_i_size mk_block_size (set_i_links_count 2 (set_i_mode 0x41ED inode_zero)) in
  let r := set_i_mtime now (set_i_ctime now (set_i_atime now r)) in
  set_i_block 0 root_block (set_i_blocks (mk_block_size / 512) r).
Definition root_dir : list Z := dirent_bytes 2 12 2 [46] ++ dirent_bytes 2 (mk_block_size - 12) 2 [46; 46].

Section mkfs.
Context {S : Type} `{ByteStore S}.

(** [pwrite_block] with a failure of the caller's. *)
Definition mk_put (k : Z) (b : list Z) : comp S unit := fail_as (-1) (pwrite_block mk_block_size k b).
(** Zeros at the blocks [k], [k + 1], ... *)
Fixpoint mk_clear (n : nat) (k : Z) : comp S unit :=
  match n with O => ret tt | Datatypes.S n => mk_put k (zrep mk_block_size 0) ;;; mk_clear n (k + 1) end.

(** The groups [g], [g + 1], ...: their descriptors and the totals of free blocks and inodes. *)
Fixpoint mk_each_group (n : nat) (g total gdt_blocks : Z) (gdt : list Z) (free_blocks free_inodes : Z) : comp S (list Z * Z * Z) :=
  match n with
  | O => ret (gdt, free_blocks, free_inodes)
  | Datatypes.S n =>
      let start := g * mk_blocks_per_group in
      let group_blocks := mk_group_blocks total g in
      let data_rel := mk_data_rel gdt_blocks in
      require (negb (group_blocks <=? data_rel)) (-1) ;;;
      mk_clear (Z.to_nat (data_rel + (if g =? 0 then 1 else 0))) start ;;;
      mk_put (start + mk_bb_rel gdt_blocks) (mk_block_bitmap gdt_blocks group_blocks g) ;;;
      mk_put (start + mk_ib_rel gdt_blocks) (mk_inode_bitmap g) ;;;
      mk_each_group n (g + 1) total gdt_blocks (gdt ++ mk_desc gdt_blocks group_blocks g)
        (free_blocks + mk_free_blocks gdt_blocks group_blocks g) (free_inodes + mk_free_inodes g)
  end.

(** The descriptors of table block [k]. *)
Definition mk_gdt_block (gdt : list Z) (groups k : Z) : list Z :=
  let per := mk_block_size / GD_SIZE in
  let b := sub gdt (k * per * GD_SIZE) (Z.min (groups - k * per) per * GD_SIZE) in
  b ++ zrep (mk_block_size - zlen b) 0.
Fixpoint mk_put_gdt (n : nat) (k start groups : Z) (gdt : list Z) : comp S unit :=
  match n with
  | O => ret tt
  | Datatypes.S n => mk_put (start + 1 + k) (mk_gdt_block gdt groups k) ;;; mk_put_gdt n (k + 1) start groups gdt
  end.
(** The copies of the superblock and of the descriptors in the groups [g], [g + 1], ... *)
Fixpoint mk_copies (n : nat) (g groups gdt_blocks : Z) (sb gdt : list Z) : comp S unit :=
  match n with
  | O => ret tt
  | Datatypes.S n =>
      let start := g * mk_blocks_per_group in
      (if g =? 0 then ret tt else mk_put start (set_group_nr g sb)) ;;;
      mk_put_gdt (Z.to_nat gdt_blocks) 0 start groups gdt ;;;
      mk_copies n (g + 1) groups gdt_blocks sb gdt
  end.

(** [now] and [later] are the two values of [time(NULL)]. *)
Definition mkfs_ext2_core (now later bytes : Z) (label : list Z) : comp S unit :=
  require (negb (bytes <? 64 * 1024)) (-1) ;;;
  require (negb (UINT32_MAX <? bytes / mk_block_size)) (-1) ;;;
  let total := mk_total bytes in
  let groups := mk_group_count total in
  let gdt_blocks := mk_gdt_blocks groups in
  require (negb ((groups =? 0) || (65535 <? groups))) (-1) ;;;
  let* r := mk_each_group (Z.to_nat groups) 0 total gdt_blocks [] 0 0 in
  let '(gdt, free_blocks, free_inodes) := r in
  let sb := mk_superblock now label total groups (u32 free_blocks) (u32 free_inodes) in
  fail_as (-1) (pwrite_bytes_at 1024 sb) ;;;
  mk_copies (Z.to_nat groups) 0 groups gdt_blocks sb gdt ;;;
  let it := bg_inode_table gdt 0 in
  let root_block := u32 (it + mk_inode_tbl_blocks) in
  let per := mk_block_size / mk_inode_size in
  mk_put (u32 (it + 1 / per)) (splice (zrep mk_block_size 0) (1 mod per * mk_inode_size) (root_inode later root_block)) ;;;
  mk_put root_block root_dir.
End mkfs.
