(* ===== verification/Ext2Alloc.v ===== *)
(** * Ext2Alloc: allocation of EXT2 inodes and blocks ([src/ext2.c])

    The bitmap allocators that store every change at once, and the allocation
    context of large writes, which keeps bitmaps in memory until it is
    committed. *)
From S2P Require Import Prelude Text Store Ext2.
#[local] Open Scope Z_scope.

(** The device and the metadata in memory. *)
Record fs (S : Type) : Type := Fs { fs_dev : S; fs_meta : ext2_meta }.
Arguments Fs {S} fs_dev fs_meta.
Arguments fs_dev {S} f.
Arguments fs_meta {S} f.

(** The allocation context, one record per group. *)
Record gctx : Type := Gctx { gx_bitmap : list Z; gx_cursor : Z; gx_loaded : bool; gx_dirty : bool }.
(** The file system and the context. *)
Record tx (S : Type) : Type := Tx { tx_fs : fs S; tx_ctx : list gctx }.
Arguments Tx {S} tx_fs tx_ctx.
Arguments tx_fs {S} t.
Arguments tx_ctx {S} t.

(** [if (count) count--;] *)
Definition dec_nz (v : Z) : Z := if v =? 0 then 0 else v - 1.

Section alloc.
Context {S : Type} `{ByteStore S}.

Definition on_dev {A} (c : comp S A) : comp (fs S) A := zoom fs_dev (fun d s => Fs d (fs_meta s)) c.
Definition set_meta (f : ext2_meta -> ext2_meta) : comp (fs S) unit := modify (fun s => Fs (fs_dev s) (f (fs_meta s))).
Definition on_fs {A} (c : comp (fs S) A) : comp (tx S) A := zoom tx_fs (fun f t => Tx f (tx_ctx t)) c.

(** [ext2_store_meta(dev, m)] *)
Definition store_meta : comp (fs S) unit := let* s := get in on_dev (ext2_store_meta (fs_meta s)).

(** ** Inodes *)

(** The first free inode of the group's bitmap, from [local]. *)
Fixpoint find_free_inode (n : nat) (local : Z) (m : ext2_meta) (g : Z) (ib : list Z) : option Z :=
  match n with
  | O => None
  | Datatypes.S n =>
      let ino := u32 (u32 (g * s_inodes_per_group (m_sb m) + local) + 1) in
      if s_inodes_count (m_sb m) <? ino then None else
      if (ino <? s_first_ino (m_sb m)) && negb (ino =? 2) then find_free_inode n (local + 1) m g ib else
      if negb (test_bit ib local) then Some local else find_free_inode n (local + 1) m g ib
  end.

Definition take_inode (g local : Z) (m : ext2_meta) : ext2_meta :=
  with_sb (fun sb => set_s_free_inodes_count (dec_nz (s_free_inodes_count sb)) sb)
    (with_gd (fun gd => set_bg_free_inodes_count g (dec_nz (bg_free_inodes_count gd g)) gd) m).

(** The groups [g], [g + 1], ...; 0 is failure. *)
Fixpoint alloc_inode_loop (n : nat) (g : Z) : comp (fs S) Z :=
  match n with
  | O => ret 0
  | Datatypes.S n =>
      let* s := get in
      let m := fs_meta s in
      if bg_free_inodes_count (m_gd m) g =? 0 then alloc_inode_loop n (g + 1) else
      let* r := try (on_dev (pread_block (m_block_size m) (bg_inode_bitmap (m_gd m) g) (m_block_size m))) in
      match r with
      | None => ret 0
      | Some ib =>
          match find_free_inode (Z.to_nat (s_inodes_per_group (m_sb m))) 0 m g ib with
          | None => alloc_inode_loop n (g + 1)
          | Some local =>
              let* w := try (on_dev (pwrite_block (m_block_size m) (bg_inode_bitmap (m_gd m) g) (set_bit ib local))) in
              match w with
              | None => ret 0
              | Some _ =>
                  set_meta (take_inode g local) ;;;
                  let* w := try store_meta in
                  match w with
                  | None => ret 0
                  | Some _ => ret (u32 (u32 (g * s_inodes_per_group (m_sb m) + local) + 1))
                  end
              end
          end
      end
  end.
Definition ext2_alloc_inode : comp (fs S) Z :=
  let* s := get in alloc_inode_loop (Z.to_nat (m_group_count (fs_meta s))) 0.

Definition ext2_free_inode_num (ino : Z) : comp (fs S) unit :=
  let* s := get in
  let m := fs_meta s in
  require (negb ((ino =? 0) || (s_inodes_count (m_sb m) <? ino))) (-1) ;;;
  let g := (ino - 1) / s_inodes_per_group (m_sb m) in
  let local := (ino - 1) mod s_inodes_per_group (m_sb m) in
  let* ib := fail_as (-2) (on_dev (pread_block (m_block_size m) (bg_inode_bitmap (m_gd m) g) (m_block_size m))) in
  if test_bit ib local then
    fail_as (-3) (on_dev (pwrite_block (m_block_size m) (bg_inode_bitmap (m_gd m) g) (clear_bit ib local))) ;;;
    set_meta (fun m => with_sb (fun sb => set_s_free_inodes_count (s_free_inodes_count sb + 1) sb)
                (with_gd (fun gd => set_bg_free_inodes_count g (bg_free_inodes_count gd g + 1) gd) m)) ;;;
    fail_as (-4) store_meta
  else ret tt.

(** ** Blocks *)

(** The first clear bit of [local], ..., [group_blocks - 1]. *)
Fixpoint find_free_block (n : nat) (local : Z) (bb : list Z) : option Z :=
  match n with
  | O => None
  | Datatypes.S n => if negb (test_bit bb local) then Some local else find_free_block n (local + 1) bb
  end.

Definition take_block (g : Z) (m : ext2_meta) : ext2_meta :=
  with_sb (fun sb => set_s_free_blocks_count (dec_nz (s_free_blocks_count sb)) sb)
    (with_gd (fun gd => set_bg_free_blocks_count g (dec_nz (bg_free_blocks_count gd g)) gd) m).
Definition block_number (m : ext2_meta) (g local : Z) : Z := u32 (u32 (g * s_blocks_per_group (m_sb m)) + local).

Fixpoint alloc_block_loop (n : nat) (g : Z) : comp (fs S) Z :=
  match n with
  | O => ret 0
  | Datatypes.S n =>
      let* s := get in
      let m := fs_meta s in
      if bg_free_blocks_count (m_gd m) g =? 0 then alloc_block_loop n (g + 1) else
      let* r := try (on_dev (pread_block (m_block_size m) (bg_block_bitmap (m_gd m) g) (m_block_size m))) in
      match r with
      | None => ret 0
      | Some bb =>
          match find_free_block (Z.to_nat (ext2_group_block_count m g)) 0 bb with
          | None => alloc_block_loop n (g + 1)
          | Some local =>
              let* w := try (on_dev (pwrite_block (m_block_size m) (bg_block_bitmap (m_gd m) g) (set_bit bb local))) in
              match w with
              | None => ret 0
              | Some _ =>
                  set_meta (take_block g) ;;;
                  let* w := try store_meta in
                  match w with None => ret 0 | Some _ => ret (block_number m g local) end
              end
          end
      end
  end.
Definition ext2_alloc_block : comp (fs S) Z :=
  let* s := get in alloc_block_loop (Z.to_nat (m_group_count (fs_meta s))) 0.

(** ** The allocation context *)

Definition ext2_alloc_ctx_init (m : ext2_meta) : list gctx :=
  replicate (Z.to_nat (m_group_count m)) (Gctx (zrep (m_block_size m) 0) 0 false false).

Definition ctx_get (g : Z) (t : tx S) : gctx :=
  match tx_ctx t !! Z.to_nat g with Some x => x | None => Gctx [] 0 false false end.
Definition ctx_set (g : Z) (x : gctx) : comp (tx S) unit := modify (fun t => Tx (tx_fs t) (<[Z.to_nat g := x]> (tx_ctx t))).

(** The bitmap of group [g], read on first use. *)
Definition ctx_load (m : ext2_meta) (g : Z) : comp (tx S) gctx :=
  let* t := get in
  let x := ctx_get g t in
  if gx_loaded x then ret x else
  let* bb := on_fs (on_dev (pread_block (m_block_size m) (bg_block_bitmap (m_gd m) g) (m_block_size m))) in
  let x := Gctx bb (gx_cursor x) true (gx_dirty x) in
  ctx_set g x ;;; ret x.

Fixpoint alloc_ctx_loop (n : nat) (g : Z) : comp (tx S) Z :=
  match n with
  | O => ret 0
  | Datatypes.S n =>
      let* t := get in
      let m := fs_meta (tx_fs t) in
      if bg_free_blocks_count (m_gd m) g =? 0 then alloc_ctx_loop n (g + 1) else
      let* r := try (ctx_load m g) in
      match r with
      | None => ret 0
      | Some x =>
          let group_blocks := ext2_group_block_count m g in
          let local := if group_blocks <? gx_cursor x then group_blocks else gx_cursor x in
          match find_free_block (Z.to_nat (group_blocks - local)) local (gx_bitmap x) with
          | Some local =>
              ctx_set g (Gctx (set_bit (gx_bitmap x) local) (local + 1) true true) ;;;
              on_fs (set_meta (take_block g)) ;;;
              ret (block_number m g local)
          | None =>
              ctx_set g (Gctx (gx_bitmap x) group_blocks (gx_loaded x) (gx_dirty x)) ;;;
              alloc_ctx_loop n (g + 1)
          end
      end
  end.
Definition ext2_alloc_block_ctx : comp (tx S) Z :=
  let* t := get in alloc_ctx_loop (Z.to_nat (m_group_count (fs_meta (tx_fs t)))) 0.

Fixpoint commit_loop (n : nat) (g : Z) : comp (tx S) unit :=
  match n with
  | O => ret tt
  | Datatypes.S n =>
      let* t := get in
      let m := fs_meta (tx_fs t) in
      let x := ctx_get g t in
      (if gx_dirty x then fail_as (-2) (on_fs (on_dev (pwrite_block (m_block_size m) (bg_block_bitmap (m_gd m) g) (gx_bitmap x)))) else ret tt) ;;;
      commit_loop n (g + 1)
  end.
Definition ext2_alloc_ctx_commit : comp (tx S) unit :=
  let* t := get in
  commit_loop (Z.to_nat (m_group_count (fs_meta (tx_fs t)))) 0 ;;;
  on_fs store_meta.

Definition ext2_free_block_ctx (block : Z) : comp (tx S) unit :=
  let* t := get in
  let m := fs_meta (tx_fs t) in
  require (negb ((block =? 0) || (s_blocks_count (m_sb m) <=? block))) (-1) ;;;
  let g := block / s_blocks_per_group (m_sb m) in
  let local := block mod s_blocks_per_group (m_sb m) in
  require (negb (m_group_count m <=? g)) (-2) ;;;
  let* x := fail_as (-3) (ctx_load m g) in
  if test_bit (gx_bitmap x) local then
    ctx_set g (Gctx (clear_bit (gx_bitmap x) local) (gx_cursor x) (gx_loaded x) true) ;;;
    on_fs (set_meta (fun m => with_sb (fun sb => set_s_free_blocks_count (s_free_blocks_count sb + 1) sb)
                       (with_gd (fun gd => set_bg_free_blocks_count g (bg_free_blocks_count gd g + 1) gd) m)))
  else ret tt.

(** ** Writing data in runs *)

(** The length of the longest run of consecutive blocks at the head, the
    previous block being [b]. *)
Fixpoint run_after (b : Z) (blocks : list Z) : nat :=
  match blocks with
  | c :: blocks => if c =? u32 (b + 1) then Datatypes.S (run_after c blocks) else O
  | [] => O
  end.
(** [b] in pieces of at most [step] bytes from [abs]. *)
Fixpoint write_pieces (fuel : nat) (rc step abs : Z) (b : list Z) : comp S unit :=
  match b with
  | [] => ret tt
  | _ =>
      match fuel with
      | O => nofuel
      | Datatypes.S fuel =>
          fail_as rc (pwrite_bytes_at abs (take (Z.to_nat step) b)) ;;;
          write_pieces fuel rc step (abs + step) (drop (Z.to_nat step) b)
      end
  end.
Definition pieces_fuel (step : Z) (b : list Z) : nat := Z.to_nat (zlen b / step + 1).

(** One run: [n] blocks at [block], [data] what is left of the file from there. *)
Definition write_run (m : ext2_meta) (data : list Z) (block n : Z) : comp S unit :=
  let capacity := n * m_block_size m in
  let actual := take (Z.to_nat capacity) data in
  let abs := block * m_block_size m in
  write_pieces (pieces_fuel (64 * 1024 * 1024) actual) (-2) (64 * 1024 * 1024) abs actual ;;;
  let tail := zrep (capacity - zlen actual) 0 in
  write_pieces (pieces_fuel 4096 tail) (-3) 4096 (abs + zlen actual) tail.

Fixpoint write_runs (fuel : nat) (m : ext2_meta) (data : list Z) (blocks : list Z) : comp S unit :=
  match blocks with
  | [] => ret tt
  | b :: rest =>
      match fuel with
      | O => nofuel
      | Datatypes.S fuel =>
          let n := Datatypes.S (run_after b rest) in
          write_run m data b (Z.of_nat n) ;;;
          write_runs fuel m (drop (Z.to_nat (Z.of_nat n * m_block_size m)) data) (drop n blocks)
      end
  end.
Definition ext2_write_data_runs (m : ext2_meta) (data blocks : list Z) : comp S unit :=
  write_runs (length blocks) m data blocks.
End alloc.
