(* ===== verification/Ext2Ops.v ===== *)
(** * Ext2Ops: the EXT2 operations on paths ([src/ext2.c])

    Directory entries, directories, device nodes, links, removal and
    truncation, and reading and writing whole files.  [now] is [time(NULL)]. *)
From S2P Require Import Prelude Text Store Ext2 Ext2Alloc.
#[local] Open Scope Z_scope.

Section ops.
Context {S : Type} `{ByteStore S} (now : Z).

(** An operation on the metadata just loaded, and one with a fresh context. *)
Definition with_fs {A} (m : ext2_meta) (c : comp (fs S) A) : comp S A := fun d =>
  let '(o, s) := c (Fs d m) in (o, fs_dev s).
Definition with_tx {A} (c : comp (tx S) A) : comp (fs S) A := fun s =>
  let '(o, t) := c (Tx s (ext2_alloc_ctx_init (fs_meta s))) in (o, tx_fs t).
(** [return -10 + rc;] *)
Definition fail_plus {St A} (n : Z) (c : comp St A) : comp St A := fun s =>
  match c s with (Fail rc, s') => (Fail (n + rc), s') | r => r end.
Definition the_meta : comp (fs S) ext2_meta := gets fs_meta.

Definition touch (i : list Z) : list Z := set_i_mtime now (set_i_ctime now i).
Definition touch_all (i : list Z) : list Z := touch (set_i_atime now i).

(** ** Directory entries *)

(** The block with the entry inserted after the first one that has room, from [pos]. *)
Fixpoint append_in_block (fuel : nat) (blk : list Z) (bs need child file_type : Z) (name : list Z) (pos : Z) : option (list Z) :=
  match fuel with
  | O => None
  | Datatypes.S fuel =>
      if bs <? pos + 8 then None else
      let rec_len := de_rec_len blk pos in
      if (rec_len <? 8) || (bs <? pos + rec_len) then None else
      let min := dirent_min_rec_len (de_name_len blk pos) in
      if min + need <=? rec_len then
        Some (splice (set_de_rec_len pos min blk) (pos + min) (dirent_bytes child (rec_len - min) file_type name))
      else append_in_block fuel blk bs need child file_type name (pos + rec_len)
  end.
Fixpoint append_in_blocks (n : nat) (bi : Z) (m : ext2_meta) (dir : list Z) (need child file_type : Z) (name : list Z) : comp (fs S) bool :=
  match n with
  | O => ret false
  | Datatypes.S n =>
      if i_block dir bi =? 0 then ret false else
      let bs := m_block_size m in
      let* blk := fail_as (-4) (on_dev (pread_block bs (i_block dir bi) bs)) in
      match append_in_block (dir_fuel bs) blk bs need child file_type name 0 with
      | Some blk => fail_as (-5) (on_dev (pwrite_block bs (i_block dir bi) blk)) ;;; ret true
      | None => append_in_blocks n (bi + 1) m dir need child file_type name
      end
  end.
Fixpoint free_dir_slot (n : nat) (bi : Z) (dir : list Z) : option Z :=
  match n with
  | O => None
  | Datatypes.S n => if i_block dir bi =? 0 then Some bi else free_dir_slot n (bi + 1) dir
  end.

Definition ext2_append_dirent_at (dir_ino child_ino file_type : Z) (name : list Z) : comp (fs S) Z :=
  let* m := the_meta in
  let* dir := fail_as (-1) (on_dev (ext2_read_inode_at m dir_ino)) in
  require (is_dir dir) (-2) ;;;
  let need := dirent_min_rec_len (u8 (zlen name)) in
  let* placed := append_in_blocks 12 0 m dir need child_ino file_type name in
  if placed : bool then on_dev (ext2_write_inode_at m dir_ino (touch dir)) ;;; ret 0
  else match free_dir_slot 12 0 dir with
       | None => fail (-6)
       | Some slot =>
           let* extra := ext2_alloc_block in
           require (negb (extra =? 0)) (-7) ;;;
           let bs := m_block_size m in
           fail_as (-8) (on_dev (pwrite_block bs extra (dirent_bytes child_ino bs file_type name))) ;;;
           let dir := set_i_block slot extra dir in
           let dir := set_i_size (i_size dir + bs) dir in
           let dir := set_i_blocks (i_blocks dir + bs / 512) dir in
           let* m := the_meta in
           fail_as (-9) (on_dev (ext2_write_inode_at m dir_ino (touch dir))) ;;;
           ret 1
       end.

(** ** Directories, device nodes and links *)

Definition ext2_mkdir_at (path : list Z) (mode : Z) : comp S unit :=
  let* m := fail_plus (-10) ext2_load_meta in
  match split_parent_name path with
  | inl _ => fail (-20)
  | inr (parent, name) =>
      let* parent_ino := fail_as (-21) (ext2_resolve_path_at m parent) in
      let* exists_ := fail_as (-23) (ext2_find_entry_at m parent_ino name) in
      match exists_ with
      | Some (existing, _) =>
          let* ei := fail_as (-22) (ext2_read_inode_at m existing) in
          require (is_dir ei) (-22)
      | None =>
          with_fs m (
            let* ino := ext2_alloc_inode in
            require (negb (ino =? 0)) (-24) ;;;
            let* data_blk := ext2_alloc_block in
            require (negb (data_blk =? 0)) (-25) ;;;
            let* m := the_meta in
            let bs := m_block_size m in
            let child := set_i_mode (Z.lor S_IFDIR (if mode =? 0 then 0x1ED else Z.land mode 0x1FF)) inode_zero in
            let child := touch_all (set_i_size bs child) in
            let child := set_i_block 0 data_blk (set_i_blocks (bs / 512) (set_i_links_count 2 child)) in
            fail_as (-26) (on_dev (ext2_write_inode_at m ino child)) ;;;
            let dirblk := dirent_bytes ino 12 2 [46] ++ dirent_bytes parent_ino (bs - 12) 2 [46; 46] in
            fail_as (-27) (on_dev (pwrite_block bs data_blk dirblk)) ;;;
            fail_as (-28) (ext2_append_dirent_at parent_ino ino 2 name) ;;;
            let* m := the_meta in
            let* parent_inode := fail_as (-29) (on_dev (ext2_read_inode_at m parent_ino)) in
            let parent_inode := touch (set_i_links_count (i_links_count parent_inode + 1) parent_inode) in
            fail_as (-30) (on_dev (ext2_write_inode_at m parent_ino parent_inode)) ;;;
            let ig := (ino - 1) / s_inodes_per_group (m_sb m) in
            set_meta (with_gd (fun gd => set_bg_used_dirs_count ig (bg_used_dirs_count gd ig + 1) gd)) ;;;
            store_meta)
      end
  end.

Definition ext2_old_encode_dev (major minor : Z) : Z := Z.lor (u32 (Z.shiftl major 8)) minor.
Definition ext2_new_encode_dev (major minor : Z) : Z :=
  Z.lor (Z.lor (Z.land minor 0xff) (u32 (Z.shiftl major 8))) (u32 (Z.shiftl (Z.land minor (u32 (Z.lnot 0xff))) 12)).

Definition mknod_inode (type mode major minor : Z) : list Z :=
  let node := set_i_mode (Z.lor type (Z.land mode 4095)) inode_zero in
  let node := touch_all (set_i_links_count 1 node) in
  if (major <? 256) && (minor <? 256) then set_i_block 0 (ext2_old_encode_dev major minor) node
  else set_i_block 1 (ext2_new_encode_dev major minor) node.

Definition ext2_mknod_at (path : list Z) (mode major minor : Z) : comp S unit :=
  require (negb (bool_decide (path = []))) (-1) ;;;
  let type := Z.land mode S_IFMT in
  require ((type =? 0x2000) || (type =? 0x6000)) (-2) ;;;
  let dir_type := if type =? 0x2000 then 3 else 4 in
  require (negb ((0xfff <? major) || (0xfffff <? minor))) (-3) ;;;
  let* m := fail_plus (-10) ext2_load_meta in
  match split_parent_name path with
  | inl _ => fail (-20)
  | inr (parent, name) =>
      let* parent_ino := fail_as (-21) (ext2_resolve_path_at m parent) in
      let* r := fail_as (-23) (ext2_find_entry_at m parent_ino name) in
      match r with
      | Some _ => fail (-22)
      | None =>
          with_fs m (
            let* ino := ext2_alloc_inode in
            require (negb (ino =? 0)) (-24) ;;;
            let* m := the_meta in
            let* w := try (on_dev (ext2_write_inode_at m ino (mknod_inode type mode major minor))) in
            match w with
            | None => try (ext2_free_inode_num ino) ;;; fail (-25)
            | Some _ =>
                let* a := try (ext2_append_dirent_at parent_ino ino dir_type name) in
                match a with
                | None => try (ext2_free_inode_num ino) ;;; fail (-26)
                | Some _ => ret tt
                end
            end)
      end
  end.

Definition symlink_inode (target : list Z) : list Z :=
  let link := set_i_links_count 1 (set_i_mode (Z.lor 0xA000 0x1FF) inode_zero) in
  let link := touch_all (set_i_size (zlen target) link) in
  splice link 40 target.
Definition ext2_symlink_at (path target : list Z) : comp S unit :=
  require (negb ((zlen target =? 0) || (60 <? zlen target))) (-2) ;;;
  let* m := fail_as (-3) ext2_load_meta in
  match split_parent_name path with
  | inl _ => fail (-4)
  | inr (parent, name) =>
      let* parent_ino := fail_as (-5) (ext2_resolve_path_at m parent) in
      let* r := fail_as (-7) (ext2_find_entry_at m parent_ino name) in
      match r with
      | Some _ => fail (-6)
      | None =>
          with_fs m (
            let* ino := ext2_alloc_inode in
            require (negb (ino =? 0)) (-8) ;;;
            let* m := the_meta in
            fail_as (-9) (on_dev (ext2_write_inode_at m ino (symlink_inode target))) ;;;
            fail_as (-10) (ext2_append_dirent_at parent_ino ino 7 name) ;;;
            ret tt)
      end
  end.
(** The bytes copied to a buffer of [bufsz]. *)
Definition ext2_readlink_at (path : list Z) (bufsz : Z) : comp S (list Z) :=
  require (negb (bufsz =? 0)) (-1) ;;;
  let* m := fail_as (-2) ext2_load_meta in
  let* ino := fail_as (-3) (ext2_resolve_path_at m path) in
  let* i := fail_as (-4) (ext2_read_inode_at m ino) in
  require (Z.land (i_mode i) S_IFMT =? 0xA000) (-5) ;;;
  require (negb (60 <? i_size i)) (-6) ;;;
  let n := if bufsz <=? i_size i then bufsz - 1 else i_size i in
  ret (sub i 40 n).

(** ** Freeing a file *)

Definition free_nz (b code : Z) : comp (tx S) unit := if b =? 0 then ret tt else fail_as code (ext2_free_block_ctx b).
(** The pointers [i], [i + 1], ... of a block of pointers. *)
Fixpoint free_ptrs (n : nat) (i : Z) (blk : list Z) (code : Z) : comp (tx S) unit :=
  match n with
  | O => ret tt
  | Datatypes.S n => free_nz (le32 blk (4 * i)) code ;;; free_ptrs n (i + 1) blk code
  end.
Fixpoint free_direct (n : nat) (i : Z) (file : list Z) : comp (tx S) unit :=
  match n with
  | O => ret tt
  | Datatypes.S n => free_nz (i_block file i) (-3) ;;; free_direct n (i + 1) file
  end.
(** The leaves [i], [i + 1], ... of the double-indirect block. *)
Fixpoint free_leaves (n : nat) (i : Z) (m : ext2_meta) (root : list Z) : comp (tx S) unit :=
  match n with
  | O => ret tt
  | Datatypes.S n =>
      let leaf := le32 root (4 * i) in
      (if leaf =? 0 then ret tt else
       let bs := m_block_size m in
       let* leafblk := fail_as (-8) (on_fs (on_dev (pread_block bs leaf bs))) in
       free_ptrs (Z.to_nat (bs / 4)) 0 leafblk (-9) ;;;
       free_nz leaf (-10)) ;;;
      free_leaves n (i + 1) m root
  end.
Definition free_data (m : ext2_meta) (file : list Z) : comp (tx S) unit :=
  let bs := m_block_size m in
  let ptrs := Z.to_nat (bs / 4) in
  free_direct 12 0 file ;;;
  (if i_block file 12 =? 0 then ret tt else
   let* blk := fail_as (-4) (on_fs (on_dev (pread_block bs (i_block file 12) bs))) in
   free_ptrs ptrs 0 blk (-5) ;;; free_nz (i_block file 12) (-6)) ;;;
  (if i_block file 13 =? 0 then ret tt else
   let* blk := fail_as (-7) (on_fs (on_dev (pread_block bs (i_block file 13) bs))) in
   free_leaves ptrs 0 m blk ;;; free_nz (i_block file 13) (-11)) ;;;
  fail_as (-12) ext2_alloc_ctx_commit.
Definition ext2_free_inode_data_blocks (file : list Z) : comp (fs S) unit :=
  require (i_block file 14 =? 0) (-1) ;;;
  let* m := the_meta in
  with_tx (free_data m file).

(** The block with the entry removed: merged into the one before it, or, the
    first of its block, without inode. *)
Fixpoint remove_in_block (fuel : nat) (blk : list Z) (bs : Z) (name : list Z) (pos : Z) (prev : option Z) : option (list Z) :=
  match fuel with
  | O => None
  | Datatypes.S fuel =>
      if bs <? pos + 8 then None else
      let rec_len := de_rec_len blk pos in
      if (rec_len <? 8) || (bs <? pos + rec_len) then None else
      if negb (de_inode blk pos =? 0) && (de_name_len blk pos =? zlen name) && bool_decide (sub blk (pos + 8) (zlen name) = name)
      then Some (match prev with
                 | Some prev => set_de_rec_len prev (de_rec_len blk prev + rec_len) blk
                 | None => splice blk pos (put32 0)
                 end)
      else remove_in_block fuel blk bs name (pos + rec_len) (Some pos)
  end.
Fixpoint remove_in_blocks (n : nat) (bi : Z) (m : ext2_meta) (dir name : list Z) : comp (fs S) bool :=
  match n with
  | O => ret false
  | Datatypes.S n =>
      if i_block dir bi =? 0 then ret false else
      let bs := m_block_size m in
      let* blk := fail_as (-11) (on_dev (pread_block bs (i_block dir bi) bs)) in
      match remove_in_block (dir_fuel bs) blk bs name 0 None with
      | Some blk => fail_as (-12) (on_dev (pwrite_block bs (i_block dir bi) blk)) ;;; ret true
      | None => remove_in_blocks n (bi + 1) m dir name
      end
  end.

Definition ext2_unlink_at (path : list Z) : comp S unit :=
  let* m := fail_as (-2) ext2_load_meta in
  match split_parent_name path with
  | inl _ => fail (-3)
  | inr (parent, name) =>
      require (negb (streq name (str_bytes ".") || streq name (str_bytes ".."))) (-4) ;;;
      let* parent_ino := fail_as (-5) (ext2_resolve_path_at m parent) in
      let* r := fail_as (-6) (ext2_find_entry_at m parent_ino name) in
      match r with
      | None => fail (-6)
      | Some (ino, type) =>
          require (negb (ino =? 0)) (-6) ;;;
          let* victim := fail_as (-7) (ext2_read_inode_at m ino) in
          require (negb (is_dir victim || (type =? 2))) (-8) ;;;
          require (i_block victim 14 =? 0) (-9) ;;;
          let* pdir := fail_as (-10) (ext2_read_inode_at m parent_ino) in
          with_fs m (
            let* removed := remove_in_blocks 12 0 m pdir name in
            require removed (-13) ;;;
            fail_as (-14) (ext2_free_inode_data_blocks victim) ;;;
            let* m := the_meta in
            fail_as (-15) (on_dev (ext2_write_inode_at m ino (set_i_dtime now inode_zero))) ;;;
            fail_as (-16) (ext2_free_inode_num ino) ;;;
            let* m := the_meta in
            fail_as (-17) (on_dev (ext2_write_inode_at m parent_ino (touch pdir))))
      end
  end.

Definition ext2_truncate_at (path : list Z) (size : Z) : comp S unit :=
  require (size =? 0) (-1) ;;;
  let* m := fail_as (-2) ext2_load_meta in
  let* ino := fail_as (-3) (ext2_resolve_path_at m path) in
  require (negb (ino =? 0)) (-3) ;;;
  let* file := fail_as (-4) (ext2_read_inode_at m ino) in
  require (negb (is_dir file)) (-5) ;;;
  require (i_block file 14 =? 0) (-6) ;;;
  with_fs m (
    fail_as (-7) (ext2_free_inode_data_blocks file) ;;;
    let* m := the_meta in
    on_dev (ext2_write_inode_at m ino (touch (set_i_blocks 0 (set_i_size 0 (clear_i_block file)))))).

(** ** Reading a file *)

(** The leaf of pointers for [outer]: the one cached, or the one read. *)
Definition read_leaf (m : ext2_meta) (droot : list Z) (cached : option (Z * list Z)) (outer : Z) : comp S (list Z) :=
  match cached with
  | Some (o, leaf) => if o =? outer then ret leaf else
      if le32 droot (4 * outer) =? 0 then ret (zrep (m_block_size m) 0)
      else fail_as (-12) (pread_block (m_block_size m) (le32 droot (4 * outer)) (m_block_size m))
  | None =>
      if le32 droot (4 * outer) =? 0 then ret (zrep (m_block_size m) 0)
      else fail_as (-12) (pread_block (m_block_size m) (le32 droot (4 * outer)) (m_block_size m))
  end.
(** The disk block of [lbn], and the leaf cached after. *)
Definition map_block (m : ext2_meta) (file single droot : list Z) (cached : option (Z * list Z)) (lbn : Z) : comp S (Z * option (Z * list Z)) :=
  let ptrs := m_block_size m / 4 in
  if lbn <? 12 then ret (i_block file lbn, cached)
  else if lbn <? 12 + ptrs then ret (le32 single (4 * (lbn - 12)), cached)
  else
    let rel := lbn - 12 - ptrs in
    let outer := u32 (rel / ptrs) in
    let inner := u32 (rel mod ptrs) in
    require (negb (ptrs <=? outer)) (-11) ;;;
    let* leaf := read_leaf m droot cached outer in
    ret (le32 leaf (4 * inner), Some (outer, leaf)).
Fixpoint read_loop (fuel : nat) (m : ext2_meta) (file single droot : list Z) (cached : option (Z * list Z)) (len done : Z) : comp S (list Z) :=
  if len <=? done then ret [] else
  match fuel with
  | O => nofuel
  | Datatypes.S fuel =>
      let bs := m_block_size m in
      let* p := map_block m file single droot cached (done / bs) in
      let '(disk_block, cached) := p in
      let chunk := if len - done <? bs then len - done else bs in
      let* b := (if disk_block =? 0 then ret (zrep chunk 0) else fail_as (-13) (pread_bytes_at (disk_block * bs) chunk)) in
      let* rest := read_loop fuel m file single droot cached len (done + chunk) in
      ret (b ++ rest)
  end.
Definition read_fuel (m : ext2_meta) (len : Z) : nat := Z.to_nat (len / m_block_size m + 1).

(** A block of pointers, zero when there is none. *)
Definition read_ptrs (m : ext2_meta) (block code : Z) : comp S (list Z) :=
  if block =? 0 then ret (zrep (m_block_size m) 0) else fail_as code (pread_block (m_block_size m) block (m_block_size m)).

Definition ext2_read_file_at (path : list Z) : comp S (list Z) :=
  let* m := fail_as (-2) ext2_load_meta in
  let* ino := fail_as (-3) (ext2_resolve_path_at m path) in
  require (negb (ino =? 0)) (-3) ;;;
  let* file := fail_as (-4) (ext2_read_inode_at m ino) in
  require (negb (is_dir file)) (-5) ;;;
  require (i_block file 14 =? 0) (-6) ;;;
  let len := i_size file in
  if len =? 0 then ret [] else
  let* single := read_ptrs m (i_block file 12) (-9) in
  let* droot := read_ptrs m (i_block file 13) (-10) in
  read_loop (read_fuel m len) m file single droot None len 0.

(** ** Writing a file *)

(** The inode and the blocks of pointers being built. *)
Record wst : Type := Wst {
  w_file : list Z; w_single : list Z; w_droot : list Z; w_dleaf : list Z; w_dleaf_block : Z; w_dleaf_index : option Z;
  w_allocated : Z; w_blocks : list Z;
}.
Definition w_map (f : list Z -> list Z) (w : wst) : wst :=
  Wst (f (w_file w)) (w_single w) (w_droot w) (w_dleaf w) (w_dleaf_block w) (w_dleaf_index w) (w_allocated w) (w_blocks w).
Definition w_count (w : wst) : wst :=
  Wst (w_file w) (w_single w) (w_droot w) (w_dleaf w) (w_dleaf_block w) (w_dleaf_index w) (u32 (w_allocated w + 1)) (w_blocks w).

(** [ALLOC_BLOCK] *)
Definition alloc_or (rc : Z) : comp (tx S) Z :=
  let* b := ext2_alloc_block_ctx in
  require (negb (b =? 0)) rc ;;; ret b.
(** A block for [i_block[k]] if it has none. *)
Definition ensure_block (rc k : Z) (w : wst) : comp (tx S) wst :=
  if i_block (w_file w) k =? 0 then
    let* b := alloc_or rc in ret (w_count (w_map (set_i_block k b) w))
  else ret w.
(** A leaf for [outer]: the one being filled, or a new one after that is stored. *)
Definition ensure_leaf (rc rc_leaf : Z) (m : ext2_meta) (outer : Z) (w : wst) : comp (tx S) wst :=
  if bool_decide (w_dleaf_index w = Some outer) then ret w else
  let bs := m_block_size m in
  match w_dleaf_index w with
  | Some _ => fail_as rc_leaf (on_fs (on_dev (pwrite_block bs (w_dleaf_block w) (w_dleaf w))))
  | None => ret tt
  end ;;;
  let* b := alloc_or rc in
  ret (w_count (Wst (w_file w) (w_single w) (splice (w_droot w) (4 * outer) (put32 b)) (zrep bs 0) b (Some outer) (w_allocated w) (w_blocks w))).

Definition place_block (rc rc_leaf : Z) (m : ext2_meta) (lbn : Z) (w : wst) : comp (tx S) wst :=
  let ptrs := m_block_size m / 4 in
  let* b := alloc_or rc in
  let w := w_count (Wst (w_file w) (w_single w) (w_droot w) (w_dleaf w) (w_dleaf_block w) (w_dleaf_index w) (w_allocated w) (w_blocks w ++ [b])) in
  if lbn <? 12 then ret (w_map (set_i_block lbn b) w)
  else if lbn <? 12 + ptrs then
    let* w := ensure_block rc 12 w in
    ret (Wst (w_file w) (splice (w_single w) (4 * (lbn - 12)) (put32 b)) (w_droot w) (w_dleaf w) (w_dleaf_block w) (w_dleaf_index w) (w_allocated w) (w_blocks w))
  else
    let rel := lbn - 12 - ptrs in
    let outer := u32 (rel / ptrs) in
    let inner := u32 (rel mod ptrs) in
    let* w := ensure_block rc 13 w in
    let* w := ensure_leaf rc rc_leaf m outer w in
    ret (Wst (w_file w) (w_single w) (w_droot w) (splice (w_dleaf w) (4 * inner) (put32 b)) (w_dleaf_block w) (w_dleaf_index w) (w_allocated w) (w_blocks w)).
Fixpoint place_blocks (n : nat) (rc rc_leaf : Z) (m : ext2_meta) (lbn : Z) (w : wst) : comp (tx S) wst :=
  match n with
  | O => ret w
  | Datatypes.S n => let* w := place_block rc rc_leaf m lbn w in place_blocks n rc rc_leaf m (lbn + 1) w
  end.

Definition wst_start (m : ext2_meta) (file : list Z) : wst :=
  Wst file (zrep (m_block_size m) 0) (zrep (m_block_size m) 0) (zrep (m_block_size m) 0) 0 None 0 [].
Definition need_blocks (m : ext2_meta) (len : Z) : Z := if len =? 0 then 0 else (len + m_block_size m - 1) / m_block_size m.
Definition max_data_blocks (m : ext2_meta) : Z := let ptrs := m_block_size m / 4 in 12 + ptrs + ptrs * ptrs.

(** The codes of [ext2_create_and_write] and of [ext2_write_existing_at]. *)
Record codes : Type := Codes { c_alloc : Z; c_leaf : Z; c_single : Z; c_dleaf : Z; c_droot : Z; c_runs : Z; c_inode : Z }.
Definition create_codes : codes := Codes (-13) (-15) (-16) (-17) (-18) (-19) (-20).
Definition existing_codes : codes := Codes (-15) (-17) (-18) (-19) (-20) (-21) (-22).

(** The blocks of [data] allocated and stored, and the inode after. *)
Definition write_blocks (c : codes) (m : ext2_meta) (ino : Z) (file data : list Z) : comp (tx S) unit :=
  let bs := m_block_size m in
  let* w := place_blocks (Z.to_nat (need_blocks m (zlen data))) (c_alloc c) (c_leaf c) m 0 (wst_start m file) in
  (if i_block (w_file w) 12 =? 0 then ret tt
   else fail_as (c_single c) (on_fs (on_dev (pwrite_block bs (i_block (w_file w) 12) (w_single w))))) ;;;
  match w_dleaf_index w with
  | None => ret tt
  | Some _ => fail_as (c_dleaf c) (on_fs (on_dev (pwrite_block bs (w_dleaf_block w) (w_dleaf w))))
  end ;;;
  (if i_block (w_file w) 13 =? 0 then ret tt
   else fail_as (c_droot c) (on_fs (on_dev (pwrite_block bs (i_block (w_file w) 13) (w_droot w))))) ;;;
  fail_as (c_runs c) (on_fs (on_dev (ext2_write_data_runs m data (w_blocks w)))) ;;;
  let file := set_i_blocks (w_allocated w * (bs / 512)) (w_file w) in
  fail_as (c_runs c) ext2_alloc_ctx_commit ;;;
  fail_as (c_inode c) (on_fs (let* m := the_meta in on_dev (ext2_write_inode_at m ino file))).

Definition new_file (len : Z) : list Z :=
  touch_all (set_i_size len (set_i_links_count 1 (set_i_mode 0x81A4 inode_zero))).

Definition ext2_create_and_write (path data : list Z) : comp S unit :=
  let* m := fail_as (-2) ext2_load_meta in
  match split_parent_name path with
  | inl _ => fail (-3)
  | inr (parent, name) =>
      let* parent_ino := fail_as (-4) (ext2_resolve_path_at m parent) in
      let* r := try (ext2_find_entry_at m parent_ino name) in
      match r with
      | Some (Some _) => fail (-5)
      | _ =>
          require (negb (UINT32_MAX <? zlen data)) (-6) ;;;
          require (negb (max_data_blocks m <? need_blocks m (zlen data))) (-7) ;;;
          with_fs m (
            let* ino := ext2_alloc_inode in
            require (negb (ino =? 0)) (-11) ;;;
            let* m := the_meta in
            with_tx (write_blocks create_codes m ino (new_file (zlen data)) data) ;;;
            fail_as (-21) (ext2_append_dirent_at parent_ino ino 1 name) ;;;
            ret tt)
      end
  end.

(** Does the inode own blocks? *)
Definition owns_blocks (file : list Z) : bool :=
  negb (i_blocks file =? 0) || existsb (fun i => negb (i_block file i =? 0)) (seqZ 0 15).

Definition ext2_write_existing_at (path data : list Z) : comp S unit :=
  require (negb (UINT32_MAX <? zlen data)) (-2) ;;;
  let* m := fail_as (-3) ext2_load_meta in
  let* ino := fail_as (-4) (ext2_resolve_path_at m path) in
  require (negb (ino =? 0)) (-4) ;;;
  let* file := fail_as (-5) (ext2_read_inode_at m ino) in
  require (negb (is_dir file)) (-6) ;;;
  require (i_block file 14 =? 0) (-7) ;;;
  let* p := (if owns_blocks file || negb (i_size file =? 0) then
               fail_as (-8) (ext2_truncate_at path 0) ;;;
               let* m := fail_as (-9) ext2_load_meta in
               let* file := fail_as (-10) (ext2_read_inode_at m ino) in
               ret (m, file)
             else ret (m, file)) in
  let '(m, file) := p in
  require (negb (max_data_blocks m <? need_blocks m (zlen data))) (-11) ;;;
  with_fs m (with_tx (write_blocks existing_codes m ino (touch_all (set_i_size (zlen data) (clear_i_block file))) data)).
End ops.
