(* ===== verification/Ext2Dir.v ===== *)
(** * Ext2Dir: the directory blocks of EXT2

    A directory block is a chain of records that fills the block.  Inserting
    and removing an entry keep the chain and change what is found under the
    entry's name only. *)
From S2P Require Import Prelude Text Store Ext2 Ext2Alloc Ext2Ops.
#[local] Open Scope Z_scope.

(** Membership in lists put together. *)
Ltac mem := repeat (rewrite elem_of_app in * || rewrite elem_of_cons in * ); tauto.

(** ** Records *)

Lemma min_rec_len_spec n : 0 <= n < 256 -> 8 + n <= dirent_min_rec_len n < 8 + n + 4 /\ dirent_min_rec_len n mod 4 = 0.
Proof.
  intros Hn. unfold dirent_min_rec_len. rewrite u16_id by lia. change (u32 (Z.lnot 3)) with (Z.shiftl (Z.ones 30) 2).
  assert (Z.land (8 + n + 3) (Z.shiftl (Z.ones 30) 2) = (8 + n + 3) / 4 * 4) as ->; [|split; dlia].
  change 4 with (2 ^ 2). rewrite <- Z.shiftl_mul_pow2, <- Z.shiftr_div_pow2 by lia.
  transitivity (Z.shiftl (Z.land (Z.shiftr (8 + n + 3) 2) (Z.ones 30)) 2).
  - apply Z.bits_inj'. intros k Hk. rewrite Z.land_spec, !Z.shiftl_spec by lia.
    destruct (Z.ltb_spec k 2); [rewrite !(Z.testbit_neg_r _ (k - 2)) by lia; apply andb_false_r|].
    rewrite Z.land_spec, Z.shiftr_spec by lia. by replace (k - 2 + 2) with k by lia.
  - rewrite Z.land_ones, Z.shiftr_div_pow2 by lia. rewrite Z.mod_small by (change (2 ^ 2) with 4; dlia). done.
Qed.

(** Two blocks with the same bytes at [pos], ..., [pos + n - 1]. *)
Definition agree (a b : list Z) (pos n : Z) : Prop := forall i, pos <= i < pos + n -> bget a i = bget b i.

Lemma agree_le a b pos n p k : agree a b pos n -> pos <= p -> p + k <= pos + n -> agree a b p k.
Proof. intros H ?? i Hi. apply H. lia. Qed.
Lemma agree_le16 a b p : agree a b p 2 -> le16 a p = le16 b p.
Proof. intros H. unfold le16. by rewrite !H by lia. Qed.
Lemma agree_le32 a b p : agree a b p 4 -> le32 a p = le32 b p.
Proof. intros H. apply le32_ext. intros i Hi. apply H. lia. Qed.
Lemma agree_sub a b p n : agree a b p n -> 0 <= p -> 0 <= n -> p + n <= zlen a -> zlen a = zlen b -> sub a p n = sub b p n.
Proof.
  intros H ????. apply buf_ext; rewrite !zlen_sub by lia; [done|]. intros i Hi. rewrite !bget_sub by lia. apply H. lia.
Qed.
Lemma agree_splice b off s p n : 0 <= off -> 0 <= p -> off + zlen s <= zlen b -> p + n <= off \/ off + zlen s <= p -> agree (splice b off s) b p n.
Proof. intros ???? i Hi. apply bget_splice_out; lia. Qed.
Lemma agree_trans a b c p n : agree a b p n -> agree b c p n -> agree a c p n.
Proof. intros H1 H2 i Hi. by rewrite H1, H2. Qed.

(** ** Chains *)

(** The records of [blk] start at the positions [ps] from [pos] and fill the block. *)
Inductive chain (blk : list Z) (bs : Z) : Z -> list Z -> Prop :=
| chain_end : chain blk bs bs []
| chain_rec pos ps : 0 <= pos -> 8 + de_name_len blk pos <= de_rec_len blk pos -> pos + de_rec_len blk pos <= bs ->
    chain blk bs (pos + de_rec_len blk pos) ps -> chain blk bs pos (pos :: ps).

Record dir_block (blk : list Z) (bs : Z) : Prop := DirBlock {
  db_len : zlen blk = bs; db_bytes : Forall is_byte blk; db_bs : 0 <= bs <= 4096;
}.

Section block.
Context (blk : list Z) (bs : Z) (Hblk : dir_block blk bs).

Lemma de_ranges pos : 0 <= de_rec_len blk pos < 2 ^ 16 /\ 0 <= de_name_len blk pos < 256 /\ 0 <= de_inode blk pos < 2 ^ 32.
Proof using Hblk.
  destruct Hblk as [_ Hb _]. unfold de_rec_len, de_name_len, de_inode. rewrite le16_sum by done.
  pose proof (is_byte_bget blk (pos + 4) Hb). pose proof (is_byte_bget blk (pos + 4 + 1) Hb). pose proof (is_byte_bget blk (pos + 6) Hb).
  pose proof (le32_range blk Hb pos). unfold is_byte in *. lia.
Qed.
Lemma chain_le pos ps : chain blk bs pos ps -> pos <= bs.
Proof using Hblk. induction 1 as [|pos ps H0 Hn Hr Hc IH]; [lia|]. pose proof (de_ranges pos). lia. Qed.
Lemma chain_in pos ps p : chain blk bs pos ps -> p ∈ ps -> pos <= p /\ 8 + de_name_len blk p <= de_rec_len blk p /\ p + de_rec_len blk p <= bs.
Proof using Hblk.
  induction 1 as [|pos ps H0 Hn Hr Hc IH]; intros Hin; [by apply elem_of_nil in Hin|]. pose proof (de_ranges pos).
  apply elem_of_cons in Hin as [->|Hin]; [lia|]. specialize (IH Hin). lia.
Qed.

(** The name and the target of the record at [p]. *)
Definition de_name (b : list Z) (p : Z) : list Z := sub b (p + 8) (de_name_len b p).
Definition de_target (b : list Z) (p : Z) : Z * Z := (de_inode b p, de_file_type b p).
Definition is_entry (b : list Z) (name : list Z) (p : Z) : bool := negb (de_inode b p =? 0) && bool_decide (de_name b p = name).
(** What the records at [ps] hold under [name]. *)
Definition lookup_name (b : list Z) (ps : list Z) (name : list Z) : option (Z * Z) := de_target b <$> find (is_entry b name) ps.

Lemma find_in_block_chain fuel name pos ps :
  chain blk bs pos ps -> (length ps < fuel)%nat -> find_in_block fuel blk bs name pos = lookup_name blk ps name.
Proof using Hblk.
  intros Hc. revert fuel. induction Hc as [|pos ps H0 Hn Hr Hc IH]; intros fuel Hf; (destruct fuel as [|fuel]; [simpl in Hf; lia|]).
  - cbn [find_in_block]. by rewrite (proj2 (Z.ltb_lt bs (bs + 8))) by lia.
  - pose proof (de_ranges pos). cbn [find_in_block]. rewrite (proj2 (Z.ltb_ge bs (pos + 8))) by lia. cbv zeta.
    replace ((de_rec_len blk pos <? 8) || (bs <? pos + de_rec_len blk pos)) with false by lia.
    unfold lookup_name. cbn [find]. destruct (de_inode blk pos =? 0) eqn:Ei.
    + unfold is_entry at 1. rewrite Ei. cbn [negb andb]. apply IH. simpl in Hf. lia.
    + unfold is_entry at 1. rewrite Ei. cbn [negb andb]. unfold de_name. destruct Hblk as [Hl _ _].
      destruct (Z.eqb_spec (de_name_len blk pos) (zlen name)) as [->|Hne]; cbn [andb].
      * destruct (bool_decide _); [done|]. apply IH. simpl in Hf. lia.
      * rewrite bool_decide_eq_false_2; [apply IH; simpl in Hf; lia|]. intros E. apply Hne. rewrite <- E. by rewrite zlen_sub by lia.
Qed.
Lemma chain_length pos ps : chain blk bs pos ps -> 0 <= pos -> 8 * Z.of_nat (length ps) <= bs - pos.
Proof using Hblk. induction 1 as [|pos ps H0 Hn Hr Hc IH]; intros Hp; simpl; [lia|]. pose proof (de_ranges pos). lia. Qed.
Lemma dir_fuel_enough ps : chain blk bs 0 ps -> (length ps < dir_fuel bs)%nat.
Proof using Hblk.
  intros Hc. pose proof (chain_length 0 ps Hc ltac:(lia)). destruct Hblk as [_ _ Hb]. unfold dir_fuel.
  assert (Z.of_nat (length ps) <= bs / 8) by (apply Z.div_le_lower_bound; lia). lia.
Qed.
End block.

(** The entries of the records at [ps]: names and targets. *)
Definition entry_at (b : list Z) (p : Z) : list (list Z * (Z * Z)) := if de_inode b p =? 0 then [] else [(de_name b p, de_target b p)].
Definition entries (b : list Z) (ps : list Z) : list (list Z * (Z * Z)) := ps ≫= entry_at b.
(** The first entry under a name. *)
Definition assoc (name : list Z) (l : list (list Z * (Z * Z))) : option (Z * Z) := snd <$> find (fun e => bool_decide (e.1 = name)) l.

Lemma entries_app b ps qs : entries b (ps ++ qs) = entries b ps ++ entries b qs.
Proof. apply bind_app. Qed.
Lemma entries_same a b ps :
  (forall q, q ∈ ps -> de_inode b q = de_inode a q /\ de_file_type b q = de_file_type a q /\ de_name b q = de_name a q) -> entries b ps = entries a ps.
Proof.
  intros H. unfold entries. induction ps as [|p ps IH]; [done|]. rewrite !bind_cons, IH by (intros q Hq; apply H; mem). f_equal.
  destruct (H p) as (E1 & E2 & E3); [mem|]. unfold entry_at, de_target. by rewrite E1, E2, E3.
Qed.
Lemma lookup_assoc b ps name : lookup_name b ps name = assoc name (entries b ps).
Proof.
  unfold lookup_name, assoc. induction ps as [|p ps IH]; [done|]. unfold entries. rewrite bind_cons. fold (entries b ps). cbn [find]. unfold entry_at, is_entry.
  destruct (de_inode b p =? 0); cbn [negb andb app]; [done|]. cbn [find fst]. by destruct (bool_decide _).
Qed.

(** Records outside a changed range are as before. *)
Lemma agree_rec a b p n : agree a b p n -> 8 <= n -> 0 <= p -> 8 + de_name_len b p <= n -> p + n <= zlen a -> zlen a = zlen b -> Forall is_byte b ->
  de_inode a p = de_inode b p /\ de_rec_len a p = de_rec_len b p /\ de_name_len a p = de_name_len b p /\
  de_file_type a p = de_file_type b p /\ de_name a p = de_name b p.
Proof.
  intros H Hn Hp Hnl Hl He Hb. unfold de_inode, de_rec_len, de_name_len, de_file_type, de_name in *. pose proof (is_byte_bget b (p + 6) Hb) as Hr. unfold is_byte in Hr.
  assert (de_name_len a p = bget b (p + 6)) as E by (apply H; lia). unfold de_name_len in E. split_and!.
  - apply agree_le32. apply (agree_le _ _ p n); [done|lia|lia].
  - apply agree_le16. apply (agree_le _ _ p n); [done|lia|lia].
  - done.
  - apply H. lia.
  - unfold de_name_len. rewrite E. apply agree_sub; try lia. apply (agree_le _ _ p n); [done|lia|lia].
Qed.

Lemma chain_suffix blk bs pos ps1 ps2 : chain blk bs pos (ps1 ++ ps2) -> exists p, chain blk bs p ps2.
Proof.
  revert pos. induction ps1 as [|q ps1 IH]; intros pos H; [by exists pos|]. inversion H; subst. eauto.
Qed.
Lemma chain_head blk bs pos p ps : chain blk bs pos (p :: ps) -> pos = p.
Proof. intros H. by inversion H. Qed.
Lemma chain_mid blk bs pos ps1 p ps2 : chain blk bs pos (ps1 ++ p :: ps2) -> chain blk bs p (p :: ps2).
Proof. intros H. apply chain_suffix in H as [q H]. by rewrite (chain_head _ _ _ _ _ H) in H. Qed.
Lemma chain_before blk bs pos ps1 p ps2 q :
  dir_block blk bs -> chain blk bs pos (ps1 ++ p :: ps2) -> q ∈ ps1 -> pos <= q /\ q + de_rec_len blk q <= p.
Proof.
  intros Hb. revert pos. induction ps1 as [|r ps1 IH]; intros pos H Hin; [by apply elem_of_nil in Hin|].
  inversion H as [|? ? H0 Hn Hr Hc]; subst. pose proof (de_ranges _ _ Hb r).
  apply elem_of_cons in Hin as [->|Hin]; [|destruct (IH _ Hc Hin); lia].
  split; [lia|]. apply chain_in with (p := p) in Hc; [lia|done|mem].
Qed.
(** Another tail from [p] on, the records before it being the same. *)
Lemma chain_replace a b bs pos ps1 p ps2 tail :
  (forall q, q ∈ ps1 -> de_rec_len b q = de_rec_len a q /\ de_name_len b q = de_name_len a q) ->
  chain a bs pos (ps1 ++ p :: ps2) -> chain b bs p tail -> chain b bs pos (ps1 ++ tail).
Proof.
  intros Hs. revert pos. induction ps1 as [|q ps1 IH]; intros pos Ha Hb; simpl in *.
  - by rewrite (chain_head _ _ _ _ _ Ha).
  - inversion Ha as [|? ? H0 Hn Hr Hc]; subst. destruct (Hs q) as [E1 E2]; [mem|].
    constructor; rewrite ?E1, ?E2; try done. apply IH; [|done|done]. intros r Hr'. apply Hs. mem.
Qed.
Lemma chain_same a b bs pos ps :
  (forall q, q ∈ ps -> de_rec_len b q = de_rec_len a q /\ de_name_len b q = de_name_len a q) -> chain a bs pos ps -> chain b bs pos ps.
Proof.
  intros Hs Hc. induction Hc as [|pos ps H0 Hn Hr Hc IH]; [constructor|]. destruct (Hs pos) as [E1 E2]; [mem|].
  constructor; rewrite ?E1, ?E2; try done. apply IH. intros q Hq. apply Hs. mem.
Qed.

Lemma zlen_dirent child r ft name : 8 + zlen name <= r -> zlen (dirent_bytes child r ft name) = r.
Proof.
  intros. unfold dirent_bytes. rewrite !zlen_app, zlen_put32, zlen_put16. change (zlen [u8 (zlen name); u8 ft]) with 2. rewrite zlen_zrep by lia. lia.
Qed.
Lemma dirent_is_byte child r ft name : Forall is_byte name -> Forall is_byte (dirent_bytes child r ft name).
Proof.
  intros. unfold dirent_bytes. repeat apply Forall_app_2; [apply put32_bytes|repeat constructor; apply u8_range|repeat constructor; apply u8_range|done|apply zrep0_bytes].
Qed.
(** A record put at [o] of a block. *)
Lemma dirent_fields b o r child ft name :
  0 < child < 2 ^ 32 -> 0 <= ft < 256 -> 0 < zlen name < 256 -> 0 <= o -> 8 + zlen name <= r < 2 ^ 16 -> o + r <= zlen b ->
  (forall i, 0 <= i < r -> bget b (o + i) = bget (dirent_bytes child r ft name) i) ->
  de_inode b o = child /\ de_rec_len b o = r /\ de_name_len b o = zlen name /\ de_file_type b o = ft /\ de_name b o = name.
Proof.
  intros Hchild Hft Hname Ho Hr Hl Hat. set (e := dirent_bytes child r ft name) in *.
  assert (forall i, bget e i = bget (put32 child ++ put16 (u16 r) ++ [u8 (zlen name); u8 ft] ++ name ++ zrep (r - 8 - zlen name) 0) i) as He by done.
  unfold de_inode, de_rec_len, de_name_len, de_file_type, de_name. split_and!.
  - transitivity (le32 (put32 child) 0); [|apply le32_put32; lia]. apply le32_ext. intros i Hi. rewrite Hat, He by lia. by rewrite bget_app_l by (rewrite zlen_put32; lia).
  - transitivity (le16 (put16 (u16 r)) 0).
    + unfold le16. rewrite <- (Z.add_assoc o), (Hat 4), (Hat (4 + 1)), !He by lia. done.
    + rewrite u16_id by lia. rewrite <- (le16_splice_in [0; 0] 0 r) at 2; [done|lia|unfold zlen; simpl; lia|lia].
  - rewrite Hat, He by lia. change (u8 (zlen name) = zlen name). apply u8_id. lia.
  - rewrite Hat, He by lia. change (u8 ft = ft). by apply u8_id.
  - assert (de_name_len b (o) = zlen name) as -> by (unfold de_name_len; rewrite Hat, He by lia; change (u8 (zlen name) = zlen name); apply u8_id; lia).
    apply buf_ext; rewrite zlen_sub by lia; [done|]. intros i Hi. rewrite bget_sub by lia. rewrite <- (Z.add_assoc o), Hat, He by lia.
    rewrite (bget_app_r (put32 child)) by (rewrite zlen_put32; lia). rewrite (bget_app_r (put16 _)) by (rewrite zlen_put16, zlen_put32; lia).
    rewrite (bget_app_r [_; _]) by (change (zlen [u8 (zlen name); u8 ft]) with 2; rewrite zlen_put16, zlen_put32; lia).
    rewrite zlen_put32, zlen_put16. change (zlen [u8 (zlen name); u8 ft]) with 2. rewrite bget_app_l by lia. f_equal. lia.
Qed.

(** ** Insertion *)

Section append.
Context (blk : list Z) (bs : Z) (Hblk : dir_block blk bs).
Context (child ft : Z) (name : list Z) (Hchild : 0 < child < 2 ^ 32) (Hft : 0 <= ft < 256).
Context (Hname : 0 < zlen name < 256) (Hnb : Forall is_byte name).

Definition need : Z := dirent_min_rec_len (zlen name).
Definition host_min (p : Z) : Z := dirent_min_rec_len (de_name_len blk p).
(** The block after the entry is put behind the record at [p]. *)
Definition appended (p : Z) : list Z :=
  splice (set_de_rec_len p (host_min p) blk) (p + host_min p) (dirent_bytes child (de_rec_len blk p - host_min p) ft name).

Lemma append_locate fuel pos ps blk' :
  chain blk bs pos ps -> append_in_block fuel blk bs need child ft name pos = Some blk' ->
  exists ps1 p ps2, ps = ps1 ++ p :: ps2 /\ host_min p + need <= de_rec_len blk p /\ blk' = appended p.
Proof using Hblk.
  clear Hname Hnb. intros Hc. revert fuel. induction Hc as [|pos ps H0 Hn Hr Hc IH]; intros fuel; (destruct fuel as [|fuel]; [done|]); cbn [append_in_block].
  - by rewrite (proj2 (Z.ltb_lt bs (bs + 8))) by lia.
  - case_match; [done|]. cbv zeta. case_match; [done|]. fold (host_min pos). destruct (Z.leb_spec (host_min pos + need) (de_rec_len blk pos)).
    + intros [= <-]. exists [], pos, ps. done.
    + intros E. destruct (IH _ E) as (ps1 & p & ps2 & -> & H3 & H4). by exists (pos :: ps1), p, ps2.
Qed.

Lemma append_none fuel pos ps :
  chain blk bs pos ps -> (length ps < fuel)%nat -> append_in_block fuel blk bs need child ft name pos = None ->
  Forall (fun q => de_rec_len blk q < host_min q + need) ps.
Proof using Hblk.
  clear Hname Hnb. intros Hc. revert fuel. induction Hc as [|pos ps H0 Hn Hr Hc IH]; intros fuel Hf; [constructor|]. destruct fuel as [|fuel]; [simpl in Hf; lia|].
  pose proof (de_ranges _ _ Hblk pos). cbn [append_in_block]. rewrite (proj2 (Z.ltb_ge bs (pos + 8))) by lia. cbv zeta.
  replace ((de_rec_len blk pos <? 8) || (bs <? pos + de_rec_len blk pos)) with false by lia. fold (host_min pos).
  destruct (Z.leb_spec (host_min pos + need) (de_rec_len blk pos)); [done|]. intros E. constructor; [lia|]. apply (IH fuel); [simpl in Hf; lia|done].
Qed.

Context (ps1 : list Z) (p : Z) (ps2 : list Z) (Hchain : chain blk bs 0 (ps1 ++ p :: ps2)) (Hroom : host_min p + need <= de_rec_len blk p).

Lemma append_bounds : 0 <= p /\ 8 + de_name_len blk p <= host_min p /\ 8 + zlen name <= need /\ p + de_rec_len blk p <= bs /\
  0 <= de_name_len blk p < 256 /\ de_rec_len blk p < 2 ^ 16.
Proof using Hblk Hchain Hroom Hname Hnb Hchild Hft.
  destruct (de_ranges blk bs Hblk p) as (H1 & H2 & _). pose proof (min_rec_len_spec _ H2) as [H3 _]. pose proof (min_rec_len_spec (zlen name) ltac:(lia)) as [H4 _].
  destruct (chain_in blk bs Hblk 0 _ p Hchain ltac:(mem)) as (H5 & H6 & H7). unfold host_min, need. lia.
Qed.
Lemma append_lengths : zlen (set_de_rec_len p (host_min p) blk) = bs /\ zlen (dirent_bytes child (de_rec_len blk p - host_min p) ft name) = de_rec_len blk p - host_min p.
Proof using Hblk Hchain Hroom Hname Hnb Hchild Hft.
  destruct append_bounds as (? & ? & ? & ? & ? & ?). destruct Hblk as [Hl _ _]. split.
  - unfold set_de_rec_len. apply zlen_splice_n; rewrite ?zlen_put16; lia.
  - apply zlen_dirent. lia.
Qed.
Lemma appended_block : dir_block (appended p) bs.
Proof using Hblk Hchain Hroom Hname Hnb Hchild Hft.
  destruct append_bounds as (? & ? & ? & ? & ? & ?), append_lengths as [L1 L2], Hblk as [Hl Hb Hbs]. split; [|apply splice_bytes|done].
  - apply zlen_splice_n; lia.
  - apply splice_bytes; [done|]. repeat constructor; apply u8_range.
  - by apply dirent_is_byte.
Qed.
(** Outside the record at [p] the block is as before. *)
Lemma appended_agree q n : 0 <= q -> q + n <= p \/ p + de_rec_len blk p <= q -> agree (appended p) blk q n.
Proof using Hblk Hchain Hroom Hname Hnb Hchild Hft.
  destruct append_bounds as (? & ? & ? & ? & ? & ?), append_lengths as [L1 L2], Hblk as [Hl Hb Hbs]. intros Hq Hd.
  eapply agree_trans; [apply agree_splice; lia|]. unfold set_de_rec_len. apply agree_splice; rewrite ?zlen_put16; lia.
Qed.
Lemma appended_rec q : 0 <= q -> 8 + de_name_len blk q <= de_rec_len blk q -> q + de_rec_len blk q <= bs -> q + de_rec_len blk q <= p \/ p + de_rec_len blk p <= q ->
  de_inode (appended p) q = de_inode blk q /\ de_rec_len (appended p) q = de_rec_len blk q /\ de_name_len (appended p) q = de_name_len blk q /\
  de_file_type (appended p) q = de_file_type blk q /\ de_name (appended p) q = de_name blk q.
Proof using Hblk Hchain Hroom Hname Hnb Hchild Hft.
  destruct appended_block as [Hl' _ _], Hblk as [Hl Hb _]. intros. destruct (de_ranges blk bs Hblk q) as (_ & ? & _). apply (agree_rec _ _ q (de_rec_len blk q)); try lia; [|done].
  apply appended_agree; lia.
Qed.
(** The record at [p] keeps its entry and gives up its room. *)
Lemma appended_host :
  de_inode (appended p) p = de_inode blk p /\ de_rec_len (appended p) p = host_min p /\ de_name_len (appended p) p = de_name_len blk p /\
  de_file_type (appended p) p = de_file_type blk p /\ de_name (appended p) p = de_name blk p.
Proof using Hblk Hchain Hroom Hname Hnb Hchild Hft.
  destruct append_bounds as (? & ? & ? & ? & ? & ?), append_lengths as [L1 L2], appended_block as [Hl' _ _], Hblk as [Hl Hb Hbs].
  assert (forall q n, p <= q -> q + n <= p + host_min p -> agree (appended p) (set_de_rec_len p (host_min p) blk) q n) as Ha by (intros q n H5 H6; apply agree_splice; lia).
  assert (forall q n, 0 <= q -> q + n <= p + 4 \/ p + 6 <= q -> agree (set_de_rec_len p (host_min p) blk) blk q n) as Hs.
  { intros q n H5 H6. unfold set_de_rec_len. apply agree_splice; rewrite ?zlen_put16; lia. }
  unfold de_inode, de_rec_len, de_name_len, de_file_type, de_name. split_and!.
  - rewrite (agree_le32 _ _ _ (Ha p 4 ltac:(lia) ltac:(lia))). apply agree_le32, Hs; lia.
  - rewrite (agree_le16 _ _ _ (Ha (p + 4) 2 ltac:(lia) ltac:(lia))). unfold set_de_rec_len. rewrite u16_id by lia. apply le16_splice_in; lia.
  - rewrite (Ha (p + 6) 1) by lia. apply (Hs (p + 6) 1); lia.
  - rewrite (Ha (p + 7) 1) by lia. apply (Hs (p + 7) 1); lia.
  - assert (de_name_len (appended p) p = de_name_len blk p) as -> by (unfold de_name_len; rewrite (Ha (p + 6) 1) by lia; apply (Hs (p + 6) 1); lia).
    apply agree_sub; try lia. eapply agree_trans; [apply Ha; lia|apply Hs; lia].
Qed.
(** The new record. *)
Lemma appended_new :
  de_inode (appended p) (p + host_min p) = child /\ de_rec_len (appended p) (p + host_min p) = de_rec_len blk p - host_min p /\
  de_name_len (appended p) (p + host_min p) = zlen name /\ de_file_type (appended p) (p + host_min p) = ft /\ de_name (appended p) (p + host_min p) = name.
Proof using Hblk Hchain Hroom Hname Hnb Hchild Hft.
  destruct append_bounds as (? & ? & ? & ? & ? & ?), append_lengths as [L1 L2], appended_block as [Hl' _ _]. set (r := de_rec_len blk p - host_min p) in *. set (e := dirent_bytes child r ft name) in *.
  assert (forall i, 0 <= i < r -> bget (appended p) (p + host_min p + i) = bget e i) as Hat.
  { intros i Hi. unfold appended. fold r e. rewrite bget_splice_in by lia. f_equal. lia. }
  apply dirent_fields; lia || done.
Qed.

Lemma appended_chain : chain (appended p) bs 0 (ps1 ++ p :: (p + host_min p) :: ps2).
Proof using Hblk Hchain Hroom Hname Hnb Hchild Hft.
  destruct append_bounds as (? & ? & ? & ? & ? & ?), appended_host as (_ & Hh1 & Hh2 & _), appended_new as (_ & Hn1 & Hn2 & _).
  pose proof (chain_mid _ _ _ _ _ _ Hchain) as Hm. inversion Hm as [|? ? Hm0 Hm1 Hm2 Hc]; subst.
  apply (chain_replace blk _ bs 0 ps1 p ps2); [|done|].
  - intros q Hq. destruct (chain_before _ _ _ _ _ _ q Hblk Hchain Hq). destruct (chain_in _ _ Hblk _ _ q Hchain ltac:(mem)) as (? & ? & ?).
    destruct (appended_rec q) as (_ & E1 & E2 & _); try lia; done.
  - constructor; [lia|lia|lia|]. rewrite Hh1. constructor; [lia|lia|lia|]. rewrite Hn1. replace (p + host_min p + (de_rec_len blk p - host_min p)) with (p + de_rec_len blk p) by lia.
    apply (chain_same blk); [|done]. intros q Hq. destruct (chain_in _ _ Hblk _ _ q Hc Hq) as (? & ? & ?). destruct (appended_rec q) as (_ & E1 & E2 & _); try lia; done.
Qed.
Lemma appended_entries : entries (appended p) (ps1 ++ p :: (p + host_min p) :: ps2) =
  entries blk (ps1 ++ [p]) ++ (name, (child, ft)) :: entries blk ps2.
Proof using Hblk Hchain Hroom Hname Hnb Hchild Hft.
  destruct append_bounds as (? & ? & ? & ? & ? & ?), appended_host as (Hh1 & _ & Hh2 & Hh3 & Hh4), appended_new as (Hn1 & _ & Hn2 & Hn3 & Hn4).
  pose proof (chain_mid _ _ _ _ _ _ Hchain) as Hm. inversion Hm as [|? ? Hm0 Hm1 Hm2 Hc]; subst.
  change (p :: p + host_min p :: ps2) with ([p] ++ [p + host_min p] ++ ps2). rewrite !app_assoc, !entries_app, <- app_assoc. f_equal; [f_equal|].
  - apply entries_same. intros q Hq. destruct (chain_before _ _ _ _ _ _ q Hblk Hchain Hq). destruct (chain_in _ _ Hblk _ _ q Hchain ltac:(mem)) as (? & ? & ?).
    destruct (appended_rec q) as (E1 & _ & _ & E2 & E3); try lia; done.
  - apply entries_same. intros q Hq. apply elem_of_cons in Hq as [->|Hq]; [done|by apply elem_of_nil in Hq].
  - change ((name, (child, ft)) :: entries blk ps2) with ([(name, (child, ft))] ++ entries blk ps2). f_equal.
    + unfold entries, entry_at, de_target. cbn [mbind list_bind app]. rewrite Hn1, Hn3, Hn4. by rewrite (proj2 (Z.eqb_neq child 0)) by lia.
    + apply entries_same. intros q Hq. destruct (chain_in _ _ Hblk _ _ q Hc Hq) as (? & ? & ?). destruct (appended_rec q) as (E1 & _ & _ & E2 & E3); try lia; done.
Qed.
End append.

(** ** Removal *)

Section remove.
Context (blk : list Z) (bs : Z) (Hblk : dir_block blk bs) (name : list Z).

(** The block after the record at [p] is merged into the one at [prev], or emptied. *)
Definition removed (prev : option Z) (p : Z) : list Z :=
  match prev with
  | Some q => set_de_rec_len q (de_rec_len blk q + de_rec_len blk p) blk
  | None => splice blk p (put32 0)
  end.
Definition prev_of (prev : option Z) (ps : list Z) : option Z := match last ps with Some q => Some q | None => prev end.

Lemma prev_of_cons prev q ps : prev_of prev (q :: ps) = prev_of (Some q) ps.
Proof. unfold prev_of. destruct ps; [done|]. rewrite last_cons_cons. by destruct (last_is_Some (z :: ps)) as [_ [? ->]]. Qed.

Lemma remove_locate fuel pos ps prev :
  chain blk bs pos ps -> (length ps < fuel)%nat ->
  match remove_in_block fuel blk bs name pos prev with
  | None => lookup_name blk ps name = None
  | Some blk' => exists ps1 p ps2, ps = ps1 ++ p :: ps2 /\ is_entry blk name p = true /\ lookup_name blk ps1 name = None /\
      blk' = removed (prev_of prev ps1) p
  end.
Proof using Hblk.
  intros Hc. revert fuel prev. induction Hc as [|pos ps H0 Hn Hr Hc IH]; intros fuel prev Hf; (destruct fuel as [|fuel]; [simpl in Hf; lia|]); cbn [remove_in_block].
  - by rewrite (proj2 (Z.ltb_lt bs (bs + 8))) by lia.
  - pose proof (de_ranges _ _ Hblk pos). rewrite (proj2 (Z.ltb_ge bs (pos + 8))) by lia. cbv zeta.
    replace ((de_rec_len blk pos <? 8) || (bs <? pos + de_rec_len blk pos)) with false by lia.
    assert (negb (de_inode blk pos =? 0) && (de_name_len blk pos =? zlen name) && bool_decide (sub blk (pos + 8) (zlen name) = name) = is_entry blk name pos) as ->.
    { unfold is_entry, de_name. destruct (Z.eqb_spec (de_name_len blk pos) (zlen name)) as [->|Hne]; [by rewrite andb_true_r|]. rewrite andb_false_r. cbn [andb].
      rewrite bool_decide_eq_false_2; [by rewrite andb_false_r|]. intros E. apply Hne. rewrite <- E. destruct Hblk as [Hl _ _]. by rewrite zlen_sub by lia. }
    destruct (is_entry blk name pos) eqn:E; [by exists [], pos, ps|].
    specialize (IH fuel (Some pos) ltac:(simpl in Hf; lia)). destruct (remove_in_block _ _ _ _ _ _).
    + destruct IH as (ps1 & p & ps2 & -> & Hp & Hl & ->). exists (pos :: ps1), p, ps2. rewrite prev_of_cons. unfold lookup_name. cbn [find]. by rewrite E.
    + unfold lookup_name. cbn [find]. by rewrite E.
Qed.

(** Emptying the first record. *)
Lemma emptied_correct p ps :
  chain blk bs 0 (p :: ps) -> let blk' := removed None p in
  dir_block blk' bs /\ chain blk' bs 0 (p :: ps) /\ entries blk' (p :: ps) = entries blk ps.
Proof using Hblk.
  intros Hc blk'. pose proof (chain_in _ _ Hblk _ _ p Hc ltac:(mem)) as (Hp1 & Hp2 & Hp3). pose proof Hblk as [Hl Hb Hbs]. pose proof (de_ranges _ _ Hblk p) as (R1 & R2 & _).
  assert (dir_block blk' bs) as Hblk'.
  { split; [apply zlen_splice_n; rewrite ?zlen_put32; lia|apply splice_bytes; [done|apply put32_bytes]|done]. }
  assert (forall q n, 0 <= q -> p + 4 <= q -> agree blk' blk q n) as Ha by (intros q n H1 H2; apply agree_splice; rewrite ?zlen_put32; lia).
  assert (de_rec_len blk' p = de_rec_len blk p) as E1 by (apply agree_le16, Ha; lia).
  assert (de_name_len blk' p = de_name_len blk p) as E2 by (apply (Ha (p + 6) 1); lia).
  assert (forall q, q ∈ ps -> de_inode blk' q = de_inode blk q /\ de_rec_len blk' q = de_rec_len blk q /\ de_name_len blk' q = de_name_len blk q /\
    de_file_type blk' q = de_file_type blk q /\ de_name blk' q = de_name blk q) as Hs.
  { intros q Hq. inversion Hc as [|? ? Hm0 Hm1 Hm2 Hc']; subst. destruct (chain_in _ _ Hblk _ _ q Hc' Hq) as (G1 & G2 & G3). pose proof (de_ranges _ _ Hblk q) as (G4 & G5 & _).
    apply (agree_rec _ _ q (de_rec_len blk q)); try done; try lia. apply Ha; lia. rewrite (db_len _ _ Hblk'). lia. by rewrite (db_len _ _ Hblk'). }
  split; [done|]. split.
  - apply (chain_same blk); [|done]. intros q [->|Hq]%elem_of_cons; [done|]. by destruct (Hs q Hq) as (_ & ? & ? & _).
  - change (p :: ps) with ([p] ++ ps). rewrite entries_app, (entries_same blk blk' ps) by (intros q Hq; by destruct (Hs q Hq) as (? & _ & _ & ? & ?)).
    unfold entries at 1, entry_at. cbn [mbind list_bind app].
    assert (de_inode blk' p = 0) as -> by (unfold de_inode, blk', removed; rewrite (le32_splice_in blk p 0); lia). done.
Qed.

(** Merging the record at [p] into the one before it. *)
Context (ps1 : list Z) (q p : Z) (ps2 : list Z) (Hchain : chain blk bs 0 (ps1 ++ q :: p :: ps2)).

Lemma merge_bounds : 0 <= q /\ 8 + de_name_len blk q <= de_rec_len blk q /\ 0 <= de_name_len blk q < 256 /\
  p = q + de_rec_len blk q /\ 8 + de_name_len blk p <= de_rec_len blk p /\ 0 <= de_name_len blk p < 256 /\ p + de_rec_len blk p <= bs /\ bs <= 4096 /\ zlen blk = bs /\
  chain blk bs (p + de_rec_len blk p) ps2.
Proof using Hblk Hchain.
  destruct (de_ranges _ _ Hblk q) as (_ & ? & _), (de_ranges _ _ Hblk p) as (_ & ? & _).
  pose proof (chain_mid _ _ _ _ _ _ Hchain) as Hm. inversion Hm as [|? ? Hm0 Hm1 Hm2 Hc]; subst. pose proof (chain_head _ _ _ _ _ Hc) as E. rewrite E in Hc.
  inversion Hc as [|? ? Hp0 Hp1 Hp2 Hc']; subst. destruct Hblk as [Hl _ Hbs].
  split_and!; try done; lia.
Qed.
Lemma merged_agree x n : 0 <= x -> x + n <= q + 4 \/ q + 6 <= x -> agree (removed (Some q) p) blk x n.
Proof using Hblk Hchain.
  destruct merge_bounds as (? & ? & ? & ? & ? & ? & ? & ? & ? & _). intros. apply agree_splice; rewrite ?zlen_put16; lia.
Qed.
Lemma merged_rec x : x ∈ ps1 \/ x ∈ ps2 ->
  de_inode (removed (Some q) p) x = de_inode blk x /\ de_rec_len (removed (Some q) p) x = de_rec_len blk x /\ de_name_len (removed (Some q) p) x = de_name_len blk x /\
  de_file_type (removed (Some q) p) x = de_file_type blk x /\ de_name (removed (Some q) p) x = de_name blk x.
Proof using Hblk Hchain.
  destruct merge_bounds as (? & ? & ? & ? & ? & ? & ? & ? & ? & Hc). intros Hx. pose proof (de_ranges _ _ Hblk x) as (_ & ? & _).
  assert (zlen (removed (Some q) p) = zlen blk) as Hz by (apply zlen_splice_n; rewrite ?zlen_put16; lia).
  assert (0 <= x /\ 8 + de_name_len blk x <= de_rec_len blk x /\ x + de_rec_len blk x <= bs /\ (x + de_rec_len blk x <= q \/ q + 6 <= x)) as (? & ? & ? & ?).
  { destruct Hx as [Hx|Hx].
    - destruct (chain_before _ _ _ _ _ _ x Hblk Hchain Hx), (chain_in _ _ Hblk _ _ x Hchain ltac:(mem)) as (? & ? & ?). lia.
    - destruct (chain_in _ _ Hblk _ _ x Hc Hx) as (? & ? & ?). lia. }
  destruct Hblk as [? ? _]. apply (agree_rec _ _ x (de_rec_len blk x)); try done; try lia. apply merged_agree; lia.
Qed.
Lemma merged_host :
  de_inode (removed (Some q) p) q = de_inode blk q /\ de_rec_len (removed (Some q) p) q = de_rec_len blk q + de_rec_len blk p /\
  de_name_len (removed (Some q) p) q = de_name_len blk q /\ de_file_type (removed (Some q) p) q = de_file_type blk q /\ de_name (removed (Some q) p) q = de_name blk q.
Proof using Hblk Hchain.
  destruct merge_bounds as (? & ? & ? & ? & ? & ? & ? & ? & ? & Hc).
  assert (zlen (removed (Some q) p) = zlen blk) as Hz by (apply zlen_splice_n; rewrite ?zlen_put16; lia).
  assert (de_name_len (removed (Some q) p) q = de_name_len blk q) as En by (apply (merged_agree (q + 6) 1); lia). split_and!; try done.
  - apply agree_le32, merged_agree; lia.
  - unfold de_rec_len at 1. cbn [removed]. unfold set_de_rec_len. rewrite u16_id by lia. apply le16_splice_in; lia.
  - apply (merged_agree (q + 7) 1); lia.
  - unfold de_name. rewrite En. apply agree_sub; try lia. apply merged_agree; lia.
Qed.
Lemma merged_correct : let blk' := removed (Some q) p in
  dir_block blk' bs /\ chain blk' bs 0 (ps1 ++ q :: ps2) /\ entries blk' (ps1 ++ q :: ps2) = entries blk (ps1 ++ [q]) ++ entries blk ps2.
Proof using Hblk Hchain.
  destruct merge_bounds as (? & ? & ? & ? & ? & ? & ? & ? & ? & Hc), merged_host as (E1 & E2 & E3 & E4 & E5). split; [|split].
  - split; [apply zlen_splice_n; rewrite ?zlen_put16; lia|apply splice_bytes; [apply Hblk|repeat constructor; apply u8_range]|apply Hblk].
  - apply (chain_replace blk _ bs 0 ps1 q (p :: ps2)); [|done|].
    + intros x Hx. by destruct (merged_rec x (or_introl Hx)) as (_ & ? & ? & _).
    + constructor; [lia|lia|lia|]. rewrite E2. replace (q + (de_rec_len blk q + de_rec_len blk p)) with (p + de_rec_len blk p) by lia.
      apply (chain_same blk); [|done]. intros x Hx. by destruct (merged_rec x (or_intror Hx)) as (_ & ? & ? & _).
  - change (q :: ps2) with ([q] ++ ps2). rewrite !entries_app, <- app_assoc. f_equal; [|f_equal]; apply entries_same.
    + intros x Hx. by destruct (merged_rec x (or_introl Hx)) as (? & _ & _ & ? & ?).
    + intros x [->|Hx]%elem_of_cons; [done|by apply elem_of_nil in Hx].
    + intros x Hx. by destruct (merged_rec x (or_intror Hx)) as (? & _ & _ & ? & ?).
Qed.
End remove.

(** ** Looking names up in what an update leaves *)

Lemma assoc_app name l1 l2 : assoc name (l1 ++ l2) = match assoc name l1 with Some t => Some t | None => assoc name l2 end.
Proof. unfold assoc. induction l1 as [|e l1 IH]; [done|]. cbn [find app]. by destruct (bool_decide _). Qed.
Lemma assoc_cons name e l : assoc name (e :: l) = if bool_decide (e.1 = name) then Some e.2 else assoc name l.
Proof. unfold assoc. cbn [find]. by destruct (bool_decide _). Qed.
Lemma assoc_mid_other name name' t l1 l2 : name' <> name -> assoc name' (l1 ++ (name, t) :: l2) = assoc name' (l1 ++ l2).
Proof. intros Hne. rewrite !assoc_app, assoc_cons. cbn [fst]. rewrite bool_decide_eq_false_2 by congruence. done. Qed.
Lemma find_assoc blk bs ps name : dir_block blk bs -> chain blk bs 0 ps -> find_in_block (dir_fuel bs) blk bs name 0 = assoc name (entries blk ps).
Proof. intros Hb Hc. rewrite <- lookup_assoc. apply (find_in_block_chain blk bs Hb); [done|by apply (dir_fuel_enough blk bs Hb)]. Qed.
Lemma entry_split blk ps1 p ps2 name : is_entry blk name p = true ->
  entries blk (ps1 ++ p :: ps2) = entries blk ps1 ++ (name, de_target blk p) :: entries blk ps2.
Proof.
  intros [Hi Hn%bool_decide_eq_true]%andb_prop. change (p :: ps2) with ([p] ++ ps2). rewrite !entries_app. f_equal.
  unfold entries at 1, entry_at. cbn [mbind list_bind app]. by rewrite (proj1 (negb_true_iff _) Hi), Hn.
Qed.

Lemma assoc_added name t l1 l2 : assoc name (l1 ++ l2) = None -> assoc name (l1 ++ (name, t) :: l2) = Some t.
Proof. rewrite !assoc_app. destruct (assoc name l1); [done|]. intros _. rewrite assoc_cons. cbn [fst snd]. by rewrite bool_decide_eq_true_2. Qed.
Lemma append_found blk bs ps child ft name blk' :
  dir_block blk bs -> chain blk bs 0 ps -> 0 < child < 2 ^ 32 -> 0 <= ft < 256 -> 0 < zlen name < 256 -> Forall is_byte name ->
  append_in_block (dir_fuel bs) blk bs (dirent_min_rec_len (zlen name)) child ft name 0 = Some blk' ->
  exists qs l1 l2, dir_block blk' bs /\ chain blk' bs 0 qs /\ entries blk ps = l1 ++ l2 /\ entries blk' qs = l1 ++ (name, (child, ft)) :: l2.
Proof.
  intros Hb Hc Hch Hft Hn Hnb E. destruct (append_locate blk bs Hb child ft name _ 0 ps blk' Hc E) as (ps1 & p & ps2 & -> & Hroom & ->).
  eexists _, _, _. split; [exact (appended_block blk bs Hb child ft name Hch Hft Hn Hnb ps1 p ps2 Hc Hroom)|].
  split; [exact (appended_chain blk bs Hb child ft name Hch Hft Hn Hnb ps1 p ps2 Hc Hroom)|].
  split; [|exact (appended_entries blk bs Hb child ft name Hch Hft Hn Hnb ps1 p ps2 Hc Hroom)].
  change (p :: ps2) with ([p] ++ ps2). rewrite !entries_app. apply app_assoc.
Qed.

(** A block with one record. *)
Lemma lone_block child bs ft name : 0 < child < 2 ^ 32 -> 0 <= ft < 256 -> 0 < zlen name < 256 -> Forall is_byte name -> 8 + zlen name <= bs <= 4096 ->
  let b := dirent_bytes child bs ft name in dir_block b bs /\ chain b bs 0 [0] /\ entries b [0] = [(name, (child, ft))].
Proof.
  intros Hc Hf Hn Hnb Hbs b. assert (zlen b = bs) as Hl by (apply zlen_dirent; lia).
  destruct (dirent_fields b 0 bs child ft name) as (E1 & E2 & E3 & E4 & E5); try lia; [done|]. split; [|split].
  - split; [done| |lia]. by apply dirent_is_byte.
  - constructor; rewrite ?E2, ?E3; try lia. constructor.
  - unfold entries, entry_at, de_target. cbn [mbind list_bind app]. by rewrite E1, E4, E5, (proj2 (Z.eqb_neq child 0)) by lia.
Qed.

(** ** The contract of a directory block *)

(** Inserting into a well-formed directory block keeps it well formed: either no record has the
    room the name needs and nothing is changed, or the new entry is there, the others are kept in
    their order, and every other name is found as before. *)
Theorem dir_append_correct blk bs ps child ft name :
  dir_block blk bs -> chain blk bs 0 ps -> 0 < child < 2 ^ 32 -> 0 <= ft < 256 -> 0 < zlen name < 256 -> Forall is_byte name ->
  match append_in_block (dir_fuel bs) blk bs (dirent_min_rec_len (zlen name)) child ft name 0 with
  | None => Forall (fun q => de_rec_len blk q < dirent_min_rec_len (de_name_len blk q) + dirent_min_rec_len (zlen name)) ps
  | Some blk' => exists qs l1 l2,
      dir_block blk' bs /\ chain blk' bs 0 qs /\ entries blk ps = l1 ++ l2 /\ entries blk' qs = l1 ++ (name, (child, ft)) :: l2 /\
      (find_in_block (dir_fuel bs) blk bs name 0 = None -> find_in_block (dir_fuel bs) blk' bs name 0 = Some (child, ft)) /\
      (forall other, other <> name -> find_in_block (dir_fuel bs) blk' bs other 0 = find_in_block (dir_fuel bs) blk bs other 0)
  end.
Proof.
  intros Hb Hc Hch Hft Hn Hnb. destruct (append_in_block _ _ _ _ _ _ _ _) as [blk'|] eqn:E.
  2: { exact (append_none blk bs Hb child ft name _ 0 ps Hc (dir_fuel_enough blk bs Hb ps Hc) E). }
  destruct (append_found blk bs ps child ft name blk' Hb Hc Hch Hft Hn Hnb E) as (qs & l1 & l2 & Hb' & Hc' & Ho & He).
  exists qs, l1, l2. split_and!; try done; intros; rewrite ?(find_assoc blk bs ps _ Hb Hc) in *; rewrite (find_assoc _ bs _ _ Hb' Hc'), ?Ho, ?He in *; [by apply assoc_added|by apply assoc_mid_other].
Qed.

(** C40: removing a name from a well-formed directory block keeps it well formed: the name is not
    there and nothing is changed, or the first entry under it is gone, the others are kept in
    their order, and every other name is found as before. *)
Theorem dir_remove_correct blk bs ps name :
  dir_block blk bs -> chain blk bs 0 ps ->
  match remove_in_block (dir_fuel bs) blk bs name 0 None with
  | None => find_in_block (dir_fuel bs) blk bs name 0 = None
  | Some blk' => exists qs t l1 l2,
      dir_block blk' bs /\ chain blk' bs 0 qs /\ entries blk ps = l1 ++ (name, t) :: l2 /\ entries blk' qs = l1 ++ l2 /\
      find_in_block (dir_fuel bs) blk bs name 0 = Some t /\
      (forall other, other <> name -> find_in_block (dir_fuel bs) blk' bs other 0 = find_in_block (dir_fuel bs) blk bs other 0)
  end.
Proof.
  intros Hb Hc. rewrite (find_assoc blk bs ps name Hb Hc), <- lookup_assoc.
  pose proof (remove_locate blk bs Hb name _ 0 ps None Hc (dir_fuel_enough blk bs Hb ps Hc)) as E.
  destruct (remove_in_block _ _ _ _ _ _) as [blk'|]; [|done]. destruct E as (ps1 & p & ps2 & -> & Hp & Hl & ->).
  assert (exists qs, dir_block (removed blk (prev_of None ps1) p) bs /\ chain (removed blk (prev_of None ps1) p) bs 0 qs /\
    entries (removed blk (prev_of None ps1) p) qs = entries blk ps1 ++ entries blk ps2) as (qs & Hb' & Hc' & He).
  { destruct ps1 as [|q ps1 _] using rev_ind.
    - exists (p :: ps2). by apply emptied_correct.
    - unfold prev_of. rewrite last_snoc. rewrite <- app_assoc in Hc. exists (ps1 ++ q :: ps2). by apply merged_correct. }
  pose proof (entry_split blk ps1 p ps2 name Hp) as Ho.
  exists qs, (de_target blk p), (entries blk ps1), (entries blk ps2). split_and!; try done.
  - rewrite lookup_assoc, Ho, assoc_app, <- lookup_assoc, Hl, assoc_cons. cbn [fst snd]. by rewrite bool_decide_eq_true_2.
  - intros other Hne. rewrite (find_assoc blk bs _ _ Hb Hc), (find_assoc _ bs _ _ Hb' Hc'), He, Ho. symmetry. by apply assoc_mid_other.
Qed.

(** A block of 64 bytes with the entries [.], [..] and [a]. *)
Definition sample_dir : list Z := dirent_bytes 2 12 2 [46] ++ dirent_bytes 2 12 2 [46; 46] ++ dirent_bytes 11 40 1 [97].
Lemma sample_dir_ok : dir_block sample_dir 64 /\ chain sample_dir 64 0 [0; 12; 24].
Proof.
  split; [split; [done|decide_now|lia]|]. assert (de_rec_len sample_dir 0 = 12 /\ de_rec_len sample_dir 12 = 12 /\ de_rec_len sample_dir 24 = 40) as (E1 & E2 & E3) by done.
  assert (de_name_len sample_dir 0 = 1 /\ de_name_len sample_dir 12 = 2 /\ de_name_len sample_dir 24 = 1) as (N1 & N2 & N3) by done.
  repeat (constructor; try (rewrite ?E1, ?E2, ?E3, ?N1, ?N2, ?N3; lia)); rewrite ?E1, ?E2, ?E3. 
Qed.

Lemma dir_append_correct_witness : exists blk' qs l1 l2,
  append_in_block (dir_fuel 64) sample_dir 64 (dirent_min_rec_len 1) 12 1 [98] 0 = Some blk' /\
  chain blk' 64 0 qs /\ entries blk' qs = l1 ++ ([98], (12, 1)) :: l2 /\ find_in_block (dir_fuel 64) blk' 64 [98] 0 = Some (12, 1).
Proof.
  pose proof (dir_append_correct sample_dir 64 [0; 12; 24] 12 1 [98] (proj1 sample_dir_ok) (proj2 sample_dir_ok) ltac:(lia) ltac:(lia)
    ltac:(vm_compute; done) ltac:(decide_now)) as Hp.
  change (dirent_min_rec_len (zlen [98])) with (dirent_min_rec_len 1) in Hp.
  destruct (append_in_block (dir_fuel 64) sample_dir 64 (dirent_min_rec_len 1) 12 1 [98] 0) as [blk'|] eqn:E.
  2: { exfalso. assert (match append_in_block (dir_fuel 64) sample_dir 64 (dirent_min_rec_len 1) 12 1 [98] 0 with None => False | Some _ => True end) as K by (vm_compute; exact I).
       by rewrite E in K. }
  destruct Hp as (qs & l1 & l2 & _ & Hc & _ & He & Hf & _). exists blk', qs, l1, l2. split_and!; [done..|]. apply Hf. vm_compute. done.
Defined.
Lemma dir_remove_correct_witness : exists blk' qs,
  remove_in_block (dir_fuel 64) sample_dir 64 [97] 0 None = Some blk' /\ chain blk' 64 0 qs /\
  find_in_block (dir_fuel 64) blk' 64 [46; 46] 0 = Some (2, 2).
Proof.
  pose proof (dir_remove_correct sample_dir 64 [0; 12; 24] [97] (proj1 sample_dir_ok) (proj2 sample_dir_ok)) as Hp.
  destruct (remove_in_block (dir_fuel 64) sample_dir 64 [97] 0 None) as [blk'|] eqn:E.
  2: { exfalso. assert (match remove_in_block (dir_fuel 64) sample_dir 64 [97] 0 None with None => False | Some _ => True end) as K by (vm_compute; exact I).
       by rewrite E in K. }
  destruct Hp as (qs & t & l1 & l2 & _ & Hc & _ & _ & _ & Hf). exists blk', qs. split_and!; [done..|]. rewrite Hf by done. vm_compute. done.
Defined.
