(* ===== verification/Ext2Block.v ===== *)
(** * Ext2Block: a device as an array of blocks

    What a block write, a piecewise write and a run of data blocks do to the
    blocks of a lawful store ([ByteStoreLaws]), and what bitmaps hold.  A
    write that returns success was inside the store; [keeps P d d'] says that
    only blocks in [P] differ between the two devices. *)
From S2P Require Import Prelude Text Store Ext2 Ext2Alloc.
#[local] Open Scope Z_scope.

(** ** Bitmaps *)

Lemma bit_mask_pow idx : bit_mask idx = 2 ^ (idx mod 8).
Proof.
  unfold bit_mask. change 7 with (Z.ones 3). rewrite Z.land_ones by lia. change (2 ^ 3) with 8. rewrite Z.shiftl_1_l.
  assert (0 <= idx mod 8 < 8) as H by (apply Z.mod_pos_bound; lia). apply u8_id. split; [lia|].
  change 256 with (2 ^ 8). apply Z.pow_lt_mono_r; lia.
Qed.
Lemma test_bit_spec map idx : test_bit map idx = Z.testbit (bget map (idx / 8)) (idx mod 8).
Proof.
  unfold test_bit. rewrite bit_mask_pow, Z.shiftr_div_pow2 by lia. change (2 ^ 3) with 8. set (b := bget map (idx / 8)).
  assert (0 <= idx mod 8 < 8) as H by (apply Z.mod_pos_bound; lia). set (n := idx mod 8) in *.
  destruct (Z.testbit b n) eqn:E.
  - apply negb_true_iff, Z.eqb_neq. intros E0. assert (Z.testbit (Z.land b (2 ^ n)) n = true) as K; [|by rewrite E0, Z.bits_0 in K].
    rewrite Z.land_spec, E, Z.pow2_bits_true by lia. done.
  - apply negb_false_iff, Z.eqb_eq. apply Z.bits_inj'. intros k Hk. rewrite Z.land_spec, Z.bits_0.
    destruct (decide (k = n)) as [->|Hne]; [by rewrite E|]. rewrite Z.pow2_bits_false by lia. apply andb_false_r.
Qed.
Lemma div8_lt idx n : 0 <= idx < 8 * n -> 0 <= idx / 8 < n.
Proof. intros. split; [apply Z.div_pos; lia|]. apply Z.div_lt_upper_bound; lia. Qed.
Lemma zlen_set_bit map idx : 0 <= idx < 8 * zlen map -> zlen (set_bit map idx) = zlen map.
Proof.
  intros H. pose proof (div8_lt _ _ H). unfold set_bit. rewrite Z.shiftr_div_pow2 by lia. change (2 ^ 3) with 8.
  apply zlen_splice; [lia|]. change (zlen [_]) with 1. lia.
Qed.
Lemma test_set_bit map i j : 0 <= i < 8 * zlen map -> 0 <= j -> test_bit (set_bit map i) j = (i =? j) || test_bit map j.
Proof.
  intros Hi Hj. pose proof (div8_lt _ _ Hi). rewrite !test_bit_spec. unfold set_bit. rewrite Z.shiftr_div_pow2 by lia. change (2 ^ 3) with 8.
  assert (0 <= i mod 8 < 8 /\ 0 <= j mod 8 < 8 /\ i = 8 * (i / 8) + i mod 8 /\ j = 8 * (j / 8) + j mod 8) as (?&?&?&?) by (split_and!; dlia).
  destruct (decide (j / 8 = i / 8)) as [E|Hne].
  - rewrite E, bget_splice_hit by lia. rewrite bit_mask_pow, Z.lor_spec. destruct (Z.eqb_spec i j) as [->|Hne].
    + rewrite Z.pow2_bits_true by lia. apply orb_true_r.
    + rewrite Z.pow2_bits_false by lia. apply orb_false_r.
  - rewrite (bget_splice_skip map _ (i / 8) (j / 8)) by (change (zlen [_]) with 1; try lia; dlia).
    by rewrite (proj2 (Z.eqb_neq i j)) by congruence.
Qed.
Lemma set_bit_bytes map i : Forall is_byte map -> 0 <= i < 8 * zlen map -> Forall is_byte (set_bit map i).
Proof.
  intros Hb Hi. apply splice_bytes; [done|]. constructor; [|done]. rewrite bit_mask_pow. pose proof (is_byte_bget map (Z.shiftr i 3) Hb) as Hv.
  set (b := bget _ _) in *. unfold is_byte in *. assert (0 <= i mod 8 < 8) by (apply Z.mod_pos_bound; lia).
  assert (0 <= Z.lor b (2 ^ (i mod 8))) by (apply Z.lor_nonneg; split; [lia|apply Z.pow_nonneg; lia]). split; [done|].
  destruct (Z.eq_dec (Z.lor b (2 ^ (i mod 8))) 0) as [->|]; [lia|]. change 256 with (2 ^ 8). apply Z.log2_lt_pow2; [lia|].
  rewrite Z.log2_lor by (try apply Z.pow_nonneg; lia). rewrite Z.log2_pow2 by lia. apply Z.max_lub_lt; [|lia].
  destruct (Z.eq_dec b 0) as [->|]; [change (Z.log2 0) with 0; lia|]. apply Z.log2_lt_pow2; lia.
Qed.

(** The search of the allocators. *)
Lemma find_free_block_some n l bb x : find_free_block n l bb = Some x -> l <= x < l + Z.of_nat n /\ test_bit bb x = false.
Proof.
  revert l. induction n as [|n IH]; intros l; cbn [find_free_block]; [done|]. destruct (test_bit bb l) eqn:E; cbn [negb].
  - intros H%IH. split; [lia|apply H].
  - intros [= <-]. split; [lia|done].
Qed.

(** ** Blocks *)

Section blocks.
Context {S : Type} {HS : ByteStore S} {HL : ByteStoreLaws S} (bs sz : Z) (Hbs : 0 < bs <= 4096).

Record dev_ok (d : S) : Prop := DevOk {
  do_ok : store_ok d; do_writable : store_writable d = true; do_size : store_size d = sz;
  do_bytes : forall i, 0 <= i < sz -> is_byte (store_at d i);
}.
Definition blk (d : S) (k : Z) : list Z := bytes_at (store_at d) (k * bs) bs.
Definition inside (k : Z) : Prop := 0 <= k /\ (k + 1) * bs <= sz.
(** Only blocks in [P] changed. *)
Record keeps (P : Z -> Prop) (d d' : S) : Prop := Keeps {
  ks_ok : dev_ok d'; ks_blk : forall k, inside k -> ~ P k -> blk d' k = blk d k;
}.

Lemma zlen_blk d k : zlen (blk d k) = bs.
Proof using Hbs. apply zlen_bytes_at. lia. Qed.
Lemma blk_bytes d k : dev_ok d -> inside k -> Forall is_byte (blk d k).
Proof using Hbs. intros Hd [H1 H2]. apply Forall_bytes_at. intros i Hi. apply (do_bytes _ Hd). lia. Qed.
Lemma bget_blk d k i : 0 <= i < bs -> bget (blk d k) i = store_at d (k * bs + i).
Proof using Hbs. intros. by apply bget_bytes_at. Qed.

Lemma keeps_refl P d : dev_ok d -> keeps P d d.
Proof. by split. Qed.
Lemma keeps_weaken (P Q : Z -> Prop) d d' : keeps P d d' -> (forall k, inside k -> P k -> Q k) -> keeps Q d d'.
Proof. intros [Hd Hk] HPQ. split; [done|]. intros k Hi Hq. apply Hk; [done|]. intros Hp. by apply Hq, HPQ. Qed.
Lemma keeps_trans P d d' d'' : keeps P d d' -> keeps P d' d'' -> keeps P d d''.
Proof. intros [_ H1] [Hd H2]. split; [done|]. intros k Hi Hp. rewrite H2 by done. by apply H1. Qed.

(** ** Transfers *)

Lemma pwrite_inv off b d d' :
  dev_ok d -> Forall is_byte b -> 0 <= off -> zlen b <= UINT32_MAX -> pwrite_bytes_at off b d = (Done tt, d') ->
  off + zlen b <= sz /\ dev_ok d' /\ forall i, 0 <= i < sz -> store_at d' i = patch (store_at d) off b i.
Proof using HL.
  intros [Ho Hw Hz Hb] Hbb Hoff Hn E. unfold pwrite_bytes_at in E. destruct (Z.ltb_spec (store_size d) (off + zlen b)).
  { rewrite store_write_out in E by (auto; lia). done. }
  destruct (store_write_in d off b) as (d1 & E1 & Ho1 & Hz1 & Hw1 & Ha1); try done. rewrite E in E1. injection E1 as <-.
  split; [lia|]. rewrite Hz in *. split; [split; try done|done]. intros i Hi. rewrite Ha1 by done. unfold patch. case_match; [by apply is_byte_bget|by apply Hb].
Qed.
Lemma pwrite_block_inv k b d d' :
  dev_ok d -> Forall is_byte b -> 0 <= k -> zlen b = bs -> pwrite_block bs k b d = (Done tt, d') ->
  inside k /\ keeps (eq k) d d' /\ blk d' k = b.
Proof using Hbs HL.
  intros Hd Hb Hk Hl E. destruct (pwrite_inv (k * bs) b d d' Hd Hb ltac:(nia) ltac:(ulia) E) as (Hin & Hd' & Ha).
  assert (inside k) as Hi by (split; lia). split; [done|]. split.
  - split; [done|]. intros j [Hj1 Hj2] Hne. apply bytes_at_ext. intros i Hii. rewrite Ha by lia. apply patch_out. rewrite Hl. nia.
  - apply bytes_at_eq; [done|]. intros i Hii. rewrite Ha by lia. rewrite patch_in by lia. f_equal. lia.
Qed.
Lemma pread_block_inv k b d d' : dev_ok d -> 0 <= k -> pread_block bs k bs d = (Done b, d') -> d' = d /\ inside k /\ b = blk d k.
Proof using Hbs HL.
  intros [Ho Hw Hz Hb] Hk E. unfold pread_block, pread_bytes_at in E. destruct (Z.ltb_spec (store_size d) (k * bs + bs)).
  { rewrite store_read_out in E by first [done|ulia|nia]. done. }
  rewrite store_read_in in E by first [done|ulia|nia]. injection E as <- <-. split_and!; try done. split; lia.
Qed.
Lemma pread_block_ok k d : dev_ok d -> inside k -> pread_block bs k bs d = (Done (blk d k), d).
Proof using Hbs HL. intros [Ho Hw Hz Hb] [Hk1 Hk2]. apply store_read_in; first [done|ulia|nia]. Qed.
Lemma pread_bytes_ok off n d : dev_ok d -> 0 <= off -> 0 <= n <= UINT32_MAX -> off + n <= sz -> pread_bytes_at off n d = (Done (bytes_at (store_at d) off n), d).
Proof using HL. intros [Ho Hw Hz Hb] ???. apply store_read_in; first [done|lia]. Qed.

(** ** Data runs *)

Lemma write_pieces_inv fuel rc step abs b d d' :
  dev_ok d -> Forall is_byte b -> 0 <= abs -> 0 < step <= UINT32_MAX -> write_pieces fuel rc step abs b d = (Done tt, d') ->
  (b <> [] -> abs + zlen b <= sz) /\ dev_ok d' /\ forall i, 0 <= i < sz -> store_at d' i = patch (store_at d) abs b i.
Proof using HL.
  revert abs b d. induction fuel as [|fuel IH]; intros abs b d Hd Hb Ha Hst E.
  - destruct b; [|done]. injection E as <-. split_and!; [done|done|]. intros. by rewrite patch_nil.
  - destruct b as [|c b].
    { injection E as <-. split_and!; [done|done|]. intros. by rewrite patch_nil. }
    cbn [write_pieces] in E. set (l := c :: b) in *. apply bind_inv in E as ([] & d1 & E1 & E2).
    unfold fail_as in E1. destruct (pwrite_bytes_at abs (take (Z.to_nat step) l) d) as [[[]| |] d1'] eqn:E1'; try done. injection E1 as ->.
    assert (zlen (take (Z.to_nat step) l) <= step) as Ht by (unfold zlen; rewrite length_take; lia).
    apply pwrite_inv in E1' as (Hi1 & Hd1 & Ha1); [|done|by apply Forall_take|lia|lia].
    destruct (decide (drop (Z.to_nat step) l = [])) as [Hn|Hn].
    + rewrite Hn in E2. assert (take (Z.to_nat step) l = l) as Htl by (rewrite <- (take_drop (Z.to_nat step) l) at 2; by rewrite Hn, app_nil_r).
      rewrite Htl in *. destruct fuel; injection E2 as <-; done.
    + assert (zlen (take (Z.to_nat step) l) = step) as Hts.
      { apply zlen_take. split; [lia|]. destruct (Z.le_gt_cases step (zlen l)); [done|]. exfalso. apply Hn, drop_ge. unfold zlen in *. lia. }
      apply (IH (abs + step)) in E2 as (Hi2 & Hd2 & Ha2); [|done|by apply Forall_drop|lia|done].
      assert (zlen l = step + zlen (drop (Z.to_nat step) l)) as Hzl by (rewrite <- (take_drop (Z.to_nat step) l) at 1; rewrite zlen_app; lia).
      specialize (Hi2 Hn). split_and!; [lia|done|]. intros i Hi. rewrite Ha2 by done. rewrite (patch_ext _ (patch (store_at d) abs (take (Z.to_nat step) l))) by (intros; by apply Ha1).
      pose proof (patch_app (store_at d) abs (take (Z.to_nat step) l) (drop (Z.to_nat step) l) i) as P. rewrite Hts, take_drop in P. done.
Qed.

(** The [i]th block of [data], with zeros after its end. *)
Definition chunk (data : list Z) (i : Z) : list Z := let c := sub data (i * bs) bs in c ++ zrep (bs - zlen c) 0.

Lemma zlen_sub_max {A} (b : list A) off n : 0 <= n -> zlen (sub b off n) <= n.
Proof using. intros. unfold zlen, sub. rewrite length_take. lia. Qed.
Lemma zlen_chunk data i : zlen (chunk data i) = bs.
Proof using Hbs. unfold chunk. pose proof (zlen_sub_max data (i * bs) bs ltac:(lia)). rewrite zlen_app, zlen_zrep; lia. Qed.
Lemma bget_past l i : zlen l <= i -> bget l i = 0.
Proof using. intros. unfold bget. apply nth_overflow. unfold zlen in *. lia. Qed.
Lemma bget_chunk data i j : 0 <= i -> 0 <= j < bs -> bget (chunk data i) j = bget data (i * bs + j).
Proof using Hbs.
  intros Hi Hj. unfold chunk. set (c := sub data (i * bs) bs). destruct (Z.ltb_spec j (zlen c)).
  - rewrite bget_app_l by lia. unfold c. by rewrite bget_sub by nia.
  - rewrite bget_app_r by done. rewrite bget_zrep0. symmetry. apply bget_past.
    assert (zlen c = Z.min bs (Z.max 0 (zlen data - i * bs))) as E by (unfold c, sub, zlen; rewrite length_take, length_drop; nia). lia.
Qed.
Lemma chunk_drop data n i : 0 <= n -> 0 <= i -> chunk (drop (Z.to_nat (n * bs)) data) i = chunk data (n + i).
Proof using Hbs.
  intros. apply buf_ext; rewrite !zlen_chunk; [done|]. intros j Hj. rewrite !bget_chunk by lia. rewrite bget_drop by nia. f_equal. lia.
Qed.

Lemma write_run_inv m data block n d d' :
  m_block_size m = bs -> dev_ok d -> Forall is_byte data -> 0 <= block -> 0 < n -> write_run m data block n d = (Done tt, d') ->
  keeps (fun k => block <= k < block + n) d d' /\ forall j, 0 <= j < n -> inside (block + j) /\ blk d' (block + j) = chunk data j.
Proof using Hbs HL.
  intros Em Hd Hb Hblock Hn E. unfold write_run in E. rewrite Em in E. set (cap := n * bs) in *. set (act := take (Z.to_nat cap) data) in *.
  assert (0 <= zlen act <= cap) as Hact by (unfold act, zlen; rewrite length_take; lia).
  apply bind_inv in E as ([] & d1 & E1 & E2).
  apply write_pieces_inv in E1 as (Hi1 & Hd1 & Ha1); [|done|by apply Forall_take|nia|ulia].
  apply write_pieces_inv in E2 as (Hi2 & Hd2 & Ha2); [|done|apply zrep0_bytes|nia|ulia]. rewrite zlen_zrep in Hi2 by lia.
  set (all := act ++ zrep (cap - zlen act) 0). assert (zlen all = cap) as Hall by (unfold all; rewrite zlen_app, zlen_zrep; lia).
  assert (block * bs + cap <= sz) as Hin.
  { destruct (decide (zlen act = cap)) as [Ec|Ec].
    - rewrite <- Ec. apply Hi1. intros ->. change (zlen []) with 0 in Ec. nia.
    - assert (block * bs + zlen act + (cap - zlen act) <= sz); [|lia]. apply Hi2. intros Hz. apply (f_equal zlen) in Hz. rewrite zlen_zrep in Hz by lia. change (zlen []) with 0 in Hz. lia. }
  assert (forall i, 0 <= i < sz -> store_at d' i = patch (store_at d) (block * bs) all i) as Ha.
  { intros i Hi. rewrite Ha2 by done. rewrite (patch_ext _ (patch (store_at d) (block * bs) act)) by (intros; by apply Ha1). by rewrite patch_app. }
  split.
  - split; [done|]. intros k [Hk1 Hk2] Hk. apply bytes_at_ext. intros i Hi. rewrite Ha by lia. apply patch_out. rewrite Hall. unfold cap. nia.
  - intros j Hj. split; [split; unfold cap in *; nia|]. apply bytes_at_eq; [apply zlen_chunk|]. intros i Hi. rewrite Ha by (unfold cap in *; nia).
    rewrite patch_in by (rewrite Hall; unfold cap; nia). rewrite bget_chunk by lia. replace ((block + j) * bs + i - block * bs) with (j * bs + i) by lia.
    unfold all. destruct (Z.ltb_spec (j * bs + i) (zlen act)).
    + rewrite bget_app_l by nia. unfold act. apply bget_take. unfold cap. nia.
    + rewrite bget_app_r by nia. rewrite bget_zrep0. symmetry. apply bget_past.
      assert (zlen act = Z.min cap (zlen data)) by (unfold act, zlen; rewrite length_take; lia). unfold cap in *. nia.
Qed.

Lemma run_after_spec b bl : Forall (fun c => 0 <= c < 2 ^ 32 - 1) (b :: bl) -> take (run_after b bl) bl = seqZ (b + 1) (Z.of_nat (run_after b bl)) /\ (run_after b bl <= length bl)%nat.
Proof using.
  revert b. induction bl as [|c bl IH]; intros b Hf; cbn [run_after]; [done|]. apply Forall_cons in Hf as [Hb Hf].
  destruct (Z.eqb_spec c (u32 (b + 1))) as [Hc|Hc]; [|split; [done|simpl; lia]]. rewrite u32_id in Hc by lia. destruct (IH c Hf) as [E1 E2].
  split; [|simpl; lia]. rewrite Nat2Z.inj_succ. rewrite seqZ_cons by lia. cbn [take]. rewrite E1. subst c. do 2 f_equal; lia.
Qed.

Lemma write_runs_inv fuel m data bl d d' :
  m_block_size m = bs -> dev_ok d -> Forall is_byte data -> NoDup bl -> Forall (fun c => 0 <= c < 2 ^ 32 - 1) bl -> write_runs fuel m data bl d = (Done tt, d') ->
  keeps (fun k => k ∈ bl) d d' /\ forall i b, bl !! i = Some b -> inside b /\ blk d' b = chunk data (Z.of_nat i).
Proof using Hbs HL.
  intros Em. revert data bl d. induction fuel as [|fuel IH]; intros data bl d Hd Hb Hnd Hf E.
  { destruct bl; [|done]. injection E as <-. split; [by apply keeps_refl|done]. }
  destruct bl as [|b rest]; [injection E as <-; split; [by apply keeps_refl|done]|].
  cbn [write_runs] in E. destruct (run_after_spec b rest Hf) as [Ht Hl]. set (r := run_after b rest) in *. set (n := Datatypes.S r) in *.
  apply bind_inv in E as ([] & d1 & E1 & E2). pose proof (Forall_inv Hf) as Hb0. cbv beta in Hb0.
  apply write_run_inv in E1 as [K1 B1]; [|done..|lia|lia].
  assert (b :: rest = seqZ b (Z.of_nat n) ++ drop n (b :: rest)) as Hsplit.
  { rewrite <- (take_drop n (b :: rest)) at 1. f_equal. unfold n. cbn [take]. rewrite Ht, (seqZ_cons b) by lia. f_equal. f_equal; lia. }
  rewrite Hsplit in Hnd, Hf. apply NoDup_app in Hnd as (_ & Hdis & Hnd). apply Forall_app in Hf as [_ Hf].
  rewrite Em in E2. apply IH in E2 as [K2 B2]; [|apply K1|by apply Forall_drop|done|done].
  split.
  - eapply keeps_trans; (eapply keeps_weaken; [eassumption|]).
    + intros k _ Hk. cbv beta in Hk. rewrite Hsplit. apply elem_of_app. left. apply elem_of_seqZ. lia.
    + intros k _ Hk. cbv beta in Hk. rewrite Hsplit. apply elem_of_app. by right.
  - intros i c Hc. rewrite Hsplit in Hc. destruct (decide (i < n)%nat).
    + rewrite lookup_app_l in Hc by (rewrite length_seqZ; lia). apply lookup_seqZ in Hc as [-> Hi]. destruct (B1 (Z.of_nat i) ltac:(lia)) as [Hin Hbk]. split; [done|].
      rewrite (ks_blk _ _ _ K2); [done|done|]. apply Hdis, elem_of_seqZ. lia.
    + rewrite lookup_app_r in Hc by (rewrite length_seqZ; lia). rewrite length_seqZ, Nat2Z.id in Hc. destruct (B2 _ _ Hc) as [Hin Hbk]. split; [done|].
      rewrite Hbk, chunk_drop by lia. f_equal. lia.
Qed.
End blocks.
