(* ===== verification/Ext2Layout.v ===== *)
(** * Ext2Layout: where an EXT2 file system keeps its metadata

    The geometry that the superblock and the descriptors fix ([geo]), the
    metadata blocks by their role, and what loading, storing and the inode
    table do in terms of blocks.  Only free counts change while a file system
    is used; the geometry does not. *)
From S2P Require Import Prelude Text Store Ext2 Ext2Alloc Ext2Block.
#[local] Open Scope Z_scope.

(** What never changes in the metadata. *)
Record geo : Type := Geo {
  g_bs : Z; g_blocks : Z; g_bpg : Z; g_ipg : Z; g_inodes : Z; g_first : Z; g_isize : Z; g_groups : Z; g_gdt : Z; g_gdtn : Z;
  g_bb : list Z; g_ib : list Z; g_it : list Z;
}.
Definition geo_of (m : ext2_meta) : geo :=
  Geo (m_block_size m) (s_blocks_count (m_sb m)) (s_blocks_per_group (m_sb m)) (s_inodes_per_group (m_sb m)) (s_inodes_count (m_sb m))
    (s_first_ino (m_sb m)) (s_inode_size (m_sb m)) (m_group_count m) (m_gdt_blk m) (m_gdt_blocks m)
    (bg_block_bitmap (m_gd m) <$> seqZ 0 (m_group_count m)) (bg_inode_bitmap (m_gd m) <$> seqZ 0 (m_group_count m))
    (bg_inode_table (m_gd m) <$> seqZ 0 (m_group_count m)).

(** The metadata blocks. *)
Inductive role : Type := RSuper | RGdt (k : Z) | RBb (g : Z) | RIb (g : Z) | RIt (g t : Z).

Section layout.
Context (G : geo) (sz : Z).
Local Abbreviation bs := (g_bs G).

(** Inodes in a block of the inode table, and blocks of a table. *)
Definition per : Z := bs / g_isize G.
Definition itn : Z := (g_ipg G + per - 1) / per.
(** Descriptors in a block. *)
Definition gper : Z := bs / 32.

Definition loc (r : role) : Z :=
  match r with
  | RSuper => 1024 / bs
  | RGdt k => g_gdt G + k
  | RBb g => bget (g_bb G) g
  | RIb g => bget (g_ib G) g
  | RIt g t => bget (g_it G) g + t
  end.
Definition valid (r : role) : Prop :=
  match r with
  | RSuper => True
  | RGdt k => 0 <= k < g_gdtn G
  | RBb g | RIb g => 0 <= g < g_groups G
  | RIt g t => 0 <= g < g_groups G /\ 0 <= t < itn
  end.

Record geo_ok : Prop := GeoOk {
  go_bs : bs = 1024 \/ bs = 2048 \/ bs = 4096;
  go_blocks : 0 < g_blocks G < 2 ^ 32; go_size : g_blocks G * bs <= sz;
  go_bpg : 0 < g_bpg G <= 8 * bs; go_ipg : 0 < g_ipg G <= 8 * bs;
  go_groups : 0 < g_groups G <= EXT2_MAX_GROUPS; go_last : (g_groups G - 1) * g_bpg G < g_blocks G <= g_groups G * g_bpg G;
  go_isize : 128 <= g_isize G <= bs; go_inodes : 0 < g_inodes G <= g_groups G * g_ipg G;
  go_gdt : g_gdt G = 1024 / bs + 1; go_gdtn : g_gdtn G = (g_groups G + gper - 1) / gper;
  go_inj : forall r1 r2, valid r1 -> valid r2 -> loc r1 = loc r2 -> r1 = r2; go_locs : forall r, valid r -> 0 <= loc r < g_blocks G;
}.

Context (HG : geo_ok).

Lemma bs_pos : 0 < bs <= 4096.
Proof using HG. destruct (go_bs HG) as [->|[->| ->]]; lia. Qed.
Lemma loc_inj r1 r2 : valid r1 -> valid r2 -> loc r1 = loc r2 -> r1 = r2.
Proof using HG. apply (go_inj HG). Qed.
Lemma loc_range r : valid r -> 0 <= loc r < g_blocks G.
Proof using HG. apply (go_locs HG). Qed.
Lemma block_inside k : 0 <= k < g_blocks G -> inside bs sz k.
Proof using HG. pose proof (go_size HG). pose proof bs_pos. split; [lia|nia]. Qed.
Lemma loc_inside r : valid r -> inside bs sz (loc r).
Proof using HG. intros. by apply block_inside, loc_range. Qed.
Lemma per_pos : 0 < per.
Proof using HG. unfold per. pose proof (go_isize HG). apply Z.div_str_pos. lia. Qed.
Lemma gper_32 : gper * 32 = bs.
Proof using HG. unfold gper. destruct (go_bs HG) as [->|[->| ->]]; reflexivity. Qed.

(** ** Inode numbers *)

Definition ino_ok (ino : Z) : Prop := 1 <= ino <= g_inodes G.
Definition ino_group (ino : Z) : Z := (ino - 1) / g_ipg G.
Definition ino_local (ino : Z) : Z := (ino - 1) mod g_ipg G.
Definition ino_role (ino : Z) : role := RIt (ino_group ino) (ino_local ino / per).
Definition iblk (ino : Z) : Z := loc (ino_role ino).
Definition ioff (ino : Z) : Z := ino_local ino mod per * g_isize G.

Lemma ino_group_range ino : ino_ok ino -> 0 <= ino_group ino < g_groups G /\ 0 <= ino_local ino < g_ipg G.
Proof using HG.
  unfold ino_ok, ino_group, ino_local. intros. pose proof (go_inodes HG). pose proof (go_ipg HG). split; [split; [apply Z.div_pos; lia|apply Z.div_lt_upper_bound; nia]|apply Z.mod_pos_bound; lia].
Qed.
Lemma ino_role_valid ino : ino_ok ino -> valid (ino_role ino).
Proof using HG.
  intros H. destruct (ino_group_range ino H) as [Hg Hl]. pose proof per_pos. split; [done|]. unfold itn. split; [apply Z.div_pos; lia|].
  apply Z.div_lt_upper_bound; [done|]. pose proof (Z.div_mod (g_ipg G + per - 1) per ltac:(lia)). pose proof (Z.mod_pos_bound (g_ipg G + per - 1) per ltac:(lia)). lia.
Qed.
Lemma ioff_range ino : 0 <= ioff ino /\ ioff ino + 128 <= bs.
Proof using HG.
  pose proof per_pos. pose proof (go_isize HG). unfold ioff. pose proof (Z.mod_pos_bound (ino_local ino) per ltac:(lia)).
  assert (per * g_isize G <= bs) by (unfold per; pose proof (Z.mul_div_le bs (g_isize G) ltac:(lia)); lia). nia.
Qed.
(** Two inodes share no byte of the table. *)
Lemma ino_apart a b : ino_ok a -> ino_ok b -> a <> b -> iblk a = iblk b -> ioff a + 128 <= ioff b \/ ioff b + 128 <= ioff a.
Proof using HG.
  intros Ha Hb Hne E. apply loc_inj in E; [|by apply ino_role_valid..]. injection E as Eg El. pose proof per_pos. pose proof (go_isize HG).
  unfold ioff. assert (ino_local a mod per <> ino_local b mod per); [|nia]. intros Em. apply Hne.
  pose proof (Z.div_mod (ino_local a) per ltac:(lia)). pose proof (Z.div_mod (ino_local b) per ltac:(lia)).
  pose proof (go_ipg HG). unfold ino_group, ino_local in *. pose proof (Z.div_mod (a - 1) (g_ipg G) ltac:(lia)). pose proof (Z.div_mod (b - 1) (g_ipg G) ltac:(lia)). nia.
Qed.
End layout.

(** ** The metadata in memory *)

Record mem_ok (G : geo) (m : ext2_meta) : Prop := MemOk {
  mk_meta : m = with_gd (fun _ => m_gd m) (meta_of (m_sb m)); mk_geo : geo_of m = G; mk_magic : s_magic (m_sb m) = 0xEF53;
  mk_sb : zlen (m_sb m) = SB_SIZE; mk_sb_bytes : Forall is_byte (m_sb m);
  mk_gd : zlen (m_gd m) = g_groups G * GD_SIZE; mk_gd_bytes : Forall is_byte (m_gd m);
}.

Section mem.
Context (G : geo) (m : ext2_meta) (Hm : mem_ok G m).

Lemma mk_bs : m_block_size m = g_bs G. Proof using Hm. by rewrite <- (mk_geo _ _ Hm). Qed.
Lemma mk_blocks : s_blocks_count (m_sb m) = g_blocks G. Proof using Hm. by rewrite <- (mk_geo _ _ Hm). Qed.
Lemma mk_bpg : s_blocks_per_group (m_sb m) = g_bpg G. Proof using Hm. by rewrite <- (mk_geo _ _ Hm). Qed.
Lemma mk_ipg : s_inodes_per_group (m_sb m) = g_ipg G. Proof using Hm. by rewrite <- (mk_geo _ _ Hm). Qed.
Lemma mk_inodes : s_inodes_count (m_sb m) = g_inodes G. Proof using Hm. by rewrite <- (mk_geo _ _ Hm). Qed.
Lemma mk_isize : s_inode_size (m_sb m) = g_isize G. Proof using Hm. by rewrite <- (mk_geo _ _ Hm). Qed.
Lemma mk_groups : m_group_count m = g_groups G. Proof using Hm. by rewrite <- (mk_geo _ _ Hm). Qed.
Lemma mk_gdt : m_gdt_blk m = g_gdt G. Proof using Hm. by rewrite <- (mk_geo _ _ Hm). Qed.
Lemma mk_gdtn : m_gdt_blocks m = g_gdtn G. Proof using Hm. by rewrite <- (mk_geo _ _ Hm). Qed.
Lemma bget_fmap_seqZ (f : Z -> Z) n i : 0 <= i < n -> bget (f <$> seqZ 0 n) i = f i.
Proof using. intros. change (f <$> seqZ 0 n) with (bytes_at f 0 n). by rewrite bget_bytes_at by lia. Qed.
Lemma mk_bb g : 0 <= g < g_groups G -> bg_block_bitmap (m_gd m) g = loc G (RBb g).
Proof using Hm. intros. cbn [loc]. rewrite <- (mk_geo _ _ Hm). cbn [g_bb geo_of]. rewrite bget_fmap_seqZ; [done|]. by rewrite mk_groups. Qed.
Lemma mk_ib g : 0 <= g < g_groups G -> bg_inode_bitmap (m_gd m) g = loc G (RIb g).
Proof using Hm. intros. cbn [loc]. rewrite <- (mk_geo _ _ Hm). cbn [g_ib geo_of]. rewrite bget_fmap_seqZ; [done|]. by rewrite mk_groups. Qed.
Lemma mk_it g : 0 <= g < g_groups G -> bg_inode_table (m_gd m) g = bget (g_it G) g.
Proof using Hm. intros. rewrite <- (mk_geo _ _ Hm). cbn [g_it geo_of]. rewrite bget_fmap_seqZ; [done|]. by rewrite mk_groups. Qed.
End mem.

(** Free counts are not geometry. *)
Lemma mem_ok_sb G m off v : mem_ok G m -> off = 12 \/ off = 16 -> mem_ok G (with_sb (fun sb => splice sb off (put32 v)) m).
Proof.
  intros [Hmeta Hgeo Hmg Hsb Hsbb Hgd Hgdb] Hoff. destruct m as [sb gd gc b1 b2 b3 b4 b5]. cbn [with_sb m_sb m_gd] in *. set (sb' := splice sb off (put32 v)).
  assert (forall p, 0 <= p -> p + 4 <= 12 \/ 20 <= p -> p + 4 <= SB_SIZE -> le32 sb' p = le32 sb p) as E32.
  { intros p Hp Hr Hl. unfold sb'. apply le32_splice_out; rewrite ?zlen_put32; unfold SB_SIZE in *; lia. }
  assert (forall p, 0 <= p -> p + 2 <= 12 \/ 20 <= p -> p + 2 <= SB_SIZE -> le16 sb' p = le16 sb p) as E16.
  { intros p Hp Hr Hl. unfold sb'. apply le16_splice_out; rewrite ?zlen_put32; unfold SB_SIZE in *; lia. }
  assert (meta_of sb' = with_sb (fun _ => sb') (meta_of sb)) as Em.
  { unfold meta_of, with_sb, block_size_of, s_blocks_count, s_blocks_per_group, s_inodes_per_group, s_inode_size, s_log_block_size. cbn [m_sb m_gd m_group_count m_block_size m_sb_blk m_gdt_blk m_gdt_blocks m_inode_tbl_blocks].
    by rewrite !E32, !E16 by (unfold SB_SIZE; lia). }
  split; cbn [with_sb m_sb m_gd]; fold sb'; [..|done|done].
  - rewrite Em. injection Hmeta as -> -> -> -> -> ->. done.
  - rewrite <- Hgeo. unfold geo_of. cbn [m_sb m_gd m_group_count m_block_size m_sb_blk m_gdt_blk m_gdt_blocks m_inode_tbl_blocks with_sb].
    unfold s_blocks_count, s_blocks_per_group, s_inodes_per_group, s_inode_size, s_inodes_count, s_first_ino. by rewrite !E32, !E16 by (unfold SB_SIZE; lia).
  - unfold s_magic in *. by rewrite E16 by (unfold SB_SIZE; lia).
  - apply zlen_splice_n; rewrite ?zlen_put32; unfold SB_SIZE in *; lia.
  - apply splice_bytes; [done|apply put32_bytes].
Qed.
Lemma put16_bytes v : Forall is_byte (put16 v).
Proof. repeat constructor; apply u8_range. Qed.
Lemma mem_ok_gd G m off g v : mem_ok G m -> 12 <= off <= 30 -> 0 <= g -> mem_ok G (with_gd (set_bg16 off g v) m).
Proof.
  intros [Hmeta Hgeo Hmg Hsb Hsbb Hgd Hgdb] Hoff Hg. destruct m as [sb gd gc b1 b2 b3 b4 b5]. cbn [with_gd m_sb m_gd] in *. set (gd' := set_bg16 off g v gd).
  assert (zlen gd' = zlen gd) as Hl by (unfold gd', set_bg16, GD_SIZE; case_match eqn:E; [|done]; apply Z.leb_le in E; apply zlen_splice; rewrite ?zlen_put16; lia).
  assert (gc = g_groups G) as Egc by (rewrite <- Hgeo; done).
  assert (forall p k, 0 <= p < gc -> 0 <= k <= 8 -> le32 gd' (p * GD_SIZE + k) = le32 gd (p * GD_SIZE + k)) as E32.
  { intros p k Hp Hk. unfold gd', set_bg16, GD_SIZE in *. case_match eqn:E; [|done]. apply Z.leb_le in E. apply le32_splice_out; rewrite ?zlen_put16; lia. }
  split; cbn [with_gd m_sb m_gd]; fold gd'; [..|done|done|done| |].
  - injection Hmeta as -> -> -> -> -> ->. done.
  - rewrite <- Hgeo. unfold geo_of. cbn [m_sb m_gd m_group_count m_block_size m_sb_blk m_gdt_blk m_gdt_blocks m_inode_tbl_blocks with_gd].
    f_equal; apply list_fmap_ext; intros i p Hp%lookup_seqZ; unfold bg_block_bitmap, bg_inode_bitmap, bg_inode_table.
    + rewrite <- (Z.add_0_r (p * GD_SIZE)). apply E32; lia.
    + apply E32; lia.
    + apply E32; lia.
  - by rewrite Hl.
  - unfold gd', set_bg16. case_match; [|done]. apply splice_bytes; [done|apply put16_bytes].
Qed.
Lemma mem_ok_take_block G m g : mem_ok G m -> 0 <= g -> mem_ok G (take_block g m).
Proof. intros Hm Hg. unfold take_block, set_bg_free_blocks_count. apply (mem_ok_sb _ _ 12 (u32 _)); [|lia]. by apply mem_ok_gd; [|lia|]. Qed.
