(* ===== verification/Ext2Meta.v ===== *)
(** * Ext2Meta: EXT2 metadata and inodes on the device

    Storing the metadata and loading it again gives the same metadata, and an
    inode written is the inode read; both touch the metadata blocks only. *)
From S2P Require Import Prelude Text Store Ext2 Ext2Alloc Ext2Block Ext2Layout.
#[local] Open Scope Z_scope.

Lemma fail_as_inv {St A} rc (c : comp St A) s a s' : fail_as rc c s = (Done a, s') -> c s = (Done a, s').
Proof. unfold fail_as. by destruct (c s) as [[]?]. Qed.

Section meta.
Context {S : Type} {HS : ByteStore S} {HL : ByteStoreLaws S} (G : geo) (sz : Z) (HG : geo_ok G sz).
Local Abbreviation bs := (g_bs G).
Local Abbreviation ok := (dev_ok sz).
Local Abbreviation keep := (keeps bs sz).
Local Abbreviation block := (blk bs).

(** The superblock and the [k]th part of the descriptors on the device. *)
Definition disk_sb (d : S) : list Z := sub (block d (loc G RSuper)) (1024 mod bs) SB_SIZE.
Definition gdn (k : Z) : Z := Z.min (g_groups G - k * gper G) (gper G).
Definition disk_meta (d : S) (m : ext2_meta) : Prop :=
  disk_sb d = m_sb m /\ forall k, 0 <= k < g_gdtn G -> sub (block d (loc G (RGdt k))) 0 (gdn k * 32) = sub (m_gd m) (k * gper G * 32) (gdn k * 32).

Lemma super_pos : 1024 = loc G RSuper * bs + 1024 mod bs /\ 0 <= 1024 mod bs /\ 1024 mod bs + SB_SIZE <= bs.
Proof using HG. cbn [loc]. destruct (go_bs _ _ HG) as [->|[->| ->]]; vm_compute; intuition congruence. Qed.
Lemma gdn_range k : 0 <= k < g_gdtn G -> 0 < gdn k <= gper G /\ k * gper G + gdn k <= g_groups G.
Proof using HG.
  intros Hk. rewrite (go_gdtn _ _ HG) in Hk. pose proof (gper_32 _ _ HG). pose proof (bs_pos _ _ HG). unfold gdn.
  assert (0 < gper G) by lia. assert (k * gper G < g_groups G) by (pose proof (Z.mul_div_le (g_groups G + gper G - 1) (gper G) ltac:(lia)); nia). lia.
Qed.
Lemma gdt_cover : g_groups G <= g_gdtn G * gper G.
Proof using HG.
  rewrite (go_gdtn _ _ HG). pose proof (gper_32 _ _ HG). pose proof (bs_pos _ _ HG).
  pose proof (Z.div_mod (g_groups G + gper G - 1) (gper G) ltac:(lia)). pose proof (Z.mod_pos_bound (g_groups G + gper G - 1) (gper G) ltac:(lia)). lia.
Qed.
Lemma gdtn_pos : 0 < g_gdtn G <= 1024.
Proof using HG.
  rewrite (go_gdtn _ _ HG). pose proof (gper_32 _ _ HG). pose proof (bs_pos _ _ HG). destruct (go_groups _ _ HG) as [? Hmx]. change EXT2_MAX_GROUPS with 1024 in Hmx.
  split; [apply Z.div_str_pos; lia|]. etransitivity; [apply Z.div_le_mono with (b := 1024 + gper G - 1); lia|]. apply Z.div_le_upper_bound; [lia|nia].
Qed.
Lemma gd_consts m k : mem_ok G m -> gd_per m = gper G /\ gd_count m k = gdn k.
Proof using. intros Hm. unfold gd_per, gd_count, gd_per, gdn, gper, GD_SIZE. by rewrite (mk_bs _ _ Hm), (mk_groups _ _ Hm). Qed.
Lemma loc_small r : valid G r -> 0 <= loc G r < 2 ^ 32.
Proof using HG. intros. pose proof (loc_range _ _ HG r ltac:(done)). pose proof (go_blocks _ _ HG). lia. Qed.
Lemma blk_sub_bytes d k o n : ok d -> 0 <= o -> 0 <= n -> o + n <= bs -> bytes_at (store_at d) (k * bs + o) n = sub (block d k) o n.
Proof using HG.
  intros. pose proof (bs_pos _ _ HG). apply bytes_at_eq; [by rewrite zlen_sub by (rewrite ?zlen_blk; lia)|]. intros i Hi.
  rewrite bget_sub by lia. rewrite bget_blk by lia. f_equal. lia.
Qed.

(** ** Storing *)

Lemma store_gdt_inv n k m d d' :
  mem_ok G m -> ok d -> 0 <= k -> k + Z.of_nat n <= g_gdtn G -> store_gdt n k m d = (Done tt, d') ->
  keep (fun b => exists j, k <= j < k + Z.of_nat n /\ b = loc G (RGdt j)) d d' /\
  forall j, k <= j < k + Z.of_nat n -> sub (block d' (loc G (RGdt j))) 0 (gdn j * 32) = sub (m_gd m) (j * gper G * 32) (gdn j * 32).
Proof using HL HG.
  intros Hm. pose proof (bs_pos _ _ HG) as Hbs. pose proof (gper_32 _ _ HG) as Hg32. revert k d. induction n as [|n IH]; intros k d Hd Hk Hn E; cbn [store_gdt] in E.
  { injection E as <-. split; [by apply keeps_refl|]. intros. lia. }
  apply bind_inv in E as ([] & d1 & E1 & E2). apply fail_as_inv in E1. destruct (gd_consts m k Hm) as [Ep Ec]. rewrite Ep, Ec, (mk_bs _ _ Hm), (mk_gdt _ _ Hm) in E1.
  change GD_SIZE with 32 in E1. set (b := sub (m_gd m) (k * gper G * 32) (gdn k * 32)) in *.
  pose proof (gdn_range k ltac:(lia)) as [Hr1 Hr2]. assert (zlen b = gdn k * 32) as Hb by (apply zlen_sub; rewrite ?(mk_gd _ _ Hm); unfold GD_SIZE; nia).
  assert (valid G (RGdt k)) as Hv by (cbn [valid]; lia). pose proof (loc_small _ Hv) as Hsm. cbn [loc] in Hsm. rewrite u32_id in E1 by lia. change (g_gdt G + k) with (loc G (RGdt k)) in E1.
  apply (pwrite_block_inv bs sz Hbs) in E1 as (_ & K1 & B1); [|done| |cbn [loc]; lia|rewrite zlen_app, zlen_zrep by lia; lia].
  2: { apply Forall_app_2; [|apply zrep0_bytes]. unfold b, sub. apply Forall_take, Forall_drop, (mk_gd_bytes _ _ Hm). }
  apply IH in E2 as [K2 B2]; [|apply K1|lia|lia]. split.
  - eapply keeps_trans; (eapply keeps_weaken; [eassumption|]).
    + intros x _ <-. exists k. split; [lia|done].
    + intros x _ (j & Hj & ->). exists j. split; [lia|done].
  - intros j Hj. destruct (decide (j = k)) as [->|Hne]; [|apply B2; lia].
    rewrite (ks_blk _ _ _ _ _ K2), B1; [|by apply (loc_inside _ _ HG)|].
    + unfold sub at 1. change (Z.to_nat 0) with O. rewrite drop_0. rewrite <- Hb. rewrite take_app_le by (unfold zlen; lia). rewrite take_ge by (unfold zlen; lia). by rewrite Hb.
    + intros (j & Hj' & E). apply (loc_inj _ _ HG (RGdt k) (RGdt j)) in E; [injection E; lia|done|cbn [valid]; lia].
Qed.
Definition meta_block (b : Z) : Prop := exists r, valid G r /\ b = loc G r.

Lemma store_meta_inv m d d' :
  mem_ok G m -> ok d -> ext2_store_meta m d = (Done tt, d') ->
  keep (fun b => b = loc G RSuper \/ exists j, 0 <= j < g_gdtn G /\ b = loc G (RGdt j)) d d' /\ disk_meta d' m.
Proof using HL HG.
  intros Hm Hd E. pose proof (bs_pos _ _ HG) as Hbs. destruct super_pos as (Hs1 & Hs2 & Hs3). unfold ext2_store_meta in E. apply bind_inv in E as ([] & d1 & E1 & E2). apply fail_as_inv in E1.
  pose proof (mk_sb _ _ Hm) as Hsb. apply (pwrite_inv sz) in E1 as (Hi & Hd1 & Ha1); [|done|apply (mk_sb_bytes _ _ Hm)|lia|rewrite Hsb; unfold SB_SIZE; ulia].
  assert (valid G RSuper) as Hv by done. pose proof (loc_inside _ _ HG _ Hv) as [Hin1 Hin2].
  assert (disk_sb d1 = m_sb m) as Hsb1.
  { unfold disk_sb. rewrite <- blk_sub_bytes by (done || unfold SB_SIZE; lia). rewrite <- Hs1. apply bytes_at_eq; [done|]. intros i Hi2. rewrite Ha1 by lia. rewrite patch_in by lia. f_equal. lia. }
  rewrite (mk_gdtn _ _ Hm) in E2. pose proof gdtn_pos as Hgp. apply store_gdt_inv in E2 as [K2 B2]; [|done|done|lia|lia]. rewrite Z2Nat.id in K2, B2 by lia. split.
  - eapply keeps_trans with d1; [|eapply keeps_weaken; [exact K2|]].
    + split; [done|]. intros k [Hk1 Hk2] Hne. apply bytes_at_ext. intros i Hii. rewrite Ha1 by lia. apply patch_out. rewrite Hsb. assert (k <> loc G RSuper) by (intros ->; apply Hne; by left). nia.
    + intros x _ (j & Hj & ->). right. exists j. split; [lia|done].
  - split; [|intros k Hk; apply B2; lia]. unfold disk_sb. rewrite (ks_blk _ _ _ _ _ K2); [done|by apply (loc_inside _ _ HG)|].
    intros (j & Hj & E). apply (loc_inj _ _ HG RSuper (RGdt j)) in E; [done|done|cbn [valid]; lia].
Qed.

(** ** Loading *)

Lemma load_gdt_ok n k (M : ext2_meta) gd d :
  m_block_size M = bs -> m_group_count M = g_groups G -> m_gdt_blk M = g_gdt G -> m_gd M = take (Z.to_nat (k * gper G * 32)) gd ->
  zlen gd = g_groups G * 32 -> ok d -> 0 <= k -> k + Z.of_nat n <= g_gdtn G ->
  (forall j, k <= j < k + Z.of_nat n -> sub (block d (loc G (RGdt j))) 0 (gdn j * 32) = sub gd (j * gper G * 32) (gdn j * 32)) ->
  load_gdt n k M d = (Done (with_gd (fun _ => take (Z.to_nat ((k + Z.of_nat n) * gper G * 32)) gd) M), d).
Proof using HL HG.
  pose proof (bs_pos _ _ HG) as Hbs. pose proof (gper_32 _ _ HG) as Hg32. intros Eb Eg Et. revert k M Eb Eg Et. induction n as [|n IH]; intros k M Eb Eg Et Egd Hl Hd Hk Hn Hdisk; cbn [load_gdt].
  { destruct M. cbn in *. unfold ret, with_gd. cbn. rewrite Egd. by rewrite Z.add_0_r. }
  pose proof (gdn_range k ltac:(lia)) as [Hr1 Hr2]. assert (valid G (RGdt k)) as Hv by (cbn [valid]; lia). pose proof (loc_small _ Hv) as Hsm. cbn [loc] in Hsm.
  rewrite Eb, Et, u32_id by lia. change (g_gdt G + k) with (loc G (RGdt k)).
  rewrite (bind_done _ _ _ _ _ (fail_as_done _ _ _ _ _ (pread_block_ok bs sz Hbs _ d Hd (loc_inside _ _ HG _ Hv)))).
  assert (gd_count M k = gdn k) as Ec by (unfold gd_count, gd_per, gdn, gper, GD_SIZE; by rewrite Eb, Eg).
  assert (take (Z.to_nat (gd_count M k * GD_SIZE)) (block d (loc G (RGdt k))) = sub gd (k * gper G * 32) (gdn k * 32)) as Etk by (rewrite Ec; change GD_SIZE with 32; apply (Hdisk k); lia).
  rewrite Etk. rewrite IH; cbn [m_block_size m_group_count m_gdt_blk m_gd with_gd]; try done; try lia.
  - unfold with_gd. cbn. do 4 f_equal; lia.
  - rewrite Egd. unfold sub. rewrite take_take_drop. destruct (decide (gdn k = gper G)) as [E|E].
    + f_equal. nia.
    + assert (k * gper G + gdn k = g_groups G) by (unfold gdn in *; lia). rewrite !take_ge; [done|unfold zlen in *; nia|unfold zlen in *; nia].
  - intros j Hj. apply Hdisk. lia.
Qed.
Lemma load_meta_ok m d : mem_ok G m -> ok d -> disk_meta d m -> ext2_load_meta d = (Done m, d).
Proof using HL HG.
  intros Hm Hd [Dsb Dgd]. pose proof (bs_pos _ _ HG) as Hbs. destruct super_pos as (Hs1 & Hs2 & Hs3). unfold ext2_load_meta.
  assert (inside bs sz (loc G RSuper)) as [Hi1 Hi2] by by apply (loc_inside _ _ HG).
  rewrite (bind_done _ _ d (m_sb m) d).
  2: { apply fail_as_done. rewrite (pread_bytes_ok sz) by (done || unfold SB_SIZE in *; ulia || lia). rewrite Hs1, blk_sub_bytes by (done || unfold SB_SIZE; lia). by rewrite <- Dsb. }
  pose proof (mk_meta _ _ Hm) as Em. assert (block_size_of (m_sb m) = bs) as Ebs by (rewrite <- (mk_bs _ _ Hm); by rewrite Em).
  rewrite require_true by (by rewrite (mk_magic _ _ Hm)). rewrite Ebs. rewrite require_true by (apply negb_true_iff, orb_false_iff; lia).
  rewrite (mk_bpg _ _ Hm), (mk_ipg _ _ Hm). pose proof (go_bpg _ _ HG). pose proof (go_ipg _ _ HG). pose proof (go_isize _ _ HG).
  rewrite require_true by (apply negb_true_iff, orb_false_iff; lia). rewrite (mk_isize _ _ Hm). rewrite (proj2 (Z.eqb_neq (g_isize G) 0)) by lia. cbv zeta.
  assert (m_group_count (meta_of (m_sb m)) = g_groups G) as Egc by (rewrite <- (mk_groups _ _ Hm); by rewrite Em).
  assert (m_gdt_blocks (meta_of (m_sb m)) = g_gdtn G) as Egn by (rewrite <- (mk_gdtn _ _ Hm); by rewrite Em).
  assert (m_gdt_blk (meta_of (m_sb m)) = g_gdt G) as Egd by (rewrite <- (mk_gdt _ _ Hm); by rewrite Em).
  pose proof (go_groups _ _ HG). rewrite Egc. rewrite require_true by (apply negb_true_iff, orb_false_iff; lia). rewrite Egn.
  pose proof gdtn_pos. rewrite (load_gdt_ok _ 0 _ (m_gd m)); try done; try lia.
  - rewrite take_ge; [by rewrite <- Em|]. pose proof gdt_cover. pose proof (mk_gd _ _ Hm). unfold zlen, GD_SIZE in *. nia.
  - apply (mk_gd _ _ Hm).
  - intros j Hj. apply Dgd. lia.
Qed.

(** ** Inodes *)

Definition inode_at (d : S) (ino : Z) : list Z := sub (block d (iblk G ino)) (ioff G ino) INODE_SIZE.

Lemma inode_block_ok m ino : mem_ok G m -> ino_ok G ino -> inode_block m ino = iblk G ino /\ inode_off m ino = ioff G ino.
Proof using HG.
  intros Hm Hi. pose proof (ino_group_range _ _ HG ino Hi) as [Hg Hl]. unfold inode_block, inode_off. rewrite (mk_ipg _ _ Hm), (mk_isize _ _ Hm), (mk_bs _ _ Hm).
  rewrite (mk_it _ _ Hm) by done. split; [|done]. unfold iblk, ino_role, loc. apply u32_id.
  apply (loc_small (ino_role G ino)). by apply (ino_role_valid _ _ HG).
Qed.
Lemma inode_checks_ok {A} m ino (k : unit -> comp S A) d : mem_ok G m -> ino_ok G ino -> bind (inode_checks (S := S) m ino) k d = k tt d.
Proof using HG.
  intros Hm Hi. pose proof (ino_group_range _ _ HG ino Hi) as [Hg Hl]. unfold inode_checks. pose proof (per_pos _ _ HG) as Hp. unfold per in Hp.
  rewrite (mk_inodes _ _ Hm), (mk_groups _ _ Hm), (mk_ipg _ _ Hm), (mk_bs _ _ Hm), (mk_isize _ _ Hm). unfold ino_ok, ino_group in *.
  rewrite bind_assoc, require_true by (apply negb_true_iff, orb_false_iff; lia). rewrite bind_assoc, require_true by (apply negb_true_iff; lia).
  rewrite require_true by (apply negb_true_iff; lia). done.
Qed.
Lemma inode_checks_inv m ino d d' : mem_ok G m -> 0 <= ino -> inode_checks (S := S) m ino d = (Done tt, d') -> ino_ok G ino.
Proof using.
  intros Hm H0 E. unfold inode_checks in E. apply require_inv in E as [E _]. rewrite (mk_inodes _ _ Hm) in E. apply negb_true_iff, orb_false_iff in E as [E1 E2]. unfold ino_ok. lia.
Qed.
Lemma zlen_inode_at d ino : zlen (inode_at d ino) = INODE_SIZE.
Proof using HG. pose proof (bs_pos _ _ HG). destruct (ioff_range _ _ HG ino). apply zlen_sub; rewrite ?zlen_blk; unfold INODE_SIZE; lia. Qed.
Lemma read_inode_ok m ino d : mem_ok G m -> ok d -> ino_ok G ino -> ext2_read_inode_at m ino d = (Done (inode_at d ino), d).
Proof using HG HL.
  intros Hm Hd Hi. pose proof (bs_pos _ _ HG) as Hbs. unfold ext2_read_inode_at. rewrite inode_checks_ok by done. destruct (inode_block_ok m ino Hm Hi) as [-> ->]. rewrite (mk_bs _ _ Hm).
  by rewrite (bind_done _ _ _ _ _ (fail_as_done _ _ _ _ _ (pread_block_ok bs sz Hbs _ d Hd (loc_inside _ _ HG _ (ino_role_valid _ _ HG ino Hi))))).
Qed.
Lemma read_inode_inv m ino d i d' : mem_ok G m -> ok d -> 0 <= ino -> ext2_read_inode_at m ino d = (Done i, d') -> ino_ok G ino /\ i = inode_at d ino /\ d' = d.
Proof using HG HL.
  intros Hm Hd H0 E. assert (ino_ok G ino) as Hi by (unfold ext2_read_inode_at in E; apply bind_inv in E as ([] & ? & E & _); by eapply inode_checks_inv).
  rewrite read_inode_ok in E by done. by injection E as <- <-.
Qed.
Lemma write_inode_inv m ino i d d' :
  mem_ok G m -> ok d -> 0 <= ino -> zlen i = INODE_SIZE -> Forall is_byte i -> ext2_write_inode_at m ino i d = (Done tt, d') ->
  ino_ok G ino /\ keep (eq (iblk G ino)) d d' /\ inode_at d' ino = i /\ forall j, ino_ok G j -> j <> ino -> inode_at d' j = inode_at d j.
Proof using HG HL.
  intros Hm Hd H0 Hl Hb E. pose proof (bs_pos _ _ HG) as Hbs.
  assert (ino_ok G ino) as Hi by (unfold ext2_write_inode_at in E; apply bind_inv in E as ([] & ? & E & _); by eapply inode_checks_inv).
  unfold ext2_write_inode_at in E. rewrite inode_checks_ok in E by done. destruct (inode_block_ok m ino Hm Hi) as [E1 E2]. rewrite E1, E2, (mk_bs _ _ Hm) in E.
  pose proof (loc_inside _ _ HG _ (ino_role_valid _ _ HG ino Hi)) as Hin. change (loc G (ino_role G ino)) with (iblk G ino) in Hin.
  rewrite (bind_done _ _ _ _ _ (fail_as_done _ _ _ _ _ (pread_block_ok bs sz Hbs _ d Hd Hin))) in E. apply fail_as_inv in E.
  destruct (ioff_range _ _ HG ino) as [Ho1 Ho2]. set (b := splice (block d (iblk G ino)) (ioff G ino) i) in *.
  assert (zlen b = bs) as Hzb by (apply zlen_splice_n; rewrite ?zlen_blk; unfold INODE_SIZE in *; lia). rewrite take_ge in E by (unfold zlen in *; lia).
  apply (pwrite_block_inv bs sz Hbs) in E as (_ & K & B); [|done|apply splice_bytes; [by apply (blk_bytes bs sz)|done]|apply Hin|done].
  split; [done|]. split; [done|]. split.
  - unfold inode_at. rewrite B. apply sub_splice_in; rewrite ?zlen_blk; unfold INODE_SIZE in *; lia.
  - intros j Hj Hne. unfold inode_at. pose proof (loc_inside _ _ HG _ (ino_role_valid _ _ HG j Hj)) as Hinj. change (loc G (ino_role G j)) with (iblk G j) in Hinj.
    destruct (decide (iblk G j = iblk G ino)) as [Eb|Nb]; [|rewrite (ks_blk _ _ _ _ _ K); [done|done|congruence]].
    rewrite Eb, B. destruct (ioff_range _ _ HG j). pose proof (ino_apart _ _ HG j ino Hj Hi Hne Eb).
    apply sub_splice_out; rewrite ?zlen_blk; unfold INODE_SIZE in *; lia.
Qed.
End meta.
