(* ===== verification/Ext2Tx.v ===== *)
(** * Ext2Tx: the allocation context of EXT2

    A block handed out by the context was free in the bitmaps as the context
    sees them and is used afterwards, and nothing else changes; committing
    makes the bitmaps on the device those the context sees. *)
From S2P Require Import Prelude Text Store Ext2 Ext2Alloc Ext2Block Ext2Layout Ext2Meta.
#[local] Open Scope Z_scope.

Section tx.
Context {S : Type} {HS : ByteStore S} {HL : ByteStoreLaws S} (G : geo) (sz : Z) (HG : geo_ok G sz).
Local Abbreviation bs := (g_bs G).
Local Abbreviation ok := (dev_ok sz).
Local Abbreviation keep := (keeps bs sz).
Local Abbreviation block := (blk bs).

(** The block bitmap of group [g] on the device, and as the context has it. *)
Definition bmap (d : S) (g : Z) : list Z := block d (loc G (RBb g)).
Definition tmap (d : S) (t : tx S) (g : Z) : list Z := if gx_loaded (ctx_get g t) then gx_bitmap (ctx_get g t) else bmap d g.
(** Block [k] is used according to the bitmaps [bm]. *)
Definition used (bm : Z -> list Z) (k : Z) : bool := test_bit (bm (k / g_bpg G)) (k mod g_bpg G).

(** [d] has the bitmaps the context was loaded from. *)
Record ctx_ok (d : S) (t : tx S) : Prop := CtxOk {
  cx_len : zlen (tx_ctx t) = g_groups G;
  cx_clean : forall g, 0 <= g < g_groups G -> gx_loaded (ctx_get g t) = true -> gx_dirty (ctx_get g t) = false -> gx_bitmap (ctx_get g t) = bmap d g;
  cx_dirty : forall g, 0 <= g < g_groups G -> gx_dirty (ctx_get g t) = true -> gx_loaded (ctx_get g t) = true;
  cx_map : forall g, 0 <= g < g_groups G -> gx_loaded (ctx_get g t) = true -> zlen (gx_bitmap (ctx_get g t)) = bs /\ Forall is_byte (gx_bitmap (ctx_get g t));
  cx_cursor : forall g, 0 <= g < g_groups G -> 0 <= gx_cursor (ctx_get g t);
}.

Lemma ctx_init_ok m d : mem_ok G m -> ctx_ok d (Tx (Fs d m) (ext2_alloc_ctx_init m)) /\ forall g, 0 <= g < g_groups G -> tmap d (Tx (Fs d m) (ext2_alloc_ctx_init m)) g = bmap d g.
Proof using HG.
  intros Hm. pose proof (go_groups _ _ HG).
  assert (forall g, 0 <= g < g_groups G -> ctx_get g (Tx (Fs d m) (ext2_alloc_ctx_init m)) = Gctx (zrep (m_block_size m) 0) 0 false false) as E.
  { intros g Hg. unfold ctx_get, ext2_alloc_ctx_init. cbn [tx_ctx]. rewrite (mk_groups _ _ Hm). by rewrite lookup_replicate_2 by lia. }
  split; [split|]; try (intros g Hg; unfold tmap; rewrite E by done; done).
  cbn [tx_ctx]. unfold ext2_alloc_ctx_init, zlen. rewrite (mk_groups _ _ Hm), length_replicate. lia.
Qed.

Lemma ctx_get_set g h x (t t' : tx S) : zlen (tx_ctx t) = g_groups G -> 0 <= g < g_groups G -> 0 <= h < g_groups G -> ctx_set g x t = (Done tt, t') ->
  ctx_get h t' = (if g =? h then x else ctx_get h t) /\ tx_fs t' = tx_fs t /\ zlen (tx_ctx t') = g_groups G.
Proof using.
  intros Hl Hg Hh [= <-]. unfold ctx_get. cbn [tx_ctx tx_fs]. split; [|split; [done|unfold zlen in *; by rewrite length_insert]].
  destruct (Z.eqb_spec g h) as [->|Hne].
  - rewrite list_lookup_insert_eq by (unfold zlen in Hl; lia). done.
  - rewrite list_lookup_insert_ne by lia. done.
Qed.

(** Putting back a loaded bitmap, clean only if it is the one on the device. *)
Lemma ctx_set_ok d g x t t' :
  ctx_ok d t -> 0 <= g < g_groups G -> gx_loaded x = true -> zlen (gx_bitmap x) = bs -> Forall is_byte (gx_bitmap x) -> 0 <= gx_cursor x ->
  (gx_dirty x = false -> gx_bitmap x = bmap d g) -> ctx_set g x t = (Done tt, t') ->
  ctx_ok d t' /\ tx_fs t' = tx_fs t /\ forall h, 0 <= h < g_groups G -> tmap d t' h = if g =? h then gx_bitmap x else tmap d t h.
Proof using.
  intros [Hl Hc Hd Hm Hcu] Hg Hlo Hz Hb Hx Hcl E. pose proof (ctx_get_set g g x t t' Hl Hg Hg E) as (_ & Efs & Hl').
  assert (forall h, 0 <= h < g_groups G -> ctx_get h t' = if g =? h then x else ctx_get h t) as Eg by (intros h Hh; apply (ctx_get_set g h x t t' Hl Hg Hh E)).
  split; [split; [done|..]|split; [done|]]; intros h Hh; unfold tmap; rewrite Eg by done; destruct (Z.eqb_spec g h) as [->|]; auto.
  by rewrite Hlo.
Qed.

Lemma ctx_load_inv m g d t x t' :
  mem_ok G m -> ok d -> fs_dev (tx_fs t) = d -> ctx_ok d t -> 0 <= g < g_groups G -> ctx_load m g t = (Done x, t') ->
  ctx_ok d t' /\ tx_fs t' = tx_fs t /\ (forall h, 0 <= h < g_groups G -> tmap d t' h = tmap d t h) /\
  x = ctx_get g t' /\ gx_loaded x = true /\ gx_bitmap x = tmap d t g.
Proof using HG HL.
  intros Hm Hd Et Hc Hg E. pose proof (bs_pos _ _ HG) as Hbs. unfold ctx_load in E. unfold bind at 1, get in E.
  destruct (gx_loaded (ctx_get g t)) eqn:El.
  - injection E as <- <-. split_and!; try done. unfold tmap. by rewrite El.
  - apply bind_inv in E as (bb & t1 & E1 & E2). unfold on_fs, on_dev, zoom in E1. destruct t as [[d0 m0] ctx]. cbn [tx_fs fs_dev fs_meta] in *. subst d0.
    rewrite (mk_bb _ _ Hm g Hg), (mk_bs _ _ Hm) in E1. assert (valid G (RBb g)) as Hv by done.
    rewrite (pread_block_ok bs sz Hbs _ d Hd (loc_inside _ _ HG _ Hv)) in E1. injection E1 as <- <-.
    apply bind_inv in E2 as ([] & t2 & E2 & E3). injection E3 as <- <-. fold (bmap d g) in E2. cbn [tx_ctx] in E2.
    destruct (ctx_set_ok d g (Gctx (bmap d g) (gx_cursor (ctx_get g (Tx (Fs d m0) ctx))) true (gx_dirty (ctx_get g (Tx (Fs d m0) ctx)))) (Tx (Fs d m0) ctx) t2) as (Hc2 & Ef & Etm); cbn [gx_loaded gx_bitmap gx_dirty]; try done.
    { unfold bmap. by rewrite zlen_blk. }
    { apply (blk_bytes bs sz); [done|done|by apply (loc_inside _ _ HG)]. }
    { cbn [gx_cursor]. by apply (cx_cursor _ _ Hc). }
    split_and!; try done.
    + intros h Hh. rewrite Etm by done. destruct (Z.eqb_spec g h) as [<-|]; [|done]. unfold tmap. by rewrite El.
    + destruct (ctx_get_set g g _ _ t2 (cx_len _ _ Hc) Hg Hg E2) as (-> & _). by rewrite Z.eqb_refl.
    + unfold tmap. by rewrite El.
Qed.

(** ** Allocation *)

Lemma group_blocks m g : mem_ok G m -> 0 <= g < g_groups G ->
  0 <= ext2_group_block_count m g <= g_bpg G /\ g * g_bpg G + ext2_group_block_count m g <= g_blocks G.
Proof using HG.
  intros Hm Hg. unfold ext2_group_block_count. rewrite (mk_bpg _ _ Hm), (mk_blocks _ _ Hm). pose proof (go_bpg _ _ HG). pose proof (go_last _ _ HG).
  assert (g * g_bpg G <= (g_groups G - 1) * g_bpg G) by nia. rewrite (proj2 (Z.leb_gt _ _)) by lia. cbv zeta. case_match eqn:E; [apply Z.ltb_lt in E|apply Z.ltb_ge in E]; lia.
Qed.
Lemma block_number_ok m g l : mem_ok G m -> 0 <= g < g_groups G -> 0 <= l < ext2_group_block_count m g ->
  block_number m g l = g * g_bpg G + l /\ (g * g_bpg G + l) / g_bpg G = g /\ (g * g_bpg G + l) mod g_bpg G = l.
Proof using HG.
  intros Hm Hg Hl. destruct (group_blocks m g Hm Hg). pose proof (go_bpg _ _ HG). pose proof (go_blocks _ _ HG). unfold block_number. rewrite (mk_bpg _ _ Hm). rewrite !u32_id by (rewrite ?u32_id; nia).
  split; [done|]. split; [symmetry; apply Z.div_unique with l; lia|symmetry; apply Z.mod_unique with g; lia].
Qed.

(** What an allocation leaves: [b] was free and is used, nothing else changed. *)
Record allocated (d : S) (t t' : tx S) (b : Z) : Prop := Allocated {
  al_range : 0 <= b < g_blocks G; al_free : used (tmap d t) b = false;
  al_used : forall k, 0 <= k < g_blocks G -> used (tmap d t') k = (b =? k) || used (tmap d t) k;
  al_dev : fs_dev (tx_fs t') = d; al_mem : mem_ok G (fs_meta (tx_fs t')); al_ctx : ctx_ok d t';
}.

Lemma block_group k : 0 <= k < g_blocks G -> 0 <= k / g_bpg G < g_groups G /\ 0 <= k mod g_bpg G < g_bpg G.
Proof using HG.
  intros. pose proof (go_bpg _ _ HG). pose proof (go_last _ _ HG). split; [split; [apply Z.div_pos; lia|apply Z.div_lt_upper_bound; lia]|apply Z.mod_pos_bound; lia].
Qed.
Lemma used_ext bm bm' k : (forall g, 0 <= g < g_groups G -> bm' g = bm g) -> 0 <= k < g_blocks G -> used bm' k = used bm k.
Proof using HG. intros E Hk. unfold used. by rewrite E by apply (block_group k Hk). Qed.

Lemma alloc_ctx_loop_inv n g d t b t' :
  ok d -> fs_dev (tx_fs t) = d -> mem_ok G (fs_meta (tx_fs t)) -> ctx_ok d t -> 0 <= g -> g + Z.of_nat n = g_groups G ->
  alloc_ctx_loop n g t = (Done b, t') -> b <> 0 -> allocated d t t' b.
Proof using HG HL.
  intros Hd. pose proof (go_bpg _ _ HG). revert g t. induction n as [|n IH]; intros g t Et Hm Hc Hg Hn E Hb; cbn [alloc_ctx_loop] in E; [by injection E as <-|].
  unfold bind at 1, get in E. set (m := fs_meta (tx_fs t)) in *. assert (0 <= g < g_groups G) as Hgr by lia.
  destruct (bg_free_blocks_count (m_gd m) g =? 0); [apply IH in E; try done; lia|].
  unfold bind at 1, try in E. destruct (ctx_load m g t) as [[x| |] t1] eqn:El; [|by injection E as <-|done].
  apply (ctx_load_inv m g d) in El as (Hc1 & Ef1 & Etm & Ex & Hlo & Hbm); try done.
  destruct (group_blocks m g Hm Hgr) as [Hgb1 Hgb2]. set (gb := ext2_group_block_count m g) in *. set (l0 := if gb <? gx_cursor x then gb else gx_cursor x) in *.
  destruct (cx_map _ _ Hc1 g Hgr) as [Hzx Hbx]; [by rewrite <- Ex|]. rewrite <- Ex in Hzx, Hbx. pose proof (go_bpg _ _ HG).
  assert (forall k, 0 <= k < g_blocks G -> used (tmap d t1) k = used (tmap d t) k) as Eu by (intros; by apply used_ext).
  destruct (find_free_block _ l0 (gx_bitmap x)) as [l|] eqn:Ef.
  - apply find_free_block_some in Ef as [Hlr Hlf]. assert (l < gb) by lia.
    pose proof (cx_cursor _ _ Hc1 g Hgr) as Hcu. rewrite <- Ex in Hcu.
    assert (0 <= l) as Hl0 by (unfold l0 in Hlr; case_match; lia).
    apply bind_inv in E as ([] & t2 & E2 & E). set (y := Gctx (set_bit (gx_bitmap x) l) (l + 1) true true) in *.
    apply (ctx_set_ok d g) in E2 as (Hc2 & Ef2 & Etm2); [|done|done|done| | |cbn [gx_cursor y]; lia|done]; cbn [gx_bitmap y].
    2: { rewrite zlen_set_bit; lia. }
    2: { apply set_bit_bytes; [done|lia]. }
    destruct (block_number_ok m g l Hm Hgr ltac:(fold gb; lia)) as (Eb & Eb1 & Eb2).
    unfold bind, on_fs, set_meta, zoom, modify, ret in E. injection E as Ebb <-. rewrite Ebb in Eb. 
    assert (forall h, tmap d (Tx (Fs (fs_dev (tx_fs t2)) (take_block g (fs_meta (tx_fs t2)))) (tx_ctx t2)) h = tmap d t2 h) as Etk by done.
    split; cbn [tx_fs fs_dev fs_meta].
    + rewrite Eb. nia.
    + rewrite <- Eu by (rewrite Eb; nia). unfold used. rewrite Eb, Eb1, Eb2, Etm, <- Hbm by done. done.
    + intros k Hk. unfold used. destruct (block_group k Hk) as [Hkg Hkl]. rewrite Etk, Etm2 by done. rewrite Etm by done.
      destruct (Z.eqb_spec g (k / g_bpg G)) as [Eg|Ng].
      * unfold y. cbn [gx_bitmap]. rewrite test_set_bit by lia. rewrite Hbm, <- Eg. f_equal. rewrite Eb. pose proof (Z.div_mod k (g_bpg G) ltac:(lia)).
        destruct (Z.eqb_spec l (k mod g_bpg G)), (Z.eqb_spec (g * g_bpg G + l) k); try done; nia.
      * rewrite (proj2 (Z.eqb_neq b k)); [done|]. intros <-. apply Ng. by rewrite Eb.
    + by rewrite Ef2, Ef1.
    + rewrite Ef2, Ef1. by apply mem_ok_take_block.
    + destruct Hc2. by split.
  - apply bind_inv in E as ([] & t2 & E2 & E). pose proof (cx_cursor _ _ Hc1 g Hgr) as Hcu. rewrite <- Ex in Hcu.
    apply (ctx_set_ok d g) in E2 as (Hc2 & Ef2 & Etm2); [|done|done|done|done|done|cbn [gx_cursor]; lia|]; cbn [gx_bitmap gx_dirty] in *.
    2: { intros Hdx. rewrite Ex in Hdx, Hlo |- *. by apply (cx_clean _ _ Hc1). }
    assert (forall h, 0 <= h < g_groups G -> tmap d t2 h = tmap d t h) as Et2.
    { intros h Hh. rewrite Etm2 by done. destruct (Z.eqb_spec g h) as [<-|]; [done|by apply Etm]. }
    apply IH in E as [A1 A2 A3 A4 A5 A6]; [|by rewrite Ef2, Ef1|by rewrite Ef2, Ef1|done|lia|lia|done].
    split; [done| |..|done|done|done].
    + by rewrite <- (used_ext _ _ _ Et2).
    + intros k Hk. rewrite A3 by done. by rewrite (used_ext _ _ _ Et2).
Qed.
Lemma alloc_ctx_inv d t b t' :
  ok d -> fs_dev (tx_fs t) = d -> mem_ok G (fs_meta (tx_fs t)) -> ctx_ok d t -> ext2_alloc_block_ctx t = (Done b, t') -> b <> 0 -> allocated d t t' b.
Proof using HG HL.
  intros Hd Et Hm Hc E Hb. unfold ext2_alloc_block_ctx, bind, get in E. rewrite (mk_groups _ _ Hm) in E. pose proof (go_groups _ _ HG). by eapply alloc_ctx_loop_inv with (g := 0); [..|exact E|]; [done..|lia|lia|].
Qed.

(** ** Commit *)

(** The device may change where the bitmaps are not. *)
Lemma ctx_ok_dev d d' (t t' : tx S) :
  tx_ctx t' = tx_ctx t -> (forall g, 0 <= g < g_groups G -> gx_dirty (ctx_get g t) = false -> bmap d' g = bmap d g) -> ctx_ok d t ->
  ctx_ok d' t' /\ forall g, 0 <= g < g_groups G -> gx_dirty (ctx_get g t) = false \/ gx_loaded (ctx_get g t) = true -> tmap d' t' g = tmap d t g.
Proof using.
  intros Et Hb [Hl Hc Hd Hm Hu]. assert (forall g, ctx_get g t' = ctx_get g t) as Eg by (intros g; unfold ctx_get; by rewrite Et).
  split.
  - split; [by rewrite Et| | | |]; intros g Hg; rewrite Eg; auto. intros Hlo Hdi. rewrite Hb by done. by apply Hc.
  - intros g Hg Hor. unfold tmap. rewrite Eg. destruct (gx_loaded (ctx_get g t)) eqn:El; [done|]. apply Hb; [done|]. by destruct Hor.
Qed.

Lemma commit_loop_inv n g t t' m :
  ok (fs_dev (tx_fs t)) -> fs_meta (tx_fs t) = m -> mem_ok G m -> ctx_ok (fs_dev (tx_fs t)) t -> 0 <= g -> g + Z.of_nat n = g_groups G -> commit_loop n g t = (Done tt, t') ->
  tx_ctx t' = tx_ctx t /\ fs_meta (tx_fs t') = m /\
  keep (fun b => exists j, g <= j < g_groups G /\ b = loc G (RBb j)) (fs_dev (tx_fs t)) (fs_dev (tx_fs t')) /\
  forall j, g <= j < g_groups G -> bmap (fs_dev (tx_fs t')) j = tmap (fs_dev (tx_fs t)) t j.
Proof using HG HL.
  pose proof (bs_pos _ _ HG) as Hbs. intros Hd Em Hm Hc Hg0. revert g t Hd Em Hc Hg0. induction n as [|n IH]; intros g t Hd Em Hc Hg0 Hn E; cbn [commit_loop] in E.
  { injection E as <-. split; [done|]. split; [done|]. split; [by apply keeps_refl|]. intros. lia. }
  assert (0 <= g < g_groups G) as Hg by lia. assert (valid G (RBb g)) as Hv by done.
  unfold bind at 1, get in E. apply bind_inv in E as ([] & t1 & E1 & E2). rewrite Em in *. set (d := fs_dev (tx_fs t)) in *.
  assert (exists d1, t1 = Tx (Fs d1 m) (tx_ctx t) /\ keep (eq (loc G (RBb g))) d d1 /\ bmap d1 g = tmap d t g) as (d1 & -> & K1 & B1).
  { destruct (gx_dirty (ctx_get g t)) eqn:Ed.
    - apply fail_as_inv in E1. unfold on_fs, on_dev, zoom in E1. rewrite (mk_bb _ _ Hm g Hg), (mk_bs _ _ Hm) in E1. fold d in E1.
      destruct (pwrite_block _ _ _ d) as [[[]| |] d1] eqn:Ew; [|done..]. injection E1 as <-. rewrite Em. exists d1. split; [done|].
      destruct (cx_map _ _ Hc g Hg (cx_dirty _ _ Hc g Hg Ed)) as [Hz Hb].
      apply (pwrite_block_inv bs sz Hbs) in Ew as (_ & K & B); [|done|done|by apply (loc_range _ _ HG)|done]. split; [done|]. unfold bmap. rewrite B. unfold tmap. by rewrite (cx_dirty _ _ Hc g Hg Ed).
    - injection E1 as <-. exists d. split; [unfold d; rewrite <- Em; destruct t as [[]]; done|]. split; [by apply keeps_refl|].
      unfold tmap. destruct (gx_loaded (ctx_get g t)) eqn:El; [|done]. symmetry. by apply (cx_clean _ _ Hc). }
  assert (forall j, 0 <= j < g_groups G -> j <> g -> bmap d1 j = bmap d j) as Eb.
  { intros j Hj Hne. unfold bmap. apply (ks_blk _ _ _ _ _ K1); [by apply (loc_inside _ _ HG)|]. intros El. apply (loc_inj _ _ HG) in El; [congruence|done|done]. }
  assert (bmap d1 g = bmap d g \/ gx_dirty (ctx_get g t) = true) as Eor.
  { destruct (gx_dirty (ctx_get g t)) eqn:Ed; [by right|left]. rewrite B1. unfold tmap. destruct (gx_loaded (ctx_get g t)) eqn:El; [|done]. by apply (cx_clean _ _ Hc). }
  destruct (ctx_ok_dev d d1 t (Tx (Fs d1 m) (tx_ctx t))) as [Hc1 Et1]; [done| |done|].
  { intros j Hj Hdj. destruct (decide (j = g)) as [->|]; [destruct Eor; [done|congruence]|by apply Eb]. }
  apply IH in E2 as (Ec & Em2 & K2 & B2); cbn [tx_fs fs_dev fs_meta tx_ctx] in *; [|apply K1|done|done|lia|lia].
  split; [done|]. split; [done|]. split.
  - eapply keeps_trans; (eapply keeps_weaken; [eassumption|]).
    + intros x _ <-. exists g. split; [lia|done].
    + intros x _ (j & Hj & ->). exists j. split; [lia|done].
  - intros j Hj. destruct (decide (j = g)) as [->|Hne].
    + unfold bmap. rewrite (ks_blk _ _ _ _ _ K2); [by apply B1|by apply (loc_inside _ _ HG)|]. intros (j & Hj' & El). apply (loc_inj _ _ HG) in El; [|done|cbn [valid]; lia]. injection El. lia.
    + rewrite B2 by lia. unfold tmap. change (ctx_get j (Tx (Fs d1 m) (tx_ctx t))) with (ctx_get j t). destruct (gx_loaded _); [done|]. apply Eb; [lia|done].
Qed.
Lemma commit_inv d t t' :
  ok d -> fs_dev (tx_fs t) = d -> mem_ok G (fs_meta (tx_fs t)) -> ctx_ok d t -> ext2_alloc_ctx_commit t = (Done tt, t') ->
  fs_meta (tx_fs t') = fs_meta (tx_fs t) /\ keep (meta_block G) d (fs_dev (tx_fs t')) /\ disk_meta G (fs_dev (tx_fs t')) (fs_meta (tx_fs t)) /\
  (forall g, 0 <= g < g_groups G -> bmap (fs_dev (tx_fs t')) g = tmap d t g) /\
  (forall r, valid G r -> (forall g, r <> RBb g) -> r <> RSuper -> (forall k, r <> RGdt k) -> block (fs_dev (tx_fs t')) (loc G r) = block d (loc G r)).
Proof using HG HL.
  intros Hd Et Hm Hc E. unfold ext2_alloc_ctx_commit in E. unfold bind at 1, get in E. apply bind_inv in E as ([] & t1 & E1 & E2). pose proof (go_groups _ _ HG). rewrite (mk_groups _ _ Hm) in E1.
  subst d. apply (commit_loop_inv _ _ _ _ _ Hd eq_refl Hm Hc) in E1 as (Ec & Em & K1 & B1); [|lia|lia].
  unfold store_meta, on_fs, zoom in E2. unfold bind, get, on_dev, zoom in E2. destruct (ext2_store_meta _ _) as [[[]| |] d2] eqn:Es; [|done..]. injection E2 as <-. cbn [tx_fs fs_dev fs_meta].
  rewrite Em in Es. apply (store_meta_inv G sz HG) in Es as [K2 D2]; [|done|apply K1]. rewrite Em. split; [done|]. set (d := fs_dev (tx_fs t)) in *. set (d1 := fs_dev (tx_fs t1)) in *. split; [|split; [done|split]].
  - eapply keeps_trans with d1; (eapply keeps_weaken; [eassumption|]).
    + intros x _ (j & Hj & ->). by exists (RBb j).
    + intros x _ [->|(j & Hj & ->)]; [by exists RSuper|by exists (RGdt j)].
  - intros g Hg. rewrite <- B1 by done. unfold bmap. apply (ks_blk _ _ _ _ _ K2); [by apply (loc_inside _ _ HG)|].
    intros [El|(j & Hj & El)]; apply (loc_inj _ _ HG) in El; done.
  - intros r Hv N1 N2 N3. assert (inside bs sz (loc G r)) by by apply (loc_inside _ _ HG). rewrite (ks_blk _ _ _ _ _ K2), (ks_blk _ _ _ _ _ K1); try done.
    + intros (j & Hj & El). apply (loc_inj _ _ HG) in El; [by apply (N1 j)|done|done].
    + intros [El|(j & Hj & El)]; apply (loc_inj _ _ HG) in El; try done. by apply (N3 j).
Qed.
End tx.
