(* ===== verification/Ext2Place.v ===== *)
(** * Ext2Place: placing the blocks of a file

    While a file is written its data blocks, its indirect block and the blocks
    of its double-indirect tree are allocated one by one.  [core] says what
    the transaction has changed so far (nothing but blocks that were free);
    [wrep] says that the inode and the pointer blocks under construction lead
    to the data blocks placed so far. *)
From S2P Require Import Prelude Text Store Ext2 Ext2Alloc Ext2Ops Ext2Block Ext2Layout Ext2Meta Ext2Tx.
#[local] Open Scope Z_scope.

Section place.
Context {S : Type} {HS : ByteStore S} {HL : ByteStoreLaws S} (G : geo) (sz : Z) (HG : geo_ok G sz).
Local Abbreviation bs := (g_bs G).
Local Abbreviation ok := (dev_ok sz).
Local Abbreviation keep := (keeps bs sz).
Local Abbreviation block := (blk bs).

(** The device and the use of blocks when the transaction starts; every metadata block is used. *)
Context (d0 : S) (used0 : Z -> bool) (Hmeta0 : forall r, valid G r -> used0 (loc G r) = true).

(** [A] are the blocks allocated so far. *)
Record core (A : list Z) (t : tx S) : Prop := Core {
  co_keep : keep (fun k => k ∈ A) d0 (fs_dev (tx_fs t)); co_mem : mem_ok G (fs_meta (tx_fs t)); co_ctx : ctx_ok G (fs_dev (tx_fs t)) t;
  co_used : forall k, 0 <= k < g_blocks G -> used G (tmap G (fs_dev (tx_fs t)) t) k = (bool_decide (k ∈ A) || used0 k);
  co_fresh : forall k, k ∈ A -> 0 < k < g_blocks G /\ used0 k = false; co_nodup : NoDup A;
}.

Lemma core_ok A t : core A t -> ok (fs_dev (tx_fs t)).
Proof using. intros H. apply (co_keep _ _ H). Qed.
Lemma fresh_not_meta A t k : core A t -> k ∈ A -> ~ meta_block G k.
Proof using Hmeta0. intros Hc Hk (r & Hv & ->). destruct (co_fresh _ _ Hc _ Hk) as [_ Hf]. by rewrite Hmeta0 in Hf. Qed.

Lemma alloc_or_inv rc A t b t' : core A t -> alloc_or rc t = (Done b, t') -> core (b :: A) t' /\ (b ∉ A) /\ b <> 0 /\ fs_dev (tx_fs t') = fs_dev (tx_fs t).
Proof using HG HL.
  intros Hc E. unfold alloc_or in E. apply bind_inv in E as (b' & t1 & E1 & E2). apply require_inv in E2 as [Hnz E2]. injection E2 as <- <-. apply negb_true_iff, Z.eqb_neq in Hnz.
  apply (alloc_ctx_inv G sz HG (fs_dev (tx_fs t))) in E1 as [A1 A2 A3 A4 A5 A6]; [|by apply core_ok in Hc|done|apply (co_mem _ _ Hc)|apply (co_ctx _ _ Hc)|done].
  rewrite (co_used _ _ Hc) in A2 by done. apply orb_false_iff in A2 as [Hb%bool_decide_eq_false Hu]. split; [|done].
  split; rewrite ?A4.
  - eapply keeps_weaken; [apply (co_keep _ _ Hc)|]. intros x _ Hx. apply elem_of_cons. by right.
  - done.
  - done.
  - intros k Hk. rewrite A3, (co_used _ _ Hc) by done. rewrite orb_assoc. f_equal. destruct (Z.eqb_spec b' k) as [->|Hne].
    + symmetry. apply bool_decide_eq_true_2. apply elem_of_cons. by left.
    + cbn [orb]. apply bool_decide_ext. rewrite elem_of_cons. split; [by right|by intros [->|]].
  - intros k [->|Hk]%elem_of_cons; [split; [lia|done]|by apply (co_fresh _ _ Hc)].
  - apply NoDup_cons. split; [done|apply (co_nodup _ _ Hc)].
Qed.

(** A change of allocated blocks only. *)
Lemma core_dev A (t : tx S) d' : core A t -> keep (fun k => k ∈ A) (fs_dev (tx_fs t)) d' -> core A (Tx (Fs d' (fs_meta (tx_fs t))) (tx_ctx t)).
Proof using HG Hmeta0.
  intros Hc K. pose proof Hc as [C1 C2 C3 C4 C5 C6].
  assert (forall g, 0 <= g < g_groups G -> bmap G d' g = bmap G (fs_dev (tx_fs t)) g) as Eb.
  { intros g Hg. apply (ks_blk _ _ _ _ _ K); [by apply (loc_inside _ _ HG)|]. intros Hk. apply (fresh_not_meta _ _ _ Hc Hk). by exists (RBb g). }
  destruct (ctx_ok_dev G (fs_dev (tx_fs t)) d' t (Tx (Fs d' (fs_meta (tx_fs t))) (tx_ctx t))) as [Hc' Et]; [done|by intros; apply Eb|done|].
  split; cbn [tx_fs fs_dev fs_meta]; try done.
  - by eapply keeps_trans.
  - intros k Hk. rewrite <- C4 by done. apply (used_ext G sz HG); [|done]. intros g Hg. apply Et; [done|]. destruct (gx_dirty (ctx_get g t)) eqn:Ed; [right|by left]. by apply (cx_dirty _ _ _ C3).
Qed.
Lemma write_in_core code A t k b t' :
  core A t -> k ∈ A -> zlen b = bs -> Forall is_byte b -> fail_as code (on_fs (on_dev (pwrite_block bs k b))) t = (Done tt, t') ->
  core A t' /\ keep (eq k) (fs_dev (tx_fs t)) (fs_dev (tx_fs t')) /\ block (fs_dev (tx_fs t')) k = b /\ tx_ctx t' = tx_ctx t.
Proof using HG HL Hmeta0.
  intros Hc Hk Hl Hb E. apply fail_as_inv in E. unfold on_fs, on_dev, zoom in E. destruct (pwrite_block _ _ _ _) as [[[]| |] d'] eqn:Ew; [|done..]. injection E as <-.
  pose proof (co_fresh _ _ Hc _ Hk) as [Hr _]. apply (pwrite_block_inv bs sz (bs_pos _ _ HG)) in Ew as (_ & K & B); [|by apply core_ok in Hc|done|lia|done].
  split; [|done]. apply core_dev; [done|]. eapply keeps_weaken; [exact K|]. by intros x _ <-.
Qed.

(** ** The pointers *)

Local Abbreviation ptrs := (bs / 4).
Lemma ptrs_4 : ptrs * 4 = bs /\ 256 <= ptrs <= 1024.
Proof using HG. destruct (go_bs _ _ HG) as [->|[->| ->]]; vm_compute; intuition congruence. Qed.

Lemma le32_word b n k v j : zlen b = 4 * n -> 0 <= k < n -> 0 <= j < n -> 0 <= v < 2 ^ 32 -> le32 (splice b (4 * k) (put32 v)) (4 * j) = if j =? k then v else le32 b (4 * j).
Proof using.
  intros Hl Hk Hj Hv. destruct (Z.eqb_spec j k) as [->|Hne]; [apply le32_splice_in; lia|]. apply le32_splice_out; rewrite ?zlen_put32; lia.
Qed.
Lemma i_block_set f k v j : zlen f = INODE_SIZE -> 0 <= k < 15 -> 0 <= j < 15 -> 0 <= v < 2 ^ 32 -> i_block (set_i_block k v f) j = if j =? k then v else i_block f j.
Proof using.
  intros Hl Hk Hj Hv. unfold i_block, set_i_block, INODE_SIZE in *. destruct (Z.eqb_spec j k) as [->|Hne]; [apply le32_splice_in; lia|]. apply le32_splice_out; rewrite ?zlen_put32; lia.
Qed.
(** A field before the block pointers is set. *)
Lemma inode_put f off w : zlen f = INODE_SIZE -> 0 <= off -> off + zlen w <= 40 ->
  zlen (splice f off w) = INODE_SIZE /\ (forall j, 0 <= j < 15 -> i_block (splice f off w) j = i_block f j) /\
  (2 <= off -> i_mode (splice f off w) = i_mode f) /\ (off + zlen w <= 4 \/ 8 <= off -> i_size (splice f off w) = i_size f).
Proof using.
  unfold INODE_SIZE. intros Hl Ho Hw. pose proof (zlen_nonneg w). split; [apply zlen_splice_n; lia|]. split; [intros j Hj; apply le32_splice_out; lia|]. split; intros Hx; [apply le16_splice_out|apply le32_splice_out]; lia.
Qed.
Lemma bget_snoc l b i : 0 <= i -> bget (l ++ [b]) i = if i =? zlen l then b else bget l i.
Proof using.
  intros Hi. destruct (Z.eqb_spec i (zlen l)) as [->|Hne]; [by rewrite bget_app_r, Z.sub_diag by lia|]. destruct (Z.ltb_spec i (zlen l)); [by apply bget_app_l; lia|].
  rewrite bget_app_r by lia. rewrite !bget_past; [done|done|change (zlen [b]) with 1; lia].
Qed.
Lemma le32_zrep n i : le32 (zrep n 0) i = 0.
Proof using. unfold le32. by rewrite !bget_zrep0. Qed.

(** The inode and the pointer blocks of [w] lead to the data blocks [bl]; [L] are
    the leaves of the double-indirect tree, the last one still in memory. *)
Context (file0 : list Z).
Definition past (n : Z) : Z := Z.max 0 (n - 12 - ptrs).
Record wrep (d : S) (w : wst) (L bl : list Z) : Prop := Wrep {
  wr_file : zlen (w_file w) = INODE_SIZE /\ Forall is_byte (w_file w) /\ forall p, 0 <= p < 40 -> bget (w_file w) p = bget file0 p;
  wr_dir : forall i, 0 <= i < 12 -> i_block (w_file w) i = bget bl i;
  wr_12 : 12 < zlen bl -> i_block (w_file w) 12 <> 0; wr_13 : L <> [] -> i_block (w_file w) 13 <> 0; wr_14 : i_block (w_file w) 14 = 0;
  wr_single : zlen (w_single w) = bs /\ Forall is_byte (w_single w) /\ forall j, 0 <= j < ptrs -> le32 (w_single w) (4 * j) = bget bl (12 + j);
  wr_L : (zlen L - 1) * ptrs <= past (zlen bl) <= zlen L * ptrs;
  wr_droot : zlen (w_droot w) = bs /\ Forall is_byte (w_droot w) /\ forall o, 0 <= o < zlen L -> le32 (w_droot w) (4 * o) = bget L o;
  wr_leaves : forall o i, 0 <= o < zlen L - 1 -> 0 <= i < ptrs -> le32 (block d (bget L o)) (4 * i) = bget bl (12 + ptrs + o * ptrs + i);
  wr_dleaf : zlen (w_dleaf w) = bs /\ Forall is_byte (w_dleaf w) /\ (L <> [] -> forall i, 0 <= i < ptrs -> le32 (w_dleaf w) (4 * i) = bget bl (12 + ptrs + (zlen L - 1) * ptrs + i));
  wr_index : w_dleaf_index w = (if zlen L =? 0 then None else Some (zlen L - 1)) /\ (L <> [] -> w_dleaf_block w = bget L (zlen L - 1));
}.

(** The blocks the file has, each once and all of them allocated. *)
Definition nz (k : Z) : list Z := if k =? 0 then [] else [k].
Definition owned (w : wst) (L : list Z) : list Z := w_blocks w ++ L ++ nz (i_block (w_file w) 12) ++ nz (i_block (w_file w) 13).
Record own (A : list Z) (w : wst) (L : list Z) : Prop := Own { ow_nodup : NoDup (owned w L); ow_in : forall x, x ∈ owned w L -> x ∈ A }.

Lemma own_add A b w L w' L' : own A w L -> b ∉ A -> owned w' L' ≡ₚ b :: owned w L -> own (b :: A) w' L'.
Proof using.
  intros [Hn Hi] Hb Hp. split.
  - rewrite Hp. apply NoDup_cons. split; [|done]. intros Hx. by apply Hb, Hi.
  - intros x. rewrite Hp, !elem_of_cons. intros [->|Hx]; [by left|right; by apply Hi].
Qed.
Lemma wrep_dev d d' w L bl : wrep d w L bl -> (forall o, 0 <= o < zlen L - 1 -> block d' (bget L o) = block d (bget L o)) -> wrep d' w L bl.
Proof using. intros [] E. split; try done. intros o i Ho Hi. rewrite E by done. auto. Qed.

(** ** The steps *)

Context (m : ext2_meta) (Em : m_block_size m = bs).

Lemma loc_u32 A t k : core A t -> k ∈ A -> 0 <= k < 2 ^ 32.
Proof using HG. intros Hc Hk. destruct (co_fresh _ _ Hc _ Hk). pose proof (go_blocks _ _ HG). lia. Qed.

(** [w_count] and a new entry of the list of blocks change nothing else. *)
Lemma wrep_blocks d w L bl x bls :
  wrep d w L bl -> wrep d (w_count (Wst (w_file w) (w_single w) (w_droot w) (w_dleaf w) (w_dleaf_block w) (w_dleaf_index w) x bls)) L bl.
Proof using. by intros []. Qed.

Lemma set_block_bytes f k v : Forall is_byte f -> Forall is_byte (set_i_block k v f).
Proof using. intros. apply splice_bytes; [done|apply put32_bytes]. Qed.
Lemma set_block_file f k v : zlen f = INODE_SIZE /\ Forall is_byte f /\ (forall p, 0 <= p < 40 -> bget f p = bget file0 p) -> 0 <= k < 15 ->
  zlen (set_i_block k v f) = INODE_SIZE /\ Forall is_byte (set_i_block k v f) /\ forall p, 0 <= p < 40 -> bget (set_i_block k v f) p = bget file0 p.
Proof using.
  unfold INODE_SIZE. intros (H1 & H2 & H3) Hk. split; [unfold set_i_block; apply zlen_splice_n; rewrite ?zlen_put32; lia|]. split; [by apply set_block_bytes|].
  intros p Hp. rewrite <- H3 by done. unfold set_i_block. apply bget_splice_out; rewrite ?zlen_put32; lia.
Qed.
Lemma nz_cons b : b <> 0 -> nz b = [b].
Proof using. intros. unfold nz. by rewrite (proj2 (Z.eqb_neq b 0)). Qed.

(** A block for [i_block[k]], [k] being 12 or 13. *)
Lemma ensure_block_inv rc k A t w L bl w' t' :
  k = 12 \/ k = 13 -> core A t -> own A w L -> wrep (fs_dev (tx_fs t)) w L bl -> ensure_block rc k w t = (Done w', t') ->
  exists A', core A' t' /\ own A' w' L /\ wrep (fs_dev (tx_fs t')) w' L bl /\ (forall x, x ∈ A -> x ∈ A') /\ w_blocks w' = w_blocks w /\ i_block (w_file w') k <> 0 /\
    w_dleaf_index w' = w_dleaf_index w.
Proof using HG HL.
  intros Hk Hc Ho Hw E. unfold ensure_block in E. destruct (Z.eqb_spec (i_block (w_file w) k) 0) as [Ez|Hnz].
  2: { injection E as <- <-. exists A. repeat (split; [done|]). done. }
  apply bind_inv in E as (b & t1 & E1 & E2). injection E2 as <- <-. apply (alloc_or_inv _ A) in E1 as (Hc' & Hb & Hb0 & Ed); [|done].
  assert (0 <= b < 2 ^ 32) as Hbr by (eapply loc_u32; [exact Hc'|apply elem_of_cons; by left]). exists (b :: A). rewrite Ed.
  pose proof Hw as [W1 W2 W3 W4 W5 W6 W7 W8 W9 W10 W11]. pose proof (proj1 W1) as Hlen.
  assert (forall j, 0 <= j < 15 -> i_block (set_i_block k b (w_file w)) j = if j =? k then b else i_block (w_file w) j) as Ei by (intros; apply i_block_set; lia || done).
  split; [done|]. split; [|split].
  - apply (own_add A b w L); [done|done|]. unfold owned. cbn [w_blocks w_file w_count w_map]. rewrite !Ei by lia.
    destruct Hk as [-> | ->]; cbn [Z.eqb Pos.eqb]; rewrite Ez; change (nz 0) with ([] : list Z); rewrite (nz_cons b Hb0); solve_Permutation.
  - split; cbn [w_file w_single w_droot w_dleaf w_dleaf_block w_dleaf_index w_count w_map]; try done.
    + apply set_block_file; [done|lia].
    + intros i Hi. rewrite Ei by lia. rewrite (proj2 (Z.eqb_neq i k)) by lia. by apply W2.
    + intros Hn. rewrite Ei by lia. destruct (12 =? k); [done|by apply W3].
    + intros Hn. rewrite Ei by lia. destruct (13 =? k); [done|by apply W4].
    + rewrite Ei by lia. by rewrite (proj2 (Z.eqb_neq 14 k)) by lia.
  - split; [intros x Hx; apply elem_of_cons; by right|]. split; [done|]. split; [|done]. cbn [w_file w_count w_map]. rewrite Ei by lia. by rewrite Z.eqb_refl.
Qed.

Lemma bget_lookup_some l i : 0 <= i < zlen l -> l !! Z.to_nat i = Some (bget l i).
Proof using. intros H. unfold bget. rewrite nth_lookup. unfold zlen in H. destruct (lookup_lt_is_Some_2 l (Z.to_nat i)) as [x ->]; [lia|done]. Qed.
Lemma bget_elem l i : 0 <= i < zlen l -> bget l i ∈ l.
Proof using. intros H. eapply list_elem_of_lookup_2, bget_lookup_some, H. Qed.
Lemma bget_nodup l i j : NoDup l -> 0 <= i < zlen l -> 0 <= j < zlen l -> bget l i = bget l j -> i = j.
Proof using.
  intros Hn Hi Hj E. pose proof (bget_lookup_some l i Hi) as E1. rewrite E in E1. pose proof (NoDup_lookup l _ _ _ Hn E1 (bget_lookup_some l j Hj)). lia.
Qed.
Lemma core_inside A t k : core A t -> k ∈ A -> inside bs sz k.
Proof using HG. intros Hc Hk. destruct (co_fresh _ _ Hc _ Hk). apply (block_inside _ _ HG). lia. Qed.

(** The leaf for [outer], the one being filled or the next. *)
Lemma ensure_leaf_inv rc rcl outer A t w L bl w' t' :
  core A t -> own A w L -> wrep (fs_dev (tx_fs t)) w L bl -> 0 <= outer < ptrs -> outer = past (zlen bl) / ptrs -> i_block (w_file w) 13 <> 0 -> ensure_leaf rc rcl m outer w t = (Done w', t') ->
  exists A' L', core A' t' /\ own A' w' L' /\ wrep (fs_dev (tx_fs t')) w' L' bl /\ (forall x, x ∈ A -> x ∈ A') /\ w_blocks w' = w_blocks w /\ zlen L' = outer + 1.
Proof using HG HL Hmeta0 Em.
  intros Hc Ho Hw Hout Eout H13 E. destruct ptrs_4 as [Hp4 Hp]. pose proof Hw as [W1 W2 W3 W4 W5 W6 W7 W8 W9 W10 [W11 W12]].
  assert (0 <= past (zlen bl)) as Hpast by (unfold past; lia). pose proof (zlen_nonneg L) as HL0.
  pose proof (Z.div_mod (past (zlen bl)) ptrs ltac:(lia)) as Hdm. pose proof (Z.mod_pos_bound (past (zlen bl)) ptrs ltac:(lia)) as Hmb. rewrite <- Eout in Hdm.
  unfold ensure_leaf in E. destruct (bool_decide _) eqn:Eb.
  { apply bool_decide_eq_true in Eb. rewrite W11 in Eb. injection E as <- <-. exists A, L. repeat (split; [done|]). destruct (Z.eqb_spec (zlen L) 0); [done|]. injection Eb. lia. }
  apply bool_decide_eq_false in Eb. rewrite W11 in Eb.
  assert (zlen L = outer) as Ezl by (destruct (Z.eqb_spec (zlen L) 0); [nia|assert (zlen L - 1 <> outer) by congruence; nia]).
  assert (past (zlen bl) = outer * ptrs) as Ep by nia.
  apply bind_inv in E as ([] & t1 & E1 & E2).
  assert (core A t1 /\ tx_ctx t1 = tx_ctx t /\ (forall o i, 0 <= o < zlen L -> 0 <= i < ptrs -> le32 (block (fs_dev (tx_fs t1)) (bget L o)) (4 * i) = bget bl (12 + ptrs + o * ptrs + i))) as (Hc1 & _ & Hleaf).
  { rewrite W11 in E1. destruct (Z.eqb_spec (zlen L) 0) as [Ez|Hnz].
    - injection E1 as <-. split; [done|]. split; [done|]. intros; lia.
    - assert (L <> []) as HLn by (intros ->; by apply Hnz). rewrite (W12 HLn), Em in E1. destruct W10 as (Wz & Wb & Wd).
      assert (bget L (zlen L - 1) ∈ A) as Hin by (apply (ow_in _ _ _ Ho); unfold owned; rewrite !elem_of_app; right; left; apply bget_elem; lia).
      apply (write_in_core _ A) in E1 as (Hc1 & K1 & B1 & Ex1); [|done..]. split; [done|]. split; [done|]. intros o i Hor Hi.
      destruct (decide (o = zlen L - 1)) as [->|Hne]; [rewrite B1; by apply Wd|].
      rewrite (ks_blk _ _ _ _ _ K1); [apply W9; lia| |].
      + apply (core_inside A t); [done|]. apply (ow_in _ _ _ Ho). unfold owned. rewrite !elem_of_app. right; left. apply bget_elem. lia.
      + intros Eq. apply bget_nodup in Eq; [lia| |lia|lia]. pose proof (ow_nodup _ _ _ Ho) as Hnd. unfold owned in Hnd. apply NoDup_app in Hnd as (_ & _ & Hnd). by apply NoDup_app in Hnd as (Hnd & _ & _). }
  apply bind_inv in E2 as (b & t2 & E2 & E3). injection E3 as <- <-. apply (alloc_or_inv _ A) in E2 as (Hc2 & Hb & Hb0 & Ed); [|done].
  assert (0 <= b < 2 ^ 32) as Hbr by (eapply loc_u32; [exact Hc2|apply elem_of_cons; by left]).
  destruct W8 as (Wdl & Wdb & Wd). exists (b :: A), (L ++ [b]). rewrite Ed. split; [done|]. split; [|split].
  - apply (own_add A b w L); [done|done|]. unfold owned. cbn [w_blocks w_file w_count w_map]. solve_Permutation.
  - split; cbn [w_file w_single w_droot w_dleaf w_dleaf_block w_dleaf_index w_count w_map]; rewrite ?zlen_app; change (zlen [b]) with 1; try done.
    + lia.
    + split; [apply zlen_splice_n; rewrite ?zlen_put32; lia|]. split; [by apply splice_bytes; [|apply put32_bytes]|]. intros o Hor. rewrite (le32_word _ ptrs) by lia. rewrite bget_snoc by lia. rewrite Ezl.
      destruct (o =? outer) eqn:Eo; [done|]. apply Z.eqb_neq in Eo. apply Wd. lia.
    + intros o i Hor Hi. rewrite bget_app_l by lia. apply Hleaf; lia.
    + rewrite Em. split; [by apply zlen_zrep; lia|]. split; [apply zrep0_bytes|]. intros _ i Hi. rewrite le32_zrep. symmetry. apply bget_past. unfold past in *. lia.
    + rewrite Ezl. rewrite (proj2 (Z.eqb_neq (outer + 1) 0)) by lia. split; [f_equal; lia|]. intros _. rewrite bget_snoc by lia. by rewrite (proj2 (Z.eqb_eq _ _)) by lia.
  - split; [intros x Hx; apply elem_of_cons; by right|]. split; [done|]. rewrite zlen_app. change (zlen [b]) with 1. lia.
Qed.

Lemma bget_snoc_ne l b i : 0 <= i -> i <> zlen l -> bget (l ++ [b]) i = bget l i.
Proof using. intros. rewrite bget_snoc by done. by rewrite (proj2 (Z.eqb_neq _ _)). Qed.
Lemma past_snoc bl (b : Z) : zlen (bl ++ [b]) = zlen bl + 1.
Proof using. rewrite zlen_app. done. Qed.

Lemma place_direct d w L bl b : wrep d w L bl -> zlen bl < 12 -> 0 <= b < 2 ^ 32 -> wrep d (w_map (set_i_block (zlen bl) b) w) L (bl ++ [b]).
Proof using HG.
  intros [W1 W2 W3 W4 W5 W6 W7 W8 W9 W10 W11] Hn Hb. pose proof ptrs_4 as [Hp4 Hp]. pose proof (zlen_nonneg bl).
  pose proof (fun j Hj => i_block_set (w_file w) (zlen bl) b j (proj1 W1) ltac:(lia) Hj Hb) as Ei.
  split; cbn [w_file w_single w_droot w_dleaf w_dleaf_block w_dleaf_index w_map]; try done.
  - apply set_block_file; [done|lia].
  - intros i Hi. rewrite Ei, bget_snoc by lia. destruct (i =? zlen bl); [done|by apply W2].
  - rewrite past_snoc. lia.
  - intros HL'. rewrite Ei by lia. rewrite (proj2 (Z.eqb_neq _ _)) by lia. by apply W4.
  - rewrite Ei by lia. by rewrite (proj2 (Z.eqb_neq _ _)) by lia.
  - destruct W6 as (? & ? & W6). split; [done|]. split; [done|]. intros j Hj. rewrite W6 by lia. by rewrite bget_snoc_ne by lia.
  - rewrite past_snoc. unfold past in *. lia.
  - intros o i Ho Hi. rewrite W9 by lia. rewrite bget_snoc_ne; [done|nia|nia].
  - destruct W10 as (? & ? & W10). split; [done|]. split; [done|]. intros HL' i Hi. rewrite W10 by done.
    assert (0 < zlen L) by (destruct L; [done|rewrite zlen_cons; pose proof (zlen_nonneg L); lia]). rewrite bget_snoc_ne; [done|nia|nia].
Qed.
Lemma place_single d w L bl b : wrep d w L bl -> 12 <= zlen bl < 12 + ptrs -> 0 <= b < 2 ^ 32 -> i_block (w_file w) 12 <> 0 ->
  wrep d (Wst (w_file w) (splice (w_single w) (4 * (zlen bl - 12)) (put32 b)) (w_droot w) (w_dleaf w) (w_dleaf_block w) (w_dleaf_index w) (w_allocated w) (w_blocks w)) L (bl ++ [b]).
Proof using HG.
  intros [W1 W2 W3 W4 W5 W6 W7 W8 W9 W10 W11] Hn Hb H12. pose proof ptrs_4 as [Hp4 Hp].
  split; cbn [w_file w_single w_droot w_dleaf w_dleaf_block w_dleaf_index]; try done.
  - intros i Hi. rewrite bget_snoc_ne by lia. by apply W2.
  - destruct W6 as (Wz & Wb & W6). split; [apply zlen_splice_n; rewrite ?zlen_put32; lia|]. split; [by apply splice_bytes; [|apply put32_bytes]|].
    intros j Hj. rewrite (le32_word _ ptrs) by lia. rewrite bget_snoc by lia. destruct (Z.eqb_spec j (zlen bl - 12)) as [->|]; [by rewrite (proj2 (Z.eqb_eq _ _)) by lia|]. rewrite (proj2 (Z.eqb_neq _ _)) by lia. by apply W6.
  - rewrite past_snoc. unfold past in *. lia.
  - intros o i Ho Hi. rewrite W9 by lia. rewrite bget_snoc_ne; [done|nia|nia].
  - destruct W10 as (? & ? & W10). split; [done|]. split; [done|]. intros HL' i Hi. rewrite W10 by done.
    assert (0 < zlen L) by (destruct L; [done|rewrite zlen_cons; pose proof (zlen_nonneg L); lia]). rewrite bget_snoc_ne; [done|nia|nia].
Qed.
Lemma place_double d w L bl b : wrep d w L bl -> 12 + ptrs <= zlen bl -> 0 <= b < 2 ^ 32 -> i_block (w_file w) 12 <> 0 -> zlen L = past (zlen bl) / ptrs + 1 ->
  wrep d (Wst (w_file w) (w_single w) (w_droot w) (splice (w_dleaf w) (4 * (past (zlen bl) mod ptrs)) (put32 b)) (w_dleaf_block w) (w_dleaf_index w) (w_allocated w) (w_blocks w)) L (bl ++ [b]).
Proof using HG.
  intros [W1 W2 W3 W4 W5 W6 W7 W8 W9 W10 W11] Hn Hb H12 HzL. pose proof ptrs_4 as [Hp4 Hp].
  assert (past (zlen bl) = zlen bl - 12 - ptrs) as Ep by (unfold past; lia). pose proof (Z.div_mod (past (zlen bl)) ptrs ltac:(lia)) as Hdm. pose proof (Z.mod_pos_bound (past (zlen bl)) ptrs ltac:(lia)) as Hmb.
  set (inner := past (zlen bl) mod ptrs) in *. set (outer := past (zlen bl) / ptrs) in *.
  split; cbn [w_file w_single w_droot w_dleaf w_dleaf_block w_dleaf_index]; try done.
  - intros i Hi. rewrite bget_snoc_ne by lia. by apply W2.
  - destruct W6 as (Wz & Wb & W6). split; [done|]. split; [done|]. intros j Hj. rewrite bget_snoc_ne by lia. by apply W6.
  - rewrite past_snoc. replace (past (zlen bl + 1)) with (past (zlen bl) + 1) by (unfold past; lia). nia.
  - intros o i Ho Hi. rewrite W9 by lia. rewrite bget_snoc_ne; [done|nia|nia].
  - destruct W10 as (Wz & Wb & W10). split; [apply zlen_splice_n; rewrite ?zlen_put32; lia|]. split; [by apply splice_bytes; [|apply put32_bytes]|].
    intros HL' i Hi. rewrite (le32_word _ ptrs) by lia. rewrite bget_snoc by nia. destruct (Z.eqb_spec i inner) as [->|].
    + by rewrite (proj2 (Z.eqb_eq _ _)) by nia.
    + rewrite (proj2 (Z.eqb_neq _ _)) by nia. by apply W10.
Qed.

Lemma place_block_inv rc rcl A t w L w' t' :
  core A t -> own A w L -> wrep (fs_dev (tx_fs t)) w L (w_blocks w) -> zlen (w_blocks w) < max_data_blocks m -> place_block rc rcl m (zlen (w_blocks w)) w t = (Done w', t') ->
  exists A' L', core A' t' /\ own A' w' L' /\ wrep (fs_dev (tx_fs t')) w' L' (w_blocks w') /\ (forall x, x ∈ A -> x ∈ A') /\ zlen (w_blocks w') = zlen (w_blocks w) + 1.
Proof using HG HL Hmeta0 Em.
  intros Hc Ho Hw Hmax E. destruct ptrs_4 as [Hp4 Hp]. unfold max_data_blocks in Hmax. rewrite Em in Hmax. unfold place_block in E. rewrite Em in E. set (bl := w_blocks w) in *.
  apply bind_inv in E as (b & t1 & E1 & E). apply (alloc_or_inv _ A) in E1 as (Hc1 & Hb & Hb0 & Ed); [|done].
  assert (0 <= b < 2 ^ 32) as Hbr by (eapply loc_u32; [exact Hc1|apply elem_of_cons; by left]). rewrite <- Ed in Hw.
  apply (wrep_blocks _ _ _ _ (w_allocated w) (bl ++ [b])) in Hw. set (w1 := w_count _) in *.
  assert (own (b :: A) w1 L) as Ho1 by (apply (own_add A b w L); [done|done|]; unfold owned; cbn [w_blocks w_file w1 w_count]; fold bl; solve_Permutation).
  assert (w_blocks w1 = bl ++ [b]) as Eb1 by done. assert (forall x, x ∈ A -> x ∈ b :: A) as HA by (intros x Hx; apply elem_of_cons; by right).
  destruct (Z.ltb_spec (zlen bl) 12).
  { injection E as <- <-. exists (b :: A), L. split; [done|]. split; [|split; [by apply place_direct|split; [done|cbn [w_blocks w_map]; by rewrite Eb1, past_snoc]]].
    destruct Ho1 as [N I]. pose proof (fun j Hj => i_block_set (w_file w1) (zlen bl) b j (proj1 (wr_file _ _ _ _ Hw)) ltac:(pose proof (zlen_nonneg bl); lia) Hj Hbr) as Ei.
    assert (owned (w_map (set_i_block (zlen bl) b) w1) L = owned w1 L) as Eow; [|split; by rewrite Eow]. unfold owned. cbn [w_blocks w_file w_map]. rewrite !Ei by lia. by rewrite !(proj2 (Z.eqb_neq _ _)) by lia. }
  destruct (Z.ltb_spec (zlen bl) (12 + ptrs)).
  { apply bind_inv in E as (w2 & t2 & E2 & E3). injection E3 as <- <-.
    destruct (ensure_block_inv _ _ _ _ _ L bl _ _ (or_introl eq_refl) Hc1 Ho1 Hw E2) as (A2 & Hc2 & Ho2 & Hw2 & HA2 & Eb2 & H12 & _). exists A2, L.
    split; [done|]. split; [by destruct Ho2|]. cbn [w_blocks]. assert (w_blocks w2 = bl ++ [b]) as Ebb by by rewrite Eb2. split; [|split; [by intros; apply HA2, HA|by rewrite Ebb, past_snoc]].
    pose proof (place_single _ _ _ _ _ Hw2 ltac:(lia) Hbr H12) as P. rewrite <- Ebb in P. exact P. }
  apply bind_inv in E as (w2 & t2 & E2 & E). destruct (ensure_block_inv _ _ _ _ _ L bl _ _ (or_intror eq_refl) Hc1 Ho1 Hw E2) as (A2 & Hc2 & Ho2 & Hw2 & HA2 & Eb2 & H13 & _).
  apply bind_inv in E as (w3 & t3 & E3 & E4). injection E4 as <- <-.
  assert (past (zlen bl) = zlen bl - 12 - ptrs) as Ep by (unfold past; lia). rewrite <- Ep in *.
  assert (0 <= past (zlen bl) / ptrs < ptrs) as Hdiv by (split; [apply Z.div_pos; lia|apply Z.div_lt_upper_bound; nia]). pose proof (Z.mod_pos_bound (past (zlen bl)) ptrs ltac:(lia)) as Hmb.
  rewrite !u32_id in E3 by lia. rewrite !u32_id by lia.
  destruct (ensure_leaf_inv _ _ _ A2 _ _ L bl _ _ Hc2 Ho2 Hw2 Hdiv eq_refl H13 E3) as (A3 & L3 & Hc3 & Ho3 & Hw3 & HA3 & Eb3 & HzL). exists A3, L3.
  split; [done|]. split; [by destruct Ho3|]. cbn [w_blocks]. assert (w_blocks w3 = bl ++ [b]) as Ebb by by rewrite Eb3, Eb2. split; [|split; [by intros; apply HA3, HA2, HA|by rewrite Ebb, past_snoc]].
  pose proof (place_double _ _ _ _ _ Hw3 ltac:(lia) Hbr (wr_12 _ _ _ _ Hw3 ltac:(lia)) HzL) as P. rewrite <- Ebb in P. exact P.
Qed.
Lemma place_blocks_inv n rc rcl A t w L w' t' :
  core A t -> own A w L -> wrep (fs_dev (tx_fs t)) w L (w_blocks w) -> zlen (w_blocks w) + Z.of_nat n <= max_data_blocks m -> place_blocks n rc rcl m (zlen (w_blocks w)) w t = (Done w', t') ->
  exists A' L', core A' t' /\ own A' w' L' /\ wrep (fs_dev (tx_fs t')) w' L' (w_blocks w') /\ zlen (w_blocks w') = zlen (w_blocks w) + Z.of_nat n.
Proof using HG HL Hmeta0 Em.
  revert A t w L. induction n as [|n IH]; intros A t w L Hc Ho Hw Hmax E; cbn [place_blocks] in E.
  { injection E as <- <-. exists A, L. repeat (split; [done|]). lia. }
  apply bind_inv in E as (w1 & t1 & E1 & E2). apply (place_block_inv _ _ A _ _ L) in E1 as (A1 & L1 & Hc1 & Ho1 & Hw1 & _ & Hz); [|done..|lia]. rewrite <- Hz in E2.
  apply (IH A1 _ _ L1) in E2 as (A2 & L2 & Hc2 & Ho2 & Hw2 & Hz2); [|done..|lia]. exists A2, L2. repeat (split; [done|]). lia.
Qed.
End place.
