(* ===== verification/Ext2File.v ===== *)
(** * Ext2File: the contents of a file

    [file_ptr] is the block an inode and its pointer blocks give for a block of
    the file, [file_bytes] the contents they give.  Reading a file returns
    exactly these; writing one makes them the data, out of blocks that were
    free, and changes nothing else but metadata. *)
From S2P Require Import Prelude Text Store Ext2 Ext2Alloc Ext2Ops Ext2Block Ext2Layout Ext2Meta Ext2Tx Ext2Place.
#[local] Open Scope Z_scope.

Section file.
Context {S : Type} {HS : ByteStore S} {HL : ByteStoreLaws S} (G : geo) (sz : Z) (HG : geo_ok G sz).
Local Abbreviation bs := (g_bs G).
Local Abbreviation ok := (dev_ok sz).
Local Abbreviation keep := (keeps bs sz).
Local Abbreviation block := (blk bs).
Local Abbreviation ptrs := (bs / 4).
Local Abbreviation ins := (inside bs sz).

(** Entry [i] of the pointer block [root]; block 0 stands for zeros. *)
Definition dptr (d : S) (root i : Z) : Z := if root =? 0 then 0 else le32 (block d root) (4 * i).
Definition leaf_ptr (d : S) (f : list Z) (lbn : Z) : Z := dptr d (i_block f 13) ((lbn - 12 - ptrs) / ptrs).
Definition file_ptr (d : S) (f : list Z) (lbn : Z) : Z :=
  if lbn <? 12 then i_block f lbn else
  if lbn <? 12 + ptrs then dptr d (i_block f 12) (lbn - 12) else
  dptr d (leaf_ptr d f lbn) ((lbn - 12 - ptrs) mod ptrs).
Definition file_byte (d : S) (f : list Z) (i : Z) : Z :=
  let k := file_ptr d f (i / bs) in if k =? 0 then 0 else bget (block d k) (i mod bs).
Definition file_bytes (d : S) (f : list Z) (len : Z) : list Z := bytes_at (file_byte d f) 0 len.

(** The pointers used for the first [n] blocks stay on the device. *)
Record readable (d : S) (f : list Z) (n : Z) : Prop := Readable {
  rd_12 : i_block f 12 = 0 \/ ins (i_block f 12); rd_13 : i_block f 13 = 0 \/ ins (i_block f 13);
  rd_leaf : forall lbn, 12 + ptrs <= lbn < n -> leaf_ptr d f lbn = 0 \/ ins (leaf_ptr d f lbn);
  rd_data : forall lbn, 0 <= lbn < n -> file_ptr d f lbn = 0 \/ ins (file_ptr d f lbn);
}.

(** ** Reading *)

Definition pblock (d : S) (k : Z) : list Z := if k =? 0 then zrep bs 0 else block d k.
Lemma pblock_dptr d k i : le32 (pblock d k) (4 * i) = dptr d k i.
Proof using. unfold pblock, dptr. destruct (k =? 0); [apply le32_zrep|done]. Qed.

Section reading.
Context (m : ext2_meta) (Em : m_block_size m = bs) (d : S) (Hd : ok d) (f : list Z) (len : Z).
Context (Hr : readable d f ((len + bs - 1) / bs)) (Hmax : (len + bs - 1) / bs <= 12 + ptrs + ptrs * ptrs).

Definition cache_ok (c : option (Z * list Z)) : Prop := match c with Some (o, leaf) => leaf = pblock d (dptr d (i_block f 13) o) | None => True end.

Lemma read_ptrs_ok k code : k = 0 \/ ins k -> read_ptrs m k code d = (Done (pblock d k), d).
Proof using Em Hd HL HG.
  intros Hk. unfold read_ptrs, pblock. rewrite Em. destruct (Z.eqb_spec k 0); [done|]. destruct Hk; [done|]. apply fail_as_done. by apply (pread_block_ok bs sz (bs_pos _ _ HG)).
Qed.
Lemma read_leaf_ok c lbn : cache_ok c -> leaf_ptr d f lbn = 0 \/ ins (leaf_ptr d f lbn) ->
  read_leaf m (pblock d (i_block f 13)) c ((lbn - 12 - ptrs) / ptrs) d = (Done (pblock d (leaf_ptr d f lbn)), d).
Proof using Em Hd HL HG.
  intros Hc Hl. unfold read_leaf. rewrite pblock_dptr, Em. fold (leaf_ptr d f lbn).
  assert ((if leaf_ptr d f lbn =? 0 then ret (zrep bs 0) else fail_as (-12) (pread_block bs (leaf_ptr d f lbn) bs)) d = (Done (pblock d (leaf_ptr d f lbn)), d)) as E.
  { unfold pblock. destruct (Z.eqb_spec (leaf_ptr d f lbn) 0); [done|]. destruct Hl; [done|]. apply fail_as_done. by apply (pread_block_ok bs sz (bs_pos _ _ HG)). }
  destruct c as [[o leaf]|]; [|done]. destruct (Z.eqb_spec o ((lbn - 12 - ptrs) / ptrs)) as [->|]; [|done]. cbn in Hc. by rewrite Hc.
Qed.
Lemma map_block_ok c lbn : cache_ok c -> 0 <= lbn < (len + bs - 1) / bs ->
  exists c', cache_ok c' /\ map_block m f (pblock d (i_block f 12)) (pblock d (i_block f 13)) c lbn d = (Done (file_ptr d f lbn, c'), d).
Proof using Em Hd HL HG Hr Hmax.
  intros Hc Hlbn. destruct (ptrs_4 _ _ HG) as [Hp4 Hp]. unfold map_block, file_ptr. rewrite Em. destruct (Z.ltb_spec lbn 12); [by exists c|].
  destruct (Z.ltb_spec lbn (12 + ptrs)); [exists c; rewrite pblock_dptr; done|].
  assert (0 <= (lbn - 12 - ptrs) / ptrs < ptrs) as Hdiv by (split; [apply Z.div_pos; lia|apply Z.div_lt_upper_bound; lia]). pose proof (Z.mod_pos_bound (lbn - 12 - ptrs) ptrs ltac:(lia)) as Hmb.
  cbv zeta. rewrite !u32_id by lia. rewrite require_true by (apply negb_true_iff; lia).
  rewrite (bind_done _ _ _ _ _ (read_leaf_ok c lbn Hc (rd_leaf _ _ _ Hr lbn ltac:(lia)))). rewrite pblock_dptr.
  exists (Some ((lbn - 12 - ptrs) / ptrs, pblock d (leaf_ptr d f lbn))). split; [done|]. done.
Qed.
Lemma read_loop_ok fuel c pos : cache_ok c -> 0 <= pos -> pos mod bs = 0 \/ len <= pos -> len - pos <= Z.of_nat fuel * bs -> len <= UINT32_MAX ->
  read_loop fuel m f (pblock d (i_block f 12)) (pblock d (i_block f 13)) c len pos d = (Done (bytes_at (file_byte d f) pos (Z.max 0 (len - pos))), d).
Proof using Em Hd HL HG Hr Hmax.
  pose proof (bs_pos _ _ HG) as Hbs. intros Hc Hpos Hmod Hf Hlen. revert c pos Hc Hpos Hmod Hf. induction fuel as [|fuel IH]; intros c pos Hc Hpos Hmod Hf; cbn [read_loop]; (destruct (Z.leb_spec len pos); [by rewrite Z.max_l by lia|]); [lia|].
  rewrite Z.max_r by lia. cbv zeta. rewrite Em. assert (0 <= pos / bs < (len + bs - 1) / bs) as Hlbn.
  { split; [apply Z.div_pos; lia|]. apply Z.lt_le_trans with ((pos + bs) / bs); [rewrite <- (Z.mul_1_l bs) at 2; rewrite Z.div_add by lia; lia|]. apply Z.div_le_mono; [lia|].
    pose proof (Z.div_mod pos bs ltac:(lia)). lia || nia. }
  destruct (map_block_ok c (pos / bs) Hc Hlbn) as (c' & Hc' & E). rewrite (bind_done _ _ _ _ _ E). clear E. destruct Hmod as [Hmod|]; [|lia].
  set (chunk := if len - pos <? bs then len - pos else bs). assert (0 < chunk <= bs /\ pos + chunk <= len /\ (chunk = bs \/ pos + chunk = len)) as (Hc1 & Hc2 & Hc3) by (unfold chunk; case_match eqn:E; [apply Z.ltb_lt in E|apply Z.ltb_ge in E]; lia).
  pose proof (Z.div_mod pos bs ltac:(lia)) as Hdm. set (k := file_ptr d f (pos / bs)) in *.
  assert ((if k =? 0 then ret (zrep chunk 0) else fail_as (-13) (pread_bytes_at (k * bs) chunk)) d = (Done (bytes_at (file_byte d f) pos chunk), d)) as E.
  { assert (forall i, 0 <= i < chunk -> file_byte d f (pos + i) = if k =? 0 then 0 else bget (block d k) i) as Eb.
    { intros i Hi. unfold file_byte. assert ((pos + i) / bs = pos / bs) as -> by (symmetry; apply Z.div_unique with i; lia). fold k. assert ((pos + i) mod bs = i) as -> by (symmetry; apply Z.mod_unique with (pos / bs); lia). done. }
    destruct (Z.eqb_spec k 0) as [Ek|Nk].
    - unfold ret. do 2 f_equal. symmetry. apply bytes_at_eq; [apply zlen_zrep; lia|]. intros i Hi. rewrite Eb by lia. by rewrite bget_zrep by lia.
    - destruct (rd_data _ _ _ Hr (pos / bs) Hlbn) as [|[Hk1 Hk2]]; [done|]. fold k in Hk1, Hk2. apply fail_as_done. rewrite (pread_bytes_ok sz) by (done || ulia || nia). do 2 f_equal.
      apply bytes_at_eq; [by apply zlen_bytes_at; lia|]. intros i Hi. rewrite bget_bytes_at by lia. rewrite Eb by lia. by rewrite bget_blk by lia. }
  rewrite (bind_done _ _ _ _ _ E). rewrite (bind_done _ _ _ _ _ (IH c' (pos + chunk) Hc' ltac:(lia) ltac:(destruct Hc3 as [-> | ->]; [left; rewrite <- (Z.mul_1_l bs) at 1; by rewrite Z_mod_plus_full|by right]) ltac:(destruct Hc3 as [-> | ->]; lia))).
  unfold ret. do 2 f_equal. rewrite <- bytes_at_app by lia. f_equal. lia.
Qed.

(** Reading a file that is not empty. *)
Lemma read_data_ok : 0 < len <= UINT32_MAX ->
  (let* single := read_ptrs m (i_block f 12) (-9) in let* droot := read_ptrs m (i_block f 13) (-10) in read_loop (read_fuel m len) m f single droot None len 0) d = (Done (file_bytes d f len), d).
Proof using Em Hd HL HG Hr Hmax.
  pose proof (bs_pos _ _ HG) as Hbs. intros Hlen. rewrite (bind_done _ _ _ _ _ (read_ptrs_ok _ _ (rd_12 _ _ _ Hr))), (bind_done _ _ _ _ _ (read_ptrs_ok _ _ (rd_13 _ _ _ Hr))).
  rewrite read_loop_ok; [|done|lia|left; by apply Z.mod_0_l; lia| |lia].
  - rewrite Z.sub_0_r, Z.max_r by lia. done.
  - unfold read_fuel. rewrite Em. pose proof (Z.div_mod len bs ltac:(lia)). pose proof (Z.mod_pos_bound len bs ltac:(lia)). assert (0 <= len / bs) by (apply Z.div_pos; lia). nia.
Qed.
End reading.

(** ** Writing *)

Section writing.
Context (d0 : S) (used0 : Z -> bool) (Hmeta0 : forall r, valid G r -> used0 (loc G r) = true) (file0 : list Z).
Local Abbreviation core := (core G sz d0 used0).
Local Abbreviation own := own.
Local Abbreviation wrep := (wrep G).

Lemma cond_write_inv code A t k b t' :
  core A t -> k = 0 \/ k ∈ A -> zlen b = bs -> Forall is_byte b ->
  (if k =? 0 then ret tt else fail_as code (on_fs (on_dev (pwrite_block bs k b)))) t = (Done tt, t') ->
  core A t' /\ keep (fun x => x = k /\ k <> 0) (fs_dev (tx_fs t)) (fs_dev (tx_fs t')) /\ (k <> 0 -> block (fs_dev (tx_fs t')) k = b).
Proof using HG HL Hmeta0.
  intros Hc Hk Hz Hb E. destruct (Z.eqb_spec k 0) as [->|Hnz].
  - injection E as <-. split; [done|]. split; [|done]. apply keeps_refl. by apply core_ok in Hc.
  - destruct Hk as [|Hk]; [done|]. apply (write_in_core G sz HG d0 used0 Hmeta0 _ A) in E as (Hc' & K & B & _); [|done..]. split; [done|]. split; [|done]. eapply keeps_weaken; [exact K|]. by intros x _ <-.
Qed.

(** The leaf in memory. *)
Definition last_leaf (L : list Z) : Z := if zlen L =? 0 then 0 else bget L (zlen L - 1).

(** The pointers lead to the data blocks once they are on the device. *)
Lemma ptrs_written w L bl d d' :
  wrep file0 d w L bl -> NoDup (owned w L) -> (forall x, x ∈ owned w L -> 0 < x) -> zlen bl <= 12 + ptrs + ptrs * ptrs ->
  (forall o, 0 <= o < zlen L - 1 -> block d' (bget L o) = block d (bget L o)) ->
  (i_block (w_file w) 12 <> 0 -> block d' (i_block (w_file w) 12) = w_single w) ->
  (i_block (w_file w) 13 <> 0 -> block d' (i_block (w_file w) 13) = w_droot w) ->
  (L <> [] -> block d' (last_leaf L) = w_dleaf w) ->
  (forall lbn, 0 <= lbn < zlen bl -> file_ptr d' (w_file w) lbn = bget bl lbn) /\
  (forall lbn, 12 + ptrs <= lbn < zlen bl -> leaf_ptr d' (w_file w) lbn ∈ L).
Proof using HG.
  intros [W1 W2 W3 W4 W5 W6 W7 W8 W9 W10 W11] Hnd Hpos Hmax HLv H12 H13 Hlast. destruct (ptrs_4 _ _ HG) as [Hp4 Hp]. pose proof (zlen_nonneg L).
  assert (forall x, x ∈ L -> 0 < x) as HposL by (intros x Hx; apply Hpos; unfold owned; rewrite !elem_of_app; by right; left).
  assert (forall lbn, 12 + ptrs <= lbn < zlen bl -> let o := (lbn - 12 - ptrs) / ptrs in 0 <= o < zlen L /\ leaf_ptr d' (w_file w) lbn = bget L o) as Hleaf.
  { intros lbn Hl o. assert (past G (zlen bl) = zlen bl - 12 - ptrs) as Ep by (unfold past; lia). assert (0 <= o < zlen L) as Ho by (split; [apply Z.div_pos; lia|apply Z.div_lt_upper_bound; lia]).
    split; [done|]. assert (L <> []) as HLn by (intros ->; change (zlen []) with 0 in Ho; lia). unfold leaf_ptr, dptr. rewrite (proj2 (Z.eqb_neq _ _) (W4 HLn)). rewrite (H13 (W4 HLn)). destruct W8 as (_ & _ & W8). by apply W8. }
  split.
  - intros lbn Hlbn. unfold file_ptr. destruct (Z.ltb_spec lbn 12); [apply W2; lia|]. destruct (Z.ltb_spec lbn (12 + ptrs)).
    + unfold dptr. rewrite (proj2 (Z.eqb_neq _ _) (W3 ltac:(lia))). rewrite H12 by (apply W3; lia). destruct W6 as (_ & _ & W6). rewrite W6 by lia. f_equal. lia.
    + destruct (Hleaf lbn ltac:(lia)) as [Ho ->]. set (o := (lbn - 12 - ptrs) / ptrs) in *. pose proof (Z.div_mod (lbn - 12 - ptrs) ptrs ltac:(lia)) as Hdm. pose proof (Z.mod_pos_bound (lbn - 12 - ptrs) ptrs ltac:(lia)) as Hmb. fold o in Hdm.
      unfold dptr. assert (0 < bget L o) by (apply HposL, bget_elem; lia). rewrite (proj2 (Z.eqb_neq _ 0)) by lia. assert (L <> []) as HLn by (intros ->; change (zlen []) with 0 in Ho; lia).
      destruct (decide (o = zlen L - 1)) as [Eo|No].
      * assert (block d' (bget L o) = w_dleaf w) as -> by (rewrite Eo; rewrite <- Hlast by done; unfold last_leaf; by rewrite (proj2 (Z.eqb_neq _ _)) by lia).
        destruct W10 as (_ & _ & W10). rewrite W10 by (done || lia). f_equal. rewrite <- Eo. nia.
      * rewrite HLv by lia. rewrite W9 by lia. f_equal. nia.
  - intros lbn Hlbn. destruct (Hleaf lbn Hlbn) as [Ho ->]. by apply bget_elem.
Qed.

Lemma elem_nz x k : x ∈ nz k <-> x = k /\ k <> 0.
Proof using. unfold nz. destruct (Z.eqb_spec k 0) as [->|]; [rewrite elem_of_nil|rewrite list_elem_of_singleton]; intuition congruence. Qed.
Lemma owned_apart w L : NoDup (owned w L) ->
  NoDup (w_blocks w) /\ NoDup L /\ (forall x, x ∈ w_blocks w -> (x ∉ L) /\ (x = i_block (w_file w) 12 -> x = 0) /\ (x = i_block (w_file w) 13 -> x = 0)) /\
  (forall x, x ∈ L -> (x = i_block (w_file w) 12 -> x = 0) /\ (x = i_block (w_file w) 13 -> x = 0)) /\
  (i_block (w_file w) 12 = i_block (w_file w) 13 -> i_block (w_file w) 12 = 0).
Proof using.
  unfold owned. intros (N1 & D1 & (N2 & D2 & (N3 & D3 & N4)%NoDup_app)%NoDup_app)%NoDup_app.
  split; [done|]. split; [done|]. split; [|split].
  - intros x Hx. specialize (D1 x Hx). rewrite !elem_of_app, !elem_nz in D1. split; [tauto|]. split; intros ->.
    + destruct (Z.eq_dec (i_block (w_file w) 12) 0); [done|]. exfalso. tauto.
    + destruct (Z.eq_dec (i_block (w_file w) 13) 0); [done|]. exfalso. tauto.
  - intros x Hx. specialize (D2 x Hx). rewrite !elem_of_app, !elem_nz in D2. split; intros ->.
    + destruct (Z.eq_dec (i_block (w_file w) 12) 0); [done|]. exfalso. tauto.
    + destruct (Z.eq_dec (i_block (w_file w) 13) 0); [done|]. exfalso. tauto.
  - intros E. destruct (Z.eq_dec (i_block (w_file w) 12) 0); [done|]. exfalso. apply (D3 (i_block (w_file w) 12)); rewrite elem_nz; split; congruence.
Qed.

Context (m : ext2_meta) (Em : m_block_size m = bs).

Lemma runs_inv code A t data bl t' :
  core A t -> (forall x, x ∈ bl -> x ∈ A) -> NoDup bl -> Forall is_byte data ->
  fail_as code (on_fs (on_dev (ext2_write_data_runs m data bl))) t = (Done tt, t') ->
  core A t' /\ keep (fun x => x ∈ bl) (fs_dev (tx_fs t)) (fs_dev (tx_fs t')) /\ forall i, 0 <= i < zlen bl -> block (fs_dev (tx_fs t')) (bget bl i) = chunk bs data i.
Proof using HG HL Hmeta0 Em.
  intros Hc Hin Hnd Hb E. apply fail_as_inv in E. unfold on_fs, on_dev, zoom in E. destruct (ext2_write_data_runs _ _ _ _) as [[[]| |] d'] eqn:Ew; [|done..]. injection E as <-.
  apply (write_runs_inv bs sz (bs_pos _ _ HG)) in Ew as [K B]; [|done|by apply core_ok in Hc|done|done|].
  2: { apply Forall_forall. intros x Hx. destruct (co_fresh _ _ _ _ _ _ Hc x (Hin x Hx)). pose proof (go_blocks _ _ HG). lia. }
  split; [apply (core_dev G sz HG d0 used0 Hmeta0); [done|]; eapply keeps_weaken; [exact K|]; intros x _ Hx; by apply Hin|]. split; [done|].
  intros j Hj. cbn [tx_fs fs_dev]. destruct (B _ _ (bget_lookup_some bl j Hj)) as [_ ->]. by rewrite Z2Nat.id by lia.
Qed.

(** From the blocks placed to the file on the device. *)
Lemma flush_inv c A w L data t t2 t3 t4 t' :
  core A t -> own A w L -> wrep file0 (fs_dev (tx_fs t)) w L (w_blocks w) -> zlen (w_blocks w) <= 12 + ptrs + ptrs * ptrs -> Forall is_byte data ->
  (if i_block (w_file w) 12 =? 0 then ret tt else fail_as (c_single c) (on_fs (on_dev (pwrite_block bs (i_block (w_file w) 12) (w_single w))))) t = (Done tt, t2) ->
  match w_dleaf_index w with None => ret tt | Some _ => fail_as (c_dleaf c) (on_fs (on_dev (pwrite_block bs (w_dleaf_block w) (w_dleaf w)))) end t2 = (Done tt, t3) ->
  (if i_block (w_file w) 13 =? 0 then ret tt else fail_as (c_droot c) (on_fs (on_dev (pwrite_block bs (i_block (w_file w) 13) (w_droot w))))) t3 = (Done tt, t4) ->
  fail_as (c_runs c) (on_fs (on_dev (ext2_write_data_runs m data (w_blocks w)))) t4 = (Done tt, t') ->
  core A t' /\ (forall lbn, 0 <= lbn < zlen (w_blocks w) -> file_ptr (fs_dev (tx_fs t')) (w_file w) lbn = bget (w_blocks w) lbn /\ block (fs_dev (tx_fs t')) (bget (w_blocks w) lbn) = chunk bs data lbn) /\
  (forall lbn, 12 + ptrs <= lbn < zlen (w_blocks w) -> leaf_ptr (fs_dev (tx_fs t')) (w_file w) lbn ∈ A).
Proof using HG HL Hmeta0 Em.
  intros Hc [Hnd Hin] Hw Hmax Hb E2 E3 E4 E5. pose proof Hw as [W1 W2 W3 W4 W5 W6 W7 W8 W9 W10 [W11 W12]].
  destruct (owned_apart w L Hnd) as (Nb & NL & Abl & AL & A1213).
  assert (forall x, x ∈ owned w L -> 0 < x) as Hpos by (intros x Hx; apply (co_fresh _ _ _ _ _ _ Hc), Hin, Hx).
  assert (forall x, x ∈ w_blocks w -> x ∈ owned w L) as Ibl by (intros x Hx; unfold owned; rewrite !elem_of_app; by left).
  assert (forall x, x ∈ L -> x ∈ owned w L) as IL by (intros x Hx; unfold owned; rewrite !elem_of_app; by right; left).
  assert (forall k, k = 12 \/ k = 13 -> i_block (w_file w) k = 0 \/ i_block (w_file w) k ∈ owned w L) as Ik.
  { intros k Hk. destruct (Z.eq_dec (i_block (w_file w) k) 0); [by left|right]. unfold owned. rewrite !elem_of_app, !elem_nz. destruct Hk as [-> | ->]; tauto. }
  apply (cond_write_inv _ A) in E2 as (Hc2 & K2 & B2); [|done|destruct (Ik 12 ltac:(by left)); [by left|right; by apply Hin]|apply W6|apply W6].
  assert ((if last_leaf L =? 0 then ret tt else fail_as (c_dleaf c) (on_fs (on_dev (pwrite_block bs (last_leaf L) (w_dleaf w))))) t2 = (Done tt, t3)) as E3'.
  { rewrite W11 in E3. unfold last_leaf. destruct (Z.eqb_spec (zlen L) 0) as [Ez|Nz]; [done|]. assert (L <> []) as HLn by (intros ->; by apply Nz). rewrite (W12 HLn) in E3.
    assert (0 < bget L (zlen L - 1)) by (apply Hpos, IL, bget_elem; pose proof (zlen_nonneg L); lia). by rewrite (proj2 (Z.eqb_neq _ 0)) by lia. }
  assert (last_leaf L = 0 \/ last_leaf L ∈ L) as Hll by (unfold last_leaf; destruct (Z.eqb_spec (zlen L) 0); [by left|right; apply bget_elem; pose proof (zlen_nonneg L); lia]).
  apply (cond_write_inv _ A) in E3' as (Hc3 & K3 & B3); [|done|destruct Hll; [by left|right; by apply Hin, IL]|apply W10|apply W10]. clear E3.
  apply (cond_write_inv _ A) in E4 as (Hc4 & K4 & B4); [|done|destruct (Ik 13 ltac:(by right)); [by left|right; by apply Hin]|apply W8|apply W8].
  apply (runs_inv _ A) in E5 as (Hc5 & K5 & B5); [|done|by intros x Hx; apply Hin, Ibl|done|done].
  set (d1 := fs_dev (tx_fs t)) in *. set (d2 := fs_dev (tx_fs t2)) in *. set (d3 := fs_dev (tx_fs t3)) in *. set (d4 := fs_dev (tx_fs t4)) in *. set (d5 := fs_dev (tx_fs t')) in *.
  assert (forall x, x ∈ owned w L -> ins x) as Hins by (intros x Hx; eapply core_inside; [exact HG|exact Hc|by apply Hin]).
  destruct (ptrs_written w L (w_blocks w) d1 d5) as [P1 P2]; try done.
  - intros o Ho. assert (bget L o ∈ L) as HoL by (apply bget_elem; lia). destruct (AL _ HoL) as [N12 N13]. pose proof (Hpos _ (IL _ HoL)). pose proof (Hins _ (IL _ HoL)) as Hi.
    rewrite (ks_blk _ _ _ _ _ K5), (ks_blk _ _ _ _ _ K4), (ks_blk _ _ _ _ _ K3), (ks_blk _ _ _ _ _ K2); try done.
    + intros [E12 _]. specialize (N12 E12). lia.
    + intros [El _]. unfold last_leaf in El. rewrite (proj2 (Z.eqb_neq (zlen L) 0)) in El by lia. apply bget_nodup in El; [lia|done|lia|lia].
    + intros [E13 _]. specialize (N13 E13). lia.
    + intros Hx. by apply (Abl _ Hx).
  - intros N12. destruct (Ik 12 ltac:(by left)) as [|I12]; [done|]. pose proof (Hins _ I12). rewrite (ks_blk _ _ _ _ _ K5), (ks_blk _ _ _ _ _ K4), (ks_blk _ _ _ _ _ K3); [by apply B2|done|..|done| |done|].
    + intros [El Hl0]. destruct Hll as [|Hll]; [done|]. apply N12. rewrite El. exact (proj1 (AL _ Hll) (eq_sym El)).
    + intros [E13 _]. by apply N12, A1213.
    + intros Hx. apply N12. exact (proj1 (proj2 (Abl _ Hx)) eq_refl).
  - intros N13. destruct (Ik 13 ltac:(by right)) as [|I13]; [done|]. pose proof (Hins _ I13). rewrite (ks_blk _ _ _ _ _ K5); [by apply B4|done|]. intros Hx. apply N13. exact (proj2 (proj2 (Abl _ Hx)) eq_refl).
  - intros HLn. destruct Hll as [Hl0|Hll].
    { exfalso. unfold last_leaf in Hl0. destruct (Z.eqb_spec (zlen L) 0) as [Ez|Nz]; [destruct L; [done|rewrite zlen_cons in Ez; pose proof (zlen_nonneg L); lia]|].
      assert (0 < bget L (zlen L - 1)); [|lia]. apply Hpos, IL, bget_elem. pose proof (zlen_nonneg L). lia. }
    pose proof (Hpos _ (IL _ Hll)). pose proof (Hins _ (IL _ Hll)). destruct (AL _ Hll) as [_ N13]. rewrite (ks_blk _ _ _ _ _ K5), (ks_blk _ _ _ _ _ K4); [apply B3; lia|done| |done|].
    + intros [E13 _]. specialize (N13 E13). lia.
    + intros Hx. by apply (Abl _ Hx).
  - split; [done|]. split; [intros lbn Hl; split; [by apply P1|by apply B5]|]. intros lbn Hl. apply Hin, IL. by apply P2.
Qed.

(** What writing a file leaves: the blocks [A] were free, the inode is [f], and nothing else
    but metadata is changed. *)
Record written (t' : tx S) (ino : Z) (data : list Z) (A f : list Z) : Prop := Written {
  wt_keep : keep (fun k => k ∈ A \/ meta_block G k) d0 (fs_dev (tx_fs t'));
  wt_mem : mem_ok G (fs_meta (tx_fs t')); wt_disk : disk_meta G (fs_dev (tx_fs t')) (fs_meta (tx_fs t'));
  wt_fresh : forall k, k ∈ A -> 0 < k < g_blocks G /\ used0 k = false;
  wt_used : forall k, 0 <= k < g_blocks G -> used G (bmap G (fs_dev (tx_fs t'))) k = (bool_decide (k ∈ A) || used0 k);
  wt_ino : ino_ok G ino /\ inode_at G (fs_dev (tx_fs t')) ino = f;
  wt_inodes : forall j, ino_ok G j -> j <> ino -> inode_at G (fs_dev (tx_fs t')) j = inode_at G d0 j;
  wt_imaps : forall g, 0 <= g < g_groups G -> block (fs_dev (tx_fs t')) (loc G (RIb g)) = block d0 (loc G (RIb g));
  wt_head : zlen f = INODE_SIZE /\ Forall is_byte f /\ (forall p, 0 <= p < 28 -> bget f p = bget file0 p) /\ i_block f 14 = 0;
  wt_roots : forall k, k = 12 \/ k = 13 -> i_block f k = 0 \/ i_block f k ∈ A;
  wt_leaves : forall lbn, 12 + ptrs <= lbn < need_blocks m (zlen data) -> leaf_ptr (fs_dev (tx_fs t')) f lbn ∈ A;
  wt_data : forall lbn, 0 <= lbn < need_blocks m (zlen data) ->
    file_ptr (fs_dev (tx_fs t')) f lbn ∈ A /\ block (fs_dev (tx_fs t')) (file_ptr (fs_dev (tx_fs t')) f lbn) = chunk bs data lbn;
}.

Lemma file_ptr_ext d d' f f' lbn (P : Z -> Prop) :
  (forall k, P k -> block d' k = block d k) -> (forall k, 0 <= k < 15 -> i_block f' k = i_block f k) -> 0 <= lbn ->
  (i_block f 12 = 0 \/ P (i_block f 12)) -> (i_block f 13 = 0 \/ P (i_block f 13)) -> (12 + ptrs <= lbn -> leaf_ptr d f lbn = 0 \/ P (leaf_ptr d f lbn)) ->
  file_ptr d' f' lbn = file_ptr d f lbn /\ (12 + ptrs <= lbn -> leaf_ptr d' f' lbn = leaf_ptr d f lbn).
Proof using HG.
  intros Hb Hf Hl H12 H13 Hlf. assert (forall k i, k = 0 \/ P k -> dptr d' k i = dptr d k i) as Ed.
  { intros k i Hk. unfold dptr. destruct (Z.eqb_spec k 0); [done|]. destruct Hk; [done|]. by rewrite Hb. }
  destruct (ptrs_4 _ _ HG). assert (leaf_ptr d' f' lbn = leaf_ptr d f lbn) as El by (unfold leaf_ptr; rewrite Hf by lia; by apply Ed).
  split; [|done]. unfold file_ptr. rewrite El. destruct (Z.ltb_spec lbn 12); [by apply Hf; lia|]. destruct (Z.ltb_spec lbn (12 + ptrs)).
  - rewrite Hf by lia. by apply Ed.
  - apply Ed, Hlf. lia.
Qed.

Lemma write_blocks_inv c ino data t0 t' :
  ok d0 -> fs_dev (tx_fs t0) = d0 -> mem_ok G (fs_meta (tx_fs t0)) -> ctx_ok G d0 t0 -> (forall k, 0 <= k < g_blocks G -> used G (tmap G d0 t0) k = used0 k) ->
  zlen file0 = INODE_SIZE -> Forall is_byte file0 -> (forall k, 0 <= k < 15 -> i_block file0 k = 0) -> Forall is_byte data -> zlen data <= UINT32_MAX -> need_blocks m (zlen data) <= max_data_blocks m -> 0 <= ino ->
  write_blocks c m ino file0 data t0 = (Done tt, t') -> exists A f, written t' ino data A f.
Proof using HG HL Hmeta0 Em.
  intros Hd Et Hm Hc Hu Hl0 Hb0 Hz0 Hdata Hlen Hmax Hino E. pose proof (bs_pos _ _ HG) as Hbs. destruct (ptrs_4 _ _ HG) as [Hp4 Hp].
  assert (core [] t0) as C0 by (split; rewrite ?Et; try done; [by intros k Hk%elem_of_nil|constructor]).
  assert (own [] (wst_start m file0) []) as O0.
  { assert (owned (wst_start m file0) [] = []) as Eo by (unfold owned, wst_start; cbn [w_blocks w_file]; rewrite !Hz0 by lia; done). split; rewrite Eo; [constructor|done]. }
  assert (wrep file0 (fs_dev (tx_fs t0)) (wst_start m file0) [] []) as W0.
  { unfold wst_start. split; cbn [w_file w_single w_droot w_dleaf w_dleaf_block w_dleaf_index]; rewrite ?Em; try done.
    - intros i Hi. rewrite Hz0 by lia. symmetry. apply bget_past. change (zlen []) with 0. lia.
    - apply Hz0. lia.
    - split; [by apply zlen_zrep; lia|]. split; [apply zrep0_bytes|]. intros j Hj. rewrite le32_zrep. symmetry. apply bget_past. change (zlen []) with 0. lia.
    - unfold past. change (zlen []) with 0. lia.
    - split; [by apply zlen_zrep; lia|]. split; [apply zrep0_bytes|]. change (zlen []) with 0. lia.
    - change (zlen []) with 0. lia.
    - split; [by apply zlen_zrep; lia|]. split; [apply zrep0_bytes|done]. }
  assert (0 <= need_blocks m (zlen data)) as Hneed by (unfold need_blocks; rewrite Em; pose proof (zlen_nonneg data); case_match; [lia|apply Z.div_pos; lia]).
  unfold write_blocks in E. rewrite Em in E. cbv zeta in E. apply bind_inv in E as (w & t1 & E1 & E).
  destruct (place_blocks_inv G sz HG d0 used0 Hmeta0 file0 m Em (Z.to_nat (need_blocks m (zlen data))) (c_alloc c) (c_leaf c) [] t0 (wst_start m file0) [] w t1 C0 O0 W0) as (A & L & C1 & O1 & W1 & Hzb); [cbn [w_blocks wst_start]; change (zlen []) with 0; lia|exact E1|].
  cbn [w_blocks wst_start] in Hzb. change (zlen []) with 0 in Hzb. rewrite Z2Nat.id, Z.add_0_l in Hzb by lia. unfold max_data_blocks in Hmax. rewrite Em in Hmax.
  apply bind_inv in E as ([] & t2 & E2 & E). apply bind_inv in E as ([] & t3 & E3 & E). apply bind_inv in E as ([] & t4 & E4 & E). apply bind_inv in E as ([] & t5 & E5 & E).
  destruct (flush_inv c A w L data t1 t2 t3 t4 t5 C1 O1 W1 ltac:(lia) Hdata E2 E3 E4 E5) as (C5 & B5 & P5). clear E2 E3 E4 E5. rewrite Hzb in B5, P5.
  apply bind_inv in E as ([] & t6 & E6 & E7). apply fail_as_inv in E6. set (d5 := fs_dev (tx_fs t5)) in *.
  apply (commit_inv G sz HG d5) in E6 as (Em6 & K6 & D6 & U6 & R6); [|by apply core_ok in C5|done|apply (co_mem _ _ _ _ _ _ C5)|apply (co_ctx _ _ _ _ _ _ C5)]. set (d6 := fs_dev (tx_fs t6)) in *.
  apply fail_as_inv in E7. unfold on_fs, zoom in E7. destruct ((let* m0 := the_meta in _) (tx_fs t6)) as [[[]| |] s7] eqn:E8; [|done..]. injection E7 as <-.
  unfold the_meta in E8. rewrite bind_gets in E8. unfold on_dev, zoom in E8. fold d6 in E8. destruct (ext2_write_inode_at _ _ _ _) as [[[]| |] d7] eqn:E9; [|done..]. injection E8 as <-.
  set (f := set_i_blocks (w_allocated w * (bs / 512)) (w_file w)) in *. destruct (wr_file _ _ _ _ _ _ W1) as (Wl & Wb & Wh). unfold INODE_SIZE in *.
  assert (mem_ok G (fs_meta (tx_fs t6))) as Hm6 by (rewrite Em6; apply (co_mem _ _ _ _ _ _ C5)).
  assert (zlen f = 128) as Hlf by (apply zlen_splice_n; rewrite ?zlen_put32; lia).
  assert (Forall is_byte f) as Hbf by (apply splice_bytes; [done|apply put32_bytes]).
  apply (write_inode_inv G sz HG) in E9 as (Hok & K9 & I9 & J9); [|done|apply K6|done|done|done].
  assert (forall k, 0 <= k < 15 -> i_block f k = i_block (w_file w) k) as Eif by (intros k Hk; apply le32_splice_out; rewrite ?zlen_put32; lia).
  cbn [fs_meta] in *. set (m6 := fs_meta (tx_fs t6)) in *.
  assert (forall x, x ∈ A -> ~ meta_block G x) as NM by (intros x Hx; eapply fresh_not_meta; eauto).
  assert (meta_block G (iblk G ino)) as Mi by (eexists; split; [by apply (ino_role_valid _ _ HG)|done]).
  assert (forall x, x ∈ A -> block d7 x = block d5 x) as B75.
  { intros x Hx. pose proof (core_inside G sz HG _ _ _ _ _ C5 Hx). rewrite (ks_blk _ _ _ _ _ K9), (ks_blk _ _ _ _ _ K6); [done|done|by apply NM|done|]. intros <-. by apply (NM _ Hx). }
  assert (forall r, valid G r -> (forall g t, r <> RIt g t) -> block d7 (loc G r) = block d6 (loc G r)) as M76.
  { intros r Hv Hne. apply (ks_blk _ _ _ _ _ K9); [by apply (loc_inside _ _ HG)|]. intros Er. apply (loc_inj _ _ HG) in Er; [|by apply (ino_role_valid _ _ HG)|done]. by eapply Hne. }
  assert (forall r, valid G r -> block d5 (loc G r) = block d0 (loc G r)) as M50.
  { intros r Hv. apply (ks_blk _ _ _ _ _ (co_keep _ _ _ _ _ _ C5)); [by apply (loc_inside _ _ HG)|]. intros Hx. apply (NM _ Hx). by exists r. }
  assert (forall j, ino_ok G j -> inode_at G d6 j = inode_at G d0 j) as J60.
  { intros j Hj. unfold inode_at. pose proof (ino_role_valid _ _ HG j Hj) as Hv. unfold iblk. by rewrite (R6 _ Hv), (M50 _ Hv). }
  assert (forall x, x ∈ A -> ins x) as Hins by (intros x Hx; eapply core_inside; eauto).
  assert (forall k, k = 12 \/ k = 13 -> i_block (w_file w) k = 0 \/ i_block (w_file w) k ∈ A) as Ik.
  { intros k Hk. destruct (Z.eq_dec (i_block (w_file w) k) 0); [by left|right]. apply (ow_in _ _ _ O1). unfold owned. rewrite !elem_of_app, !elem_nz. destruct Hk as [-> | ->]; tauto. }
  assert (forall lbn, 0 <= lbn < need_blocks m (zlen data) -> file_ptr d7 f lbn = file_ptr d5 (w_file w) lbn /\ (12 + ptrs <= lbn -> leaf_ptr d7 f lbn = leaf_ptr d5 (w_file w) lbn)) as Fp.
  { intros lbn Hl. apply (file_ptr_ext d5 d7 _ _ lbn (fun x => x ∈ A)); try done; try lia; [by apply Ik; left|by apply Ik; right|]. intros. right. apply P5. lia. }
  assert (forall lbn, 0 <= lbn < need_blocks m (zlen data) -> bget (w_blocks w) lbn ∈ A) as Ibl.
  { intros lbn Hl. apply (ow_in _ _ _ O1). unfold owned. rewrite elem_of_app. left. apply bget_elem. lia. }
  exists A, f. split; cbn [tx_fs fs_dev fs_meta].
  - eapply keeps_trans with d5; [eapply keeps_weaken; [apply (co_keep _ _ _ _ _ _ C5)|by left]|]. eapply keeps_trans with d6; (eapply keeps_weaken; [eassumption|]); [by right|]. intros x _ <-. by right.
  - done.
  - rewrite Em6. destruct D6 as [D1 D2]. split; [unfold disk_sb; rewrite M76 by done; exact D1|]. intros k Hk. rewrite M76 by done. by apply D2.
  - apply (co_fresh _ _ _ _ _ _ C5).
  - intros k Hk. rewrite <- (co_used _ _ _ _ _ _ C5) by done. apply (used_ext G sz HG); [|done]. intros g Hg. unfold bmap. rewrite M76 by done. by apply U6.
  - done.
  - intros j Hj Hne. rewrite J9 by done. by apply J60.
  - intros g Hg. rewrite M76, R6, M50 by done. done.
  - split; [done|]. split; [done|]. split; [|rewrite Eif by lia; apply (wr_14 _ _ _ _ _ _ W1)]. intros p' Hp'. rewrite <- Wh by lia. apply bget_splice_out; rewrite ?zlen_put32; lia.
  - intros k Hk. rewrite Eif by lia. by apply Ik.
  - intros lbn Hl. destruct (Fp lbn ltac:(lia)) as [_ ->]; [|lia]. by apply P5.
  - intros lbn Hl. destruct (Fp lbn Hl) as [-> _]. destruct (B5 lbn Hl) as [-> E5]. pose proof (Ibl lbn Hl). split; [done|]. by rewrite B75.
Qed.
End writing.
End file.
