(* ===== verification/Ext2Wf.v ===== *)
(** * Ext2Wf: the invariant of an EXT2 file system

    What every operation may rely on: the metadata in memory is that on the
    device, every metadata block is marked used, and the directories' blocks
    are used, well formed and shared by nobody.  The immediate allocators keep
    it. *)
From S2P Require Import Prelude Text Store Ext2 Ext2Alloc Ext2Ops Ext2Dir Ext2Block Ext2Layout Ext2Meta Ext2Tx Ext2Place Ext2File.
#[local] Open Scope Z_scope.

Section wf.
Context {S : Type} {HS : ByteStore S} {HL : ByteStoreLaws S} (G : geo) (sz : Z) (HG : geo_ok G sz).
Local Abbreviation bs := (g_bs G).
Local Abbreviation ok := (dev_ok sz).
Local Abbreviation keep := (keeps bs sz).
Local Abbreviation block := (blk bs).
Local Abbreviation ino_at := (inode_at G).

Definition imap (d : S) (g : Z) : list Z := block d (loc G (RIb g)).
Definition ino_used (d : S) (ino : Z) : bool := test_bit (imap d (ino_group G ino)) (ino_local G ino).
Definition dir_ino (d : S) (ino : Z) : Prop := ino_ok G ino /\ is_dir (ino_at d ino) = true.

Record fs_wf (d : S) (m : ext2_meta) : Prop := FsWf {
  fw_dev : ok d; fw_mem : mem_ok G m; fw_disk : disk_meta G d m;
  fw_meta : forall r, valid G r -> used G (bmap G d) (loc G r) = true;
  fw_inode : forall ino, dir_ino d ino -> ino_used d ino = true;
  fw_block : forall ino j, dir_ino d ino -> 0 <= j < 12 -> i_block (ino_at d ino) j <> 0 ->
    let b := i_block (ino_at d ino) j in
    0 < b < g_blocks G /\ used G (bmap G d) b = true /\ ~ meta_block G b /\ exists ps, chain (block d b) bs 0 ps;
  fw_gap : forall ino j k, dir_ino d ino -> 0 <= j <= k -> k < 12 -> i_block (ino_at d ino) j = 0 -> i_block (ino_at d ino) k = 0;
  fw_apart : forall a j b k, dir_ino d a -> dir_ino d b -> 0 <= j < 12 -> 0 <= k < 12 -> i_block (ino_at d a) j <> 0 ->
    i_block (ino_at d a) j = i_block (ino_at d b) k -> a = b /\ j = k;
}.

(** ** The allocators that store at once *)

(** The metadata blocks that hold no bitmap and no inode. *)
Definition desc_block (k : Z) : Prop := k = loc G RSuper \/ exists j, 0 <= j < g_gdtn G /\ k = loc G (RGdt j).
Lemma desc_not r : valid G r -> r <> RSuper -> (forall k, r <> RGdt k) -> ~ desc_block (loc G r).
Proof using HG. intros Hv N1 N2 [E|(j & Hj & E)]; apply (loc_inj _ _ HG) in E; try done. by eapply N2. Qed.

Record block_taken (s s' : fs S) (b : Z) : Prop := BlockTaken {
  bt_range : 0 <= b < g_blocks G; bt_free : used G (bmap G (fs_dev s)) b = false;
  bt_used : forall k, 0 <= k < g_blocks G -> used G (bmap G (fs_dev s')) k = (b =? k) || used G (bmap G (fs_dev s)) k;
  bt_keep : keep (fun k => desc_block k \/ exists g, 0 <= g < g_groups G /\ k = loc G (RBb g)) (fs_dev s) (fs_dev s');
  bt_mem : mem_ok G (fs_meta s'); bt_disk : disk_meta G (fs_dev s') (fs_meta s');
}.

Lemma alloc_block_loop_inv n g s b s' :
  ok (fs_dev s) -> mem_ok G (fs_meta s) -> 0 <= g -> g + Z.of_nat n = g_groups G ->
  alloc_block_loop n g s = (Done b, s') -> b <> 0 -> block_taken s s' b.
Proof using HG HL.
  pose proof (bs_pos _ _ HG) as Hbs. pose proof (go_bpg _ _ HG). revert g. induction n as [|n IH]; intros g Hd Hm Hg Hn E Hb; cbn [alloc_block_loop] in E; [by injection E as <-|].
  unfold bind at 1, get in E. destruct s as [d m]. cbn [fs_meta fs_dev] in *. assert (0 <= g < g_groups G) as Hgr by lia. assert (valid G (RBb g)) as Hv by done.
  destruct (bg_free_blocks_count (m_gd m) g =? 0); [apply IH in E; try done; lia|].
  unfold bind at 1, try, on_dev, zoom in E. cbn [fs_dev fs_meta] in E. rewrite (mk_bb _ _ Hm g Hgr), (mk_bs _ _ Hm) in E.
  rewrite (pread_block_ok bs sz Hbs _ d Hd (loc_inside _ _ HG _ Hv)) in E. change (block d (loc G (RBb g))) with (bmap G d g) in E.
  destruct (group_blocks G sz HG m g Hm Hgr) as [Hgb1 Hgb2].
  destruct (find_free_block _ 0 (bmap G d g)) as [l|] eqn:Ef; [|apply IH in E; try done; lia]. apply find_free_block_some in Ef as [Hl Hlf]. rewrite Z2Nat.id in Hl by lia.
  assert (zlen (bmap G d g) = bs) as Hzl by by apply zlen_blk. assert (Forall is_byte (bmap G d g)) as Hbb by (apply (blk_bytes bs sz); [done|done|by apply (loc_inside _ _ HG)]).
  unfold bind at 1, try in E. cbn [fs_dev fs_meta] in E. destruct (pwrite_block _ _ _ d) as [[[]| |] d1] eqn:E1; [|by injection E as <-|done].
  apply (pwrite_block_inv bs sz Hbs) in E1 as (_ & K1 & B1); [|done|by apply set_bit_bytes; [|lia]|by apply (loc_range _ _ HG)|by rewrite zlen_set_bit by lia].
  unfold bind at 1, set_meta, modify in E. cbn [fs_dev fs_meta] in E. assert (mem_ok G (take_block g m)) as Hm1 by by apply mem_ok_take_block.
  unfold bind, try, store_meta, get, on_dev, zoom in E. cbn [fs_dev fs_meta] in E. unfold bind in E. cbn [fs_dev fs_meta] in E. destruct (ext2_store_meta _ d1) as [[[]| |] d2] eqn:E2; [|by injection E as <-|done]. injection E as Eb <-.
  apply (store_meta_inv G sz HG) in E2 as [K2 D2]; [|done|apply K1]. destruct (block_number_ok G sz HG m g l Hm Hgr ltac:(lia)) as (Eb0 & Eb1 & Eb2). rewrite Eb in Eb0.
  assert (forall h, 0 <= h < g_groups G -> bmap G d2 h = if g =? h then set_bit (bmap G d g) l else bmap G d h) as Ebm.
  { intros h Hh. unfold bmap at 1. rewrite (ks_blk _ _ _ _ _ K2); [|by apply (loc_inside _ _ HG)|by apply desc_not]. destruct (Z.eqb_spec g h) as [<-|Hne]; [done|].
    apply (ks_blk _ _ _ _ _ K1); [by apply (loc_inside _ _ HG)|]. intros El. apply (loc_inj _ _ HG) in El; [congruence|done|done]. }
  split; cbn [fs_dev fs_meta]; [nia| | |..|done|done].
  - unfold used. by rewrite Eb0, Eb1, Eb2.
  - intros k Hk. unfold used. destruct (block_group G sz HG k Hk) as [Hkg Hkl]. rewrite Ebm by done. destruct (Z.eqb_spec g (k / g_bpg G)) as [Eg|Ng].
    + rewrite test_set_bit by lia. rewrite <- Eg. f_equal. rewrite Eb0. pose proof (Z.div_mod k (g_bpg G) ltac:(lia)). destruct (Z.eqb_spec l (k mod g_bpg G)), (Z.eqb_spec (g * g_bpg G + l) k); try done; nia.
    + rewrite (proj2 (Z.eqb_neq b k)); [done|]. intros <-. apply Ng. by rewrite Eb0.
  - eapply keeps_trans; (eapply keeps_weaken; [eassumption|]); [|by left]. intros x _ <-. right. by exists g.
Qed.
Lemma alloc_block_inv s b s' : ok (fs_dev s) -> mem_ok G (fs_meta s) -> ext2_alloc_block s = (Done b, s') -> b <> 0 -> block_taken s s' b.
Proof using HG HL.
  intros Hd Hm E. unfold ext2_alloc_block, bind, get in E. rewrite (mk_groups _ _ Hm) in E. pose proof (go_groups _ _ HG). apply alloc_block_loop_inv with (5 := E); try done; lia.
Qed.

Lemma mem_ok_take_inode m g l : mem_ok G m -> 0 <= g -> mem_ok G (take_inode g l m).
Proof using. intros Hm Hg. unfold take_inode, set_bg_free_inodes_count. apply (mem_ok_sb _ _ 16 (u32 _)); [|lia]. by apply mem_ok_gd; [|lia|]. Qed.
Lemma find_free_inode_some n l m g ib x : mem_ok G m -> 0 <= g < g_groups G -> 0 <= l -> l + Z.of_nat n <= g_ipg G -> find_free_inode n l m g ib = Some x ->
  l <= x < l + Z.of_nat n /\ test_bit ib x = false /\ g * g_ipg G + x + 1 <= g_inodes G.
Proof using HG.
  intros Hm Hg. pose proof (go_ipg _ _ HG). pose proof (go_groups _ _ HG) as Hgs. change EXT2_MAX_GROUPS with 1024 in Hgs. pose proof (bs_pos _ _ HG).
  revert l. induction n as [|n IH]; intros l Hl0 Hl; cbn [find_free_inode]; [done|]. rewrite (mk_ipg _ _ Hm), (mk_inodes _ _ Hm). rewrite !u32_id by (rewrite ?u32_id; nia).
  destruct (Z.ltb_spec (g_inodes G) (g * g_ipg G + l + 1)); [done|]. destruct (_ && _); [intros E; destruct (IH (l + 1) ltac:(lia) ltac:(lia) E) as (?&?&?); split_and!; (lia || done)|].
  destruct (test_bit ib l) eqn:E; cbn [negb]; [intros Ex; destruct (IH (l + 1) ltac:(lia) ltac:(lia) Ex) as (?&?&?); split_and!; (lia || done)|]. intros [= <-]. split_and!; [lia|lia|done|lia].
Qed.
Lemma ino_of_bit g x : 0 <= g < g_groups G -> 0 <= x < g_ipg G -> ino_group G (g * g_ipg G + x + 1) = g /\ ino_local G (g * g_ipg G + x + 1) = x.
Proof using HG.
  intros. unfold ino_group, ino_local. replace (g * g_ipg G + x + 1 - 1) with (g * g_ipg G + x) by lia.
  split; symmetry; [apply Z.div_unique with x; lia|apply Z.mod_unique with g; lia].
Qed.
Lemma ino_bit_inj a b : ino_ok G a -> ino_ok G b -> ino_group G a = ino_group G b -> ino_local G a = ino_local G b -> a = b.
Proof using HG.
  unfold ino_ok, ino_group, ino_local. intros. pose proof (go_ipg _ _ HG). pose proof (Z.div_mod (a - 1) (g_ipg G) ltac:(lia)). pose proof (Z.div_mod (b - 1) (g_ipg G) ltac:(lia)). nia.
Qed.

Record ino_taken (s s' : fs S) (ino : Z) : Prop := InoTaken {
  it_ok : ino_ok G ino; it_free : ino_used (fs_dev s) ino = false;
  it_used : forall j, ino_ok G j -> ino_used (fs_dev s') j = (ino =? j) || ino_used (fs_dev s) j;
  it_keep : keep (fun k => desc_block k \/ exists g, 0 <= g < g_groups G /\ k = loc G (RIb g)) (fs_dev s) (fs_dev s');
  it_mem : mem_ok G (fs_meta s'); it_disk : disk_meta G (fs_dev s') (fs_meta s');
}.
Lemma alloc_inode_loop_inv n g s ino s' :
  ok (fs_dev s) -> mem_ok G (fs_meta s) -> 0 <= g -> g + Z.of_nat n = g_groups G ->
  alloc_inode_loop n g s = (Done ino, s') -> ino <> 0 -> ino_taken s s' ino.
Proof using HG HL.
  pose proof (bs_pos _ _ HG) as Hbs. pose proof (go_ipg _ _ HG) as Hipg. revert g. induction n as [|n IH]; intros g Hd Hm Hg Hn E Hb; cbn [alloc_inode_loop] in E; [by injection E as <-|].
  unfold bind at 1, get in E. destruct s as [d m]. cbn [fs_meta fs_dev] in *. assert (0 <= g < g_groups G) as Hgr by lia. assert (valid G (RIb g)) as Hv by done.
  destruct (bg_free_inodes_count (m_gd m) g =? 0); [apply IH in E; try done; lia|].
  unfold bind at 1, try, on_dev, zoom in E. cbn [fs_dev fs_meta] in E. rewrite (mk_ib _ _ Hm g Hgr), (mk_bs _ _ Hm), (mk_ipg _ _ Hm) in E.
  rewrite (pread_block_ok bs sz Hbs _ d Hd (loc_inside _ _ HG _ Hv)) in E. change (block d (loc G (RIb g))) with (imap d g) in E.
  destruct (find_free_inode _ 0 m g (imap d g)) as [l|] eqn:Ef; [|apply IH in E; try done; lia]. apply find_free_inode_some in Ef as (Hl & Hlf & Hino); [|done|done|lia|lia]. rewrite Z2Nat.id in Hl by lia.
  assert (zlen (imap d g) = bs) as Hzl by by apply zlen_blk. assert (Forall is_byte (imap d g)) as Hbb by (apply (blk_bytes bs sz); [done|done|by apply (loc_inside _ _ HG)]).
  unfold bind at 1, try in E. cbn [fs_dev fs_meta] in E. destruct (pwrite_block _ _ _ d) as [[[]| |] d1] eqn:E1; [|by injection E as <-|done].
  apply (pwrite_block_inv bs sz Hbs) in E1 as (_ & K1 & B1); [|done|by apply set_bit_bytes; [|lia]|by apply (loc_range _ _ HG)|by rewrite zlen_set_bit by lia].
  unfold bind at 1, set_meta, modify in E. cbn [fs_dev fs_meta] in E. assert (mem_ok G (take_inode g l m)) as Hm1 by by apply mem_ok_take_inode.
  unfold bind, try, store_meta, get, on_dev, zoom in E. cbn [fs_dev fs_meta] in E. unfold bind in E. cbn [fs_dev fs_meta] in E. destruct (ext2_store_meta _ d1) as [[[]| |] d2] eqn:E2; [|by injection E as <-|done]. injection E as Eb <-.
  apply (store_meta_inv G sz HG) in E2 as [K2 D2]; [|done|apply K1]. pose proof (go_groups _ _ HG) as Hgs. change EXT2_MAX_GROUPS with 1024 in Hgs.
  rewrite !u32_id in Eb by (rewrite ?u32_id; nia). destruct (ino_of_bit g l Hgr ltac:(lia)) as [Eg El]. rewrite Eb in Eg, El, Hino.
  assert (ino_ok G ino) as Hok by (split; nia).
  assert (forall h, 0 <= h < g_groups G -> imap d2 h = if g =? h then set_bit (imap d g) l else imap d h) as Ebm.
  { intros h Hh. unfold imap at 1. rewrite (ks_blk _ _ _ _ _ K2); [|by apply (loc_inside _ _ HG)|by apply desc_not]. destruct (Z.eqb_spec g h) as [<-|Hne]; [done|].
    apply (ks_blk _ _ _ _ _ K1); [by apply (loc_inside _ _ HG)|]. intros Ex. apply (loc_inj _ _ HG) in Ex; [congruence|done|done]. }
  split; cbn [fs_dev fs_meta]; [done| | |..|done|done].
  - unfold ino_used. by rewrite Eg, El.
  - intros j Hj. destruct (ino_group_range _ _ HG j Hj) as [Hjg Hjl]. unfold ino_used. rewrite Ebm by done. destruct (Z.eqb_spec g (ino_group G j)) as [Ej|Nj].
    + rewrite test_set_bit by lia. rewrite <- Ej. f_equal. destruct (Z.eqb_spec l (ino_local G j)) as [Elj|], (Z.eqb_spec ino j) as [->|]; try done; try congruence.
      exfalso. assert (ino = j); [|done]. apply ino_bit_inj; congruence.
    + rewrite (proj2 (Z.eqb_neq ino j)); [done|]. intros <-. congruence.
  - eapply keeps_trans; (eapply keeps_weaken; [eassumption|]); [|by left]. intros x _ <-. right. by exists g.
Qed.
Lemma alloc_inode_inv s ino s' : ok (fs_dev s) -> mem_ok G (fs_meta s) -> ext2_alloc_inode s = (Done ino, s') -> ino <> 0 -> ino_taken s s' ino.
Proof using HG HL.
  intros Hd Hm E. unfold ext2_alloc_inode, bind, get in E. rewrite (mk_groups _ _ Hm) in E. pose proof (go_groups _ _ HG). apply alloc_inode_loop_inv with (5 := E); try done; lia.
Qed.
End wf.
