(* ===== verification/Ext2Look.v ===== *)
(** * Ext2Look: what a name means in a directory

    [dlookup] is the entry a directory holds under a name; looking names up
    returns it.  Adding an entry changes that for one name of one directory and
    keeps the invariant of the file system. *)
From S2P Require Import Prelude Text Store Ext2 Ext2Alloc Ext2Ops Ext2Dir Ext2Block Ext2Layout Ext2Meta Ext2Tx Ext2Place Ext2File Ext2Wf.
#[local] Open Scope Z_scope.

Section look.
Context {S : Type} {HS : ByteStore S} {HL : ByteStoreLaws S} (G : geo) (sz : Z) (HG : geo_ok G sz).
Local Abbreviation bs := (g_bs G).
Local Abbreviation ok := (dev_ok sz).
Local Abbreviation keep := (keeps bs sz).
Local Abbreviation block := (blk bs).
Local Abbreviation ino_at := (inode_at G).
Local Abbreviation fs_wf := (fs_wf G sz).
Local Abbreviation dir_ino := (dir_ino G).
Local Abbreviation in_use d := (used G (bmap G d)).

(** The entry in one block of a directory, and in the blocks [bi], [bi + 1], ... *)
Definition bfind (d : S) (k : Z) (name : list Z) : option (Z * Z) := find_in_block (dir_fuel bs) (block d k) bs name 0.
Fixpoint dfind (d : S) (n : nat) (bi : Z) (f name : list Z) : option (Z * Z) :=
  match n with
  | O => None
  | Datatypes.S n => if i_block f bi =? 0 then None else match bfind d (i_block f bi) name with Some e => Some e | None => dfind d n (bi + 1) f name end
  end.
Definition dlookup (d : S) (ino : Z) (name : list Z) : option (Z * Z) := dfind d 12 0 (ino_at d ino) name.

(** ** Searching *)

Lemma find_in_blocks_ok n bi m f name d : m_block_size m = bs -> ok d ->
  (forall j, bi <= j < bi + Z.of_nat n -> i_block f j <> 0 -> inside bs sz (i_block f j)) -> find_in_blocks n bi m f name d = (Done (dfind d n bi f name), d).
Proof using HG HL.
  intros Em Hd. revert bi. induction n as [|n IH]; intros bi Hi; [done|]. cbn [find_in_blocks dfind]. destruct (Z.eqb_spec (i_block f bi) 0) as [|Hnz]; [done|].
  rewrite Em. rewrite (bind_done _ _ _ _ _ (fail_as_done _ _ _ _ _ (pread_block_ok bs sz (bs_pos _ _ HG) _ d Hd (Hi bi ltac:(lia) Hnz)))).
  unfold bfind. destruct (find_in_block _ _ _ _ _); [done|]. apply IH. intros j Hj. apply Hi. lia.
Qed.
Definition name_ok (name : list Z) : Prop := name <> [] /\ zlen name <= 255.

Lemma dir_blocks_inside d m ino j : fs_wf d m -> dir_ino d ino -> 0 <= j < 12 -> i_block (ino_at d ino) j <> 0 -> inside bs sz (i_block (ino_at d ino) j).
Proof using HG. intros Hw Hi Hj Hnz. destruct (fw_block _ _ _ _ Hw ino j Hi Hj Hnz) as [Hr _]. apply (block_inside _ _ HG). lia. Qed.
Lemma find_entry_ok d m ino name : fs_wf d m -> dir_ino d ino -> name_ok name -> ext2_find_entry_at m ino name d = (Done (dlookup d ino name), d).
Proof using HG HL.
  intros Hw Hi [Hn1 Hn2]. pose proof (bs_pos _ _ HG). unfold ext2_find_entry_at. rewrite require_true by by rewrite bool_decide_eq_false_2.
  rewrite (bind_done _ _ _ _ _ (fail_as_done _ _ _ _ _ (read_inode_ok G sz HG m ino d (fw_mem _ _ _ _ Hw) (fw_dev _ _ _ _ Hw) (proj1 Hi)))).
  rewrite require_true by apply Hi. rewrite require_true by (apply negb_true_iff; lia). rewrite require_true by (rewrite (mk_bs _ _ (fw_mem _ _ _ _ Hw)); apply negb_true_iff; lia).
  apply find_in_blocks_ok; [apply mk_bs, (fw_mem _ _ _ _ Hw)|apply (fw_dev _ _ _ _ Hw)|]. intros j Hj. by eapply dir_blocks_inside.
Qed.
Lemma find_entry_inv d m ino name r d' : fs_wf d m -> 0 <= ino -> ext2_find_entry_at m ino name d = (Done r, d') -> dir_ino d ino /\ name_ok name /\ r = dlookup d ino name /\ d' = d.
Proof using HG HL.
  intros Hw H0 E. assert (dir_ino d ino /\ name_ok name) as [Hi Hn].
  { unfold ext2_find_entry_at in E. apply require_inv in E as [Hne E]. apply bind_inv in E as (f & d1 & E1 & E). apply fail_as_inv in E1.
    apply (read_inode_inv G sz HG) in E1 as (Hok & -> & ->); [|apply (fw_mem _ _ _ _ Hw)|apply (fw_dev _ _ _ _ Hw)|done].
    apply require_inv in E as [Hd E]. apply require_inv in E as [Hl _]. apply negb_true_iff in Hl. apply negb_true_iff, bool_decide_eq_false in Hne. split; [done|]. split; [done|lia]. }
  rewrite find_entry_ok in E by done. injection E as <- <-. done.
Qed.

Lemma find_entry_same d m ino name o d' : fs_wf d m -> 0 <= ino -> ext2_find_entry_at m ino name d = (o, d') -> d' = d.
Proof using HG HL.
  intros Hw H0 E. destruct (decide (dir_ino d ino /\ name_ok name)) as [[Hd Hn]|Hno]; [rewrite find_entry_ok in E by done; by injection E as _ <-|].
  unfold ext2_find_entry_at in E. destruct (bool_decide (name = [])) eqn:En; [by injection E as _ <-|]. rewrite require_true in E by done.
  destruct (decide (ino_ok G ino)) as [Hi|Hi].
  2: { unfold ext2_read_inode_at, inode_checks in E. rewrite (mk_inodes _ _ (fw_mem _ _ _ _ Hw)) in E. unfold ino_ok in Hi.
       assert ((ino =? 0) || (g_inodes G <? ino) = true) as Ec by (apply orb_true_iff; lia). rewrite Ec in E. by injection E as _ <-. }
  rewrite (bind_done _ _ _ _ _ (fail_as_done _ _ _ _ _ (read_inode_ok G sz HG m ino d (fw_mem _ _ _ _ Hw) (fw_dev _ _ _ _ Hw) Hi))) in E.
  destruct (is_dir (ino_at d ino)) eqn:Ed; [|by injection E as _ <-]. rewrite require_true in E by done. destruct (255 <? zlen name) eqn:El; [by injection E as _ <-|].
  exfalso. apply Hno. split; [done|]. apply bool_decide_eq_false in En. split; [done|lia].
Qed.

Lemma find_in_block_range fuel b name pos e : Forall is_byte b -> find_in_block fuel b bs name pos = Some e -> 0 < e.1 < 2 ^ 32.
Proof using.
  intros Hb. revert pos. induction fuel as [|fuel IH]; intros pos; cbn [find_in_block]; [done|]. destruct (bs <? pos + 8); [done|]. destruct (_ || _); [done|].
  destruct (Z.eqb_spec (de_inode b pos) 0); cbn [negb andb]; [apply IH|]. destruct (_ && _); [|apply IH]. intros [= <-]. cbn [fst]. pose proof (le32_range b Hb pos). unfold de_inode in *. lia.
Qed.
Lemma dfind_range d n bi f name e : ok d -> (forall j, bi <= j < bi + Z.of_nat n -> i_block f j <> 0 -> inside bs sz (i_block f j)) -> dfind d n bi f name = Some e -> 0 < e.1 < 2 ^ 32.
Proof using HG.
  intros Hd. revert bi. induction n as [|n IH]; intros bi Hi; cbn [dfind]; [done|]. destruct (Z.eqb_spec (i_block f bi) 0) as [|Hnz]; [done|].
  destruct (bfind _ _ _) eqn:E; [|apply IH; intros j Hj; apply Hi; lia]. intros [= <-]. eapply find_in_block_range; [|exact E].
  apply (blk_bytes bs sz (bs_pos _ _ HG)); [done|apply Hi; [lia|done]].
Qed.
Lemma dlookup_range d m ino name e : fs_wf d m -> dir_ino d ino -> dlookup d ino name = Some e -> 0 < e.1 < 2 ^ 32.
Proof using HG. intros Hw Hi. apply dfind_range; [apply (fw_dev _ _ _ _ Hw)|]. intros j Hj. by eapply dir_blocks_inside. Qed.

(** ** What a search depends on *)

Lemma dfind_ext d d' f f' name n bi :
  (forall j, bi <= j < bi + Z.of_nat n -> i_block f' j = i_block f j /\ (i_block f j <> 0 -> bfind d' (i_block f j) name = bfind d (i_block f j) name)) ->
  dfind d' n bi f' name = dfind d n bi f name.
Proof using.
  revert bi. induction n as [|n IH]; intros bi H; [done|]. cbn [dfind]. destruct (H bi ltac:(lia)) as [-> E]. destruct (Z.eqb_spec (i_block f bi) 0) as [|Hnz]; [done|].
  rewrite E by done. destruct (bfind d (i_block f bi) name); [done|]. apply IH. intros j Hj. apply H. lia.
Qed.
(** The blocks up to [j] are there and those before it do not have the name. *)
Lemma dfind_from d f name j n bi : bi <= j < bi + Z.of_nat n -> (forall k, bi <= k < j -> i_block f k <> 0 /\ bfind d (i_block f k) name = None) ->
  dfind d n bi f name = dfind d (n - Z.to_nat (j - bi)) j f name.
Proof using.
  revert bi. induction n as [|n IH]; intros bi Hj H; [lia|]. destruct (Z.eq_dec bi j) as [->|Hne]; [by rewrite Z.sub_diag, Nat.sub_0_r|].
  cbn [dfind]. destruct (H bi ltac:(lia)) as [Hnz ->]. rewrite (proj2 (Z.eqb_neq _ _) Hnz). rewrite IH by (first [lia|intros k Hk; apply H; lia]). f_equal. lia.
Qed.
Lemma dfind_none d f name n bi j : dfind d n bi f name = None -> bi <= j < bi + Z.of_nat n -> (forall k, bi <= k <= j -> i_block f k <> 0) -> bfind d (i_block f j) name = None.
Proof using.
  revert bi. induction n as [|n IH]; intros bi E Hj H; [lia|]. cbn [dfind] in E. rewrite (proj2 (Z.eqb_neq _ _) (H bi ltac:(lia))) in E.
  destruct (bfind d (i_block f bi) name) eqn:Eb; [done|]. destruct (Z.eq_dec bi j) as [->|Hne]; [done|]. apply (IH (bi + 1)); [done|lia|]. intros k Hk. apply H. lia.
Qed.
Lemma dfind_at d f name n j e : (0 < n)%nat -> i_block f j <> 0 -> bfind d (i_block f j) name = Some e -> dfind d n j f name = Some e.
Proof using. intros Hn Hnz E. destruct n as [|n]; [lia|]. cbn [dfind]. rewrite (proj2 (Z.eqb_neq _ _) Hnz). by rewrite E. Qed.
End look.
