(* ===== verification/Ext2Append.v ===== *)
(** * Ext2Append: adding an entry to a directory of EXT2

    The entry is found afterwards, every other name means what it meant, and
    the invariant of the file system is kept. *)
From S2P Require Import Prelude Text Store Ext2 Ext2Alloc Ext2Ops Ext2Dir Ext2Block Ext2Layout Ext2Meta Ext2Tx Ext2Place Ext2File Ext2Wf Ext2Look.
#[local] Open Scope Z_scope.

Section append.
Context {S : Type} {HS : ByteStore S} {HL : ByteStoreLaws S} (G : geo) (sz : Z) (HG : geo_ok G sz).
Local Abbreviation bs := (g_bs G).
Local Abbreviation ok := (dev_ok sz).
Local Abbreviation keep := (keeps bs sz).
Local Abbreviation block := (blk bs).
Local Abbreviation ino_at := (inode_at G).
Local Abbreviation fs_wf := (fs_wf G sz).
Local Abbreviation dir_ino := (dir_ino G).
Local Abbreviation in_use d := (used G (bmap G d)).
Local Abbreviation ptr d a j := (i_block (ino_at d a) j).

(** ** The invariant after a step *)

(** Directories gain at most free blocks, at most one each. *)
Lemma wf_step d m d' m' :
  fs_wf d m -> ok d' -> mem_ok G m' -> disk_meta G d' m' ->
  (forall k, 0 <= k < g_blocks G -> in_use d k = true -> in_use d' k = true) ->
  (forall a, dir_ino d' a -> dir_ino d a /\ (ino_used G d a = true -> ino_used G d' a = true)) ->
  (forall a j, dir_ino d' a -> 0 <= j < 12 -> ptr d' a j = ptr d a j \/ (ptr d a j = 0 /\ ptr d' a j <> 0 /\ in_use d (ptr d' a j) = false)) ->
  (forall a j b k, dir_ino d' a -> dir_ino d' b -> 0 <= j < 12 -> 0 <= k < 12 -> ptr d a j = 0 -> ptr d b k = 0 -> ptr d' a j <> 0 -> ptr d' a j = ptr d' b k -> a = b /\ j = k) ->
  (forall a j k, dir_ino d' a -> 0 <= j <= k -> k < 12 -> ptr d' a j = 0 -> ptr d' a k = 0) ->
  (forall a j, dir_ino d' a -> 0 <= j < 12 -> ptr d' a j <> 0 -> let b := ptr d' a j in
    0 < b < g_blocks G /\ in_use d' b = true /\ ~ meta_block G b /\ exists ps, chain (block d' b) bs 0 ps) ->
  fs_wf d' m'.
Proof using HG.
  intros Hw Hd Hm Hdm Hu Hi Hp Hf Hg Hb. split; try done.
  - intros r Hv. apply Hu; [by apply (loc_range _ _ HG)|by apply (fw_meta _ _ _ _ Hw)].
  - intros a Ha. destruct (Hi a Ha) as [Ha' Hk]. apply Hk. by apply (fw_inode _ _ _ _ Hw).
  - intros a j b k Ha Hb' Hj Hk Hnz E. destruct (Hi a Ha) as [Ha' _], (Hi b Hb') as [Hb'' _].
    destruct (Hp a j Ha Hj) as [Ea|(Za & Na & Ua)], (Hp b k Hb' Hk) as [Eb|(Zb & Nb & Ub)].
    + rewrite Ea, Eb in *. by apply (fw_apart _ _ _ _ Hw).
    + exfalso. rewrite Ea in *. destruct (fw_block _ _ _ _ Hw a j Ha' Hj Hnz) as (_ & Hus & _). congruence.
    + exfalso. rewrite Eb in E. rewrite E in Hnz. destruct (fw_block _ _ _ _ Hw b k Hb'' Hk Hnz) as (_ & Hus & _). congruence.
    + by apply Hf.
Qed.
(** Directories are as before. *)
Lemma wf_same d m d' m' :
  fs_wf d m -> ok d' -> mem_ok G m' -> disk_meta G d' m' ->
  (forall k, 0 <= k < g_blocks G -> in_use d k = true -> in_use d' k = true) ->
  (forall a, dir_ino d' a -> dir_ino d a /\ (ino_used G d a = true -> ino_used G d' a = true)) ->
  (forall a j, dir_ino d' a -> 0 <= j < 12 -> ptr d' a j = ptr d a j) ->
  (forall a j, dir_ino d' a -> 0 <= j < 12 -> ptr d a j <> 0 -> exists ps, chain (block d' (ptr d a j)) bs 0 ps) ->
  fs_wf d' m'.
Proof using HG.
  intros Hw Hd Hm Hdm Hu Hi Hp Hc. apply (wf_step d m); try done.
  - intros a j Ha Hj. left. by apply Hp.
  - intros a j b k Ha Hb Hj Hk Ea Eb. rewrite !Hp by done. by intros Hn.
  - intros a j k Ha Hj Hk. rewrite !Hp by (done || lia). apply (fw_gap _ _ _ _ Hw); [by apply Hi|done|done].
  - intros a j Ha Hj Hnz. rewrite Hp in * by done. destruct (fw_block _ _ _ _ Hw a j (proj1 (Hi a Ha)) Hj Hnz) as (R1 & R2 & R3 & _). split; [done|]. split; [apply Hu; [lia|done]|]. split; [done|]. by apply Hc.
Qed.

(** ** Metadata under writes elsewhere *)

Lemma keep_role (P : Z -> Prop) d d' r : keep P d d' -> valid G r -> ~ P (loc G r) -> block d' (loc G r) = block d (loc G r).
Proof using HG. intros K Hv Hn. apply (ks_blk _ _ _ _ _ K); [by apply (loc_inside _ _ HG)|done]. Qed.
Lemma ino_ext d d' a : block d' (iblk G a) = block d (iblk G a) -> ino_at d' a = ino_at d a.
Proof using. unfold inode_at. by intros ->. Qed.
Lemma disk_meta_ext d d' m : disk_meta G d m -> (forall r, valid G r -> r = RSuper \/ (exists k, r = RGdt k) -> block d' (loc G r) = block d (loc G r)) -> disk_meta G d' m.
Proof using.
  intros [D1 D2] E. split; [unfold disk_sb; rewrite E by (done || by left); exact D1|]. intros k Hk. rewrite E by (done || (right; by exists k)). by apply D2.
Qed.

(** ** The pieces of an addition *)

Lemma append_in_blocks_inv n bi m f need child ft name (s : fs S) r s' :
  m_block_size m = bs -> ok (fs_dev s) -> (forall j, bi <= j < bi + Z.of_nat n -> i_block f j <> 0 -> inside bs sz (i_block f j)) ->
  append_in_blocks n bi m f need child ft name s = (Done r, s') ->
  if r : bool then exists j b, bi <= j < bi + Z.of_nat n /\ i_block f j <> 0 /\ fs_meta s' = fs_meta s /\
    append_in_block (dir_fuel bs) (block (fs_dev s) (i_block f j)) bs need child ft name 0 = Some b /\ pwrite_block bs (i_block f j) b (fs_dev s) = (Done tt, fs_dev s')
  else s' = s.
Proof using HG HL.
  intros Em Hd. revert bi. induction n as [|n IH]; intros bi Hi E; cbn [append_in_blocks] in E; [by injection E as <- <-|].
  destruct (Z.eqb_spec (i_block f bi) 0) as [|Hnz]; [by injection E as <- <-|]. rewrite Em in E.
  unfold fail_as, on_dev, zoom in E. unfold bind at 1 in E. rewrite (pread_block_ok bs sz (bs_pos _ _ HG) _ _ Hd (Hi bi ltac:(lia) Hnz)) in E.
  destruct s as [d m0]. cbn [fs_dev fs_meta] in *. destruct (append_in_block _ _ _ _ _ _ _ _) as [b|] eqn:Ea.
  - unfold bind in E. cbn [fs_dev fs_meta] in E. destruct (pwrite_block _ _ _ _) as [[[]| |] d1] eqn:Ew; [|done..]. injection E as <- <-. exists bi, b. split_and!; done || lia.
  - apply IH in E; [|intros j Hj; apply Hi; lia]. destruct r; [|done]. destruct E as (j & b & Hj & E). exists j, b. split; [lia|done].
Qed.

(** The timestamps and counts an addition sets. *)
Lemma touch_facts now f : zlen f = INODE_SIZE -> Forall is_byte f ->
  zlen (touch now f) = INODE_SIZE /\ Forall is_byte (touch now f) /\ is_dir (touch now f) = is_dir f /\ forall j, 0 <= j < 15 -> i_block (touch now f) j = i_block f j.
Proof using.
  intros Hl Hb. unfold touch, set_i_mtime, set_i_ctime. destruct (inode_put f 12 (put32 (u32 now)) Hl) as (L1 & B1 & M1 & _); [lia|rewrite zlen_put32; lia|].
  destruct (inode_put _ 16 (put32 (u32 now)) L1) as (L2 & B2 & M2 & _); [lia|rewrite zlen_put32; lia|]. split; [done|]. split; [|split].
  - repeat (apply splice_bytes; [|apply put32_bytes]). done.
  - unfold is_dir. by rewrite M2, M1 by lia.
  - intros j Hj. by rewrite B2, B1.
Qed.
Lemma grown_facts f slot b v1 v2 : zlen f = INODE_SIZE -> Forall is_byte f -> 0 <= slot < 12 -> 0 <= b < 2 ^ 32 ->
  let g := set_i_blocks v2 (set_i_size v1 (set_i_block slot b f)) in
  zlen g = INODE_SIZE /\ Forall is_byte g /\ is_dir g = is_dir f /\ forall j, 0 <= j < 15 -> i_block g j = if j =? slot then b else i_block f j.
Proof using.
  intros Hl Hb Hs Hbr. unfold set_i_blocks, set_i_size. cbv zeta. assert (zlen (set_i_block slot b f) = INODE_SIZE) as L0 by (unfold INODE_SIZE, set_i_block in *; apply zlen_splice_n; rewrite ?zlen_put32; lia).
  destruct (inode_put _ 4 (put32 (u32 v1)) L0) as (L1 & B1 & M1 & _); [lia|rewrite zlen_put32; lia|]. destruct (inode_put _ 28 (put32 (u32 v2)) L1) as (L2 & B2 & M2 & _); [lia|rewrite zlen_put32; lia|]. split; [done|]. split; [|split].
  - repeat (apply splice_bytes; [|apply put32_bytes]). done.
  - unfold is_dir. rewrite M2, M1 by lia. unfold i_mode, set_i_block, INODE_SIZE in *. by rewrite le16_splice_out by (rewrite ?zlen_put32; lia).
  - intros j Hj. rewrite B2, B1 by done. by apply i_block_set; [|lia|lia|].
Qed.
Lemma free_dir_slot_some n bi f slot : free_dir_slot n bi f = Some slot -> bi <= slot < bi + Z.of_nat n /\ i_block f slot = 0 /\ forall j, bi <= j < slot -> i_block f j <> 0.
Proof using.
  revert bi. induction n as [|n IH]; intros bi; cbn [free_dir_slot]; [done|]. destruct (Z.eqb_spec (i_block f bi) 0) as [Hz|Hnz].
  - intros [= <-]. split; [lia|]. split; [done|]. intros j Hj. lia.
  - intros E. destruct (IH _ E) as (H1 & H2 & H3). split; [lia|]. split; [done|]. intros j Hj. destruct (Z.eq_dec j bi) as [->|]; [done|]. apply H3. lia.
Qed.
(** A block put after the others. *)
Lemma dfind_extend d d' f f' name slot n bi : bi <= slot < bi + Z.of_nat n ->
  (forall j, bi <= j < slot -> i_block f' j = i_block f j /\ i_block f j <> 0 /\ bfind G d' (i_block f j) name = bfind G d (i_block f j) name) ->
  i_block f slot = 0 -> i_block f' slot <> 0 -> (forall j, slot < j < bi + Z.of_nat n -> i_block f' j = 0) ->
  dfind G d' n bi f' name = match dfind G d n bi f name with Some e => Some e | None => bfind G d' (i_block f' slot) name end.
Proof using.
  revert bi. induction n as [|n IH]; intros bi Hs Hsame Hz Hnz Htail; [lia|]. cbn [dfind]. destruct (Z.eq_dec bi slot) as [->|Hne].
  - rewrite (proj2 (Z.eqb_neq _ _) Hnz), Hz. cbn [Z.eqb]. destruct (bfind G d' (i_block f' slot) name); [done|]. destruct n as [|n]; [done|].
    cbn [dfind]. by rewrite Htail by lia.
  - destruct (Hsame bi ltac:(lia)) as (-> & Hn & ->). rewrite (proj2 (Z.eqb_neq _ _) Hn). destruct (bfind G d (i_block f bi) name); [done|].
    apply IH; try done; [lia| |]; intros j Hj; [apply Hsame|apply Htail]; lia.
Qed.

(** ** The contract *)

Record entry_added (d d' : S) (dir child ft : Z) (name : list Z) : Prop := EntryAdded {
  ea_new : dlookup G d dir name = None -> dlookup G d' dir name = Some (child, ft);
  ea_old : forall a other, dir_ino d a -> a <> dir \/ other <> name -> dlookup G d' a other = dlookup G d a other;
  ea_dirs : forall a, ino_ok G a -> is_dir (ino_at d' a) = is_dir (ino_at d a);
  ea_inodes : forall a, ino_ok G a -> a <> dir -> ino_at d' a = ino_at d a;
  ea_keep : keep (fun k => meta_block G k \/ in_use d k = false \/ exists j, 0 <= j < 12 /\ k = ptr d dir j) d d';
  ea_used : forall k, 0 <= k < g_blocks G -> in_use d k = true -> in_use d' k = true;
  ea_iused : forall a, ino_ok G a -> ino_used G d' a = ino_used G d a;
  ea_ptrs : forall a j, dir_ino d' a -> 0 <= j < 12 -> ptr d' a j = ptr d a j \/ in_use d (ptr d' a j) = false;
}.

(** A directory block as [append_in_block] and [find_in_block] see it. *)
Lemma dir_block_at d m a j : fs_wf d m -> dir_ino d a -> 0 <= j < 12 -> ptr d a j <> 0 ->
  inside bs sz (ptr d a j) /\ dir_block (block d (ptr d a j)) bs /\ exists ps, chain (block d (ptr d a j)) bs 0 ps.
Proof using HG.
  intros Hw Ha Hj Hnz. pose proof (bs_pos _ _ HG) as Hbs. pose proof (dir_blocks_inside G sz HG d m a j Hw Ha Hj Hnz) as Hin. split; [done|]. split.
  - split; [by apply zlen_blk|apply (blk_bytes bs sz); [done|apply (fw_dev _ _ _ _ Hw)|done]|lia].
  - apply (fw_block _ _ _ _ Hw a j Ha Hj Hnz).
Qed.

Section step.
Context (now : Z) (d : S) (m : ext2_meta) (Hw : fs_wf d m) (dir child ft : Z) (name : list Z).
Context (Hdir : dir_ino d dir) (Hchild : 0 < child < 2 ^ 32) (Hft : 0 <= ft < 256) (Hname : 0 < zlen name < 256) (Hnb : Forall is_byte name).
Local Abbreviation f := (ino_at d dir).

Lemma dir_inode_facts : zlen f = INODE_SIZE /\ Forall is_byte f.
Proof using HG Hw Hdir.
  split; [apply (zlen_inode_at G sz HG)|]. apply Forall_take, Forall_drop. apply (blk_bytes bs sz (bs_pos _ _ HG)); [apply (fw_dev _ _ _ _ Hw)|].
  apply (loc_inside _ _ HG _ (ino_role_valid _ _ HG dir (proj1 Hdir))).
Qed.

(** What follows once it is known which blocks and which inode changed. *)
Section effect.
Context (d' : S) (f' : list Z) (P : Z -> Prop) (HP : forall k, P k -> ~ meta_block G k).
Context (HK : keep (fun k => meta_block G k \/ P k) d d').
Context (HI : ino_at d' dir = f') (HJ : forall a, ino_ok G a -> a <> dir -> ino_at d' a = ino_at d a) (Hfd : is_dir f' = is_dir f).

Lemma effect_dirs a : ino_ok G a -> is_dir (ino_at d' a) = is_dir (ino_at d a).
Proof using HI HJ Hfd. intros Ha. destruct (Z.eq_dec a dir) as [->|Hne]; [by rewrite HI|by rewrite HJ]. Qed.
Lemma effect_dir_ino a : dir_ino d' a <-> dir_ino d a.
Proof using HI HJ Hfd. split; intros [Hok Hd]; (split; [done|]); [by rewrite <- effect_dirs|by rewrite effect_dirs]. Qed.
Lemma effect_block a j : dir_ino d a -> 0 <= j < 12 -> ptr d a j <> 0 -> ~ P (ptr d a j) -> block d' (ptr d a j) = block d (ptr d a j).
Proof using HG HK Hw.
  intros Ha Hj Hnz Hn. apply (ks_blk _ _ _ _ _ HK); [by apply (dir_blocks_inside G sz HG d m)|]. intros [Hm|?]; [|done].
  by destruct (fw_block _ _ _ _ Hw a j Ha Hj Hnz) as (_ & _ & ? & _).
Qed.
End effect.

(** The entry goes into a block the directory has. *)
Lemma added_here j b d1 d' :
  0 <= j < 12 -> i_block f j <> 0 ->
  append_in_block (dir_fuel bs) (block d (i_block f j)) bs (dirent_min_rec_len (zlen name)) child ft name 0 = Some b ->
  pwrite_block bs (i_block f j) b d = (Done tt, d1) -> ext2_write_inode_at m dir (touch now f) d1 = (Done tt, d') ->
  fs_wf d' m /\ entry_added d d' dir child ft name.
Proof using HG HL Hw Hdir Hchild Hft Hname Hnb.
  intros Hj Hnz Ea E1 E2. set (k := i_block f j) in *. destruct (dir_block_at d m dir j Hw Hdir Hj Hnz) as (Hin & Hdb & ps & Hc). fold k in Hin, Hdb, Hc.
  destruct (fw_block _ _ _ _ Hw dir j Hdir Hj Hnz) as (Hkr & Hku & Hkm & _). fold k in Hkr, Hku, Hkm.
  destruct (append_found _ _ _ _ _ _ _ Hdb Hc Hchild Hft Hname Hnb Ea) as (qs & l1 & l2 & Hdb' & Hc' & Eo & En).
  destruct dir_inode_facts as [Hlf Hbf]. destruct (touch_facts now f Hlf Hbf) as (Hlt & Hbt & Htd & Htb).
  apply (pwrite_block_inv bs sz (bs_pos _ _ HG)) in E1 as (_ & K1 & B1); [|apply (fw_dev _ _ _ _ Hw)|apply Hdb'|lia|apply Hdb'].
  apply (write_inode_inv G sz HG) in E2 as (_ & K2 & I2 & J2); [|apply (fw_mem _ _ _ _ Hw)|apply K1|destruct Hdir as [[? _] _]; lia|done|done].
  assert (meta_block G (iblk G dir)) as Mi by (eexists; split; [apply (ino_role_valid _ _ HG), Hdir|done]).
  assert (forall r, valid G r -> block d1 (loc G r) = block d (loc G r)) as M1.
  { intros r Hv. apply (keep_role (eq k)); [done|done|]. intros Er. apply Hkm. by exists r. }
  assert (forall r, valid G r -> (forall g t, r <> RIt g t) -> block d' (loc G r) = block d (loc G r)) as M2.
  { intros r Hv Hne. rewrite <- M1 by done. apply (keep_role (eq (iblk G dir))); [done|done|]. intros Er. apply (loc_inj _ _ HG) in Er; [by eapply Hne|apply (ino_role_valid _ _ HG), Hdir|done]. }
  assert (forall a, ino_ok G a -> a <> dir -> ino_at d' a = ino_at d a) as J.
  { intros a Ha Hne. rewrite J2 by done. apply ino_ext. apply (M1 (ino_role G a)). by apply (ino_role_valid _ _ HG). }
  assert (keep (fun x => meta_block G x \/ k = x) d d') as K by (eapply keeps_trans with d1; (eapply keeps_weaken; [eassumption|]); [by right|intros x _ <-; by left]).
  assert (forall x, k = x -> ~ meta_block G x) as HP by by intros x <-.
  assert (block d' k = b) as Bk by (rewrite <- B1; apply (ks_blk _ _ _ _ _ K2); [done|intros El; apply Hkm; by rewrite <- El]).
  assert (forall a i, ino_ok G a -> 0 <= i < 12 -> ptr d' a i = ptr d a i) as Pt.
  { intros a i Ha Hi. destruct (Z.eq_dec a dir) as [->|Hne]; [rewrite I2; apply Htb; lia|by rewrite J]. }
  assert (forall x, 0 <= x < g_blocks G -> in_use d' x = in_use d x) as U by (intros x Hx; apply (used_ext G sz HG); [intros g Hg; by apply M2|done]).
  pose proof (effect_dir_ino d' _ I2 J Htd) as Di.
  assert (forall name', bfind G d k name' = assoc name' (entries (block d k) ps)) as Fo by (intros; by apply find_assoc).
  assert (forall name', bfind G d' k name' = assoc name' (entries b qs)) as Fn by (intros; unfold bfind; rewrite Bk; by apply find_assoc).
  assert (forall a i other, dir_ino d a -> 0 <= i < 12 -> ptr d a i <> 0 -> a <> dir \/ i <> j \/ other <> name -> bfind G d' (ptr d a i) other = bfind G d (ptr d a i) other) as Bf.
  { intros a i other Ha Hi Hn Hd. destruct (Z.eq_dec k (ptr d a i)) as [Ek|Hne].
    - rewrite <- Ek, Fn, Fo, En, Eo. apply assoc_mid_other. destruct (decide (other = name)) as [->|]; [|done]. destruct (fw_apart _ _ _ _ Hw dir j a i Hdir Ha Hj Hi Hnz Ek) as [<- <-]. tauto.
    - unfold bfind. by rewrite (effect_block d' _ K). }
  split.
  - apply (wf_same d m); try done; [apply K|apply Hw|..].
    + eapply disk_meta_ext; [apply Hw|]. intros r Hv Hr. apply M2; [done|]. by destruct Hr as [-> |[? ->]].
    + intros x Hx. by rewrite U.
    + intros a Ha. split; [by apply Di|]. unfold ino_used, imap. by rewrite M2 by (done || apply (ino_group_range _ _ HG), Ha).
    + intros a i Ha Hi. apply Pt; [apply Ha|done].
    + intros a i Ha%Di Hi Hn. destruct (Z.eq_dec k (ptr d a i)) as [<-|Hne]; [exists qs; by rewrite Bk|]. rewrite (effect_block d' _ K) by done. by apply (dir_block_at d m).
  - split; [| |by apply (effect_dirs d' _ I2)|done| |intros x Hx; by rewrite U|intros a Ha; unfold ino_used, imap; by rewrite M2 by (done || apply (ino_group_range _ _ HG), Ha)|intros a i Ha Hi; left; apply Pt; [apply Ha|done]].
    + intros Hnone. unfold dlookup in *. assert (forall i, 0 <= i <= j -> i_block f i <> 0) as Hnzs by (intros i Hi Hz; apply Hnz; apply (fw_gap _ _ _ _ Hw dir i j); (done || lia)).
      assert (forall i, 0 <= i <= j -> bfind G d (i_block f i) name = None) as Hno by (intros i Hi; apply (dfind_none G d f name 12 0); [done|lia|intros; apply Hnzs; lia]).
      rewrite (dfind_from G d' _ name j) by (first [lia|intros i Hi; rewrite Pt by (apply Hdir || lia); split; [apply Hnzs; lia|rewrite Bf; [apply Hno; lia|done|lia|apply Hnzs; lia|lia]]]).
      apply dfind_at; [lia|by rewrite Pt by (apply Hdir || lia)|]. rewrite Pt by (apply Hdir || lia). fold k. rewrite Fn, En. apply assoc_added. rewrite <- Eo, <- Fo. apply Hno. lia.
    + intros a other Ha Hd. apply dfind_ext. intros i Hi. split; [apply Pt; [apply Ha|lia]|]. intros Hn. apply Bf; [done|lia|done|tauto].
    + eapply keeps_weaken; [exact K|]. intros x _ [?| <-]; [by left|]. right. right. by exists j.
Qed.

(** The invariant when the directory gained the free block [b] at [slot]. *)
Lemma added_more_wf slot b m1 d' :
  0 <= slot < 12 -> i_block f slot = 0 -> (forall i, 0 <= i < slot -> i_block f i <> 0) -> 0 <= b < g_blocks G -> b <> 0 -> in_use d b = false -> ~ meta_block G b ->
  ok d' -> mem_ok G m1 -> disk_meta G d' m1 -> (forall a, dir_ino d' a -> dir_ino d a /\ (ino_used G d a = true -> ino_used G d' a = true)) ->
  (forall x, 0 <= x < g_blocks G -> in_use d' x = (b =? x) || in_use d x) ->
  (forall i, 0 <= i < 12 -> ptr d' dir i = if i =? slot then b else i_block f i) -> (forall a i, ino_ok G a -> a <> dir -> ptr d' a i = ptr d a i) ->
  (forall a i, dir_ino d a -> 0 <= i < 12 -> ptr d a i <> 0 -> block d' (ptr d a i) = block d (ptr d a i)) -> (exists ps, chain (block d' b) bs 0 ps) -> fs_wf d' m1.
Proof using HG Hw Hdir.
  intros Hs Hsz Hbefore Hbr Hb0 Hbf Hbm Hd Hm Hdm Hi U Pd Po Bl Hch.
  assert (forall i, slot < i < 12 -> i_block f i = 0) as Hafter by (intros i Hi'; by apply (fw_gap _ _ _ _ Hw dir slot i); [|lia|lia|]).
  assert (forall a i, dir_ino d' a -> 0 <= i < 12 -> ptr d' a i = (if (a =? dir) && (i =? slot) then b else ptr d a i)) as Pt.
  { intros a i Ha Hi'. destruct (Z.eqb_spec a dir) as [->|Hne]; cbn [andb]; [by apply Pd|]. apply Po; [apply Ha|done]. }
  apply (wf_step d m); try done.
  - intros k Hk Hu. rewrite U by done. by rewrite Hu, orb_true_r.
  - intros a i Ha Hi'. rewrite Pt by done. destruct (Z.eqb_spec a dir) as [->|], (Z.eqb_spec i slot) as [->|]; cbn [andb]; auto.
  - intros a j a' k Ha Ha' Hj Hk Za Zb. rewrite !Pt by done. destruct (Z.eqb_spec a dir), (Z.eqb_spec j slot), (Z.eqb_spec a' dir), (Z.eqb_spec k slot); cbn [andb]; intros; try congruence; lia.
  - intros a j k Ha Hj Hk. rewrite !Pt by (done || lia). destruct (Z.eqb_spec a dir) as [->|Hne]; cbn [andb]; [|apply (fw_gap _ _ _ _ Hw); [by apply Hi|done|done]].
    destruct (Z.eqb_spec j slot) as [->|]; [done|]. intros Hz. assert (slot < j) by (destruct (Z.ltb_spec slot j); [done|]; by destruct (Hbefore j ltac:(lia))).
    rewrite (proj2 (Z.eqb_neq k slot)) by lia. apply Hafter. lia.
  - intros a j Ha Hj. rewrite Pt by done. destruct ((a =? dir) && (j =? slot)) eqn:E; intros Hn; cbv zeta.
    + split; [lia|]. split; [by rewrite U, Z.eqb_refl|]. done.
    + destruct (Hi a Ha) as [Ha' _]. destruct (fw_block _ _ _ _ Hw a j Ha' Hj Hn) as (R1 & R2 & R3 & R4). split; [done|]. split; [rewrite U by lia; by rewrite R2, orb_true_r|]. split; [done|]. by rewrite Bl.
Qed.
(** The entry goes into a new block. *)
Lemma added_more slot v1 v2 b m1 d1 d2 d' :
  0 <= slot < 12 -> i_block f slot = 0 -> (forall i, 0 <= i < slot -> i_block f i <> 0) ->
  block_taken G sz (Fs d m) (Fs d1 m1) b -> b <> 0 -> pwrite_block bs b (dirent_bytes child bs ft name) d1 = (Done tt, d2) ->
  ext2_write_inode_at m1 dir (touch now (set_i_blocks v2 (set_i_size v1 (set_i_block slot b f)))) d2 = (Done tt, d') ->
  fs_wf d' m1 /\ entry_added d d' dir child ft name.
Proof using HG HL Hw Hdir Hchild Hft Hname Hnb.
  intros Hs Hsz Hbefore [T1 T2 T3 T4 T5 T6] Hb0 E1 E2. cbn [fs_dev fs_meta] in *. set (e := dirent_bytes child bs ft name) in *. pose proof (bs_pos _ _ HG) as Hbs.
  assert (8 + zlen name <= bs <= 4096) as Hroom by (destruct (go_bs _ _ HG); lia).
  destruct (lone_block child bs ft name Hchild Hft Hname Hnb Hroom) as (Hdb & Hc & En). fold e in Hdb, Hc, En.
  assert (~ meta_block G b) as Hbm by (intros (r & Hv & ->); by rewrite (fw_meta _ _ _ _ Hw) in T2).
  destruct dir_inode_facts as [Hlf Hbf]. pose proof (go_blocks _ _ HG) as Hblocks. destruct (grown_facts f slot b v1 v2 Hlf Hbf Hs ltac:(lia)) as (Hlg & Hbg & Hgd & Hgb).
  set (g := set_i_blocks _ _) in *. destruct (touch_facts now g Hlg Hbg) as (Hlt & Hbt & Htd & Htb). rewrite Hgd in Htd.
  apply (pwrite_block_inv bs sz Hbs) in E1 as (Hin & K1 & B1); [|apply T4|apply Hdb|lia|apply Hdb].
  apply (write_inode_inv G sz HG) in E2 as (_ & K2 & I2 & J2); [|done|apply K1|destruct Hdir as [[? _] _]; lia|done|done].
  assert (meta_block G (iblk G dir)) as Mi by (eexists; split; [apply (ino_role_valid _ _ HG), Hdir|done]).
  assert (forall r, valid G r -> r <> RSuper -> (forall i, r <> RGdt i) -> (forall i, r <> RBb i) -> block d1 (loc G r) = block d (loc G r)) as M0.
  { intros r Hv N1 N2 N3. apply (keep_role _ _ _ _ T4); [done|]. intros [Hd|(i & Hi & Er)]; [by apply (desc_not G sz HG) in Hd|]. apply (loc_inj _ _ HG) in Er; [by eapply N3|done|done]. }
  assert (forall r, valid G r -> block d2 (loc G r) = block d1 (loc G r)) as M1.
  { intros r Hv. apply (keep_role (eq b)); [done|done|]. intros Er. apply Hbm. by exists r. }
  assert (forall r, valid G r -> (forall i t, r <> RIt i t) -> block d' (loc G r) = block d1 (loc G r)) as M2.
  { intros r Hv Hne. rewrite <- M1 by done. apply (keep_role (eq (iblk G dir))); [done|done|]. intros Er. apply (loc_inj _ _ HG) in Er; [by eapply Hne|apply (ino_role_valid _ _ HG), Hdir|done]. }
  assert (forall a, ino_ok G a -> a <> dir -> ino_at d' a = ino_at d a) as J.
  { intros a Ha Hne. pose proof (ino_role_valid _ _ HG a Ha) as Hv. rewrite J2 by done. apply ino_ext. change (iblk G a) with (loc G (ino_role G a)). by rewrite M1, M0. }
  assert (keep (fun x => meta_block G x \/ b = x) d d') as K.
  { eapply keeps_trans with d1; [eapply keeps_weaken; [exact T4|]|eapply keeps_trans with d2; (eapply keeps_weaken; [eassumption|]); [by right|intros x _ <-; by left]].
    intros x _ [[-> |(i & Hi & ->)]|(i & Hi & ->)]; left; [by exists RSuper|by exists (RGdt i)|by exists (RBb i)]. }
  assert (block d' b = e) as Bk by (rewrite <- B1; apply (ks_blk _ _ _ _ _ K2); [done|intros El; apply Hbm; by rewrite <- El]).
  assert (forall i, 0 <= i < 12 -> ptr d' dir i = if i =? slot then b else i_block f i) as Pd by (intros i Hi; rewrite I2, Htb by lia; apply Hgb; lia).
  assert (forall a i, ino_ok G a -> a <> dir -> ptr d' a i = ptr d a i) as Po by (intros a i Ha Hne; by rewrite J).
  assert (forall x, 0 <= x < g_blocks G -> in_use d' x = (b =? x) || in_use d x) as U.
  { intros x Hx. rewrite <- T3 by done. apply (used_ext G sz HG); [intros i Hi; by apply M2|done]. }
  pose proof (effect_dir_ino d' _ I2 J Htd) as Di.
  assert (forall a i, dir_ino d a -> 0 <= i < 12 -> ptr d a i <> 0 -> b <> ptr d a i) as Nb.
  { intros a i Ha Hi Hn ->. destruct (fw_block _ _ _ _ Hw a i Ha Hi Hn) as (_ & Hu & _). congruence. }
  assert (forall a i, dir_ino d a -> 0 <= i < 12 -> ptr d a i <> 0 -> block d' (ptr d a i) = block d (ptr d a i)) as Bl by (intros; by apply (effect_block d' _ K); [..|apply Nb]).
  assert (forall i, slot < i < 12 -> i_block f i = 0) as Hafter by (intros i Hi; by apply (fw_gap _ _ _ _ Hw dir slot i); [|lia|lia|]).
  assert (forall other, dlookup G d' dir other = match dlookup G d dir other with Some x => Some x | None => assoc other [(name, (child, ft))] end) as Ld.
  { intros other. unfold dlookup. rewrite (dfind_extend d d' f _ other slot) by (first [lia|intros i Hi; rewrite Pd by lia; rewrite (proj2 (Z.eqb_neq i slot)) by lia; split_and?; try done; [by apply Hbefore|unfold bfind; by rewrite Bl by (first [done|lia|by apply Hbefore])]|rewrite Pd by lia; by rewrite Z.eqb_refl|intros i Hi; rewrite Pd by lia; rewrite (proj2 (Z.eqb_neq i slot)) by lia; apply Hafter; lia|done]).
    destruct (dfind _ _ _ _ _ _); [done|]. rewrite Pd, Z.eqb_refl by lia. unfold bfind. rewrite Bk. by rewrite (find_assoc _ _ _ _ Hdb Hc), En. }
  split; [apply (added_more_wf slot b m1 d'); try done; [apply K|..]|split].
  - eapply disk_meta_ext; [exact T6|]. intros r Hv Hr. apply M2; [done|]. by destruct Hr as [-> |[? ->]].
  - intros a Ha. split; [by apply Di|]. unfold ino_used, imap. by rewrite M2, M0 by (done || apply (ino_group_range _ _ HG), Ha).
  - rewrite Bk. by exists [0].
  - intros Hnone. rewrite Ld, Hnone, assoc_cons. cbn [fst snd]. by rewrite bool_decide_eq_true_2.
  - intros a other Ha Hd. destruct (Z.eq_dec a dir) as [->|Hne].
    + rewrite Ld. destruct (dlookup _ _ _ _); [done|]. rewrite assoc_cons. cbn [fst]. rewrite bool_decide_eq_false_2; [done|]. destruct Hd; congruence.
    + apply dfind_ext. intros i Hi. split; [apply Po; [apply Ha|done]|]. intros Hn. unfold bfind. by rewrite Bl by (done || lia).
  - by apply (effect_dirs d' _ I2).
  - done.
  - eapply keeps_weaken; [exact K|]. intros x _ [?| <-]; [by left|right; by left].
  - intros x Hx Hu. rewrite U by done. by rewrite Hu, orb_true_r.
  - intros a Ha. unfold ino_used, imap. by rewrite M2, M0 by (done || apply (ino_group_range _ _ HG), Ha).
  - intros a i Ha Hi. destruct (Z.eq_dec a dir) as [->|Hne]; [|left; apply Po; [apply Ha|done]]. rewrite Pd by done. destruct (i =? slot); [by right|by left].
Qed.
End step.

Lemma on_dev_inv {A} (c : comp S A) (s s' : fs S) a : on_dev c s = (Done a, s') -> c (fs_dev s) = (Done a, fs_dev s') /\ fs_meta s' = fs_meta s.
Proof using. unfold on_dev, zoom. destruct (c (fs_dev s)) as [[]?]; [|done..]. by intros [= <- <-]. Qed.
Lemma append_dirent_inv now dir child ft name (s : fs S) r s' :
  fs_wf (fs_dev s) (fs_meta s) -> 0 <= dir -> 0 < child < 2 ^ 32 -> 0 <= ft < 256 -> name_ok name -> Forall is_byte name ->
  ext2_append_dirent_at now dir child ft name s = (Done r, s') ->
  dir_ino (fs_dev s) dir /\ fs_wf (fs_dev s') (fs_meta s') /\ entry_added (fs_dev s) (fs_dev s') dir child ft name.
Proof using HG HL.
  intros Hw H0 Hch Hft [Hn1 Hn2] Hnb E. destruct s as [d m]. cbn [fs_dev fs_meta] in *. pose proof (mk_bs _ _ (fw_mem _ _ _ _ Hw)) as Em.
  assert (0 < zlen name < 256) as Hn by (destruct name; [done|]; rewrite zlen_cons in *; pose proof (zlen_nonneg name); lia).
  unfold ext2_append_dirent_at, the_meta in E. rewrite bind_gets in E. cbn [fs_meta] in E. apply bind_inv in E as (f & s1 & E1 & E). apply fail_as_inv, on_dev_inv in E1 as [E1 M1]. cbn [fs_dev fs_meta] in *.
  apply (read_inode_inv G sz HG) in E1 as (Hok & -> & Ed); [|apply Hw|apply Hw|done]. destruct s1 as [d1 m1]. cbn [fs_dev fs_meta] in *. subst d1 m1.
  apply require_inv in E as [Hd E]. assert (dir_ino d dir) as Hdir by done. split; [done|]. cbv zeta in E. rewrite u8_id in E by lia. rewrite Em in E.
  apply bind_inv in E as (pl & s2 & E2 & E). apply append_in_blocks_inv in E2; [|done|apply Hw|intros j Hj; by apply (dir_blocks_inside G sz HG d m)]. destruct pl.
  - destruct E2 as (j & b & Hj & Hnz & M2 & Ea & E2). cbn [fs_dev fs_meta] in *. apply bind_inv in E as ([] & s3 & E3 & [= _ <-]). apply on_dev_inv in E3 as [E3 M3]. rewrite M3, M2.
    by apply (added_here now d m Hw dir child ft name Hdir Hch Hft Hn Hnb j b (fs_dev s2)).
  - subst s2. destruct (free_dir_slot _ _ _) as [slot|] eqn:Es; [|done]. apply free_dir_slot_some in Es as (Hs & Hsz & Hbefore).
    apply bind_inv in E as (b & s3 & E3 & E). apply require_inv in E as [Hb E]. apply negb_true_iff, Z.eqb_neq in Hb.
    apply (alloc_block_inv G sz HG) in E3; [|apply Hw|apply Hw|done]. apply bind_inv in E as ([] & s4 & E4 & E). apply fail_as_inv, on_dev_inv in E4 as [E4 M4].
    rewrite bind_gets in E. apply bind_inv in E as ([] & s5 & E5 & [= _ <-]). apply fail_as_inv, on_dev_inv in E5 as [E5 M5]. rewrite M4 in E5, M5. rewrite M5. destruct s3 as [d3 m3]. cbn [fs_dev fs_meta] in *.
    by eapply (added_more now d m Hw dir child ft name Hdir Hch Hft Hn Hnb slot _ _ b m3 d3).
Qed.
End append.
