(* ===== verification/Ext2Path.v ===== *)
(** * Ext2Path: what a path means in EXT2

    A path is its names between slashes; resolving it walks from the root
    directory, one name at a time. *)
From S2P Require Import Prelude Text Store Ext2 Ext2Alloc Ext2Ops Ext2Dir Ext2Block Ext2Layout Ext2Meta Ext2Tx Ext2Place Ext2File Ext2Wf Ext2Look.
#[local] Open Scope Z_scope.

(** ** Names *)

Fixpoint comps_from (acc p : list Z) : list (list Z) :=
  match p with
  | [] => if bool_decide (acc = []) then [] else [acc]
  | c :: p => if is_slash c then (if bool_decide (acc = []) then [] else [acc]) ++ comps_from [] p else comps_from (acc ++ [c]) p
  end.
(** The names of a path. *)
Definition comps (p : list Z) : list (list Z) := comps_from [] p.

Lemma comps_slash a b : comps (a ++ 47 :: b) = comps a ++ comps b.
Proof.
  unfold comps. enough (forall acc, comps_from acc (a ++ 47 :: b) = comps_from acc a ++ comps_from [] b) as E by apply E.
  induction a as [|c a IH]; intros acc; cbn [comps_from app]; [done|]. destruct (is_slash c); [|apply IH]. by rewrite IH, app_assoc.
Qed.
Lemma comps_slashes p q : Forall (fun c => is_slash c = true) q -> comps (p ++ q) = comps p /\ comps (q ++ p) = comps p.
Proof.
  intros Hq. split.
  - revert p. induction Hq as [|c q Hc Hq IH]; intros p; [by rewrite app_nil_r|]. apply Z.eqb_eq in Hc as ->. rewrite comps_slash.
    specialize (IH []). cbn [app] in IH. rewrite IH. by rewrite app_nil_r.
  - induction Hq as [|c q Hc Hq IH]; [done|]. unfold comps in *. cbn [comps_from app]. by rewrite Hc.
Qed.
Lemma comps_skip p : comps (skip_while is_slash p) = comps p.
Proof. rewrite <- (take_skip_while is_slash p) at 2. symmetry. apply comps_slashes, take_while_all. Qed.
Lemma comps_word acc w p : Forall (fun c => is_slash c = false) w -> comps_from acc (w ++ p) = comps_from (acc ++ w) p.
Proof.
  intros Hw. revert acc. induction Hw as [|c w Hc Hw IH]; intros acc; [by rewrite app_nil_r|]. cbn [comps_from app]. rewrite Hc, IH. by rewrite <- app_assoc.
Qed.
Lemma comps_one w : w <> [] -> Forall (fun c => is_slash c = false) w -> comps w = [w].
Proof. intros Hn Hw. unfold comps. rewrite <- (app_nil_r w) at 1. rewrite comps_word by done. cbn [comps_from app]. by rewrite bool_decide_eq_false_2. Qed.
Lemma skip_head f s c r : skip_while f s = c :: r -> f c = false.
Proof. induction s as [|x s IH]; cbn [skip_while]; [done|]. destruct (f x) eqn:E; [done|]. by intros [= <- _]. Qed.
(** The first name. *)
Lemma comps_first c p : is_slash c = false -> comps (c :: p) = take_while not_slash (c :: p) :: comps (skip_while not_slash (c :: p)).
Proof.
  intros Hc. rewrite <- (take_skip_while not_slash (c :: p)) at 1. unfold comps. rewrite comps_word.
  2: { eapply Forall_impl; [apply take_while_all|]. intros x Hx. unfold is_slash, not_slash in *. by apply negb_true_iff in Hx. }
  assert (take_while not_slash (c :: p) <> []) as Hn by (cbn [take_while]; unfold not_slash, is_slash in *; by rewrite Hc).
  cbn [app]. destruct (skip_while not_slash (c :: p)) as [|x r] eqn:E; cbn [comps_from]; rewrite (bool_decide_eq_false_2 _ Hn); [done|].
  apply skip_head in E. apply negb_false_iff in E. change (is_slash x = true) in E. by rewrite E.
Qed.

(** The parent path and the last name of a path are its names but the last, and the last. *)
Lemma strrchr_none s c : strrchr s c = None -> c ∉ s.
Proof.
  induction s as [|x s IH]; cbn [strrchr]; [by intros _ H%elem_of_nil|]. destruct (strrchr s c) as [[]|]; [done|]. destruct (Z.eqb_spec x c); [done|].
  intros _ [->|Hin]%elem_of_cons; [done|]. by apply IH.
Qed.
Lemma no_slash w : 47 ∉ w -> Forall (fun c => is_slash c = false) w.
Proof. intros Hn. apply Forall_forall. intros x Hx. apply Z.eqb_neq. by intros ->. Qed.
Lemma rskip_split f s : exists t, s = rskip_while f s ++ t /\ Forall (fun c => f c = true) t.
Proof.
  exists (reverse (take_while f (reverse s))). split; [|apply Forall_reverse, take_while_all]. unfold rskip_while. rewrite <- reverse_app, take_skip_while. by rewrite reverse_involutive.
Qed.
Lemma split_parent_comps path parent name : split_parent_name path = inr (parent, name) ->
  comps path = comps parent ++ [name] /\ name <> [] /\ zlen name <= 255 /\ (Forall is_byte path -> Forall is_byte name).
Proof.
  unfold split_parent_name. destruct (rskip_split is_slash (skip_while is_slash path)) as (t & Et & Ht). set (p := rskip_while is_slash _) in *.
  assert (comps path = comps p) as -> by (rewrite <- comps_skip, Et; by apply comps_slashes).
  assert (Forall is_byte path -> Forall is_byte p) as Hb by (intros Hb%(skip_while_Forall is_byte is_slash); rewrite Et in Hb; by apply Forall_app in Hb as [? _]).
  destruct (_ || _); [done|]. destruct (strrchr p 47) as [[a b]|] eqn:E; (destruct (_ || _) eqn:Ec; [done|]); intros [= <- <-]; apply orb_false_iff in Ec as [En%bool_decide_eq_false El%Z.ltb_ge].
  - apply strrchr_inv in E as (r & -> & Ep & Hr). cbn [drop] in *. rewrite Ep, comps_slash, (comps_one r) by (done || by apply no_slash). split_and!; try done.
    intros Hp%Hb. rewrite Ep in Hp. apply Forall_app in Hp as [_ Hp]. by apply Forall_cons in Hp as [_ Hp].
  - apply strrchr_none in E. rewrite comps_one by (done || by apply no_slash). done.
Qed.

(** ** Walks *)

Section walk.
Context {S : Type} {HS : ByteStore S} {HL : ByteStoreLaws S} (G : geo) (sz : Z) (HG : geo_ok G sz).
Local Abbreviation fs_wf := (fs_wf G sz).
Local Abbreviation dir_ino := (dir_ino G).

(** From the directory [cur] the names [l] lead to the inode [i]. *)
Fixpoint walk (d : S) (cur : Z) (l : list (list Z)) (i : Z) : Prop :=
  match l with
  | [] => i = cur
  | n :: l => dir_ino d cur /\ name_ok n /\ exists e, dlookup G d cur n = Some e /\ walk d e.1 l i
  end.
Lemma walk_app d cur l1 l2 i j : walk d cur l1 i -> walk d i l2 j -> walk d cur (l1 ++ l2) j.
Proof using.
  revert cur. induction l1 as [|n l1 IH]; intros cur; cbn [walk app]; [by intros ->|]. intros (Hd & Hn & e & He & Hw) H2. split_and!; try done. exists e. split; [done|]. by apply IH.
Qed.
Lemma walk_range d m cur l i : fs_wf d m -> 0 < cur -> walk d cur l i -> 0 < i.
Proof using HG.
  intros Hw. revert cur. induction l as [|n l IH]; intros cur H0; cbn [walk]; [by intros ->|]. intros (Hd & Hn & e & He & Hwk). apply (IH e.1); [|done].
  apply (dlookup_range G sz HG d m cur n e) in He; [lia|done|done].
Qed.
(** What the entries found in the directories depend on. *)
Lemma walk_mono d d' cur l i : (forall a n e, dir_ino d a -> dlookup G d a n = Some e -> dir_ino d' a /\ dlookup G d' a n = Some e) -> walk d cur l i -> walk d' cur l i.
Proof using.
  intros H. revert cur. induction l as [|n l IH]; intros cur; cbn [walk]; [done|]. intros (Hd & Hn & e & He & Hwk). destruct (H _ _ _ Hd He). split_and!; try done. exists e. split; [done|]. by apply IH.
Qed.

Lemma resolve_loop_inv d m fuel cur p i d' : fs_wf d m -> 0 < cur -> resolve_loop fuel m cur p d = (Done i, d') -> walk d cur (comps p) i /\ d' = d.
Proof using HG HL.
  intros Hw. revert cur p. induction fuel as [|fuel IH]; intros cur p H0 E; cbn [resolve_loop] in E; [done|]. rewrite <- comps_skip.
  destruct (skip_while is_slash p) as [|c q] eqn:Es; [by injection E as <- <-|]. apply skip_head in Es as Hc. rewrite comps_first by done.
  apply bind_inv in E as (r & d1 & E1 & E). apply fail_as_inv in E1. apply (find_entry_inv G sz HG) in E1 as (Hd & Hn & -> & ->); [|done|lia].
  destruct (dlookup _ _ _ _) as [[nx ty]|] eqn:El; [|done]. cbn [walk]. assert (0 < nx) by (apply (dlookup_range G sz HG d m cur _ _ Hw Hd) in El; cbn [fst] in El; lia).
  destruct (skip_while not_slash (c :: q)) as [|x r] eqn:En; [injection E as <- <-; split_and!; try done; eexists; split; [done|done]|].
  apply skip_head in En. apply negb_false_iff, Z.eqb_eq in En as ->. apply IH in E as [E1 ->]; [|done]. split_and!; try done. eexists. split; [done|]. cbn [fst]. by change (47 :: r) with ([] ++ 47 :: r); rewrite (comps_slash [] r).
Qed.
Lemma resolve_loop_ok d m fuel cur p i : fs_wf d m -> walk d cur (comps p) i -> (length p < fuel)%nat -> resolve_loop fuel m cur p d = (Done i, d).
Proof using HG HL.
  intros Hw. revert cur p. induction fuel as [|fuel IH]; intros cur p E Hf; [lia|]. cbn [resolve_loop]. rewrite <- comps_skip in E. pose proof (length_skip_while is_slash p) as Hl.
  destruct (skip_while is_slash p) as [|c q] eqn:Es; [by rewrite E|]. apply skip_head in Es as Hc. rewrite comps_first in E by done. destruct E as (Hd & Hn & [nx ty] & El & E).
  rewrite (bind_done _ _ _ _ _ (fail_as_done _ _ _ _ _ (find_entry_ok G sz HG d m cur _ Hw Hd Hn))), El. cbn [fst] in E. pose proof (length_skip_while not_slash (c :: q)) as Hl2.
  destruct (skip_while not_slash (c :: q)) as [|x r] eqn:En; [by rewrite E|]. apply skip_head in En. apply negb_false_iff, Z.eqb_eq in En as ->.
  change (47 :: r) with ([] ++ 47 :: r) in E. rewrite (comps_slash [] r) in E. apply IH; [done|]. simpl in *. lia.
Qed.
Lemma resolve_path_inv d m p i d' : fs_wf d m -> ext2_resolve_path_at m p d = (Done i, d') -> walk d 2 (comps p) i /\ d' = d /\ zlen (skip_while is_slash p) < 512.
Proof using HG HL.
  intros Hw E. unfold ext2_resolve_path_at in E. rewrite <- comps_skip. destruct (skip_while is_slash p) as [|c q]; [by injection E as <- <-|].
  apply require_inv in E as [El%negb_true_iff%Z.leb_gt E]. apply (resolve_loop_inv _ m) in E as [E ->]; done.
Qed.
Lemma resolve_path_ok d m p i : fs_wf d m -> walk d 2 (comps p) i -> zlen (skip_while is_slash p) < 512 -> ext2_resolve_path_at m p d = (Done i, d).
Proof using HG HL.
  intros Hw E Hl. unfold ext2_resolve_path_at. rewrite <- comps_skip in E. destruct (skip_while is_slash p) as [|c q]; [by rewrite E|].
  rewrite require_true by (apply negb_true_iff, Z.leb_gt; done). apply resolve_loop_ok; [done|done|lia].
Qed.
End walk.
