(* ===== verification/Ext2Create.v ===== *)
(** * Ext2Create: creating a file in EXT2

    After a creation that succeeds the path reads as the data, every other
    regular file reads as before, and the file system is sound again. *)
From S2P Require Import Prelude Text Store Ext2 Ext2Alloc Ext2Ops Ext2Dir Ext2Block Ext2Layout Ext2Meta Ext2Tx Ext2Place Ext2File Ext2Wf Ext2Look Ext2Append Ext2Path.
#[local] Open Scope Z_scope.

Section create.
Context {S : Type} {HS : ByteStore S} {HL : ByteStoreLaws S} (G : geo) (sz : Z) (HG : geo_ok G sz).
Local Abbreviation bs := (g_bs G).
Local Abbreviation ptrs := (bs / 4).
Local Abbreviation ok := (dev_ok sz).
Local Abbreviation keep := (keeps bs sz).
Local Abbreviation block := (blk bs).
Local Abbreviation ino_at := (inode_at G).
Local Abbreviation fs_wf := (fs_wf G sz).
Local Abbreviation dir_ino := (dir_ino G).
Local Abbreviation in_use d := (used G (bmap G d)).
Local Abbreviation ptr d a j := (i_block (ino_at d a) j).

(** ** Steps that leave the directories alone *)

Record dirs_kept (d d' : S) : Prop := DirsKept {
  dk_dirs : forall a, dir_ino d' a <-> dir_ino d a;
  dk_inode : forall a, dir_ino d a -> ino_at d' a = ino_at d a;
  dk_keep : keep (fun k => meta_block G k \/ in_use d k = false) d d';
  dk_used : forall k, 0 <= k < g_blocks G -> in_use d k = true -> in_use d' k = true;
  dk_iused : forall a, ino_ok G a -> ino_used G d a = true -> ino_used G d' a = true;
}.
Lemma kept_block d d' m a j : fs_wf d m -> dirs_kept d d' -> dir_ino d a -> 0 <= j < 12 -> ptr d a j <> 0 -> block d' (ptr d a j) = block d (ptr d a j).
Proof using HG.
  intros Hw Hk Ha Hj Hn. destruct (fw_block _ _ _ _ Hw a j Ha Hj Hn) as (Hr & Hu & Hm & _). apply (ks_blk _ _ _ _ _ (dk_keep _ _ Hk)); [apply (block_inside _ _ HG); lia|].
  intros [?|?]; [done|congruence].
Qed.
Lemma kept_wf d d' m m' : fs_wf d m -> dirs_kept d d' -> mem_ok G m' -> disk_meta G d' m' -> fs_wf d' m'.
Proof using HG.
  intros Hw Hk Hm Hd. apply (wf_same G sz HG d m); try done; [apply (dk_keep _ _ Hk)|apply (dk_used _ _ Hk)|..].
  - intros a Ha%(dk_dirs _ _ Hk). split; [done|]. apply (dk_iused _ _ Hk), Ha.
  - intros a j Ha%(dk_dirs _ _ Hk) Hj. by rewrite (dk_inode _ _ Hk).
  - intros a j Ha%(dk_dirs _ _ Hk) Hj Hn. rewrite (kept_block d d' m) by done. apply (fw_block _ _ _ _ Hw a j Ha Hj Hn).
Qed.
Lemma kept_lookup d d' m a n : fs_wf d m -> dirs_kept d d' -> dir_ino d a -> dlookup G d' a n = dlookup G d a n.
Proof using HG.
  intros Hw Hk Ha. unfold dlookup. rewrite (dk_inode _ _ Hk) by done. apply dfind_ext. intros j Hj. split; [done|]. intros Hn. unfold bfind. by rewrite (kept_block d d' m).
Qed.

Lemma ino_taken_kept d m d' m' ino : fs_wf d m -> ino_taken G sz (Fs d m) (Fs d' m') ino ->
  dirs_kept d d' /\ fs_wf d' m' /\ (forall a, ino_ok G a -> ino_at d' a = ino_at d a) /\ ~ dir_ino d ino.
Proof using HG.
  intros Hw [T1 T2 T3 T4 T5 T6]. cbn [fs_dev fs_meta] in *.
  assert (forall r, valid G r -> r <> RSuper -> (forall i, r <> RGdt i) -> (forall i, r <> RIb i) -> block d' (loc G r) = block d (loc G r)) as M.
  { intros r Hv N1 N2 N3. apply (keep_role G sz HG _ _ _ _ T4); [done|]. intros [Hd|(i & Hi & Er)]; [by apply (desc_not G sz HG) in Hd|]. apply (loc_inj _ _ HG) in Er; [by eapply N3|done|done]. }
  assert (forall a, ino_ok G a -> ino_at d' a = ino_at d a) as I.
  { intros a Ha. pose proof (ino_role_valid _ _ HG a Ha) as Hv. apply ino_ext. change (iblk G a) with (loc G (ino_role G a)). by rewrite M. }
  assert (dirs_kept d d') as Hk.
  { split.
    - intros a. split; intros [Ha Hd]; (split; [done|]); [by rewrite <- I|by rewrite I].
    - intros a [Ha _]. by apply I.
    - eapply keeps_weaken; [exact T4|]. intros x _ [[-> |(i & Hi & ->)]|(i & Hi & ->)]; left; [by exists RSuper|by exists (RGdt i)|by exists (RIb i)].
    - intros k Hk Hu. rewrite <- Hu. apply (used_ext G sz HG); [|done]. intros i Hi. by apply M.
    - intros a Ha Hu. rewrite T3 by done. by rewrite Hu, orb_true_r. }
  split; [done|]. split; [by apply (kept_wf d d' m)|]. split; [done|]. intros Hd. rewrite (fw_inode _ _ _ _ Hw ino Hd) in T2. done.
Qed.
Lemma written_kept d m file0 t' ino data A f : fs_wf d m -> written G sz d (in_use d) file0 m t' ino data A f -> is_dir f = false -> ~ dir_ino d ino ->
  dirs_kept d (fs_dev (tx_fs t')) /\ fs_wf (fs_dev (tx_fs t')) (fs_meta (tx_fs t')).
Proof using HG.
  intros Hw Ht Hfd Hnd. assert (dirs_kept d (fs_dev (tx_fs t'))) as Hk.
  { split.
    - intros a. split; intros [Ha Hd].
      + split; [done|]. destruct (Z.eq_dec a ino) as [->|Hne]; [by rewrite (proj2 (wt_ino _ _ _ _ _ _ _ _ _ _ _ Ht)), Hfd in Hd|]. by rewrite <- (wt_inodes _ _ _ _ _ _ _ _ _ _ _ Ht).
      + split; [done|]. rewrite (wt_inodes _ _ _ _ _ _ _ _ _ _ _ Ht); [done|done|]. intros ->. by apply Hnd.
    - intros a Ha. apply (wt_inodes _ _ _ _ _ _ _ _ _ _ _ Ht); [apply Ha|]. intros ->. by apply Hnd.
    - eapply keeps_weaken; [apply (wt_keep _ _ _ _ _ _ _ _ _ _ _ Ht)|]. intros x _ [Hx|Hx]; [right|by left]. by apply (wt_fresh _ _ _ _ _ _ _ _ _ _ _ Ht).
    - intros k Hk Hu. rewrite (wt_used _ _ _ _ _ _ _ _ _ _ _ Ht) by done. by rewrite Hu, orb_true_r.
    - intros a Ha. unfold ino_used, imap. by rewrite (wt_imaps _ _ _ _ _ _ _ _ _ _ _ Ht) by by apply (ino_group_range _ _ HG). }
  split; [done|]. apply (kept_wf d _ m); try done; [apply (wt_mem _ _ _ _ _ _ _ _ _ _ _ Ht)|apply (wt_disk _ _ _ _ _ _ _ _ _ _ _ Ht)].
Qed.

(** ** Files *)

(** Block [k] holds data: it is used and belongs to no directory. *)
Definition dir_block_of (d : S) (k : Z) : Prop := exists a j, dir_ino d a /\ 0 <= j < 12 /\ k = ptr d a j.
Record data_block (d : S) (k : Z) : Prop := DataBlock {
  db_range : 0 < k < g_blocks G; db_used : in_use d k = true; db_meta : ~ meta_block G k; db_dir : ~ dir_block_of d k;
}.
Definition nblocks (f : list Z) : Z := (i_size f + bs - 1) / bs.
(** Every block that reading the inode [f] uses holds data. *)
Record file_safe (d : S) (f : list Z) : Prop := FileSafe {
  sf_size : nblocks f <= 12 + ptrs + ptrs * ptrs; sf_14 : i_block f 14 = 0;
  sf_roots : forall k, k = 12 \/ k = 13 -> i_block f k = 0 \/ data_block d (i_block f k);
  sf_leaves : forall lbn, 12 + ptrs <= lbn < nblocks f -> leaf_ptr G d f lbn = 0 \/ data_block d (leaf_ptr G d f lbn);
  sf_data : forall lbn, 0 <= lbn < nblocks f -> file_ptr G d f lbn = 0 \/ data_block d (file_ptr G d f lbn);
}.
Definition regular (f : list Z) : Prop := Z.land (i_mode f) S_IFMT = 0x8000.
(** The invariant, a root, entries for inodes in use, and regular files that keep to their own blocks. *)
Record fs_sound (d : S) (m : ext2_meta) : Prop := FsSound {
  fo_wf : fs_wf d m; fo_root : dir_ino d 2;
  fo_entries : forall a n e, dir_ino d a -> dlookup G d a n = Some e -> ino_ok G e.1 /\ ino_used G d e.1 = true;
  fo_files : forall a, ino_ok G a -> ino_used G d a = true -> regular (ino_at d a) -> file_safe d (ino_at d a);
}.

Lemma regular_not_dir f : regular f -> is_dir f = false.
Proof using. unfold regular, is_dir. by intros ->. Qed.
Lemma data_inside d k : data_block d k -> inside bs sz k.
Proof using HG. intros [Hr _ _ _]. apply (block_inside _ _ HG). lia. Qed.
Lemma file_bytes_ext d d' f len : 0 <= len -> (forall lbn, 0 <= lbn < (len + bs - 1) / bs -> file_ptr G d' f lbn = file_ptr G d f lbn /\
  (file_ptr G d f lbn = 0 \/ block d' (file_ptr G d f lbn) = block d (file_ptr G d f lbn))) -> file_bytes G d' f len = file_bytes G d f len.
Proof using HG.
  intros Hlen H. pose proof (bs_pos _ _ HG). apply bytes_at_ext. intros i Hi. unfold file_byte.
  destruct (H (i / bs)) as [-> Hb].
  { split; [apply Z.div_pos; lia|]. pose proof (Z.div_mod (len + bs - 1) bs ltac:(lia)). pose proof (Z.mod_pos_bound (len + bs - 1) bs ltac:(lia)). apply Z.div_lt_upper_bound; [lia|]. nia. }
  destruct (Z.eqb_spec (file_ptr G d f (i / bs)) 0) as [|Hn]; [done|]. destruct Hb; [done|]. congruence.
Qed.
(** A step that keeps the blocks that hold data keeps the files. *)
Lemma safe_kept d d' f : (forall k, data_block d k -> data_block d' k /\ block d' k = block d k) -> 0 <= i_size f -> file_safe d f ->
  file_safe d' f /\ file_bytes G d' f (i_size f) = file_bytes G d f (i_size f).
Proof using HG.
  intros H Hsz [F1 F2 F3 F4 F5].
  assert (forall lbn, 0 <= lbn < nblocks f -> file_ptr G d' f lbn = file_ptr G d f lbn /\ (12 + ptrs <= lbn -> leaf_ptr G d' f lbn = leaf_ptr G d f lbn)) as E.
  { intros lbn Hl. apply (file_ptr_ext G sz HG d d' f f lbn (data_block d)); try done; try lia; [intros k Hk; by apply H|apply F3; by left|apply F3; by right|intros; apply F4; lia]. }
  split; [split; try done|].
  - intros k Hk. destruct (F3 k Hk); [by left|right; by apply H].
  - intros lbn Hl. destruct (ptrs_4 _ _ HG). destruct (E lbn ltac:(lia)) as [_ ->]; [|lia]. destruct (F4 lbn Hl); [by left|right; by apply H].
  - intros lbn Hl. destruct (E lbn Hl) as [-> _]. destruct (F5 lbn Hl); [by left|right; by apply H].
  - apply file_bytes_ext; [done|]. intros lbn Hl. destruct (E lbn Hl) as [-> _]. split; [done|]. destruct (F5 lbn Hl) as [|Hd]; [by left|right; by apply H].
Qed.
Lemma data_kept d d' : keep (fun k => meta_block G k \/ in_use d k = false \/ dir_block_of d k) d d' ->
  (forall k, 0 <= k < g_blocks G -> in_use d k = true -> in_use d' k = true) -> (forall k, in_use d k = true -> dir_block_of d' k -> dir_block_of d k) ->
  forall k, data_block d k -> data_block d' k /\ block d' k = block d k.
Proof using HG.
  intros K U D k Hk. pose proof Hk as [H1 H2 H3 H4]. split.
  - split; [done|apply U; [lia|done]|done|]. intros Hd. by apply H4, D.
  - apply (ks_blk _ _ _ _ _ K); [by eapply data_inside|]. intros [?|[?|?]]; [done|congruence|done].
Qed.

(** Reading a file that is safe. *)
Lemma read_file_ok d m q i : fs_wf d m -> walk G d 2 (comps q) i -> zlen (skip_while is_slash q) < 512 -> ino_ok G i -> is_dir (ino_at d i) = false -> file_safe d (ino_at d i) ->
  ext2_read_file_at q d = (Done (file_bytes G d (ino_at d i) (i_size (ino_at d i))), d).
Proof using HG HL.
  intros Hw Hwk Hl Hi Hd [F1 F2 F3 F4 F5]. set (f := ino_at d i) in *. pose proof (bs_pos _ _ HG) as Hbs. assert (0 < i) as H0 by by destruct Hi; lia.
  assert (0 <= i_size f < 2 ^ 32) as Hsz.
  { apply le32_range. apply Forall_take, Forall_drop. apply (blk_bytes bs sz Hbs); [apply Hw|]. apply (loc_inside _ _ HG _ (ino_role_valid _ _ HG i Hi)). }
  unfold ext2_read_file_at. rewrite (bind_done _ _ _ _ _ (fail_as_done _ _ _ _ _ (load_meta_ok G sz HG m d (fw_mem _ _ _ _ Hw) (fw_dev _ _ _ _ Hw) (fw_disk _ _ _ _ Hw)))).
  rewrite (bind_done _ _ _ _ _ (fail_as_done _ _ _ _ _ (resolve_path_ok G sz HG d m q i Hw Hwk Hl))). rewrite require_true by (apply negb_true_iff; lia).
  rewrite (bind_done _ _ _ _ _ (fail_as_done _ _ _ _ _ (read_inode_ok G sz HG m i d (fw_mem _ _ _ _ Hw) (fw_dev _ _ _ _ Hw) Hi))). fold f.
  rewrite require_true by by rewrite Hd. rewrite require_true by by rewrite F2. cbv zeta. destruct (Z.eqb_spec (i_size f) 0) as [->|Hnz]; [done|].
  apply (read_data_ok G sz HG m); [apply mk_bs, Hw|apply Hw| |done|ulia]. split.
  - destruct (F3 12 ltac:(by left)); [by left|right; by eapply data_inside].
  - destruct (F3 13 ltac:(by right)); [by left|right; by eapply data_inside].
  - intros lbn Hb. destruct (F4 lbn Hb); [by left|right; by eapply data_inside].
  - intros lbn Hb. destruct (F5 lbn Hb); [by left|right; by eapply data_inside].
Qed.

(** ** Creation *)

Lemma new_file_facts now len : 0 <= len < 2 ^ 32 -> let f := new_file now len in
  zlen f = INODE_SIZE /\ Forall is_byte f /\ i_mode f = 0x81A4 /\ i_size f = len /\ forall k, 0 <= k < 15 -> i_block f k = 0.
Proof using.
  intros Hlen. cbv zeta. unfold new_file, touch_all, touch, set_i_atime, set_i_ctime, set_i_mtime, set_i_links_count, set_i_mode, set_i_size.
  assert (zlen inode_zero = INODE_SIZE) as L0 by done. set (f1 := splice inode_zero 0 _). destruct (inode_put inode_zero 0 (put16 (u16 0x81A4)) L0) as (L1 & B1 & _); [lia|rewrite zlen_put16; lia|]. fold f1 in L1, B1.
  assert (i_mode f1 = 0x81A4) as M1 by by vm_compute.
  set (f2 := splice f1 26 _). destruct (inode_put f1 26 (put16 (u16 1)) L1) as (L2 & B2 & M2 & _); [lia|rewrite zlen_put16; lia|]. fold f2 in L2, B2, M2.
  set (f3 := splice f2 4 _). destruct (inode_put f2 4 (put32 (u32 len)) L2) as (L3 & B3 & M3 & _); [lia|rewrite zlen_put32; lia|]. fold f3 in L3, B3, M3.
  assert (i_size f3 = len) as S3 by (unfold i_size, f3, INODE_SIZE in *; rewrite u32_id by done; apply le32_splice_in; lia).
  set (f4 := splice f3 8 _). destruct (inode_put f3 8 (put32 (u32 now)) L3) as (L4 & B4 & M4 & S4); [lia|rewrite zlen_put32; lia|]. fold f4 in L4, B4, M4, S4.
  set (f5 := splice f4 12 _). destruct (inode_put f4 12 (put32 (u32 now)) L4) as (L5 & B5 & M5 & S5); [lia|rewrite zlen_put32; lia|]. fold f5 in L5, B5, M5, S5.
  destruct (inode_put f5 16 (put32 (u32 now)) L5) as (L6 & B6 & M6 & S6); [lia|rewrite zlen_put32; lia|]. split; [done|]. split; [|split; [|split]].
  - repeat (apply splice_bytes; [|first [apply put32_bytes|apply put16_bytes]]). apply zrep0_bytes.
  - by rewrite M6, M5, M4, M3, M2 by lia.
  - by rewrite S6, S5, S4 by (right; lia).
  - intros k Hk. rewrite B6, B5, B4, B3, B2, B1 by done. apply le32_zrep.
Qed.
Lemma need_nblocks m len : m_block_size m = bs -> need_blocks m len = (len + bs - 1) / bs.
Proof using HG. intros Em. pose proof (bs_pos _ _ HG). unfold need_blocks. rewrite Em. destruct (Z.eqb_spec len 0) as [->|]; [|done]. rewrite Z.div_small; lia. Qed.

(** What was written is safe and is the data. *)
Lemma written_safe d m file0 m0 t' ino data A f : fs_wf d m0 -> m_block_size m = bs -> written G sz d (in_use d) file0 m t' ino data A f -> dirs_kept d (fs_dev (tx_fs t')) -> i_size f = zlen data ->
  need_blocks m (zlen data) <= max_data_blocks m ->
  file_safe (fs_dev (tx_fs t')) f /\ file_bytes G (fs_dev (tx_fs t')) f (zlen data) = data.
Proof using HG.
  intros Hw Em Ht Hk Hsz Hmax. set (d' := fs_dev (tx_fs t')) in *. pose proof (bs_pos _ _ HG) as Hbs. pose proof (zlen_nonneg data) as Hlen.
  unfold max_data_blocks in Hmax. rewrite Em in Hmax. rewrite need_nblocks in Hmax by done.
  assert (need_blocks m (zlen data) = nblocks f) as En by (unfold nblocks; by rewrite need_nblocks, Hsz).
  assert (forall k, k ∈ A -> data_block d' k) as HA.
  { intros k Hin. destruct (wt_fresh _ _ _ _ _ _ _ _ _ _ _ Ht k Hin) as [Hr Hu]. split; [done| | |].
    - unfold d'. rewrite (wt_used _ _ _ _ _ _ _ _ _ _ _ Ht) by lia. by rewrite bool_decide_eq_true_2.
    - intros (r & Hv & ->). by rewrite (fw_meta _ _ _ _ Hw) in Hu.
    - intros (a & j & Ha%(dk_dirs _ _ Hk) & Hj & E). rewrite (dk_inode _ _ Hk) in E by done. assert (ptr d a j <> 0) as Hn by lia.
      destruct (fw_block _ _ _ _ Hw a j Ha Hj Hn) as (_ & Hu' & _). congruence. }
  split.
  - split.
    + unfold nblocks. by rewrite Hsz.
    + apply (wt_head _ _ _ _ _ _ _ _ _ _ _ Ht).
    + intros k Hk'. destruct (wt_roots _ _ _ _ _ _ _ _ _ _ _ Ht k Hk'); [by left|right; by apply HA].
    + intros lbn Hl. right. apply HA, (wt_leaves _ _ _ _ _ _ _ _ _ _ _ Ht). by rewrite En.
    + intros lbn Hl. right. apply HA, (wt_data _ _ _ _ _ _ _ _ _ _ _ Ht). by rewrite En.
  - apply bytes_at_eq; [done|]. intros i Hi. rewrite Z.add_0_l. unfold file_byte. pose proof (Z.div_mod i bs ltac:(lia)) as Hdm. pose proof (Z.mod_pos_bound i bs ltac:(lia)) as Hmb.
    assert (0 <= i / bs < need_blocks m (zlen data)) as Hl.
    { rewrite need_nblocks by done. split; [apply Z.div_pos; lia|]. pose proof (Z.div_mod (zlen data + bs - 1) bs ltac:(lia)). pose proof (Z.mod_pos_bound (zlen data + bs - 1) bs ltac:(lia)). nia. }
    destruct (wt_data _ _ _ _ _ _ _ _ _ _ _ Ht _ Hl) as [Hin Hc]. fold d' in Hin, Hc. destruct (HA _ Hin) as [Hr _ _ _]. set (k := file_ptr G d' f (i / bs)) in *. rewrite (proj2 (Z.eqb_neq k 0)) by lia. rewrite Hc.
    rewrite bget_chunk by lia. f_equal. lia.
Qed.

(** ** The steps of a creation *)

Record created (d d' : S) (m m' : ext2_meta) (path data : list Z) : Prop := Created {
  cr_steps : exists pp parent name ino d1 m1 file0 t' A f,
    comps path = comps pp ++ [name] /\ walk G d 2 (comps pp) parent /\ name_ok name /\ dir_ino d parent /\ dlookup G d parent name = None /\
    ino_taken G sz (Fs d m) (Fs d1 m1) ino /\ written G sz d1 (in_use d1) file0 m1 t' ino data A f /\ i_mode f = 0x81A4 /\ i_size f = zlen data /\
    need_blocks m1 (zlen data) <= max_data_blocks m1 /\ entry_added G sz (fs_dev (tx_fs t')) d' parent ino 1 name;
  cr_wf : fs_wf d' m';
}.

Lemma with_fs_inv {A} m (c : comp (fs S) A) d a d' : with_fs m c d = (Done a, d') -> exists s, c (Fs d m) = (Done a, s) /\ fs_dev s = d'.
Proof using. unfold with_fs. destruct (c (Fs d m)) as [o s]. intros [= -> <-]. by exists s. Qed.
Lemma with_tx_inv {A} (c : comp (tx S) A) s a s' : with_tx c s = (Done a, s') -> exists t, c (Tx s (ext2_alloc_ctx_init (fs_meta s))) = (Done a, t) /\ tx_fs t = s'.
Proof using. unfold with_tx. destruct (c _) as [o t]. intros [= -> <-]. by exists t. Qed.
Lemma head_fields f g : Forall is_byte f -> (forall p, 0 <= p < 28 -> bget f p = bget g p) -> i_mode f = i_mode g /\ i_size f = i_size g.
Proof using. intros _ H. split; [apply agree_le16|apply agree_le32]; intros i Hi; apply H; lia. Qed.

Lemma create_steps now path data d m d' : fs_sound d m -> Forall is_byte path -> Forall is_byte data -> ext2_create_and_write now path data d = (Done tt, d') ->
  exists m', created d d' m m' path data.
Proof using HG HL.
  intros Hs Hpath Hdata E. pose proof (fo_wf _ _ Hs) as Hw. unfold ext2_create_and_write in E.
  rewrite (bind_done _ _ _ _ _ (fail_as_done _ _ _ _ _ (load_meta_ok G sz HG m d (fw_mem _ _ _ _ Hw) (fw_dev _ _ _ _ Hw) (fw_disk _ _ _ _ Hw)))) in E.
  destruct (split_parent_name path) as [|[pp name]] eqn:Esp; [done|]. apply split_parent_comps in Esp as (Ec & Hn1 & Hn2 & Hnb). assert (name_ok name) as Hn by done.
  apply bind_inv in E as (parent & d0 & E1 & E). apply fail_as_inv in E1. apply (resolve_path_inv G sz HG) in E1 as (Hwk & -> & _); [|done].
  assert (0 < parent) as Hp0 by by apply (walk_range G sz HG d m 2 _ _ Hw) in Hwk.
  apply bind_inv in E as (r & d0 & E1 & E).
  assert (d0 = d /\ (dir_ino d parent -> r = Some (dlookup G d parent name))) as [-> Hr].
  { unfold try in E1. destruct (ext2_find_entry_at m parent name d) as [o dd] eqn:Ef. assert (dd = d) as -> by (eapply (find_entry_same G sz HG); [done| |exact Ef]; lia).
    split; [destruct o; by injection E1|]. intros Hd. rewrite (find_entry_ok G sz HG) in Ef by done. injection Ef as <-. by injection E1. }
  assert (dir_ino d parent -> dlookup G d parent name = None) as Hnone by (intros Hd; rewrite (Hr Hd) in E; by destruct (dlookup _ _ _ _)).
  set (rest := require _ _ ;;; _) in E. assert (rest d = (Done tt, d')) as E' by (destruct r as [[?|]|]; [done|exact E|exact E]). unfold rest in E'. clear rest E. rename E' into E.
  apply require_inv in E as [Hmax E]. apply require_inv in E as [Hneed E]. apply negb_true_iff, Z.ltb_ge in Hmax, Hneed.
  apply with_fs_inv in E as (s3 & E & Ed'). apply bind_inv in E as (ino & s1 & E1' & E). apply require_inv in E as [Hino E]. apply negb_true_iff, Z.eqb_neq in Hino.
  apply (alloc_inode_inv G sz HG) in E1'; [|apply Hw|apply Hw|done]. destruct s1 as [d1 m1].
  destruct (ino_taken_kept d m d1 m1 ino Hw E1') as (K1 & Hw1 & I1 & Nd).
  unfold the_meta in E. rewrite bind_gets in E. cbn [fs_meta] in E. apply bind_inv in E as ([] & s2 & E2 & E). apply with_tx_inv in E2 as (t' & E2 & Et). cbn [fs_meta] in E2.
  destruct (ctx_init_ok G sz HG m1 d1 (fw_mem _ _ _ _ Hw1)) as [Hc0 Hc1].
  pose proof (zlen_nonneg data) as Hlen. destruct (new_file_facts now (zlen data) ltac:(ulia)) as (F1 & F2 & F3 & F4 & F5).
  assert (m_block_size m1 = bs) as Em1 by apply mk_bs, Hw1. assert (m_block_size m = bs) as Em by apply mk_bs, Hw.
  assert (need_blocks m1 (zlen data) <= max_data_blocks m1) as Hneed1 by (unfold need_blocks, max_data_blocks in *; by rewrite Em1, Em in *).
  apply (write_blocks_inv G sz HG d1 (in_use d1) (fw_meta _ _ _ _ Hw1) _ _ Em1) in E2 as (A & f & Ht); try done; [|apply Hw1|apply Hw1|..].
  2: { intros k Hk. apply (used_ext G sz HG); [|done]. intros i Hi. by apply Hc1. }
  2: { destruct (it_ok _ _ _ _ _ E1'). lia. }
  destruct (wt_head _ _ _ _ _ _ _ _ _ _ _ Ht) as (_ & Hfb & Hfh & _). destruct (head_fields f _ Hfb Hfh) as [Hmode Hsize]. rewrite F3 in Hmode. rewrite F4 in Hsize.
  assert (is_dir f = false) as Hfd by (unfold is_dir; by rewrite Hmode).
  destruct (written_kept d1 m1 _ t' ino data A f Hw1 Ht Hfd) as [K2 Hw2]; [by rewrite (dk_dirs _ _ K1)|].
  apply bind_inv in E as (x & s4 & E3 & [= <-]). apply fail_as_inv in E3. rewrite <- Et in E3.
  apply (append_dirent_inv G sz HG) in E3 as (Hpd & Hw3 & Ha); try done; [|lia|destruct (it_ok _ _ _ _ _ E1'); pose proof (go_inodes _ _ HG); pose proof (go_groups _ _ HG); pose proof (go_ipg _ _ HG); pose proof (bs_pos _ _ HG); change EXT2_MAX_GROUPS with 1024 in *; nia|by apply Hnb].
  apply (dk_dirs _ _ K2), (dk_dirs _ _ K1) in Hpd. exists (fs_meta s4). split; [|by rewrite <- Ed'].
  exists pp, parent, name, ino, d1, m1, (new_file now (zlen data)), t', A, f. rewrite <- Ed'. split_and?; try done. by apply Hnone.
Qed.

(** ** What a creation leaves *)

Lemma kept_data d d' m : fs_wf d m -> dirs_kept d d' -> forall k, data_block d k -> data_block d' k /\ block d' k = block d k.
Proof using HG.
  intros Hw Hk. apply data_kept; [|apply (dk_used _ _ Hk)|].
  - eapply keeps_weaken; [apply (dk_keep _ _ Hk)|]. intros x _ [?|?]; [by left|right; by left].
  - intros k _ (a & j & Ha%(dk_dirs _ _ Hk) & Hj & E). exists a, j. by rewrite (dk_inode _ _ Hk) in E.
Qed.
Lemma added_data d d' dir child ft name : dir_ino d dir -> entry_added G sz d d' dir child ft name -> forall k, data_block d k -> data_block d' k /\ block d' k = block d k.
Proof using HG.
  intros Hd Ha. apply data_kept; [|apply (ea_used _ _ _ _ _ _ _ _ Ha)|].
  - eapply keeps_weaken; [apply (ea_keep _ _ _ _ _ _ _ _ Ha)|]. intros x _ [?|[?|(j & Hj & ->)]]; [by left|right; by left|right; right]. by exists dir, j.
  - intros k Hk (a & j & [Hok Hd'] & Hj & E). pose proof Hd' as Hd2. rewrite (ea_dirs _ _ _ _ _ _ _ _ Ha) in Hd2 by done. exists a, j. split; [done|]. split; [done|].
    destruct (ea_ptrs _ _ _ _ _ _ _ _ Ha a j) as [Ep|Ep]; [done|done|congruence|congruence].
Qed.
Lemma walk_end d m l i : fs_sound d m -> walk G d 2 l i -> ino_ok G i /\ ino_used G d i = true.
Proof using.
  intros Hs. assert (ino_ok G 2 /\ ino_used G d 2 = true) as H2 by (split; [apply Hs|apply (fw_inode _ _ _ _ (fo_wf _ _ Hs)), Hs]). revert H2. generalize 2.
  induction l as [|n l IH]; intros c Hc; cbn [walk]; [by intros ->|]. intros (Hd & Hn & e & He & Hw). apply (IH e.1); [by apply (fo_entries _ _ Hs c n)|done].
Qed.

Section after.
Context (d d' : S) (m m' : ext2_meta) (path data : list Z) (Hs : fs_sound d m) (Hc : created d d' m m' path data).

(** Directories hold what they held, and the new name leads to the file. *)
Record outcome (ino parent : Z) (name f : list Z) : Prop := Outcome {
  oc_data : forall k, data_block d k -> data_block d' k /\ block d' k = block d k;
  oc_dirs : forall a, dir_ino d' a <-> dir_ino d a;
  oc_look : forall a n, dir_ino d a -> dlookup G d' a n = if (a =? parent) && bool_decide (n = name) then Some (ino, 1) else dlookup G d a n;
  oc_new : dlookup G d parent name = None;
  oc_inode : forall a, ino_ok G a -> a <> ino -> a <> parent -> ino_at d' a = ino_at d a;
  oc_iused : forall a, ino_ok G a -> ino_used G d' a = (ino =? a) || ino_used G d a;
  oc_ino : ino_ok G ino; oc_free : ino_used G d ino = false; oc_file : ino_at d' ino = f; oc_mode : i_mode f = 0x81A4; oc_size : i_size f = zlen data;
  oc_safe : file_safe d' f; oc_bytes : file_bytes G d' f (zlen data) = data;
}.
Lemma created_outcome : exists pp parent name ino f, comps path = comps pp ++ [name] /\ walk G d 2 (comps pp) parent /\ name_ok name /\ dir_ino d parent /\ outcome ino parent name f.
Proof using HG Hs Hc.
  destruct Hc as [(pp & parent & name & ino & d1 & m1 & file0 & t' & A & f & Ec & Hwk & Hn & Hd & Hnone & Ht1 & Ht2 & Hmode & Hsize & Hneed & Ha) Hw'].
  pose proof (fo_wf _ _ Hs) as Hw. destruct (ino_taken_kept d m d1 m1 ino Hw Ht1) as (K1 & Hw1 & I1 & Nd).
  assert (is_dir f = false) as Hfd by (unfold is_dir; by rewrite Hmode). assert (~ dir_ino d1 ino) as Nd1 by by rewrite (dk_dirs _ _ K1).
  destruct (written_kept d1 m1 _ t' ino data A f Hw1 Ht2 Hfd Nd1) as [K2 Hw2]. set (d2 := fs_dev (tx_fs t')) in *.
  destruct (written_safe d1 m1 _ m1 t' ino data A f Hw1 (mk_bs _ _ (fw_mem _ _ _ _ Hw1)) Ht2 K2 Hsize Hneed) as [Hsafe Hbytes]. fold d2 in Hsafe, Hbytes.
  destruct (wt_ino _ _ _ _ _ _ _ _ _ _ _ Ht2) as [Hino If]. fold d2 in If.
  assert (dir_ino d2 parent) as Hd2 by by apply (dk_dirs _ _ K2), (dk_dirs _ _ K1).
  assert (ino <> parent) as Hne by (intros ->; by apply Nd).
  assert (forall a, dir_ino d2 a <-> dir_ino d a) as D2 by (intros a; by rewrite (dk_dirs _ _ K2), (dk_dirs _ _ K1)).
  assert (forall a n, dir_ino d a -> dlookup G d2 a n = dlookup G d a n) as L2.
  { intros a n Hx. rewrite (kept_lookup d1 d2 m1), (kept_lookup d d1 m); try done. by apply (dk_dirs _ _ K1). }
  destruct (safe_kept d2 d' f (added_data _ _ _ _ _ _ Hd2 Ha)) as [Hsafe' Hbytes']; [rewrite Hsize; apply zlen_nonneg|done|]. rewrite Hsize, Hbytes in Hbytes'.
  exists pp, parent, name, ino, f. do 4 (split; [done|]). split; try done.
  - intros k Hk. destruct (kept_data d d1 m Hw K1 k Hk) as [Hk1 E1], (kept_data d1 d2 m1 Hw1 K2 k Hk1) as [Hk2 E2], (added_data _ _ _ _ _ _ Hd2 Ha k Hk2) as [Hk3 E3].
    split; [done|]. congruence.
  - intros a. rewrite <- D2. split; intros [Ho Hx]; (split; [done|]); by rewrite ?(ea_dirs _ _ _ _ _ _ _ _ Ha) in * by done.
  - intros a n Hx. rewrite <- L2 by done. destruct (Z.eqb_spec a parent) as [->|Hap]; cbn [andb]; [|by apply (ea_old _ _ _ _ _ _ _ _ Ha); [apply D2|left]].
    destruct (bool_decide (n = name)) eqn:En; [apply bool_decide_eq_true in En as ->; apply (ea_new _ _ _ _ _ _ _ _ Ha); by rewrite L2|]. apply bool_decide_eq_false in En.
    apply (ea_old _ _ _ _ _ _ _ _ Ha); [done|by right].
  - intros a Hx N1 N2. rewrite (ea_inodes _ _ _ _ _ _ _ _ Ha) by done. rewrite <- I1 by done. by apply (wt_inodes _ _ _ _ _ _ _ _ _ _ _ Ht2).
  - intros a Hx. rewrite (ea_iused _ _ _ _ _ _ _ _ Ha) by done. rewrite <- (it_used _ _ _ _ _ Ht1) by done. cbn [fs_dev]. unfold ino_used, imap, d2.
    by rewrite (wt_imaps _ _ _ _ _ _ _ _ _ _ _ Ht2) by by apply (ino_group_range _ _ HG).
  - apply (it_free _ _ _ _ _ Ht1).
  - rewrite (ea_inodes _ _ _ _ _ _ _ _ Ha) by done. done.
Qed.

Section outcome_facts.
Context (parent ino : Z) (name f : list Z) (Hd : dir_ino d parent) (Ho : outcome ino parent name f).

Lemma outcome_walk l i : walk G d 2 l i -> walk G d' 2 l i.
Proof using Ho Hs.
  apply walk_mono. intros a n e Ha He. split; [by apply (oc_dirs _ _ _ _ Ho)|]. rewrite (oc_look _ _ _ _ Ho) by done.
  destruct (Z.eqb_spec a parent) as [->|]; [|done]. destruct (decide (n = name)) as [->|]; [by rewrite (oc_new _ _ _ _ Ho) in He|]. by rewrite bool_decide_eq_false_2.
Qed.
Lemma outcome_parent : ino <> parent.
Proof using Ho Hs Hd. intros ->. pose proof (oc_free _ _ _ _ Ho) as Hf. by rewrite (fw_inode _ _ _ _ (fo_wf _ _ Hs) parent Hd) in Hf. Qed.
Lemma outcome_file a : ino_ok G a -> ino_used G d a = true -> regular (ino_at d a) ->
  ino_at d' a = ino_at d a /\ file_safe d' (ino_at d a) /\ file_bytes G d' (ino_at d a) (i_size (ino_at d a)) = file_bytes G d (ino_at d a) (i_size (ino_at d a)).
Proof using HG Ho Hs Hd.
  intros Ha Hu Hr. split.
  - apply (oc_inode _ _ _ _ Ho); [done| |]; intros ->; [by rewrite (oc_free _ _ _ _ Ho) in Hu|]. apply regular_not_dir in Hr. by rewrite (proj2 Hd) in Hr.
  - apply safe_kept; [apply (oc_data _ _ _ _ Ho)| |by apply (fo_files _ _ Hs)].
    apply le32_range, Forall_take, Forall_drop. apply (blk_bytes bs sz (bs_pos _ _ HG)); [apply (fo_wf _ _ Hs)|]. apply (loc_inside _ _ HG _ (ino_role_valid _ _ HG a Ha)).
Qed.
Lemma outcome_sound : fs_wf d' m' -> fs_sound d' m'.
Proof using HG Ho Hs Hd.
  intros Hw'. split; [done|apply (oc_dirs _ _ _ _ Ho), Hs| |].
  - intros a n e Ha%(oc_dirs _ _ _ _ Ho). rewrite (oc_look _ _ _ _ Ho) by done. destruct (_ && _).
    + intros [= <-]. cbn [fst]. pose proof (oc_ino _ _ _ _ Ho). split; [done|]. by rewrite (oc_iused _ _ _ _ Ho), Z.eqb_refl.
    + intros He. destruct (fo_entries _ _ Hs _ _ _ Ha He) as [H1 H2]. split; [done|]. by rewrite (oc_iused _ _ _ _ Ho), H2, orb_true_r.
  - intros a Ha Hu Hr. destruct (Z.eq_dec a ino) as [->|Hne]; [rewrite (oc_file _ _ _ _ Ho); apply (oc_safe _ _ _ _ Ho)|].
    rewrite (oc_iused _ _ _ _ Ho) in Hu by done. rewrite (proj2 (Z.eqb_neq ino a)) in Hu by done. cbn [orb] in Hu.
    assert (a <> parent) as Np by (intros ->; apply (oc_dirs _ _ _ _ Ho) in Hd; apply regular_not_dir in Hr; by rewrite (proj2 Hd) in Hr).
    pose proof (oc_inode _ _ _ _ Ho a Ha Hne Np) as Ei. rewrite Ei in *. by apply outcome_file.
Qed.
End outcome_facts.
End after.

(** C2: a file that [ext2_create_and_write] reports created reads back as its data; every path that
    resolved resolves to the same inode, every regular file reads as before, and the file system
    is sound again. *)
Theorem ext2_create_correct now path data d m d' :
  fs_sound d m -> Forall is_byte path -> Forall is_byte data -> zlen path < 512 ->
  ext2_create_and_write now path data d = (Done tt, d') ->
  exists m', fs_sound d' m' /\ ext2_read_file_at path d' = (Done data, d') /\
    forall q i, ext2_resolve_path_at m q d = (Done i, d) -> ext2_resolve_path_at m' q d' = (Done i, d') /\
      (regular (ino_at d i) -> exists content, ext2_read_file_at q d = (Done content, d) /\ ext2_read_file_at q d' = (Done content, d')).
Proof using HG HL.
  intros Hs Hpath Hdata Hlen E. destruct (create_steps now path data d m d' Hs Hpath Hdata E) as [m' Hc]. exists m'.
  destruct (created_outcome d d' m m' path data Hs Hc) as (pp & parent & name & ino & f & Ec & Hwk & Hn & Hd & Ho). pose proof (cr_wf _ _ _ _ _ _ Hc) as Hw'.
  split; [by eapply outcome_sound|]. split.
  - rewrite (read_file_ok d' m' path ino); rewrite ?(oc_file _ _ _ _ _ _ _ Ho), ?(oc_size _ _ _ _ _ _ _ Ho), ?(oc_bytes _ _ _ _ _ _ _ Ho); try done.
    + rewrite Ec. apply walk_app with parent; [by eapply outcome_walk|]. cbn [walk]. split; [by apply (oc_dirs _ _ _ _ _ _ _ Ho)|]. split; [done|]. exists (ino, 1). split; [|done].
      rewrite (oc_look _ _ _ _ _ _ _ Ho), Z.eqb_refl by done. by rewrite bool_decide_eq_true_2.
    + pose proof (length_skip_while is_slash path). unfold zlen in *. lia.
    + apply (oc_ino _ _ _ _ _ _ _ Ho).
    + unfold is_dir. by rewrite (oc_mode _ _ _ _ _ _ _ Ho).
    + apply (oc_safe _ _ _ _ _ _ _ Ho).
  - intros q i Hq. apply (resolve_path_inv G sz HG) in Hq as (Hq & _ & Hl); [|apply Hs]. pose proof (outcome_walk d d' m data Hs _ _ _ _ Ho _ _ Hq) as Hq'.
    split; [by apply (resolve_path_ok G sz HG)|]. intros Hr. destruct (walk_end d m _ i Hs Hq) as [Hi Hu]. destruct (outcome_file d d' m data Hs parent ino name f Hd Ho i Hi Hu Hr) as (Ei & Hsf & Eb).
    eexists. split; [apply (read_file_ok d m q i); [apply Hs|done|done|done|by apply regular_not_dir|by apply (fo_files _ _ Hs)]|].
    rewrite (read_file_ok d' m' q i); rewrite ?Ei, ?Eb; try done. by apply regular_not_dir.
Qed.
End create.
