(* ===== verification/Ext2MkfsOk.v ===== *)
(** * Ext2MkfsOk: what formatting leaves

    A device formatted by [mkfs_ext2_core] holds a sound file system with an
    empty root directory. *)
From S2P Require Import Prelude Text Store Ext2 Ext2Mkfs Ext2Alloc Ext2Ops Ext2Dir Ext2Block Ext2Layout Ext2Meta Ext2Tx Ext2Place Ext2File Ext2Wf Ext2Look Ext2Append Ext2Path Ext2Create.
#[local] Open Scope Z_scope.

(** ** A file system with nothing but a root directory *)

Section fresh.
Context {S : Type} {HS : ByteStore S} {HL : ByteStoreLaws S} (G : geo) (sz : Z) (HG : geo_ok G sz).
Local Abbreviation bs := (g_bs G).
Local Abbreviation block := (blk bs).
Local Abbreviation ptr d a j := (i_block (inode_at G d a) j).

Lemma fresh_sound (d : S) m root_block :
  dev_ok sz d -> mem_ok G m -> disk_meta G d m -> (forall r, valid G r -> used G (bmap G d) (loc G r) = true) ->
  ino_ok G 2 -> ino_used G d 2 = true -> is_dir (inode_at G d 2) = true ->
  (forall a, ino_ok G a -> a <> 2 -> i_mode (inode_at G d a) = 0) ->
  ptr d 2 0 = root_block -> (forall j, 1 <= j < 12 -> ptr d 2 j = 0) ->
  0 < root_block < g_blocks G -> used G (bmap G d) root_block = true -> ~ meta_block G root_block ->
  block d root_block = dirent_bytes 2 12 2 [46] ++ dirent_bytes 2 (bs - 12) 2 [46; 46] ->
  fs_sound G sz d m.
Proof using HG.
  intros Hd Hm Hdm Hu Hok2 Hu2 Hdir2 Hothers Hp0 Hp Hr Hru Hrm Hb. pose proof (bs_pos _ _ HG) as Hbs. assert (1024 <= bs <= 4096) as Hbs' by (destruct (go_bs _ _ HG); lia).
  assert (forall a, dir_ino G d a -> a = 2) as Only.
  { intros a [Ha Hda]. destruct (Z.eq_dec a 2) as [|Hne]; [done|]. unfold is_dir in Hda. by rewrite Hothers in Hda. }
  set (b := block d root_block) in *. assert (dir_block b bs) as Hdb.
  { split; [apply zlen_blk; lia|apply (blk_bytes bs sz Hbs); [done|apply (block_inside _ _ HG); lia]|lia]. }
  pose proof (db_len _ _ Hdb) as Hzb.
  destruct (dirent_fields b 0 12 2 2 [46]) as (E1 & E2 & E3 & E4 & E5); change (zlen [46]) with 1 in *; try lia.
  { intros i Hi. rewrite Hb. by rewrite bget_app_l by (change (zlen (dirent_bytes 2 12 2 [46])) with 12; lia). }
  destruct (dirent_fields b 12 (bs - 12) 2 2 [46; 46]) as (N1 & N2 & N3 & N4 & N5); change (zlen [46; 46]) with 2 in *; try lia.
  { intros i Hi. rewrite Hb. rewrite bget_app_r by (change (zlen (dirent_bytes 2 12 2 [46])) with 12; lia). f_equal. change (zlen (dirent_bytes 2 12 2 [46])) with 12. lia. }
  assert (chain b bs 0 [0; 12]) as Hc.
  { constructor; rewrite ?E2, ?E3; change (zlen [46]) with 1; try lia. constructor; rewrite ?N2, ?N3; change (zlen [46; 46]) with 2; try lia. replace (12 + (bs - 12)) with bs by lia. constructor. }
  assert (entries b [0; 12] = [([46], (2, 2)); ([46; 46], (2, 2))]) as He.
  { unfold entries, entry_at, de_target. cbn [mbind list_bind app]. by rewrite E1, E4, E5, N1, N4, N5. }
  assert (dir_ino G d 2) as D2 by done. split; [split; try done|done| |].
  - intros a Ha. by rewrite (Only a Ha).
  - intros a j Ha Hj Hn. rewrite (Only a Ha) in *. destruct (Z.eq_dec j 0) as [->|]; [|by rewrite Hp in Hn by lia]. rewrite Hp0. split_and!; try done; try lia. exists [0; 12]. done.
  - intros a j k Ha Hj Hk. rewrite (Only a Ha). intros Hz. destruct (Z.eq_dec j 0) as [->|]; [lia|]. apply Hp. lia.
  - intros a j c k Ha Hc' Hj Hk Hn E. rewrite (Only a Ha), (Only c Hc') in *. split; [done|]. destruct (Z.eq_dec j 0) as [->|]; [|by rewrite Hp in Hn by lia].
    destruct (Z.eq_dec k 0); [done|]. rewrite (Hp k) in E by lia. done.
  - intros a n e Ha. rewrite (Only a Ha). unfold dlookup. intros Hl. assert (bfind G d root_block n = Some e) as Hf.
    { destruct (bfind G d root_block n) as [x|] eqn:Ex.
      - rewrite (dfind_at G d _ n 12 0 x) in Hl; [done|lia|lia|by rewrite Hp0].
      - cbn [dfind] in Hl. rewrite Hp0 in Hl. rewrite (proj2 (Z.eqb_neq root_block 0)), Ex in Hl by lia. by rewrite (Hp (0 + 1)) in Hl by lia. }
    unfold bfind in Hf. fold b in Hf. rewrite (find_assoc b bs _ n Hdb Hc), He in Hf. rewrite !assoc_cons in Hf. cbn [fst snd] in Hf.
    destruct (bool_decide _); [injection Hf as <-; done|]. destruct (bool_decide _); [injection Hf as <-; done|done].
  - intros a Ha _ Hreg. exfalso. destruct (Z.eq_dec a 2) as [->|Hne]; [apply regular_not_dir in Hreg; congruence|]. unfold regular in Hreg. by rewrite Hothers in Hreg.
Qed.
End fresh.

(** ** What is written *)

Lemma set_bits_spec n i map : 0 <= i -> i + Z.of_nat n <= 8 * zlen map ->
  zlen (set_bits n i map) = zlen map /\ (Forall is_byte map -> Forall is_byte (set_bits n i map)) /\
  forall j, 0 <= j -> test_bit (set_bits n i map) j = ((i <=? j) && (j <? i + Z.of_nat n)) || test_bit map j.
Proof.
  revert i map. induction n as [|n IH]; intros i map Hi Hn; cbn [set_bits].
  - split; [done|]. split; [done|]. intros j Hj. destruct (Z.leb_spec i j), (Z.ltb_spec j (i + Z.of_nat 0)); try done. lia.
  - assert (zlen (set_bit map i) = zlen map) as Hl by (apply zlen_set_bit; lia). destruct (IH (i + 1) (set_bit map i)) as (E1 & E2 & E3); [lia|lia|]. split; [congruence|]. split.
    + intros Hb. apply E2, set_bit_bytes; [done|lia].
    + intros j Hj. rewrite E3, test_set_bit by lia. destruct (Z.eqb_spec i j), (Z.leb_spec i j), (Z.leb_spec (i + 1) j), (Z.ltb_spec j (i + 1 + Z.of_nat n)), (Z.ltb_spec j (i + Z.of_nat (Datatypes.S n))); cbn [andb orb]; try done; lia.
Qed.

Section phases.
Context {S : Type} {HS : ByteStore S} {HL : ByteStoreLaws S} (sz : Z).
Local Abbreviation bs := mk_block_size.
Local Abbreviation bpg := mk_blocks_per_group.
Local Abbreviation ok := (dev_ok sz).
Local Abbreviation keep := (keeps bs sz).
Local Abbreviation block := (blk bs).

Lemma bs_range : 0 < bs <= 4096. Proof using. unfold mk_block_size. lia. Qed.
Hint Resolve bs_range : core.
Lemma mk_put_inv k b d d' : ok d -> zlen b = bs -> Forall is_byte b -> 0 <= k -> mk_put k b d = (Done tt, d') -> inside bs sz k /\ keep (eq k) d d' /\ block d' k = b.
Proof using HL. intros Hd Hl Hb Hk E. apply fail_as_inv in E. by apply (pwrite_block_inv bs sz bs_range) in E. Qed.
(** A block written in part. *)
Lemma mk_part_inv rc k o b d d' : ok d -> 0 <= k -> 0 <= o -> o + zlen b <= bs -> Forall is_byte b -> fail_as rc (pwrite_bytes_at (k * bs + o) b) d = (Done tt, d') ->
  keep (eq k) d d' /\ (0 < zlen b -> inside bs sz k -> block d' k = splice (block d k) o b).
Proof using HL.
  intros Hd Hk Ho Hob Hb E. apply fail_as_inv in E. pose proof bs_range. apply (pwrite_inv sz) in E as (Hs & Hd' & Hp); [|done|done|nia|ulia]. pose proof (zlen_nonneg b). split.
  - split; [done|]. intros j [Hj1 Hj2] Hne. apply bytes_at_ext. intros i Hi. rewrite Hp by nia. apply patch_out. nia.
  - intros Hpos [Hi1 Hi2]. apply buf_ext; [rewrite zlen_splice by (rewrite ?zlen_blk; lia); by rewrite !zlen_blk by lia|]. rewrite zlen_blk by lia. intros i Hi. rewrite bget_blk by lia. rewrite Hp by nia.
    destruct (decide (o <= i < o + zlen b)).
    + rewrite patch_in by lia. rewrite bget_splice_in by (rewrite ?zlen_blk; lia). f_equal. lia.
    + rewrite patch_out by lia. rewrite bget_splice_out by (rewrite ?zlen_blk; lia). by rewrite bget_blk by lia.
Qed.
Lemma mk_clear_inv n k d d' : ok d -> 0 <= k -> mk_clear n k d = (Done tt, d') ->
  keep (fun j => k <= j < k + Z.of_nat n) d d' /\ forall j, k <= j < k + Z.of_nat n -> inside bs sz j /\ block d' j = zrep bs 0.
Proof using HL.
  revert k d. induction n as [|n IH]; intros k d Hd Hk E; cbn [mk_clear] in E; [injection E as <-; split; [by apply keeps_refl|lia]|].
  apply bind_inv in E as ([] & d1 & E1 & E). apply mk_put_inv in E1 as (Hin & K1 & B1); [|done|done|apply zrep0_bytes|done].
  apply IH in E as [K2 B2]; [|apply K1|lia]. split.
  - eapply keeps_trans; (eapply keeps_weaken; [eassumption|]); intros x _; cbn; lia.
  - intros j Hj. destruct (Z.eq_dec j k) as [->|]; [|apply B2; lia]. split; [done|]. rewrite <- B1. apply (ks_blk _ _ _ _ _ K2); [done|lia].
Qed.

(** The contents of the metadata of group [h] after its turn. *)
Definition mend (gdtn h : Z) : Z := mk_data_rel gdtn + (if h =? 0 then 1 else 0).
Definition group_at (total gdtn : Z) (d : S) (h : Z) : Prop := mk_data_rel gdtn < mk_group_blocks total h /\
  forall r, 0 <= r < mend gdtn h -> inside bs sz (h * bpg + r) /\
    block d (h * bpg + r) = if r =? mk_bb_rel gdtn then mk_block_bitmap gdtn (mk_group_blocks total h) h else if r =? mk_ib_rel gdtn then mk_inode_bitmap h else zrep bs 0.
Definition descs (total gdtn g n : Z) : list Z := seqZ g n ≫= fun h => mk_desc gdtn (mk_group_blocks total h) h.

Lemma bitmap_facts gdtn gb g : 0 <= gdtn -> mk_data_rel gdtn < gb <= bpg ->
  zlen (mk_block_bitmap gdtn gb g) = bs /\ Forall is_byte (mk_block_bitmap gdtn gb g) /\
  forall j, 0 <= j -> test_bit (mk_block_bitmap gdtn gb g) j = ((j <? mk_data_rel gdtn) || ((gb <=? j) && (j <? bpg)) || ((g =? 0) && (j =? mk_data_rel gdtn))).
Proof using.
  intros Hg [Hgb1 Hgb2]. unfold mk_block_bitmap. set (dr := mk_data_rel gdtn) in *. assert (0 <= dr) as Hdr by (unfold dr, mk_data_rel, mk_it_rel, mk_ib_rel, mk_bb_rel; change mk_inode_tbl_blocks with 32; lia).
  change bpg with 32768 in *. change bs with 4096.
  destruct (set_bits_spec (Z.to_nat dr) 0 (zrep 4096 0)) as (L1 & B1 & T1); [lia|rewrite zlen_zrep by lia; lia|]. rewrite zlen_zrep in L1 by lia. set (b1 := set_bits _ 0 _) in *.
  destruct (set_bits_spec (Z.to_nat (32768 - gb)) gb b1) as (L2 & B2 & T2); [lia|rewrite L1; lia|]. set (b2 := set_bits _ gb b1) in *.
  assert (forall j, 0 <= j -> test_bit b2 j = (j <? dr) || ((gb <=? j) && (j <? 32768))) as T.
  { intros j Hj. rewrite T2, T1 by done. rewrite !Z2Nat.id by lia. replace (gb + (32768 - gb)) with 32768 by lia. rewrite (proj2 (Z.leb_le 0 j)) by done. cbn [andb].
    assert (test_bit (zrep 4096 0) j = false) as -> by (rewrite test_bit_spec, bget_zrep0; apply Z.testbit_0_l). rewrite orb_false_r. apply orb_comm. }
  assert (Forall is_byte b2) as Hb by (apply B2, B1, zrep0_bytes). rewrite L1 in L2. destruct (Z.eqb_spec g 0); cbn [andb].
  - rewrite zlen_set_bit by lia. split; [done|]. split; [apply set_bit_bytes; [done|lia]|]. intros j Hj. rewrite test_set_bit, T by lia. rewrite (Z.eqb_sym dr j). apply orb_comm.
  - split; [done|]. split; [done|]. intros j Hj. by rewrite T, orb_false_r.
Qed.
Lemma inode_bitmap_facts g : zlen (mk_inode_bitmap g) = bs /\ Forall is_byte (mk_inode_bitmap g).
Proof using.
  unfold mk_inode_bitmap. destruct (g =? 0); [|split; [done|apply zrep0_bytes]].
  destruct (set_bits_spec (Z.to_nat mk_reserved_inodes) 0 (zrep bs 0)) as (E1 & E2 & _); [lia|by vm_compute|]. split; [by rewrite E1|]. apply E2, zrep0_bytes.
Qed.

Lemma rels gdtn : 0 <= gdtn -> mk_bb_rel gdtn = 1 + gdtn /\ mk_ib_rel gdtn = 2 + gdtn /\ mk_it_rel gdtn = 3 + gdtn /\ mk_data_rel gdtn = 35 + gdtn.
Proof using. intros. unfold mk_data_rel, mk_it_rel, mk_ib_rel, mk_bb_rel. change mk_inode_tbl_blocks with 32. lia. Qed.
Lemma group_blocks_le total h : mk_group_blocks total h <= bpg.
Proof using. unfold mk_group_blocks. cbv zeta. case_match eqn:E; [done|]. apply Z.ltb_ge in E. done. Qed.

Lemma mk_group_inv total gdtn g d1 d2 d3 d : ok d -> 0 <= gdtn -> 0 <= g -> mk_data_rel gdtn < mk_group_blocks total g ->
  mk_clear (Z.to_nat (mk_data_rel gdtn + (if g =? 0 then 1 else 0))) (g * bpg) d = (Done tt, d1) ->
  mk_put (g * bpg + mk_bb_rel gdtn) (mk_block_bitmap gdtn (mk_group_blocks total g) g) d1 = (Done tt, d2) ->
  mk_put (g * bpg + mk_ib_rel gdtn) (mk_inode_bitmap g) d2 = (Done tt, d3) ->
  keep (fun j => g * bpg <= j < g * bpg + mend gdtn g) d d3 /\ group_at total gdtn d3 g.
Proof using HL.
  intros Hd Hgn Hg Hgb E1 E2 E3. destruct (rels gdtn Hgn) as (R1 & R2 & R3 & R4). pose proof (group_blocks_le total g) as Hle. assert (0 <= g * bpg) as Hs by (change bpg with 32768; lia).
  destruct (bitmap_facts gdtn (mk_group_blocks total g) g Hgn ltac:(lia)) as (L1 & F1 & _). destruct (inode_bitmap_facts g) as [L2 F2].
  apply mk_clear_inv in E1 as [K1 B1]; [|done|done]. fold (mend gdtn g) in K1, B1. assert (36 + gdtn - 1 <= mend gdtn g) as Hm by (unfold mend; destruct (g =? 0); lia). rewrite Z2Nat.id in K1, B1 by lia.
  apply mk_put_inv in E2 as (I2 & K2 & B2); [|apply K1|done|done|lia]. apply mk_put_inv in E3 as (I3 & K3 & B3); [|apply K2|done|done|lia]. split; [|split; [done|]].
  - eapply keeps_trans with d1; [done|]. eapply keeps_trans with d2; (eapply keeps_weaken; [eassumption|]); intros x _ <-; lia.
  - intros r Hr. destruct (B1 (g * bpg + r) ltac:(lia)) as [Hi Hz]. split; [done|]. destruct (Z.eqb_spec r (mk_bb_rel gdtn)) as [->|N1].
    + rewrite <- B2. apply (ks_blk _ _ _ _ _ K3); [done|lia].
    + destruct (Z.eqb_spec r (mk_ib_rel gdtn)) as [->|N2]; [done|]. rewrite <- Hz. rewrite (ks_blk _ _ _ _ _ K3), (ks_blk _ _ _ _ _ K2); first [done|lia].
Qed.
Lemma group_at_keep (P : Z -> Prop) total gdtn d d' h : keep P d d' -> (forall r, 0 <= r < mend gdtn h -> ~ P (h * bpg + r)) -> group_at total gdtn d h -> group_at total gdtn d' h.
Proof using.
  intros K HP [H1 H2]. split; [done|]. intros r Hr. destruct (H2 r Hr) as [Hi Hb]. split; [done|]. rewrite (ks_blk _ _ _ _ _ K); [done|done|by apply HP].
Qed.
Lemma mend_le total gdtn h d : group_at total gdtn d h -> mend gdtn h <= bpg.
Proof using. intros [H _]. pose proof (group_blocks_le total h). unfold mend. destruct (h =? 0); lia. Qed.

Lemma mk_each_group_inv n g total gdtn gdt fb fi d gdt' fb' fi' d' : ok d -> 0 <= gdtn -> 0 <= g ->
  mk_each_group n g total gdtn gdt fb fi d = (Done (gdt', fb', fi'), d') ->
  gdt' = gdt ++ descs total gdtn g (Z.of_nat n) /\ keep (fun j => g * bpg <= j < (g + Z.of_nat n) * bpg) d d' /\ forall h, g <= h < g + Z.of_nat n -> group_at total gdtn d' h.
Proof using HL.
  intros Hd Hgn. revert g gdt fb fi d Hd. induction n as [|n IH]; intros g gdt fb fi d Hd Hg E; cbn [mk_each_group] in E.
  - injection E as <- _ _ <-. split; [by rewrite app_nil_r|]. split; [by apply keeps_refl|lia].
  - apply require_inv in E as [Hgb%negb_true_iff%Z.leb_gt E]. apply bind_inv in E as ([] & d1 & E1 & E). apply bind_inv in E as ([] & d2 & E2 & E). apply bind_inv in E as ([] & d3 & E3 & E).
    destruct (mk_group_inv total gdtn g d1 d2 d3 d Hd Hgn Hg Hgb E1 E2 E3) as [K3 A3]. apply IH in E as (-> & K & A); [|apply K3|lia]. pose proof (mend_le _ _ _ _ A3) as Hm. change bpg with 32768 in *. split; [|split].
    + unfold descs. replace (Z.of_nat (Datatypes.S n)) with (Z.succ (Z.of_nat n)) by lia. rewrite (seqZ_cons g) by lia. rewrite bind_cons, <- app_assoc. replace (Z.pred (Z.succ (Z.of_nat n))) with (Z.of_nat n) by lia. by rewrite Z.add_1_r.
    + eapply keeps_trans; (eapply keeps_weaken; [eassumption|]); intros x _; cbn; nia.
    + intros h Hh. destruct (Z.eq_dec h g) as [->|]; [|apply A; lia]. eapply group_at_keep; [exact K| |exact A3]. intros r Hr. cbv beta. change bpg with 32768 in *. lia.
Qed.

(** ** The copies *)

Lemma gdt_block_facts gdt groups k : Forall is_byte gdt -> zlen gdt = groups * 32 -> 0 <= k -> k * 128 < groups -> zlen (mk_gdt_block gdt groups k) = bs /\ Forall is_byte (mk_gdt_block gdt groups k) /\
  sub (mk_gdt_block gdt groups k) 0 (Z.min (groups - k * 128) 128 * 32) = sub gdt (k * 128 * 32) (Z.min (groups - k * 128) 128 * 32).
Proof using.
  intros Hb Hl Hk Hg. unfold mk_gdt_block. change (mk_block_size / GD_SIZE) with 128. change GD_SIZE with 32. change bs with 4096. cbv zeta. set (n := Z.min (groups - k * 128) 128).
  assert (0 < n <= 128 /\ k * 128 + n <= groups) as Hn by (unfold n; lia). assert (zlen (sub gdt (k * 128 * 32) (n * 32)) = n * 32) as Hs by (apply zlen_sub; lia). set (b := sub gdt _ _) in *. split; [|split].
  - rewrite zlen_app, zlen_zrep by lia. lia.
  - apply Forall_app_2; [by apply Forall_take, Forall_drop|apply zrep0_bytes].
  - unfold sub. rewrite drop_0. rewrite take_app_le by (unfold zlen in *; lia). apply take_ge. unfold zlen in *. lia.
Qed.
Lemma mk_put_gdt_inv n k start groups gdt d d' : ok d -> Forall is_byte gdt -> zlen gdt = groups * 32 -> 0 <= k -> 0 <= start -> (k + Z.of_nat n - 1) * 128 < groups -> mk_put_gdt n k start groups gdt d = (Done tt, d') ->
  keep (fun j => start + 1 + k <= j < start + 1 + k + Z.of_nat n) d d' /\ forall j, k <= j < k + Z.of_nat n -> inside bs sz (start + 1 + j) /\ block d' (start + 1 + j) = mk_gdt_block gdt groups j.
Proof using HL.
  intros Hd Hb Hl. revert k d Hd. induction n as [|n IH]; intros k d Hd Hk Hst Hn E; cbn [mk_put_gdt] in E; [injection E as <-; split; [by apply keeps_refl|lia]|].
  destruct (gdt_block_facts gdt groups k Hb Hl Hk ltac:(lia)) as (L & F & _). apply bind_inv in E as ([] & d1 & E1 & E). apply mk_put_inv in E1 as (I1 & K1 & B1); [|done|done|done|lia].
  apply IH in E as [K2 B2]; [|apply K1|lia|done|lia]. split.
  - eapply keeps_trans; (eapply keeps_weaken; [eassumption|]); intros x _; cbn; lia.
  - intros j Hj. destruct (Z.eq_dec j k) as [->|]; [|apply B2; lia]. split; [done|]. rewrite <- B1. apply (ks_blk _ _ _ _ _ K2); [done|lia].
Qed.
Lemma mk_copies_inv n g groups gdtn sb gdt d d' : ok d -> Forall is_byte gdt -> zlen gdt = groups * 32 -> Forall is_byte sb -> zlen sb = SB_SIZE -> 0 <= g -> (gdtn - 1) * 128 < groups -> 0 <= gdtn ->
  mk_copies n g groups gdtn sb gdt d = (Done tt, d') ->
  keep (fun j => exists h, g <= h < g + Z.of_nat n /\ h * bpg <= j < h * bpg + 1 + gdtn /\ j <> 0) d d' /\
  (g = 0 -> (0 < n)%nat -> gdtn < bpg -> forall k, 0 <= k < gdtn -> block d' (1 + k) = mk_gdt_block gdt groups k).
Proof using HL.
  intros Hd Hb Hl Hsb Hsl Hg Hgn Hgn0. revert g d Hd Hg. induction n as [|n IH]; intros g d Hd Hg E; cbn [mk_copies] in E; [injection E as <-; split; [by apply keeps_refl|lia]|].
  apply bind_inv in E as ([] & d1 & E1 & E). apply bind_inv in E as ([] & d2 & E2 & E). assert (0 <= g * bpg) as Hs by (change bpg with 32768; lia).
  assert (keep (fun j => j = g * bpg /\ j <> 0) d d1) as K1.
  { destruct (Z.eqb_spec g 0) as [->|Hne]; [injection E1 as <-; by apply keeps_refl|]. unfold mk_put, pwrite_block in E1. rewrite <- (Z.add_0_r (_ * _)) in E1. change SB_SIZE with 204 in *.
    assert (zlen (set_group_nr g sb) = 204) as Hz by (apply zlen_splice_n; rewrite ?zlen_put16; lia).
    apply mk_part_inv in E1 as [K _]; [|done|done|lia|rewrite Hz; change bs with 4096; lia|apply splice_bytes; [done|apply put16_bytes]]. eapply keeps_weaken; [exact K|]. intros x _ <-. change bpg with 32768. lia. }
  apply mk_put_gdt_inv in E2 as [K2 B2]; [|apply K1|done|done|lia|done|lia]. rewrite Z2Nat.id in K2, B2 by done. apply IH in E as [K3 _]; [|apply K2|lia]. split.
  - eapply keeps_trans with d1; [eapply keeps_weaken; [exact K1|]; intros x _ [-> Hx]; exists g; lia|]. eapply keeps_trans with d2; (eapply keeps_weaken; [eassumption|]).
    + intros x _ Hx. cbv beta in Hx. exists g. lia.
    + intros x _ (h & Hh & Hx). exists h. lia.
  - intros -> Hn Hlt k Hk. destruct (B2 k ltac:(lia)) as [Hi <-]. change (0 * bpg + 1 + k) with (1 + k) in *. apply (ks_blk _ _ _ _ _ K3); [done|].
    change bpg with 32768 in *. intros (h & Hh & Hx). lia.
Qed.
End phases.

(** ** Numbers and tables *)

Lemma mk_numbers bytes : 64 * 1024 <= bytes -> bytes / mk_block_size <= UINT32_MAX -> mk_group_count (mk_total bytes) <> 0 ->
  let total := mk_total bytes in let groups := mk_group_count total in let gdtn := mk_gdt_blocks groups in
  0 < total < 2 ^ 32 /\ total * 4096 <= bytes /\ 0 < groups /\ (groups - 1) * 32768 < total <= groups * 32768 /\ 0 < gdtn /\ (gdtn - 1) * 128 < groups <= gdtn * 128.
Proof.
  intros Hb Hm Hg. change mk_block_size with 4096 in *. assert (mk_total bytes = bytes / 4096) as Et.
  { unfold mk_total. change mk_block_size with 4096. apply u32_id. split; [apply Z.div_pos; lia|ulia]. }
  assert (0 < bytes / 4096 /\ bytes / 4096 * 4096 <= bytes) as [H1 H2] by (split; [apply Z.div_str_pos; lia|pose proof (Z.mul_div_le bytes 4096 ltac:(lia)); lia]).
  cbv zeta. rewrite Et in *. set (t := bytes / 4096) in *. assert (t < 2 ^ 32) by ulia. unfold mk_group_count in *. change mk_blocks_per_group with 32768 in *.
  assert (t + 32768 - 1 < 2 ^ 32) as Hnw.
  { destruct (Z.ltb_spec (t + 32768 - 1) (2 ^ 32)); [done|]. exfalso. apply Hg. unfold u32. rewrite (Z.mod_eq (t + 32768 - 1)) by lia.
    assert ((t + 32768 - 1) / 2 ^ 32 = 1) as -> by (symmetry; apply Z.div_unique with (t + 32768 - 1 - 2 ^ 32); lia). apply Z.div_small. lia. }
  clear Hg. rewrite u32_id by lia. pose proof (Z.div_mod (t + 32768 - 1) 32768 ltac:(lia)). pose proof (Z.mod_pos_bound (t + 32768 - 1) 32768 ltac:(lia)).
  unfold mk_gdt_blocks. change (mk_block_size / GD_SIZE) with 128. generalize dependent ((t + 32768 - 1) / 32768). intros g Hg.
  pose proof (Z.div_mod (g + 128 - 1) 128 ltac:(lia)). pose proof (Z.mod_pos_bound (g + 128 - 1) 128 ltac:(lia)). lia.
Qed.

(** Pieces of [w] bytes put together. *)
Lemma bind_pieces (f : Z -> list Z) w g n : 0 <= w -> 0 <= n -> (forall h, zlen (f h) = w) -> zlen (seqZ g n ≫= f) = n * w /\ forall h i, g <= h < g + n -> 0 <= i < w -> bget (seqZ g n ≫= f) ((h - g) * w + i) = bget (f h) i.
Proof.
  intros Hw Hn Hf. revert g. pattern n. apply natlike_ind; [..|done]; clear n Hn.
  - intros g. split; [done|lia].
  - intros n Hn IH g. rewrite seqZ_cons by lia. rewrite bind_cons. replace (Z.pred (Z.succ n)) with n by lia. destruct (IH (Z.succ g)) as [IH1 IH2]. split; [rewrite zlen_app, IH1, Hf; lia|].
    intros h i Hh Hi. destruct (Z.eq_dec h g) as [->|Hne]; [rewrite Z.sub_diag; apply bget_app_l; rewrite Hf; lia|].
    rewrite bget_app_r by (rewrite Hf; nia). rewrite <- IH2 by lia. f_equal. rewrite Hf. lia.
Qed.
Lemma desc_facts gdtn gb g : zlen (mk_desc gdtn gb g) = 32 /\ Forall is_byte (mk_desc gdtn gb g).
Proof.
  split; [done|]. unfold mk_desc. cbv zeta. repeat apply Forall_app_2; try apply put32_bytes; try apply put16_bytes; apply zrep0_bytes.
Qed.
Lemma descs_facts total gdtn n : 0 <= n -> zlen (descs total gdtn 0 n) = n * 32 /\ Forall is_byte (descs total gdtn 0 n) /\
  forall g p, 0 <= g < n -> 0 <= p -> p + 4 <= 32 -> le32 (descs total gdtn 0 n) (g * 32 + p) = le32 (mk_desc gdtn (mk_group_blocks total g) g) p.
Proof.
  intros Hn. destruct (bind_pieces (fun h => mk_desc gdtn (mk_group_blocks total h) h) 32 0 n ltac:(lia) Hn (fun h => proj1 (desc_facts gdtn _ h))) as [E1 E2]. split; [done|]. split.
  - unfold descs. apply Forall_forall. intros x Hx. apply list_elem_of_bind in Hx as (h & Hx & _). by apply (proj1 (Forall_forall _ _) (proj2 (desc_facts gdtn (mk_group_blocks total h) h))).
  - intros g p Hg Hp Hp4. apply le32_ext. intros i Hi. rewrite <- (E2 g (p + i)) by lia. f_equal. lia.
Qed.
Lemma volume_facts label : Forall is_byte label -> zlen (volume_name label) = 16 /\ Forall is_byte (volume_name label).
Proof.
  intros Hb. unfold volume_name. cbv zeta. split; [|apply Forall_app_2; [by apply Forall_take|apply zrep0_bytes]].
  rewrite zlen_app, zlen_zrep; unfold zlen; rewrite ?length_take; lia.
Qed.
Lemma superblock_facts now label total groups fb fi : Forall is_byte label -> 0 <= total < 2 ^ 32 -> 0 <= groups * 1024 < 2 ^ 32 -> let sb := mk_superblock now label total groups fb fi in
  zlen sb = SB_SIZE /\ Forall is_byte sb /\ s_magic sb = 0xEF53 /\ s_log_block_size sb = 2 /\ s_blocks_count sb = total /\ s_blocks_per_group sb = 32768 /\
  s_inodes_per_group sb = 1024 /\ s_inodes_count sb = groups * 1024 /\ s_first_ino sb = 11 /\ s_inode_size sb = 128.
Proof.
  intros Hb Ht Hg. destruct (volume_facts label Hb) as [Hvl Hvb]. cbv zeta. split; [|split; [|split_and!; try done]].
  - unfold mk_superblock. rewrite !zlen_app, Hvl. done.
  - unfold mk_superblock. revert Hvb. generalize (volume_name label). intros l Hl. repeat apply Forall_app_2; try apply put32_bytes; try apply put16_bytes; try apply zrep0_bytes; done.
  - exact (le32_put32 total Ht).
  - exact (le32_put32 (groups * 1024) Hg).
Qed.

(** ** The device after formatting *)

Section format.
Context {S : Type} {HS : ByteStore S} {HL : ByteStoreLaws S} (bytes now later : Z) (label : list Z) (Hlabel : Forall is_byte label).
Local Abbreviation bs := mk_block_size.
Local Abbreviation bpg := mk_blocks_per_group.
Local Abbreviation block := (blk bs).
Local Abbreviation total := (mk_total bytes).
Local Abbreviation groups := (mk_group_count total).
Local Abbreviation gdtn := (mk_gdt_blocks groups).
Local Abbreviation gdt := (descs total gdtn 0 groups).
Local Abbreviation table0 := (splice (zrep bs 0) 128 (root_inode later (35 + gdtn))).

Record formatted (d : S) (fb fi : Z) : Prop := Formatted {
  fm_ok : dev_ok bytes d; fm_small : 64 * 1024 <= bytes /\ bytes / bs <= UINT32_MAX /\ groups <> 0;
  fm_super : sub (block d 0) 1024 SB_SIZE = mk_superblock now label total groups fb fi;
  fm_gdt : forall k, 0 <= k < gdtn -> block d (1 + k) = mk_gdt_block gdt groups k;
  fm_room : forall h, 0 <= h < groups -> 35 + gdtn < mk_group_blocks total h;
  fm_bb : forall h, 0 <= h < groups -> block d (h * bpg + (1 + gdtn)) = mk_block_bitmap gdtn (mk_group_blocks total h) h;
  fm_ib : forall h, 0 <= h < groups -> block d (h * bpg + (2 + gdtn)) = mk_inode_bitmap h;
  fm_it : forall h t, 0 <= h < groups -> 0 <= t < 32 -> block d (h * bpg + (3 + gdtn + t)) = if (h =? 0) && (t =? 0) then table0 else zrep bs 0;
  fm_root : block d (35 + gdtn) = root_dir;
}.

Lemma root_inode_facts k : 0 <= k < 2 ^ 32 -> let r := root_inode later k in
  zlen r = INODE_SIZE /\ Forall is_byte r /\ i_mode r = 0x41ED /\ i_block r 0 = k /\ forall j, 1 <= j < 15 -> i_block r j = 0.
Proof using.
  intros Hk. cbv zeta. unfold root_inode, set_i_blocks, set_i_mtime, set_i_ctime, set_i_atime, set_i_size, set_i_links_count, set_i_mode. cbv zeta.
  assert (zlen inode_zero = INODE_SIZE) as L0 by done. set (r1 := splice inode_zero 0 _). destruct (inode_put inode_zero 0 (put16 (u16 0x41ED)) L0) as (L1 & B1 & _); [lia|rewrite zlen_put16; lia|]. fold r1 in L1, B1.
  assert (i_mode r1 = 0x41ED) as M1 by by vm_compute.
  set (r2 := splice r1 26 _). destruct (inode_put r1 26 (put16 (u16 2)) L1) as (L2 & B2 & M2 & _); [lia|rewrite zlen_put16; lia|]. fold r2 in L2, B2, M2.
  set (r3 := splice r2 4 _). destruct (inode_put r2 4 (put32 (u32 bs)) L2) as (L3 & B3 & M3 & _); [lia|rewrite zlen_put32; lia|]. fold r3 in L3, B3, M3.
  set (r4 := splice r3 8 _). destruct (inode_put r3 8 (put32 (u32 later)) L3) as (L4 & B4 & M4 & _); [lia|rewrite zlen_put32; lia|]. fold r4 in L4, B4, M4.
  set (r5 := splice r4 12 _). destruct (inode_put r4 12 (put32 (u32 later)) L4) as (L5 & B5 & M5 & _); [lia|rewrite zlen_put32; lia|]. fold r5 in L5, B5, M5.
  set (r6 := splice r5 16 _). destruct (inode_put r5 16 (put32 (u32 later)) L5) as (L6 & B6 & M6 & _); [lia|rewrite zlen_put32; lia|]. fold r6 in L6, B6, M6.
  set (r7 := splice r6 28 _). destruct (inode_put r6 28 (put32 (u32 (bs / 512))) L6) as (L7 & B7 & M7 & _); [lia|rewrite zlen_put32; lia|]. fold r7 in L7, B7, M7.
  assert (forall j, 0 <= j < 15 -> i_block (set_i_block 0 k r7) j = if j =? 0 then k else 0) as B8.
  { intros j Hj. rewrite i_block_set by (done || lia). destruct (j =? 0); [done|]. rewrite B7, B6, B5, B4, B3, B2, B1 by done. apply le32_zrep. }
  split; [unfold set_i_block, INODE_SIZE in *; apply zlen_splice_n; rewrite ?zlen_put32; lia|]. split; [|split; [|split; [by rewrite B8 by lia|]]].
  - apply set_block_bytes. repeat (apply splice_bytes; [|first [apply put32_bytes|apply put16_bytes]]). apply zrep0_bytes.
  - transitivity (i_mode r7); [|by rewrite M7, M6, M5, M4, M3, M2 by lia]. unfold INODE_SIZE in *. apply le16_splice_out; rewrite ?zlen_put32; lia.
  - intros j Hj. rewrite B8 by lia. by rewrite (proj2 (Z.eqb_neq j 0)) by lia.
Qed.

Lemma formatted_inv d d' : dev_ok bytes d -> mkfs_ext2_core now later bytes label d = (Done tt, d') -> groups * 1024 < 2 ^ 32 -> exists fb fi, formatted d' fb fi.
Proof using HL Hlabel.
  intros Hd E Hg32. unfold mkfs_ext2_core in E. apply require_inv in E as [H1%negb_true_iff%Z.ltb_ge E]. apply require_inv in E as [H2%negb_true_iff%Z.ltb_ge E]. cbv zeta in E.
  apply require_inv in E as [[H3%Z.eqb_neq H4%Z.ltb_ge]%negb_true_iff%orb_false_iff E]. destruct (mk_numbers bytes H1 H2 H3) as (T1 & T2 & T3 & T4 & T5 & T6).
  apply bind_inv in E as ([[gdt' fb] fi] & d1 & E1 & E). apply (mk_each_group_inv bytes) in E1 as (-> & K1 & A1); [|done|lia|lia]. rewrite Z2Nat.id, Z.add_0_l in K1, A1 by lia. rewrite Z2Nat.id in E by lia. cbn [app] in E.
  destruct (descs_facts total gdtn groups ltac:(lia)) as (L1 & F1 & G1). destruct (superblock_facts now label total groups (u32 fb) (u32 fi) Hlabel ltac:(lia) ltac:(lia)) as (Sl & Sb & _). set (sb := mk_superblock _ _ _ _ _ _) in *.
  destruct (rels gdtn ltac:(lia)) as (R1 & R2 & R3 & R4).
  apply bind_inv in E as ([] & d2 & E2 & E). change 1024 with (0 * bs + 1024) in E2. apply (mk_part_inv bytes) in E2 as [K2 B2]; [|apply K1|done|lia|rewrite Sl; by vm_compute|done].
  apply bind_inv in E as ([] & d3 & E3 & E). apply (mk_copies_inv bytes) in E3 as [K3 B3]; [|apply K2|done|done|done|done|done|lia|lia]. rewrite Z2Nat.id, Z.add_0_l in K3 by lia.
  assert (bg_inode_table gdt 0 = 3 + gdtn) as Eit by (unfold bg_inode_table; rewrite G1 by lia; unfold mk_desc; cbv zeta; rewrite R3; etransitivity; [exact (le32_put32 (0 * bpg + (3 + gdtn)) ltac:(change bpg with 32768; lia))|lia]).
  rewrite Eit in E. change (mk_block_size / mk_inode_size) with 32 in E. change (1 / 32) with 0 in E. change (1 mod 32 * mk_inode_size) with 128 in E. change mk_inode_tbl_blocks with 32 in E. rewrite !u32_id in E by lia.
  replace (3 + gdtn + 32) with (35 + gdtn) in E by lia. rewrite Z.add_0_r in E. destruct (root_inode_facts (35 + gdtn) ltac:(lia)) as (Rl & Rb & _). unfold INODE_SIZE in Rl.
  apply bind_inv in E as ([] & d4 & E4 & E5). apply (mk_put_inv bytes) in E4 as (I4 & K4 & B4); [|apply K3|rewrite zlen_splice; [done|lia|rewrite Rl; by vm_compute]|apply splice_bytes; [apply zrep0_bytes|done]|lia].
  apply (mk_put_inv bytes) in E5 as (I5 & K5 & B5); [|apply K4|done|by apply Forall_app_2; apply dirent_is_byte; repeat constructor|lia].
  assert (forall h, 0 <= h < groups -> 35 + gdtn < mk_group_blocks total h /\ mk_group_blocks total h <= 32768) as Room by (intros h Hh; destruct (A1 h Hh) as [Hr _]; split; [lia|apply group_blocks_le]).
  assert (forall h r, 0 <= h < groups -> 1 + gdtn <= r < 35 + gdtn -> h * bpg + r <> 3 + gdtn -> block d' (h * bpg + r) = block d1 (h * bpg + r)) as M.
  { intros h r Hh Hr Hne. pose proof (Room h Hh). destruct (A1 h Hh) as [_ Hm]. destruct (Hm r) as [Hi _]; [unfold mend; destruct (h =? 0); lia|]. change bpg with 32768 in *.
    rewrite (ks_blk _ _ _ _ _ K5), (ks_blk _ _ _ _ _ K4), (ks_blk _ _ _ _ _ K3), (ks_blk _ _ _ _ _ K2); try done; try lia. intros (h' & Hh' & Hx & _). pose proof (Room h' Hh'). assert (h = h') by lia. lia. }
  assert (forall h r, 0 <= h < groups -> 1 + gdtn <= r < 35 + gdtn -> block d1 (h * bpg + r) = if r =? 1 + gdtn then mk_block_bitmap gdtn (mk_group_blocks total h) h else if r =? 2 + gdtn then mk_inode_bitmap h else zrep bs 0) as A.
  { intros h r Hh Hr. destruct (A1 h Hh) as [_ Hm]. destruct (Hm r) as [_ ->]; [unfold mend; destruct (h =? 0); lia|]. by rewrite R1, R2. }
  exists (u32 fb), (u32 fi). split.
  - apply K5.
  - split; [exact H1|]. split; [exact H2|exact H3].
  - assert (inside bs bytes 0) as I0 by (destruct (A1 0 ltac:(lia)) as [_ Hm]; apply (Hm 0); unfold mend; rewrite R4; cbn [Z.eqb]; lia).
    rewrite (ks_blk _ _ _ _ _ K5), (ks_blk _ _ _ _ _ K4), (ks_blk _ _ _ _ _ K3), B2; try done; try lia.
    + apply sub_splice_in; rewrite ?zlen_blk; fold sb; rewrite ?Sl; first [done|lia|change bs with 4096; change SB_SIZE with 204; lia].
    + intros (h & _ & _ & ?). done.
  - intros k Hk. pose proof (Room 0 ltac:(lia)). change bpg with 32768 in *. destruct (A1 0 ltac:(lia)) as [_ Hm]. assert (inside bs bytes (1 + k)) as Ik by (apply (Hm (1 + k)); unfold mend; rewrite R4; cbn [Z.eqb]; lia).
    rewrite (ks_blk _ _ _ _ _ K5), (ks_blk _ _ _ _ _ K4); try done; try lia. apply B3; lia.
  - intros h Hh. by apply Room.
  - intros h Hh. rewrite M, A; try lia; [by rewrite Z.eqb_refl|change bpg with 32768; lia].
  - intros h Hh. rewrite M, A; try lia; [|change bpg with 32768; lia]. rewrite (proj2 (Z.eqb_neq _ _)), Z.eqb_refl by lia. done.
  - intros h t Hh Ht. destruct ((h =? 0) && (t =? 0)) eqn:E.
    + apply andb_true_iff in E as [->%Z.eqb_eq ->%Z.eqb_eq]. rewrite Z.add_0_r. change (0 * bpg + (3 + gdtn)) with (3 + gdtn). rewrite (ks_blk _ _ _ _ _ K5); [done|done|lia].
    + assert (h * bpg + (3 + gdtn + t) <> 3 + gdtn) as Hne by (change bpg with 32768; apply andb_false_iff in E as [E|E]; apply Z.eqb_neq in E; lia).
      rewrite M, A by (done || lia). rewrite !(proj2 (Z.eqb_neq _ _)) by lia. done.
  - exact B5.
Qed.

(** The geometry. *)
Definition mkfs_geo : geo :=
  Geo bs total bpg mk_inodes_per_group (groups * mk_inodes_per_group) 11 mk_inode_size groups 1 gdtn
    ((fun g => g * bpg + (1 + gdtn)) <$> seqZ 0 groups) ((fun g => g * bpg + (2 + gdtn)) <$> seqZ 0 groups) ((fun g => g * bpg + (3 + gdtn)) <$> seqZ 0 groups).
Definition role_group (r : role) : Z := match r with RSuper | RGdt _ => 0 | RBb g | RIb g | RIt g _ => g end.
Definition role_rel (r : role) : Z := match r with RSuper => 0 | RGdt k => 1 + k | RBb _ => 1 + gdtn | RIb _ => 2 + gdtn | RIt _ t => 3 + gdtn + t end.

Section shape.
Context (d : S) (fb fi : Z) (Hf : formatted d fb fi) (H1024 : groups <= EXT2_MAX_GROUPS).

Lemma shape_numbers : 0 < total < 2 ^ 32 /\ total * 4096 <= bytes /\ 0 < groups <= 1024 /\ (groups - 1) * 32768 < total <= groups * 32768 /\ 0 < gdtn /\ (gdtn - 1) * 128 < groups <= gdtn * 128.
Proof using Hf H1024. destruct (fm_small _ _ _ Hf) as (H1 & H2 & H3). pose proof (mk_numbers bytes H1 H2 H3). cbv zeta in *. change EXT2_MAX_GROUPS with 1024 in *. lia. Qed.
Lemma shape_room h : 0 <= h < groups -> h * 32768 + 35 + gdtn < total /\ 35 + gdtn < 32768 /\ mk_group_blocks total h = Z.min 32768 (total - h * 32768).
Proof using Hf.
  intros Hh. pose proof (fm_room _ _ _ Hf h Hh) as Hr. unfold mk_group_blocks in *. cbv zeta in *. change bpg with 32768 in *. destruct (Z.ltb_spec 32768 (total - h * 32768)); lia.
Qed.
Lemma shape_loc r : valid mkfs_geo r -> loc mkfs_geo r = role_group r * 32768 + role_rel r /\ 0 <= role_group r < groups /\ 0 <= role_rel r < 35 + gdtn.
Proof using Hf H1024.
  destruct shape_numbers as (N1 & N2 & N3 & N4 & N5 & N6). unfold valid. cbn [g_gdtn g_groups mkfs_geo]. destruct r as [|k|g|g|g t]; cbn [loc role_group role_rel mkfs_geo g_bs g_gdt g_bb g_ib g_it].
  - intros _. change (1024 / bs) with 0. lia.
  - intros Hk. lia.
  - intros Hg. rewrite bget_fmap_seqZ by lia. change bpg with 32768. lia.
  - intros Hg. rewrite bget_fmap_seqZ by lia. change bpg with 32768. lia.
  - intros [Hg Ht]. rewrite bget_fmap_seqZ by lia. change (itn mkfs_geo) with 32 in Ht. change bpg with 32768. lia.
Qed.
Lemma shape_geo_ok : geo_ok mkfs_geo bytes.
Proof using Hf H1024.
  destruct shape_numbers as (N1 & N2 & N3 & N4 & N5 & N6). split; cbn [mkfs_geo g_bs g_blocks g_bpg g_ipg g_groups g_isize g_inodes g_gdt g_gdtn]; change bs with 4096; change bpg with 32768; change mk_inodes_per_group with 1024; change mk_inode_size with 128; change EXT2_MAX_GROUPS with 1024; try lia; try done.
  - intros r1 r2 V1 V2 E. destruct (shape_loc r1 V1) as (E1 & G1 & R1), (shape_loc r2 V2) as (E2 & G2 & R2). destruct (shape_room _ G1) as (_ & S1 & _).
    assert (role_group r1 = role_group r2 /\ role_rel r1 = role_rel r2) as [Eg Er] by lia. clear E E1 E2. unfold valid in *. cbn [g_gdtn g_groups mkfs_geo] in *. change (itn mkfs_geo) with 32 in *.
    destruct r1, r2; cbn [role_group role_rel] in *; try lia; try done; f_equal; lia.
  - intros r V. destruct (shape_loc r V) as (-> & G & R). destruct (shape_room _ G) as (S1 & _ & _). lia.
Qed.
Lemma shape_used h r : 0 <= h < groups -> 0 <= r <= 35 + gdtn -> r < 35 + gdtn \/ h = 0 -> used mkfs_geo (bmap mkfs_geo d) (h * 32768 + r) = true.
Proof using Hf H1024.
  intros Hh Hr Hc. destruct shape_numbers as (N1 & N2 & N3 & N4 & N5 & N6). destruct (shape_room h Hh) as (S1 & S2 & S3). unfold used. cbn [g_bpg mkfs_geo]. change bpg with 32768.
  assert ((h * 32768 + r) / 32768 = h /\ (h * 32768 + r) mod 32768 = r) as [-> ->] by (split; symmetry; [apply Z.div_unique with r|apply Z.mod_unique with h]; lia).
  unfold bmap. assert (valid mkfs_geo (RBb h)) as Hv by done. destruct (shape_loc _ Hv) as [-> _]. cbn [role_group role_rel g_bs mkfs_geo]. change 32768 with bpg at 1. rewrite (fm_bb _ _ _ Hf h Hh).
  destruct (rels gdtn ltac:(lia)) as (_ & _ & _ & R4). destruct (bitmap_facts gdtn (mk_group_blocks total h) h ltac:(lia)) as (_ & _ & ->); [rewrite R4, S3; change bpg with 32768; lia| |lia]. rewrite R4.
  destruct Hc as [Hc| ->]; [by rewrite (proj2 (Z.ltb_lt _ _) Hc)|]. destruct (Z.ltb_spec r (35 + gdtn)); [done|]. rewrite (proj2 (Z.eqb_eq r _)) by lia. by rewrite !orb_true_r.
Qed.
Lemma zrep_mode n : i_mode (zrep n 0) = 0.
Proof using. unfold i_mode, le16. by rewrite !bget_zrep0. Qed.
Lemma sub_of_zeros n o k : 0 <= o -> 0 <= k -> o + k <= n -> sub (zrep n 0) o k = zrep k 0.
Proof using. intros. apply buf_ext; rewrite zlen_sub, ?zlen_zrep by (rewrite ?zlen_zrep; lia); [done|]. intros i Hi. rewrite bget_sub by lia. by rewrite !bget_zrep0. Qed.
Lemma shape_inode a : ino_ok mkfs_geo a -> inode_at mkfs_geo d a = if a =? 2 then root_inode later (35 + gdtn) else zrep 128 0.
Proof using Hf H1024.
  intros Ha. pose proof shape_geo_ok as HG. destruct (ino_group_range _ _ HG a Ha) as [Hg Hl]. pose proof (ino_role_valid _ _ HG a Ha) as Hv. destruct shape_numbers as (N1 & N2 & N3 & N4 & N5 & N6).
  unfold inode_at, iblk. destruct (shape_loc _ Hv) as [-> _]. unfold ino_role in *. destruct Hv as [_ Ht]. cbn [role_group role_rel]. change (itn mkfs_geo) with 32 in Ht. unfold ioff. change (per mkfs_geo) with 32 in *. change (g_isize mkfs_geo) with 128. change (g_bs mkfs_geo) with bs.
  change (g_groups mkfs_geo) with groups in Hg. change (g_ipg mkfs_geo) with 1024 in Hl. change 32768 with bpg. rewrite (fm_it _ _ _ Hf) by done. pose proof (Z.mod_pos_bound (ino_local mkfs_geo a) 32 ltac:(lia)) as Hmb. change INODE_SIZE with 128.
  pose proof (Z.div_mod (ino_local mkfs_geo a) 32 ltac:(lia)) as Hdm. assert (a = ino_group mkfs_geo a * 1024 + ino_local mkfs_geo a + 1) as Ea by (unfold ino_group, ino_local; change (g_ipg mkfs_geo) with 1024; pose proof (Z.div_mod (a - 1) 1024 ltac:(lia)); lia).
  destruct (root_inode_facts (35 + gdtn)) as (Rl & _); [destruct (shape_room 0 ltac:(lia)); lia|]. unfold INODE_SIZE in Rl.
  destruct ((_ =? 0) && (_ =? 0)) eqn:E.
  - apply andb_true_iff in E as [E1%Z.eqb_eq E2%Z.eqb_eq]. rewrite E1 in Ea. rewrite E2 in Hdm. destruct (Z.eqb_spec a 2) as [->|Hne].
    + assert (ino_local mkfs_geo 2 = 1) as -> by lia. change (1 mod 32 * 128) with 128. apply sub_splice_in; rewrite ?Rl; try done.
    + rewrite sub_splice_out; rewrite ?Rl; rewrite ?zlen_zrep by (vm_compute; congruence); change bs with 4096; try lia. apply sub_of_zeros; lia.
  - rewrite (proj2 (Z.eqb_neq a 2)); [apply sub_of_zeros; change bs with 4096; lia|]. intros ->. unfold ino_group, ino_local in E. change (g_ipg mkfs_geo) with 1024 in E. done.
Qed.

Definition mkfs_meta : ext2_meta := with_gd (fun _ => gdt) (meta_of (mk_superblock now label total groups fb fi)).
Lemma shape_meta : meta_of (mk_superblock now label total groups fb fi) = Meta (mk_superblock now label total groups fb fi) [] groups bs 0 1 gdtn 32.
Proof using Hf H1024 Hlabel.
  destruct shape_numbers as (N1 & N2 & N3 & N4 & N5 & N6). destruct (superblock_facts now label total groups fb fi Hlabel ltac:(lia) ltac:(lia)) as (_ & _ & _ & S1 & S2 & S3 & S4 & S5 & _ & S6). set (sb := mk_superblock _ _ _ _ _ _) in *.
  unfold meta_of, block_size_of. rewrite S1, S2, S3, S4, S6. change (if 22 <=? 2 then 0 else Z.shiftl 1024 2) with 4096. change (4096 =? 1024) with false. cbv zeta. change (u32 (u32 (1024 * 128) + 4096 - 1) / 4096) with 32.
  change (4096 / GD_SIZE) with 128. change (0 + 1) with 1.
  assert (u32 (u32 (total + 32768) - 1) / 32768 = groups) as ->; [|done]. unfold mk_group_count. change mk_blocks_per_group with 32768. f_equal. unfold u32. rewrite Zminus_mod_idemp_l. f_equal.
Qed.
Lemma shape_mem : mem_ok mkfs_geo mkfs_meta.
Proof using Hf H1024 Hlabel.
  destruct shape_numbers as (N1 & N2 & N3 & N4 & N5 & N6). destruct (superblock_facts now label total groups fb fi Hlabel ltac:(lia) ltac:(lia)) as (Sl & Sb & Sm & S1 & S2 & S3 & S4 & S5 & S6 & S7).
  destruct (descs_facts total gdtn groups ltac:(lia)) as (L1 & F1 & G1). destruct (rels gdtn ltac:(lia)) as (R1 & R2 & R3 & _). pose proof shape_meta as Em. unfold mkfs_meta. set (sb := mk_superblock _ _ _ _ _ _) in *.
  rewrite Em. cbn [with_gd m_sb m_gd m_group_count m_block_size m_sb_blk m_gdt_blk m_gdt_blocks m_inode_tbl_blocks]. split; cbn [m_sb m_gd]; [|clear Em|exact Sm|exact Sl|exact Sb|exact L1|exact F1].
  { unfold with_gd. cbn [m_sb m_gd]. rewrite Em. reflexivity. }
  unfold geo_of, mkfs_geo, with_gd. cbn [m_sb m_gd m_group_count m_block_size m_gdt_blk m_gdt_blocks]. rewrite S2, S3, S4, S5, S6, S7. change bpg with 32768.
  assert (forall f1 f2 f3 h1 h2 h3 : Z -> Z, (forall x, 0 <= x < groups -> f1 x = h1 x) -> (forall x, 0 <= x < groups -> f2 x = h2 x) -> (forall x, 0 <= x < groups -> f3 x = h3 x) ->
    forall A B C D E F' G J K, Geo A B C D E F' G J K gdtn (f1 <$> seqZ 0 groups) (f2 <$> seqZ 0 groups) (f3 <$> seqZ 0 groups) = Geo A B C D E F' G J K gdtn (h1 <$> seqZ 0 groups) (h2 <$> seqZ 0 groups) (h3 <$> seqZ 0 groups)) as Ext.
  { intros f1 f2 f3 h1 h2 h3 X1 X2 X3 A B C D E F' G J K. f_equal; apply list_fmap_ext; intros i x Hx%lookup_seqZ; [apply X1|apply X2|apply X3]; lia. }
  apply Ext; intros h Hh; unfold bg_block_bitmap, bg_inode_bitmap, bg_inode_table; change GD_SIZE with 32; destruct (shape_room h Hh) as (Q1 & _).
  - rewrite <- (Z.add_0_r (h * 32)), G1 by lia. rewrite <- R1. apply (le32_put32 (h * 32768 + mk_bb_rel gdtn)). lia.
  - rewrite G1 by lia. rewrite <- R2. apply (le32_put32 (h * 32768 + mk_ib_rel gdtn)). lia.
  - rewrite G1 by lia. rewrite <- R3. apply (le32_put32 (h * 32768 + mk_it_rel gdtn)). lia.
Qed.
Lemma shape_disk : disk_meta mkfs_geo d mkfs_meta.
Proof using Hf H1024 Hlabel.
  destruct shape_numbers as (N1 & N2 & N3 & N4 & N5 & N6). destruct (descs_facts total gdtn groups ltac:(lia)) as (L1 & F1 & G1). unfold disk_meta, mkfs_meta. rewrite shape_meta. cbn [with_gd m_sb m_gd]. split.
  - unfold disk_sb. change (loc mkfs_geo RSuper) with 0. change (1024 mod g_bs mkfs_geo) with 1024. apply (fm_super _ _ _ Hf).
  - intros k Hk. change (g_gdtn mkfs_geo) with gdtn in Hk. change (loc mkfs_geo (RGdt k)) with (1 + k). change (g_bs mkfs_geo) with bs. rewrite (fm_gdt _ _ _ Hf) by done.
    unfold gdn. change (gper mkfs_geo) with 128. change (g_groups mkfs_geo) with groups. apply (gdt_block_facts gdt groups k F1 L1); lia.
Qed.
Lemma shape_sound : fs_sound mkfs_geo bytes d mkfs_meta.
Proof using Hf H1024 Hlabel HL.
  pose proof shape_geo_ok as HG. destruct shape_numbers as (N1 & N2 & N3 & N4 & N5 & N6). destruct (shape_room 0 ltac:(lia)) as (Q1 & Q2 & _).
  assert (ino_ok mkfs_geo 2) as H2 by (unfold ino_ok; cbn [g_inodes mkfs_geo]; change mk_inodes_per_group with 1024; lia).
  destruct (root_inode_facts (35 + gdtn) ltac:(lia)) as (Rl & Rb & Rm & R0 & Rj).
  apply (fresh_sound mkfs_geo bytes HG d mkfs_meta (35 + gdtn)); rewrite ?(shape_inode 2 H2).
  - apply (fm_ok _ _ _ Hf).
  - apply shape_mem.
  - apply shape_disk.
  - intros r Hv. destruct (shape_loc r Hv) as (-> & G & R). apply shape_used; lia.
  - done.
  - unfold ino_used, imap. change (ino_group mkfs_geo 2) with 0. change (ino_local mkfs_geo 2) with 1. assert (valid mkfs_geo (RIb 0)) as Hv by (cbn [valid g_groups mkfs_geo]; lia).
    destruct (shape_loc _ Hv) as [-> _]. cbn [role_group role_rel]. change 32768 with bpg. change (g_bs mkfs_geo) with bs. rewrite (fm_ib _ _ _ Hf) by lia.
    unfold mk_inode_bitmap. cbn [Z.eqb]. destruct (set_bits_spec (Z.to_nat mk_reserved_inodes) 0 (zrep bs 0)) as (_ & _ & ->); [lia|by vm_compute|done|lia].
  - unfold is_dir. cbn [Z.eqb Pos.eqb]. by rewrite Rm.
  - intros a Ha Hne. rewrite shape_inode by done. rewrite (proj2 (Z.eqb_neq a 2)) by done. apply zrep_mode.
  - cbn [Z.eqb Pos.eqb]. done.
  - intros j Hj. cbn [Z.eqb Pos.eqb]. apply Rj. lia.
  - cbn [g_blocks mkfs_geo]. lia.
  - replace (35 + gdtn) with (0 * 32768 + (35 + gdtn)) by lia. apply shape_used; lia.
  - intros (r & Hv & E). destruct (shape_loc r Hv) as (E' & G & R). lia.
  - change (g_bs mkfs_geo) with bs. apply (fm_root _ _ _ Hf).
Qed.
End shape.
End format.

(** ** Formatting succeeds where the last group has room *)

Section progress.
Context {S : Type} {HS : ByteStore S} {HL : ByteStoreLaws S} (bytes : Z).
Local Abbreviation ok := (dev_ok bytes).
Local Abbreviation ins := (inside mk_block_size bytes).
(** [c] succeeds and leaves a device. *)
Definition runs {A} (c : comp S A) (d : S) (Q : A -> Prop) : Prop := exists a d', c d = (Done a, d') /\ ok d' /\ Q a.

Lemma runs_bind {A B} (c : comp S A) (k : A -> comp S B) d P Q : runs c d P -> (forall a d', ok d' -> P a -> runs (k a) d' Q) -> runs (bind c k) d Q.
Proof using. intros (a & d1 & E & Hd & HP) Hk. destruct (Hk a d1 Hd HP) as (b & d2 & E2 & H2). exists b, d2. split; [|done]. by rewrite (bind_done _ _ _ _ _ E). Qed.
Lemma runs_ret {A} (a : A) d (Q : A -> Prop) : ok d -> Q a -> runs (ret a) d Q.
Proof using. intros Hd HQ. by exists a, d. Qed.
Lemma runs_write rc off b d : ok d -> Forall is_byte b -> 0 <= off -> zlen b <= UINT32_MAX -> off + zlen b <= bytes -> runs (fail_as rc (pwrite_bytes_at off b)) d (fun _ => True).
Proof using HL.
  intros [Ho Hw Hz Hb] Hbb Hoff Hn Hin. destruct (store_write_in d off b) as (d1 & E1 & Ho1 & Hz1 & Hw1 & Ha1); try done; [lia|]. exists tt, d1. split; [by apply fail_as_done|]. split; [|done].
  rewrite Hz in *. split; [done|done|done|]. intros i Hi. rewrite Ha1 by done. unfold patch. case_match; [by apply is_byte_bget|by apply Hb].
Qed.
Lemma runs_put k b d : ok d -> ins k -> zlen b = mk_block_size -> Forall is_byte b -> runs (mk_put k b) d (fun _ => True).
Proof using HL. intros Hd [H1 H2] Hl Hb. change mk_block_size with 4096 in *. apply runs_write; try done; change mk_block_size with 4096; try lia; ulia. Qed.
Lemma runs_clear n k d : ok d -> (forall j, k <= j < k + Z.of_nat n -> ins j) -> runs (mk_clear n k) d (fun _ => True).
Proof using HL.
  revert k d. induction n as [|n IH]; intros k d Hd Hi; cbn [mk_clear]; [by apply runs_ret|]. eapply runs_bind; [apply runs_put; [done|apply Hi; lia|done|apply zrep0_bytes]|].
  intros _ d1 Hd1 _. apply IH; [done|]. intros j Hj. apply Hi. lia.
Qed.
Lemma runs_gdt n k start groups gdt d : ok d -> Forall is_byte gdt -> zlen gdt = groups * 32 -> 0 <= k -> (k + Z.of_nat n - 1) * 128 < groups -> (forall j, k <= j < k + Z.of_nat n -> ins (start + 1 + j)) ->
  runs (mk_put_gdt n k start groups gdt) d (fun _ => True).
Proof using HL.
  revert k d. induction n as [|n IH]; intros k d Hd Hb Hl Hk Hn Hi; cbn [mk_put_gdt]; [by apply runs_ret|]. destruct (gdt_block_facts gdt groups k Hb Hl Hk ltac:(lia)) as (L & F & _).
  eapply runs_bind; [apply runs_put; [done|apply Hi; lia|done|done]|]. intros _ d1 Hd1 _. apply IH; try done; try lia. intros j Hj. apply Hi. lia.
Qed.
Lemma runs_copies n g groups gdtn sb gdt d : ok d -> Forall is_byte gdt -> zlen gdt = groups * 32 -> Forall is_byte sb -> zlen sb = SB_SIZE -> 0 <= g -> 0 <= gdtn -> (gdtn - 1) * 128 < groups ->
  (forall h r, g <= h < g + Z.of_nat n -> 0 <= r <= gdtn -> ins (h * mk_blocks_per_group + r)) -> runs (mk_copies n g groups gdtn sb gdt) d (fun _ => True).
Proof using HL.
  intros Hd Hb Hl Hsb Hsl. revert g d Hd. induction n as [|n IH]; intros g d Hd Hg Hgn Hgm Hi; cbn [mk_copies]; [by apply runs_ret|]. eapply runs_bind with (P := fun _ => True).
  - destruct (g =? 0); [by apply runs_ret|]. destruct (Hi g 0 ltac:(lia) ltac:(lia)) as [H1 H2]. rewrite Z.add_0_r in *. change SB_SIZE with 204 in *. change mk_block_size with 4096 in H2. change mk_blocks_per_group with 32768 in *.
    assert (zlen (set_group_nr g sb) = 204) as Hz by (apply zlen_splice_n; rewrite ?zlen_put16; lia).
    apply runs_write; [done|apply splice_bytes; [done|apply put16_bytes]|change mk_block_size with 4096; lia|rewrite Hz; ulia|rewrite Hz; change mk_block_size with 4096; lia].
  - intros _ d1 Hd1 _. eapply runs_bind; [apply runs_gdt; try done; [lia|]|].
    + intros j Hj. replace (g * mk_blocks_per_group + 1 + j) with (g * mk_blocks_per_group + (1 + j)) by lia. apply Hi; lia.
    + intros _ d2 Hd2 _. apply IH; try done; [lia|]. intros h r Hh Hr. apply Hi; lia.
Qed.
Lemma runs_groups n g total gdtn gdt fb fi d : ok d -> 0 <= gdtn -> 0 <= g -> total * 4096 <= bytes -> (forall h, g <= h < g + Z.of_nat n -> mk_data_rel gdtn < mk_group_blocks total h) ->
  runs (mk_each_group n g total gdtn gdt fb fi) d (fun r => r.1.1 = gdt ++ descs total gdtn g (Z.of_nat n)).
Proof using HL.
  intros Hd Hgn. revert g gdt fb fi d Hd. induction n as [|n IH]; intros g gdt fb fi d Hd Hg Ht Hr; cbn [mk_each_group]; [apply runs_ret; [done|by rewrite app_nil_r]|].
  pose proof (Hr g ltac:(lia)) as Hg0. unfold runs. rewrite require_true by (apply negb_true_iff, Z.leb_gt; lia). change (runs ?c d ?Q) with (runs c d Q). destruct (rels gdtn Hgn) as (R1 & R2 & R3 & R4).
  pose proof (group_blocks_le total g) as Hle. assert (g * 32768 + mk_group_blocks total g <= total) as Hend by (unfold mk_group_blocks in *; cbv zeta in *; change mk_blocks_per_group with 32768 in *; case_match eqn:E; [apply Z.ltb_lt in E; lia|lia]).
  assert (forall r, 0 <= r < mk_group_blocks total g -> ins (g * mk_blocks_per_group + r)) as Hi by (intros r Hrr; split; change mk_blocks_per_group with 32768; change mk_block_size with 4096; lia).
  destruct (bitmap_facts gdtn (mk_group_blocks total g) g Hgn ltac:(lia)) as (L1 & F1 & _). destruct (inode_bitmap_facts g) as [L2 F2].
  eapply runs_bind; [apply runs_clear; [done|]|].
  { intros j Hj. replace j with (g * mk_blocks_per_group + (j - g * mk_blocks_per_group)) by lia. apply Hi. destruct (g =? 0); lia. }
  intros _ d1 Hd1 _. eapply runs_bind; [apply runs_put; [done|apply Hi; lia|done|done]|]. intros _ d2 Hd2 _. eapply runs_bind; [apply runs_put; [done|apply Hi; lia|done|done]|]. intros _ d3 Hd3 _.
  destruct (IH (g + 1) (gdt ++ mk_desc gdtn (mk_group_blocks total g) g) (fb + mk_free_blocks gdtn (mk_group_blocks total g) g) (fi + mk_free_inodes g) d3 Hd3) as (x & d4 & E4 & Hd4 & Q4); [lia|done|intros h Hh; apply Hr; lia|].
  exists x, d4. split; [exact E4|]. split; [done|]. rewrite Q4. unfold descs. replace (Z.of_nat (Datatypes.S n)) with (Z.succ (Z.of_nat n)) by lia. rewrite (seqZ_cons g) by lia.
  rewrite bind_cons, <- app_assoc. replace (Z.pred (Z.succ (Z.of_nat n))) with (Z.of_nat n) by lia. by rewrite Z.add_1_r.
Qed.

Local Abbreviation total := (mk_total bytes).
Local Abbreviation groups := (mk_group_count total).
Local Abbreviation gdtn := (mk_gdt_blocks groups).

(** The groups before the last are full. *)
Lemma room_all h : (groups - 1) * 32768 < total -> 0 < groups <= EXT2_MAX_GROUPS -> (gdtn - 1) * 128 < groups -> mk_data_rel gdtn < mk_group_blocks total (groups - 1) -> 0 < gdtn -> 0 <= h < groups -> mk_data_rel gdtn < mk_group_blocks total h.
Proof using.
  intros Ht Hg Hgd Hr Hp Hh. change EXT2_MAX_GROUPS with 1024 in *. destruct (Z.eq_dec h (groups - 1)) as [->|]; [done|]. destruct (rels gdtn ltac:(lia)) as (_ & _ & _ & R4). rewrite R4 in *.
  unfold mk_group_blocks. cbv zeta. change mk_blocks_per_group with 32768. rewrite (proj2 (Z.ltb_lt _ _)) by lia. lia.
Qed.
Lemma runs_mkfs now later label d : ok d -> Forall is_byte label -> 64 * 1024 <= bytes -> bytes / mk_block_size <= UINT32_MAX -> groups <> 0 -> groups <= EXT2_MAX_GROUPS ->
  mk_data_rel gdtn < mk_group_blocks total (groups - 1) -> runs (mkfs_ext2_core now later bytes label) d (fun _ => True).
Proof using HL.
  intros Hd Hlabel H1 H2 H3 H4 Hlast. destruct (mk_numbers bytes H1 H2 H3) as (T1 & T2 & T3 & T4 & T5 & T6). change EXT2_MAX_GROUPS with 1024 in H4.
  pose proof (fun h => room_all h (proj1 T4) ltac:(change EXT2_MAX_GROUPS with 1024; lia) (proj1 T6) Hlast T5) as Hroom. destruct (rels gdtn ltac:(lia)) as (R1 & R2 & R3 & R4).
  assert (forall h r, 0 <= h < groups -> 0 <= r <= 35 + gdtn -> ins (h * mk_blocks_per_group + r)) as Hi.
  { intros h r Hh Hr. pose proof (Hroom h Hh) as Hx. rewrite R4 in Hx. unfold mk_group_blocks in Hx. cbv zeta in Hx. change mk_blocks_per_group with 32768 in *. split; change mk_block_size with 4096; destruct (Z.ltb_spec 32768 (total - h * 32768)); lia. }
  unfold mkfs_ext2_core, runs. rewrite require_true by (apply negb_true_iff, Z.ltb_ge; lia). rewrite require_true by (apply negb_true_iff, Z.ltb_ge; lia). cbv zeta.
  rewrite require_true by (apply negb_true_iff, orb_false_iff; split; [by apply Z.eqb_neq|apply Z.ltb_ge; lia]). change (runs ?c d ?Q) with (runs c d Q).
  eapply runs_bind; [apply runs_groups; try done; [lia|intros h Hh; apply Hroom; lia]|]. rewrite Z2Nat.id by lia. intros [[gdt fb] fi] d1 Hd1 Eg. cbn [fst app] in Eg. subst gdt.
  destruct (descs_facts total gdtn groups ltac:(lia)) as (L1 & F1 & G1). destruct (superblock_facts now label total groups (u32 fb) (u32 fi) Hlabel ltac:(lia) ltac:(lia)) as (Sl & Sb & _). set (sb := mk_superblock _ _ _ _ _ _) in *. set (gdt := descs _ _ _ _) in *.
  eapply runs_bind; [apply runs_write; [done|done|lia|rewrite Sl; by vm_compute|rewrite Sl; change SB_SIZE with 204; lia]|]. intros _ d2 Hd2 _.
  eapply runs_bind; [apply runs_copies; try done; try lia; intros h r Hh Hr; apply Hi; lia|]. intros _ d3 Hd3 _.
  assert (bg_inode_table gdt 0 = 3 + gdtn) as -> by (unfold bg_inode_table, gdt; rewrite G1 by lia; unfold mk_desc; cbv zeta; rewrite R3; etransitivity; [exact (le32_put32 (0 * mk_blocks_per_group + (3 + gdtn)) ltac:(change mk_blocks_per_group with 32768; lia))|lia]).
  change (mk_block_size / mk_inode_size) with 32. change (1 / 32) with 0. change (1 mod 32 * mk_inode_size) with 128. change mk_inode_tbl_blocks with 32. rewrite !u32_id by lia. replace (3 + gdtn + 32) with (35 + gdtn) by lia. rewrite Z.add_0_r.
  destruct (root_inode_facts later (35 + gdtn) ltac:(lia)) as (Rl & Rb & _). unfold INODE_SIZE in Rl.
  eapply runs_bind; [apply runs_put; [done|exact (Hi 0 (3 + gdtn) ltac:(lia) ltac:(lia))|rewrite zlen_splice; [done|lia|rewrite Rl; by vm_compute]|apply splice_bytes; [apply zrep0_bytes|done]]|]. intros _ d4 Hd4 _.
  apply runs_put; [done|exact (Hi 0 (35 + gdtn) ltac:(lia) ltac:(lia))|done|apply Forall_app_2; apply dirent_is_byte; by repeat constructor].
Qed.
End progress.

(** C3: [mkfs_ext2_core], on a device of at most the 1024 groups of 128 MiB the
    other operations accept, succeeds when the last group has room for its
    metadata and a block of data, and only then; what it leaves can be loaded
    and is a sound file system.  (It formats larger devices too, up to 65535
    groups, and [ext2_load_meta] refuses those.) *)
Theorem mkfs_ext2_sound {S : Type} {HS : ByteStore S} {HL : ByteStoreLaws S} bytes now later label (d : S) :
  let total := mk_total bytes in let groups := mk_group_count total in
  dev_ok bytes d -> Forall is_byte label -> 64 * 1024 <= bytes -> bytes / mk_block_size <= UINT32_MAX -> 0 < groups <= EXT2_MAX_GROUPS ->
  ((mkfs_ext2_core now later bytes label d).1 = Done tt <-> mk_data_rel (mk_gdt_blocks groups) < mk_group_blocks total (groups - 1)) /\
  forall d', mkfs_ext2_core now later bytes label d = (Done tt, d') ->
    geo_ok (mkfs_geo bytes) bytes /\ exists m, ext2_load_meta d' = (Done m, d') /\ fs_sound (mkfs_geo bytes) bytes d' m.
Proof.
  intros total groups Hd Hl H1 H2 Hg. change EXT2_MAX_GROUPS with 1024 in Hg.
  assert (forall d', mkfs_ext2_core now later bytes label d = (Done tt, d') -> exists fb fi, formatted bytes now later label d' fb fi) as Hf by (intros d' E; apply (formatted_inv bytes now later label Hl d d' Hd E); fold total groups; lia).
  split; [split|].
  - intros E. destruct (mkfs_ext2_core _ _ _ _ d) as [o d'] eqn:Er. cbn [fst] in E. subst o. destruct (Hf d' eq_refl) as (fb & fi & Hff). destruct (mk_numbers bytes H1 H2 ltac:(fold total groups; lia)) as (_ & _ & _ & _ & Hn & _).
    destruct (rels (mk_gdt_blocks groups) ltac:(fold total groups in Hn; lia)) as (_ & _ & _ & ->). apply (fm_room _ _ _ _ _ _ _ Hff). fold total groups. lia.
  - intros Hr. destruct (runs_mkfs bytes now later label d Hd Hl H1 H2 ltac:(fold total groups; lia) ltac:(fold total groups; change EXT2_MAX_GROUPS with 1024; lia) Hr) as ([] & d' & -> & _). done.
  - intros d' E. destruct (Hf d' E) as (fb & fi & Hff). pose proof (shape_geo_ok bytes now later label d' fb fi Hff ltac:(fold total groups; change EXT2_MAX_GROUPS with 1024; lia)) as HG.
    pose proof (shape_sound bytes now later label Hl d' fb fi Hff ltac:(fold total groups; change EXT2_MAX_GROUPS with 1024; lia)) as Hs. split; [done|].
    eexists. split; [|exact Hs]. apply (load_meta_ok _ bytes HG); apply (fo_wf _ _ _ _ Hs).
Qed.
(** A device of forty blocks. *)
Lemma mkfs_ext2_sound_witness : exists d' m,
  mkfs_ext2_core 0 0 163840 [] (Flat 163840 true (fun _ => 0)) = (Done tt, d') /\ fs_sound (mkfs_geo 163840) 163840 d' m.
Proof.
  destruct (mkfs_ext2_sound 163840 0 0 [] (Flat 163840 true (fun _ => 0))) as [[_ Hrun] Hs].
  - split; [exact I|reflexivity|reflexivity|]. intros i _. split; [discriminate|reflexivity].
  - constructor.
  - discriminate.
  - discriminate.
  - split; [reflexivity|discriminate].
  - specialize (Hrun eq_refl). destruct (mkfs_ext2_core 0 0 163840 [] (Flat 163840 true (fun _ => 0))) as [o d'] eqn:E. cbn [fst] in Hrun. subst o.
    destruct (Hs d' eq_refl) as (_ & m & _ & H). exact (ex_intro _ d' (ex_intro _ m (conj eq_refl H))).
Defined.
