(* ===== verification/Ext2Sample.v ===== *)
(** * Ext2Sample: a small EXT2 image

    A disk held in memory and a sound file system of nine blocks on it, on
    which the operations are run. *)
From S2P Require Import Prelude Text Store Ext2 Ext2Alloc Ext2Ops Ext2Dir Ext2Block Ext2Layout Ext2Meta Ext2Tx Ext2Place Ext2File Ext2Wf Ext2Look Ext2Append Ext2Path Ext2Create Ext2Mkfs Ext2MkfsOk.
#[local] Open Scope Z_scope.

(** ** A disk in memory *)

Record memdisk : Type := MemDisk { md_bytes : list Z }.
#[export] Instance memdisk_store : ByteStore memdisk := {|
  store_ok _ := True;
  store_size d := zlen (md_bytes d);
  store_writable _ := true;
  store_at d := bget (md_bytes d);
  store_read off n d := if off + n <=? zlen (md_bytes d) then (Done (sub (md_bytes d) off n), d) else (Fail (-1), d);
  store_write off b d := if off + zlen b <=? zlen (md_bytes d) then (Done tt, MemDisk (splice (md_bytes d) off b)) else (Fail (-1), d);
|}.
#[export] Instance memdisk_laws : ByteStoreLaws memdisk.
Proof.
  split; cbn [store_ok store_size store_writable store_at store_read store_write memdisk_store]; intros.
  - rewrite (proj2 (Z.leb_le _ _)) by lia. do 2 f_equal. symmetry. apply bytes_at_eq; [by apply zlen_sub; lia|]. intros i Hi. by rewrite bget_sub by lia.
  - by rewrite (proj2 (Z.leb_gt _ _)) by lia.
  - rewrite (proj2 (Z.leb_le _ _)) by lia. eexists. split; [done|]. cbn [md_bytes]. split; [done|]. split; [by apply zlen_splice|]. split; [done|]. intros i Hi. unfold patch. case_match eqn:E.
    + rewrite bget_splice_in by lia. done.
    + rewrite bget_splice_out by lia. done.
  - destruct H2 as [|Hlt]; [done|]. by rewrite (proj2 (Z.leb_gt _ _)) by lia.
Qed.
Lemma memdisk_block bs d k : 0 <= k -> 0 <= bs -> (k + 1) * bs <= zlen (md_bytes d) -> blk bs d k = sub (md_bytes d) (k * bs) bs.
Proof. intros. apply bytes_at_eq; [by apply zlen_sub; nia|]. intros i Hi. rewrite bget_sub by nia. done. Qed.

(** ** The image *)

Definition ex_sb : list Z :=
  put32 8 ++ put32 9 ++ put32 0 ++ put32 2 ++ put32 6 ++ put32 1 ++ put32 0 ++ put32 0 ++ put32 8192 ++ put32 8192 ++ put32 8 ++ zrep 12 0 ++
  put16 0xEF53 ++ put16 1 ++ zrep 16 0 ++ put32 1 ++ zrep 4 0 ++ put32 3 ++ put16 128 ++ zrep 114 0.
Definition ex_gd : list Z := put32 3 ++ put32 4 ++ put32 5 ++ put16 2 ++ put16 6 ++ put16 1 ++ zrep 14 0.
Definition ex_root : list Z := splice (splice (splice inode_zero 0 (put16 0x41ED)) 4 (put32 1024)) 40 (put32 6).
Definition pad (b : list Z) : list Z := b ++ zrep (1024 - zlen b) 0.
Definition ex_blocks : list (list Z) :=
  [pad []; pad ex_sb; pad ex_gd; pad [127; 0]; pad [3]; pad (zrep 128 0 ++ ex_root); dirent_bytes 2 12 2 [46] ++ dirent_bytes 2 1012 2 [46; 46]; pad []; pad []].
Definition ex_disk : memdisk := MemDisk (concat ex_blocks).
Definition ex_size : Z := 9216.
Definition ex_geo : geo := Geo 1024 9 8192 8 8 3 128 1 2 1 [3] [4] [5].
Definition ex_meta : ext2_meta := with_gd (fun _ => ex_gd) (meta_of ex_sb).

Lemma ex_roles r : valid ex_geo r -> r = RSuper \/ r = RGdt 0 \/ r = RBb 0 \/ r = RIb 0 \/ r = RIt 0 0.
Proof.
  unfold valid. change (g_gdtn ex_geo) with 1. change (g_groups ex_geo) with 1. change (itn ex_geo) with 1. destruct r as [|k|g|g|g t]; intros H; [by left|..].
  - right; left. f_equal. lia.
  - do 2 right; left. f_equal. lia.
  - do 3 right; left. f_equal. lia.
  - do 4 right. f_equal; lia.
Qed.
Lemma ex_geo_ok : geo_ok ex_geo ex_size.
Proof.
  split; try (vm_compute; intuition congruence).
  - intros r1 r2 [-> |[-> |[-> |[-> | ->]]]]%ex_roles [-> |[-> |[-> |[-> | ->]]]]%ex_roles; vm_compute; congruence.
  - intros r [-> |[-> |[-> |[-> | ->]]]]%ex_roles; vm_compute; intuition congruence.
Qed.
Lemma ex_block k : 0 <= k < 9 -> blk (g_bs ex_geo) ex_disk k = nth (Z.to_nat k) ex_blocks [].
Proof.
  intros Hk. change (g_bs ex_geo) with 1024. rewrite memdisk_block; [|lia|lia|change (zlen (md_bytes ex_disk)) with 9216; lia].
  assert (k = 0 \/ k = 1 \/ k = 2 \/ k = 3 \/ k = 4 \/ k = 5 \/ k = 6 \/ k = 7 \/ k = 8) as Hc by lia. destruct_or! Hc; subst k; vm_compute; reflexivity.
Qed.
Lemma ex_sound : fs_sound ex_geo ex_size ex_disk ex_meta.
Proof.
  assert (forall r, valid ex_geo r -> used ex_geo (bmap ex_geo ex_disk) (loc ex_geo r) = true) as Hu.
  { intros r Hr. unfold used, bmap. destruct (ex_roles r Hr) as [-> |[-> |[-> |[-> | ->]]]]; (rewrite ex_block by (vm_compute; intuition congruence)); vm_compute; reflexivity. }
  assert (forall a, ino_ok ex_geo a -> inode_at ex_geo ex_disk a = sub (nth 5 ex_blocks []) (ioff ex_geo a) INODE_SIZE) as Hi.
  { intros a [H1 H2]. change (g_inodes ex_geo) with 8 in H2. unfold inode_at. assert (iblk ex_geo a = 5) as ->; [|by rewrite ex_block by lia].
    assert (a = 1 \/ a = 2 \/ a = 3 \/ a = 4 \/ a = 5 \/ a = 6 \/ a = 7 \/ a = 8) as Hc by lia. destruct_or! Hc; by subst a. }
  assert (ino_ok ex_geo 2) as H2 by (vm_compute; intuition congruence).
  apply (fresh_sound ex_geo ex_size ex_geo_ok ex_disk ex_meta 6); rewrite ?(Hi 2 H2).
  - split; [done|done|reflexivity|]. intros i _. apply is_byte_bget. decide_now.
  - split; [reflexivity..|decide_now|reflexivity|decide_now].
  - split; [unfold disk_sb; rewrite ex_block by (vm_compute; intuition congruence); vm_compute; reflexivity|]. intros k Hk. change (g_gdtn ex_geo) with 1 in Hk. assert (k = 0) as -> by lia.
    rewrite ex_block by (vm_compute; intuition congruence). vm_compute. reflexivity.
  - exact Hu.
  - done.
  - unfold ino_used, imap. rewrite ex_block by (vm_compute; intuition congruence). vm_compute. reflexivity.
  - reflexivity.
  - intros a Ha Hne. rewrite Hi by done. destruct Ha as [H1 H8]. change (g_inodes ex_geo) with 8 in H8.
    assert (a = 1 \/ a = 3 \/ a = 4 \/ a = 5 \/ a = 6 \/ a = 7 \/ a = 8) as Hc by lia. destruct_or! Hc; by subst a.
  - reflexivity.
  - intros j Hj. assert (j = 1 \/ j = 2 \/ j = 3 \/ j = 4 \/ j = 5 \/ j = 6 \/ j = 7 \/ j = 8 \/ j = 9 \/ j = 10 \/ j = 11) as Hc by lia. destruct_or! Hc; by subst j.
  - change (0 < 6 < 9). lia.
  - unfold used, bmap. rewrite ex_block by (vm_compute; intuition congruence). vm_compute. reflexivity.
  - intros (r & Hr & E). destruct (ex_roles r Hr) as [-> |[-> |[-> |[-> | ->]]]]; vm_compute in E; congruence.
  - by rewrite ex_block by lia.
Qed.

(** ** A creation *)

Definition ex_path : list Z := str_bytes "//a.txt/".
Definition ex_data : list Z := str_bytes "hello".
Definition ex_after : memdisk := (ext2_create_and_write 7 ex_path ex_data ex_disk).2.
Lemma ex_created : ext2_create_and_write 7 ex_path ex_data ex_disk = (Done tt, ex_after).
Proof. apply injective_projections; [change ((ext2_create_and_write 7 ex_path ex_data ex_disk).1 = Done tt); lazy; reflexivity|reflexivity]. Qed.

Lemma ext2_create_correct_witness : exists m', fs_sound ex_geo ex_size ex_after m' /\ ext2_read_file_at ex_path ex_after = (Done ex_data, ex_after).
Proof.
  destruct (ext2_create_correct ex_geo ex_size ex_geo_ok 7 ex_path ex_data ex_disk ex_meta ex_after ex_sound (str_bytes_is_byte _) (str_bytes_is_byte _)) as (m' & H1 & H2 & _); [reflexivity|exact ex_created|].
  exact (ex_intro _ m' (conj H1 H2)).
Defined.
