(* ===== verification/Fsck.v ===== *)
(** * Fsck: the EXT2 checker ([src/cmd_fsck_ext2.c], [src/fsck_ext2_*.c])

    The read-only check of a volume: its geometry and bitmaps, the claims the
    inodes make on blocks, the directories and the link counts.  A function
    that counts errors returns their number; the [return 2] of the checks made
    first is [Fail 2].  Memory allocation does not fail. *)
From S2P Require Import Prelude Store Ext2.
#[local] Open Scope Z_scope.

(** [for each x of l: errors += f(x)] *)
Fixpoint sum_over {S A} (f : A -> comp S Z) (l : list A) : comp S Z :=
  match l with
  | [] => ret 0
  | x :: l => let* e := f x in let* e' := sum_over f l in ret (e + e')
  end.

(** ** Bits *)

Definition bit (p : list Z) (i : Z) : bool := Z.land (Z.shiftr (bget p (Z.shiftr i 3)) (Z.land i 7)) 1 =? 1.
Definition marked (p : list Z) (b : Z) : bool := negb (Z.land (bget p (Z.shiftr b 3)) (Z.shiftl 1 (Z.land b 7)) =? 0).
(** The bits [0], ..., [n - 1] of a group's bitmap, or-ed in from [base] on. *)
Definition copy_bits (map : list Z) (n base : Z) (all : list Z) : list Z :=
  foldl (fun all i => if bit map i then set_bit all (base + i) else all) all (seqZ 0 n).
(** The bits of [l] that are clear. *)
Definition clear_bits (map : list Z) (l : list Z) : Z := zlen (filter (fun i => bit map i = false) l).

Fixpoint powerof_loop (fuel : nat) (n base : Z) : Z :=
  match fuel with
  | O => n
  | Datatypes.S fuel => if n mod base =? 0 then powerof_loop fuel (n / base) base else n
  end.
(** A 32-bit number is divided 32 times at most. *)
Definition powerof (n base : Z) : bool := if n =? 0 then false else powerof_loop 32 n base =? 1.
Definition has_backup (g rocompat : Z) : bool :=
  (Z.land rocompat 1 =? 0) || (g =? 0) || (g =? 1) || powerof g 3 || powerof g 5 || powerof g 7.

(** ** The block context *)

(** The members of [fsck_block_context] that stay as they are during the traversal. *)
Record fsck_fixed : Type := FsckFixed {
  c_count : Z; c_block_size : Z; c_allocated : list Z; c_inode_count : Z; c_inode_allocated : list Z;
}.
(** Those it changes, with the device. *)
Record fsck_state (S : Type) : Type := FsckState {
  c_dev : S; c_owners : list Z; c_refs : list Z; c_links : list Z; c_checked : list Z;
}.
Arguments FsckState {S} _ _ _ _ _.
Arguments c_dev {S} _.
Arguments c_owners {S} _.
Arguments c_refs {S} _.
Arguments c_links {S} _.
Arguments c_checked {S} _.

(** [p[i] = v] *)
Definition aset (p : list Z) (i v : Z) : list Z := <[Z.to_nat i := v]> p.

Definition set_owner {S} (b v : Z) (s : fsck_state S) : fsck_state S :=
  FsckState (c_dev s) (aset (c_owners s) b v) (c_refs s) (c_links s) (c_checked s).
Definition add_ref {S} (t : Z) (s : fsck_state S) : fsck_state S :=
  FsckState (c_dev s) (c_owners s) (aset (c_refs s) t (u32 (bget (c_refs s) t + 1))) (c_links s) (c_checked s).
Definition set_seen {S} (ino links : Z) (s : fsck_state S) : fsck_state S :=
  FsckState (c_dev s) (c_owners s) (c_refs s) (aset (c_links s) ino links) (aset (c_checked s) ino 1).

(** The file types of [i_mode]. *)
Definition S_IFREG : Z := 0x8000.
Definition S_IFLNK : Z := 0xA000.
Definition S_IFCHR : Z := 0x2000.
Definition S_IFBLK : Z := 0x6000.
Definition S_IFIFO : Z := 0x1000.
Definition S_IFSOCK : Z := 0xC000.
Definition is_special (type : Z) : bool := (type =? S_IFCHR) || (type =? S_IFBLK) || (type =? S_IFIFO) || (type =? S_IFSOCK).
Definition i_dtime (i : list Z) : Z := le32 i 20.

Section check.
Context {S : Type} `{ByteStore S} (C : fsck_fixed).

Definition set_dev (d : S) (s : fsck_state S) : fsck_state S := FsckState d (c_owners s) (c_refs s) (c_links s) (c_checked s).
(** [vblk_read_bytes], [None] when it fails. *)
Definition readat (off n : Z) : comp (fsck_state S) (option (list Z)) := try (zoom c_dev set_dev (store_read off n)).

(** ** Claims *)

Definition claim (ino block : Z) : comp (fsck_state S) (bool * Z) := fun s =>
  if c_count C <=? block then (Done (false, 1), s) else
  let e := if marked (c_allocated C) block then 0 else 1 in
  if negb (bget (c_owners s) block =? 0) then (Done (false, e + 1), s)
  else (Done (true, e), set_owner block ino s).

(** The pointers in a block. *)
Definition pointers (buf : list Z) : list Z := (fun j => le32 buf (4 * j)) <$> seqZ 0 (c_block_size C / 4).
Fixpoint walk (depth : nat) (ino block : Z) : comp (fsck_state S) Z :=
  if block =? 0 then ret 0 else
  let* r := claim ino block in
  let '(claimed, e) := r in
  if negb claimed then ret e else
  match depth with
  | O => ret e
  | Datatypes.S depth =>
      let* buf := readat (block * c_block_size C) (c_block_size C) in
      match buf with
      | None => ret (e + 1)
      | Some buf => let* e' := sum_over (fun child => if child =? 0 then ret 0 else walk depth ino child) (pointers buf) in ret (e + e')
      end
  end.
Definition walk_depth (j : Z) : nat := if j <? 12 then 0 else Z.to_nat (j - 11).
Definition fsck_check_direct (ino : Z) (inode : list Z) (type : Z) : comp (fsck_state S) Z :=
  if (type =? S_IFLNK) && (i_size inode <=? 60) && (i_blocks inode =? 0) then ret 0 else
  if is_special type then ret 0 else
  sum_over (fun j => if i_block inode j =? 0 then ret 0 else walk (walk_depth j) ino (i_block inode j)) (seqZ 0 15).

(** ** Directories *)

Definition check_entry (target : Z) : comp (fsck_state S) Z :=
  if target =? 0 then ret 0 else
  if (c_inode_count C <? target) || negb (marked (c_inode_allocated C) (target - 1)) then ret 1
  else modify (add_ref target) ;;; ret 0.
Fixpoint check_entries (fuel : nat) (buf : list Z) (pos : Z) : comp (fsck_state S) Z :=
  match fuel with
  | O => nofuel
  | Datatypes.S fuel =>
      if c_block_size C <=? pos then ret 0 else
      if c_block_size C <? pos + 8 then ret 1 else
      let rec := de_rec_len buf pos in
      if (rec <? 8) || negb (Z.land rec 3 =? 0) || (c_block_size C - pos <? rec) || (rec - 8 <? de_name_len buf pos) then ret 1 else
      let* e := check_entry (de_inode buf pos) in
      let* e' := check_entries fuel buf (pos + rec) in
      ret (e + e')
  end.
Definition check_block (b : Z) : comp (fsck_state S) Z :=
  if (b =? 0) || (c_count C <=? b) || negb (marked (c_allocated C) b) then ret 0 else
  let* buf := readat (b * c_block_size C) (c_block_size C) in
  match buf with
  | None => ret 1
  | Some buf => check_entries (Datatypes.S (dir_fuel (c_block_size C))) buf 0
  end.
(** The blocks [0], ..., 11 that start before the size. *)
Definition dir_blocks (inode : list Z) : list Z := i_block inode <$> filter (fun j => j * c_block_size C < i_size inode) (seqZ 0 12).
Definition fsck_check_directory (inode : list Z) : comp (fsck_state S) Z := sum_over check_block (dir_blocks inode).

(** ** Inodes *)

Definition valid_type (type : Z) : bool := (type =? S_IFREG) || (type =? S_IFDIR) || (type =? S_IFLNK) || is_special type.
Definition check_inode (ino : Z) (inode : list Z) : comp (fsck_state S) Z :=
  let type := Z.land (i_mode inode) S_IFMT in
  let links := i_links_count inode in
  let e := (if valid_type type then 0 else 1) + (if i_dtime inode =? 0 then 0 else 1) + (if links =? 0 then 1 else 0) in
  modify (set_seen ino links) ;;;
  let* e1 := fsck_check_direct ino inode type in
  let* e2 := (if type =? S_IFDIR then fsck_check_directory inode else ret 0) in
  ret (e + e1 + e2).
(** The inodes [i], ... of a group; [None] when one cannot be read. *)
Fixpoint check_inode_list (l : list Z) (base isz table : Z) (bitmap : list Z) (first_nonreserved : Z) : comp (fsck_state S) (option Z) :=
  match l with
  | [] => ret (Some 0)
  | i :: l =>
      let rest := check_inode_list l base isz table bitmap first_nonreserved in
      if negb (marked bitmap i) then rest else
      let ino := base + i + 1 in
      let* inode := readat (table * c_block_size C + i * isz) isz in
      match inode with
      | None => ret None
      | Some inode =>
          if (ino <? first_nonreserved) && negb (ino =? 2) then rest else
          let* e := check_inode ino inode in
          let* r := rest in
          ret (match r with Some e' => Some (e + e') | None => None end)
      end
  end.
Definition fsck_ext2_check_inodes (group ipg count isz table : Z) (bitmap : list Z) (first_nonreserved : Z) : comp (fsck_state S) (option Z) :=
  check_inode_list (seqZ 0 count) (group * ipg) isz table bitmap first_nonreserved.
End check.

(** ** Geometry *)

(** The numbers [ext2_fsck_phase1] reads off the superblock. *)
Record fsck_geo : Type := FsckGeo {
  f_blocks : Z; f_inodes : Z; f_first : Z; f_logsz : Z; f_bpg : Z; f_ipg : Z; f_freeb : Z; f_freei : Z; f_rev : Z; f_isz : Z;
  f_first_ino : Z; f_rocompat : Z; f_reserved_gdt : Z;
}.
Definition fsck_geo_of (sb : list Z) : fsck_geo :=
  let rev := le32 sb 76 in
  FsckGeo (le32 sb 4) (le32 sb 0) (le32 sb 20) (le32 sb 24) (le32 sb 32) (le32 sb 40) (le32 sb 12) (le32 sb 16) rev
    (if rev =? 0 then 128 else le16 sb 88) (if rev =? 0 then 11 else le32 sb 84) (le32 sb 100) (if rev =? 0 then 0 else le16 sb 206).

Section geometry.
Context (F : fsck_geo).

Definition f_bs : Z := Z.shiftl 1024 (f_logsz F).
Definition f_groups : Z := u32 ((f_blocks F - f_first F + f_bpg F - 1) / f_bpg F).
Definition f_igroups : Z := u32 (u32 (f_inodes F + f_ipg F) - 1) / f_ipg F.
Definition f_gdblocks : Z := (f_groups * 32 + f_bs - 1) / f_bs.
Definition f_itblocks : Z := (f_ipg F * f_isz F + f_bs - 1) / f_bs.
Definition invalid_geometry : bool :=
  (2 <? f_logsz F) || (f_bpg F =? 0) || (f_ipg F =? 0) || (f_blocks F =? 0) || (f_inodes F =? 0) ||
  (f_isz F <? 128) || (4096 <? f_isz F) || negb (Z.land (f_isz F) (f_isz F - 1) =? 0).
Definition exceeds (bytes : Z) : bool :=
  (bytes <? f_blocks F * f_bs) || (f_blocks F <=? f_first F) || (f_bs * 8 <? f_bpg F) || (f_bs * 8 <? f_ipg F).
Definition bad_groups : bool := (f_groups =? 0) || (65535 <? f_groups) || (f_groups <? f_igroups).

(** The first block of group [g], its blocks, and its inodes. *)
Definition f_start (g : Z) : Z := f_first F + g * f_bpg F.
Definition f_nblk (g : Z) : Z := if f_bpg F <? f_blocks F - f_start g then f_bpg F else f_blocks F - f_start g.
Definition f_nino (g : Z) : Z :=
  let remain := if f_inodes F <=? g * f_ipg F then 0 else f_inodes F - g * f_ipg F in
  if f_ipg F <? remain then f_ipg F else remain.

(** ** Metadata blocks *)

Definition mark_meta (owners : list Z) (block : Z) : list Z :=
  if block <? f_blocks F then aset owners block UINT32_MAX else owners.
(** The blocks marked for group [g], in order. *)
Definition group_meta (gd : list Z) (g : Z) : list Z :=
  [bg_block_bitmap gd g; bg_inode_bitmap gd g] ++ seqZ (bg_inode_table gd g) f_itblocks ++
  (if has_backup g (f_rocompat F) then
     let fin := if f_start g + f_bpg F <? f_blocks F then f_start g + f_bpg F else f_blocks F in
     seqZ (f_start g) (Z.min (1 + f_gdblocks + f_reserved_gdt F) (fin - f_start g))
   else []).
Definition reserve_meta (gd : list Z) (owners : list Z) : list Z :=
  foldl (fun o g => foldl mark_meta o (group_meta gd g)) owners (seqZ 0 f_groups).
End geometry.

(** ** The check *)

Section phase1.
Context {S : Type} `{ByteStore S} (F : fsck_geo).
Local Abbreviation bs := (f_bs F).

Fixpoint load_inode_bitmaps (l : list Z) (gd all : list Z) : comp S (list Z) :=
  match l with
  | [] => ret all
  | g :: l =>
      if f_nino F g =? 0 then load_inode_bitmaps l gd all else
      let* ib := fail_as 2 (store_read (bg_inode_bitmap gd g * bs) bs) in
      load_inode_bitmaps l gd (copy_bits ib (f_nino F g) (g * f_ipg F) all)
  end.
Fixpoint load_block_bitmaps (l : list Z) (gd all : list Z) : comp S (list Z) :=
  match l with
  | [] => ret all
  | g :: l =>
      let bmap := bg_block_bitmap gd g in
      require (negb ((bmap <? f_start F g) || (f_start F g + f_nblk F g <=? bmap))) 2 ;;;
      let* bb := fail_as 2 (store_read (bmap * bs) bs) in
      load_block_bitmaps l gd (copy_bits bb (f_nblk F g) (f_start F g) all)
  end.

(** The checks on the bitmaps [bb] and [ib] of group [g]. *)
Definition check_bitmaps (gd : list Z) (g : Z) (bb ib : list Z) : Z :=
  let start := f_start F g in let nblk := f_nblk F g in let nino := f_nino F g in
  let meta_span k n := clear_bits bb (filter (fun b => 0 <= b < nblk) (seqZ (k - start) n)) in
  (if clear_bits bb (seqZ 0 nblk) =? bg_free_blocks_count gd g then 0 else 1) +
  (if clear_bits ib (seqZ 0 nino) =? bg_free_inodes_count gd g then 0 else 1) +
  meta_span (bg_block_bitmap gd g) 1 + meta_span (bg_inode_bitmap gd g) 1 + meta_span (bg_inode_table gd g) (f_itblocks F) +
  (if Z.land (f_rocompat F) 1 =? 0 then clear_bits bb (seqZ 0 (Z.min (1 + f_gdblocks F) nblk)) else 0) +
  (if g =? 0 then
     let reserved := if nino + 1 <? f_first_ino F then nino + 1 else f_first_ino F in clear_bits ib (seqZ 0 (reserved - 1))
   else 0).
Definition meta_outside (gd : list Z) (g : Z) : bool :=
  let start := f_start F g in let fin := f_start F g + f_nblk F g in
  (bg_block_bitmap gd g <? start) || (fin <=? bg_block_bitmap gd g) || (bg_inode_bitmap gd g <? start) || (fin <=? bg_inode_bitmap gd g) ||
  (bg_inode_table gd g <? start) || (fin <? bg_inode_table gd g + f_itblocks F).
(** The errors of group [g] and its free blocks and inodes. *)
Definition check_group (C : fsck_fixed) (gd : list Z) (g : Z) : comp (fsck_state S) (Z * Z * Z) :=
  if meta_outside gd g then ret (1, 0, 0) else
  let* bb := readat (bg_block_bitmap gd g * bs) bs in
  match bb with
  | None => ret (1, 0, 0)
  | Some bb =>
      let* ib := readat (bg_inode_bitmap gd g * bs) bs in
      match ib with
      | None => ret (1, 0, 0)
      | Some ib =>
          let* r := fsck_ext2_check_inodes C g (f_ipg F) (f_nino F g) (f_isz F) (bg_inode_table gd g) ib (f_first_ino F) in
          let e := match r with None => 1 | Some e => e end in
          ret (e + check_bitmaps gd g bb ib, clear_bits bb (seqZ 0 (f_nblk F g)), clear_bits ib (seqZ 0 (f_nino F g)))
      end
  end.
Fixpoint check_groups (C : fsck_fixed) (gd : list Z) (l : list Z) (errors totalb totali : Z) : comp (fsck_state S) (Z * Z * Z) :=
  match l with
  | [] => ret (errors, totalb, totali)
  | g :: l =>
      let* r := check_group C gd g in
      let '(e, fb, fi) := r in check_groups C gd l (errors + e) (totalb + fb) (totali + fi)
  end.

(** The inodes from [ino] on whose links differ from the references counted.
    The counter has 32 bits. *)
Fixpoint check_links (fuel : nat) (ino errors : Z) : comp (fsck_state S) Z :=
  match fuel with
  | O => nofuel
  | Datatypes.S fuel =>
      if f_inodes F <? ino then ret errors else
      let* s := get in
      let wrong := negb (bget (c_checked s) ino =? 0) && negb (bget (c_refs s) ino =? bget (c_links s) ino) in
      check_links fuel (u32 (ino + 1)) (if wrong then errors + 1 else errors)
  end.
(** The allocated blocks without an owner. *)
Definition unowned (C : fsck_fixed) (s : fsck_state S) : list Z :=
  filter (fun b => bit (c_allocated C) b = true /\ bget (c_owners s) b = 0) (seqZ (f_first F) (f_blocks F - f_first F)).

(** The traversal and what is compared after it. *)
Definition check_volume (C : fsck_fixed) (gd : list Z) : comp (fsck_state S) Z :=
  let* r := check_groups C gd (seqZ 0 (f_groups F)) 0 0 0 in
  let '(errors, totalb, totali) := r in
  let errors := errors + (if totalb =? f_freeb F then 0 else 1) + (if totali =? f_freei F then 0 else 1) in
  let* errors := check_links (Datatypes.S (Z.to_nat (f_inodes F))) 1 errors in
  let* s := get in
  ret (errors + match unowned C s with [] => 0 | _ => 1 end).

(** [calloc] of the arrays, and the traversal on them. *)
Definition with_refs (gd ialloc balloc : list Z) : comp S Z := fun d =>
  let C := FsckFixed (f_blocks F) bs balloc (f_inodes F) ialloc in
  let zeros := zrep (f_inodes F + 1) 0 in
  let '(r, s) := check_volume C gd (FsckState d (reserve_meta F gd (zrep (f_blocks F) 0)) zeros zeros zeros) in (r, c_dev s).
End phase1.

Section command.
Context {S : Type} `{ByteStore S}.

(** The number of errors found. *)
Definition fsck_errors : comp S Z :=
  let* sb := fail_as 2 (store_read 1024 1024) in
  require (le16 sb 56 =? 0xEF53) 2 ;;;
  let F := fsck_geo_of sb in
  require (negb (invalid_geometry F)) 2 ;;;
  let* bytes := gets store_size in
  require (negb (exceeds F bytes)) 2 ;;;
  require (negb (bad_groups F)) 2 ;;;
  let* gd := fail_as 2 (store_read ((f_first F + 1) * f_bs F) (f_groups F * 32)) in
  let* ialloc := load_inode_bitmaps F (seqZ 0 (f_groups F)) gd (zrep ((f_inodes F + 7) / 8) 0) in
  let* balloc := load_block_bitmaps F (seqZ 0 (f_groups F)) gd (zrep ((f_blocks F + 7) / 8) 0) in
  with_refs F gd ialloc balloc.
(** The exit status; [errors] is an [unsigned]. *)
Definition ext2_fsck_phase1 : comp S Z := let* errors := fsck_errors in ret (if u32 errors =? 0 then 0 else 1).
End command.
