(* ===== verification/FsckJudge.v ===== *)
(** * FsckJudge: what the traversal of the EXT2 checker finds out

    The counts of errors as verdicts: [judges mu R c Q E] says that the
    computation [c] always ends, leaves the device alone, counts no error
    exactly when the statement [Q] about the volume holds and the blocks that
    the effect [E] claims are free to be claimed, and then has done [E].
    Verdicts compose, so that of a tree of pointer blocks follows from that of
    one claim. *)
From S2P Require Import Prelude Store Ext2 Ext2Dir Ext2Block Fsck.
#[local] Open Scope Z_scope.

(** ** Bits and arrays *)

Lemma bit_spec p i : bit p i = Z.testbit (bget p (i / 8)) (i mod 8).
Proof.
  unfold bit. rewrite (Z.shiftr_div_pow2 i 3) by lia. change (2 ^ 3) with 8. change 7 with (Z.ones 3). rewrite (Z.land_ones i 3) by lia. change (2 ^ 3) with 8.
  set (b := bget p (i / 8)). assert (0 <= i mod 8) by (apply Z.mod_pos_bound; lia). change 1 with (Z.ones 1) at 1. rewrite Z.land_ones by lia. change (2 ^ 1) with 2.
  rewrite <- Z.bit0_mod, Z.shiftr_spec by lia. rewrite Z.add_0_l. by destruct (Z.testbit _ _).
Qed.
Lemma bit_test p i : bit p i = test_bit p i.
Proof. by rewrite bit_spec, test_bit_spec. Qed.
Lemma marked_test p i : marked p i = test_bit p i.
Proof.
  unfold marked, test_bit, bit_mask. do 3 f_equal. symmetry. apply u8_id. change 7 with (Z.ones 3). rewrite Z.land_ones by lia. change (2 ^ 3) with 8.
  assert (0 <= i mod 8 < 8) by (apply Z.mod_pos_bound; lia). rewrite Z.shiftl_1_l. split; [apply Z.pow_nonneg; lia|]. change 256 with (2 ^ 8). apply Z.pow_lt_mono_r; lia.
Qed.

Lemma zlen_aset p i v : zlen (aset p i v) = zlen p.
Proof. unfold zlen, aset. by rewrite length_insert. Qed.
Lemma bget_aset p i v j : 0 <= i < zlen p -> 0 <= j -> bget (aset p i v) j = if i =? j then v else bget p j.
Proof.
  intros Hi Hj. unfold bget, aset. rewrite !nth_lookup. destruct (Z.eqb_spec i j) as [->|Hne].
  - rewrite list_lookup_insert_eq by (unfold zlen in *; lia). done.
  - rewrite list_lookup_insert_ne by lia. done.
Qed.
Lemma bget_aset_ne p i v j : 0 <= i -> 0 <= j -> i <> j -> bget (aset p i v) j = bget p j.
Proof. intros Hi Hj Hne. unfold bget, aset. rewrite !nth_lookup. by rewrite list_lookup_insert_ne by lia. Qed.

(** ** Effects *)

(** Blocks claimed with their inodes, entries met, and inodes seen with their links. *)
Record effect : Type := Fx { fx_claims : list (Z * Z); fx_refs : list Z; fx_seen : list (Z * Z) }.
Definition fx0 : effect := Fx [] [] [].
Definition fx_app (A B : effect) : effect := Fx (fx_claims A ++ fx_claims B) (fx_refs A ++ fx_refs B) (fx_seen A ++ fx_seen B).
Definition fx_all {X} (f : X -> effect) (l : list X) : effect := Fx (l ≫= fx_claims ∘ f) (l ≫= fx_refs ∘ f) (l ≫= fx_seen ∘ f).

Definition put_all (p : list Z) (l : list (Z * Z)) : list Z := foldl (fun p iv => aset p iv.1 iv.2) p l.
Definition ref_all (p : list Z) (l : list Z) : list Z := foldl (fun p t => aset p t (u32 (bget p t + 1))) p l.
Definition apply_fx {S} (E : effect) (s : fsck_state S) : fsck_state S :=
  FsckState (c_dev s) (put_all (c_owners s) (fx_claims E)) (ref_all (c_refs s) (fx_refs E)) (put_all (c_links s) (fx_seen E))
    (put_all (c_checked s) ((fun p => (p.1, 1)) <$> fx_seen E)).

Lemma fx_app_0_r E : fx_app E fx0 = E.
Proof. destruct E. unfold fx_app. simpl. by rewrite !app_nil_r. Qed.
Lemma fx_app_0_l E : fx_app fx0 E = E.
Proof. by destruct E. Qed.
Lemma fx_all_cons {X} (f : X -> effect) x l : fx_all f (x :: l) = fx_app (f x) (fx_all f l).
Proof. done. Qed.
Lemma apply_fx0 {S} (s : fsck_state S) : apply_fx fx0 s = s.
Proof. by destruct s. Qed.
Lemma apply_fx_app {S} A B (s : fsck_state S) : apply_fx (fx_app A B) s = apply_fx B (apply_fx A s).
Proof. unfold apply_fx, put_all, ref_all. simpl. by rewrite fmap_app, !foldl_app. Qed.

Lemma put_all_cons p iv l : put_all p (iv :: l) = put_all (aset p iv.1 iv.2) l.
Proof. done. Qed.
Lemma ref_all_cons p t l : ref_all p (t :: l) = ref_all (aset p t (u32 (bget p t + 1))) l.
Proof. done. Qed.
Lemma zlen_put_all p l : zlen (put_all p l) = zlen p.
Proof. revert p. induction l as [|iv l IH]; intros p; [done|]. by rewrite put_all_cons, IH, zlen_aset. Qed.
Lemma zlen_ref_all p l : zlen (ref_all p l) = zlen p.
Proof. revert p. induction l as [|t l IH]; intros p; [done|]. by rewrite ref_all_cons, IH, zlen_aset. Qed.

(** What arrays hold after the writes. *)
Lemma put_all_out p l j : 0 <= j -> Forall (fun iv => 0 <= iv.1) l -> j ∉ l.*1 -> bget (put_all p l) j = bget p j.
Proof.
  intros Hj. revert p. induction l as [|[i v] l IH]; intros p Hl Hn; [done|]. apply Forall_cons in Hl as [Hi Hl]. rewrite fmap_cons, not_elem_of_cons in Hn. destruct Hn as [Hne Hn]. simpl in Hi, Hne.
  rewrite put_all_cons, IH by done. cbn [fst snd]. apply bget_aset_ne; lia.
Qed.
Lemma put_all_in p l i v : Forall (fun iv => 0 <= iv.1 < zlen p) l -> NoDup l.*1 -> (i, v) ∈ l -> bget (put_all p l) i = v.
Proof.
  revert p. induction l as [|[j w] l IH]; intros p Hl Hnd Hin; [by apply elem_of_nil in Hin|]. rewrite fmap_cons in Hnd. apply NoDup_cons in Hnd as [Hn Hnd]. apply Forall_cons in Hl as [Hj Hl].
  rewrite put_all_cons. cbn [fst snd] in *. apply elem_of_cons in Hin as [[= -> ->]|Hin].
  - rewrite (put_all_out (aset p j w) l j); [|lia|eapply Forall_impl; [exact Hl|]; simpl; lia|done]. rewrite bget_aset by lia. by rewrite Z.eqb_refl.
  - apply IH; [|done|done]. by rewrite zlen_aset.
Qed.
(** Every write to an index it has leaves a value the list names for it. *)
Lemma put_all_some p l i : Forall (fun iv => 0 <= iv.1 < zlen p) l -> i ∈ l.*1 -> exists v, (i, v) ∈ l /\ bget (put_all p l) i = v.
Proof.
  revert p. induction l as [|[j w] l IH] using rev_ind; intros p Hl Hin; [by apply elem_of_nil in Hin|]. apply Forall_app in Hl as [Hl Hj]. apply Forall_inv in Hj. cbn [fst] in Hj.
  unfold put_all. rewrite foldl_app. cbn [foldl fst snd]. fold (put_all p l). destruct (decide (i = j)) as [->|Hne].
  - exists w. split; [apply elem_of_app; right; by apply list_elem_of_singleton|]. rewrite bget_aset by (rewrite ?zlen_put_all; lia). by rewrite Z.eqb_refl.
  - rewrite fmap_app in Hin. apply elem_of_app in Hin as [Hin|Hin]; [|by apply list_elem_of_singleton in Hin]. destruct (IH p Hl Hin) as (v & Hv & E). exists v. split; [apply elem_of_app; by left|].
    rewrite bget_aset_ne; [done|lia| |done]. apply list_elem_of_fmap in Hin as ([i' v'] & -> & Hin). rewrite Forall_forall in Hl. specialize (Hl _ Hin). simpl in *. lia.
Qed.
Definition occurrences (t : Z) (l : list Z) : Z := zlen (filter (fun x => x = t) l).
Lemma ref_all_get p l t : 1 <= t < zlen p -> 0 <= bget p t < 2 ^ 32 -> Forall (fun x => 0 <= x) l -> bget (ref_all p l) t = u32 (bget p t + occurrences t l).
Proof.
  intros Ht. revert p Ht. induction l as [|x l IH]; intros p Ht Hp Hl; unfold occurrences in *.
  - unfold ref_all. cbn [foldl]. change (filter _ _) with (@nil Z). change (zlen []) with 0. by rewrite Z.add_0_r, u32_id.
  - apply Forall_cons in Hl as [Hx Hl]. rewrite filter_cons, ref_all_cons. rewrite IH; [|by rewrite zlen_aset| |done].
    + case_decide as E.
      * subst x. rewrite bget_aset by lia. rewrite Z.eqb_refl, zlen_cons. unfold u32. rewrite Zplus_mod_idemp_l. f_equal. lia.
      * by rewrite bget_aset_ne by lia.
    + destruct (Z.eq_dec x t) as [->|Hne]; [rewrite bget_aset by lia; rewrite Z.eqb_refl; apply u32_range|by rewrite bget_aset_ne by lia].
Qed.

(** ** Verdicts *)

Section judge.
Context {S : Type} {HS : ByteStore S} {HL : ByteStoreLaws S} (C : fsck_fixed) (d : S) (Hd : store_ok d).

Record st_ok (s : fsck_state S) : Prop := StOk {
  so_dev : c_dev s = d; so_owners : zlen (c_owners s) = c_count C; so_refs : zlen (c_refs s) = c_inode_count C + 1;
  so_links : zlen (c_links s) = c_inode_count C + 1; so_checked : zlen (c_checked s) = c_inode_count C + 1;
}.
Lemma st_ok_apply E s : st_ok s -> st_ok (apply_fx E s).
Proof using. intros []. split; simpl; by rewrite ?zlen_put_all, ?zlen_ref_all. Qed.

(** The blocks of [l] can be claimed one after the other: allocated, without owner, and none twice. *)
Record fresh (s : fsck_state S) (l : list (Z * Z)) : Prop := Fresh {
  fr_nodup : NoDup l.*1;
  fr_block : forall b i, (b, i) ∈ l -> i <> 0 /\ 0 <= b < c_count C /\ marked (c_allocated C) b = true /\ bget (c_owners s) b = 0;
}.
Lemma fresh_nil s : fresh s [].
Proof using. split; [constructor|]. intros b i H. by apply elem_of_nil in H. Qed.
Lemma elem_fst (l : list (Z * Z)) b : b ∈ l.*1 <-> exists i, (b, i) ∈ l.
Proof using.
  split; [intros ([b' i] & -> & H)%list_elem_of_fmap; by exists i|]. intros [i H]. apply list_elem_of_fmap. by exists (b, i).
Qed.
Lemma fresh_app s E l : st_ok s -> fresh s (fx_claims E ++ l) <-> fresh s (fx_claims E) /\ fresh (apply_fx E s) l.
Proof using.
  intros Hs. set (c := fx_claims E). pose proof (so_owners _ Hs) as Hlen. assert (c_owners (apply_fx E s) = put_all (c_owners s) c) as Eo by done. split.
  - intros [Hnd Hb]. rewrite fmap_app in Hnd. apply NoDup_app in Hnd as (Hn1 & Hdis & Hn2).
    split; (split; [done|]); intros b i Hin; destruct (Hb b i ltac:(apply elem_of_app; tauto)) as (H1 & H2 & H3 & H4); [done|].
    split_and!; try (done || lia). rewrite Eo, put_all_out; [done|lia| |].
    + apply Forall_forall. intros [b' i'] Hin'. destruct (Hb b' i' ltac:(apply elem_of_app; tauto)) as (_ & Hr & _). simpl. lia.
    + intros Hc. apply (Hdis _ Hc). apply elem_fst. by exists i.
  - intros [[Hn1 Hb1] [Hn2 Hb2]]. assert (Forall (fun iv : Z * Z => 0 <= iv.1 < zlen (c_owners s)) c) as Hf.
    { apply Forall_forall. intros [b i] Hin. destruct (Hb1 b i Hin) as (_ & Hr & _). simpl. lia. }
    assert (forall b, b ∈ c.*1 -> b ∉ l.*1) as Hdis.
    { intros b Hbc [i Hbl]%elem_fst. destruct (Hb2 b i Hbl) as (_ & _ & _ & E0). destruct (put_all_some _ c b Hf Hbc) as (v & Hv & Ev). destruct (Hb1 b v Hv) as (Hnz & _). rewrite Eo in E0. congruence. }
    split; [rewrite fmap_app; by apply NoDup_app|]. intros b i Hin. apply elem_of_app in Hin as [Hin|Hin]; [by apply Hb1|].
    destruct (Hb2 b i Hin) as (H1 & H2 & H3 & H4). split_and!; try (done || lia). rewrite Eo, put_all_out in H4; [done|lia| |].
    + eapply Forall_impl; [exact Hf|]. simpl. lia.
    + intros Hc. apply (Hdis _ Hc). apply elem_fst. by exists i.
Qed.

Definition judges {A} (mu : A -> Z) (R : A -> Prop) (c : comp (fsck_state S) A) (Q : Prop) (E : effect) : Prop :=
  forall s, st_ok s -> exists a s', c s = (Done a, s') /\ 0 <= mu a /\ st_ok s' /\
    R a /\ (mu a = 0 <-> Q /\ fresh s (fx_claims E)) /\ (mu a = 0 -> s' = apply_fx E s).
(** The same for a number of errors. *)
Definition counts (c : comp (fsck_state S) Z) (Q : Prop) (E : effect) : Prop := judges (fun e => e) (fun _ => True) c Q E.

Lemma judges_iff {A} mu R (c : comp (fsck_state S) A) Q Q' E E' : judges mu R c Q E -> (Q <-> Q') -> E = E' -> judges mu R c Q' E'.
Proof using. intros H HQ <- s Hs. destruct (H s Hs) as (a & s' & E1 & E2 & E3 & E4 & E5 & E6). exists a, s'. split_and!; try done; rewrite <- HQ; apply E5. Qed.
Lemma judges_ret {A} mu (R : A -> Prop) a : 0 <= mu a -> R a -> judges mu R (ret a) (mu a = 0) fx0.
Proof using.
  intros Ha HR s Hs. exists a, s. split_and!; try done; [|by rewrite apply_fx0]. split; [intros; split; [done|apply fresh_nil]|tauto].
Qed.
Lemma judges_stuck {A} mu (R : A -> Prop) a (Q : Prop) E : 0 < mu a -> R a -> ~ Q -> judges mu R (ret a) Q E.
Proof using. intros Ha HR HQ s Hs. exists a, s. split_and!; try done; try lia. split; [lia|tauto]. Qed.
Lemma judges_bind {A B} mu R (c : comp (fsck_state S) A) Q E mu' R' (k : A -> comp (fsck_state S) B) Q' E' :
  judges mu R c Q E -> (forall a, 0 <= mu a -> R a -> judges mu' R' (k a) (mu a = 0 /\ Q') E') ->
  judges mu' R' (bind c k) (Q /\ Q') (fx_app E E').
Proof using.
  intros Hc Hk s Hs. destruct (Hc s Hs) as (a & s1 & E1 & Ha & Hs1 & HR & Hi & Hz). destruct (Hk a Ha HR s1 Hs1) as (b & s2 & E2 & Hb & Hs2 & HR2 & Hi2 & Hz2).
  exists b, s2. split; [by rewrite (bind_done _ _ _ _ _ E1)|]. split; [done|]. split; [done|]. split; [done|]. split.
  - rewrite Hi2. cbn [fx_app fx_claims]. rewrite fresh_app by done. split.
    + intros [[Ha0 HQ'] Hf]. rewrite (Hz Ha0) in Hf. apply Hi in Ha0. tauto.
    + intros [[HQ HQ'] [Hf1 Hf2]]. assert (mu a = 0) as Ha0 by by apply Hi. rewrite (Hz Ha0). tauto.
  - intros Hb0. rewrite (Hz2 Hb0). apply Hi2 in Hb0 as [[Ha0 _] _]. rewrite (Hz Ha0). by rewrite apply_fx_app.
Qed.
Lemma judges_modify {A} mu R f (c : comp (fsck_state S) A) Q E E' :
  (forall s, f s = apply_fx E s) -> fx_claims E = [] -> judges mu R c Q E' -> judges mu R (modify f ;;; c) Q (fx_app E E').
Proof using.
  intros Hf Hn Hc s Hs. destruct (Hc (f s)) as (a & s' & E1 & Ha & Hs' & HR & Hi & Hz); [rewrite Hf; by apply st_ok_apply|]. exists a, s'. split_and!; try done.
  - cbn [fx_app fx_claims]. rewrite Hn. cbn [app]. rewrite Hf in Hi.
    rewrite Hi. assert (fresh (apply_fx E s) (fx_claims E') <-> fresh s (fx_claims E')) as ->; [|done].
    pose proof (fresh_app s E (fx_claims E') Hs) as H. rewrite Hn in H. cbn [app] in H. pose proof (fresh_nil s). tauto.
  - intros Hz0. rewrite (Hz Hz0), apply_fx_app. by rewrite Hf.
Qed.

(** Errors counted one after the other. *)
Lemma counts_ret e (Q : Prop) : 0 <= e -> (e = 0 <-> Q) -> counts (ret e) Q fx0.
Proof using. intros He HQ. eapply judges_iff; [by apply judges_ret|done|done]. Qed.
Lemma counts_error : counts (ret 1) False fx0.
Proof using. apply counts_ret; lia. Qed.
Lemma counts_none : counts (ret 0) True fx0.
Proof using. apply counts_ret; [lia|tauto]. Qed.
Lemma counts_add c Q E c' Q' E' e0 (Q0 : Prop) : 0 <= e0 -> (e0 = 0 <-> Q0) -> counts c Q E -> counts c' Q' E' ->
  counts (let* e := c in let* e' := c' in ret (e0 + e + e')) (Q0 /\ Q /\ Q') (fx_app E E').
Proof using.
  intros H0 HQ0 Hc Hc'. apply (judges_iff _ _ _ (Q /\ (Q' /\ Q0)) _ (fx_app E (fx_app E' fx0))); [|tauto|by rewrite fx_app_0_r].
  eapply judges_bind; [exact Hc|]. intros a Ha _. cbn beta. apply (judges_iff _ _ _ (Q' /\ (a = 0 /\ Q0)) _ (fx_app E' fx0)); [|tauto|done].
  eapply judges_bind; [exact Hc'|]. intros b Hb _. apply counts_ret; [lia|]. rewrite <- HQ0. lia.
Qed.
Lemma counts_sum {X} (f : X -> comp (fsck_state S) Z) Q E l :
  (forall x, x ∈ l -> counts (f x) (Q x) (E x)) -> counts (sum_over f l) (forall x, x ∈ l -> Q x) (fx_all E l).
Proof using.
  induction l as [|x l IH]; intros H; cbn [sum_over].
  - eapply judges_iff; [apply counts_none| |done]. split; [|done]. intros _ x Hx. by apply elem_of_nil in Hx.
  - rewrite fx_all_cons. eapply judges_iff; [|..|done].
    + apply (counts_add (f x) (Q x) (E x) (sum_over f l) (forall y, y ∈ l -> Q y) (fx_all E l) 0 True); [lia|tauto|apply H; apply elem_of_cons; by left|].
      apply IH. intros y Hy. apply H. apply elem_of_cons. by right.
    + setoid_rewrite elem_of_cons. split; [intros (_ & Hx & Hl) y [->|Hy]; auto|]. intros Hq. split_and!; auto.
Qed.

(** ** Reading *)

Context (bs : Z) (Ebs : c_block_size C = bs) (Hbs : 0 < bs <= 4096) (Hbytes : forall i, 0 <= i < store_size d -> is_byte (store_at d i)).
Context (Hfit : c_count C * bs <= store_size d).
Local Abbreviation block := (blk bs).

Lemma readat_in off n s : st_ok s -> 0 <= off -> 0 <= n <= UINT32_MAX -> off + n <= store_size d -> readat off n s = (Done (Some (bytes_at (store_at d) off n)), s).
Proof using HL Hd.
  intros Hs H1 H2 H3. unfold readat, try, zoom. rewrite (so_dev _ Hs), store_read_in by (first [done|lia]). cbn. do 2 f_equal. destruct s. unfold set_dev. simpl. pose proof (so_dev _ Hs) as E. simpl in E. by rewrite E.
Qed.
Lemma judges_read {A} mu R off n (k : option (list Z) -> comp (fsck_state S) A) Q E : 0 <= off -> 0 <= n <= UINT32_MAX -> off + n <= store_size d ->
  judges mu R (k (Some (bytes_at (store_at d) off n))) Q E -> judges mu R (bind (readat off n) k) Q E.
Proof using HL Hd.
  intros H1 H2 H3 Hk s Hs. destruct (Hk s Hs) as (a & s' & E1 & E2). exists a, s'. split; [|done]. by rewrite (bind_done _ _ _ _ _ (readat_in off n s Hs H1 H2 H3)).
Qed.
Lemma judges_read_block {A} mu R b (k : option (list Z) -> comp (fsck_state S) A) Q E : 0 <= b < c_count C ->
  judges mu R (k (Some (block d b))) Q E -> judges mu R (bind (readat (b * bs) bs) k) Q E.
Proof using HL Hd Hbs Hfit. intros Hb. apply judges_read; [nia|ulia|nia]. Qed.

(** ** Pointer blocks *)

Definition ptrs_of (b : Z) : list Z := (fun j => le32 (block d b) (4 * j)) <$> seqZ 0 (bs / 4).
(** The blocks of the tree below [b], in the order of the traversal. *)
Fixpoint tree (depth : nat) (b : Z) : list Z :=
  if b =? 0 then [] else b :: match depth with O => [] | Datatypes.S depth => ptrs_of b ≫= tree depth end.
Definition claims (ino : Z) (l : list Z) : effect := Fx ((fun b => (b, ino)) <$> l) [] [].

Lemma claims_all {X} ino (f : X -> list Z) l : claims ino (l ≫= f) = fx_all (claims ino ∘ f) l.
Proof using.
  unfold claims, fx_all. f_equal.
  - induction l as [|x l IH]; [done|]. by rewrite !bind_cons, fmap_app, IH.
  - by induction l.
  - by induction l.
Qed.
Lemma claims_app ino l l' : claims ino (l ++ l') = fx_app (claims ino l) (claims ino l').
Proof using. unfold claims, fx_app. by rewrite fmap_app. Qed.
Lemma tree_0 depth : tree depth 0 = [].
Proof using. by destruct depth. Qed.
Lemma byte_block b : 0 <= b < c_count C -> Forall is_byte (block d b).
Proof using Hbs Hbytes Hfit. intros Hb. apply Forall_bytes_at. intros i Hi. apply Hbytes. nia. Qed.
Lemma ptrs_range b c : 0 <= b < c_count C -> c ∈ ptrs_of b -> 0 <= c.
Proof using Hbs Hbytes Hfit. intros Hb (j & -> & _)%list_elem_of_fmap. pose proof (le32_range _ (byte_block b Hb) (4 * j)). lia. Qed.

Lemma claim_judges ino b : ino <> 0 -> 0 <= b ->
  judges snd (fun r => (r.1 = true -> b < c_count C) /\ (r.2 = 0 -> r.1 = true)) (claim C ino b) True (claims ino [b]).
Proof using.
  intros Hi Hb s Hs. unfold claim. assert (fresh s [(b, ino)] <-> b < c_count C /\ marked (c_allocated C) b = true /\ bget (c_owners s) b = 0) as Hf.
  { split; [intros [_ H]; destruct (H b ino ltac:(by apply list_elem_of_singleton)) as (_ & ? & ? & ?); split_and!; (done || lia)|].
    intros (H1 & H2 & H3). split; [apply NoDup_singleton|]. intros b' i' [= -> ->]%list_elem_of_singleton. split_and!; (done || lia). }
  change (fx_claims (claims ino [b])) with [(b, ino)]. setoid_rewrite Hf. assert (st_ok (set_owner b ino s)) as Ho by (change (set_owner b ino s) with (apply_fx (claims ino [b]) s); by apply st_ok_apply).
  destruct (Z.leb_spec (c_count C) b); [|destruct (marked (c_allocated C) b) eqn:Em, (Z.eqb_spec (bget (c_owners s) b) 0) as [E0|N0]]; cbn [negb];
    eexists _, _; (split; [reflexivity|]); cbn [fst snd]; split_and!; try (done || lia).
  all: split; [lia|]; intros (_ & _ & [=] & _).
Qed.

(** The traversal counts no error exactly when the blocks of the tree can all be claimed. *)
Lemma walk_judges depth ino b : ino <> 0 -> 0 <= b -> counts (walk C depth ino b) True (claims ino (tree depth b)).
Proof using HL Hd Hbs Ebs Hbytes Hfit.
  intros Hi. revert b. induction depth as [|depth IH]; intros b Hb; cbn [walk tree]; (destruct (b =? 0); [apply counts_none|]).
  - eapply judges_iff; [eapply judges_bind; [by apply claim_judges|]| |apply fx_app_0_r]; [|instantiate (1 := True); tauto].
    intros [ok e] He [_ Hok]. cbn [fst snd] in *. destruct ok; cbn [negb]; apply (counts_ret e (e = 0 /\ True)); tauto.
  - change (b :: ptrs_of b ≫= tree depth) with ([b] ++ (ptrs_of b ≫= tree depth)). rewrite claims_app.
    eapply judges_iff; [eapply judges_bind; [by apply claim_judges|]| |reflexivity]; [|instantiate (1 := True); tauto].
    intros [ok e] He [Hb1 Hok]. cbn [fst snd] in *. destruct ok; cbn [negb].
    2: { apply judges_stuck; [|done|]; destruct (decide (e = 0)) as [->|]; try (lia || tauto); by discriminate Hok. }
    rewrite Ebs. apply judges_read_block; [by split; [|apply Hb1]|]. cbn beta iota. unfold pointers. rewrite Ebs. change (_ <$> seqZ 0 (bs / 4)) with (ptrs_of b).
    rewrite claims_all. eapply judges_iff; [eapply judges_bind; [apply (counts_sum _ (fun _ => True) (claims ino ∘ tree depth))| ]| |apply fx_app_0_r].
    + intros c Hc. destruct (Z.eqb_spec c 0) as [->|]; [cbn [compose]; rewrite tree_0; apply counts_none|]. apply IH. eapply ptrs_range; [|exact Hc]. split; [done|by apply Hb1].
    + intros e' He' _. apply (counts_ret (e + e') (e' = 0 /\ e = 0)); lia.
    + split; [intros [_ H]|intros [H _]]; by split.
Qed.
End judge.
