(* ===== verification/FsckInode.v ===== *)
(** * FsckInode: what the checker finds out about an inode and its directory

    The verdicts on directory blocks, directories, inodes and the inodes of a
    group, in terms of what the volume holds. *)
From S2P Require Import Prelude Store Ext2 Ext2Dir Ext2Block Fsck FsckJudge.
#[local] Open Scope Z_scope.

Section inode.
Context {S : Type} {HS : ByteStore S} {HL : ByteStoreLaws S} (C : fsck_fixed) (d : S) (Hd : store_ok d).
Context (bs : Z) (Ebs : c_block_size C = bs) (Hbs : 0 < bs <= 4096) (Hbytes : forall i, 0 <= i < store_size d -> is_byte (store_at d i)).
Context (Hfit : c_count C * bs <= store_size d).
Local Abbreviation block := (blk bs d).
Local Abbreviation counts := (counts C d).
Local Abbreviation judges := (judges C d).

(** ** The blocks of an inode *)

Definition inode_type (i : list Z) : Z := Z.land (i_mode i) S_IFMT.
(** Short symlinks keep their text, and special files their device number, in the inode. *)
Definition has_blocks (i : list Z) : bool :=
  negb ((inode_type i =? S_IFLNK) && (i_size i <=? 60) && (i_blocks i =? 0)) && negb (is_special (inode_type i)).
Definition inode_tree (i : list Z) : list Z :=
  if has_blocks i then seqZ 0 15 ≫= fun j => tree d bs (walk_depth j) (i_block i j) else [].

Lemma check_direct_judges ino i : ino <> 0 -> Forall is_byte i -> counts (fsck_check_direct C ino i (inode_type i)) True (claims ino (inode_tree i)).
Proof using HL Hd Hbs Ebs Hbytes Hfit.
  intros Hi Hb. unfold fsck_check_direct, inode_tree, has_blocks. destruct (_ && _ && _); cbn [negb andb]; [apply counts_none|]. destruct (is_special _); cbn [negb]; [apply counts_none|].
  rewrite claims_all. eapply judges_iff; [eapply (counts_sum _ _ _ (fun _ => True))| |reflexivity]; [|split; done].
  intros j _. cbn [compose]. destruct (Z.eqb_spec (i_block i j) 0) as [->|]; [rewrite tree_0; apply counts_none|].
  eapply walk_judges; try done. pose proof (le32_range i Hb (40 + 4 * j)). unfold i_block. lia.
Qed.

(** ** Directory blocks *)

(** The positions of the records, as their lengths give them. *)
Fixpoint records (fuel : nat) (b : list Z) (pos : Z) : list Z :=
  match fuel with
  | O => []
  | Datatypes.S fuel => if bs <=? pos then [] else pos :: records fuel b (pos + de_rec_len b pos)
  end.
Definition recs (b : list Z) : list Z := records (Datatypes.S (dir_fuel bs)) b 0.
Definition known_inode (t : Z) : Prop := t <= c_inode_count C /\ marked (c_inode_allocated C) (t - 1) = true.
(** The inode numbers in the records at [ps]. *)
Definition targets (b : list Z) (ps : list Z) : list Z := filter (fun t => t <> 0) (de_inode b <$> ps).
Record record_ok (b : list Z) (p : Z) : Prop := RecordOk { ro_align : de_rec_len b p mod 4 = 0; ro_target : de_inode b p <> 0 -> known_inode (de_inode b p) }.
(** The records from [pos] on are aligned, fill the block and name allocated inodes. *)
Definition records_ok (b : list Z) (pos : Z) (ps : list Z) : Prop := chain b bs pos ps /\ forall p, p ∈ ps -> record_ok b p.

Lemma land3_mod r : Z.land r 3 = r mod 4.
Proof using. change 3 with (Z.ones 2). by rewrite Z.land_ones by lia. Qed.
Lemma targets_cons b p ps : targets b (p :: ps) = (if de_inode b p =? 0 then [] else [de_inode b p]) ++ targets b ps.
Proof using. unfold targets. rewrite fmap_cons, filter_cons. case_decide as E; destruct (Z.eqb_spec (de_inode b p) 0); done. Qed.
Lemma check_entry_judges t : 0 <= t -> counts (check_entry C t) (t <> 0 -> known_inode t) (Fx [] (if t =? 0 then [] else [t]) []).
Proof using.
  intros Ht. unfold check_entry, known_inode. destruct (Z.eqb_spec t 0) as [->|Hnz]; [by apply (counts_ret _ _ 0)|].
  destruct (Z.ltb_spec (c_inode_count C) t); cbn [orb]; [apply judges_stuck; [done|done|lia]|].
  destruct (marked _ _) eqn:E; cbn [negb]; [|apply judges_stuck; [done|done|]; intros H'; by destruct (H' Hnz)].
  rewrite <- (fx_app_0_r (Fx _ _ _)). apply judges_modify; [done|done|]. apply (counts_ret _ _ 0); [done|]. split; done.
Qed.
Lemma check_entries_judges fuel b pos : Forall is_byte b -> 0 <= pos <= bs -> bs - pos < 8 * Z.of_nat fuel ->
  counts (check_entries C fuel b pos) (records_ok b pos (records fuel b pos)) (Fx [] (targets b (records fuel b pos)) []).
Proof using Ebs.
  intros Hb. revert pos. induction fuel as [|fuel IH]; intros pos Hpos Hf; [lia|]. cbn [check_entries records]. rewrite Ebs. destruct (Z.leb_spec bs pos).
  { assert (pos = bs) as -> by lia. apply counts_ret; [done|]. split; [|done]. intros _. split; [constructor|]. intros p Hp. by apply elem_of_nil in Hp. }
  assert (0 <= de_name_len b pos /\ 0 <= de_inode b pos) as [Hnl Hin].
  { unfold de_name_len, de_inode. pose proof (is_byte_bget b (pos + 6) Hb). pose proof (le32_range b Hb pos). unfold is_byte in *. lia. }
  assert (forall q, records_ok b pos q -> (8 <= de_rec_len b pos /\ de_rec_len b pos mod 4 = 0 /\ pos + de_rec_len b pos <= bs /\ 8 + de_name_len b pos <= de_rec_len b pos)) as Hchain.
  { intros q [Hc Hr]. inversion Hc; subst; [lia|]. destruct (Hr pos ltac:(apply elem_of_cons; by left)). lia. }
  destruct (Z.ltb_spec bs (pos + 8)); [apply judges_stuck; [done|done|]; intros Hc%Hchain; lia|]. cbv zeta. rewrite land3_mod.
  destruct ((de_rec_len b pos <? 8) || _ || _ || _) eqn:Eg; [apply judges_stuck; [done|done|]; intros Hc%Hchain; lia|].
  rewrite targets_cons. eapply judges_iff; [|..|reflexivity].
  - eapply (counts_add _ _ (check_entry C (de_inode b pos)) _ (Fx [] _ []) _ _ (Fx [] _ []) 0 True); [done|done|by apply check_entry_judges|apply IH; lia].
  - split.
    + intros (_ & H1 & Hc & Hr). split; [constructor; lia || done|]. intros p [->|Hp]%elem_of_cons; [|by apply Hr]. split; [lia|done].
    + intros [Hc Hr]. split_and!; [done|by apply (Hr pos); apply elem_of_cons; left|]. inversion Hc; subst. split; [done|]. intros p Hp. apply Hr. apply elem_of_cons. by right.
Qed.

(** A block that the checker reads as a directory block. *)
Definition scanned (b : Z) : bool := negb ((b =? 0) || (c_count C <=? b) || negb (marked (c_allocated C) b)).
Definition dir_targets (i : list Z) : list Z := filter (fun b => scanned b = true) (dir_blocks C i) ≫= fun b => targets (block b) (recs (block b)).
Definition dir_ok (i : list Z) : Prop := forall b, b ∈ dir_blocks C i -> scanned b = true -> records_ok (block b) 0 (recs (block b)).

Lemma check_block_judges b : 0 <= b ->
  counts (check_block C b) (scanned b = true -> records_ok (block b) 0 (recs (block b))) (Fx [] (if scanned b then targets (block b) (recs (block b)) else []) []).
Proof using HL Hd Hbs Ebs Hbytes Hfit.
  intros Hb. unfold check_block, scanned. destruct (Z.leb_spec (c_count C) b) as [|Hlt]; [rewrite orb_true_r; cbn [orb negb]; by apply (counts_ret _ _ 0)|].
  rewrite orb_false_r. destruct (_ || _); cbn [negb]; [by apply (counts_ret _ _ 0)|]. rewrite Ebs. eapply judges_read_block; try done.
  eapply judges_iff; [apply check_entries_judges|split; [by intros H _|by intros H; apply H]|reflexivity].
  - by eapply byte_block.
  - lia.
  - unfold dir_fuel. pose proof (Z.div_mod bs 8 ltac:(lia)). pose proof (Z.mod_pos_bound bs 8 ltac:(lia)). lia.
Qed.
Lemma check_directory_judges i : Forall is_byte i -> counts (fsck_check_directory C i) (dir_ok i) (Fx [] (dir_targets i) []).
Proof using HL Hd Hbs Ebs Hbytes Hfit.
  intros Hb. unfold fsck_check_directory. eapply judges_iff; [eapply (counts_sum _ _ _ _ (fun b => Fx [] (if scanned b then targets (block b) (recs (block b)) else []) []))| |].
  - intros b Hin. apply check_block_judges. unfold dir_blocks in Hin. apply list_elem_of_fmap in Hin as (j & -> & _). pose proof (le32_range i Hb (40 + 4 * j)). unfold i_block. lia.
  - done.
  - unfold fx_all, dir_targets. f_equal; [by induction (dir_blocks C i)| |by induction (dir_blocks C i)].
    induction (dir_blocks C i) as [|b l IH]; [done|]. rewrite bind_cons, IH, filter_cons. cbn [compose fx_refs]. destruct (scanned b) eqn:E; (case_decide; [|done || congruence]); [by rewrite bind_cons|done].
Qed.

(** ** Inodes *)

Record inode_sane (i : list Z) : Prop := InodeSane {
  is_type : valid_type (inode_type i) = true; is_dtime : i_dtime i = 0; is_links : i_links_count i <> 0;
  is_dir_ok : inode_type i = S_IFDIR -> dir_ok i;
}.
Definition inode_refs (i : list Z) : list Z := if inode_type i =? S_IFDIR then dir_targets i else [].
Definition inode_fx (ino : Z) (i : list Z) : effect := Fx ((fun b => (b, ino)) <$> inode_tree i) (inode_refs i) [(ino, i_links_count i)].

Lemma check_inode_judges ino i : ino <> 0 -> Forall is_byte i -> counts (check_inode C ino i) (inode_sane i) (inode_fx ino i).
Proof using HL Hd Hbs Ebs Hbytes Hfit.
  intros Hi Hb. unfold check_inode. fold (inode_type i). cbv zeta. set (e0 := _ + _ + _).
  assert (inode_fx ino i = fx_app (Fx [] [] [(ino, i_links_count i)]) (fx_app (claims ino (inode_tree i)) (Fx [] (inode_refs i) []))) as ->.
  { unfold inode_fx, fx_app, claims. simpl. by rewrite app_nil_r. }
  apply judges_modify; [done|done|]. eapply judges_iff; [|..|reflexivity].
  - eapply (counts_add _ _ _ True _ _ (inode_type i = S_IFDIR -> dir_ok i) _ e0 (valid_type (inode_type i) = true /\ i_dtime i = 0 /\ i_links_count i <> 0)).
    + unfold e0. repeat case_match; lia.
    + unfold e0. destruct (valid_type _), (Z.eqb_spec (i_dtime i) 0), (Z.eqb_spec (i_links_count i) 0); split; try lia; try (by intros (?&?&?)); done.
    + by apply check_direct_judges.
    + unfold inode_refs. destruct (Z.eqb_spec (inode_type i) S_IFDIR) as [E|E]; [eapply judges_iff; [by apply check_directory_judges|by split; auto|done]|by apply (counts_ret _ _ 0)].
  - split; [intros ((?&?&?)&_&?); by split|intros []; split_and!; done].
Qed.

(** The inodes of a group with their numbers, as the checker reads them. *)
Section group.
Context (base isz table : Z) (bitmap : list Z) (first : Z).
Definition inode_bytes (i : Z) : list Z := bytes_at (store_at d) (table * bs + i * isz) isz.
Definition examined (i : Z) : bool := marked bitmap i && negb ((base + i + 1 <? first) && negb (base + i + 1 =? 2)).
Definition group_fx (l : list Z) : effect := fx_all (fun i => inode_fx (base + i + 1) (inode_bytes i)) (filter (fun i => examined i = true) l).

Definition option_errors (r : option Z) : Z := match r with None => 1 | Some e => e end.
Lemma check_inode_list_judges l : 0 <= base -> 0 <= table -> 0 < isz <= UINT32_MAX -> (forall i, i ∈ l -> 0 <= i /\ table * bs + (i + 1) * isz <= store_size d) ->
  judges option_errors (fun r => True) (check_inode_list C l base isz table bitmap first)
    (forall i, i ∈ l -> examined i = true -> inode_sane (inode_bytes i)) (group_fx l).
Proof using HL Hd Hbs Ebs Hbytes Hfit.
  intros Hbase Htab Hisz. induction l as [|i l IH]; intros Hl; cbn [check_inode_list].
  { eapply judges_iff; [by apply (judges_ret _ _ option_errors)| |done]. split; [|done]. intros _ i Hi. by apply elem_of_nil in Hi. }
  assert (forall j, j ∈ l -> 0 <= j /\ table * bs + (j + 1) * isz <= store_size d) as Hl' by (intros j Hj; apply Hl; apply elem_of_cons; by right).
  specialize (IH Hl'). destruct (Hl i ltac:(apply elem_of_cons; by left)) as [Hi Hin]. set (rest := check_inode_list C l base isz table bitmap first) in *.
  assert (examined i = false -> judges option_errors (fun _ => True) rest (forall j, j ∈ i :: l -> examined j = true -> inode_sane (inode_bytes j)) (group_fx (i :: l))) as Hskip.
  { intros E. eapply judges_iff; [exact IH| |unfold group_fx; rewrite filter_cons; by case_decide; [congruence|]]. setoid_rewrite elem_of_cons.
    split; [intros H j [->|Hj] Ej; [congruence|by apply H]|intros H j Hj; apply H; by right]. }
  destruct (marked bitmap i) eqn:Em; cbn [negb]; [|apply Hskip; unfold examined; by rewrite Em]. rewrite Ebs.
  eapply judges_read; [done..|nia|lia|lia|]. cbn beta iota. fold (inode_bytes i).
  destruct ((base + i + 1 <? first) && negb (base + i + 1 =? 2)) eqn:Er; [apply Hskip; unfold examined; by rewrite Em, Er|].
  assert (examined i = true) as Ex by (unfold examined; by rewrite Em, Er).
  assert (group_fx (i :: l) = fx_app (inode_fx (base + i + 1) (inode_bytes i)) (group_fx l)) as -> by (unfold group_fx; rewrite filter_cons; by case_decide; [|congruence]).
  eapply judges_iff; [eapply judges_bind; [apply check_inode_judges; [lia|]|]| |reflexivity].
  - apply Forall_bytes_at. intros k Hk. apply Hbytes. nia.
  - intros e He _. cbn beta. rewrite <- (fx_app_0_r (group_fx l)). eapply judges_iff; [eapply (judges_bind _ _ option_errors); [exact IH|]| |reflexivity].
    + intros r Hr _. destruct r as [e'|]; cbn [option_errors] in *.
      * eapply judges_iff; [by apply (judges_ret _ _ option_errors); [cbn [option_errors]; lia|]| |done]. cbn [option_errors]. instantiate (1 := e = 0). lia.
      * apply judges_stuck; [done|done|lia].
    + instantiate (1 := forall j, j ∈ l -> examined j = true -> inode_sane (inode_bytes j)). tauto.
  - setoid_rewrite elem_of_cons. split; [intros [H1 H2] j [->|Hj]; auto|]. intros H. split; auto.
Qed.
End group.
End inode.
