(* ===== verification/FsckOk.v ===== *)
(** * FsckOk: the EXT2 checker accepts exactly the consistent volumes

    [consistent] says of a volume what the checker is to find out, without
    counters and in terms of the contents of the device: bitmaps, claims,
    directory entries and links.  The checker reads only, ends on every volume
    it can open, and counts no error exactly when the volume is consistent. *)
From S2P Require Import Prelude Store Ext2 Ext2Dir Ext2Block Fsck FsckJudge FsckInode.
#[local] Open Scope Z_scope.

(** ** Bitmaps put together *)

Lemma seqZ_snoc a n : 0 <= n -> seqZ a (Z.succ n) = seqZ a n ++ [a + n].
Proof. intros Hn. unfold Z.succ. by rewrite seqZ_app by lia. Qed.
Lemma copy_bits_spec map n base all : 0 <= n -> 0 <= base -> (0 < n -> base + n <= 8 * zlen all) ->
  zlen (copy_bits map n base all) = zlen all /\
  forall j, 0 <= j -> test_bit (copy_bits map n base all) j = test_bit all j || (bool_decide (base <= j < base + n) && bit map (j - base)).
Proof.
  intros Hn Hb. revert all. pattern n. apply natlike_ind; [| |done]; clear n Hn.
  - intros all _. split; [done|]. intros j Hj. rewrite bool_decide_eq_false_2 by lia. by rewrite orb_false_r.
  - intros n Hn IH all Hl. unfold copy_bits in *. rewrite seqZ_snoc by done. rewrite foldl_app. cbn [foldl]. specialize (Hl ltac:(lia)). destruct (IH all ltac:(lia)) as [L1 T1]. set (a := foldl _ all _) in *.
    rewrite Z.add_0_l. destruct (bit map n) eqn:Eb.
    + split; [rewrite zlen_set_bit by lia; done|]. intros j Hj. rewrite test_set_bit, T1 by lia. destruct (Z.eqb_spec (base + n) j) as [<-|Hne].
      * replace (base + n - base) with n by lia. rewrite Eb. rewrite (bool_decide_eq_true_2 (_ <= _ < base + Z.succ n)) by lia. by rewrite orb_true_r.
      * cbn [orb]. do 2 f_equal. apply bool_decide_ext. lia.
    + split; [done|]. intros j Hj. rewrite T1 by done. destruct (Z.eq_dec (base + n) j) as [<-|Hne].
      * replace (base + n - base) with n by lia. by rewrite Eb, !andb_false_r.
      * do 2 f_equal. apply bool_decide_ext. lia.
Qed.
(** The bits of several bitmaps. *)
Definition merge_bits (map : Z -> list Z) (n base : Z -> Z) (l : list Z) (all : list Z) : list Z :=
  foldl (fun all g => copy_bits (map g) (n g) (base g) all) all l.
Lemma merge_bits_spec map n base l all : (forall g, g ∈ l -> 0 <= n g /\ 0 <= base g /\ (0 < n g -> base g + n g <= 8 * zlen all)) ->
  forall j, 0 <= j -> test_bit (merge_bits map n base l all) j = true <->
    test_bit all j = true \/ exists g, g ∈ l /\ base g <= j < base g + n g /\ bit (map g) (j - base g) = true.
Proof.
  revert all. induction l as [|g l IH]; intros all H j Hj.
  - split; [by left|]. intros [?|(g & Hg & _)]; [done|by apply elem_of_nil in Hg].
  - destruct (H g ltac:(apply elem_of_cons; by left)) as (Hn & Hb & Hl). destruct (copy_bits_spec (map g) (n g) (base g) all Hn Hb Hl) as [L T].
    unfold merge_bits in *. cbn [foldl]. rewrite IH; [|intros g' Hg'; rewrite L; apply H; apply elem_of_cons; by right|done]. rewrite T by done.
    rewrite orb_true_iff, andb_true_iff, bool_decide_eq_true. setoid_rewrite elem_of_cons. split.
    + intros [[?|?]|(g' & ? & ?)]; [by left|right; exists g; tauto|right; exists g'; tauto].
    + intros [?|(g' & [->|Hg'] & ?)]; [tauto|left; right; tauto|right; by exists g'].
Qed.
Lemma test_bit_zrep n j : test_bit (zrep n 0) j = false.
Proof. by rewrite test_bit_spec, bget_zrep0, Z.bits_0. Qed.

Lemma clear_bits_nonneg map l : 0 <= clear_bits map l.
Proof. apply zlen_nonneg. Qed.
Lemma clear_bits_0 map l : clear_bits map l = 0 <-> forall i, i ∈ l -> bit map i = true.
Proof.
  unfold clear_bits. split.
  - intros H i Hi. destruct (bit map i) eqn:E; [done|]. assert (i ∈ filter (fun i => bit map i = false) l) as Hin by by apply list_elem_of_filter.
    destruct (filter _ l); [by apply elem_of_nil in Hin|]. rewrite zlen_cons in H. pose proof (zlen_nonneg l0). lia.
  - intros H. assert (filter (fun i => bit map i = false) l = []) as ->; [|done]. apply elem_of_nil_inv. intros i [E Hi]%list_elem_of_filter. rewrite H in E by done. done.
Qed.

(** Ownership of metadata. *)
Lemma mark_all_get F l o b : 0 <= b < zlen o -> zlen o = f_blocks F -> Forall (fun x => 0 <= x) l ->
  zlen (foldl (mark_meta F) o l) = zlen o /\ bget (foldl (mark_meta F) o l) b = if bool_decide (b ∈ l) then UINT32_MAX else bget o b.
Proof.
  intros Hb He Hl. revert o Hb He. induction l as [|x l IH]; intros o Hb He; cbn [foldl]; [by rewrite bool_decide_eq_false_2 by apply not_elem_of_nil|].
  apply Forall_cons in Hl as [Hx Hl]. assert (zlen (mark_meta F o x) = zlen o) as L by (unfold mark_meta; destruct (x <? f_blocks F); [apply zlen_aset|done]).
  destruct (IH Hl (mark_meta F o x) ltac:(lia) ltac:(lia)) as [E1 E2]. split; [lia|]. rewrite E2. destruct (decide (b ∈ l)) as [Hin|Hin].
  { rewrite !bool_decide_eq_true_2; [done|apply elem_of_cons; by right|done]. }
  rewrite (bool_decide_eq_false_2 _ Hin). unfold mark_meta. destruct (Z.eq_dec x b) as [->|Hne].
  - rewrite bool_decide_eq_true_2 by (apply elem_of_cons; by left). rewrite (proj2 (Z.ltb_lt b (f_blocks F))) by lia. rewrite bget_aset by lia. by rewrite Z.eqb_refl.
  - rewrite bool_decide_eq_false_2 by (rewrite elem_of_cons; intuition congruence). destruct (x <? f_blocks F); [|done]. by apply bget_aset_ne; [|lia|].
Qed.
Lemma reserve_meta_flat F gd o : reserve_meta F gd o = foldl (mark_meta F) o (seqZ 0 (f_groups F) ≫= group_meta F gd).
Proof.
  unfold reserve_meta. generalize (seqZ 0 (f_groups F)). intros l. revert o. induction l as [|g l IH]; intros o; [done|]. rewrite bind_cons, foldl_app. cbn [foldl]. by rewrite IH.
Qed.

Section volume.
Context {S : Type} {HS : ByteStore S} {HL : ByteStoreLaws S} (F : fsck_geo) (gd : list Z) (d : S).
Local Abbreviation bs := (f_bs F).
Local Abbreviation block := (blk bs d).
Local Abbreviation groups := (seqZ 0 (f_groups F)).
Definition bb (g : Z) : list Z := block (bg_block_bitmap gd g).
Definition ib (g : Z) : list Z := block (bg_inode_bitmap gd g).

(** ** Consistency *)

(** Block [b] and inode [ino] are marked in the bitmap of their group. *)
Definition block_used (b : Z) : Prop := exists g, 0 <= g < f_groups F /\ f_start F g <= b < f_start F g + f_nblk F g /\ bit (bb g) (b - f_start F g) = true.
Definition inode_used (ino : Z) : Prop :=
  exists g, 0 <= g < f_groups F /\ g * f_ipg F <= ino - 1 < g * f_ipg F + f_nino F g /\ bit (ib g) (ino - 1 - g * f_ipg F) = true.
(** The blocks of bitmaps, inode tables, superblocks and descriptors. *)
Definition metadata (b : Z) : Prop := exists g, 0 <= g < f_groups F /\ b ∈ group_meta F gd g.

(** The inodes in use that are not reserved, with their contents. *)
Definition inode_of (g i : Z) : list Z := inode_bytes d bs (f_isz F) (bg_inode_table gd g) i.
Definition in_use (g i : Z) : bool := examined (g * f_ipg F) (ib g) (f_first_ino F) i.
Definition visited : list (Z * list Z) :=
  groups ≫= fun g => (fun i => (g * f_ipg F + i + 1, inode_of g i)) <$> filter (fun i => in_use g i = true) (seqZ 0 (f_nino F g)).
(** The blocks they refer to, with repetitions, and the entries of the directories among them. *)
Definition claimed : list Z := visited ≫= fun v => inode_tree d bs v.2.

(** The bitmaps of the whole volume. *)
Definition all_inodes : list Z := merge_bits ib (f_nino F) (fun g => g * f_ipg F) groups (zrep ((f_inodes F + 7) / 8) 0).
Definition all_blocks : list Z := merge_bits bb (f_nblk F) (f_start F) groups (zrep ((f_blocks F + 7) / 8) 0).
Definition volume_fixed : fsck_fixed := FsckFixed (f_blocks F) bs all_blocks (f_inodes F) all_inodes.
Local Abbreviation C := volume_fixed.
Definition all_refs : list Z := visited ≫= fun v => inode_refs C d bs v.2.

(** Group [g] lies where it should, its counts are those of its bitmaps, and what it keeps for itself is marked. *)
Record group_ok (g : Z) : Prop := GroupOk {
  gk_inside : meta_outside F gd g = false;
  gk_free_blocks : clear_bits (bb g) (seqZ 0 (f_nblk F g)) = bg_free_blocks_count gd g;
  gk_free_inodes : clear_bits (ib g) (seqZ 0 (f_nino F g)) = bg_free_inodes_count gd g;
  gk_meta : forall b, b ∈ [bg_block_bitmap gd g; bg_inode_bitmap gd g] ++ seqZ (bg_inode_table gd g) (f_itblocks F) -> bit (bb g) (b - f_start F g) = true;
  gk_super : Z.land (f_rocompat F) 1 = 0 -> forall j, 0 <= j < Z.min (1 + f_gdblocks F) (f_nblk F g) -> bit (bb g) j = true;
  gk_reserved : g = 0 -> forall i, 0 <= i < Z.min (f_first_ino F) (f_nino F g + 1) - 1 -> bit (ib g) i = true;
}.
Definition free_blocks : Z := foldr Z.add 0 ((fun g => clear_bits (bb g) (seqZ 0 (f_nblk F g))) <$> groups).
Definition free_inodes : Z := foldr Z.add 0 ((fun g => clear_bits (ib g) (seqZ 0 (f_nino F g))) <$> groups).

Record consistent : Prop := Consistent {
  cs_group : forall g, 0 <= g < f_groups F -> group_ok g;
  cs_total_blocks : free_blocks = f_freeb F; cs_total_inodes : free_inodes = f_freei F;
  cs_sane : forall v, v ∈ visited -> inode_sane C d bs v.2;
  cs_once : NoDup claimed;
  cs_claimed : forall b, b ∈ claimed -> 0 <= b < f_blocks F /\ block_used b /\ ~ metadata b;
  cs_links : forall v, v ∈ visited -> u32 (occurrences v.1 all_refs) = i_links_count v.2;
  cs_owned : forall b, f_first F <= b < f_blocks F -> block_used b -> metadata b \/ b ∈ claimed;
}.

(** ** Geometry *)

Record geo_fine : Prop := GeoFine {
  gf_valid : invalid_geometry F = false; gf_exceeds : exceeds F (store_size d) = false; gf_groups : bad_groups F = false;
  gf_word : 0 <= f_blocks F < 2 ^ 32 /\ 0 <= f_inodes F < 2 ^ 32 /\ 0 <= f_first F /\ 0 <= f_logsz F /\ 0 <= f_bpg F /\ 0 <= f_ipg F /\ 0 <= f_reserved_gdt F;
  gf_first_ino : 0 <= f_first_ino F;
}.
Context (HF : geo_fine).

Lemma geo_bounds : (bs = 1024 \/ bs = 2048 \/ bs = 4096) /\ 0 < f_bpg F <= bs * 8 /\ 0 < f_ipg F <= bs * 8 /\ 0 < f_inodes F < 2 ^ 32 /\ 128 <= f_isz F <= 4096 /\
  0 <= f_first F < f_blocks F /\ f_blocks F < 2 ^ 32 /\ f_blocks F * bs <= store_size d.
Proof using HF.
  destruct HF as [Hv He _ (Hb & Hi & Hf & Hl & Hp & Hq & _) _]. unfold invalid_geometry in Hv. unfold exceeds in He. apply orb_false_iff in Hv as [Hv _].
  assert (f_logsz F = 0 \/ f_logsz F = 1 \/ f_logsz F = 2) as Hs by lia. split; [unfold f_bs; destruct Hs as [->|[->| ->]]; vm_compute; tauto|]. lia.
Qed.
Lemma groups_bounds : 0 < f_groups F <= 65535 /\ forall g, 0 <= g < f_groups F <-> 0 <= g /\ f_start F g < f_blocks F.
Proof using HF.
  destruct geo_bounds as (Hbs & Hp & _ & _ & _ & Hf & Hb & _). destruct HF as [_ _ Hg _ _]. unfold bad_groups in Hg. split; [assert (0 <= f_groups F) by apply u32_range; lia|].
  unfold f_groups, f_start in *. set (n := f_blocks F - f_first F) in *. assert (0 <= (n + f_bpg F - 1) / f_bpg F <= n) as Hr.
  { split; [apply Z.div_pos; lia|]. apply Z.div_le_upper_bound; nia. }
  replace (f_blocks F - f_first F + f_bpg F - 1) with (n + f_bpg F - 1) in * by lia. rewrite u32_id in * by lia. intros g.
  pose proof (Z.div_mod (n + f_bpg F - 1) (f_bpg F) ltac:(lia)). pose proof (Z.mod_pos_bound (n + f_bpg F - 1) (f_bpg F) ltac:(lia)). nia.
Qed.
Lemma group_blocks_ok g : 0 <= g < f_groups F -> 0 < f_nblk F g <= f_bpg F /\ 0 <= f_start F g /\ f_start F g + f_nblk F g <= f_blocks F.
Proof using HF.
  intros Hg. destruct geo_bounds as (_ & Hp & _ & _ & _ & Hf & _). apply groups_bounds in Hg as [Hg Hlt]. unfold f_nblk. split_and!; try case_match; unfold f_start in *; nia.
Qed.
Lemma group_inodes_ok g : 0 <= g -> 0 <= f_nino F g <= f_ipg F /\ g * f_ipg F + f_nino F g <= Z.max (f_inodes F) (g * f_ipg F) /\ (f_nino F g <> 0 -> g * f_ipg F + f_nino F g <= f_inodes F).
Proof using HF. intros Hg. destruct geo_bounds as (_ & _ & Hq & Hi & _). unfold f_nino. repeat case_match; nia. Qed.
Lemma itblocks_ok : 0 < f_itblocks F /\ f_ipg F * f_isz F <= f_itblocks F * bs.
Proof using HF.
  destruct geo_bounds as (Hbs & _ & Hq & _ & Hz & _). unfold f_itblocks. pose proof (Z.div_mod (f_ipg F * f_isz F + bs - 1) bs ltac:(lia)). pose proof (Z.mod_pos_bound (f_ipg F * f_isz F + bs - 1) bs ltac:(lia)).
  split; [apply Z.div_str_pos; nia|nia].
Qed.

(** ** The bitmaps of the volume *)

Lemma eighths n : 0 <= n -> n <= 8 * ((n + 7) / 8).
Proof using. intros. pose proof (Z.div_mod (n + 7) 8 ltac:(lia)). pose proof (Z.mod_pos_bound (n + 7) 8 ltac:(lia)). lia. Qed.
Lemma all_blocks_spec b : 0 <= b -> marked all_blocks b = true <-> block_used b.
Proof using HF.
  intros Hb. rewrite marked_test. unfold all_blocks. rewrite merge_bits_spec; [|intros g Hg%elem_of_seqZ|done].
  - rewrite test_bit_zrep. setoid_rewrite elem_of_seqZ. unfold block_used. split; [intros [?|(g & Hg & H)]; [done|]|intros (g & Hg & H); right]; exists g; (split; [lia|done]).
  - destruct (group_blocks_ok g ltac:(lia)) as (H1 & H2 & H3). destruct HF as [_ _ _ (? & _) _]. pose proof (eighths (f_blocks F) ltac:(lia)). rewrite zlen_zrep by (apply Z.div_pos; lia). lia.
Qed.
Lemma all_inodes_spec ino : 1 <= ino -> marked all_inodes (ino - 1) = true <-> inode_used ino.
Proof using HF.
  intros Hb. rewrite marked_test. unfold all_inodes. rewrite merge_bits_spec; [|intros g Hg%elem_of_seqZ|lia].
  - rewrite test_bit_zrep. setoid_rewrite elem_of_seqZ. unfold inode_used. split; [intros [?|(g & Hg & H)]; [done|]|intros (g & Hg & H); right]; exists g; (split; [lia|done]).
  - destruct (group_inodes_ok g ltac:(lia)) as (H1 & _ & H2). destruct geo_bounds as (_ & _ & Hq & Hi & _). pose proof (eighths (f_inodes F) ltac:(lia)). rewrite zlen_zrep by (apply Z.div_pos; lia).
    split; [lia|]. split; [nia|]. lia.
Qed.

(** ** One group *)

Context (Hd : store_ok d) (Hbytes : forall i, 0 <= i < store_size d -> is_byte (store_at d i)) (Hgd : Forall is_byte gd).

Lemma bg_nonneg g : 0 <= bg_block_bitmap gd g /\ 0 <= bg_inode_bitmap gd g /\ 0 <= bg_inode_table gd g.
Proof using Hgd. unfold bg_block_bitmap, bg_inode_bitmap, bg_inode_table. split_and!; apply le32_range, Hgd. Qed.
Lemma inside_bounds g : meta_outside F gd g = false ->
  (f_start F g <= bg_block_bitmap gd g < f_start F g + f_nblk F g) /\ (f_start F g <= bg_inode_bitmap gd g < f_start F g + f_nblk F g) /\
  f_start F g <= bg_inode_table gd g /\ bg_inode_table gd g + f_itblocks F <= f_start F g + f_nblk F g.
Proof using. unfold meta_outside. lia. Qed.
Lemma meta_span_0 map k n g : f_start F g <= k -> k + n <= f_start F g + f_nblk F g ->
  clear_bits map (filter (fun b => 0 <= b < f_nblk F g) (seqZ (k - f_start F g) n)) = 0 <-> forall b, b ∈ seqZ k n -> bit map (b - f_start F g) = true.
Proof using.
  intros H1 H2. rewrite clear_bits_0. split.
  - intros H b Hb%elem_of_seqZ. apply H, list_elem_of_filter. split; [lia|]. apply elem_of_seqZ. lia.
  - intros H i [_ Hi%elem_of_seqZ]%list_elem_of_filter. specialize (H (i + f_start F g)). replace (i + f_start F g - f_start F g) with i in H by lia. apply H, elem_of_seqZ. lia.
Qed.
Lemma clear_seqZ_0 map n : clear_bits map (seqZ 0 n) = 0 <-> forall i, 0 <= i < n -> bit map i = true.
Proof using. rewrite clear_bits_0. split; intros H i Hi; apply H; [apply elem_of_seqZ|apply elem_of_seqZ in Hi]; lia. Qed.
Lemma check_bitmaps_0 g : meta_outside F gd g = false -> 0 <= check_bitmaps F gd g (bb g) (ib g) /\ (check_bitmaps F gd g (bb g) (ib g) = 0 <-> group_ok g).
Proof using.
  intros Ho. destruct (inside_bounds g Ho) as (H1 & H2 & H3 & H4). unfold check_bitmaps. cbv zeta.
  set (a1 := if clear_bits (bb g) _ =? _ then 0 else 1). set (a2 := if clear_bits (ib g) _ =? _ then 0 else 1).
  set (a3 := clear_bits _ (filter _ (seqZ (bg_block_bitmap gd g - _) 1))). set (a4 := clear_bits _ (filter _ (seqZ (bg_inode_bitmap gd g - _) 1))). set (a5 := clear_bits _ (filter _ (seqZ (bg_inode_table gd g - _) _))).
  set (a6 := if Z.land _ 1 =? 0 then _ else 0). set (a7 := if g =? 0 then _ else 0).
  assert (0 <= a1 /\ (a1 = 0 <-> clear_bits (bb g) (seqZ 0 (f_nblk F g)) = bg_free_blocks_count gd g)) as [P1 E1] by (unfold a1; case_match; lia).
  assert (0 <= a2 /\ (a2 = 0 <-> clear_bits (ib g) (seqZ 0 (f_nino F g)) = bg_free_inodes_count gd g)) as [P2 E2] by (unfold a2; case_match; lia).
  assert (0 <= a3 /\ 0 <= a4 /\ 0 <= a5) as (P3 & P4 & P5) by (split_and!; apply clear_bits_nonneg).
  pose proof (meta_span_0 (bb g) (bg_block_bitmap gd g) 1 g ltac:(lia) ltac:(lia)) as E3. fold a3 in E3.
  pose proof (meta_span_0 (bb g) (bg_inode_bitmap gd g) 1 g ltac:(lia) ltac:(lia)) as E4. fold a4 in E4.
  pose proof (meta_span_0 (bb g) (bg_inode_table gd g) (f_itblocks F) g ltac:(lia) ltac:(lia)) as E5. fold a5 in E5.
  assert (0 <= a6 /\ (a6 = 0 <-> (Z.land (f_rocompat F) 1 = 0 -> forall j, 0 <= j < Z.min (1 + f_gdblocks F) (f_nblk F g) -> bit (bb g) j = true))) as [P6 E6].
  { unfold a6. destruct (Z.eqb_spec (Z.land (f_rocompat F) 1) 0); [|split; done || lia]. split; [apply clear_bits_nonneg|]. rewrite clear_seqZ_0. tauto. }
  assert (0 <= a7 /\ (a7 = 0 <-> (g = 0 -> forall i, 0 <= i < Z.min (f_first_ino F) (f_nino F g + 1) - 1 -> bit (ib g) i = true))) as [P7 E7].
  { unfold a7. destruct (Z.eqb_spec g 0); [|split; done || lia]. split; [apply clear_bits_nonneg|]. rewrite clear_seqZ_0.
    replace (if f_nino F g + 1 <? f_first_ino F then f_nino F g + 1 else f_first_ino F) with (Z.min (f_first_ino F) (f_nino F g + 1)) by (case_match; lia). tauto. }
  assert (seqZ (bg_block_bitmap gd g) 1 = [bg_block_bitmap gd g] /\ seqZ (bg_inode_bitmap gd g) 1 = [bg_inode_bitmap gd g]) as [S1 S2] by (split; rewrite seqZ_cons by lia; done).
  rewrite S1 in E3. rewrite S2 in E4. clearbody a1 a2 a3 a4 a5 a6 a7. split; [lia|]. split.
  - intros Hz. assert (a1 = 0 /\ a2 = 0 /\ a3 = 0 /\ a4 = 0 /\ a5 = 0 /\ a6 = 0 /\ a7 = 0) as (Z1 & Z2 & Z3 & Z4 & Z5 & Z6 & Z7) by lia.
    split; [done|by apply E1|by apply E2| |by apply E6|by apply E7]. intros b Hb. rewrite elem_of_app, elem_of_cons in Hb. destruct Hb as [[->|Hb]|Hb]; [apply E3|apply E4|apply E5]; (done || by apply list_elem_of_singleton).
  - intros [_ G1 G2 G3 G4 G5]. assert (a1 = 0 /\ a2 = 0 /\ a6 = 0 /\ a7 = 0) as (Z1 & Z2 & Z6 & Z7) by (split_and!; tauto).
    assert (a3 = 0) by (apply E3; intros b ->%list_elem_of_singleton; apply G3; apply elem_of_app; left; apply elem_of_cons; by left).
    assert (a4 = 0) by (apply E4; intros b ->%list_elem_of_singleton; apply G3; apply elem_of_app; left; apply elem_of_cons; right; by apply list_elem_of_singleton).
    assert (a5 = 0) by (apply E5; intros b Hb; apply G3; apply elem_of_app; by right). lia.
Qed.

Definition group_effect (g : Z) : effect :=
  group_fx C d bs (g * f_ipg F) (f_isz F) (bg_inode_table gd g) (ib g) (f_first_ino F) (seqZ 0 (f_nino F g)).
Definition group_sane (g : Z) : Prop := forall i, i ∈ seqZ 0 (f_nino F g) -> in_use g i = true -> inode_sane C d bs (inode_of g i).
Definition errors_of (r : Z * Z * Z) : Z := r.1.1.

Lemma check_group_judges g : 0 <= g < f_groups F ->
  judges C d errors_of (fun r => errors_of r = 0 -> r.1.2 = clear_bits (bb g) (seqZ 0 (f_nblk F g)) /\ r.2 = clear_bits (ib g) (seqZ 0 (f_nino F g)))
    (check_group F C gd g) (group_ok g /\ group_sane g) (group_effect g).
Proof using HL HF Hd Hbytes Hgd.
  intros Hg. destruct geo_bounds as (Hbs & _ & Hq & _ & Hz & _ & _ & Hfit). destruct (group_blocks_ok g Hg) as (_ & Hst & Hfin). unfold check_group.
  destruct (meta_outside F gd g) eqn:Eo; [apply judges_stuck; [done|done|]; intros [[Ei _ _ _ _ _] _]; congruence|].
  destruct (inside_bounds g Eo) as (H1 & H2 & H3 & H4). destruct itblocks_ok as [Hit1 Hit2]. destruct (group_inodes_ok g ltac:(lia)) as (Hn & _).
  do 2 (eapply (judges_read_block C d Hd bs); [lia|done|change (c_count C) with (f_blocks F); lia|]; cbn beta iota). fold (bb g) (ib g). destruct (check_bitmaps_0 g Eo) as [Hc0 Hc].
  rewrite <- (fx_app_0_r (group_effect g)). eapply judges_iff; [eapply judges_bind; [unfold fsck_ext2_check_inodes; apply (check_inode_list_judges C d Hd bs); try done; try lia|]| |reflexivity].
  - ulia.
  - intros i Hi%elem_of_seqZ. split; [lia|]. nia.
  - intros r Hr _. set (e := match r with None => 1 | Some e => e end). change (option_errors r) with e in *.
    eapply judges_iff; [apply (judges_ret _ _ errors_of)| |done]; cbn [errors_of fst snd]; [lia|done|]. instantiate (1 := group_ok g). rewrite <- Hc. lia.
  - unfold group_sane. tauto.
Qed.

(** ** All groups *)

Definition sums (f : Z -> Z) (l : list Z) : Z := foldr Z.add 0 (f <$> l).
Lemma check_groups_judges l e0 tb ti : 0 <= e0 -> (forall g, g ∈ l -> 0 <= g < f_groups F) ->
  judges C d errors_of (fun r => errors_of r = 0 ->
      r.1.2 = tb + sums (fun g => clear_bits (bb g) (seqZ 0 (f_nblk F g))) l /\ r.2 = ti + sums (fun g => clear_bits (ib g) (seqZ 0 (f_nino F g))) l)
    (check_groups F C gd l e0 tb ti) (e0 = 0 /\ forall g, g ∈ l -> group_ok g /\ group_sane g) (fx_all group_effect l).
Proof using HL HF Hd Hbytes Hgd.
  revert e0 tb ti. induction l as [|g l IH]; intros e0 tb ti He0 Hl; cbn [check_groups].
  { eapply judges_iff; [apply (judges_ret _ _ errors_of); [done|]| |done]; cbn [errors_of fst snd sums fmap list_fmap foldr]; [lia|]. split; [|tauto]. intros H. split; [done|]. intros g Hg. by apply elem_of_nil in Hg. }
  rewrite fx_all_cons. eapply judges_iff; [eapply judges_bind; [apply check_group_judges, Hl, elem_of_cons; by left|]| |reflexivity].
  - intros [[e fb] fi] He Hr. cbn [errors_of fst snd] in He, Hr. 
    intros s Hs. destruct (IH (e0 + e) (tb + fb) (ti + fi) ltac:(lia) ltac:(intros; apply Hl, elem_of_cons; by right) s Hs) as (r & s' & E1 & E2 & E3 & E4 & E5 & E6).
    exists r, s'. split; [done|]. split; [done|]. split; [done|]. split; [|split; [|done]].
    + intros Hr0. specialize (E4 Hr0). apply E5 in Hr0 as [[H0 _] _]. destruct (Hr ltac:(lia)) as [-> ->]. cbn [sums fmap list_fmap foldr]. unfold sums in E4. lia.
    + rewrite E5. cbn [errors_of fst]. instantiate (1 := e0 = 0 /\ forall g', g' ∈ l -> group_ok g' /\ group_sane g'). 
      assert (e0 + e = 0 <-> e0 = 0 /\ e = 0) as -> by lia. tauto.
  - cbn beta. setoid_rewrite elem_of_cons. split; [intros (H1 & H2 & H3); split; [done|intros g' [->|Hg']; auto]|].
    intros (H1 & H2). split; [apply H2; by left|]. split; [done|]. intros g' Hg'. apply H2. by right.
Qed.

(** ** What is compared at the end *)

Definition wrong (s : fsck_state S) (ino : Z) : bool := negb (bget (c_checked s) ino =? 0) && negb (bget (c_refs s) ino =? bget (c_links s) ino).
Lemma check_links_ok fuel ino e s : 1 <= ino <= f_inodes F + 1 -> f_inodes F < UINT32_MAX -> f_inodes F + 1 - ino < Z.of_nat fuel ->
  check_links F fuel ino e s = (Done (e + zlen (filter (fun i => wrong s i = true) (seqZ ino (f_inodes F + 1 - ino)))), s).
Proof using.
  intros Hi Hmax. revert ino e Hi. induction fuel as [|fuel IH]; intros ino e Hi Hf; [lia|]. cbn [check_links]. destruct (Z.ltb_spec (f_inodes F) ino).
  { replace (f_inodes F + 1 - ino) with 0 by lia. change (zlen _) with 0. by rewrite Z.add_0_r. }
  unfold bind at 1, get. rewrite u32_id by ulia. fold (wrong s ino). rewrite IH by lia. do 2 f_equal. rewrite (seqZ_cons ino) by lia. rewrite filter_cons.
  replace (Z.pred (f_inodes F + 1 - ino)) with (f_inodes F + 1 - (ino + 1)) by lia. change (Z.succ ino) with (ino + 1).
  destruct (wrong s ino); (case_decide; [|done || congruence]); rewrite ?zlen_cons; [lia|congruence].
Qed.
Lemma zlen_filter_0 {A} (P : A -> Prop) `{HP : !forall x, Decision (P x)} l : zlen (filter P l) = 0 <-> forall x, x ∈ l -> ~ P x.
Proof using.
  split.
  - intros E0 x Hx Px. assert (x ∈ filter P l) as Hin by by apply list_elem_of_filter. destruct (filter P l) as [|y k]; [by apply elem_of_nil in Hin|]. rewrite zlen_cons in E0. pose proof (zlen_nonneg k). lia.
  - intros HN. assert (filter P l = []) as ->; [|done]. apply elem_of_nil_inv. intros x [Px Hx]%list_elem_of_filter. by apply (HN x).
Qed.

(** ** The inodes visited *)

Lemma bind_of_bind {X Y W} (h : X -> list Y) (k : Y -> list W) l : (l ≫= h) ≫= k = l ≫= fun x => h x ≫= k.
Proof using. induction l as [|x l IH]; [done|]. by rewrite !bind_cons, bind_app, IH. Qed.
Lemma fmap_of_bind {X Y W} (h : X -> list Y) (k : Y -> W) l : k <$> (l ≫= h) = l ≫= fun x => k <$> h x.
Proof using. induction l as [|x l IH]; [done|]. by rewrite !bind_cons, fmap_app, IH. Qed.
Lemma fx_all_bind {X Y} (f : Y -> effect) (h : X -> list Y) l : fx_all (fun x => fx_all f (h x)) l = fx_all f (l ≫= h).
Proof using. unfold fx_all. by rewrite !bind_of_bind. Qed.
Lemma fx_all_fmap {X Y} (f : Y -> effect) (h : X -> Y) l : fx_all f (h <$> l) = fx_all (fun x => f (h x)) l.
Proof using. unfold fx_all. by rewrite !list_fmap_bind. Qed.
Lemma fx_all_ext {X} (f g : X -> effect) l : (forall x, f x = g x) -> fx_all f l = fx_all g l.
Proof using. intros H. unfold fx_all. f_equal; apply list_bind_ext; try done; intros x; cbn [compose]; by rewrite H. Qed.
Definition volume_effect : effect := fx_all (fun v => inode_fx C d bs v.1 v.2) visited.
Lemma volume_effect_groups : fx_all group_effect groups = volume_effect.
Proof using.
  unfold volume_effect, visited. rewrite <- fx_all_bind. apply fx_all_ext. intros g. by rewrite fx_all_fmap.
Qed.
Lemma visited_inv v : v ∈ visited <-> exists g i, 0 <= g < f_groups F /\ 0 <= i < f_nino F g /\ in_use g i = true /\ v = (g * f_ipg F + i + 1, inode_of g i).
Proof using.
  unfold visited. rewrite list_elem_of_bind. setoid_rewrite elem_of_seqZ. setoid_rewrite list_elem_of_fmap. setoid_rewrite list_elem_of_filter. setoid_rewrite elem_of_seqZ. split.
  - intros (g & (i & -> & Hu & Hi) & Hg). exists g, i. split_and!; (done || lia).
  - intros (g & i & Hg & Hi & Hu & ->). exists g. split; [|lia]. exists i. split_and!; (done || lia).
Qed.
Lemma visited_range v : v ∈ visited -> 1 <= v.1 <= f_inodes F.
Proof using HF.
  intros (g & i & Hg & Hi & _ & ->)%visited_inv. cbn [fst]. destruct (group_inodes_ok g ltac:(lia)) as (_ & _ & H). destruct geo_bounds as (_ & _ & Hq & _). nia.
Qed.
Lemma visited_nodup : NoDup visited.*1.
Proof using HF.
  destruct geo_bounds as (_ & _ & Hq & _). unfold visited. rewrite fmap_of_bind. apply NoDup_bind.
  - intros g1 g2 y Hg1%elem_of_seqZ Hg2%elem_of_seqZ. rewrite <- !list_fmap_compose. intros (i1 & -> & [_ Hi1%elem_of_seqZ]%list_elem_of_filter)%list_elem_of_fmap (i2 & E & [_ Hi2%elem_of_seqZ]%list_elem_of_filter)%list_elem_of_fmap.
    cbn [compose fst] in E. destruct (group_inodes_ok g1 ltac:(lia)), (group_inodes_ok g2 ltac:(lia)). nia.
  - intros g _. rewrite <- list_fmap_compose. apply NoDup_fmap_2_strong; [|apply NoDup_filter, NoDup_seqZ]. intros i j _ _. cbn [compose fst]. lia.
  - apply NoDup_seqZ.
Qed.
Lemma inode_of_bytes g i : 0 <= g < f_groups F -> meta_outside F gd g = false -> 0 <= i < f_nino F g -> Forall is_byte (inode_of g i).
Proof using HF Hbytes Hgd.
  intros Hg Ho Hi. destruct geo_bounds as (Hbs & _ & Hq & _ & Hz & _ & _ & Hfit). destruct (group_blocks_ok g Hg) as (_ & Hst & Hfin). destruct (inside_bounds g Ho) as (_ & _ & H3 & H4).
  destruct itblocks_ok as [_ Hit]. destruct (group_inodes_ok g ltac:(lia)) as (Hn & _). apply Forall_bytes_at. intros k Hk. apply Hbytes. nia.
Qed.
Lemma volume_claims : (fx_claims volume_effect).*1 = claimed.
Proof using.
  unfold volume_effect, claimed. cbn [fx_all fx_claims]. rewrite fmap_of_bind. apply list_bind_ext; [|done]. intros v. cbn [compose inode_fx fx_claims]. rewrite <- list_fmap_compose. apply list_fmap_id.
Qed.
Lemma volume_seen : fx_seen volume_effect = (fun v => (v.1, i_links_count v.2)) <$> visited.
Proof using. unfold volume_effect. cbn [fx_all fx_seen]. induction visited as [|v l IH]; [done|]. by rewrite bind_cons, fmap_cons, IH. Qed.
Lemma volume_refs : fx_refs volume_effect = all_refs.
Proof using. done. Qed.

(** ** The state before and after the traversal *)

Local Abbreviation zeros := (zrep (f_inodes F + 1) 0).
Definition start_state : fsck_state S := FsckState d (reserve_meta F gd (zrep (f_blocks F) 0)) zeros zeros zeros.
Definition final_state : fsck_state S := apply_fx volume_effect start_state.

Lemma group_meta_nonneg g b : 0 <= g < f_groups F -> b ∈ group_meta F gd g -> 0 <= b.
Proof using HF Hgd.
  intros Hg. destruct (bg_nonneg g) as (H1 & H2 & H3). destruct (group_blocks_ok g Hg) as (_ & Hst & _). unfold group_meta. rewrite !elem_of_app, !elem_of_cons, elem_of_seqZ.
  intros [[->|[->|Hb]]|[Hb|Hb]]; [done|done|by apply elem_of_nil in Hb|lia|]. destruct (has_backup _ _); [|by apply elem_of_nil in Hb]. apply elem_of_seqZ in Hb. lia.
Qed.
Lemma start_owners b : 0 <= b < f_blocks F -> zlen (c_owners start_state) = f_blocks F /\ (bget (c_owners start_state) b = 0 <-> ~ metadata b) /\ (bget (c_owners start_state) b <> 0 -> metadata b).
Proof using HF Hgd.
  intros Hb. cbn [c_owners start_state]. rewrite reserve_meta_flat. assert (zlen (zrep (f_blocks F) 0) = f_blocks F) as Hz by (apply zlen_zrep; lia).
  assert (b ∈ groups ≫= group_meta F gd <-> metadata b) as Hm.
  { rewrite list_elem_of_bind. unfold metadata. setoid_rewrite elem_of_seqZ. split; intros (g & H1 & H2); exists g; split; (done || lia). }
  destruct (mark_all_get F (groups ≫= group_meta F gd) (zrep (f_blocks F) 0) b) as [E1 E2]; [lia|done| |].
  { apply Forall_forall. intros x (g & Hx & Hg%elem_of_seqZ)%list_elem_of_bind. by apply (group_meta_nonneg g); [lia|]. }
  split; [congruence|]. rewrite E2, bget_zrep0, <- Hm. case_bool_decide; [unfold UINT32_MAX|]; split_and!; done || lia.
Qed.
Lemma start_ok : st_ok C d start_state.
Proof using HF Hgd.
  destruct geo_bounds as (_ & _ & _ & Hi & _ & Hf & _). destruct (start_owners 0 ltac:(lia)) as [E _]. split; [done|exact E|..]; change (c_inode_count C) with (f_inodes F); apply zlen_zrep; lia.
Qed.
Lemma start_fresh : fresh C start_state (fx_claims volume_effect) <-> NoDup claimed /\ forall b, b ∈ claimed -> 0 <= b < f_blocks F /\ block_used b /\ ~ metadata b.
Proof using HF Hgd.
  rewrite <- volume_claims. split.
  - intros [Hn Hb]. split; [done|]. intros b [i Hi]%elem_fst. destruct (Hb b i Hi) as (_ & Hr & Hm & Ho). apply all_blocks_spec in Hm; [|lia]. by apply start_owners in Ho.
  - intros [Hn Hb]. split; [done|]. intros b i Hi. destruct (Hb b ltac:(apply elem_fst; by exists i)) as (Hr & Hu & Hm). split; [|split; [done|split; [by apply all_blocks_spec; [lia|]|by apply start_owners]]].
    unfold volume_effect in Hi. cbn [fx_all fx_claims] in Hi. apply list_elem_of_bind in Hi as (v & Hi & Hv). apply visited_range in Hv. cbn [compose inode_fx fx_claims] in Hi. apply list_elem_of_fmap in Hi as (? & [= -> ->] & _). lia.
Qed.

Lemma seen_range {A} (f : Z * list Z -> A) : Forall (fun iv : Z * A => 0 <= iv.1 < zlen zeros) ((fun v => (v.1, f v)) <$> visited).
Proof using HF.
  destruct geo_bounds as (_ & _ & _ & Hi & _). apply Forall_fmap, Forall_forall. intros v Hv%visited_range. cbn [compose fst]. rewrite zlen_zrep by lia. lia.
Qed.
Lemma seen_fst {A} (f : Z * list Z -> A) : ((fun v => (v.1, f v)) <$> visited).*1 = visited.*1.
Proof using. by rewrite <- list_fmap_compose. Qed.
Lemma seen_get (f : Z * list Z -> Z) v : v ∈ visited -> bget (put_all zeros ((fun v => (v.1, f v)) <$> visited)) v.1 = f v.
Proof using HF.
  intros Hv. apply put_all_in; [apply seen_range|rewrite seen_fst; apply visited_nodup|]. apply list_elem_of_fmap. by exists v.
Qed.
Lemma checked_eq : c_checked final_state = put_all zeros ((fun v => (v.1, 1)) <$> visited).
Proof using. cbn [final_state apply_fx c_checked start_state]. by rewrite volume_seen, <- list_fmap_compose. Qed.
Lemma all_refs_nonneg : (forall g, 0 <= g < f_groups F -> meta_outside F gd g = false) -> Forall (fun t => 0 <= t) all_refs.
Proof using HF Hbytes Hgd.
  intros Hin. destruct geo_bounds as (Hbs & _ & _ & _ & _ & _ & _ & Hfit). apply Forall_forall. intros t (v & Ht & Hv)%list_elem_of_bind. unfold inode_refs in Ht. case_match; [|by apply elem_of_nil in Ht].
  apply visited_inv in Hv as (g & i & Hg & Hi & _ & ->). pose proof (inode_of_bytes g i Hg (Hin g Hg) Hi) as Hib. cbn [snd] in Ht.
  apply list_elem_of_bind in Ht as (b & Ht & [Hsc Hb]%list_elem_of_filter). unfold targets in Ht. apply list_elem_of_filter in Ht as [_ Ht]. apply list_elem_of_fmap in Ht as (p & -> & _).
  apply list_elem_of_fmap in Hb as (j & -> & _). pose proof (le32_range _ Hib (40 + 4 * j)). apply le32_range. apply (byte_block C d bs); [lia|done|done|].
  unfold scanned in Hsc. change (c_count C) with (f_blocks F) in *. unfold i_block in *. lia.
Qed.

(** The links counted are right, and the allocated blocks have owners. *)
Lemma final_wrong : (forall g, 0 <= g < f_groups F -> meta_outside F gd g = false) ->
  (forall ino, 1 <= ino <= f_inodes F -> wrong final_state ino = false) <-> forall v, v ∈ visited -> u32 (occurrences v.1 all_refs) = i_links_count v.2.
Proof using HF Hbytes Hgd.
  intros Hin. destruct geo_bounds as (_ & _ & _ & Hi & _). assert (forall v, v ∈ visited -> wrong final_state v.1 = negb (u32 (occurrences v.1 all_refs) =? i_links_count v.2)) as Hw.
  { intros v Hv. pose proof (visited_range v Hv). unfold wrong. rewrite checked_eq, (seen_get (fun _ => 1) v Hv). cbn [final_state apply_fx c_refs c_links start_state]. rewrite volume_seen, (seen_get (fun v => i_links_count v.2) v Hv), volume_refs.
    rewrite ref_all_get; [rewrite bget_zrep0, Z.add_0_l; done|rewrite zlen_zrep by lia; lia|rewrite bget_zrep0; lia|by apply all_refs_nonneg]. }
  split.
  - intros H v Hv. specialize (H v.1 (visited_range v Hv)). rewrite Hw in H by done. apply negb_false_iff, Z.eqb_eq in H. done.
  - intros H ino Hr. destruct (decide (ino ∈ visited.*1)) as [(v & -> & Hv)%list_elem_of_fmap|Hno]; [rewrite Hw, H by done; by rewrite Z.eqb_refl|].
    unfold wrong. rewrite checked_eq, put_all_out, bget_zrep0; [done|lia| |by rewrite seen_fst]. eapply Forall_impl; [apply seen_range|]. cbn. lia.
Qed.
Lemma final_unowned : fresh C start_state (fx_claims volume_effect) ->
  unowned F C final_state = [] <-> forall b, f_first F <= b < f_blocks F -> block_used b -> metadata b \/ b ∈ claimed.
Proof using HF Hgd.
  intros [Hnd Hfr]. destruct geo_bounds as (_ & _ & _ & _ & _ & Hf & _). assert (forall b, f_first F <= b < f_blocks F -> bget (c_owners final_state) b = 0 <-> ~ metadata b /\ b ∉ claimed) as Ho.
  { intros b Hb. destruct (start_owners b ltac:(lia)) as (Hz & Hm & _). cbn [final_state apply_fx c_owners]. destruct (decide (b ∈ claimed)) as [Hc|Hc].
    - split; [|tauto]. intros E. exfalso. rewrite <- volume_claims in Hc. destruct (put_all_some (c_owners start_state) (fx_claims volume_effect) b) as (v & Hv & Ev); [|done|].
      + apply Forall_forall. intros [x i] Hx. destruct (Hfr x i Hx) as (_ & Hr & _). cbn [fst]. by rewrite Hz.
      + destruct (Hfr b v Hv) as [Hnz _]. congruence.
    - rewrite put_all_out; [tauto|lia| |by rewrite volume_claims]. apply Forall_forall. intros [x i] Hx. destruct (Hfr x i Hx) as (_ & Hr & _). cbn [fst]. lia. }
  assert (unowned F C final_state = [] <-> forall b, f_first F <= b < f_blocks F -> block_used b -> bget (c_owners final_state) b <> 0) as ->.
  { unfold unowned. split.
    - intros E b Hb Hu E0. assert (b ∈ unowned F C final_state) as Hin; [|unfold unowned in Hin; rewrite E in Hin; by apply elem_of_nil in Hin].
      apply list_elem_of_filter. split; [|apply elem_of_seqZ; lia]. split; [|done]. rewrite bit_test, <- marked_test. by apply all_blocks_spec; [lia|].
    - intros H. apply elem_of_nil_inv. intros b [[Eb E0] Hb%elem_of_seqZ]%list_elem_of_filter. apply (H b); [lia| |done]. rewrite bit_test, <- marked_test in Eb. by apply all_blocks_spec in Eb; [|lia]. }
  split; intros H b Hb Hu; specialize (H b Hb Hu); specialize (Ho b Hb).
  - destruct (decide (b ∈ claimed)) as [|Hc]; [by right|left].
    destruct (start_owners b ltac:(lia)) as (_ & Hm & Hm'). apply Hm'. intros E0. apply H, Ho. split; [by apply Hm|done].
  - intros E0. apply Ho in E0 as [Hn Hc]. tauto.
Qed.

(** ** The whole check *)

Lemma volume_sane : (forall g, 0 <= g < f_groups F -> group_sane g) <-> forall v, v ∈ visited -> inode_sane C d bs v.2.
Proof using.
  unfold group_sane. setoid_rewrite elem_of_seqZ. split.
  - intros H v (g & i & Hg & Hi & Hu & ->)%visited_inv. apply H; [done|lia|done].
  - intros H g Hg i Hi Hu. apply (H (g * f_ipg F + i + 1, inode_of g i)). apply visited_inv. exists g, i. split_and!; (done || lia).
Qed.
Lemma check_volume_ok : f_inodes F < UINT32_MAX ->
  exists e s', check_volume F C gd start_state = (Done e, s') /\ c_dev s' = d /\ 0 <= e /\ (e = 0 <-> consistent).
Proof using HL HF Hd Hbytes Hgd.
  intros Hmax. destruct geo_bounds as (_ & _ & _ & Hi & _). destruct groups_bounds as [Hgr _].
  assert (forall g, g ∈ groups -> 0 <= g < f_groups F) as Hgs by (intros g Hg%elem_of_seqZ; lia).
  destruct (check_groups_judges groups 0 0 0 ltac:(lia) Hgs start_state start_ok) as ([[e tb] ti] & s & E1 & He & Hs & Hr & Hz & Ha). cbn [errors_of fst snd] in *.
  unfold check_volume. rewrite (bind_done _ _ _ _ _ E1). set (e1 := e + _ + _). erewrite (bind_done (check_links _ _ _ _)) by (apply check_links_ok; lia). unfold bind, get, ret.
  eexists _, s. split; [reflexivity|]. split; [apply Hs|]. set (w := zlen (filter _ _)). set (u := match unowned F C s with [] => 0 | _ => 1 end).
  assert (0 <= w) by apply zlen_nonneg. assert (0 <= u /\ (u = 0 <-> unowned F C s = [])) as [Hu0 Hu] by (unfold u; destruct (unowned F C s); split; lia || done).
  assert (e <= e1 /\ (e1 = 0 <-> e = 0 /\ tb = f_freeb F /\ ti = f_freei F)) as [He1 He1'] by (unfold e1; repeat case_match; lia).
  split; [lia|]. replace (f_inodes F + 1 - 1) with (f_inodes F) in w by lia.
  assert (w = 0 <-> forall ino, 1 <= ino <= f_inodes F -> wrong s ino = false) as Hw.
  { unfold w. rewrite zlen_filter_0. setoid_rewrite elem_of_seqZ. split; intros H' ino Hino; specialize (H' ino); destruct (wrong s ino); try done; [exfalso; apply H'; [lia|done]|intros _; by discriminate H'; lia]. }
  assert (e1 + w + u = 0 <-> e1 = 0 /\ w = 0 /\ u = 0) as -> by lia. rewrite He1', Hw, Hu. rewrite volume_effect_groups in *.
  split.
  - intros ((He0 & Htb & Hti) & Hlinks & Hown). rewrite (Ha He0) in *. destruct (Hr He0) as [-> ->]. apply Hz in He0 as [[_ Hg] Hf]. fold final_state in *.
    assert (forall g, 0 <= g < f_groups F -> group_ok g /\ group_sane g) as Hg' by (intros g Hg'; apply Hg, elem_of_seqZ; lia).
    assert (forall g, 0 <= g < f_groups F -> meta_outside F gd g = false) as Hin by (intros g Hg2; apply Hg'; done).
    destruct (proj1 start_fresh Hf) as [F1 F2]. split; [apply Hg'|rewrite <- Htb; unfold free_blocks, sums; lia|rewrite <- Hti; unfold free_inodes, sums; lia|apply volume_sane; apply Hg'|done|done|by apply final_wrong|by apply final_unowned].
  - intros [C1 C2 C3 C4 C5 C6 C7 C8]. assert (fresh C start_state (fx_claims volume_effect)) as Hf by by apply start_fresh.
    assert (e = 0) as He0. { apply Hz. split; [split; [done|]|done]. intros g Hg. split; [by apply C1, Hgs|]. apply volume_sane; [done|by apply Hgs]. }
    destruct (Hr He0) as [-> ->]. rewrite (Ha He0). fold final_state. split; [split; [done|split; [rewrite <- C2; unfold free_blocks, sums; lia|rewrite <- C3; unfold free_inodes, sums; lia]]|].
    split; [apply final_wrong; [|done]; intros g Hg; by apply C1|by apply final_unowned].
Qed.
End volume.
