(* ===== verification/FsckDecide.v ===== *)
(** * FsckDecide: the EXT2 checker as a decision procedure

    When the checker opens a volume, and that it then ends with 0 exactly when
    the volume is consistent. *)
From S2P Require Import Prelude Store Ext2 Ext2Dir Ext2Block Fsck FsckJudge FsckInode FsckOk.
#[local] Open Scope Z_scope.

Section decide.
Context {S : Type} {HS : ByteStore S} {HL : ByteStoreLaws S}.

(** ** Opening a volume *)

Section load.
Context (F : fsck_geo) (gd : list Z) (d : S).
Definition in_device (k : Z) : bool := k * f_bs F + f_bs F <=? store_size d.
Definition inode_bitmap_loads (g : Z) : bool := (f_nino F g =? 0) || in_device (bg_inode_bitmap gd g).
Definition block_bitmap_loads (g : Z) : bool :=
  (f_start F g <=? bg_block_bitmap gd g) && (bg_block_bitmap gd g <? f_start F g + f_nblk F g) && in_device (bg_block_bitmap gd g).

Context (Hd : store_ok d) (HF : geo_fine F d) (Hgd : Forall is_byte gd).

Lemma read_bitmap k : 0 <= k -> fail_as 2 (store_read (k * f_bs F) (f_bs F)) d = if in_device k then (Done (blk (f_bs F) d k), d) else (Fail 2, d).
Proof using HL Hd HF.
  intros Hk. destruct (geo_bounds F d HF) as (Hbs & _). unfold fail_as, in_device. destruct (Z.leb_spec (k * f_bs F + f_bs F) (store_size d)).
  - rewrite store_read_in; first [done|ulia|nia].
  - rewrite store_read_out; first [done|ulia|nia].
Qed.
Lemma load_inode_bitmaps_ok l all : load_inode_bitmaps F l gd all d =
  if forallb inode_bitmap_loads l then (Done (merge_bits (ib F gd d) (f_nino F) (fun g => g * f_ipg F) l all), d) else (Fail 2, d).
Proof using HL Hd HF Hgd.
  revert all. induction l as [|g l IH]; intros all; [done|]. cbn [load_inode_bitmaps forallb]. unfold inode_bitmap_loads at 1. unfold merge_bits in *. cbn [foldl]. destruct (Z.eqb_spec (f_nino F g) 0) as [E|E]; cbn [orb andb].
  { rewrite IH. by rewrite E. }
  unfold bind. rewrite read_bitmap by (apply (bg_nonneg gd Hgd g)). destruct (in_device _); cbn [andb]; [|done]. by rewrite IH.
Qed.
Lemma load_block_bitmaps_ok l all : load_block_bitmaps F l gd all d =
  if forallb block_bitmap_loads l then (Done (merge_bits (bb F gd d) (f_nblk F) (f_start F) l all), d) else (Fail 2, d).
Proof using HL Hd HF Hgd.
  revert all. induction l as [|g l IH]; intros all; [done|]. cbn [load_block_bitmaps forallb]. unfold block_bitmap_loads at 1. unfold merge_bits in *. cbn [foldl].
  destruct ((f_start F g <=? bg_block_bitmap gd g) && (bg_block_bitmap gd g <? f_start F g + f_nblk F g)) eqn:E; cbn [andb].
  - rewrite require_true by lia. unfold bind. rewrite read_bitmap by (apply (bg_nonneg gd Hgd g)). destruct (in_device _); cbn [andb]; [|done]. by rewrite IH.
  - by rewrite require_false by lia.
Qed.
End load.

(** The superblock, the geometry and the descriptors of a volume. *)
Definition volume_sb (d : S) : list Z := bytes_at (store_at d) 1024 1024.
Definition volume_geo (d : S) : fsck_geo := fsck_geo_of (volume_sb d).
Definition volume_gd (d : S) : list Z := let F := volume_geo d in bytes_at (store_at d) ((f_first F + 1) * f_bs F) (f_groups F * 32).
(** What the checker insists on before it counts errors. *)
Definition opens (d : S) : bool :=
  let F := volume_geo d in
  (2048 <=? store_size d) && (le16 (volume_sb d) 56 =? 0xEF53) && negb (invalid_geometry F) && negb (exceeds F (store_size d)) && negb (bad_groups F) &&
  ((f_first F + 1) * f_bs F + f_groups F * 32 <=? store_size d) &&
  forallb (inode_bitmap_loads F (volume_gd d) d) (seqZ 0 (f_groups F)) && forallb (block_bitmap_loads F (volume_gd d) d) (seqZ 0 (f_groups F)).
Definition volume_consistent (d : S) : Prop := consistent (volume_geo d) (volume_gd d) d.

Context (d : S) (Hd : store_ok d) (Hbytes : forall i, 0 <= i < store_size d -> is_byte (store_at d i)).
Local Abbreviation F := (volume_geo d).

Lemma volume_geo_fine : 2048 <= store_size d -> invalid_geometry F = false -> exceeds F (store_size d) = false -> bad_groups F = false -> geo_fine F d.
Proof using Hbytes.
  intros Hsz H1 H2 H3. assert (Forall is_byte (volume_sb d)) as Hb by (apply Forall_bytes_at; intros i Hi; apply Hbytes; lia).
  assert (forall p, 0 <= le16 (volume_sb d) p) as H16.
  { intros p. rewrite le16_sum by done. pose proof (is_byte_bget _ p Hb). pose proof (is_byte_bget _ (p + 1) Hb). unfold is_byte in *. lia. }
  split; [done..| |]; unfold volume_geo, fsck_geo_of; cbn [f_blocks f_inodes f_first f_logsz f_bpg f_ipg f_reserved_gdt f_first_ino].
  - split_and!; try apply (le32_range _ Hb). case_match; [done|apply H16].
  - case_match; [done|apply (le32_range _ Hb)].
Qed.

(** The checker stops at once on a volume it does not open, and otherwise goes on to the traversal. *)
Lemma fsck_errors_open : fsck_errors d =
  if opens d then with_refs F (volume_gd d) (all_inodes F (volume_gd d) d) (all_blocks F (volume_gd d) d) d else (Fail 2, d).
Proof using HL Hd Hbytes.
  unfold fsck_errors, opens. cbv zeta. destruct (Z.leb_spec 2048 (store_size d)) as [Hsz|Hsz]; cbn [andb].
  2: { apply bind_fail. unfold fail_as. rewrite store_read_out; first [done|ulia]. }
  rewrite (bind_done (fail_as 2 (store_read 1024 1024)) _ d (volume_sb d) d) by (apply fail_as_done, store_read_in; first [done|ulia]). change (fsck_geo_of (volume_sb d)) with F.
  destruct (le16 (volume_sb d) 56 =? 0xEF53); cbn [andb]; [rewrite (require_true _ true) by reflexivity|by rewrite (require_false _ false) by reflexivity].
  destruct (invalid_geometry F) eqn:Ev; cbn [negb andb]; [by rewrite (require_false _ false) by reflexivity|rewrite (require_true _ true) by reflexivity]. rewrite bind_gets.
  destruct (exceeds F (store_size d)) eqn:Ee; cbn [negb andb]; [by rewrite (require_false _ false) by reflexivity|rewrite (require_true _ true) by reflexivity].
  destruct (bad_groups F) eqn:Eg; cbn [negb andb]; [by rewrite (require_false _ false) by reflexivity|rewrite (require_true _ true) by reflexivity].
  pose proof (volume_geo_fine Hsz Ev Ee Eg) as HF. destruct (geo_bounds F d HF) as (Hbs & _ & _ & _ & _ & Hf & Hb & _). destruct (groups_bounds F d HF) as [Hgr _].
  destruct (Z.leb_spec ((f_first F + 1) * f_bs F + f_groups F * 32) (store_size d)) as [Hin|Hin]; cbn [andb].
  2: { apply bind_fail. unfold fail_as. rewrite store_read_out; first [done|ulia|nia]. }
  rewrite (bind_done (fail_as 2 (store_read _ _)) _ d (volume_gd d) d) by (apply fail_as_done, store_read_in; first [done|ulia|nia]).
  assert (Forall is_byte (volume_gd d)) as Hgd by (apply Forall_bytes_at; intros i Hi; apply Hbytes; nia).
  unfold all_inodes, all_blocks, bind at 1. rewrite load_inode_bitmaps_ok by done. destruct (forallb _ _); cbn [andb]; [|done].
  unfold bind at 1. rewrite load_block_bitmaps_ok by done. by destruct (forallb _ _).
Qed.

(** With [UINT32_MAX] inodes the last loop over them never ends: its counter wraps around. *)
Lemma check_links_diverges fuel ino e (s : fsck_state S) : f_inodes F = UINT32_MAX -> 0 <= ino <= UINT32_MAX -> check_links F fuel ino e s = (NoFuel, s).
Proof using.
  intros Hmax. revert ino e. induction fuel as [|fuel IH]; intros ino e Hi; cbn [check_links]; [done|]. rewrite Hmax, (proj2 (Z.ltb_ge _ _)) by lia.
  unfold bind at 1, get. apply IH. pose proof (u32_range (ino + 1)). ulia.
Qed.

(** C4: The EXT2 checker only reads; its exit status is 2 on a volume it does not
    open.  On every volume it opens that does not claim 2^32-1 inodes it ends,
    and the errors it counts are none exactly when the volume is consistent:
    bitmaps, counts, claims on blocks, directories and links all agree.  With
    2^32-1 inodes its last loop never ends ([check_links_diverges]). *)
Theorem ext2_fsck_decides : if opens d
  then f_inodes F <> UINT32_MAX -> exists e, fsck_errors d = (Done e, d) /\ ext2_fsck_phase1 d = (Done (if u32 e =? 0 then 0 else 1), d) /\ 0 <= e /\ (e = 0 <-> volume_consistent d)
  else ext2_fsck_phase1 d = (Fail 2, d).
Proof using HL Hd Hbytes.
  pose proof fsck_errors_open as E. destruct (opens d) eqn:Eo; [|by apply bind_fail]. intros Hmax. unfold opens in Eo. cbv zeta in Eo.
  apply andb_true_iff in Eo as [Eo _]. apply andb_true_iff in Eo as [Eo _]. apply andb_true_iff in Eo as [Eo Hin]. apply andb_true_iff in Eo as [Eo Hg].
  apply andb_true_iff in Eo as [Eo He]. apply andb_true_iff in Eo as [Eo Hv]. apply andb_true_iff in Eo as [Hsz _]. apply Z.leb_le in Hsz, Hin.
  pose proof (volume_geo_fine Hsz (proj1 (negb_true_iff _) Hv) (proj1 (negb_true_iff _) He) (proj1 (negb_true_iff _) Hg)) as HF.
  destruct (geo_bounds F d HF) as (Hbs & _ & _ & Hi & _ & Hf & _). destruct (groups_bounds F d HF) as [Hgr _].
  assert (Forall is_byte (volume_gd d)) as Hgd by (apply Forall_bytes_at; intros i Hj; apply Hbytes; nia).
  destruct (check_volume_ok F (volume_gd d) d HF Hd Hbytes Hgd ltac:(ulia)) as (e & s & Ec & Es & He0 & Hc).
  assert (fsck_errors d = (Done e, d)) as Ee; [|exists e; split; [done|]; split; [unfold ext2_fsck_phase1; by rewrite (bind_done _ _ d e d)|by split]].
  rewrite E. unfold with_refs. change (FsckState d _ _ _ _) with (start_state F (volume_gd d) d). change (FsckFixed _ _ _ _ _) with (volume_fixed F (volume_gd d) d).
  by rewrite Ec, Es.
Qed.
End decide.
