(* ===== verification/FsckSample.v ===== *)
(** * FsckSample: a volume for the EXT2 checker

    A consistent file system of nine blocks of 1024 bytes with an empty root
    directory, and what the checker says of it when one bit is wrong. *)
From S2P Require Import Prelude Store Ext2 Ext2Sample Fsck FsckJudge FsckInode FsckOk FsckDecide.
#[local] Open Scope Z_scope.

(** The superblock, the descriptor, the bitmaps (with [map] for the blocks), the inode table and the root directory. *)
Definition fx_root : list Z := splice ex_root 26 (put16 2).
Definition fx_blocks (map : Z) : list (list Z) :=
  [pad []; pad (splice ex_sb 20 (put32 1)); pad ex_gd; pad [map]; pad [3]; pad (zrep 128 0 ++ fx_root); dirent_bytes 2 12 2 [46] ++ dirent_bytes 2 1012 2 [46; 46]; pad []; pad []].
Definition fx_disk (map : Z) : memdisk := MemDisk (concat (fx_blocks map)).

Lemma fx_bytes map : is_byte map -> forall i, 0 <= i < store_size (fx_disk map) -> is_byte (store_at (fx_disk map) i).
Proof.
  intros Hm i _. apply is_byte_bget. unfold fx_disk, fx_blocks, pad. cbn [md_bytes concat]. repeat (apply Forall_app; split); try apply zrep0_bytes; try done; try decide_now.
  by constructor.
Qed.
Lemma fx_opens : opens (fx_disk 63) = true /\ opens (fx_disk 31) = true.
Proof. split; lazy; reflexivity. Qed.
Lemma fx_errors : (fsck_errors (fx_disk 63)).1 = Done 0 /\ (fsck_errors (fx_disk 31)).1 = Done 4.
Proof. split; lazy; reflexivity. Qed.

Lemma fx_inodes : f_inodes (volume_geo (fx_disk 63)) = 8 /\ f_inodes (volume_geo (fx_disk 31)) = 8.
Proof. split; lazy; reflexivity. Qed.

(** The root directory's block is allocated in the first volume and free in the second. *)
Lemma ext2_fsck_decides_witness : volume_consistent (fx_disk 63) /\ ~ volume_consistent (fx_disk 31) /\
  ext2_fsck_phase1 (fx_disk 63) = (Done 0, fx_disk 63) /\ ext2_fsck_phase1 (fx_disk 31) = (Done 1, fx_disk 31).
Proof.
  generalize (fx_bytes 63 ltac:(decide_now)) (fx_bytes 31 ltac:(decide_now)) fx_opens fx_errors fx_inodes. generalize (fx_disk 63) (fx_disk 31).
  intros a b Ba Bb [O1 O2] [X1 X2] [N1 N2].
  pose proof (ext2_fsck_decides a I Ba) as H1. pose proof (ext2_fsck_decides b I Bb) as H2. rewrite O1 in H1. rewrite O2 in H2.
  destruct H1 as (e1 & E1 & P1 & _ & C1); [by rewrite N1|]. destruct H2 as (e2 & E2 & P2 & _ & C2); [by rewrite N2|].
  rewrite E1 in X1. rewrite E2 in X2. injection X1 as ->. injection X2 as ->. split; [by apply C1|]. split; [intros H; apply C2 in H; discriminate|done].
Defined.
